(* ===== verification/_CoqProject ===== *)
-Q . S2P
Prelude.v
GoString.v
Digits.v
GoTime.v
TimeText.v
Base64.v
Sha256.v
Json.v
Db.v
World.v
Jobs.v
JobsSafety.v
JobsRows.v
Decimal.v
Order.v
Paging.v
Tables.v
JsonTree.v
JsonText.v
JsonQuote.v
JsonCompact.v
JsonDecode.v
Archive.v
ArchiveProofs.v
Act.v
Fetcher.v
FetcherProofs.v
Ingestion.v
IngestionProofs.v
JournalModel.v
Evidence.v
EvidenceProofs.v
EvidenceSeal.v
JournalService.v
JournalEffects.v
JournalSafety.v
Timeline.v
TimelineRows.v
TimelineProofs.v
TimelineMerge.v
Portfolio.v
PortfolioRows.v
Valuation.v
ValuationPaths.v
ValuationProofs.v
ValuationTheorems.v
Reconciliation.v
ReconciliationProofs.v
Zone.v
Quality.v
QualityProofs.v
ImportParser.v
ImportService.v
ImportProofs.v
PortfolioProofs.v
ImportServiceProofs.v
JournalTheorems.v
ScenarioModel.v
ScenarioInputs.v
Scenarios.v
ScenarioService.v
Risk.v
RiskEffects.v
ScenarioProofs.v
ScenarioSeal.v
ScenarioEvidence.v
ScenarioEffects.v
ScenarioSafety.v
ScenarioTheorems.v
RiskProofs.v
Collector.v
CollectorStore.v
CollectorCatalog.v
CollectorProofs.v
CollectorSafety.v
