(* ===== verification/Prelude.v ===== *)
(** * AtlasRisk: a verification library for the services of internal/

    AtlasRisk keeps point-in-time market data, portfolio snapshots, exact
    valuations, reconciliations, stress runs and decisions in PostgreSQL, with
    the raw provider payloads in an S3 bucket.  The library models its Go
    services as executable functions over tables and proves what makes them
    correct: exact arithmetic, no look-ahead, all-or-nothing transactions, leases
    that fence stale workers, single-use tokens, idempotent requests.

    ** Layers

    - Language and libraries.  This file holds Go errors and results, the
      development's tactics and the generic lemmas.  [GoString], [Digits],
      [GoTime], [TimeText], [Zone], [Base64], [Sha256], [JsonTree], [JsonText],
      [JsonQuote], [JsonCompact] and [JsonDecode] are the parts of strings,
      strconv, time, encoding/base64, crypto/sha256 and encoding/json the program
      calls; what is written is read back ([time_round_trip], [base64_round_trip],
      [unmarshal_marshal], [denotes_compact]).
      [Decimal] is [big.Rat] with the NUMERIC(38,18) codec.
    - Database.  [Db] is the connection: a state monad over the committed and the
      working store and over an arbitrary schedule of failures, one boolean per
      interaction with the server, with rules ([wp]) for each interaction.  A
      deferred rollback is that [run] drops what is not committed.  [World] adds a
      world no rollback undoes, the archive, and the logic of transactions over
      both: [triple] for a body, [tx] for a call with its commit, [calls] for the
      statements of a pool, each committed by itself.  [Act] is a call on the world
      alone.  [answer] is what a read gives when nothing fails.  [Order] is ORDER BY; [Paging] DISTINCT ON and
      keyset pages ([distinct_sorted_spec], [follow_all]); [Tables] the tables the
      services share.  Statements are
      functions on tables that keep the constraints of db/migrations.
    - Components, each a Module with its records, one definition per Go function
      and per SQL statement, followed by its proofs in files of their own.

    ** Components

    - [Json], [Jobs], [JobsSafety], [JobsRows]: internal/jobs/queue.go.  Canonical JSON and
      the job queue.  A step relation interleaves the calls of any workers;
      [queue_invariant], [rows_evolve] and [stale_claim_fenced] hold of every
      history, [claim_functional], [recover_exact] and [enqueue_idempotent] say
      what each call does; [advances] is what holds of the rows whatever becomes
      of the attempts.
    - [Portfolio], [PortfolioRows], [PortfolioProofs]:
      internal/application/portfolio/service.go, domain/portfolio/model.go,
      platform/database/portfolio.sql.go, triggers of migration 00004.  Every
      statement keeps the tables well formed ([RowInv]) and keeps what a snapshot
      depends on; over any history [portfolio_invariant], [snapshot_sealed];
      [create_snapshot_exact] says what a call stores and answers.
    - [Timeline], [TimelineRows], [TimelineProofs], [TimelineMerge]:
      internal/application/timeline/service.go, platform/database/timeline.sql.go.
      [shown] says what a listing is without its queries; a page is the start of
      it ([observations_exact]), the pages are all of it ([observations_paged],
      [cross_source_paged], [series_paged]); later revisions do not change a
      system-as-of answer ([as_of_stable]), whose limit is the latest view
      ([latest_is_as_of]).
    - [Valuation], [ValuationPaths], [ValuationProofs], [ValuationTheorems]:
      internal/application/valuation/service.go, domain/valuation/model.go.  The
      quotes behind a value were known and fresh ([valuation_no_lookahead]), the
      totals exact and bound by the hash ([valuation_totals_hash]), a valid run
      complete, a failed one without trace; paths are reversible, the price is
      the newest.
    - [Reconciliation], [ReconciliationProofs]:
      internal/application/reconciliation/service.go, domain/reconciliation/
      model.go, triggers of migration 00007.  Figures and verdict, line checks,
      tolerance versions, read back, atomicity.
    - [Quality], [QualityProofs]: internal/quality/evaluate.go, internal/
      application/quality/service.go, platform/database/quality.sql.go.  What a
      verdict means, which dates are missing, termination and its one exception.
    - [Archive], [ArchiveProofs]: internal/archive.  The classes [ContentStore]
      and [ArchiveReader] are what the archive promises its writers and readers;
      [S3Laws] what it asks of the service.
    - [Fetcher], [FetcherProofs], [Ingestion], [IngestionProofs]:
      internal/ingestion/fetcher.go, internal/ingestion/pipeline.go, migrations
      00001 and 00013.  A fetch is bounded and leaks no credential
      ([fetch_bounded], [redirect_safe]); over a run store that is an interface of
      operations, as in the code, a run that reports success has archived,
      registered and accounted for what it fetched ([run_delivers]); no history of
      the store in PostgreSQL loses evidence ([evidence_permanent]).
    - [JournalModel], [Evidence], [JournalService]: internal/domain/journal/
      model.go, internal/application/evidence/service.go,
      internal/application/journal/service.go, migrations 00010 and 00011.
      [EvidenceProofs] and [EvidenceSeal] show what a seal binds together
      ([manifest_sound]) and that a manifest is read back ([manifest_read]);
      [JournalEffects] what each call does; [JournalSafety] steps any calls with
      any failures and the work of the rest of the system on what the journal
      reads; [JournalTheorems] has the invariant, append-only timelines, and
      evidence given back byte for byte after any history.
    - [ScenarioModel], [ScenarioInputs], [Scenarios], [ScenarioService]:
      internal/application/scenarios/service.go, migrations 00009 and 00012: the
      checks on shocks, what is computed of price histories, the sealed inputs of
      a valuation, and the transaction that records a version with its run and its
      job in the queue of [Jobs].  [ScenarioProofs] has the shocks accepted, the
      choice of quotes, the days of cash and the net asset values;
      [ScenarioSeal] what a seal reads ([sees]) and where each entry comes from;
      [ScenarioEvidence] that the evidence service accepts what is sealed;
      [ScenarioEffects] what a call does; [ScenarioSafety] steps calls of the
      service and of the queue, cancellations and the services before them;
      [ScenarioTheorems] has numbering without gaps and permanence
      ([scenario_invariant]), one run per key ([scenario_idempotent]), all or
      nothing ([version_recorded]) and no look-ahead ([sealed_inputs_known]).
    - [Risk], [RiskEffects], [RiskProofs]: internal/application/risk/service.go.
      A submission answers the run recorded ([submit_reported]), a finished run
      is reported alike for ever ([run_status_final]), a cancellation is exact
      ([cancel_exact]) and leaves the attempt it interrupts open
      ([cancelled_attempt_stuck]), and the pages of positions are all of them
      ([positions_paged]).
    - [ImportParser], [ImportProofs], [ImportService], [ImportServiceProofs]:
      internal/imports.  The CSV parser, and the preview and the commit that
      spends its token, over the tables and the archive's world.
    - [Collector], [CollectorStore], [CollectorCatalog], [CollectorProofs],
      [CollectorSafety]: internal/collector/config.go, catalog.go, store.go,
      worker.go.  Validation and fingerprints of schedules, registration of the
      catalog, claims under a lease.  A validated configuration can be
      registered; stale claims are fenced; the schedule whose last attempt is
      lost is never due again.

    ** Parameters

    What is not Go source of the repository is an argument of the definitions
    that use it: PostgreSQL's casts ([uuid_text], [numeric_in], [jsonb_in]) and
    the identifiers, tokens and clock readings it draws; the calls of the S3
    service; package net/url; the zone database; [strconv.FormatFloat] on
    non-integral floats; the order in which a Go map is visited ([shuffle]).
    The laws assumed of them are stated where a theorem needs them, and every
    such theorem has a witness with the parameter instantiated.

    ** Bounds and fuel

    Go's int64 and time.Duration wrap where the program can reach the bound
    (quality policies, valuation ages, Retry-After, body limits).  The JSON reader takes twice the length
    of the text ([parse_value_enough]: more changes nothing); the loop over the days of a
    window takes explicit fuel, [evaluate_terminates] gives the amount that
    suffices and [evaluate_stuck_at_date_line] the locations where none does; for
    the days of constant cash twice the number asked for is enough
    ([constant_days_back]).

    ** Concurrency

    Calls are atomic steps between which any other call may run: the statements
    that decide take row or advisory locks, and rows locked by others are an
    argument where a statement skips them.  A run of the ingestion pipeline holds no
    lock: its own theorem is of a run by itself, and [evidence_permanent] is of its
    store calls in any interleaving.  A commit that fails is taken as not
    applied.

    ** Not modelled

    HTTP handlers and routing, the generated query and contract code, the
    migrations as such, process entry points, the web application and the Python
    risk engine; the provider clients, adapters and checkpoint stores and the
    collector's runner.  Tickers and goroutine scheduling have no counterpart in
    the models. *)

From Stdlib Require Export ZArith Lia Sorted.
From stdpp Require Export base list gmap strings.
#[global] Open Scope Z_scope.

(** ** Go errors *)

(** A Go [error] value.  [ENew m] is a sentinel made by [errors.New m],
    [EWrap c e] is [fmt.Errorf] with context [c] and the [%w] verb on [e],
    [ENoRows] is the driver's empty-result sentinel, [EDb] is any other
    failure reported by the database driver, [ECode c m] is a structured error
    carrying a machine-readable code, and [EPanic m] marks a run-time panic (a
    nil dereference or an out-of-range slice), which no caller in the program
    turns back into a value. *)
Inductive goerr : Set :=
  | ENew (msg : string)
  | EWrap (ctx : string) (e : goerr)
  | ECode (code msg : string)
  | EPanic (msg : string)
  | ENoRows
  | EDb.

#[export] Instance goerr_eq_dec : EqDecision goerr.
Proof. solve_decision. Defined.

(** [errors.Is]: walk the wrapping chain looking for the target. *)
Fixpoint errors_is (e target : goerr) : bool :=
  if decide (e = target) then true
  else match e with EWrap _ e' => errors_is e' target | _ => false end.

Lemma errors_is_self e : errors_is e e = true.
Proof. destruct e; cbn; by rewrite decide_True. Qed.

(** The outcome of a Go call returning [(value, error)]. *)
Inductive res (A : Type) : Type :=
  | Ok (a : A)
  | Err (e : goerr).
Arguments Ok {A} a.
Arguments Err {A} e.

Definition is_ok {A} (r : res A) : bool :=
  match r with Ok _ => true | Err _ => false end.

Definition res_bind {A B} (r : res A) (f : A -> res B) : res B :=
  match r with Ok a => f a | Err e => Err e end.

Declare Scope go_scope.
Delimit Scope go_scope with go.
#[global] Open Scope go_scope.

Notation "'let!' x := r 'in' k" := (res_bind r (fun x => k))
  (at level 10, x name, r at level 100, k at level 200, only parsing) : go_scope.

(** ** Tactics *)

(** Case analysis on the scrutinee of the innermost [match] or [if] of a
    hypothesis or of the goal, keeping the equation. *)
Ltac case_hyp H :=
  match type of H with
  | context [match ?x with _ => _ end] =>
      match x with context [match _ with _ => _ end] => fail 1 | _ => idtac end;
      let E := fresh "E" in destruct x eqn:E
  end.

Ltac case_goal :=
  match goal with
  | |- context [match ?x with _ => _ end] =>
      match x with context [match _ with _ => _ end] => fail 1 | _ => idtac end;
      let E := fresh "E" in destruct x eqn:E
  end.

(** Split every boolean conjunction and disjunction of the context into
    propositions and turn the integer tests into inequalities. *)
Ltac bool_simp :=
  repeat match goal with
  | H : andb _ _ = true |- _ => apply andb_prop in H; destruct H
  | H : orb _ _ = false |- _ => apply orb_false_elim in H; destruct H
  | H : negb _ = true |- _ => apply negb_true_iff in H
  | H : negb _ = false |- _ => apply negb_false_iff in H
  | H : Z.leb _ _ = true |- _ => apply Z.leb_le in H
  | H : Z.leb _ _ = false |- _ => apply Z.leb_gt in H
  | H : Z.ltb _ _ = true |- _ => apply Z.ltb_lt in H
  | H : Z.ltb _ _ = false |- _ => apply Z.ltb_ge in H
  | H : Z.eqb _ _ = true |- _ => apply Z.eqb_eq in H
  | H : Z.eqb _ _ = false |- _ => apply Z.eqb_neq in H
  | H : bool_decide _ = true |- _ => apply bool_decide_eq_true_1 in H
  | H : bool_decide _ = false |- _ => apply bool_decide_eq_false_1 in H
  end.

(** Compare constant texts. *)
Ltac decide_texts :=
  repeat match goal with
  | |- context [bool_decide (?a = ?b :> string)] =>
      let v := eval vm_compute in (bool_decide (a = b)) in
      lazymatch v with true => idtac | false => idtac end; change (bool_decide (a = b)) with v
  end; cbn iota beta zeta.

Create HintDb go discriminated.
Create Rewrite HintDb go.

(** ** Machine integers *)

Definition two63 : Z := 9223372036854775808.
Definition two64 : Z := 18446744073709551616.
Definition max_int64 : Z := two63 - 1.
Definition min_int64 : Z := - two63.

(** Reduction of a mathematical integer to Go's [int64]. *)
Definition wrap64 (z : Z) : Z := (z + two63) mod two64 - two63.

Lemma wrap64_id z : min_int64 <= z <= max_int64 -> wrap64 z = z.
Proof.
  unfold wrap64, min_int64, max_int64, two63, two64. intros.
  rewrite Z.mod_small; lia.
Qed.

Lemma wrap64_range z : min_int64 <= wrap64 z <= max_int64.
Proof.
  unfold wrap64, min_int64, max_int64, two63, two64.
  pose proof (Z.mod_pos_bound (z + 9223372036854775808) 18446744073709551616 ltac:(lia)). lia.
Qed.

#[export] Hint Resolve wrap64_range : go.

(** ** Generic list lemmas *)

Section lists.
Context {A B : Type}.

Lemma filter_nil_iff (P : A -> Prop) `{!forall x, Decision (P x)} (l : list A) :
  filter P l = [] <-> Forall (fun x => ~ P x) l.
Proof.
  induction l as [|x l IH]; [split; [constructor | done]|].
  rewrite filter_cons. case_decide as HP.
  - split; [done|]. intros HF. inversion HF; subst. contradiction.
  - rewrite IH. split; [by constructor | intros HF; by inversion HF].
Qed.
End lists.

Lemma is_Some_insert {A} (m : gmap string A) k x i : is_Some (m !! i) -> is_Some (<[k := x]> m !! i).
Proof. rewrite lookup_insert. case_decide; [by eexists|done]. Qed.

(** First element of least rank, scanning from the left; used for
    [ORDER BY ... LIMIT 1]. *)
Section minimum.
Context {A : Type} (lt : A -> A -> bool).

Fixpoint min_from (best : A) (l : list A) : A :=
  match l with
  | [] => best
  | x :: l' => min_from (if lt x best then x else best) l'
  end.

Definition min_of (l : list A) : option A :=
  match l with [] => None | x :: l' => Some (min_from x l') end.

Lemma min_from_elem best l : min_from best l = best \/ min_from best l ∈ l.
Proof.
  revert best; induction l as [|x l IH]; intros best; simpl; [by left|].
  destruct (IH (if lt x best then x else best)) as [->|Hin].
  - destruct (lt x best); [right; constructor | by left].
  - right. by constructor.
Qed.

Lemma min_of_elem l x : min_of l = Some x -> x ∈ l.
Proof.
  destruct l as [|y l]; simpl; [done|]. intros [= <-].
  destruct (min_from_elem y l) as [->|]; by constructor.
Qed.

Lemma min_of_None l : min_of l = None <-> l = [].
Proof. destruct l; simpl; split; done. Qed.

Context (lt_trans_neg : forall x y z, lt y x = false -> lt z y = false -> lt z x = false).
Context (lt_asym : forall x y, lt x y = true -> lt y x = false).
Context (lt_irr : forall x, lt x x = false).

Lemma min_from_least best l y :
  y = best \/ y ∈ l -> lt y (min_from best l) = false.
Proof.
  revert best y; induction l as [|x l IH]; intros best y Hy; simpl.
  - destruct Hy as [->|Hy]; [apply lt_irr | by apply not_elem_of_nil in Hy].
  - rewrite elem_of_cons in Hy.
    assert (Hb : lt (if lt x best then x else best)
                    (min_from (if lt x best then x else best) l) = false)
      by (apply IH; by left).
    destruct Hy as [->|[->|Hy]]; [| |apply IH; by right].
    + destruct (lt x best) eqn:E; [|done].
      eapply lt_trans_neg; [exact Hb|]. by apply lt_asym.
    + destruct (lt x best) eqn:E; [done|].
      eapply lt_trans_neg; [exact Hb|]. exact E.
Qed.

Lemma min_of_least l x y : min_of l = Some x -> y ∈ l -> lt y x = false.
Proof.
  destruct l as [|z l]; simpl; [done|]. intros [= <-] Hy.
  apply min_from_least. by rewrite <- elem_of_cons.
Qed.
End minimum.

(** Insertion sort as package [sort] performs it on a block: each element moves
    left while it is less than its neighbour.  [sort.SliceStable] is this on up
    to twenty elements; beyond, on a strict weak order, it gives the same result
    (a stable sort is unique). It also renders ORDER BY with a total order. *)
Section insertion_sort.
Context {A : Type} (lt : A -> A -> bool).

(** Insertion into the sorted part, held last element first. *)
Fixpoint insert_rev (x : A) (acc : list A) : list A :=
  match acc with
  | [] => [x]
  | y :: acc' => if lt x y then y :: insert_rev x acc' else x :: acc
  end.

Definition insertion_sort (l : list A) : list A :=
  reverse (fold_left (fun acc x => insert_rev x acc) l []).

Lemma insert_rev_perm x l : insert_rev x l ≡ₚ x :: l.
Proof.
  induction l as [|y l IH]; simpl; [done|]. destruct (lt x y); [|done].
  rewrite IH. constructor.
Qed.

Lemma fold_insert_perm l acc :
  fold_left (fun acc x => insert_rev x acc) l acc ≡ₚ l ++ acc.
Proof.
  revert acc; induction l as [|x l IH]; intros acc; simpl; [done|].
  rewrite IH, insert_rev_perm. by rewrite Permutation_middle.
Qed.

Lemma insertion_sort_perm l : insertion_sort l ≡ₚ l.
Proof. unfold insertion_sort. by rewrite reverse_Permutation, fold_insert_perm, app_nil_r. Qed.

Lemma insertion_sort_elem l x : x ∈ insertion_sort l <-> x ∈ l.
Proof. by rewrite insertion_sort_perm. Qed.

Lemma StronglySorted_snoc (R : A -> A -> Prop) l x :
  StronglySorted R l -> Forall (fun y => R y x) l -> StronglySorted R (l ++ [x]).
Proof.
  induction 1 as [|y l Hs IH HF]; intros Hx; simpl; [repeat constructor|].
  inversion Hx; subst. constructor; [by apply IH|]. apply Forall_app. by repeat constructor.
Qed.

(** The result is sorted in every transitive relation the comparison refines,
    even when the comparison is not an order itself. *)
Section refined.
Context (R : A -> A -> Prop) `{!Transitive R}.
Context (lt_R : forall x y, lt x y = true -> R x y) (not_lt_R : forall x y, lt x y = false -> R y x).

Lemma insert_rev_refined x l : StronglySorted (flip R) l -> StronglySorted (flip R) (insert_rev x l).
Proof.
  induction 1 as [|y l Hs IH HF]; simpl; [repeat constructor|].
  destruct (lt x y) eqn:E.
  - constructor; [done|]. rewrite insert_rev_perm. constructor; [by apply lt_R|done].
  - constructor; [by constructor|]. constructor; [by apply not_lt_R|].
    eapply Forall_impl; [exact HF|]. intros z Hz. unfold flip in *. etransitivity; [exact Hz|by apply not_lt_R].
Qed.

Lemma insertion_sort_refined l : StronglySorted R (insertion_sort l).
Proof.
  unfold insertion_sort.
  assert (Hrev : forall acc, StronglySorted (flip R) acc -> StronglySorted R (reverse acc)).
  { induction 1 as [|y acc Hs IH HF]; [constructor|]. rewrite reverse_cons.
    apply StronglySorted_snoc; [done|]. by rewrite reverse_Permutation. }
  apply Hrev. assert (H : StronglySorted (flip R) []) by constructor. revert H.
  generalize (@nil A) as acc. induction l as [|x l IH]; intros acc Ha; simpl; [done|].
  by apply IH, insert_rev_refined.
Qed.
End refined.

Context (lt_trans_neg : forall x y z, lt y x = false -> lt z y = false -> lt z x = false).
Context (lt_asym : forall x y, lt x y = true -> lt y x = false).

(** Sorted: no later element is below an earlier one. *)
Definition below (x y : A) : Prop := lt y x = false.

Lemma insertion_sort_sorted l : StronglySorted below (insertion_sort l).
Proof.
  apply insertion_sort_refined; [|exact lt_asym|done].
  intros x y z Hxy Hyz. by eapply lt_trans_neg.
Qed.
End insertion_sort.

(** Sorting related lists by related orders gives related lists. *)
Lemma insertion_sort_Forall2 {A B} (lt : A -> A -> bool) (lt' : B -> B -> bool) (R : A -> B -> Prop)
    (HR : forall x y x' y', R x x' -> R y y' -> lt x y = lt' x' y') l l' :
  Forall2 R l l' -> Forall2 R (insertion_sort lt l) (insertion_sort lt' l').
Proof.
  assert (Hins : forall x x' acc acc', R x x' -> Forall2 R acc acc' ->
            Forall2 R (insert_rev lt x acc) (insert_rev lt' x' acc')).
  { intros x x' acc acc' Hx. induction 1 as [|y y' acc acc' Hy Ha IH]; cbn; [by repeat constructor|].
    rewrite (HR x y x' y') by done. case_match; repeat (constructor; try done). }
  intros Hl. unfold insertion_sort. apply Forall2_reverse.
  assert (Hacc : Forall2 R [] []) by constructor. revert Hacc.
  generalize (@nil A) as acc, (@nil B) as acc'.
  induction Hl as [|x x' l l' Hx Hl IH]; intros acc acc' Hacc; cbn; [done|]. by apply IH, Hins.
Qed.
