(* ===== verification/GoString.v ===== *)
(** Go strings and the functions of package [strings] the program calls.

    A Go string is a sequence of bytes; it is represented by [string], whose
    characters are bytes.  The functions below are executable renderings of the
    standard library's behaviour.  Case mapping is exact on ASCII and on the
    four non-ASCII letters whose simple case mapping is an ASCII letter; every
    other non-ASCII rune is left unchanged, which no caller can observe because
    results are only compared with ASCII patterns. *)

From S2P Require Import Prelude.
From Stdlib Require Import Ascii.
Close Scope nat_scope.
#[local] Open Scope Z_scope.

Abbreviation chars := String.list_ascii_of_string.
Abbreviation of_chars := String.string_of_list_ascii.

(** The byte value of a character. *)
Definition code (c : ascii) : Z := Z.of_N (N_of_ascii c).
Definition chr (z : Z) : ascii := ascii_of_N (Z.to_N z).

Definition slen (s : string) : Z := Z.of_nat (String.length s).

Definition is_digit (c : ascii) : bool := (48 <=? code c) && (code c <=? 57).
Definition is_lower (c : ascii) : bool := (97 <=? code c) && (code c <=? 122).
Definition is_upper (c : ascii) : bool := (65 <=? code c) && (code c <=? 90).
Definition is_hex (c : ascii) : bool :=
  is_digit c || ((97 <=? code c) && (code c <=? 102)) || ((65 <=? code c) && (code c <=? 70)).
Definition is_lower_hex (c : ascii) : bool :=
  is_digit c || ((97 <=? code c) && (code c <=? 102)).

(** ** Prefixes and suffixes *)

Fixpoint strip_prefix (p s : list ascii) : option (list ascii) :=
  match p, s with
  | [], _ => Some s
  | a :: p', b :: s' => if Ascii.eqb a b then strip_prefix p' s' else None
  | _ :: _, [] => None
  end.

Definition has_prefix (s p : string) : bool :=
  bool_decide (is_Some (strip_prefix (chars p) (chars s))).

Definition trim_prefix (s p : string) : string :=
  match strip_prefix (chars p) (chars s) with Some r => of_chars r | None => s end.

Definition strip_suffix (p s : list ascii) : option (list ascii) :=
  option_map (@reverse _) (strip_prefix (reverse p) (reverse s)).

Definition has_suffix (s p : string) : bool :=
  bool_decide (is_Some (strip_suffix (chars p) (chars s))).

Definition trim_suffix (s p : string) : string :=
  match strip_suffix (chars p) (chars s) with Some r => of_chars r | None => s end.

(** [strings.Contains]: [p] occurs in [s]. *)
Fixpoint contains_chars (p s : list ascii) : bool :=
  bool_decide (is_Some (strip_prefix p s)) ||
  match s with [] => false | _ :: s' => contains_chars p s' end.
Definition contains (s p : string) : bool := contains_chars (chars p) (chars s).

(** [strings.ContainsAny] for an ASCII character set. *)
Definition contains_any (s set : string) : bool :=
  existsb (fun c => existsb (Ascii.eqb c) (chars set)) (chars s).

(** ** White space: [strings.TrimSpace] *)

(** The number of bytes of the Unicode white-space rune the bytes start with,
    zero when they start with none. *)
Definition space_width (s : list Z) : nat :=
  match s with
  | b :: r =>
      if (b =? 32) || ((9 <=? b) && (b <=? 13)) then 1%nat
      else match b, r with
      | 194, c :: _ => if (c =? 133) || (c =? 160) then 2%nat else 0%nat
      | 225, 154 :: 128 :: _ => 3%nat
      | 226, 128 :: c :: _ =>
          if ((128 <=? c) && (c <=? 138)) || (c =? 168) || (c =? 169) || (c =? 175)
          then 3%nat else 0%nat
      | 226, 129 :: 159 :: _ => 3%nat
      | 227, 128 :: 128 :: _ => 3%nat
      | _, _ => 0%nat
      end
  | [] => 0%nat
  end.

(** The same for the end of the string, whose bytes are given reversed. *)
Definition space_width_rev (s : list Z) : nat :=
  match s with
  | b :: r =>
      if (b =? 32) || ((9 <=? b) && (b <=? 13)) then 1%nat
      else match b, r with
      | c, 194 :: _ => if (c =? 133) || (c =? 160) then 2%nat else 0%nat
      | 128, 154 :: 225 :: _ => 3%nat
      | 159, 129 :: 226 :: _ => 3%nat
      | 128, 128 :: 227 :: _ => 3%nat
      | c, 128 :: 226 :: _ =>
          if ((128 <=? c) && (c <=? 138)) || (c =? 168) || (c =? 169) || (c =? 175)
          then 3%nat else 0%nat
      | _, _ => 0%nat
      end
  | [] => 0%nat
  end.

(** Drop white-space runes while the width function finds one; the length of
    the string bounds the number of rounds. *)
Fixpoint drop_space (width : list Z -> nat) (fuel : nat) (s : list ascii) : list ascii :=
  match fuel with
  | O => s
  | S fuel' =>
      match width (code <$> s) with
      | O => s
      | n => drop_space width fuel' (drop n s)
      end
  end.

Definition trim_left_chars (s : list ascii) : list ascii :=
  drop_space space_width (length s) s.
Definition trim_right_chars (s : list ascii) : list ascii :=
  reverse (drop_space space_width_rev (length s) (reverse s)).

Definition trim_space (s : string) : string :=
  of_chars (trim_right_chars (trim_left_chars (chars s))).

(** [strings.TrimLeft(s, "c")] for a one-character set. *)
Fixpoint trim_left_char (c : ascii) (s : list ascii) : list ascii :=
  match s with
  | a :: s' => if Ascii.eqb a c then trim_left_char c s' else s
  | [] => []
  end.
Definition trim_both_char (c : ascii) (s : list ascii) : list ascii :=
  reverse (trim_left_char c (reverse (trim_left_char c s))).

(** ** Case mapping *)

Definition lower_ascii (c : ascii) : ascii := if is_upper c then chr (code c + 32) else c.
Definition upper_ascii (c : ascii) : ascii := if is_lower c then chr (code c - 32) else c.

(** [U+0130] and [U+212A] are lowered to ["i"] and ["k"]. *)
Fixpoint lower_chars (s : list ascii) : list ascii :=
  match s with
  | a :: s' =>
      match code a, s' with
      | 196, b :: s'' =>
          if code b =? 176 then "i"%char :: lower_chars s'' else a :: lower_chars s'
      | 226, b :: s'' =>
          match s'' with
          | c :: s''' =>
              if (code b =? 132) && (code c =? 170) then "k"%char :: lower_chars s'''
              else a :: lower_chars s'
          | [] => a :: lower_chars s'
          end
      | _, _ => lower_ascii a :: lower_chars s'
      end
  | [] => []
  end.
Definition to_lower (s : string) : string := of_chars (lower_chars (chars s)).

(** [U+0131] and [U+017F] are raised to ["I"] and ["S"]. *)
Fixpoint upper_chars (s : list ascii) : list ascii :=
  match s with
  | a :: s' =>
      match code a, s' with
      | 196, b :: s'' =>
          if code b =? 177 then "I"%char :: upper_chars s'' else a :: upper_chars s'
      | 197, b :: s'' =>
          if code b =? 191 then "S"%char :: upper_chars s'' else a :: upper_chars s'
      | _, _ => upper_ascii a :: upper_chars s'
      end
  | [] => []
  end.
Definition to_upper (s : string) : string := of_chars (upper_chars (chars s)).

(** [strings.EqualFold]: [U+017F] folds with ["s"] and [U+212A] with ["k"]. *)
Fixpoint fold_chars (s : list ascii) : list ascii :=
  match s with
  | a :: s' =>
      match code a, s' with
      | 197, b :: s'' =>
          if code b =? 191 then "s"%char :: fold_chars s'' else a :: fold_chars s'
      | 226, b :: s'' =>
          match s'' with
          | c :: s''' =>
              if (code b =? 132) && (code c =? 170) then "k"%char :: fold_chars s'''
              else a :: fold_chars s'
          | [] => a :: fold_chars s'
          end
      | _, _ => lower_ascii a :: fold_chars s'
      end
  | [] => []
  end.
Definition equal_fold (s t : string) : bool :=
  bool_decide (fold_chars (chars s) = fold_chars (chars t)).

(** ** Splitting and joining *)

(** [strings.Split] on a one-character separator. *)
Fixpoint split_char (sep : ascii) (s : list ascii) : list (list ascii) :=
  match s with
  | [] => [[]]
  | c :: s' =>
      if Ascii.eqb c sep then [] :: split_char sep s'
      else match split_char sep s' with
           | p :: ps => (c :: p) :: ps
           | [] => [[c]]
           end
  end.

(** [strings.SplitN(s, ".", 2)]: cut at the first separator. *)
Fixpoint cut_char (sep : ascii) (s : list ascii) : list ascii * option (list ascii) :=
  match s with
  | [] => ([], None)
  | c :: s' =>
      if Ascii.eqb c sep then ([], Some s')
      else let '(p, r) := cut_char sep s' in (c :: p, r)
  end.

Fixpoint join (sep : string) (l : list string) : string :=
  match l with
  | [] => ""%string
  | [x] => x
  | x :: l' => (x ++ sep ++ join sep l')%string
  end.

(** Byte-wise string order, Go's [<] on strings. *)
Fixpoint chars_ltb (s t : list ascii) : bool :=
  match s, t with
  | [], [] => false
  | [], _ :: _ => true
  | _ :: _, [] => false
  | a :: s', b :: t' =>
      if code a <? code b then true
      else if code b <? code a then false else chars_ltb s' t'
  end.
Definition string_ltb (s t : string) : bool := chars_ltb (chars s) (chars t).

Definition nul : string := of_chars [chr 0].

(** ** Lemmas *)

Lemma code_range c : 0 <= code c < 256.
Proof. destruct c as [[] [] [] [] [] [] [] []]; vm_compute; split; congruence. Qed.

Lemma chr_code c : chr (code c) = c.
Proof. unfold chr, code. by rewrite N2Z.id, ascii_N_embedding. Qed.

Lemma code_chr z : 0 <= z < 256 -> code (chr z) = z.
Proof.
  intros H. unfold chr, code. rewrite N_ascii_embedding by lia. lia.
Qed.

Lemma code_inj a b : code a = code b -> a = b.
Proof. intros H. rewrite <- (chr_code a), <- (chr_code b). by rewrite H. Qed.

Lemma of_chars_chars s : of_chars (chars s) = s.
Proof. apply String.string_of_list_ascii_of_string. Qed.

Lemma chars_of_chars l : chars (of_chars l) = l.
Proof. apply String.list_ascii_of_string_of_list_ascii. Qed.

Lemma chars_app s t : chars (s ++ t)%string = chars s ++ chars t.
Proof. induction s as [|c s IH]; simpl; [done|]. by rewrite IH. Qed.

Lemma length_chars s : length (chars s) = String.length s.
Proof. induction s as [|c s IH]; simpl; [done|]. by rewrite IH. Qed.

Lemma chars_inj s t : chars s = chars t -> s = t.
Proof. intros H. rewrite <- (of_chars_chars s), <- (of_chars_chars t). by rewrite H. Qed.

Lemma slen_app s t : slen (s ++ t)%string = slen s + slen t.
Proof. unfold slen. rewrite <- !length_chars, chars_app, length_app. lia. Qed.

#[export] Hint Rewrite chars_app chars_of_chars of_chars_chars slen_app : go.

Lemma chars_ltb_irrefl s : chars_ltb s s = false.
Proof. induction s as [|a s IH]; simpl; [done|]. by rewrite Z.ltb_irrefl. Qed.

Lemma chars_ltb_trichotomy s t : chars_ltb s t = false -> chars_ltb t s = false -> s = t.
Proof.
  revert t; induction s as [|a s IH]; intros [|b t]; simpl; try done.
  destruct (Z.ltb_spec (code a) (code b)), (Z.ltb_spec (code b) (code a)); try done.
  intros H1 H2. f_equal; [apply code_inj; lia | by apply IH].
Qed.

Lemma chars_ltb_asym s t : chars_ltb s t = true -> chars_ltb t s = false.
Proof.
  revert t; induction s as [|a s IH]; intros [|b t]; simpl; try done.
  destruct (Z.ltb_spec (code a) (code b)), (Z.ltb_spec (code b) (code a)); try done; try lia.
  apply IH.
Qed.

(** "Not below" is transitive, so the order is a strict weak order. *)
Lemma chars_ltb_le_trans s t u :
  chars_ltb t s = false -> chars_ltb u t = false -> chars_ltb u s = false.
Proof.
  revert t u; induction s as [|a s IH]; intros [|b t] [|c u]; simpl; try done.
  destruct (Z.ltb_spec (code b) (code a)), (Z.ltb_spec (code a) (code b)),
    (Z.ltb_spec (code c) (code b)), (Z.ltb_spec (code b) (code c)),
    (Z.ltb_spec (code c) (code a)), (Z.ltb_spec (code a) (code c)); try done; try lia.
  apply IH.
Qed.

Lemma string_ltb_irrefl s : string_ltb s s = false.
Proof. apply chars_ltb_irrefl. Qed.

Lemma string_ltb_asym s t : string_ltb s t = true -> string_ltb t s = false.
Proof. apply chars_ltb_asym. Qed.

Lemma string_ltb_le_trans s t u :
  string_ltb t s = false -> string_ltb u t = false -> string_ltb u s = false.
Proof. apply chars_ltb_le_trans. Qed.

Lemma string_ltb_eq s t : string_ltb s t = false -> string_ltb t s = false -> s = t.
Proof. intros H1 H2. apply chars_inj. by apply chars_ltb_trichotomy. Qed.

#[export] Hint Resolve string_ltb_irrefl string_ltb_asym string_ltb_le_trans : go.

Lemma strip_prefix_Some p s r : strip_prefix p s = Some r <-> s = p ++ r.
Proof.
  revert s; induction p as [|a p IH]; intros [|b s]; simpl; try (split; congruence).
  destruct (Ascii.eqb_spec a b) as [->|Hne]; [rewrite IH|]; split; congruence.
Qed.

Lemma has_prefix_app p t : has_prefix (p ++ t)%string p = true.
Proof.
  unfold has_prefix. apply bool_decide_eq_true. exists (chars t).
  rewrite strip_prefix_Some. by rewrite chars_app.
Qed.

Example trim_space_ex : trim_space "  a b  "%string = "a b"%string.
Proof. reflexivity. Qed.
Example equal_fold_ex : equal_fold "try"%string "TRY"%string = true.
Proof. reflexivity. Qed.

(** ** UTF-8 *)

Definition cont (b : Z) : bool := (128 <=? b) && (b <=? 191).

(** The width of the valid UTF-8 encoding the bytes start with, zero when they
    start with none ([utf8.DecodeRune] then reports width one and RuneError). *)
Definition utf8_width (s : list Z) : nat :=
  match s with
  | [] => 0%nat
  | a :: r =>
      if a <? 128 then 1%nat
      else if (194 <=? a) && (a <=? 223) then
        match r with b :: _ => if cont b then 2%nat else 0%nat | _ => 0%nat end
      else if (224 <=? a) && (a <=? 239) then
        match r with
        | b :: c :: _ =>
            if (if a =? 224 then (160 <=? b) && (b <=? 191)
                else if a =? 237 then (128 <=? b) && (b <=? 159) else cont b) && cont c
            then 3%nat else 0%nat
        | _ => 0%nat
        end
      else if (240 <=? a) && (a <=? 244) then
        match r with
        | b :: c :: d :: _ =>
            if (if a =? 240 then (144 <=? b) && (b <=? 191)
                else if a =? 244 then (128 <=? b) && (b <=? 143) else cont b)
               && cont c && cont d
            then 4%nat else 0%nat
        | _ => 0%nat
        end
      else 0%nat
  end.

Fixpoint utf8_valid_from (fuel : nat) (s : list Z) : bool :=
  match s, fuel with
  | [], _ => true
  | _, O => false
  | _, S fuel' =>
      match utf8_width s with
      | O => false
      | n => utf8_valid_from fuel' (drop n s)
      end
  end.

(** [utf8.Valid]: every rune takes at least one byte, so the length bounds the
    number of rounds. *)
Definition utf8_valid (s : string) : bool :=
  utf8_valid_from (String.length s) (code <$> chars s).

(** ** More lemmas *)

Lemma cut_char_none c s : Forall (fun a => a <> c) s -> cut_char c s = (s, None).
Proof.
  induction s as [|a s IH]; intros H; [done|]. inversion H as [|? ? Ha Hs]; subst. cbn.
  destruct (Ascii.eqb_spec a c); [done|]. by rewrite IH.
Qed.

Lemma cut_char_app c s t : Forall (fun a => a <> c) s -> cut_char c (s ++ c :: t) = (s, Some t).
Proof.
  induction s as [|a s IH]; intros H; cbn.
  - by rewrite Ascii.eqb_refl.
  - inversion H as [|? ? Ha Hs]; subst. destruct (Ascii.eqb_spec a c); [done|]. by rewrite IH.
Qed.


(** Texts without white space at either end are left alone by TrimSpace. *)
Definition solid (c : ascii) : bool := (33 <=? code c) && (code c <=? 126).

Lemma space_width_solid c r : solid c = true -> space_width (code c :: r) = 0%nat.
Proof.
  unfold solid. intros H. bool_simp. unfold space_width.
  destruct ((code c =? 32) || ((9 <=? code c) && (code c <=? 13))) eqn:E.
  - apply orb_prop in E as [E|E]; bool_simp; lia.
  - destruct (code c) as [|p|p] eqn:Ep; [done| |done].
    repeat (destruct p as [p|p|]; try done; try lia).
Qed.

Lemma space_width_rev_solid c r : solid c = true -> space_width_rev (code c :: r) = 0%nat.
Proof.
  unfold solid. intros H. bool_simp. unfold space_width_rev.
  destruct ((code c =? 32) || ((9 <=? code c) && (code c <=? 13))) eqn:E.
  - apply orb_prop in E as [E|E]; bool_simp; lia.
  - assert (Hx : (code c =? 133) || (code c =? 160) = false).
    { apply orb_false_iff. rewrite !Z.eqb_neq. lia. }
    assert (Hy : ((128 <=? code c) && (code c <=? 138)) || (code c =? 168) || (code c =? 169)
                 || (code c =? 175) = false).
    { rewrite !orb_false_iff, andb_false_iff, !Z.eqb_neq, Z.leb_gt. lia. }
    set (z := code c) in *. clearbody z.
    destruct r as [|b r]; [repeat case_match; done|].
    rewrite Hx, Hy. repeat case_match; try done; try lia.
Qed.

Lemma trim_left_solid c r : solid c = true -> trim_left_chars (c :: r) = c :: r.
Proof.
  intros H. unfold trim_left_chars. cbn [length drop_space].
  by rewrite fmap_cons, space_width_solid.
Qed.

Lemma trim_right_solid c r : solid c = true -> trim_right_chars (r ++ [c]) = r ++ [c].
Proof.
  intros H. unfold trim_right_chars. rewrite reverse_app. cbn [reverse app].
  rewrite length_app. cbn [length]. rewrite Nat.add_comm. cbn [Nat.add drop_space].
  rewrite reverse_singleton. cbn [app]. rewrite fmap_cons, space_width_rev_solid by done.
  by rewrite reverse_cons, reverse_involutive.
Qed.

Lemma trim_space_solid s c r r' c' :
  chars s = c :: r -> chars s = r' ++ [c'] -> solid c = true -> solid c' = true ->
  trim_space s = s.
Proof.
  intros H1 H2 Hc Hc'. unfold trim_space. rewrite H1, trim_left_solid by done.
  rewrite <- H1, H2, trim_right_solid by done. rewrite <- H2. apply of_chars_chars.
Qed.

Lemma lower_chars_ascii s :
  Forall (fun c => is_upper c = false /\ code c < 128) s -> lower_chars s = s.
Proof.
  induction 1 as [|c s [Hu Hc] Hs IH]; [done|]. cbn [lower_chars]. unfold lower_ascii.
  rewrite Hu, IH. destruct (code c) as [|p|p] eqn:E; [done| |done].
  repeat (destruct p as [p|p|]; try done; try lia).
Qed.

Lemma lower_hex_cases c :
  is_lower_hex c = true -> is_upper c = false /\ is_hex c = true /\ solid c = true /\ code c < 128.
Proof.
  unfold is_lower_hex, is_upper, is_hex, is_digit, solid. intros H.
  apply orb_prop in H as [H|H]; bool_simp;
    rewrite ?andb_false_iff, ?orb_true_iff, ?andb_true_iff, ?Z.leb_gt, ?Z.leb_le; lia.
Qed.

(** Lower-case hexadecimal text is left alone by [ToLower] and [TrimSpace]. *)
Lemma lower_hex_lower s : forallb is_lower_hex (chars s) = true -> to_lower s = s.
Proof.
  intros H. unfold to_lower. rewrite lower_chars_ascii, of_chars_chars; [done|].
  rewrite Forall_forall. intros c Hc. rewrite forallb_forall in H. rewrite list_elem_of_In in Hc.
  destruct (lower_hex_cases c (H c Hc)) as (? & _ & _ & ?). done.
Qed.

Lemma lower_hex_trim s : forallb is_lower_hex (chars s) = true -> trim_space s = s.
Proof.
  intros H. destruct (chars s) as [|c r] eqn:Ec.
  - rewrite <- (of_chars_chars s), Ec. done.
  - destruct (exists_last (l := c :: r)) as (r' & c' & Er); [done|].
    rewrite forallb_forall in H.
    eapply (trim_space_solid s c r r' c'); [done|by rewrite Ec|..].
    + destruct (lower_hex_cases c (H c (or_introl eq_refl))) as (_ & _ & ? & _). done.
    + destruct (lower_hex_cases c') as (_ & _ & ? & _); [|done]. apply H. rewrite Er.
      apply in_or_app. right. by left.
Qed.
