(* ===== verification/Digits.v ===== *)
(** Decimal digits of integers: printing ([strconv], [big.Int.String]) and the
    value of a digit string, with the lemmas every decimal codec of the
    development shares. *)

From S2P Require Import Prelude GoString.
From Stdlib Require Import Ascii.

Definition digit_char (d : Z) : ascii := chr (48 + d).
Definition digit_val (c : ascii) : Z := code c - 48.

Fixpoint digits_from (fuel : nat) (z : Z) (acc : list ascii) : list ascii :=
  match fuel with
  | O => acc
  | S fuel' =>
      let acc' := digit_char (z mod 10) :: acc in
      if z <? 10 then acc' else digits_from fuel' (z / 10) acc'
  end.

(** Decimal digits of a non-negative integer; a number has at most as many
    decimal as binary digits, so the fuel suffices. *)
Definition digits (z : Z) : list ascii := digits_from (S (Z.to_nat (Z.log2 z))) z [].

Definition format_int (z : Z) : string :=
  of_chars (if z <? 0 then "-"%char :: digits (- z) else digits z).

(** The number a digit string denotes, most significant digit first. *)
Definition dval (s : list ascii) : Z := fold_left (fun acc c => 10 * acc + digit_val c) s 0.

Definition all_digits (s : list ascii) : bool := forallb is_digit s.

(** [strconv.Atoi]; [None] when it reports an error. *)
Definition atoi (s : string) : option Z :=
  let '(sign, ds) := match chars s with
                     | c :: r => if Ascii.eqb c "-" then (-1, r) else if Ascii.eqb c "+" then (1, r) else (1, c :: r)
                     | [] => (1, [])
                     end in
  match ds with
  | [] => None
  | _ :: _ =>
      if all_digits ds then
        let z := sign * dval ds in
        if (min_int64 <=? z) && (z <=? max_int64) then Some z else None
      else None
  end.

Example atoi_ex : (atoi "-042", atoi "9223372036854775808", atoi "1_0", atoi "+", atoi "+7") = (Some (-42), None, None, None, Some 7).
Proof. vm_compute. reflexivity. Qed.

Lemma digit_char_val d : 0 <= d < 10 -> digit_val (digit_char d) = d.
Proof. intros. unfold digit_val, digit_char. rewrite code_chr by lia. lia. Qed.

Lemma digit_char_digit d : 0 <= d < 10 -> is_digit (digit_char d) = true.
Proof.
  intros. unfold is_digit, digit_char. rewrite code_chr by lia.
  rewrite andb_true_iff, !Z.leb_le. lia.
Qed.

Lemma digit_val_range c : is_digit c = true -> 0 <= digit_val c < 10.
Proof. unfold is_digit, digit_val. intros. bool_simp. lia. Qed.

Lemma dval_acc s a :
  fold_left (fun acc c => 10 * acc + digit_val c) s a = a * 10 ^ Z.of_nat (length s) + dval s.
Proof.
  revert a; induction s as [|c s IH]; intros a; [unfold dval; simpl; lia|].
  unfold dval. simpl fold_left. rewrite IH, (IH (10 * 0 + digit_val c)).
  replace (Z.of_nat (length (c :: s))) with (Z.succ (Z.of_nat (length s))) by (simpl; lia).
  rewrite Z.pow_succ_r by lia. ring.
Qed.

Lemma dval_cons c s : dval (c :: s) = digit_val c * 10 ^ Z.of_nat (length s) + dval s.
Proof. unfold dval at 1. simpl fold_left. apply dval_acc. Qed.

Lemma dval_app s t : dval (s ++ t) = dval s * 10 ^ Z.of_nat (length t) + dval t.
Proof. unfold dval at 1. rewrite fold_left_app. apply dval_acc. Qed.

Lemma dval_nil : dval [] = 0. Proof. done. Qed.

Lemma dval_replicate_zero n : dval (replicate n "0"%char) = 0.
Proof.
  induction n as [|n IH]; simpl; [done|]. rewrite dval_cons, IH. change (digit_val "0"%char) with 0. lia.
Qed.

Lemma dval_range s :
  all_digits s = true -> 0 <= dval s < 10 ^ Z.of_nat (length s).
Proof.
  induction s as [|c s IH]; [intros _; unfold dval; simpl; lia|].
  intros H. cbn [all_digits forallb] in H. apply andb_prop in H as [Hc Hs].
  specialize (IH Hs). apply digit_val_range in Hc. rewrite dval_cons.
  replace (Z.of_nat (length (c :: s))) with (Z.succ (Z.of_nat (length s))) by (simpl; lia).
  rewrite Z.pow_succ_r by lia. nia.
Qed.

Lemma digits_from_spec fuel z acc :
  0 <= z < 2 ^ Z.of_nat fuel -> fuel <> O ->
  exists p, digits_from fuel z acc = p ++ acc /\ dval p = z /\ all_digits p = true /\ p <> [] /\
    (0 < z -> head p <> Some "0"%char).
Proof.
  revert z acc; induction fuel as [|fuel IH]; intros z acc Hz Hf; [done|].
  pose proof (Z.mod_pos_bound z 10 ltac:(lia)) as Hm.
  cbn [digits_from]. destruct (Z.ltb_spec z 10) as [Hlt|Hge].
  - exists [digit_char (z mod 10)]. split; [done|]. split.
    + rewrite dval_cons, digit_char_val by lia. simpl. rewrite Z.mod_small by lia.
      unfold dval. simpl. lia.
    + split; [|split; [done|]].
      * unfold all_digits. simpl. rewrite digit_char_digit by lia. done.
      * intros Hpos [= He]. apply (f_equal digit_val) in He.
        rewrite digit_char_val, Z.mod_small in He by lia. change (digit_val "0"%char) with 0 in He. lia.
  - assert (Hf' : fuel <> O).
    { intros ->. simpl in Hz. lia. }
    assert (Hz' : 0 <= z / 10 < 2 ^ Z.of_nat fuel).
    { split; [apply Z.div_pos; lia|]. apply Z.div_lt_upper_bound; [lia|].
      replace (Z.of_nat (S fuel)) with (Z.succ (Z.of_nat fuel)) in Hz by lia.
      rewrite Z.pow_succ_r in Hz by lia. nia. }
    destruct (IH (z / 10) (digit_char (z mod 10) :: acc) Hz' Hf') as (p & Hp & Hv & Hd & Hne & Hh).
    exists (p ++ [digit_char (z mod 10)]). split; [by rewrite Hp, <- app_assoc|]. split.
    + rewrite dval_app, dval_cons, digit_char_val, dval_nil, Hv by lia. simpl length.
      rewrite (Z_div_mod_eq_full z 10) at 3. simpl. lia.
    + split; [|split; [by destruct p|]].
      * unfold all_digits in *. rewrite forallb_app, Hd. simpl.
        rewrite digit_char_digit by lia. done.
      * intros _. destruct p; [done|]. apply Hh. apply Z.div_str_pos. lia.
Qed.

Lemma digits_spec z :
  0 <= z -> dval (digits z) = z /\ all_digits (digits z) = true /\ digits z <> [] /\
  (0 < z -> head (digits z) <> Some "0"%char).
Proof.
  intros Hz. unfold digits.
  assert (Hb : 0 <= z < 2 ^ Z.of_nat (S (Z.to_nat (Z.log2 z)))).
  { rewrite Nat2Z.inj_succ, Z2Nat.id by apply Z.log2_nonneg.
    destruct (Z.eq_dec z 0) as [->|Hnz]; [simpl; lia|].
    pose proof (Z.log2_spec z ltac:(lia)). lia. }
  destruct (digits_from_spec _ _ [] Hb ltac:(done)) as (p & -> & Hv & Hd & Hne & Hh).
  by rewrite app_nil_r.
Qed.

Lemma dval_digits z : 0 <= z -> dval (digits z) = z.
Proof. intros Hz. by apply digits_spec. Qed.
Lemma all_digits_digits z : 0 <= z -> all_digits (digits z) = true.
Proof. intros Hz. by apply digits_spec. Qed.
Lemma digits_nonempty z : 0 <= z -> digits z <> [].
Proof. intros Hz. by apply digits_spec. Qed.

Lemma digits_head z : 0 < z -> head (digits z) <> Some "0"%char.
Proof. intros Hz. apply digits_spec; lia. Qed.

#[export] Hint Resolve all_digits_digits digits_nonempty digit_char_digit : go.

Lemma all_digits_app s t : all_digits (s ++ t) = all_digits s && all_digits t.
Proof. apply forallb_app. Qed.

Lemma all_digits_replicate n : all_digits (replicate n "0"%char) = true.
Proof. induction n; simpl; done. Qed.

Lemma all_digits_take n s : all_digits s = true -> all_digits (take n s) = true.
Proof.
  intros H. rewrite <- (take_drop n s), all_digits_app in H. by apply andb_prop in H as [H1 H2].
Qed.

Lemma all_digits_drop n s : all_digits s = true -> all_digits (drop n s) = true.
Proof.
  intros H. rewrite <- (take_drop n s), all_digits_app in H. by apply andb_prop in H as [H1 H2].
Qed.
