(* ===== verification/GoTime.v ===== *)
(** Instants, durations and the civil calendar: the parts of package [time] the
    program uses.

    An instant is its number of nanoseconds since the Unix epoch (a
    [time.Time] in UTC); a [time.Duration] is an [int64] number of
    nanoseconds. *)

From S2P Require Import Prelude GoString Digits.
From Stdlib Require Import Ascii.

Abbreviation time := Z (only parsing).
Abbreviation duration := Z (only parsing).

Definition Nanosecond : duration := 1.
Definition Second : duration := 1000000000.
Definition Minute : duration := 60 * Second.
Definition Hour : duration := 60 * Minute.

(** The zero [time.Time], 1 January of year 1. *)
Definition zero_time : time := -62135596800 * Second.
Definition IsZero (t : time) : bool := t =? zero_time.

Definition After (t u : time) : bool := u <? t.
Definition Before (t u : time) : bool := t <? u.

(** [Time.Sub] saturates at the ends of the [int64] range. *)
Definition Sub (t u : time) : duration :=
  let d := t - u in
  if d <? min_int64 then min_int64 else if max_int64 <? d then max_int64 else d.

(** ** Civil dates *)

Definition is_leap (y : Z) : bool :=
  (y mod 4 =? 0) && (negb (y mod 100 =? 0) || (y mod 400 =? 0)).

Definition days_in (m y : Z) : Z :=
  match m with
  | 2 => if is_leap y then 29 else 28
  | 4 | 6 | 9 | 11 => 30
  | _ => 31
  end.

(** Days from 1 January 1970 to the given date of the proleptic Gregorian
    calendar; the day may lie outside its month, as [time.Date] allows. *)
Definition days_from_civil (y m d : Z) : Z :=
  let y' := if m <=? 2 then y - 1 else y in
  let era := y' / 400 in
  let yoe := y' mod 400 in
  let doy := (153 * (if 2 <? m then m - 3 else m + 9) + 2) / 5 + d - 1 in
  let doe := yoe * 365 + yoe / 4 - yoe / 100 + doy in
  era * 146097 + doe - 719468.

Definition civil_from_days (z : Z) : Z * Z * Z :=
  let z := z + 719468 in
  let era := z / 146097 in
  let doe := z mod 146097 in
  let yoe := (doe - doe / 1460 + doe / 36524 - doe / 146096) / 365 in
  let doy := doe - (365 * yoe + yoe / 4 - yoe / 100) in
  let mp := (5 * doy + 2) / 153 in
  let d := doy - (153 * mp + 2) / 5 + 1 in
  let m := if mp <? 10 then mp + 3 else mp - 9 in
  let y := yoe + era * 400 in
  (if m <=? 2 then y + 1 else y, m, d).

(** Day of the week of a day number, Sunday being 0. *)
Definition weekday_of_days (z : Z) : Z := (z + 4) mod 7.

Definition day_seconds : Z := 86400.
Definition day_ns : Z := 86400 * Second.

Definition pad_left (width : nat) (s : list ascii) : list ascii :=
  replicate (width - length s) "0"%char ++ s.

(** [Format("2006-01-02")] of a date. *)
Definition format_date (ymd : Z * Z * Z) : string :=
  let '(y, m, d) := ymd in
  of_chars ((if y <? 0 then "-"%char :: pad_left 4 (digits (- y)) else pad_left 4 (digits y))
            ++ "-"%char :: pad_left 2 (digits m) ++ "-"%char :: pad_left 2 (digits d)).

Example civil_ex : civil_from_days (days_from_civil 2024 2 29) = (2024, 2, 29).
Proof. reflexivity. Qed.
Example format_date_ex : format_date (civil_from_days 0) = "1970-01-01".
Proof. reflexivity. Qed.
Example weekday_ex : weekday_of_days (days_from_civil 2026 7 31) = 5.
Proof. reflexivity. Qed.

(** ** Text of an instant *)

(** [Format("2006-01-02")] in UTC. *)
Definition utc_date (t : time) : string := format_date (civil_from_days (t / day_ns)).

Definition year_of (t : time) : Z := let '(y, _, _) := civil_from_days (t / day_ns) in y.

Definition trim_right_zeros (s : list ascii) : list ascii :=
  reverse (trim_left_char "0" (reverse s)).

(** [UTC().Format(time.RFC3339Nano)]. *)
Definition format_rfc3339nano (t : time) : string :=
  let secs := (t mod day_ns) / Second in
  let ns := t mod Second in
  let frac := trim_right_zeros (pad_left 9 (digits ns)) in
  of_chars (chars (utc_date t) ++ "T"%char
    :: pad_left 2 (digits (secs / 3600)) ++ ":"%char
    :: pad_left 2 (digits (secs / 60 mod 60)) ++ ":"%char
    :: pad_left 2 (digits (secs mod 60))
    ++ (if bool_decide (frac = []) then [] else "."%char :: frac) ++ ["Z"%char]).

Example format_rfc3339nano_ex :
  format_rfc3339nano (86400 * Second + 3723 * Second + 500000000) = "1970-01-02T01:02:03.5Z".
Proof. vm_compute. reflexivity. Qed.
