(* ===== verification/TimeText.v ===== *)
(** RFC 3339 texts of instants: [time.Parse] with its leniencies, the strict
    reader of [Time.UnmarshalJSON], the writer of [Time.MarshalJSON], and that
    what is written is read back. *)

From S2P Require Import Prelude GoString Digits GoTime.
From Stdlib Require Import Ascii.

(** ** Parsing *)

Definition num2 (a b : ascii) : option Z :=
  if is_digit a && is_digit b then Some (10 * digit_val a + digit_val b) else None.

Fixpoint leading_digits (s : list ascii) : list ascii * list ascii :=
  match s with
  | c :: r => if is_digit c then let '(d, rest) := leading_digits r in (c :: d, rest) else ([], s)
  | [] => ([], [])
  end.

(** Nanoseconds of a fraction: its first nine digits, scaled. *)
Definition fraction_ns (ds : list ascii) : Z :=
  let ds := take 9 ds in dval ds * 10 ^ (9 - Z.of_nat (length ds)).

Definition parse_offset (s : list ascii) : option Z :=
  match s with
  | [z] => if Ascii.eqb z "Z" then Some 0 else None
  | [sign; h1; h2; colon; m1; m2] =>
      h ← num2 h1 h2; m ← num2 m1 m2;
      if Ascii.eqb colon ":" && (h <=? 24) && (m <=? 60) then
        if Ascii.eqb sign "+" then Some ((h * 60 + m) * 60)
        else if Ascii.eqb sign "-" then Some (- ((h * 60 + m) * 60)) else None
      else None
  | _ => None
  end.

(** The layout's [-07]: a sign and two digits. *)
Definition parse_hours (s : list ascii) : option Z :=
  match s with
  | [sign; h1; h2] =>
      h ← num2 h1 h2;
      if h <=? 24 then
        if Ascii.eqb sign "+" then Some (h * 3600) else if Ascii.eqb sign "-" then Some (- (h * 3600)) else None
      else None
  | _ => None
  end.

Section layout.
Context (separator : list ascii -> option (list ascii)) (offset : list ascii -> option Z).

(** From the minutes on: [:mm:ss], a fraction after a dot or a comma, the
    offset. *)
Definition parse_clock (days hour : Z) (s : list ascii) : option time :=
  match s with
  | c1 :: m1 :: m2 :: c2 :: s1 :: s2 :: rest =>
      m ← num2 m1 m2; sec ← num2 s1 s2;
      if Ascii.eqb c1 ":" && Ascii.eqb c2 ":" && (m <? 60) && (sec <? 60) && (hour <? 24) then
        let '(ds, rest) :=
          match rest with
          | p :: d :: _ => if (Ascii.eqb p "." || Ascii.eqb p ",") && is_digit d
                           then leading_digits (drop 1 rest) else ([], rest)
          | _ => ([], rest)
          end in
        off ← offset rest;
        Some ((days * day_seconds + hour * 3600 + m * 60 + sec - off) * Second + fraction_ns ds)
      else None
  | _ => None
  end.

(** A date, a separator, a clock and an offset; the hour may have one digit. *)
Definition parse_layout (value : string) : option time :=
  match chars value with
  | y1 :: y2 :: y3 :: y4 :: d1 :: m1 :: m2 :: d2 :: a1 :: a2 :: rest =>
      mo ← num2 m1 m2; da ← num2 a1 a2;
      let y := dval [y1; y2; y3; y4] in
      if all_digits [y1; y2; y3; y4] && Ascii.eqb d1 "-" && Ascii.eqb d2 "-"
         && (1 <=? mo) && (mo <=? 12) && (1 <=? da) && (da <=? days_in mo y)
      then
        match separator rest with
        | Some (h1 :: h2 :: rest) =>
            if negb (is_digit h1) then None
            else if is_digit h2
            then parse_clock (days_from_civil y mo da) (10 * digit_val h1 + digit_val h2) rest
            else parse_clock (days_from_civil y mo da) (digit_val h1) (h2 :: rest)
        | _ => None
        end
      else None
  | _ => None
  end.
End layout.

Definition letter_t (s : list ascii) : option (list ascii) :=
  match s with c :: r => if Ascii.eqb c "T" then Some r else None | [] => None end.

(** A space in a layout stands for one or more. *)
Definition spaces (s : list ascii) : option (list ascii) :=
  match s with c :: r => if Ascii.eqb c " " then Some (trim_left_char " " r) else None | [] => Some [] end.

(** [time.Parse(time.RFC3339Nano, value)], which [time.RFC3339] reads alike. *)
Definition time_parse : string -> option time := parse_layout letter_t parse_offset.

(** [time.Parse("2006-01-02 15:04:05-07", value)]. *)
Definition time_parse_spaced : string -> option time := parse_layout spaces parse_hours.

(** [time.Parse("2006-01-02", value)], the day number. *)
Definition parse_day (value : string) : option Z :=
  match chars value with
  | [y1; y2; y3; y4; d1; m1; m2; d2; a1; a2] =>
      mo ← num2 m1 m2; da ← num2 a1 a2;
      let y := dval [y1; y2; y3; y4] in
      if all_digits [y1; y2; y3; y4] && Ascii.eqb d1 "-" && Ascii.eqb d2 "-" && (1 <=? mo) && (mo <=? 12)
         && (1 <=? da) && (da <=? days_in mo y)
      then Some (days_from_civil y mo da) else None
  | _ => None
  end.

Example time_parse_spaced_ex :
  (time_parse_spaced "1970-01-02 01:00:00.25+00", time_parse_spaced "1970-01-02 01:00:00+05:30", parse_day "1970-01-31")
  = (Some (25 * Hour + 250000000), None, Some 30).
Proof. vm_compute. reflexivity. Qed.

(** [parseStrictRFC3339], which refuses what [time.Parse] is lenient about: an
    hour of one digit, a comma, an offset out of range. *)
Definition parseStrictRFC3339 (value : string) : option time :=
  t ← time_parse value;
  let b := chars value in
  let at_end (n : nat) := match drop (length b - n) b with x :: y :: _ => default 0 (num2 x y) | _ => 0 end in
  if bool_decide (b !! 12%nat = Some ":"%char) || bool_decide (b !! 19%nat = Some ","%char) then None
  else if bool_decide (last b = Some "Z"%char) then Some t
  else if (24 <=? at_end 5%nat) || (60 <=? at_end 2%nat) then None else Some t.

(** [Time.UnmarshalJSON] of a raw value; [null] leaves the variable as it is. *)
Definition unmarshal_time (current : time) (raw : string) : option time :=
  if bool_decide (raw = "null") then Some current
  else match chars raw with
       | q :: r =>
           match reverse r with
           | q' :: r' => if (code q =? 34) && (code q' =? 34) then parseStrictRFC3339 (of_chars (reverse r')) else None
           | [] => None
           end
       | [] => None
       end.

(** The text of [Time.MarshalJSON], which refuses years outside 0 to 9999. *)
Definition marshal_time (t : time) : option string :=
  let s := format_rfc3339nano t in
  if bool_decide (chars s !! 4%nat = Some "-"%char) then Some s else None.

Example strict_ex : parseStrictRFC3339 "2024-02-29T01:02:03.5Z" = time_parse "2024-02-29T01:02:03.5Z".
Proof. vm_compute. reflexivity. Qed.
Example strict_comma_ex : parseStrictRFC3339 "2024-02-29T01:02:03,5Z" = None.
Proof. vm_compute. reflexivity. Qed.
Example marshal_year_ex : marshal_time (days_from_civil 10000 1 1 * day_ns) = None.
Proof. vm_compute. reflexivity. Qed.

(** ** Civil dates *)

Section civil.
Context (doe : Z) (Hdoe : 0 <= doe < 146097).
Abbreviation yoe := ((doe - doe / 1460 + doe / 36524 - doe / 146096) / 365).

Lemma yoe_range : 0 <= yoe < 400.
Proof. Z.div_mod_to_equations. lia. Qed.

Lemma doy_range : 0 <= doe - (365 * yoe + yoe / 4 - yoe / 100) <= 365.
Proof. Z.div_mod_to_equations. lia. Qed.

Lemma doy_leap : doe - (365 * yoe + yoe / 4 - yoe / 100) = 365 ->
  (yoe + 1) mod 4 = 0 /\ ((yoe + 1) mod 100 <> 0 \/ (yoe + 1) mod 400 = 0).
Proof. intros H. Z.div_mod_to_equations. lia. Qed.
End civil.

(** The months from March to December, and the two that end the year counted
    from March. *)
Lemma month_days doy mp y d : mp = (5 * doy + 2) / 153 -> 0 <= mp < 10 -> 0 <= doy <= 365 ->
  d = doy - (153 * mp + 2) / 5 + 1 -> d <= days_in (mp + 3) y.
Proof.
  intros Hmp Hr Hd ->. assert (Hc : mp = 0 \/ mp = 1 \/ mp = 2 \/ mp = 3 \/ mp = 4 \/ mp = 5 \/ mp = 6 \/ mp = 7 \/ mp = 8 \/ mp = 9) by lia.
  repeat (destruct Hc as [Hc|Hc]); rewrite Hc in Hmp |- *; clear Hc;
    match goal with |- context [days_in ?m y] => let v := eval vm_compute in (days_in m y) in change (days_in m y) with v end;
    Z.div_mod_to_equations; lia.
Qed.

Lemma winter_days doy mp y d : mp = (5 * doy + 2) / 153 -> 10 <= mp <= 11 -> 0 <= doy <= 365 ->
  d = doy - (153 * mp + 2) / 5 + 1 -> (doy = 365 -> is_leap y = true) -> d <= days_in (mp - 9) y.
Proof.
  intros Hmp Hr Hd -> Hleap. assert (Hc : mp = 10 \/ mp = 11) by lia.
  destruct Hc as [Hc|Hc]; rewrite Hc in Hmp |- *; clear Hc;
    [change (days_in (10 - 9) y) with 31; Z.div_mod_to_equations; lia|].
  change (days_in (11 - 9) y) with (if is_leap y then 29 else 28). destruct (is_leap y) eqn:E; [Z.div_mod_to_equations; lia|].
  assert (doy <> 365) by (intros H365; specialize (Hleap H365); congruence). Z.div_mod_to_equations. lia.
Qed.

Lemma civil_date z y m d : civil_from_days z = (y, m, d) ->
  days_from_civil y m d = z /\ 1 <= m <= 12 /\ 1 <= d <= days_in m y.
Proof.
  unfold civil_from_days. set (w := z + 719468). pose proof (Z.mod_pos_bound w 146097 ltac:(lia)) as Hdoe.
  pose proof (yoe_range _ Hdoe) as Hy. pose proof (doy_range _ Hdoe) as Hd. pose proof (doy_leap _ Hdoe) as Hleap.
  set (doe := w mod 146097) in *. set (yoe := (doe - _ + _ - _) / 365) in *.
  set (doy := doe - (365 * yoe + yoe / 4 - yoe / 100)) in *. set (mp := (5 * doy + 2) / 153).
  assert (Hz : w = w / 146097 * 146097 + doe) by (unfold doe; pose proof (Z.div_mod w 146097); lia).
  assert (Hmp : 0 <= mp <= 11) by (unfold mp; Z.div_mod_to_equations; lia).
  assert (Hera : (yoe + w / 146097 * 400) / 400 = w / 146097 /\ (yoe + w / 146097 * 400) mod 400 = yoe)
    by (Z.div_mod_to_equations; lia).
  destruct Hera as [Hq Hr].
  assert (Hd1 : 1 <= doy - (153 * mp + 2) / 5 + 1) by (unfold mp; Z.div_mod_to_equations; lia).
  destruct (Z.ltb_spec mp 10) as [Hlt|Hge].
  - assert (Hm2 : (mp + 3 <=? 2) = false) by lia. rewrite Hm2. intros [= <- <- <-]. unfold days_from_civil.
    rewrite Hm2, Hq, Hr. replace (2 <? mp + 3) with true by lia. split; [replace (mp + 3 - 3) with mp by lia; lia|].
    split; [lia|]. split; [exact Hd1|]. apply (month_days doy mp); [done|lia|done|done].
  - assert (Hm2 : (mp - 9 <=? 2) = true) by lia. rewrite Hm2. intros [= <- <- <-]. unfold days_from_civil.
    rewrite Hm2. replace (2 <? mp - 9) with false by lia.
    replace (yoe + w / 146097 * 400 + 1 - 1) with (yoe + w / 146097 * 400) by lia. rewrite Hq, Hr.
    split; [replace (mp - 9 + 9) with mp by lia; lia|].
    split; [lia|]. split; [exact Hd1|]. apply (winter_days doy mp); [done|lia|done|done|].
    intros H365. destruct (Hleap H365) as [H4 H100].
    unfold is_leap. apply andb_true_iff. split; [apply Z.eqb_eq; Z.div_mod_to_equations; lia|].
    apply orb_true_iff. destruct H100 as [H100|H400]; [left|right]; rewrite ?negb_true_iff, ?Z.eqb_neq, ?Z.eqb_eq;
      Z.div_mod_to_equations; lia.
Qed.

(** ** What is written is read back *)

Lemma digits_length z k : 0 <= z < 10 ^ Z.of_nat k -> (0 < k)%nat -> (length (digits z) <= k)%nat.
Proof.
  intros Hz Hk. destruct (decide (z = 0)) as [->|Hne]; [exact Hk|].
  pose proof (dval_digits z ltac:(lia)) as Hv. pose proof (all_digits_digits z ltac:(lia)) as Hd.
  pose proof (digits_head z ltac:(lia)) as Hh. destruct (digits z) as [|c r]; [cbn; lia|]. cbn [head] in Hh.
  change (all_digits (c :: r)) with (is_digit c && all_digits r) in Hd. bool_simp.
  rewrite dval_cons in Hv. pose proof (dval_range r) as Hr. pose proof (digit_val_range c) as Hc.
  assert (Hnz : digit_val c <> 0).
  { intros He. apply Hh. f_equal. apply code_inj. unfold digit_val in He. change (code "0"%char) with 48. lia. }
  assert (10 ^ Z.of_nat (length r) < 10 ^ Z.of_nat k) by (specialize (Hc H); specialize (Hr H0); cbn in Hr; nia).
  apply Z.pow_lt_mono_r_iff in H1; [cbn [length]; lia|lia|lia].
Qed.

Lemma pad_left_spec k z : 0 <= z < 10 ^ Z.of_nat k -> (0 < k)%nat ->
  length (pad_left k (digits z)) = k /\ all_digits (pad_left k (digits z)) = true /\ dval (pad_left k (digits z)) = z.
Proof.
  intros Hz Hk. pose proof (digits_length z k Hz Hk). unfold pad_left. split_and!.
  - rewrite length_app, length_replicate. lia.
  - by rewrite all_digits_app, all_digits_replicate, all_digits_digits by lia.
  - by rewrite dval_app, dval_replicate_zero, dval_digits by lia.
Qed.

Lemma num2_pad n : 0 <= n < 100 -> exists a b, pad_left 2 (digits n) = [a; b] /\ num2 a b = Some n /\ is_digit a = true /\ is_digit b = true.
Proof.
  intros Hn. destruct (pad_left_spec 2 n ltac:(change (10 ^ Z.of_nat 2) with 100; lia) ltac:(lia)) as (Hl & Hd & Hv).
  destruct (pad_left 2 (digits n)) as [|a [|b [|? ?]]]; try done. exists a, b. split; [done|].
  change (all_digits [a; b]) with (is_digit a && (is_digit b && true)) in Hd. bool_simp. unfold num2. rewrite H, H0. split; [|done].
  cbn [andb]. f_equal. rewrite !dval_cons, dval_nil in Hv. cbn [length] in Hv. change (Z.of_nat 1) with 1 in Hv. change (Z.of_nat 0) with 0 in Hv. lia.
Qed.

Lemma trim_left_char_spec c s : exists j, s = replicate j c ++ trim_left_char c s.
Proof.
  induction s as [|a s [j IH]]; [by exists 0%nat|]. cbn [trim_left_char]. destruct (Ascii.eqb_spec a c) as [->|Hne].
  - exists (S j). cbn. by f_equal.
  - by exists 0%nat.
Qed.

Lemma trim_right_zeros_spec s : exists j, s = trim_right_zeros s ++ replicate j "0"%char.
Proof.
  destruct (trim_left_char_spec "0"%char (reverse s)) as [j Hj]. exists j. unfold trim_right_zeros.
  rewrite <- (reverse_involutive s) at 1. rewrite Hj at 1. by rewrite reverse_app, reverse_replicate.
Qed.

Lemma leading_digits_app f s : all_digits f = true -> match s with c :: _ => is_digit c = false | [] => True end ->
  leading_digits (f ++ s) = (f, s).
Proof.
  induction f as [|c f IH]; intros Hd Hs.
  - destruct s as [|c s]; [done|]. cbn. by rewrite Hs.
  - change (all_digits (c :: f)) with (is_digit c && all_digits f) in Hd. bool_simp. cbn [app leading_digits].
    rewrite H. by rewrite IH.
Qed.

(** The fraction of a second. *)
Lemma fraction_spec ns : 0 <= ns < Second ->
  let frac := trim_right_zeros (pad_left 9 (digits ns)) in
  all_digits frac = true /\ fraction_ns frac = ns.
Proof.
  intros Hns. cbv zeta. destruct (pad_left_spec 9 ns Hns ltac:(lia)) as (Hl & Hd & Hv).
  destruct (trim_right_zeros_spec (pad_left 9 (digits ns))) as [j Hj]. set (frac := trim_right_zeros _) in *.
  rewrite Hj in Hl, Hd, Hv. rewrite all_digits_app in Hd. apply andb_prop in Hd as [Hd _]. split; [done|].
  rewrite length_app, length_replicate in Hl. rewrite dval_app, dval_replicate_zero, length_replicate, Z.add_0_r in Hv.
  unfold fraction_ns. rewrite take_ge by lia. rewrite <- Hv. f_equal. f_equal. lia.
Qed.

(** An instant in its days, hours, minutes, seconds and nanoseconds. *)
Lemma instant_parts t :
  let secs := (t mod day_ns) / Second in
  0 <= secs < 86400 /\ 0 <= t mod Second < Second /\
  t = (t / day_ns * day_seconds + secs / 3600 * 3600 + secs / 60 mod 60 * 60 + secs mod 60) * Second + t mod Second.
Proof.
  cbv zeta. unfold day_ns, day_seconds, Second. split_and!; Z.div_mod_to_equations; lia.
Qed.

(** The text of an instant of a year of four digits, character by character. *)
Lemma format_shape t y m d : civil_from_days (t / day_ns) = (y, m, d) -> 0 <= y <= 9999 ->
  exists y1 y2 y3 y4 m1 m2 d1 d2 h1 h2 n1 n2 s1 s2 frac,
    chars (format_rfc3339nano t) =
      [y1; y2; y3; y4; "-"%char; m1; m2; "-"%char; d1; d2; "T"%char; h1; h2; ":"%char; n1; n2; ":"%char; s1; s2] ++
      (match frac with [] => [] | _ => "."%char :: frac end) ++ ["Z"%char] /\
    all_digits [y1; y2; y3; y4] = true /\ dval [y1; y2; y3; y4] = y /\
    num2 m1 m2 = Some m /\ num2 d1 d2 = Some d /\
    (is_digit h1 = true /\ is_digit h2 = true /\ num2 h1 h2 = Some (t mod day_ns / Second / 3600)) /\
    num2 n1 n2 = Some (t mod day_ns / Second / 60 mod 60) /\ num2 s1 s2 = Some (t mod day_ns / Second mod 60) /\
    all_digits frac = true /\ fraction_ns frac = t mod Second.
Proof.
  intros Hc Hy. destruct (civil_date _ _ _ _ Hc) as (_ & Hm & Hd). destruct (instant_parts t) as (Hs & Hn & _).
  assert (Hd99 : d < 100).
  { enough (days_in m y <= 31) by lia. unfold days_in. repeat case_match; lia. }
  destruct (pad_left_spec 4 y ltac:(change (10 ^ Z.of_nat 4) with 10000; lia) ltac:(lia)) as (Hl & Hyd & Hyv).
  destruct (num2_pad m ltac:(lia)) as (m1 & m2 & Em & Hm' & _). destruct (num2_pad d ltac:(lia)) as (d1 & d2 & Ed & Hd' & _).
  destruct (num2_pad (t mod day_ns / Second / 3600) ltac:(Z.div_mod_to_equations; lia)) as (h1 & h2 & Eh & Hh & Hh1 & Hh2).
  destruct (num2_pad (t mod day_ns / Second / 60 mod 60) ltac:(Z.div_mod_to_equations; lia)) as (n1 & n2 & En & Hn' & _).
  destruct (num2_pad (t mod day_ns / Second mod 60) ltac:(Z.div_mod_to_equations; lia)) as (s1 & s2 & Es & Hs' & _).
  destruct (fraction_spec (t mod Second) Hn) as [Hfd Hfv].
  destruct (pad_left 4 (digits y)) as [|y1 [|y2 [|y3 [|y4 [|? ?]]]]] eqn:Ey; try done.
  exists y1, y2, y3, y4, m1, m2, d1, d2, h1, h2, n1, n2, s1, s2, (trim_right_zeros (pad_left 9 (digits (t mod Second)))).
  split; [|split_and!; done]. unfold format_rfc3339nano, utc_date, format_date. rewrite Hc, !chars_of_chars.
  destruct (Z.ltb_spec y 0); [lia|]. rewrite Ey, Em, Ed, Eh, En, Es. cbn [app].
  destruct (trim_right_zeros _); [done|]. by rewrite bool_decide_false.
Qed.

Lemma time_parse_format t : 0 <= year_of t <= 9999 -> time_parse (format_rfc3339nano t) = Some t.
Proof.
  unfold year_of. destruct (civil_from_days (t / day_ns)) as [[y m] d] eqn:Ec. intros Hy.
  destruct (format_shape t y m d Ec Hy) as (y1 & y2 & y3 & y4 & m1 & m2 & d1 & d2 & h1 & h2 & n1 & n2 & s1 & s2 & frac &
    Hs & Hyd & Hyv & Hm & Hd & (Hh1 & Hh2 & Hh) & Hn & Hsec & Hfd & Hfv).
  destruct (civil_date _ _ _ _ Ec) as (Hdays & Hmr & Hdr). destruct (instant_parts t) as (Hsr & Hnr & Ht). cbv zeta in Ht.
  set (secs := t mod day_ns / Second) in *. clearbody secs.
  unfold time_parse, parse_layout. rewrite Hs. cbn [app]. rewrite Hm, Hd, Hyd, Hyv. cbn [mbind option_bind letter_t].
  rewrite !Ascii.eqb_refl. cbn [andb]. rewrite Hh1, Hh2. cbn [negb].
  replace (1 <=? m) with true by lia. replace (m <=? 12) with true by lia. replace (1 <=? d) with true by lia.
  replace (d <=? days_in m y) with true by lia. cbn [andb].
  assert (Hhour : 10 * digit_val h1 + digit_val h2 = secs / 3600).
  { unfold num2 in Hh. rewrite Hh1, Hh2 in Hh. by injection Hh. }
  rewrite Hhour, Hdays. unfold parse_clock. rewrite Hn, Hsec. cbn [mbind option_bind]. rewrite !Ascii.eqb_refl. cbn [andb].
  replace (_ <? 60) with true by (symmetry; apply Z.ltb_lt; Z.div_mod_to_equations; lia).
  replace (_ <? 60) with true by (symmetry; apply Z.ltb_lt; Z.div_mod_to_equations; lia).
  replace (_ <? 24) with true by (symmetry; apply Z.ltb_lt; Z.div_mod_to_equations; lia). cbn [andb].
  destruct frac as [|f0 f].
  - cbn [app parse_offset Ascii.eqb Bool.eqb mbind option_bind]. f_equal. rewrite Hfv, Z.sub_0_r. symmetry. exact Ht.
  - change (all_digits (f0 :: f)) with (is_digit f0 && all_digits f) in Hfd. pose proof Hfd as Hall. apply andb_prop in Hall as [Hf0 _].
    cbn [app]. change (Ascii.eqb "." ".") with true. cbn [orb andb]. rewrite Hf0. cbn [drop].
    rewrite app_comm_cons, leading_digits_app; [|exact Hfd|done]. cbn [parse_offset Ascii.eqb Bool.eqb mbind option_bind].
    rewrite Hfv, Z.sub_0_r. f_equal. symmetry. exact Ht.
Qed.

Lemma digit_not c x : is_digit c = true -> is_digit x = false -> c <> x.
Proof. intros Hc Hx ->. congruence. Qed.

(** What [MarshalJSON] writes, the strict reader reads back. *)
Theorem time_round_trip t : 0 <= year_of t <= 9999 ->
  marshal_time t = Some (format_rfc3339nano t) /\ parseStrictRFC3339 (format_rfc3339nano t) = Some t.
Proof.
  intros Hr. pose proof (time_parse_format t Hr) as Hp. unfold year_of in Hr.
  destruct (civil_from_days (t / day_ns)) as [[y m] d] eqn:Ec.
  destruct (format_shape t y m d Ec Hr) as (y1 & y2 & y3 & y4 & m1 & m2 & d1 & d2 & h1 & h2 & n1 & n2 & s1 & s2 & frac &
    Hs & _ & _ & _ & _ & (_ & Hh2 & _) & _ & _ & _ & _).
  split; [unfold marshal_time; by rewrite Hs|]. unfold parseStrictRFC3339. rewrite Hp. cbn [mbind option_bind]. rewrite Hs.
  rewrite bool_decide_false; [|cbn; intros [= He]; by apply (digit_not _ ":"%char Hh2)].
  rewrite bool_decide_false; [|by destruct frac]. cbn [orb]. rewrite bool_decide_true; [done|].
  rewrite app_assoc, last_snoc. done.
Qed.

(** The days whose year has four digits. *)
Definition four_digit_day (z : Z) : Prop := -719468 <= z <= 2932896.

Lemma civil_year z y m d : civil_from_days z = (y, m, d) -> four_digit_day z -> 0 <= y <= 9999.
Proof.
  intros Hc Hz. unfold four_digit_day in Hz. destruct (civil_date _ _ _ _ Hc) as (Hdays & Hm & Hd).
  assert (Hd31 : d <= 31) by (enough (days_in m y <= 31) by lia; unfold days_in; repeat case_match; lia).
  unfold days_from_civil in Hdays. destruct (Z.leb_spec m 2), (Z.ltb_spec 2 m); try lia; Z.div_mod_to_equations; lia.
Qed.

Lemma parse_day_format z : four_digit_day z -> parse_day (format_date (civil_from_days z)) = Some z.
Proof.
  intros Hz. destruct (civil_from_days z) as [[y m] d] eqn:Hc. pose proof (civil_year _ _ _ _ Hc Hz) as Hy.
  destruct (civil_date _ _ _ _ Hc) as (Hdays & Hm & Hd).
  assert (Hd99 : d < 100) by (enough (days_in m y <= 31) by lia; unfold days_in; repeat case_match; lia).
  destruct (pad_left_spec 4 y ltac:(change (10 ^ Z.of_nat 4) with 10000; lia) ltac:(lia)) as (Hl & Hyd & Hyv).
  destruct (num2_pad m ltac:(lia)) as (m1 & m2 & Em & Hmm & _ & _).
  destruct (num2_pad d ltac:(lia)) as (d1 & d2 & Ed & Hdd & _ & _).
  destruct (pad_left 4 (digits y)) as [|y1 [|y2 [|y3 [|y4 [|? ?]]]]] eqn:Ey; try done.
  unfold parse_day, format_date. rewrite chars_of_chars. destruct (Z.ltb_spec y 0); [lia|]. rewrite Ey, Em, Ed. cbn [app].
  rewrite Hmm, Hdd, Hyd, Hyv. cbn [mbind option_bind]. rewrite !Ascii.eqb_refl. cbn [andb].
  replace (1 <=? m) with true by lia. replace (m <=? 12) with true by lia. replace (1 <=? d) with true by lia.
  replace (d <=? days_in m y) with true by lia. cbn [andb]. by rewrite Hdays.
Qed.
