(* ===== verification/Base64.v ===== *)
(** [base64.RawURLEncoding]: the URL alphabet without padding.  Decoding skips
    line breaks and does not look at the spare bits of the last character. *)

From S2P Require Import Prelude GoString.
From Stdlib Require Import Ascii.

Definition alphabet : list ascii :=
  chars "ABCDEFGHIJKLMNOPQRSTUVWXYZabcdefghijklmnopqrstuvwxyz0123456789-_".

Definition sextet_char (n : Z) : ascii := nth (Z.to_nat n) alphabet "A"%char.

Fixpoint index_of (c : ascii) (l : list ascii) (n : Z) : option Z :=
  match l with
  | [] => None
  | x :: l' => if Ascii.eqb c x then Some n else index_of c l' (n + 1)
  end.
Definition char_sextet (c : ascii) : option Z := index_of c alphabet 0.

Fixpoint encode_bytes (s : list ascii) : list ascii :=
  match s with
  | a :: b :: c :: r =>
      let a := code a in let b := code b in let c := code c in
      sextet_char (a / 4) :: sextet_char (a mod 4 * 16 + b / 16) :: sextet_char (b mod 16 * 4 + c / 64)
        :: sextet_char (c mod 64) :: encode_bytes r
  | [a; b] =>
      let a := code a in let b := code b in
      [sextet_char (a / 4); sextet_char (a mod 4 * 16 + b / 16); sextet_char (b mod 16 * 4)]
  | [a] => let a := code a in [sextet_char (a / 4); sextet_char (a mod 4 * 16)]
  | [] => []
  end.

Fixpoint decode_sextets (s : list Z) : option (list ascii) :=
  match s with
  | a :: b :: c :: d :: r =>
      rest ← decode_sextets r;
      Some (chr (a * 4 + b / 16) :: chr (b mod 16 * 16 + c / 4) :: chr (c mod 4 * 64 + d) :: rest)
  | [a; b; c] => Some [chr (a * 4 + b / 16); chr (b mod 16 * 16 + c / 4)]
  | [a; b] => Some [chr (a * 4 + b / 16)]
  | [_] => None
  | [] => Some []
  end.

Definition line_break (c : ascii) : bool := (code c =? 10) || (code c =? 13).

Definition EncodeToString (s : string) : string := of_chars (encode_bytes (chars s)).
Definition DecodeString (s : string) : option string :=
  sextets ← mapM char_sextet (List.filter (fun c => negb (line_break c)) (chars s));
  of_chars <$> decode_sextets sextets.

Example EncodeToString_ex : EncodeToString "any ca?" = "YW55IGNhPw".
Proof. vm_compute. reflexivity. Qed.
Example DecodeString_ex : DecodeString "YW55IGNhPw" = Some "any ca?".
Proof. vm_compute. reflexivity. Qed.

(** ** Round trip *)

Lemma sextets_checked :
  forallb (fun n => bool_decide (char_sextet (sextet_char (Z.of_nat n)) = Some (Z.of_nat n))
                    && negb (line_break (sextet_char (Z.of_nat n)))) (seq 0 64) = true.
Proof. vm_compute. reflexivity. Qed.

Lemma char_sextet_char n : 0 <= n < 64 ->
  char_sextet (sextet_char n) = Some n /\ line_break (sextet_char n) = false.
Proof.
  intros H. pose proof sextets_checked as Hc. rewrite forallb_forall in Hc.
  specialize (Hc (Z.to_nat n) ltac:(apply in_seq; lia)). rewrite Z2Nat.id in Hc by lia. by bool_simp.
Qed.

(** The sextets of a text. *)
Fixpoint sextets (s : list ascii) : list Z :=
  match s with
  | a :: b :: c :: r =>
      let a := code a in let b := code b in let c := code c in
      a / 4 :: a mod 4 * 16 + b / 16 :: b mod 16 * 4 + c / 64 :: c mod 64 :: sextets r
  | [a; b] => let a := code a in let b := code b in [a / 4; a mod 4 * 16 + b / 16; b mod 16 * 4]
  | [a] => let a := code a in [a / 4; a mod 4 * 16]
  | [] => []
  end.

(** Induction by groups of three. *)
Lemma groups_ind (P : list ascii -> Prop) :
  P [] -> (forall a, P [a]) -> (forall a b, P [a; b]) -> (forall a b c r, P r -> P (a :: b :: c :: r)) ->
  forall s, P s.
Proof.
  intros H0 H1 H2 H3. fix IH 1. intros [|a [|b [|c r]]]; [done|apply H1|apply H2|]. apply H3, IH.
Qed.

(** The bits of a byte. *)
Ltac bytes :=
  repeat match goal with c : ascii |- _ =>
    lazymatch goal with H : 0 <= code c < 256 |- _ => fail | _ => pose proof (code_range c) end end;
  Z.div_mod_to_equations; lia.

Lemma encode_sextets s : encode_bytes s = sextet_char <$> sextets s.
Proof. induction s as [| | |a b c r IH] using groups_ind; cbn; try done. by rewrite IH. Qed.

Lemma sextets_range s : Forall (fun n => 0 <= n < 64) (sextets s).
Proof.
  induction s as [|a|a b|a b c r IH] using groups_ind; cbn [sextets]; repeat constructor; try bytes. exact IH.
Qed.

Lemma regroup (a z : Z) c : a = code c -> z = a -> chr z = c.
Proof. intros -> ->. apply chr_code. Qed.

Lemma decode_encode s : decode_sextets (sextets s) = Some s.
Proof.
  induction s as [|a|a b|a b c r IH] using groups_ind; cbn [sextets decode_sextets].
  - done.
  - f_equal. f_equal. apply (regroup (code a)); [done|]. bytes.
  - f_equal. f_equal; [apply (regroup (code a)); [done|]; bytes|]. f_equal. apply (regroup (code b)); [done|]. bytes.
  - rewrite IH. cbn. f_equal.
    f_equal; [apply (regroup (code a)); [done|]; bytes|]. f_equal; [apply (regroup (code b)); [done|]; bytes|].
    f_equal. apply (regroup (code c)); [done|]. bytes.
Qed.

Lemma base64_round_trip s : DecodeString (EncodeToString s) = Some s.
Proof.
  unfold DecodeString, EncodeToString. rewrite chars_of_chars, encode_sextets.
  pose proof (sextets_range (chars s)) as Hr.
  assert (Hf : List.filter (fun c => negb (line_break c)) (sextet_char <$> sextets (chars s)) = sextet_char <$> sextets (chars s)
    /\ mapM char_sextet (sextet_char <$> sextets (chars s)) = Some (sextets (chars s))).
  { rewrite mapM_Some. induction Hr as [|n l Hn Hl [IH1 IH2]]; [split; [done|constructor]|].
    destruct (char_sextet_char n Hn) as [Hc Hb]. rewrite fmap_cons. cbn [List.filter]. rewrite Hb. cbn [negb]. rewrite IH1.
    split; [done|by constructor]. }
  destruct Hf as [-> ->]. cbn. rewrite decode_encode. cbn. by rewrite of_chars_chars.
Qed.
