(* ===== verification/Sha256.v ===== *)
(** SHA-256 (package [crypto/sha256]) and [hex.EncodeToString], executable on
    byte strings, with the shape of the digest text: 64 lower-case hexadecimal
    characters, whatever the input. *)

From S2P Require Import Prelude GoString.
From Stdlib Require Import Ascii.

Definition w32 (z : Z) : Z := z mod 4294967296.
Definition rotr (n x : Z) : Z := Z.lor (Z.shiftr x n) (w32 (Z.shiftl x (32 - n))).
Definition not32 (x : Z) : Z := 4294967295 - x.

Definition big_sigma0 x := Z.lxor (Z.lxor (rotr 2 x) (rotr 13 x)) (rotr 22 x).
Definition big_sigma1 x := Z.lxor (Z.lxor (rotr 6 x) (rotr 11 x)) (rotr 25 x).
Definition small_sigma0 x := Z.lxor (Z.lxor (rotr 7 x) (rotr 18 x)) (Z.shiftr x 3).
Definition small_sigma1 x := Z.lxor (Z.lxor (rotr 17 x) (rotr 19 x)) (Z.shiftr x 10).
Definition ch x y z := Z.lxor (Z.land x y) (Z.land (not32 x) z).
Definition maj x y z := Z.lxor (Z.lxor (Z.land x y) (Z.land x z)) (Z.land y z).

Definition round_constants : list Z :=
  [1116352408; 1899447441; 3049323471; 3921009573; 961987163; 1508970993; 2453635748;
   2870763221; 3624381080; 310598401; 607225278; 1426881987; 1925078388; 2162078206;
   2614888103; 3248222580; 3835390401; 4022224774; 264347078; 604807628; 770255983;
   1249150122; 1555081692; 1996064986; 2554220882; 2821834349; 2952996808; 3210313671;
   3336571891; 3584528711; 113926993; 338241895; 666307205; 773529912; 1294757372;
   1396182291; 1695183700; 1986661051; 2177026350; 2456956037; 2730485921; 2820302411;
   3259730800; 3345764771; 3516065817; 3600352804; 4094571909; 275423344; 430227734;
   506948616; 659060556; 883997877; 958139571; 1322822218; 1537002063; 1747873779;
   1955562222; 2024104815; 2227730452; 2361852424; 2428436474; 2756734187; 3204031479;
   3329325298].

Definition initial_state : list Z :=
  [1779033703; 3144134277; 1013904242; 2773480762; 1359893119; 2600822924; 528734635;
   1541459225].

(** Message padding: a one bit, zeros, and the 64-bit bit length. *)
Definition be_bytes (n : nat) (z : Z) : list Z :=
  (fun i => Z.shiftr z (8 * Z.of_nat i) mod 256) <$> reverse (seq 0 n).

Definition pad (msg : list Z) : list Z :=
  let len := Z.of_nat (length msg) in
  let zeros := (55 - len) mod 64 in
  msg ++ 128 :: replicate (Z.to_nat zeros) 0 ++ be_bytes 8 (8 * len).

Fixpoint words (bs : list Z) : list Z :=
  match bs with
  | a :: b :: c :: d :: r => (((a * 256 + b) * 256 + c) * 256 + d) :: words r
  | _ => []
  end.

(** The message schedule, kept newest-first: entry [i] is built from the
    entries 2, 7, 15 and 16 positions back. *)
Fixpoint extend (n : nat) (w : list Z) : list Z :=
  match n with
  | O => w
  | S n' =>
      let nxt := w32 (small_sigma1 (nth 1 w 0) + nth 6 w 0 +
                      small_sigma0 (nth 14 w 0) + nth 15 w 0) in
      extend n' (nxt :: w)
  end.

Definition schedule (block : list Z) : list Z := reverse (extend 48 (reverse (words block))).

Definition step (st : list Z) (kw : Z * Z) : list Z :=
  match st with
  | [a; b; c; d; e; f; g; h] =>
      let t1 := h + big_sigma1 e + ch e f g + fst kw + snd kw in
      let t2 := big_sigma0 a + maj a b c in
      [w32 (t1 + t2); a; b; c; w32 (d + t1); e; f; g]
  | _ => st
  end.

Definition compress (st : list Z) (block : list Z) : list Z :=
  zip_with (fun x y => w32 (x + y)) st
    (fold_left step (zip round_constants (schedule block)) st).

Fixpoint blocks (n : nat) (bs : list Z) : list (list Z) :=
  match n with
  | O => []
  | S n' => take 64 bs :: blocks n' (drop 64 bs)
  end.

Definition sum256 (msg : list Z) : list Z :=
  let p := pad msg in
  let final := fold_left compress (blocks (length p / 64) p) initial_state in
  flat_map (be_bytes 4) final.

Definition hex_digit (d : Z) : ascii := chr (if d <? 10 then 48 + d else 87 + d).

Definition hex_encode (bs : list Z) : string :=
  of_chars (flat_map (fun b => [hex_digit (b / 16); hex_digit (b mod 16)]) bs).

(** [hex.EncodeToString(sha256.Sum256(body))]. *)
Definition sha256_hex (body : string) : string := hex_encode (sum256 (code <$> chars body)).

Example sha256_abc :
  sha256_hex "abc" = "ba7816bf8f01cfea414140de5dae2223b00361a396177a9cb410ff61f20015ad".
Proof. vm_compute. reflexivity. Qed.

Example sha256_empty :
  sha256_hex "" = "e3b0c44298fc1c149afbf4c8996fb92427ae41e4649b934ca495991b7852b855".
Proof. vm_compute. reflexivity. Qed.

(** ** Shape of the digest *)

Lemma hex_digit_lower d : 0 <= d < 16 -> is_lower_hex (hex_digit d) = true.
Proof.
  intros Hd. unfold hex_digit, is_lower_hex, is_digit.
  destruct (d <? 10) eqn:E; bool_simp; rewrite code_chr by lia;
    apply orb_true_iff; rewrite !andb_true_iff, !Z.leb_le; lia.
Qed.

Lemma be_bytes_range n z : Forall (fun b => 0 <= b < 256) (be_bytes n z).
Proof.
  unfold be_bytes. apply Forall_fmap, Forall_true. intros i. simpl.
  apply Z.mod_pos_bound. lia.
Qed.

Lemma length_be_bytes n z : length (be_bytes n z) = n.
Proof. unfold be_bytes. by rewrite length_fmap, length_reverse, length_seq. Qed.

Lemma length_flat_map_const {A B} (f : A -> list B) n l :
  (forall x, length (f x) = n) -> length (flat_map f l) = (n * length l)%nat.
Proof.
  intros Hf. induction l as [|x l IH]; simpl; [lia|]. rewrite length_app, Hf, IH. lia.
Qed.

Lemma length_step st kw : length (step st kw) = length st.
Proof. unfold step. repeat (case_match; simpl; try done). Qed.

Lemma length_fold_step l st : length (fold_left step l st) = length st.
Proof.
  revert st; induction l as [|x l IH]; intros st; simpl; [done|].
  by rewrite IH, length_step.
Qed.

Lemma length_compress st b : length (compress st b) = length st.
Proof. unfold compress. rewrite length_zip_with, length_fold_step. lia. Qed.

Lemma length_fold_compress l st : length (fold_left compress l st) = length st.
Proof.
  revert st; induction l as [|x l IH]; intros st; simpl; [done|].
  by rewrite IH, length_compress.
Qed.

Lemma length_sum256 msg : length (sum256 msg) = 32%nat.
Proof.
  unfold sum256. rewrite (length_flat_map_const _ 4) by apply length_be_bytes.
  by rewrite length_fold_compress.
Qed.

Lemma Forall_flat_map {A B} (P : B -> Prop) (f : A -> list B) l :
  (forall x, x ∈ l -> Forall P (f x)) -> Forall P (flat_map f l).
Proof.
  induction l as [|x l IH]; intros Hf; simpl; [constructor|].
  apply Forall_app; split; [apply Hf; constructor | apply IH].
  intros y Hy. apply Hf. by constructor.
Qed.

Lemma sum256_range msg : Forall (fun b => 0 <= b < 256) (sum256 msg).
Proof. unfold sum256. apply Forall_flat_map. intros. apply be_bytes_range. Qed.

Lemma hex_encode_shape bs :
  Forall (fun b => 0 <= b < 256) bs ->
  slen (hex_encode bs) = 2 * Z.of_nat (length bs) /\
  forallb is_lower_hex (chars (hex_encode bs)) = true.
Proof.
  intros HF. unfold hex_encode, slen. rewrite <- length_chars, chars_of_chars.
  split.
  - rewrite (length_flat_map_const _ 2) by done. lia.
  - apply forallb_forall. apply List.Forall_forall. apply Forall_flat_map.
    intros b Hb. pose proof (proj1 (Forall_forall _ _) HF b Hb) as Hr. simpl in Hr.
    pose proof (Z.mod_pos_bound b 16 ltac:(lia)).
    repeat constructor; apply hex_digit_lower; [|lia].
    split; [apply Z.div_pos; lia | apply Z.div_lt_upper_bound; lia].
Qed.

Lemma sha256_hex_shape body :
  slen (sha256_hex body) = 64 /\ forallb is_lower_hex (chars (sha256_hex body)) = true.
Proof.
  unfold sha256_hex.
  destruct (hex_encode_shape _ (sum256_range (code <$> chars body))) as [H1 H2].
  split; [rewrite H1, length_sum256; lia | done].
Qed.
