(* ===== verification/Json.v ===== *)
(** Canonical JSON: [jobs.CanonicalJSON], [jobs.normalizeCanonical] and
    [jobs.HashCanonicalJSON] (internal/jobs/queue.go), with the part of package
    [encoding/json] they rest on.

    A Go value of dynamic type is a [goval]; a [map[string]any] is the list of
    its entries, in no particular order, and a struct the list of its exported
    fields under their JSON names, in declaration order.  The decimal text of a non-integral
    float ([strconv.FormatFloat] in the encoder) is a parameter. *)

From S2P Require Import Prelude GoString Digits Sha256.
From Stdlib Require Import Ascii SpecFloat.

#[local] Set Warnings "-register-all".
Inductive goval : Type :=
  | VNil
  | VBool (b : bool)
  | VFloat (f : spec_float)
  | VInt (z : Z)
  | VStr (s : string)
  | VArr (l : list goval)
  | VMap (m : list (string * goval))
  | VStruct (fields : list (string * goval)).

(** Induction through the nested lists. *)
Section goval_ind.
Context (P : goval -> Prop).
Context (Hnil : P VNil) (Hbool : forall b, P (VBool b)) (Hfloat : forall f, P (VFloat f))
  (Hint : forall z, P (VInt z)) (Hstr : forall s, P (VStr s))
  (Harr : forall l, Forall P l -> P (VArr l))
  (Hmap : forall m, Forall (fun kv => P (snd kv)) m -> P (VMap m))
  (Hstruct : forall m, Forall (fun kv => P (snd kv)) m -> P (VStruct m)).

Fixpoint goval_rect' (v : goval) : P v :=
  match v with
  | VNil => Hnil
  | VBool b => Hbool b
  | VFloat f => Hfloat f
  | VInt z => Hint z
  | VStr s => Hstr s
  | VArr l =>
      Harr l ((fix go l := match l return Forall P l with
                           | [] => Forall_nil_2 _
                           | x :: l' => Forall_cons_2 _ _ _ (goval_rect' x) (go l')
                           end) l)
  | VMap m =>
      Hmap m ((fix go m := match m return Forall (fun kv => P (snd kv)) m with
                           | [] => Forall_nil_2 _
                           | x :: m' => Forall_cons_2 _ _ _ (goval_rect' (snd x)) (go m')
                           end) m)
  | VStruct m =>
      Hstruct m ((fix go m := match m return Forall (fun kv => P (snd kv)) m with
                              | [] => Forall_nil_2 _
                              | x :: m' => Forall_cons_2 _ _ _ (goval_rect' (snd x)) (go m')
                              end) m)
  end.
End goval_ind.

(** ** Numbers *)

(** The integer a float64 denotes, when [math.Trunc] leaves it unchanged. *)
Definition float_integer (f : spec_float) : option Z :=
  match f with
  | S754_zero _ => Some 0
  | S754_finite s m e =>
      let sign z := if s then - z else z in
      if 0 <=? e then Some (sign (Z.pos m * 2 ^ e))
      else if Z.pos m mod 2 ^ (- e) =? 0 then Some (sign (Z.pos m / 2 ^ (- e))) else None
  | _ => None
  end.

(** [normalizeCanonical]: zero becomes the integer 0; an integral float between
    [math.MinInt64] and [math.MaxInt64] becomes an [int64].  As a float64 the
    constant [math.MaxInt64] is 2^63, and the conversion of 2^63 itself is the
    hardware's, which on amd64 wraps. *)
Fixpoint normalizeCanonical (v : goval) : goval :=
  match v with
  | VFloat f =>
      match f with
      | S754_zero _ => VInt 0
      | _ => match float_integer f with
             | Some z => if (- two63 <=? z) && (z <=? two63) then VInt (wrap64 z) else v
             | None => v
             end
      end
  | VMap m => VMap ((fun kv => (fst kv, normalizeCanonical (snd kv))) <$> m)
  | VArr l => VArr (normalizeCanonical <$> l)
  | _ => v
  end.

(** ** The encoder *)

(** [html]: also escape the characters [json.Marshal] hides from HTML. *)
Definition escape_ascii (html : bool) (c : ascii) : list ascii :=
  let b := code c in
  if (b =? 34) || (b =? 92) then [chr 92; c]
  else if b =? 8 then chars "\b" else if b =? 12 then chars "\f"
  else if b =? 10 then chars "\n" else if b =? 13 then chars "\r"
  else if b =? 9 then chars "\t"
  else if (b <? 32) || (html && ((b =? 60) || (b =? 62) || (b =? 38))) then chars "\u00" ++ [hex_digit (b / 16); hex_digit (b mod 16)]
  else [c].

Fixpoint escape (html : bool) (fuel : nat) (s : list ascii) : list ascii :=
  match s, fuel with
  | c :: r, S fuel' =>
      if code c <? 128 then escape_ascii html c ++ escape html fuel' r
      else match utf8_width (code <$> s) with
           | O => chars "\ufffd" ++ escape html fuel' r
           | n =>
               match code <$> take n s with
               | [226; 128; 168] => chars "\u2028" ++ escape html fuel' (drop n s)
               | [226; 128; 169] => chars "\u2029" ++ escape html fuel' (drop n s)
               | _ => take n s ++ escape html fuel' (drop n s)
               end
           end
  | _, _ => []
  end.

Definition encode_string (html : bool) (s : string) : string :=
  of_chars (chr 34 :: escape html (String.length s) (chars s) ++ [chr 34]).

(** Map entries in key order. *)
Fixpoint insert_entry {A} (e : string * A) (l : list (string * A)) : list (string * A) :=
  match l with
  | [] => [e]
  | x :: l' => if string_ltb (fst e) (fst x) then e :: l else x :: insert_entry e l'
  end.
Definition sort_entries {A} (l : list (string * A)) : list (string * A) :=
  foldr insert_entry [] l.

Section encoder.
Context (format_float : spec_float -> string).

Fixpoint encode (html : bool) (v : goval) : option string :=
  match v with
  | VNil => Some "null"
  | VBool b => Some (if b then "true" else "false")
  | VFloat f =>
      match f with
      | S754_infinity _ | S754_nan => None
      | _ => Some (format_float f)
      end
  | VInt z => Some (format_int z)
  | VStr s => Some (encode_string html s)
  | VArr l =>
      items ← mapM id (encode html <$> l);
      Some ("[" +:+ join "," items +:+ "]")
  | VMap m =>
      items ← mapM (fun kv => t ← snd kv; Some (encode_string html (fst kv) +:+ ":" +:+ t))
                   (sort_entries ((fun kv => (fst kv, encode html (snd kv))) <$> m));
      Some ("{" +:+ join "," items +:+ "}")
  | VStruct m =>
      items ← mapM (fun kv => t ← snd kv; Some (encode_string html (fst kv) +:+ ":" +:+ t))
                   ((fun kv => (fst kv, encode html (snd kv))) <$> m);
      Some ("{" +:+ join "," items +:+ "}")
  end.

(** [CanonicalJSON]: [Encoder.Encode] ends the text with a newline, which is
    trimmed. *)
Definition newline : string := of_chars [chr 10].

Definition CanonicalJSON (v : goval) : res string :=
  match encode false (normalizeCanonical v) with
  | Some t => Ok (trim_suffix (t +:+ newline) newline)
  | None => Err (ENew "json: unsupported value")
  end.

(** [json.Marshal]. *)
Definition Marshal (v : goval) : option string := encode true v.

Definition HashCanonicalJSON (v : goval) : res string :=
  let! data := CanonicalJSON v in Ok (sha256_hex data).
End encoder.

(** ** Canonicity *)

Section sort_entries.
Context {A : Type}.
Implicit Types l : list (string * A).

Lemma insert_entry_comm (e1 e2 : string * A) l :
  fst e1 <> fst e2 ->
  insert_entry e1 (insert_entry e2 l) = insert_entry e2 (insert_entry e1 l).
Proof.
  intros Hne.
  assert (Hlt : forall a b : string * A, fst a <> fst b ->
    string_ltb (fst a) (fst b) = negb (string_ltb (fst b) (fst a))).
  { intros a b Hab. destruct (string_ltb (fst a) (fst b)) eqn:E1.
    - by rewrite (string_ltb_asym _ _ E1).
    - destruct (string_ltb (fst b) (fst a)) eqn:E2; [done|].
      exfalso. apply Hab. by apply string_ltb_eq. }
  induction l as [|x l IH]; cbn [insert_entry].
  - rewrite (Hlt e1 e2 Hne). by destruct (string_ltb (fst e2) (fst e1)).
  - destruct (string_ltb (fst e2) (fst x)) eqn:E2, (string_ltb (fst e1) (fst x)) eqn:E1;
      cbn [insert_entry]; rewrite ?E1, ?E2; try done.
    + rewrite (Hlt e1 e2 Hne). by destruct (string_ltb (fst e2) (fst e1)).
    + assert (Hf : string_ltb (fst e1) (fst e2) = false).
      { destruct (string_ltb (fst e1) (fst e2)) eqn:E; [|done].
        assert (string_ltb (fst e2) (fst e1) = false) by by apply string_ltb_asym.
        exfalso. apply string_ltb_asym in E2.
        assert (He : string_ltb (fst e1) (fst x) = true); [|congruence].
        destruct (string_ltb (fst e1) (fst x)) eqn:E3; [done|].
        pose proof (string_ltb_le_trans _ _ _ E2 E3). congruence. }
      by rewrite Hf.
    + assert (Hf : string_ltb (fst e2) (fst e1) = false).
      { destruct (string_ltb (fst e2) (fst e1)) eqn:E; [|done].
        exfalso. apply string_ltb_asym in E1.
        pose proof (string_ltb_le_trans _ _ _ E1 E2). congruence. }
      by rewrite Hf.
    + f_equal. apply IH.
Qed.

Lemma sort_entries_perm l1 l2 :
  l1 ≡ₚ l2 -> NoDup (fst <$> l1) -> sort_entries l1 = sort_entries l2.
Proof.
  induction 1 as [|x l1 l2 H IH|x y l|l1 l2 l3 H1 IH1 H2 IH2]; intros Hnd; [done| | |].
  - change (insert_entry x (sort_entries l1) = insert_entry x (sort_entries l2)).
    rewrite IH; [done|]. cbn in Hnd. by inversion Hnd.
  - change (insert_entry y (insert_entry x (sort_entries l)) =
            insert_entry x (insert_entry y (sort_entries l))).
    apply insert_entry_comm. cbn in Hnd. inversion Hnd as [|? ? Hn _]; subst.
    intros He. apply Hn. rewrite He. constructor.
  - rewrite IH1 by done. apply IH2. by rewrite <- H1.
Qed.
End sort_entries.

(** Two Go values equal up to the order in which their maps list entries. *)
Inductive val_equiv : goval -> goval -> Prop :=
  | ve_refl v : val_equiv v v
  | ve_sym v w : val_equiv v w -> val_equiv w v
  | ve_trans u v w : val_equiv u v -> val_equiv v w -> val_equiv u w
  | ve_perm m m' : m ≡ₚ m' -> NoDup (fst <$> m) -> val_equiv (VMap m) (VMap m')
  | ve_arr pre v w post : val_equiv v w ->
      val_equiv (VArr (pre ++ v :: post)) (VArr (pre ++ w :: post))
  | ve_map pre k v w post : val_equiv v w ->
      val_equiv (VMap (pre ++ (k, v) :: post)) (VMap (pre ++ (k, w) :: post))
  | ve_struct pre k v w post : val_equiv v w ->
      val_equiv (VStruct (pre ++ (k, v) :: post)) (VStruct (pre ++ (k, w) :: post)).

#[export] Instance val_equiv_equivalence : Equivalence val_equiv.
Proof.
  split; [exact ve_refl | exact ve_sym | intros ???; apply ve_trans].
Qed.

#[export] Instance normalizeCanonical_proper :
  Proper (val_equiv ==> val_equiv) normalizeCanonical.
Proof.
  intros v w H. induction H as [v|v w H IH|u v w H1 IH1 H2 IH2|m m' Hp Hnd
    |pre v w post H IH|pre k v w post H IH|pre k v w post H IH].
  - reflexivity.
  - by symmetry.
  - by etransitivity.
  - cbn. apply ve_perm; [by apply fmap_Permutation|].
    rewrite <- list_fmap_compose. exact Hnd.
  - cbn [normalizeCanonical]. rewrite !fmap_app. by apply ve_arr.
  - cbn [normalizeCanonical]. rewrite !fmap_app. by apply ve_map.
  - reflexivity || (cbn [normalizeCanonical]; by apply ve_struct).
Qed.

#[export] Instance encode_proper ff html : Proper (val_equiv ==> eq) (encode ff html).
Proof.
  intros v w H. induction H as [v|v w H IH|u v w H1 IH1 H2 IH2|m m' Hp Hnd
    |pre v w post H IH|pre k v w post H IH|pre k v w post H IH]; [done|done|congruence|..].
  - cbn [encode]. erewrite sort_entries_perm; [done|by apply fmap_Permutation|].
    rewrite <- list_fmap_compose. exact Hnd.
  - cbn [encode]. rewrite !fmap_app, !fmap_cons. by rewrite IH.
  - cbn [encode]. rewrite !fmap_app, !fmap_cons. cbn [fst snd]. by rewrite IH.
  - cbn [encode]. rewrite !fmap_app, !fmap_cons. cbn [fst snd]. by rewrite IH.
Qed.

Lemma normalizeCanonical_float_cases f :
  normalizeCanonical (VFloat f) = VFloat f \/ exists z, normalizeCanonical (VFloat f) = VInt z.
Proof.
  destruct f; cbn; eauto. repeat case_match; eauto.
Qed.

(** Canonical text does not depend on the order in which maps list their
    entries. *)
Theorem CanonicalJSON_order_independent ff v w :
  val_equiv v w -> CanonicalJSON ff v = CanonicalJSON ff w.
Proof. intros H. unfold CanonicalJSON. by rewrite H. Qed.

Theorem normalizeCanonical_idempotent v :
  normalizeCanonical (normalizeCanonical v) = normalizeCanonical v.
Proof.
  induction v as [| | f | | | l IH | m IH | m IH] using goval_rect'; try done.
  - destruct (normalizeCanonical_float_cases f) as [H|[z H]]; rewrite H; [exact H|done].
  - cbn [normalizeCanonical]. f_equal. rewrite <- list_fmap_compose.
    apply list_fmap_ext. intros i x Hx. cbn. rewrite Forall_lookup in IH. by eapply IH.
  - cbn [normalizeCanonical]. f_equal. rewrite <- list_fmap_compose.
    apply list_fmap_ext. intros i [k x] Hx. cbn. rewrite Forall_lookup in IH.
    f_equal. by apply (IH i (k, x)).
Qed.

(** Integral floats strictly below 2^63 keep their value. *)
Theorem normalizeCanonical_integral f z :
  float_integer f = Some z -> min_int64 <= z <= max_int64 ->
  normalizeCanonical (VFloat f) = VInt z.
Proof.
  intros Hf Hz. destruct f as [s|s| |s m e]; try done.
  - by injection Hf as <-.
  - unfold normalizeCanonical. rewrite Hf. unfold min_int64, max_int64, two63 in *.
    case_match eqn:E; [f_equal; apply wrap64_id; unfold min_int64, max_int64, two63; lia|].
    apply andb_false_iff in E as [E|E]; bool_simp; lia.
Qed.

(** The float64 2^63 passes the range test and is written as -2^63. *)
Theorem normalizeCanonical_two63 :
  normalizeCanonical (VFloat (S754_finite false 4503599627370496 11)) = VInt (- two63).
Proof. vm_compute. reflexivity. Qed.
