(* ===== verification/Db.v ===== *)
(** PostgreSQL transactions as the services use them through pgx.

    A connection holds the committed store, the store the open transaction
    sees, and a schedule of environment failures: each interaction with the
    server consumes one boolean, [true] making it fail.  [begin], [stmt] and
    [commit] are [Pool.Begin], [tx.Exec]/[tx.QueryRow] and [tx.Commit];
    [pool_stmt] is a statement on the pool, outside a transaction.  A deferred
    [tx.Rollback] needs no operation: what a call leaves uncommitted is dropped
    by [run].  Transactions run one after the other, which is what the row locks
    the statements take amount to for the rows concerned; a failed commit is
    taken as not applied. *)

From S2P Require Import Prelude.

Record db (S : Type) : Type := Db {
  committed : S;
  working : S;
  faults : list bool;
}.
Arguments Db {S}.
Arguments committed {S}.
Arguments working {S}.
Arguments faults {S}.

Definition dbm (S A : Type) : Type := db S -> res A * db S.

Section ops.
Context {S : Type}.

Definition ret {A} (a : A) : dbm S A := fun d => (Ok a, d).
Definition throw {A} (e : goerr) : dbm S A := fun d => (Err e, d).

Definition bind {A B} (m : dbm S A) (k : A -> dbm S B) : dbm S B :=
  fun d => match m d with
           | (Ok a, d') => k a d'
           | (Err e, d') => (Err e, d')
           end.

(** [if err != nil { return fmt.Errorf("ctx: %w", err) }]. *)
Definition wrap {A} (ctx : string) (m : dbm S A) : dbm S A :=
  fun d => match m d with
           | (Err e, d') => (Err (EWrap ctx e), d')
           | r => r
           end.

(** [if err != nil { return f(err) }]. *)
Definition map_err {A} (f : goerr -> goerr) (m : dbm S A) : dbm S A :=
  fun d => match m d with
           | (Err e, d') => (Err (f e), d')
           | r => r
           end.

(** The pair [(value, err)] itself, for code that inspects [err]. *)
Definition attempt {A} (m : dbm S A) : dbm S (res A) :=
  fun d => let '(r, d') := m d in (Ok r, d').

Definition of_res {A} (r : res A) : dbm S A := fun d => (r, d).

(** Take the next entry of the failure schedule; an exhausted schedule
    reports no failure. *)
Definition next_fault (d : db S) : bool * db S :=
  match faults d with
  | [] => (false, d)
  | f :: fs => (f, Db (committed d) (working d) fs)
  end.

Definition guarded {A} (m : dbm S A) : dbm S A :=
  fun d => let '(f, d') := next_fault d in
           if f then (Err EDb, d') else m d'.

Definition begin : dbm S unit :=
  guarded (fun d => (Ok tt, Db (committed d) (committed d) (faults d))).

(** A statement inside the transaction: a function of the store giving the
    rows it returns and the store it leaves; a failing one leaves nothing. *)
Definition stmt {A} (f : S -> res A * S) : dbm S A :=
  guarded (fun d => match f (working d) with
                    | (Ok a, s) => (Ok a, Db (committed d) s (faults d))
                    | (Err e, _) => (Err e, d)
                    end).

(** A statement on the pool, committed on its own. *)
Definition pool_stmt {A} (f : S -> res A * S) : dbm S A :=
  guarded (fun d => match f (committed d) with
                    | (Ok a, s) => (Ok a, Db s s (faults d))
                    | (Err e, _) => (Err e, d)
                    end).

Definition commit : dbm S unit :=
  guarded (fun d => (Ok tt, Db (working d) (working d) (faults d))).

(** A read is a statement that leaves the store alone. *)
Definition query {A} (f : S -> res A) : dbm S A := stmt (fun s => (f s, s)).
Definition pool_query {A} (f : S -> res A) : dbm S A := pool_stmt (fun s => (f s, s)).
Definition exec (f : S -> S) : dbm S unit := stmt (fun s => (Ok tt, f s)).

Fixpoint iter {A} (f : A -> dbm S unit) (l : list A) : dbm S unit :=
  match l with
  | [] => ret tt
  | x :: l' => bind (f x) (fun _ => iter f l')
  end.

(** The results of a call per element, up to the first error. *)
Fixpoint collect {A B} (f : A -> dbm S B) (l : list A) : dbm S (list B) :=
  match l with
  | [] => ret []
  | x :: l' => bind (f x) (fun y => bind (collect f l') (fun ys => ret (y :: ys)))
  end.

(** A loop that carries a value, up to the first error. *)
Fixpoint fold_m {A B} (f : B -> A -> dbm S B) (acc : B) (l : list A) : dbm S B :=
  match l with
  | [] => ret acc
  | x :: l' => bind (f acc x) (fun acc => fold_m f acc l')
  end.

(** Run a call against a store: the result and the store it leaves behind. *)
Definition run {A} (m : dbm S A) (fs : list bool) (s : S) : res A * S :=
  let '(r, d) := m (Db s s fs) in (r, committed d).
End ops.

(** A call of a service over some of the tables, made by a service over more of
    them. *)
Definition embed {S T A} (get : T -> S) (put : S -> T -> T) (m : dbm S A) : dbm T A :=
  fun d => let '(r, d') := m (Db (get (committed d)) (get (working d)) (faults d)) in
           (r, Db (put (committed d') (committed d)) (put (working d') (working d)) (faults d')).

Lemma run_embed {S T A} (get : T -> S) (put : S -> T -> T) (m : dbm S A) fs t :
  run (embed get put m) fs t = (fst (run m fs (get t)), put (snd (run m fs (get t))) t).
Proof. unfold run, embed. cbn. by destruct (m _) as [r d']. Qed.

Declare Scope db_scope.
Delimit Scope db_scope with db.
#[global] Open Scope db_scope.
Notation "'let*' x := m 'in' k" := (bind m (fun x => k))
  (at level 10, x name, m at level 100, k at level 200, only parsing) : db_scope.
Notation "m ;;; k" := (bind m (fun _ => k))
  (at level 100, k at level 200, right associativity, only parsing) : db_scope.

(** ** Atomicity

    [quiet m]: [m] commits nothing.  [atomic m]: if [m] reports an error, the
    committed store is the one it started from. *)
Section atomicity.
Context {S : Type}.

Definition quiet {A} (m : dbm S A) : Prop :=
  forall d, committed (snd (m d)) = committed d.

Definition atomic {A} (m : dbm S A) : Prop :=
  forall d, is_ok (fst (m d)) = false -> committed (snd (m d)) = committed d.

Lemma next_fault_committed (d : db S) : committed (snd (next_fault d)) = committed d.
Proof. unfold next_fault. by destruct (faults d). Qed.

Lemma quiet_guarded {A} (m : dbm S A) : quiet m -> quiet (guarded m).
Proof.
  intros Hm d. unfold guarded. pose proof (next_fault_committed d) as H.
  destruct (next_fault d) as [[] d']; simpl in *; [done|]. by rewrite Hm.
Qed.

Lemma quiet_ret {A} (a : A) : quiet (ret a). Proof. done. Qed.
Lemma quiet_throw {A} e : quiet (@throw S A e). Proof. done. Qed.
Lemma quiet_of_res {A} (r : res A) : quiet (of_res r). Proof. done. Qed.

Lemma quiet_bind {A B} (m : dbm S A) (k : A -> dbm S B) :
  quiet m -> (forall a, quiet (k a)) -> quiet (bind m k).
Proof.
  intros Hm Hk d. unfold bind. specialize (Hm d).
  destruct (m d) as [[a|e] d']; simpl in *; [by rewrite Hk | done].
Qed.

Lemma quiet_wrap {A} c (m : dbm S A) : quiet m -> quiet (wrap c m).
Proof. intros Hm d. specialize (Hm d). unfold wrap. by destruct (m d) as [[]]. Qed.

Lemma quiet_map_err {A} f (m : dbm S A) : quiet m -> quiet (map_err f m).
Proof. intros Hm d. specialize (Hm d). unfold map_err. by destruct (m d) as [[]]. Qed.

Lemma quiet_attempt {A} (m : dbm S A) : quiet m -> quiet (attempt m).
Proof. intros Hm d. specialize (Hm d). unfold attempt. by destruct (m d). Qed.

Lemma quiet_begin : quiet (@begin S).
Proof. by apply quiet_guarded. Qed.

Lemma quiet_stmt {A} (f : S -> res A * S) : quiet (stmt f).
Proof. apply quiet_guarded. intros d. by destruct (f (working d)) as [[]]. Qed.

Lemma quiet_query {A} (f : S -> res A) : quiet (query f).
Proof. apply quiet_stmt. Qed.

Lemma quiet_exec (f : S -> S) : quiet (exec f).
Proof. apply quiet_stmt. Qed.

Lemma quiet_pool_query {A} (f : S -> res A) : quiet (pool_query f).
Proof. apply quiet_guarded. intros d. by destruct (f (committed d)). Qed.

Lemma quiet_iter {A} (f : A -> dbm S unit) l : (forall x, quiet (f x)) -> quiet (iter f l).
Proof.
  intros Hf. induction l as [|x l IH]; simpl; [apply quiet_ret|].
  by apply quiet_bind.
Qed.

Lemma quiet_collect {A B} (f : A -> dbm S B) l : (forall x, quiet (f x)) -> quiet (collect f l).
Proof.
  intros Hf. induction l as [|x l IH]; simpl; [apply quiet_ret|].
  apply quiet_bind; [done|]. intros y. apply quiet_bind; [done|]. intros ys. apply quiet_ret.
Qed.

Lemma atomic_quiet {A} (m : dbm S A) : quiet m -> atomic m.
Proof. intros Hm d _. apply Hm. Qed.

Lemma atomic_bind {A B} (m : dbm S A) (k : A -> dbm S B) :
  quiet m -> (forall a, atomic (k a)) -> atomic (bind m k).
Proof.
  intros Hm Hk d. unfold bind. specialize (Hm d).
  destruct (m d) as [[a|e] d']; simpl in *; [|done].
  intros He. rewrite <- Hm. by apply Hk.
Qed.

Lemma atomic_wrap {A} c (m : dbm S A) : atomic m -> atomic (wrap c m).
Proof. intros Hm d. specialize (Hm d). unfold wrap. by destruct (m d) as [[]]. Qed.

Lemma atomic_guarded {A} (m : dbm S A) : atomic m -> atomic (guarded m).
Proof.
  intros Hm d. unfold guarded. pose proof (next_fault_committed d) as H.
  destruct (next_fault d) as [[] d']; simpl in *; [done|]. intros He.
  rewrite <- H. by apply Hm.
Qed.

Lemma atomic_commit : atomic (@commit S).
Proof. by apply atomic_guarded. Qed.

(** What follows the commit must not fail. *)
Lemma atomic_commit_then {A} (m : dbm S unit) (a : A) :
  atomic m -> atomic (bind m (fun _ => ret a)).
Proof.
  intros Hm d. specialize (Hm d). unfold bind, ret.
  by destruct (m d) as [[[]|e] d'].
Qed.

Lemma atomic_pool_stmt {A} (f : S -> res A * S) : atomic (pool_stmt f).
Proof. apply atomic_guarded. intros d. by destruct (f (committed d)) as [[]]. Qed.

Lemma atomic_run {A} (m : dbm S A) fs s :
  atomic m -> is_ok (fst (run m fs s)) = false -> snd (run m fs s) = s.
Proof.
  intros Hm. unfold run. specialize (Hm (Db s s fs)).
  by destruct (m (Db s s fs)) as [r d].
Qed.
End atomicity.

#[export] Hint Resolve quiet_ret quiet_throw quiet_of_res quiet_bind quiet_wrap quiet_attempt
  quiet_map_err quiet_collect
  quiet_begin quiet_stmt quiet_query quiet_exec quiet_pool_query quiet_iter
  atomic_commit atomic_commit_then atomic_pool_stmt : go.

(** Walk a transaction body down to its commit. *)
Ltac quiet_step :=
  match goal with
  | |- forall _, _ => intro
  | |- quiet (match ?x with _ => _ end) => destruct x
  | |- atomic (match ?x with _ => _ end) => destruct x
  | |- quiet (let '_ := ?x in _) => destruct x
  | |- atomic (let '_ := ?x in _) => destruct x
  | |- quiet (bind _ _) => apply quiet_bind
  | |- quiet (iter _ _) => apply quiet_iter
  | |- quiet _ => solve [eauto with go]
  | |- atomic (bind (wrap _ commit) (fun _ => ret _)) =>
      apply atomic_commit_then, atomic_wrap, atomic_commit
  | |- atomic (bind commit (fun _ => ret _)) => apply atomic_commit_then, atomic_commit
  | |- atomic (bind _ _) => apply atomic_bind
  | |- atomic (throw _) => apply atomic_quiet, quiet_throw
  | |- atomic (ret _) => apply atomic_quiet, quiet_ret
  | |- atomic _ => first [solve [eauto with go] | apply atomic_quiet]
  end.
Ltac solve_atomic := repeat quiet_step.

(** ** Runs without environment failures *)
Section faultless.
Context {S : Type}.

Lemma bind_ok {A B} (m : dbm S A) (k : A -> dbm S B) d a d' :
  m d = (Ok a, d') -> bind m k d = k a d'.
Proof. unfold bind. by intros ->. Qed.

Lemma bind_err {A B} (m : dbm S A) (k : A -> dbm S B) d e d' :
  m d = (Err e, d') -> bind m k d = (Err e, d').
Proof. unfold bind. by intros ->. Qed.

Lemma begin_nofault (c w : S) : begin (Db c w []) = (Ok tt, Db c c []).
Proof. done. Qed.

Lemma commit_nofault (c w : S) : commit (Db c w []) = (Ok tt, Db w w []).
Proof. done. Qed.

Lemma stmt_nofault {A} (f : S -> res A * S) c w :
  stmt f (Db c w []) =
    match f w with
    | (Ok a, s) => (Ok a, Db c s [])
    | (Err e, _) => (Err e, Db c w [])
    end.
Proof. done. Qed.
End faultless.

(** ** Weakest preconditions

    [wp m Q d]: the run of [m] from [d] ends in a result and a connection that
    satisfy [Q], whatever the failure schedule of [d] holds. *)
Section wp.
Context {S : Type}.

Definition wp {A} (m : dbm S A) (Q : res A -> db S -> Prop) (d : db S) : Prop :=
  Q (fst (m d)) (snd (m d)).

Lemma wp_ret {A} (a : A) Q d : Q (Ok a) d -> wp (ret a) Q d.
Proof. done. Qed.

Lemma wp_throw {A} e (Q : res A -> db S -> Prop) d : Q (Err e) d -> wp (throw e) Q d.
Proof. done. Qed.

Lemma wp_of_res {A} (r : res A) (Q : res A -> db S -> Prop) d : Q r d -> wp (of_res r) Q d.
Proof. done. Qed.

Lemma wp_bind {A B} (m : dbm S A) (k : A -> dbm S B) Q d :
  wp m (fun r d' => match r with Ok a => wp (k a) Q d' | Err e => Q (Err e) d' end) d ->
  wp (bind m k) Q d.
Proof. unfold wp, bind. by destruct (m d) as [[a|e] d']. Qed.

Lemma wp_wrap {A} c (m : dbm S A) Q d :
  wp m (fun r d' => match r with
                    | Ok a => Q (Ok a) d'
                    | Err e => Q (Err (EWrap c e)) d' end) d ->
  wp (wrap c m) Q d.
Proof. unfold wp, wrap. by destruct (m d) as [[a|e] d']. Qed.

Lemma wp_map_err {A} f (m : dbm S A) Q d :
  wp m (fun r d' => match r with
                    | Ok a => Q (Ok a) d'
                    | Err e => Q (Err (f e)) d' end) d ->
  wp (map_err f m) Q d.
Proof. unfold wp, map_err. by destruct (m d) as [[a|e] d']. Qed.

Lemma wp_attempt {A} (m : dbm S A) Q d :
  wp m (fun r d' => Q (Ok r) d') d -> wp (attempt m) Q d.
Proof. unfold wp, attempt. by destruct (m d) as [r d']. Qed.

Lemma wp_guarded {A} (m : dbm S A) Q c w fs :
  (forall fs', Q (Err EDb) (Db c w fs')) -> (forall fs', wp m Q (Db c w fs')) ->
  wp (guarded m) Q (Db c w fs).
Proof.
  intros He Hm. unfold wp, guarded, next_fault. destruct fs as [|[] fs]; simpl;
    [apply Hm | apply He | apply Hm].
Qed.

Lemma wp_begin Q c w fs :
  (forall fs', Q (Err EDb) (Db c w fs')) -> (forall fs', Q (Ok tt) (Db c c fs')) ->
  wp begin Q (Db c w fs).
Proof. intros He Hm. by apply wp_guarded. Qed.

Lemma wp_commit Q c w fs :
  (forall fs', Q (Err EDb) (Db c w fs')) -> (forall fs', Q (Ok tt) (Db w w fs')) ->
  wp commit Q (Db c w fs).
Proof. intros He Hm. by apply wp_guarded. Qed.

Lemma wp_stmt {A} (f : S -> res A * S) Q c w fs :
  (forall fs', Q (Err EDb) (Db c w fs')) ->
  (forall fs' a w', f w = (Ok a, w') -> Q (Ok a) (Db c w' fs')) ->
  (forall fs' e w', f w = (Err e, w') -> Q (Err e) (Db c w fs')) ->
  wp (stmt f) Q (Db c w fs).
Proof.
  intros He H1 H2. apply wp_guarded; [done|]. intros fs'. unfold wp; simpl.
  destruct (f w) as [[a|e] w'] eqn:E; simpl; eauto.
Qed.

Lemma wp_pool_stmt {A} (f : S -> res A * S) Q c w fs :
  (forall fs', Q (Err EDb) (Db c w fs')) ->
  (forall fs' a w', f c = (Ok a, w') -> Q (Ok a) (Db w' w' fs')) ->
  (forall fs' e w', f c = (Err e, w') -> Q (Err e) (Db c w fs')) ->
  wp (pool_stmt f) Q (Db c w fs).
Proof.
  intros He H1 H2. apply wp_guarded; [done|]. intros fs'. unfold wp; simpl.
  destruct (f c) as [[a|e] w'] eqn:E; simpl; eauto.
Qed.

Lemma wp_exec f Q c w fs :
  (forall fs', Q (Err EDb) (Db c w fs')) ->
  (forall fs', Q (Ok tt) (Db c (f w) fs')) ->
  wp (exec f) Q (Db c w fs).
Proof. intros He H1. by apply wp_guarded. Qed.

Lemma wp_query {A} (f : S -> res A) Q c w fs :
  (forall fs', Q (Err EDb) (Db c w fs')) ->
  (forall fs', Q (f w) (Db c w fs')) ->
  wp (query f) Q (Db c w fs).
Proof.
  intros He H1. apply wp_stmt; [done| |]; intros fs' ? ? [= Hf <-]; rewrite <- Hf; auto.
Qed.

(** Looping over a list: an invariant on the working store, indexed by the
    elements already processed. *)
Lemma wp_iter {A} (f : A -> dbm S unit) (I : list A -> S -> Prop) c l :
  forall (Q : res unit -> db S -> Prop) done0 w fs,
  I done0 w ->
  (forall e w' fs', Q (Err e) (Db c w' fs')) ->
  (forall done1 x w' fs',
     I done1 w' -> wp (f x) (fun r d' => match r with
       | Ok _ => exists w'' fs'', d' = Db c w'' fs'' /\ I (done1 ++ [x]) w''
       | Err e => exists w'' fs'', d' = Db c w'' fs''
       end) (Db c w' fs')) ->
  (forall w' fs', I (done0 ++ l) w' -> Q (Ok tt) (Db c w' fs')) ->
  wp (iter f l) Q (Db c w fs).
Proof.
  induction l as [|x l IH]; intros Q done0 w fs HI He Hf HQ; simpl.
  - apply wp_ret. apply HQ. by rewrite app_nil_r.
  - apply wp_bind. specialize (Hf done0 x w fs HI) as Hx. unfold wp in Hx |- *.
    destruct (f x (Db c w fs)) as [[[]|e] d']; simpl in *.
    + destruct Hx as (w'' & fs'' & -> & HI'). eapply IH; eauto.
      intros w' fs' HI''. apply HQ. by rewrite <- app_assoc in HI''.
    + destruct Hx as (w'' & fs'' & ->). apply He.
Qed.

Lemma wp_run {A} (m : dbm S A) fs s r s' (P : res A -> S -> Prop) :
  run m fs s = (r, s') -> wp m (fun r d => P r (committed d)) (Db s s fs) -> P r s'.
Proof. unfold run, wp. destruct (m (Db s s fs)) as [r0 d]. by intros [= <- <-]. Qed.

(** The same for a run known to succeed. *)
Lemma wp_run_ok {A} (m : dbm S A) fs s a s' (P : A -> S -> Prop) :
  run m fs s = (Ok a, s') ->
  wp m (fun r d => forall x, r = Ok x -> P x (committed d)) (Db s s fs) -> P a s'.
Proof. intros Hrun Hwp. by eapply (wp_run _ _ _ _ _ (fun r s => forall x, r = Ok x -> P x s)). Qed.
End wp.

#[global] Arguments wp : simpl never.

(** One symbolic step of a transaction body. *)
Ltac wp_step :=
  match goal with
  | |- wp (ret _) _ _ => apply wp_ret
  | |- wp (throw _) _ _ => apply wp_throw
  | |- wp (of_res _) _ _ => apply wp_of_res
  | |- wp (bind _ _) _ _ => apply wp_bind
  | |- wp (wrap _ _) _ _ => apply wp_wrap
  | |- wp (map_err _ _) _ _ => apply wp_map_err
  | |- wp (attempt _) _ _ => apply wp_attempt
  | |- wp begin _ _ => apply wp_begin; intros ?fs
  | |- wp commit _ _ => apply wp_commit; intros ?fs
  | |- wp (exec _) _ _ => apply wp_exec; intros ?fs
  | |- wp (query _) _ _ => apply wp_query; intros ?fs
  | |- wp (stmt _) _ _ => apply wp_stmt; [intros ?fs | intros ?fs ?a ?w ?E | intros ?fs ?e ?w ?E]
  | |- wp (pool_stmt _) _ _ =>
      apply wp_pool_stmt; [intros ?fs | intros ?fs ?a ?w ?E | intros ?fs ?e ?w ?E]
  end; cbn beta iota.

(** From a completed run to the weakest precondition of the goal, read as a
    property of the run's result and store. *)
Ltac run_wp H :=
  match type of H with
  | run _ _ _ = (?r, ?s) =>
      pattern r, s; refine (wp_run _ _ _ _ _ _ H _); clear H
  end.

Ltac run_ok_wp H :=
  match type of H with
  | run _ _ _ = (Ok ?a, ?s) =>
      pattern a, s; refine (wp_run_ok _ _ _ _ _ _ H _); clear H
  end.

(** ** Containment

    [within R m]: whatever fails, the stores [m] leaves are related by [R] to
    any store the committed and the working one were related to.  With [R] the
    relation "if the invariant held it still does, and nothing was lost", it is
    enough to know each statement. *)
Section containment.
Context {S : Type} (R : S -> S -> Prop) `{!Transitive R}.

Definition within {A} (m : dbm S A) : Prop :=
  forall s c w fs, R s c -> R s w ->
    R s (committed (snd (m (Db c w fs)))) /\ R s (working (snd (m (Db c w fs)))).

Lemma within_ret {A} (a : A) : within (ret a). Proof. done. Qed.
Lemma within_throw {A} e : within (@throw S A e). Proof. done. Qed.
Lemma within_of_res {A} (r : res A) : within (of_res r). Proof. done. Qed.

Lemma within_bind {A B} (m : dbm S A) (k : A -> dbm S B) :
  within m -> (forall a, within (k a)) -> within (bind m k).
Proof.
  intros Hm Hk s c w fs Hc Hw. destruct (Hm s c w fs Hc Hw) as [H1 H2]. unfold bind.
  destruct (m (Db c w fs)) as [[a|e] [c' w' fs']]; [|done]. by apply Hk.
Qed.

Lemma within_wrap {A} ctx (m : dbm S A) : within m -> within (wrap ctx m).
Proof. intros Hm s c w fs Hc Hw. specialize (Hm s c w fs Hc Hw). unfold wrap. by destruct (m _) as [[]]. Qed.

Lemma within_map_err {A} f (m : dbm S A) : within m -> within (map_err f m).
Proof. intros Hm s c w fs Hc Hw. specialize (Hm s c w fs Hc Hw). unfold map_err. by destruct (m _) as [[]]. Qed.

Lemma within_attempt {A} (m : dbm S A) : within m -> within (attempt m).
Proof. intros Hm s c w fs Hc Hw. specialize (Hm s c w fs Hc Hw). unfold attempt. by destruct (m _). Qed.

Lemma within_guarded {A} (m : dbm S A) : within m -> within (guarded m).
Proof.
  intros Hm s c w fs Hc Hw. unfold guarded, next_fault. destruct fs as [|[] fs]; [by apply Hm|done|by apply Hm].
Qed.

Lemma within_begin : within begin.
Proof. by apply within_guarded. Qed.

Lemma within_commit : within commit.
Proof. by apply within_guarded. Qed.

Definition respects {A} (f : S -> res A * S) : Prop := forall s a s', f s = (Ok a, s') -> R s s'.

Lemma within_stmt {A} (f : S -> res A * S) : respects f -> within (stmt f).
Proof.
  intros Hf. apply within_guarded. intros s c w fs Hc Hw. cbn. destruct (f w) as [[a|e] w'] eqn:E; cbn; [|done].
  split; [done|]. etransitivity; [exact Hw|]. by eapply Hf.
Qed.

Lemma within_pool_stmt {A} (f : S -> res A * S) : respects f -> within (pool_stmt f).
Proof.
  intros Hf. apply within_guarded. intros s c w fs Hc Hw. cbn. destruct (f c) as [[a|e] w'] eqn:E; cbn; [|done].
  assert (R s w') by (etransitivity; [exact Hc|by eapply Hf]). done.
Qed.

Lemma within_pool_query {A} (f : S -> res A) : within (pool_query f).
Proof.
  apply within_guarded. intros s c w fs Hc Hw. cbn. by destruct (f c).
Qed.

Lemma within_iter {A} (f : A -> dbm S unit) l : (forall x, within (f x)) -> within (iter f l).
Proof.
  intros Hf. induction l as [|x l IH]; simpl; [apply within_ret|]. by apply within_bind.
Qed.

Lemma within_run {A} (m : dbm S A) `{!Reflexive R} fs s r s' : within m -> run m fs s = (r, s') -> R s s'.
Proof.
  intros Hm. unfold run. destruct (Hm s s s fs) as [H _]; [done..|].
  destruct (m (Db s s fs)) as [r0 d]. by intros [= <- <-].
Qed.
End containment.

#[export] Hint Resolve within_ret within_throw within_of_res within_begin within_commit within_pool_query : go.

(** Walk a call down to its statements. *)
Ltac within_step :=
  match goal with
  | |- forall _, _ => intro
  | |- within _ (match ?x with _ => _ end) => destruct x eqn:?
  | |- within _ (bind _ _) => apply within_bind
  | |- within _ (wrap _ _) => apply within_wrap
  | |- within _ (map_err _ _) => apply within_map_err
  | |- within _ (attempt _) => apply within_attempt
  | |- within _ (iter _ _) => apply within_iter
  | |- within _ (stmt _) => apply within_stmt; [exact _|]
  | |- within _ (pool_stmt _) => apply within_pool_stmt; [exact _|]
  | |- within _ _ => solve [eauto with go]
  | |- respects _ _ => solve [eauto with go]
  end.

(** ** Reading from two stores

    [agrees s1 s2 m]: run over either store, under one failure schedule, [m]
    commits nothing and gives the same result. *)
Section agreement.
Context {S : Type} (s1 s2 : S).

Definition agrees {A} (m : dbm S A) : Prop :=
  forall w1 w2 fs, exists r w1' w2' fs',
    m (Db s1 w1 fs) = (r, Db s1 w1' fs') /\ m (Db s2 w2 fs) = (r, Db s2 w2' fs').

Lemma agrees_ret {A} (a : A) : agrees (ret a).
Proof. intros w1 w2 fs. by eexists _, _, _, _. Qed.

Lemma agrees_throw {A} e : agrees (@throw S A e).
Proof. intros w1 w2 fs. by eexists _, _, _, _. Qed.

Lemma agrees_bind {A B} (m : dbm S A) (k : A -> dbm S B) :
  agrees m -> (forall a, agrees (k a)) -> agrees (bind m k).
Proof.
  intros Hm Hk w1 w2 fs. destruct (Hm w1 w2 fs) as (r & w1' & w2' & fs' & H1 & H2).
  unfold bind. rewrite H1, H2. destruct r as [a|e]; [apply Hk|]. by eexists _, _, _, _.
Qed.

Lemma agrees_wrap {A} c (m : dbm S A) : agrees m -> agrees (wrap c m).
Proof.
  intros Hm w1 w2 fs. destruct (Hm w1 w2 fs) as (r & w1' & w2' & fs' & H1 & H2).
  unfold wrap. rewrite H1, H2. destruct r; by eexists _, _, _, _.
Qed.

Lemma agrees_attempt {A} (m : dbm S A) : agrees m -> agrees (attempt m).
Proof.
  intros Hm w1 w2 fs. destruct (Hm w1 w2 fs) as (r & w1' & w2' & fs' & H1 & H2).
  unfold attempt. rewrite H1, H2. by eexists _, _, _, _.
Qed.

Lemma agrees_pool_query {A} (f : S -> res A) : f s1 = f s2 -> agrees (pool_query f).
Proof.
  intros Hf w1 w2 fs. unfold pool_query, pool_stmt, guarded, next_fault.
  destruct fs as [|[] fs]; cbn; rewrite ?Hf; try destruct (f s2); by eexists _, _, _, _.
Qed.

Lemma agrees_run {A} (m : dbm S A) fs :
  agrees m -> fst (run m fs s1) = fst (run m fs s2).
Proof.
  intros Hm. destruct (Hm s1 s2 fs) as (r & w1 & w2 & fs' & H1 & H2).
  unfold run. by rewrite H1, H2.
Qed.
End agreement.

#[export] Hint Resolve agrees_ret agrees_throw agrees_wrap agrees_attempt agrees_pool_query : go.

(** ** Reads

    [steady m]: [m] only reads.  It leaves the store alone, and a failure of the
    environment can turn its answer into an error but not into another answer. *)
Section reads.
Context {S : Type}.

(** The answer without failures. *)
Definition answer {A} (m : dbm S A) (s : S) : res A := fst (m (Db s s [])).

Definition steady {A} (m : dbm S A) : Prop :=
  forall s, snd (m (Db s s [])) = Db s s [] /\
    forall fs, exists r fs', m (Db s s fs) = (r, Db s s fs') /\ forall a, r = Ok a -> answer m s = Ok a.

Lemma steady_ret {A} (a : A) : steady (ret a).
Proof. intros s. split; [done|]. intros fs. by eexists _, _. Qed.

Lemma steady_throw {A} e : steady (@throw S A e).
Proof. intros s. split; [done|]. intros fs. by eexists _, _. Qed.

Lemma steady_of_res {A} (r : res A) : steady (of_res r).
Proof. intros s. split; [done|]. intros fs. by eexists _, _. Qed.

Lemma steady_pool_query {A} (f : S -> res A) : steady (pool_query f).
Proof.
  intros s. unfold answer, pool_query, pool_stmt, guarded, next_fault. cbn. split; [by destruct (f s)|].
  intros [|[] fs]; cbn; destruct (f s); by eexists _, _.
Qed.

Lemma answer_bind {A B} (m : dbm S A) (k : A -> dbm S B) s :
  steady m -> answer (bind m k) s = let! a := answer m s in answer (k a) s.
Proof.
  intros Hm. destruct (Hm s) as [Hs _]. unfold answer, bind in *. by destruct (m (Db s s [])) as [[] ?]; cbn in *; subst.
Qed.

Lemma steady_bind {A B} (m : dbm S A) (k : A -> dbm S B) :
  steady m -> (forall a, steady (k a)) -> steady (bind m k).
Proof.
  intros Hm Hk s. split.
  - destruct (Hm s) as [Hs _]. unfold bind. destruct (m (Db s s [])) as [[a|e] d]; cbn in Hs; subst; [|done]. apply Hk.
  - intros fs. destruct (Hm s) as [_ Ha]. destruct (Ha fs) as (r & fs' & Hr & Hans). rewrite (answer_bind m k s Hm).
    unfold bind at 1. rewrite Hr. destruct r as [a|e]; [|by eexists _, _].
    rewrite (Hans a eq_refl). apply (Hk a s).
Qed.

Lemma steady_map_err {A} f (m : dbm S A) : steady m -> steady (map_err f m).
Proof.
  intros Hm s. destruct (Hm s) as [Hs Ha]. unfold answer, map_err in *. split; [by destruct (m (Db s s [])) as [[] ?]|].
  intros fs. destruct (Ha fs) as (r & fs' & Hr & Hans). rewrite Hr. destruct r as [a|e]; [|by eexists _, _].
  eexists _, _. split; [done|]. intros ? [= <-]. specialize (Hans a eq_refl). by destruct (m (Db s s [])) as [[] ?].
Qed.

Lemma answer_map_err {A} f (m : dbm S A) s :
  answer (map_err f m) s = match answer m s with Ok a => Ok a | Err e => Err (f e) end.
Proof. unfold answer, map_err. by destruct (m (Db s s [])) as [[] ?]. Qed.

Lemma steady_wrap {A} ctx (m : dbm S A) : steady m -> steady (wrap ctx m).
Proof. apply (steady_map_err (EWrap ctx)). Qed.

Lemma answer_wrap {A} ctx (m : dbm S A) s :
  answer (wrap ctx m) s = match answer m s with Ok a => Ok a | Err e => Err (EWrap ctx e) end.
Proof. apply (answer_map_err (EWrap ctx)). Qed.

Lemma answer_pool_query {A} (f : S -> res A) s : answer (pool_query f) s = f s.
Proof. unfold answer, pool_query, pool_stmt, guarded, next_fault. cbn. by destruct (f s). Qed.

Lemma answer_ret {A} (a : A) s : answer (ret a) s = Ok a. Proof. done. Qed.
Lemma answer_throw {A} e s : answer (@throw S A e) s = Err e. Proof. done. Qed.
Lemma answer_of_res {A} (r : res A) s : answer (of_res r) s = r. Proof. done. Qed.

Lemma steady_run {A} (m : dbm S A) fs s r s' : steady m -> run m fs s = (r, s') ->
  s' = s /\ forall a, r = Ok a -> answer m s = Ok a.
Proof.
  intros Hm. destruct (Hm s) as [_ Ha]. destruct (Ha fs) as (r0 & fs' & Hr & Hans). unfold run. rewrite Hr.
  by intros [= <- <-].
Qed.

Lemma run_answer {A} (m : dbm S A) s : fst (run m [] s) = answer m s.
Proof. unfold run, answer. by destruct (m (Db s s [])). Qed.
End reads.

#[export] Hint Resolve steady_ret steady_throw steady_of_res steady_pool_query : go.

Ltac steady_step :=
  match goal with
  | |- forall _, _ => intro
  | |- steady (match ?x with _ => _ end) => destruct x eqn:?
  | |- steady (let _ := _ in _) => cbv zeta
  | |- steady (bind _ _) => apply steady_bind
  | |- steady (wrap _ _) => apply steady_wrap
  | |- steady (map_err _ _) => apply steady_map_err
  | |- steady _ => solve [eauto with go]
  end.

(** The answer of a sequence of reads, step by step. *)
Ltac answers :=
  repeat match goal with
  | |- context [answer (bind _ _) _] => rewrite answer_bind by repeat steady_step
  | |- context [answer (wrap _ _) _] => rewrite answer_wrap
  | |- context [answer (pool_query _) _] => rewrite answer_pool_query
  | |- context [answer (of_res _) _] => rewrite answer_of_res
  | |- context [answer (ret _) _] => rewrite answer_ret
  | |- context [answer (throw _) _] => rewrite answer_throw
  end; cbn beta.

(** A run that answers. *)
Lemma ran {A S} (x : res A * S) s : is_ok (fst x) = true -> snd x = s -> exists a, x = (Ok a, s).
Proof. destruct x as [[a|e] s']; [|done]. intros _ <-. by exists a. Qed.

Ltac run_vm s := apply ran; [vm_compute; reflexivity|vm_cast_no_check (eq_refl s)].
