(* ===== verification/World.v ===== *)
(** A store of tables together with a world outside the database, the archive:
    calls on both, and a logic for the bodies of transactions over them. *)

From S2P Require Import Prelude Db.

(** A store of tables together with a world outside the database.  A statement
    touches the tables only; a call on the world acts at once and for good, no
    rollback undoes it. *)
Section world.
Context {T W : Type}.

Definition on_tables {A} (f : T -> res A * T) (s : T * W) : res A * (T * W) :=
  let '(r, t) := f (fst s) in (r, (t, snd s)).
Definition reads {A} (f : T -> res A) : T * W -> res A * (T * W) := on_tables (fun t => (f t, t)).

Definition on_archive {A} (f : W -> res A * W) : dbm (T * W) A :=
  fun d => let '(r, w) := f (snd (working d)) in
           (r, Db (fst (committed d), w) (fst (working d), w) (faults d)).
End world.

(** ** A logic for the body of the transaction

    [triple c t w m P]: from committed tables [c], tables [t] in the transaction
    and world [w], [m] commits nothing, the archive keeps what it holds, and a
    result satisfies [P] of the tables and world reached. *)
Section triple.
Context {T W : Type} (holds : W -> string -> string -> Prop).

(** The archive only grows. *)
Definition keeps (w w' : W) : Prop := forall key body, holds w key body -> holds w' key body.

#[export] Instance keeps_preorder : PreOrder keeps.
Proof. split; [by intros w key body|]. intros w1 w2 w3 H1 H2 key body H. auto. Qed.

Abbreviation store := (T * W)%type.

Definition triple {A} (c t : T) (w : W) (m : dbm store A)
    (P : A -> T -> W -> Prop) : Prop :=
  forall fs, wp m (fun r d' => exists t' w' fs', d' = Db (c, w') (t', w') fs' /\ keeps w w' /\
    match r with Ok a => P a t' w' | Err _ => True end) (Db (c, w) (t, w) fs).

Lemma triple_mono {A} c t w (m : dbm store A) P Q :
  triple c t w m P -> (forall a t' w', P a t' w' -> Q a t' w') -> triple c t w m Q.
Proof.
  intros H HPQ fs. specialize (H fs). unfold wp in *. destruct (m _) as [r d']. cbn in *.
  destruct H as (t' & w' & fs' & -> & Hw & Hr). exists t', w', fs'. destruct r; auto.
Qed.

Lemma triple_ret {A} c t w (a : A) (P : A -> T -> W -> Prop) :
  P a t w -> triple c t w (ret a) P.
Proof. intros HP fs. apply wp_ret. by exists t, w, fs. Qed.

Lemma triple_of_res {A} c t w (r : res A) (P : A -> T -> W -> Prop) :
  (forall a, r = Ok a -> P a t w) -> triple c t w (of_res r) P.
Proof. intros HP fs. apply wp_of_res. exists t, w, fs. split; [done|]. split; [done|]. destruct r; auto. Qed.

Lemma triple_throw {A} c t w e (P : A -> T -> W -> Prop) : triple c t w (throw e) P.
Proof. intros fs. apply wp_throw. by exists t, w, fs. Qed.

Lemma triple_bind {A B} c t w (m : dbm store A) (k : A -> dbm store B) P Q :
  triple c t w m P -> (forall a t' w', P a t' w' -> triple c t' w' (k a) Q) ->
  triple c t w (bind m k) Q.
Proof.
  intros Hm Hk fs. apply wp_bind. specialize (Hm fs). unfold wp at 1 in Hm. unfold wp at 1. destruct (m _) as [r d']. cbn in *.
  destruct Hm as (t' & w' & fs' & -> & Hw & Hr). destruct r as [a|e]; [|by exists t', w', fs'].
  specialize (Hk a t' w' Hr fs'). red in Hk. destruct Hk as (t2 & w2 & fs2 & Hd & Hw2 & H2).
  exists t2, w2, fs2. split; [done|]. split; [by etransitivity|done].
Qed.

Lemma triple_bind_pure {A B} c t w (r : res A) (k : A -> dbm store B) Q :
  (forall a, r = Ok a -> triple c t w (k a) Q) -> triple c t w (bind (of_res r) k) Q.
Proof.
  intros Hk. apply (triple_bind c t w (of_res r) k (fun a t' w' => r = Ok a /\ t' = t /\ w' = w)).
  - apply triple_of_res. auto.
  - intros a t' w' (Hr & -> & ->). by apply Hk.
Qed.

Lemma triple_wrap {A} c t w ctx (m : dbm store A) P : triple c t w m P -> triple c t w (wrap ctx m) P.
Proof.
  intros Hm fs. apply wp_wrap. specialize (Hm fs). unfold wp in *. destruct (m _) as [r d']. cbn in *.
  destruct Hm as (t' & w' & fs' & -> & Hw & Hr). destruct r; by exists t', w', fs'.
Qed.

(** A statement whose error the code inspects: the tables are as they were. *)
Lemma triple_attempt_stmt {A} c t w (f : T -> res A * T)
    (P : res A -> T -> W -> Prop) :
  P (Err EDb) t w ->
  (forall a t', f t = (Ok a, t') -> P (Ok a) t' w) ->
  (forall e t', f t = (Err e, t') -> P (Err e) t w) ->
  triple c t w (attempt (stmt (on_tables f))) P.
Proof.
  intros Hdb Hok Herr fs. apply wp_attempt, wp_stmt.
  - intros fs'. by exists t, w, fs'.
  - intros fs' a [t' w'] E. unfold on_tables in E. cbn in E. destruct (f t) as [r t1] eqn:Ef.
    injection E as -> -> ->. exists t', w', fs'. split; [done|]. split; [done|]. by apply Hok.
  - intros fs' e [t' w'] E. unfold on_tables in E. cbn in E. destruct (f t) as [r t1] eqn:Ef.
    injection E as -> -> ->. exists t, w', fs'. split; [done|]. split; [done|]. by eapply Herr.
Qed.

Lemma triple_stmt {A} c t w (f : T -> res A * T)
    (P : A -> T -> W -> Prop) :
  (forall a t', f t = (Ok a, t') -> P a t' w) -> triple c t w (stmt (on_tables f)) P.
Proof.
  intros Hok fs. pose proof (triple_attempt_stmt c t w f
    (fun r t' w' => match r with Ok a => P a t' w' | Err _ => True end) I Hok (fun _ _ _ => I) fs) as H.
  unfold wp, attempt in *. destruct (stmt _ _) as [r d']. cbn in *.
  destruct H as (t' & w' & fs' & -> & Hw & Hr). exists t', w', fs'. destruct r; auto.
Qed.

Lemma reads_tables {A} (f : T -> res A) :
  reads (W := W) f = on_tables (fun s => (f s, s)).
Proof. done. Qed.

Lemma triple_archive {A} c t w (f : W -> res A * W) (P : A -> T -> W -> Prop) :
  (forall r w', f w = (r, w') -> keeps w w') ->
  (forall a w', f w = (Ok a, w') -> P a t w') -> triple c t w (on_archive f) P.
Proof.
  intros Hk HP fs. unfold wp, on_archive. cbn. destruct (f w) as [r w'] eqn:E. cbn.
  exists t, w', fs. split; [done|]. split; [by eapply Hk|]. destruct r; auto.
Qed.

Lemma triple_map_err {A} c t w f (m : dbm store A) P : triple c t w m P -> triple c t w (map_err f m) P.
Proof.
  intros Hm fs. apply wp_map_err. specialize (Hm fs). unfold wp in *. destruct (m _) as [r d']. cbn in *.
  destruct Hm as (t' & w' & fs' & -> & Hw & Hr). destruct r; by exists t', w', fs'.
Qed.

Lemma triple_query {A} c t w (f : T -> res A) (P : A -> T -> W -> Prop) :
  (forall a, f t = Ok a -> P a t w) -> triple c t w (stmt (reads f)) P.
Proof. intros HP. apply triple_stmt. intros a t' [= Hf <-]. auto. Qed.

(** A read outside a transaction. *)
Lemma triple_pool_query {A} t w (f : T -> res A) (P : A -> T -> W -> Prop) :
  (forall a, f t = Ok a -> P a t w) -> triple t t w (pool_stmt (reads f)) P.
Proof.
  intros HP fs. apply wp_pool_stmt; [intros fs'|intros fs' a [t' w'] E|intros fs' e [t' w'] E].
  - by exists t, w, fs'.
  - injection E as E <- <-. exists t, w, fs'. split; [done|]. split; [done|]. by apply HP.
  - by exists t, w, fs'.
Qed.

(** A call on the archive whose error the code inspects. *)
Lemma triple_attempt_archive {A} c t w (f : W -> res A * W) (P : res A -> T -> W -> Prop) :
  (forall r w', f w = (r, w') -> keeps w w' /\ P r t w') -> triple c t w (attempt (on_archive f)) P.
Proof.
  intros HP fs. apply wp_attempt. unfold wp, on_archive. cbn. destruct (f w) as [r w'] eqn:E. cbn.
  destruct (HP _ _ eq_refl). by exists t, w', fs.
Qed.

(** A loop that leaves the tables alone: what holds of the elements treated and
    the value carried. *)
Lemma triple_fold {A B} c t (f : B -> A -> dbm store B) (I : list A -> B -> W -> Prop) l :
  (forall pre x post acc w, l = pre ++ x :: post -> I pre acc w ->
     triple c t w (f acc x) (fun acc' t' w' => t' = t /\ I (pre ++ [x]) acc' w')) ->
  forall acc w, I [] acc w -> triple c t w (fold_m f acc l) (fun acc' t' w' => t' = t /\ I l acc' w').
Proof.
  intros Hf. assert (Hgen : forall post pre acc w, l = pre ++ post -> I pre acc w ->
    triple c t w (fold_m f acc post) (fun acc' t' w' => t' = t /\ I l acc' w')).
  { induction post as [|x post IH]; intros pre acc w Hl HI; cbn [fold_m].
    - apply triple_ret. split; [done|]. by rewrite Hl, app_nil_r.
    - eapply triple_bind; [by eapply Hf|]. intros acc' t' w' [-> HI']. cbn beta in *.
      apply (IH (pre ++ [x])); [by rewrite <- app_assoc|done]. }
  intros acc w HI. by apply (Hgen l []).
Qed.

Lemma triple_wp {A} c t w (m : dbm store A) P Q fs :
  triple c t w m P ->
  (forall e t' w' fs', keeps w w' -> Q (Err e) (Db (c, w') (t', w') fs')) ->
  (forall a t' w' fs', keeps w w' -> P a t' w' -> Q (Ok a) (Db (c, w') (t', w') fs')) ->
  wp m Q (Db (c, w) (t, w) fs).
Proof.
  intros Hm He Hok. specialize (Hm fs). unfold wp in *. destruct (m _) as [r d']. cbn in *.
  destruct Hm as (t' & w' & fs' & -> & Hw & Hr). destruct r; auto.
Qed.

(** ** Whole transactions

    [tx c t w m Q]: [m], a call or what is left of it, ends with the tables it
    started from when it reports an error and otherwise with tables committed
    that satisfy [Q]. *)
Definition tx {A} (c t : T) (w : W) (m : dbm store A) (Q : A -> T -> W -> Prop) : Prop :=
  forall fs, wp m (fun r d' => exists t' w', committed d' = (t', w') /\ keeps w w' /\
    match r with Ok a => Q a t' w' | Err _ => t' = c end) (Db (c, w) (t, w) fs).

Lemma tx_mono {A} c t w (m : dbm store A) P Q :
  tx c t w m P -> (forall a t' w', P a t' w' -> Q a t' w') -> tx c t w m Q.
Proof.
  intros H HPQ fs. specialize (H fs). unfold wp in *. destruct (m _) as [r d']. cbn in *.
  destruct H as (t' & w' & Hd & Hw & Hr). exists t', w'. destruct r; auto.
Qed.

Lemma tx_bind {A B} c t w (m : dbm store A) (k : A -> dbm store B) P Q :
  triple c t w m P -> (forall a t' w', keeps w w' -> P a t' w' -> tx c t' w' (k a) Q) -> tx c t w (bind m k) Q.
Proof.
  intros Hm Hk fs. apply wp_bind. specialize (Hm fs). unfold wp at 1 in Hm. unfold wp at 1. destruct (m _) as [r d']. cbn in *.
  destruct Hm as (t' & w' & fs' & -> & Hw & Hr). destruct r as [a|e]; [|by exists c, w'].
  specialize (Hk a t' w' Hw Hr fs'). red in Hk. destruct Hk as (t2 & w2 & Hd & Hw2 & H2).
  exists t2, w2. split; [done|]. split; [by etransitivity|done].
Qed.

Lemma tx_throw {A} c t w e (Q : A -> T -> W -> Prop) : tx c t w (throw e) Q.
Proof. intros fs. apply wp_throw. by exists c, w. Qed.

Lemma tx_begin {A} c t w ctx (k : dbm store A) Q : tx c c w k Q -> tx c t w (bind (wrap ctx begin) (fun _ => k)) Q.
Proof.
  intros Hk fs. apply wp_bind, wp_wrap, wp_begin; intros fs'; [by exists c, w|]. apply Hk.
Qed.

Lemma tx_commit {A} c t w ctx (a : A) (Q : A -> T -> W -> Prop) :
  Q a t w -> tx c t w (bind (wrap ctx commit) (fun _ => ret a)) Q.
Proof.
  intros HQ fs. apply wp_bind, wp_wrap, wp_commit; intros fs'; [by exists c, w|]. apply wp_ret. by exists t, w.
Qed.

(** A call that commits nothing. *)
Lemma tx_reads {A} t w (m : dbm store A) P : triple t t w m P -> tx t t w m (fun a t' w' => t' = t /\ exists t1, P a t1 w').
Proof.
  intros Hm fs. specialize (Hm fs). unfold wp in *. destruct (m _) as [r d']. cbn in *.
  destruct Hm as (t' & w' & fs' & -> & Hw & Hr). exists t, w'. split; [done|]. split; [done|]. destruct r; [|done].
  split; [done|]. by exists t'.
Qed.

(** A statement on the pool. *)
Lemma tx_pool_stmt {A} c t w (f : T -> res A * T) (Q : A -> T -> W -> Prop) :
  (forall a t', f c = (Ok a, t') -> Q a t' w) -> tx c t w (pool_stmt (on_tables f)) Q.
Proof.
  intros HQ fs. apply wp_pool_stmt; [intros fs'|intros fs' a [t' w'] E|intros fs' e [t' w'] E].
  - by exists c, w.
  - unfold on_tables in E. cbn in E. destruct (f c) as [r t1] eqn:Ef. injection E as -> -> ->. exists t', w'.
    split; [done|]. split; [done|]. by apply HQ.
  - by exists c, w.
Qed.

Lemma tx_map_err {A} c t w f (m : dbm store A) Q : tx c t w m Q -> tx c t w (map_err f m) Q.
Proof.
  intros Hm fs. apply wp_map_err. specialize (Hm fs). unfold wp in *. destruct (m _) as [r d']. cbn in *.
  destruct Hm as (t' & w' & Hd & Hw & Hr). destruct r; by exists t', w'.
Qed.

(** What follows a commit must not fail. *)
Lemma tx_then {A B} c t w (m : dbm store A) (f : A -> B) Q :
  tx c t w m (fun a => Q (f a)) -> tx c t w (bind m (fun a => ret (f a))) Q.
Proof.
  intros Hm fs. apply wp_bind. specialize (Hm fs). unfold wp in *. destruct (m _) as [r d']. cbn in *.
  destruct Hm as (t' & w' & Hd & Hw & Hr). destruct r; by exists t', w'.
Qed.

Lemma tx_run {A} t w (m : dbm store A) Q fs r t' w' : tx t t w m Q -> run m fs (t, w) = (r, (t', w')) ->
  keeps w w' /\ match r with Ok a => Q a t' w' | Err _ => t' = t end.
Proof.
  intros Hm. unfold run. specialize (Hm fs). unfold wp in Hm. destruct (m _) as [r1 d1]. cbn in *.
  destruct Hm as (t1 & w1 & Hd & Hw & Hr). intros [= <- Hc]. rewrite Hd in Hc. by injection Hc as -> ->.
Qed.
End triple.


#[export] Hint Resolve triple_ret triple_throw triple_wrap : go.

(** ** A logic for calls that open no transaction

    [calls m Q t w]: from committed tables [t] and world [w], whatever a
    transaction given up before has left, [m] ends with tables and a world, all
    of them committed, of which [Q] holds with the result, an error included. *)
Section calls.
Context {T W : Type}.
Abbreviation store := (T * W)%type.

Definition calls {A} (m : dbm store A) (Q : res A -> T -> W -> Prop) (t : T) (w : W) : Prop :=
  forall t0 fs, wp m (fun r d => exists t' w' t1 fs', d = Db (t', w') (t1, w') fs' /\ Q r t' w') (Db (t, w) (t0, w) fs).

Lemma calls_run {A} (m : dbm store A) Q t w fs r s' : run m fs (t, w) = (r, s') -> calls m Q t w -> Q r (fst s') (snd s').
Proof.
  intros Hr Hm. specialize (Hm t fs). unfold wp in Hm. unfold run in Hr. destruct (m _) as [r' d]. cbn in *. injection Hr as -> <-.
  destruct Hm as (t' & w' & t1 & fs' & -> & HQ). exact HQ.
Qed.

Lemma calls_mono {A} (m : dbm store A) (P Q : res A -> T -> W -> Prop) t w : calls m P t w -> (forall r t' w', P r t' w' -> Q r t' w') ->
  calls m Q t w.
Proof.
  intros Hm HPQ t0 fs. specialize (Hm t0 fs). unfold wp in *. destruct (m _) as [r d]. cbn in *.
  destruct Hm as (t' & w' & t1 & fs' & -> & HP). exists t', w', t1, fs'. auto.
Qed.

Lemma calls_ret {A} (a : A) (Q : res A -> T -> W -> Prop) t w : Q (Ok a) t w -> calls (ret a) Q t w.
Proof. intros HQ t0 fs. apply wp_ret. by exists t, w, t0, fs. Qed.

Lemma calls_throw {A} e (Q : res A -> T -> W -> Prop) t w : Q (Err e) t w -> calls (throw e) Q t w.
Proof. intros HQ t0 fs. apply wp_throw. by exists t, w, t0, fs. Qed.

Lemma calls_of_res {A} (a : res A) (Q : res A -> T -> W -> Prop) t w : Q a t w -> calls (of_res a) Q t w.
Proof. intros HQ t0 fs. apply wp_of_res. by exists t, w, t0, fs. Qed.

Lemma calls_bind {A B} (m : dbm store A) (k : A -> dbm store B) Q t w :
  calls m (fun r t' w' => match r with Ok a => calls (k a) Q t' w' | Err e => Q (Err e) t' w' end) t w -> calls (bind m k) Q t w.
Proof.
  intros Hm t0 fs. apply wp_bind. specialize (Hm t0 fs). unfold wp at 1 in Hm. unfold wp at 1. destruct (m _) as [r d]. cbn in *.
  destruct Hm as (t' & w' & t1 & fs' & -> & HQ). destruct r as [a|e]; [exact (HQ t1 fs')|by exists t', w', t1, fs'].
Qed.

Lemma calls_attempt {A} (m : dbm store A) Q t w : calls m (fun r => Q (Ok r)) t w -> calls (attempt m) Q t w.
Proof.
  intros Hm t0 fs. apply wp_attempt. specialize (Hm t0 fs). unfold wp in *. destruct (m _) as [r d]. exact Hm.
Qed.

Lemma calls_wrap {A} c (m : dbm store A) Q t w :
  calls m (fun r => match r with Ok a => Q (Ok a) | Err e => Q (Err (EWrap c e)) end) t w -> calls (wrap c m) Q t w.
Proof.
  intros Hm t0 fs. apply wp_wrap. specialize (Hm t0 fs). unfold wp in *. destruct (m _) as [r d]. cbn in *.
  destruct Hm as (t' & w' & t1 & fs' & -> & HQ). destruct r; by exists t', w', t1, fs'.
Qed.

Lemma calls_pool_stmt {A} (f : T -> res A * T) (Q : res A -> T -> W -> Prop) t w :
  Q (Err EDb) t w -> (forall a t', f t = (Ok a, t') -> Q (Ok a) t' w) -> (forall e t', f t = (Err e, t') -> Q (Err e) t w) ->
  calls (pool_stmt (on_tables f)) Q t w.
Proof.
  intros Hdb Hok Herr t0 fs. apply wp_pool_stmt.
  - intros fs'. by exists t, w, t0, fs'.
  - intros fs' a [t' w'] E. unfold on_tables in E. cbn in E. destruct (f t) as [r t1] eqn:Ef. injection E as -> -> <-.
    exists t', w, t', fs'. split; [done|by apply Hok].
  - intros fs' e [t' w'] E. unfold on_tables in E. cbn in E. destruct (f t) as [r t1] eqn:Ef. injection E as -> -> <-.
    exists t, w, t0, fs'. split; [done|by eapply Herr].
Qed.

Lemma calls_read {A} (f : T -> res A) (Q : res A -> T -> W -> Prop) t w :
  Q (Err EDb) t w -> Q (f t) t w -> calls (pool_stmt (reads f)) Q t w.
Proof. intros Hdb Hf. apply calls_pool_stmt; [done| |]; intros x t' [= Hx <-]; by rewrite <- Hx. Qed.

Lemma calls_archive {A} (f : W -> res A * W) (Q : res A -> T -> W -> Prop) t w :
  (forall r w', f w = (r, w') -> Q r t w') -> calls (on_archive f) Q t w.
Proof.
  intros HQ t0 fs. unfold wp, on_archive. cbn. destruct (f w) as [r w'] eqn:E. cbn. exists t, w', t0, fs. auto.
Qed.
End calls.

(** Walk a call down to its statements. *)
Ltac calls_step :=
  match goal with
  | |- calls (ret _) _ _ _ => apply calls_ret
  | |- calls (throw _) _ _ _ => apply calls_throw
  | |- calls (bind _ _) _ _ _ => apply calls_bind
  | |- calls (attempt _) _ _ _ => apply calls_attempt
  | |- calls (wrap _ _) _ _ _ => apply calls_wrap
  | |- calls (pool_stmt (on_tables _)) _ _ _ => apply calls_pool_stmt; [|intros|intros]
  | |- calls (pool_stmt (reads _)) _ _ _ => apply calls_read
  | |- calls (on_archive _) _ _ _ => apply calls_archive; intros
  end.
