(* ===== verification/Jobs.v ===== *)
(** The PostgreSQL-backed risk job queue (internal/jobs/queue.go, tables of
    db/migrations/00008_risk_jobs.sql).

    [store] holds the rows of [risk_jobs], [risk_job_attempts] and the columns
    of [scenario_runs] the queue touches.  Each method of [Queue] is one
    definition; its SQL statement is a function on the store defined just
    before it.  [now] is [clock_timestamp()], [fresh] the identifier
    [gen_random_uuid()] draws and [locked] the rows other transactions hold. *)

From S2P Require Import Prelude GoString Digits GoTime Sha256 Json Db.
From Stdlib Require Import Ascii SpecFloat.

Module Jobs.

Inductive State : Set :=
  StateQueued | StateRunning | StateSucceeded | StateRetryableFailed | StateFailed
  | StateCancelled.

#[export] Instance State_eq_dec : EqDecision State.
Proof. solve_decision. Defined.

Definition SchemaVersion : string := "1.0".

Record Job : Type := mkJob {
  ID : string;
  Kind : string;
  JobSchemaVersion : string;
  IdempotencyKey : string;
  InputSnapshotIDs : list string;
  Payload : string;
  JobState : State;
  AttemptCount : Z;
  MaxAttempts : Z;
  AvailableAt : time;
  LeaseOwner : option string;
  LeaseExpiresAt : option time;
  Result : option string;
  ResultHash : option string;
  ErrorCode : option string;
  ErrorMessage : option string;
  ErrorDetails : option string;
  CompletedAt : option time;
  CreatedAt : time;
}.

Record EnqueueRequest : Type := mkEnqueueRequest {
  ReqKind : string;
  ReqSchemaVersion : string;
  ReqIdempotencyKey : string;
  ReqInputSnapshotIDs : list string;
  ReqPayload : goval;
  ReqMaxAttempts : Z;
  ReqAvailableAt : time;
}.

Record Claim : Type := mkClaim { ClaimJob : Job; WorkerID : string }.

Record Failure : Type := mkFailure {
  Code : string;
  Message : string;
  Details : goval;
  Retryable : bool;
  Delay : duration;
}.

(** A row of [risk_job_attempts], keyed by its unique (job, attempt) pair. *)
Record Attempt : Type := mkAttempt {
  AttWorkerID : string;
  AttLeaseExpiresAt : time;
  AttFinishedAt : option time;
  AttOutcome : option string;
  AttErrorCode : option string;
  AttErrorMessage : option string;
  AttErrorDetails : option string;
}.

Record ScenarioRun : Type := mkScenarioRun {
  RunJobID : string;
  RunState : string;
  RunCompletedAt : option time;
}.

Record store : Type := mkStore {
  jobs : gmap string Job;
  attempts : gmap (string * Z) Attempt;
  runs : gmap string ScenarioRun;
}.

Definition set_jobs (s : store) m := mkStore m (attempts s) (runs s).
Definition set_attempts (s : store) m := mkStore (jobs s) m (runs s).
Definition set_runs (s : store) m := mkStore (jobs s) (attempts s) m.

(** ** Table constraints *)

Definition blank_text (s : string) : bool := forallb (fun c => Ascii.eqb c " "%char) (chars s).

Definition terminal (st : State) : bool :=
  match st with StateSucceeded | StateFailed | StateCancelled => true | _ => false end.

(** The CHECK constraints of [risk_jobs]; counters are 4-byte integers. *)
Definition job_check (j : Job) : bool :=
  negb (blank_text (Kind j)) && negb (blank_text (JobSchemaVersion j))
  && negb (blank_text (IdempotencyKey j))
  && (0 <=? AttemptCount j) && (0 <? MaxAttempts j) && (AttemptCount j <=? MaxAttempts j)
  && (MaxAttempts j <=? 2147483647)
  && (negb (bool_decide (JobState j = StateRunning))
      || (bool_decide (is_Some (LeaseOwner j)) && bool_decide (is_Some (LeaseExpiresAt j))))
  && (negb (terminal (JobState j)) || bool_decide (is_Some (CompletedAt j)))
  && match ResultHash j with
     | Some h => (slen h =? 64) && forallb is_lower_hex (chars h)
     | None => true
     end.

(** Write a row back, unless a constraint refuses it. *)
Definition put_job (j : Job) (s : store) : res Job * store :=
  if job_check j then (Ok j, set_jobs s (<[ID j := j]> (jobs s))) else (Err EDb, s).

(** [UPDATE risk_jobs SET f WHERE id=$id AND p]; the number of rows affected. *)
Definition update_job (id : string) (p : Job -> bool) (f : Job -> Job) (s : store)
    : res Z * store :=
  match jobs s !! id with
  | Some j =>
      if p j then
        match put_job (f j) s with
        | (Ok _, s') => (Ok 1, s')
        | (Err e, s') => (Err e, s')
        end
      else (Ok 0, s)
  | None => (Ok 0, s)
  end.

(** [UPDATE risk_job_attempts SET f WHERE job_id AND attempt AND finished_at IS NULL]. *)
Definition update_attempt (id : string) (n : Z) (f : Attempt -> Attempt) (s : store) : store :=
  match attempts s !! (id, n) with
  | Some a =>
      if bool_decide (AttFinishedAt a = None)
      then set_attempts s (<[(id, n) := f a]> (attempts s)) else s
  | None => s
  end.

Definition finish_attempt (now : time) (outcome : string) (code msg details : option string)
    (a : Attempt) : Attempt :=
  mkAttempt (AttWorkerID a) (AttLeaseExpiresAt a) (Some now) (Some outcome) code msg details.

(** The tests every lease-guarded UPDATE makes on the row. *)
Definition holds_lease (c : Claim) (now : time) (j : Job) : bool :=
  bool_decide (JobState j = StateRunning)
  && bool_decide (LeaseOwner j = Some (WorkerID c))
  && (AttemptCount j =? AttemptCount (ClaimJob c))
  && match LeaseExpiresAt j with Some t => now <? t | None => false end.

(** ** Enqueue *)

Definition validateEnvelope (request : EnqueueRequest) : option goerr :=
  match chars (ReqKind request) with
  | [] => Some (ENew "job kind must be a lowercase dotted name")
  | c :: _ =>
      if (code c <? 97) || (122 <? code c) || negb (contains (ReqKind request) ".")
      then Some (ENew "job kind must be a lowercase dotted name")
      else if bool_decide (ReqSchemaVersion request = "")
      then Some (ENew "job schema version is required")
      else if bool_decide (ReqIdempotencyKey request = "")
              || (255 <? slen (ReqIdempotencyKey request))
      then Some (ENew "job idempotency key must be 1..255 characters")
      else
        match
          (fix check (seen : gset string) (ids : list string) : option goerr :=
             match ids with
             | [] => None
             | id :: ids' =>
                 if bool_decide (id = "")
                 then Some (ENew "job snapshot IDs must not be empty")
                 else if bool_decide (id ∈ seen)
                 then Some (ENew "job snapshot IDs must be unique")
                 else check ({[id]} ∪ seen) ids'
             end) ∅ (ReqInputSnapshotIDs request)
        with
        | Some e => Some e
        | None =>
            match ReqPayload request with
            | VNil => Some (ENew "job payload is required")
            | _ => None
            end
        end
  end.

Definition same_key (kind key : string) (j : Job) : bool :=
  bool_decide (Kind j = kind) && bool_decide (IdempotencyKey j = key).

Definition find_job (p : Job -> bool) (s : store) : option Job :=
  snd <$> List.find (fun kv => p (snd kv)) (map_to_list (jobs s)).

(** INSERT ... ON CONFLICT (kind,idempotency_key) DO UPDATE SET id=risk_jobs.id
    RETURNING: the constraints are checked on the proposed row first. *)
Definition enqueue_statement (j : Job) (s : store) : res Job * store :=
  if job_check j then
    match find_job (same_key (Kind j) (IdempotencyKey j)) s with
    | Some old => (Ok old, s)
    | None =>
        match jobs s !! ID j with
        | Some _ => (Err EDb, s)
        | None => put_job j s
        end
    end
  else (Err EDb, s).

(** The row a validated request asks for: defaults for the version, the retry
    bound and the availability time. *)
Definition enqueue_row (fresh : string) (now : time) (request : EnqueueRequest)
    (payload : string) : Job :=
  let version := if bool_decide (ReqSchemaVersion request = "")
                 then SchemaVersion else ReqSchemaVersion request in
  let maxAttempts := if ReqMaxAttempts request <=? 0 then 3 else ReqMaxAttempts request in
  let availableAt := if IsZero (ReqAvailableAt request)
                     then now else ReqAvailableAt request in
  mkJob fresh (ReqKind request) version (ReqIdempotencyKey request)
    (ReqInputSnapshotIDs request) payload StateQueued 0 maxAttempts availableAt
    None None None None None None None None now.

Section queue.
(** [Pool] tells whether [Queue.Pool] is non-nil; [format_float] is the
    encoder's rendering of non-integral floats. *)
Context (Pool : bool) (format_float : spec_float -> string).

(** [q.Pool.Begin]: a nil pool panics. *)
Definition pool_begin : dbm store unit :=
  if Pool then begin else throw (EPanic "nil pool").

Definition Enqueue (fresh : string) (now : time) (request : EnqueueRequest) : dbm store Job :=
  if negb Pool then throw (ENew "jobs queue requires a database pool")
  else match validateEnvelope request with
  | Some e => throw e
  | None =>
      match CanonicalJSON format_float (ReqPayload request) with
      | Err e => throw (EWrap "serialize job payload" e)
      | Ok payload =>
          pool_stmt (enqueue_statement (enqueue_row fresh now request payload))
      end
  end.

(** ** Claim *)

Definition claimable (now : time) (locked : gset string) (j : Job) : bool :=
  (bool_decide (JobState j = StateQueued) || bool_decide (JobState j = StateRetryableFailed))
  && (AvailableAt j <=? now) && bool_decide (ID j ∉ locked).

(** ORDER BY available_at, created_at, id. *)
Definition job_before (a b : Job) : bool :=
  if AvailableAt a <? AvailableAt b then true
  else if AvailableAt b <? AvailableAt a then false
  else if CreatedAt a <? CreatedAt b then true
  else if CreatedAt b <? CreatedAt a then false
  else string_ltb (ID a) (ID b).

Definition candidates (now : time) (locked : gset string) (s : store) : list Job :=
  List.filter (claimable now locked) (snd <$> map_to_list (jobs s)).

Definition lease_job (workerID : string) (lease : duration) (now : time) (j : Job) : Job :=
  mkJob (ID j) (Kind j) (JobSchemaVersion j) (IdempotencyKey j) (InputSnapshotIDs j)
    (Payload j) StateRunning (AttemptCount j + 1) (MaxAttempts j) (AvailableAt j)
    (Some workerID) (Some (now + lease)) (Result j) (ResultHash j) (ErrorCode j)
    (ErrorMessage j) (ErrorDetails j) (CompletedAt j) (CreatedAt j).

Definition claim_statement (workerID : string) (lease : duration) (now : time)
    (locked : gset string) (s : store) : res Job * store :=
  match min_of job_before (candidates now locked s) with
  | None => (Err ENoRows, s)
  | Some j => put_job (lease_job workerID lease now j) s
  end.

Definition insert_attempt (j : Job) (workerID : string) (s : store) : res unit * store :=
  match LeaseExpiresAt j, attempts s !! (ID j, AttemptCount j) with
  | Some expires, None =>
      if 0 <? AttemptCount j then
        (Ok tt, set_attempts s (<[(ID j, AttemptCount j) :=
           mkAttempt workerID expires None None None None None]> (attempts s)))
      else (Err EDb, s)
  | _, _ => (Err EDb, s)
  end.

Definition ClaimOp (workerID : string) (lease : duration) (now : time) (locked : gset string)
    : dbm store (option Claim) :=
  if negb Pool || bool_decide (workerID = "")
  then throw (ENew "worker ID and database pool are required")
  else if lease <=? 0 then throw (ENew "lease must be positive")
  else
    wrap "begin claim transaction" pool_begin ;;;
    let* r := attempt (stmt (claim_statement workerID lease now locked)) in
    match r with
    | Err e => if errors_is e ENoRows then ret None else throw (EWrap "claim job" e)
    | Ok job =>
        wrap "record job attempt" (stmt (insert_attempt job workerID)) ;;;
        wrap "commit claim transaction" commit ;;;
        ret (Some (mkClaim job workerID))
    end.

(** ** Complete, Renew, Fail *)

Definition complete_job (data hash : string) (now : time) (j : Job) : Job :=
  mkJob (ID j) (Kind j) (JobSchemaVersion j) (IdempotencyKey j) (InputSnapshotIDs j)
    (Payload j) StateSucceeded (AttemptCount j) (MaxAttempts j) (AvailableAt j)
    None None (Some data) (Some hash) (ErrorCode j)
    (ErrorMessage j) (ErrorDetails j) (Some now) (CreatedAt j).

Definition Complete (claim : Claim) (result : goval) (now : time) : dbm store bool :=
  match CanonicalJSON format_float result with
  | Err e => throw (EWrap "serialize result" e)
  | Ok data =>
      let hash := sha256_hex data in
      pool_begin ;;;
      let* n := wrap "complete job" (stmt (update_job (ID (ClaimJob claim))
                  (holds_lease claim now) (complete_job data hash now))) in
      if n =? 0 then ret false
      else
        exec (update_attempt (ID (ClaimJob claim)) (AttemptCount (ClaimJob claim))
                (fun a => finish_attempt now "succeeded" (AttErrorCode a) (AttErrorMessage a)
                            (AttErrorDetails a) a)) ;;;
        commit ;;;
        ret true
  end.

Definition renew_job (lease : duration) (now : time) (j : Job) : Job :=
  mkJob (ID j) (Kind j) (JobSchemaVersion j) (IdempotencyKey j) (InputSnapshotIDs j)
    (Payload j) (JobState j) (AttemptCount j) (MaxAttempts j) (AvailableAt j)
    (LeaseOwner j) (Some (now + lease)) (Result j) (ResultHash j) (ErrorCode j)
    (ErrorMessage j) (ErrorDetails j) (CompletedAt j) (CreatedAt j).

Definition Renew (claim : Claim) (lease : duration) (now : time) : dbm store bool :=
  if negb Pool || bool_decide (WorkerID claim = "") || bool_decide (ID (ClaimJob claim) = "")
  then throw (ENew "worker ID, job ID, and database pool are required")
  else if lease <=? 0 then throw (ENew "lease must be positive")
  else
    wrap "begin lease renewal transaction" pool_begin ;;;
    let* n := wrap "renew job lease" (stmt (update_job (ID (ClaimJob claim))
                (holds_lease claim now) (renew_job lease now))) in
    if n =? 0 then (let* r := attempt commit in ret false)
    else
      wrap "commit lease renewal" commit ;;;
      ret true.

Definition DetailsOrEmpty (f : Failure) : goval :=
  match Details f with VNil => VMap [] | d => d end.

Definition fail_state (claim : Claim) (failure : Failure) : State :=
  if Retryable failure && (AttemptCount (ClaimJob claim) <? MaxAttempts (ClaimJob claim))
  then StateRetryableFailed else StateFailed.

Definition state_name (st : State) : string :=
  match st with
  | StateQueued => "queued" | StateRunning => "running" | StateSucceeded => "succeeded"
  | StateRetryableFailed => "retryable_failed" | StateFailed => "failed"
  | StateCancelled => "cancelled"
  end.

Definition fail_job (st : State) (failure : Failure) (details : string) (now : time) (j : Job)
    : Job :=
  mkJob (ID j) (Kind j) (JobSchemaVersion j) (IdempotencyKey j) (InputSnapshotIDs j)
    (Payload j) st (AttemptCount j) (MaxAttempts j) (now + Delay failure)
    None None (Result j) (ResultHash j) (Some (Code failure))
    (Some (Message failure)) (Some details)
    (match st with StateFailed | StateCancelled => Some now | _ => None end) (CreatedAt j).

Definition Fail (claim : Claim) (failure : Failure) (now : time) : dbm store bool :=
  let st := fail_state claim failure in
  match CanonicalJSON format_float (DetailsOrEmpty failure) with
  | Err e => throw e
  | Ok details =>
      pool_begin ;;;
      let* n := stmt (update_job (ID (ClaimJob claim)) (holds_lease claim now)
                  (fail_job st failure details now)) in
      if n =? 0 then ret false
      else
        exec (update_attempt (ID (ClaimJob claim)) (AttemptCount (ClaimJob claim))
                (finish_attempt now (state_name st) (Some (Code failure))
                   (Some (Message failure)) (Some details))) ;;;
        commit ;;;
        ret true
  end.

(** ** Cancel *)

Definition active_state (st : State) : bool :=
  match st with StateQueued | StateRetryableFailed | StateRunning => true | _ => false end.

Definition cancel_job (reason : string) (now : time) (j : Job) : Job :=
  mkJob (ID j) (Kind j) (JobSchemaVersion j) (IdempotencyKey j) (InputSnapshotIDs j)
    (Payload j) StateCancelled (AttemptCount j) (MaxAttempts j) (AvailableAt j)
    None None (Result j) (ResultHash j) (Some "JOB_CANCELLED")
    (Some reason) (ErrorDetails j) (Some now) (CreatedAt j).

(** Every unfinished attempt of the job is closed. *)
Definition close_attempts (id reason : string) (now : time) (s : store) : store :=
  set_attempts s (map_imap (fun k a =>
    Some (if bool_decide (k.1 = id) && bool_decide (AttFinishedAt a = None)
          then finish_attempt now "cancelled" (Some "JOB_CANCELLED") (Some reason)
                 (AttErrorDetails a) a
          else a)) (attempts s)).

Definition Cancel (id reason : string) (now : time) : dbm store bool :=
  pool_begin ;;;
  let* n := stmt (update_job id (fun j => active_state (JobState j)) (cancel_job reason now)) in
  if negb (n =? 1) then ret false
  else
    exec (close_attempts id reason now) ;;;
    commit ;;;
    ret true.

(** ** RecoverExpired *)

Definition expired (now : time) (j : Job) : bool :=
  bool_decide (JobState j = StateRunning)
  && match LeaseExpiresAt j with Some t => t <=? now | None => false end.

Definition expire_job (now : time) (j : Job) : Job :=
  let exhausted := MaxAttempts j <=? AttemptCount j in
  mkJob (ID j) (Kind j) (JobSchemaVersion j) (IdempotencyKey j) (InputSnapshotIDs j)
    (Payload j) (if exhausted then StateFailed else StateRetryableFailed)
    (AttemptCount j) (MaxAttempts j) now None None (Result j) (ResultHash j)
    (Some "LEASE_EXPIRED") (Some "worker lease expired") (ErrorDetails j)
    (if exhausted then Some now else None) (CreatedAt j).

(** The UPDATE ... RETURNING of the expired rows; one row refused by a
    constraint fails the whole statement. *)
Definition recover_statement (now : time) (s : store) : res (list Job) * store :=
  let m := (fun j => if expired now j then expire_job now j else j) <$> jobs s in
  let returned := expire_job now <$>
                  List.filter (expired now) (snd <$> map_to_list (jobs s)) in
  if forallb job_check returned then (Ok returned, set_jobs s m) else (Err EDb, s).

Definition update_runs (p : ScenarioRun -> bool) (f : ScenarioRun -> ScenarioRun) (s : store)
    : store :=
  set_runs s ((fun r => if p r then f r else r) <$> runs s).

Definition recover_one (now : time) (job : Job) : dbm store unit :=
  wrap "finish expired job attempt"
    (exec (update_attempt (ID job) (AttemptCount job)
       (fun a => finish_attempt now "expired" (Some "LEASE_EXPIRED")
                   (Some "worker lease expired") (AttErrorDetails a) a))) ;;;
  if negb (bool_decide (Kind job = "scenario.revalue")) then ret tt
  else if bool_decide (JobState job = StateFailed) then
    wrap "close failed scenario run after lease expiry"
      (exec (update_runs
         (fun r => bool_decide (RunJobID r = ID job)
                   && (bool_decide (RunState r = "queued") || bool_decide (RunState r = "running")))
         (fun r => mkScenarioRun (RunJobID r) "failed" (Some now))))
  else if bool_decide (JobState job = StateRetryableFailed) then
    wrap "requeue scenario run after lease expiry"
      (exec (update_runs
         (fun r => bool_decide (RunJobID r = ID job) && bool_decide (RunState r = "running"))
         (fun r => mkScenarioRun (RunJobID r) "queued" None)))
  else ret tt.

Definition RecoverExpired (now : time) : dbm store Z :=
  if negb Pool then throw (ENew "jobs queue requires a database pool")
  else
    wrap "begin expired-job recovery transaction" pool_begin ;;;
    let* expired_jobs := wrap "recover expired jobs" (stmt (recover_statement now)) in
    iter (recover_one now) expired_jobs ;;;
    wrap "commit expired-job recovery" commit ;;;
    ret (Z.of_nat (length expired_jobs)).
End queue.
End Jobs.
