(* ===== verification/JobsSafety.v ===== *)
(** Safety and functional correctness of the risk job queue: the invariant of
    the job and attempt tables over every interleaving of calls and
    environment failures, fencing of stale leases, finality of terminal states,
    claim order, idempotent enqueue, recovery, and atomicity. *)

From S2P Require Import Prelude GoString Digits GoTime Sha256 Json Db Jobs.
From Stdlib Require Import SpecFloat.
Import Jobs.

(** ** The table invariant *)

Definition unfinished (a : Attempt) : Prop := AttFinishedAt a = None.

(** What the columns of a row must satisfy in each state. *)
Definition job_shape (j : Job) : Prop :=
  match JobState j with
  | StateQueued | StateRetryableFailed =>
      AttemptCount j < MaxAttempts j /\ LeaseOwner j = None /\ LeaseExpiresAt j = None /\
      CompletedAt j = None
  | StateRunning =>
      1 <= AttemptCount j /\ is_Some (LeaseExpiresAt j) /\ CompletedAt j = None
  | _ => LeaseOwner j = None /\ LeaseExpiresAt j = None
  end.

(** A row and its attempts: attempts are numbered up to the counter, and the
    only unfinished one is the current attempt of a running job, held by the
    worker that owns the lease. *)
Record job_inv (id : string) (j : Job) (atts : gmap (string * Z) Attempt) : Prop := {
  ji_id : ID j = id;
  ji_check : job_check j = true;
  ji_shape : job_shape j;
  ji_range : forall n a, atts !! (id, n) = Some a -> 1 <= n <= AttemptCount j;
  ji_open : forall n a, atts !! (id, n) = Some a -> unfinished a ->
    JobState j = StateRunning /\ n = AttemptCount j;
  ji_running : JobState j = StateRunning ->
    exists a, atts !! (id, AttemptCount j) = Some a /\ unfinished a /\
              LeaseOwner j = Some (AttWorkerID a);
}.

Record Inv (s : store) : Prop := {
  inv_job : forall id j, jobs s !! id = Some j -> job_inv id j (attempts s);
  inv_att : forall id n a, attempts s !! (id, n) = Some a -> is_Some (jobs s !! id);
  inv_key : forall id1 id2 j1 j2, jobs s !! id1 = Some j1 -> jobs s !! id2 = Some j2 ->
    Kind j1 = Kind j2 -> IdempotencyKey j1 = IdempotencyKey j2 -> id1 = id2;
}.

(** Replacing one row, and the attempts of that row only. *)
Lemma Inv_replace s id j j' atts' runs' :
  Inv s -> jobs s !! id = Some j ->
  Kind j' = Kind j -> IdempotencyKey j' = IdempotencyKey j ->
  job_inv id j' atts' ->
  (forall id' n, id' <> id -> atts' !! (id', n) = attempts s !! (id', n)) ->
  Inv (mkStore (<[id := j']> (jobs s)) atts' runs').
Proof.
  intros HI Hj Hk Hkey Hji Hother. split; cbn [jobs attempts].
  - intros id1 j1 H1. destruct (decide (id1 = id)) as [->|Hne].
    + rewrite lookup_insert_eq in H1. by injection H1 as <-.
    + rewrite lookup_insert_ne in H1 by done. pose proof (inv_job _ HI _ _ H1) as [].
      split; try done; intros *; rewrite ?Hother by done; eauto.
  - intros id1 n a H1. destruct (decide (id1 = id)) as [->|Hne].
    + rewrite lookup_insert_eq. eauto.
    + rewrite lookup_insert_ne by done. rewrite Hother in H1 by done. by eapply inv_att.
  - assert (Hback : forall i k, <[id := j']> (jobs s) !! i = Some k ->
      exists k0, jobs s !! i = Some k0 /\ Kind k0 = Kind k /\ IdempotencyKey k0 = IdempotencyKey k).
    { intros i k Hk'. destruct (decide (i = id)) as [->|Hne].
      - rewrite lookup_insert_eq in Hk'. injection Hk' as <-. eauto.
      - rewrite lookup_insert_ne in Hk' by done. eauto. }
    intros id1 id2 j1 j2 H1 H2 HK HKey.
    destruct (Hback _ _ H1) as (k1 & ? & ? & ?), (Hback _ _ H2) as (k2 & ? & ? & ?).
    eapply (inv_key _ HI); eauto; congruence.
Qed.

(** ** Statements *)

Lemma update_job_cases id p f s r s' :
  update_job id p f s = (r, s') ->
  (s' = s /\ (r = Err EDb \/ r = Ok 0)) \/
  exists j, jobs s !! id = Some j /\ p j = true /\ job_check (f j) = true /\ r = Ok 1 /\
            s' = set_jobs s (<[ID (f j) := f j]> (jobs s)).
Proof.
  unfold update_job, put_job. destruct (jobs s !! id) as [j|] eqn:Hj.
  - destruct (p j) eqn:Hp; [destruct (job_check (f j)) eqn:Hc|]; intros [= <- <-];
      [right; exists j; auto | left; auto | left; auto].
  - intros [= <- <-]. left; auto.
Qed.

Lemma put_job_cases j s r s' :
  put_job j s = (r, s') ->
  (r = Err EDb /\ s' = s) \/
  (r = Ok j /\ job_check j = true /\ s' = set_jobs s (<[ID j := j]> (jobs s))).
Proof. unfold put_job. destruct (job_check j); intros [= <- <-]; eauto. Qed.

Lemma insert_attempt_cases w lease now j s u s' :
  let j' := lease_job w lease now j in
  insert_attempt j' w s = (Ok u, s') ->
  attempts s !! (ID j, AttemptCount j + 1) = None /\
  s' = set_attempts s (<[(ID j, AttemptCount j + 1) :=
         mkAttempt w (now + lease) None None None None None]> (attempts s)).
Proof.
  unfold insert_attempt. cbn. destruct (attempts s !! _); [done|].
  case_match; [|done]. by intros [= <- <-].
Qed.

Lemma holds_lease_running c now j :
  holds_lease c now j = true ->
  JobState j = StateRunning /\ LeaseOwner j = Some (WorkerID c) /\
  AttemptCount j = AttemptCount (ClaimJob c) /\
  exists t, LeaseExpiresAt j = Some t /\ now < t.
Proof.
  unfold holds_lease. intros H. bool_simp.
  destruct (LeaseExpiresAt j) as [t|]; [|done]. bool_simp. eauto 10.
Qed.

(** Closing the current attempt of a job. *)
Definition close_current (id : string) (n : Z) (f : Attempt -> Attempt)
    (atts : gmap (string * Z) Attempt) : gmap (string * Z) Attempt :=
  match atts !! (id, n) with
  | Some a => if bool_decide (AttFinishedAt a = None) then <[(id, n) := f a]> atts else atts
  | None => atts
  end.

Lemma update_attempt_close id n f s :
  update_attempt id n f s = set_attempts s (close_current id n f (attempts s)).
Proof.
  unfold update_attempt, close_current. destruct s as [j a r]. cbn.
  destruct (a !! (id, n)) as [x|]; [destruct (bool_decide _)|]; done.
Qed.

Lemma close_current_other id n f atts id' m :
  id' <> id -> close_current id n f atts !! (id', m) = atts !! (id', m).
Proof.
  intros Hne. unfold close_current. repeat case_match; try done.
  rewrite lookup_insert_ne; [done|]. congruence.
Qed.

(** A running job leaves the running state: its attempt must be closed. *)
Lemma job_inv_close id j j' atts f :
  job_inv id j atts -> JobState j = StateRunning ->
  ID j' = ID j -> AttemptCount j' = AttemptCount j -> job_check j' = true ->
  job_shape j' -> JobState j' <> StateRunning ->
  (forall a, ~ unfinished (f a)) ->
  job_inv id j' (close_current id (AttemptCount j) f atts).
Proof.
  intros [] Hrun Hid Hn Hc Hs Hnr Hf.
  destruct (ji_running0 Hrun) as (a & Ha & Hu & Ho).
  assert (Hcl : close_current id (AttemptCount j) f atts = <[(id, AttemptCount j) := f a]> atts).
  { unfold close_current. rewrite Ha. rewrite bool_decide_eq_true_2 by done. done. }
  rewrite Hcl.
  split; try done; try congruence.
  - intros n b. rewrite Hn. destruct (decide (n = AttemptCount j)) as [->|Hne].
    + intros _. eauto.
    + rewrite lookup_insert_ne by congruence. eauto.
  - intros n b. destruct (decide (n = AttemptCount j)) as [->|Hne].
    + rewrite lookup_insert_eq. intros [= <-] Hb. by apply Hf in Hb.
    + rewrite lookup_insert_ne by congruence. intros Hb Hu'.
      destruct (ji_open0 _ _ Hb Hu') as [_ ->]. done.
Qed.

(** ** What each call may do to the store *)

Section effects.
Context (Pool : bool) (ff : spec_float -> string).

(** The outcome of a lease-guarded call on the job of claim [c]. *)
Definition lease_effect (c : Claim) (now : time) (f : Job -> Job) (g : Attempt -> Attempt)
    (close : bool) (s s' : store) : Prop :=
  exists j, jobs s !! ID (ClaimJob c) = Some j /\ holds_lease c now j = true /\
    job_check (f j) = true /\
    s' = mkStore (<[ID (f j) := f j]> (jobs s))
           (if close then close_current (ID (ClaimJob c)) (AttemptCount (ClaimJob c)) g (attempts s)
            else attempts s) (runs s).

Lemma Complete_effect c result now fs s r s' :
  run (Complete Pool ff c result now) fs s = (r, s') ->
  (s' = s /\ r <> Ok true) \/
  (r = Ok true /\ exists data, CanonicalJSON ff result = Ok data /\
     lease_effect c now (complete_job data (sha256_hex data) now)
       (fun a => finish_attempt now "succeeded" (AttErrorCode a) (AttErrorMessage a)
                   (AttErrorDetails a) a) true s s').
Proof.
  intros Hrun.
  run_wp Hrun.
  unfold Complete. destruct (CanonicalJSON ff result) as [data|e] eqn:Hd;
    [|apply wp_throw; by left].
  unfold pool_begin. destruct Pool; repeat wp_step; cbn; try by left.
  apply update_job_cases in E as [[-> Hr]|(j & Hj & Hp & Hc & [= ->] & ->)].
  - destruct Hr as [[=]|[= ->]]. cbn. apply wp_ret. by left.
  - cbn. repeat wp_step; cbn; try by left. right. split; [done|].
    exists data. split; [done|]. exists j. rewrite update_attempt_close. eauto 10.
Qed.

Lemma Fail_effect c failure now fs s r s' :
  run (Fail Pool ff c failure now) fs s = (r, s') ->
  (s' = s /\ r <> Ok true) \/
  (r = Ok true /\ exists details,
     lease_effect c now (fail_job (fail_state c failure) failure details now)
       (finish_attempt now (state_name (fail_state c failure)) (Some (Code failure))
          (Some (Message failure)) (Some details)) true s s').
Proof.
  intros Hrun.
  run_wp Hrun.
  unfold Fail. destruct (CanonicalJSON ff _) as [details|e]; [|apply wp_throw; by left].
  unfold pool_begin. destruct Pool; repeat wp_step; cbn; try by left.
  apply update_job_cases in E as [[-> Hr]|(j & Hj & Hp & Hc & [= ->] & ->)].
  - destruct Hr as [[=]|[= ->]]. cbn. apply wp_ret. by left.
  - cbn. repeat wp_step; cbn; try by left. right. split; [done|].
    exists details, j. rewrite update_attempt_close. eauto 10.
Qed.

Lemma Renew_effect c lease now fs s r s' :
  run (Renew Pool c lease now) fs s = (r, s') ->
  (s' = s /\ r <> Ok true) \/
  (r = Ok true /\ 0 < lease /\ lease_effect c now (renew_job lease now) id false s s').
Proof.
  intros Hrun.
  run_wp Hrun. unfold Renew. case_match; [apply wp_throw; by left|].
  destruct (Z.leb_spec lease 0); [apply wp_throw; by left|].
  unfold pool_begin. destruct Pool; repeat wp_step; cbn; try by left.
  apply update_job_cases in E as [[-> Hr]|(j & Hj & Hp & Hc & [= ->] & ->)].
  - destruct Hr as [[=]|[= ->]]. cbn. repeat wp_step; cbn; by left.
  - cbn. repeat wp_step; cbn; try by left. right. split; [done|]. split; [done|].
    exists j. eauto 10.
Qed.

Lemma Cancel_effect jid reason now fs s r s' :
  run (Cancel Pool jid reason now) fs s = (r, s') ->
  (s' = s /\ r <> Ok true) \/
  (r = Ok true /\ exists j, jobs s !! jid = Some j /\ active_state (JobState j) = true /\
     job_check (cancel_job reason now j) = true /\
     s' = close_attempts jid reason now
            (set_jobs s (<[ID j := cancel_job reason now j]> (jobs s)))).
Proof.
  intros Hrun.
  run_wp Hrun. unfold Cancel, pool_begin. destruct Pool; repeat wp_step; cbn; try by left.
  apply update_job_cases in E as [[-> Hr]|(j & Hj & Hp & Hc & [= ->] & ->)].
  - destruct Hr as [[=]|[= ->]]. cbn. apply wp_ret. by left.
  - cbn. repeat wp_step; cbn; try by left. right. eauto 10.
Qed.

Lemma Claim_effect w lease now locked fs s r s' :
  run (ClaimOp Pool w lease now locked) fs s = (r, s') ->
  (s' = s /\ forall c, r <> Ok (Some c)) \/
  exists j, min_of job_before (candidates now locked s) = Some j /\
    let j' := lease_job w lease now j in
    r = Ok (Some (mkClaim j' w)) /\ 0 < lease /\ job_check j' = true /\
    attempts s !! (ID j, AttemptCount j + 1) = None /\
    s' = mkStore (<[ID j := j']> (jobs s))
           (<[(ID j, AttemptCount j + 1) :=
              mkAttempt w (now + lease) None None None None None]> (attempts s)) (runs s).
Proof.
  intros Hrun.
  run_wp Hrun. unfold ClaimOp. case_match; [apply wp_throw; by left|].
  destruct (Z.leb_spec lease 0); [apply wp_throw; by left|].
  unfold pool_begin. destruct Pool; repeat wp_step; cbn; try by left.
  2:{ unfold claim_statement in E. case_match; [|injection E as <- <-; rewrite errors_is_self; wp_step; by left].
      apply put_job_cases in E as [[[= ->] _]|[[=] _]].
      change (errors_is EDb ENoRows) with false. cbn iota. wp_step. by left. }
  unfold claim_statement in E. case_match eqn:Hm; [|done].
  apply put_job_cases in E as [[[=] _]|([= ->] & Hc & ->)].
  repeat wp_step; cbn; try by left.
  apply insert_attempt_cases in E0 as (Ha & ->). right. exists j. cbn. eauto 10.
Qed.

Lemma Enqueue_effect fresh now req fs s r s' :
  run (Enqueue Pool ff fresh now req) fs s = (r, s') ->
  s' = s \/
  exists j, r = Ok j /\ ID j = fresh /\ job_check j = true /\ JobState j = StateQueued /\
    AttemptCount j = 0 /\ LeaseOwner j = None /\ LeaseExpiresAt j = None /\
    CompletedAt j = None /\ jobs s !! fresh = None /\
    find_job (same_key (Kind j) (IdempotencyKey j)) s = None /\
    s' = set_jobs s (<[fresh := j]> (jobs s)).
Proof.
  intros Hrun.
  run_wp Hrun. unfold Enqueue. case_match; [apply wp_throw; by left|].
  case_match; [apply wp_throw; by left|]. case_match; [|apply wp_throw; by left].
  cbv zeta. wp_step; cbn; [by left| |by left].
  unfold enqueue_statement in E. case_match eqn:Hc; [|done].
  case_match eqn:Hfind; [injection E as <- <-; by left|].
  case_match eqn:Hid; [done|].
  apply put_job_cases in E as [[[=] _]|([= ->] & _ & ->)].
  right. eexists. by repeat split.
Qed.

(** What recovery does to an attempt row and to the scenario runs. *)
Definition expire_attempt (now : time) (a : Attempt) : Attempt :=
  finish_attempt now "expired" (Some "LEASE_EXPIRED") (Some "worker lease expired")
    (AttErrorDetails a) a.

Definition closed_by (now : time) (l : list Job) (k : string * Z) (a : Attempt) : Attempt :=
  if existsb (fun j => bool_decide (ID j = k.1) && (AttemptCount j =? k.2)) l
     && bool_decide (AttFinishedAt a = None)
  then expire_attempt now a else a.

Definition expire_run (now : time) (rs : gmap string ScenarioRun) (job : Job)
    : gmap string ScenarioRun :=
  if negb (bool_decide (Kind job = "scenario.revalue")) then rs
  else (fun r =>
    if bool_decide (RunJobID r = ID job) then
      if bool_decide (JobState job = StateFailed)
         && (bool_decide (RunState r = "queued") || bool_decide (RunState r = "running"))
      then mkScenarioRun (RunJobID r) "failed" (Some now)
      else if bool_decide (JobState job = StateRetryableFailed)
              && bool_decide (RunState r = "running")
      then mkScenarioRun (RunJobID r) "queued" None
      else r
    else r) <$> rs.

Definition expired_jobs (now : time) (s : store) : list Job :=
  expire_job now <$> List.filter (expired now) (snd <$> map_to_list (jobs s)).

Definition recovered (now : time) (l : list Job) (s0 s' : store) : Prop :=
  jobs s' = (fun j => if expired now j then expire_job now j else j) <$> jobs s0 /\
  (forall k, attempts s' !! k = closed_by now l k <$> attempts s0 !! k) /\
  runs s' = fold_left (expire_run now) l (runs s0).


Lemma closed_by_app now l x k a :
  closed_by now (l ++ [x]) k a =
    if bool_decide (ID x = k.1) && (AttemptCount x =? k.2)
       && bool_decide (AttFinishedAt (closed_by now l k a) = None)
    then expire_attempt now (closed_by now l k a) else closed_by now l k a.
Proof.
  unfold closed_by. rewrite existsb_app. cbn [existsb]. rewrite orb_false_r.
  destruct (existsb _ l), (bool_decide (ID x = k.1) && (AttemptCount x =? k.2)),
    (bool_decide (AttFinishedAt a = None)) eqn:E; cbn; rewrite ?E;
    rewrite ?(bool_decide_eq_false_2 (Some now = None)) by done; done.
Qed.

Lemma recovered_attempts now l x s0 w k :
  (forall k, attempts w !! k = closed_by now l k <$> attempts s0 !! k) ->
  attempts (update_attempt (ID x) (AttemptCount x) (expire_attempt now) w) !! k =
    closed_by now (l ++ [x]) k <$> attempts s0 !! k.
Proof.
  intros H. rewrite update_attempt_close. cbn. unfold close_current.
  rewrite (H (ID x, AttemptCount x)).
  destruct (decide (k = (ID x, AttemptCount x))) as [->|Hne].
  - destruct (attempts s0 !! (ID x, AttemptCount x)) as [a|] eqn:Ha; cbn.
    + rewrite closed_by_app. cbn. rewrite (bool_decide_eq_true_2 (ID x = ID x)), Z.eqb_refl by done. cbn.
      destruct (bool_decide _) eqn:E; [by rewrite lookup_insert_eq|]. by rewrite H, Ha.
    + by rewrite H, Ha.
  - transitivity (attempts w !! k).
    { repeat case_match; try done. by rewrite lookup_insert_ne. }
    rewrite H. destruct (attempts s0 !! k) as [a|]; cbn; [|done]. rewrite closed_by_app.
    replace (bool_decide (ID x = k.1) && (AttemptCount x =? k.2)) with false; [done|].
    symmetry. apply andb_false_iff. destruct k as [i n]. cbn.
    destruct (decide (ID x = i)) as [<-|]; [|left; by apply bool_decide_eq_false_2].
    right. apply Z.eqb_neq. congruence.
Qed.

Lemma recover_one_wp now l x s0 c w fs :
  recovered now l s0 w ->
  wp (recover_one now x) (fun r d' => match r with
    | Ok _ => exists w' fs', d' = Db c w' fs' /\ recovered now (l ++ [x]) s0 w'
    | Err _ => exists w' fs', d' = Db c w' fs'
    end) (Db c w fs).
Proof.
  intros (HJ & HA & HR). unfold recover_one.
  pose proof (recovered_attempts now l x s0 w) as HA'.
  assert (Hst : forall rs, rs = fold_left (expire_run now) (l ++ [x]) (runs s0) ->
    recovered now (l ++ [x]) s0
      (set_runs (update_attempt (ID x) (AttemptCount x) (expire_attempt now) w) rs)).
  { intros rs ->. split; [|split; [|done]].
    - rewrite update_attempt_close. cbn. done.
    - intros k. cbn. by apply HA'. }
  assert (Hruns : forall rs, expire_run now (runs w) x = rs ->
    rs = fold_left (expire_run now) (l ++ [x]) (runs s0)).
  { intros rs <-. rewrite fold_left_app, HR. done. }
  assert (Hw : runs (update_attempt (ID x) (AttemptCount x) (expire_attempt now) w) = runs w).
  { by rewrite update_attempt_close. }
  assert (Heta : forall s, set_runs s (runs s) = s) by by intros [].
  fold (expire_attempt now).
  repeat wp_step; [by eauto|].
  destruct (negb (bool_decide (Kind x = "scenario.revalue"))) eqn:Hk; cbn.
  { wp_step. eexists _, _. split; [done|]. rewrite <- Heta, Hw. apply Hst, Hruns.
    unfold expire_run. by rewrite Hk. }
  destruct (bool_decide (JobState x = StateFailed)) eqn:Hf; cbn.
  { repeat wp_step; cbn; [by eauto|]. eexists _, _. split; [done|].
    unfold update_runs. rewrite Hw. apply Hst, Hruns.
    unfold expire_run. rewrite Hk, Hf. apply map_fmap_ext. intros i r Hr.
    destruct (bool_decide (RunJobID r = ID x)); cbn; [|done].
    apply bool_decide_eq_true in Hf. rewrite Hf.
    by destruct (bool_decide (RunState r = "queued") || bool_decide (RunState r = "running")). }
  destruct (bool_decide (JobState x = StateRetryableFailed)) eqn:Hr; cbn.
  { repeat wp_step; cbn; [by eauto|]. eexists _, _. split; [done|].
    unfold update_runs. rewrite Hw. apply Hst, Hruns.
    unfold expire_run. rewrite Hk, Hf, Hr. cbn. apply map_fmap_ext. intros i r Hr'.
    by destruct (bool_decide (RunJobID r = ID x)). }
  wp_step. eexists _, _. split; [done|]. rewrite <- Heta, Hw. apply Hst, Hruns.
  unfold expire_run. rewrite Hk, Hf, Hr. cbn. rewrite <- (map_fmap_id (runs w)) at 2.
  apply map_fmap_ext. intros i r Hr'. by destruct (bool_decide (RunJobID r = ID x)).
Qed.

Lemma Recover_effect now fs s r s' :
  run (RecoverExpired Pool now) fs s = (r, s') ->
  (s' = s /\ forall n, r <> Ok n) \/
  (r = Ok (Z.of_nat (length (expired_jobs now s))) /\
   forallb job_check (expired_jobs now s) = true /\
   recovered now (expired_jobs now s) s s').
Proof.
  intros Hrun. run_wp Hrun. unfold RecoverExpired. case_match; [apply wp_throw; by left|].
  unfold pool_begin. destruct Pool; repeat wp_step; cbn; try by left.
  unfold recover_statement in E. fold (expired_jobs now s) in E.
  destruct (forallb job_check (expired_jobs now s)) eqn:Hc; [|done]. injection E as <- <-.
  apply (wp_iter _ (fun l => recovered now l s) _ _ _ []).
  all: cbn beta iota.
  - split; [done|]. split; [|done]. intros k. cbn.
    by destruct (attempts s !! k).
  - intros; cbn. by left.
  - intros. by apply recover_one_wp.
  - intros w' fs' HR. cbn in HR |- *. repeat wp_step; cbn; [by left|]. by right.
Qed.
End effects.

(** ** The system: any interleaving of calls and failures *)

Inductive op : Type :=
  | OpEnqueue (fresh : string) (now : time) (req : EnqueueRequest)
  | OpClaim (w : string) (lease : duration) (now : time) (locked : gset string)
  | OpComplete (c : Claim) (result : goval) (now : time)
  | OpRenew (c : Claim) (lease : duration) (now : time)
  | OpFail (c : Claim) (failure : Failure) (now : time)
  | OpCancel (id reason : string) (now : time)
  | OpRecover (now : time).

(** The database together with the claims handed out so far. *)
Record sys : Type := mkSys { st : store; issued : list Claim }.

Inductive sys_step (ff : spec_float -> string) : sys -> op -> sys -> Prop :=
  | step_enqueue fs fresh now req s iss r s' :
      run (Enqueue true ff fresh now req) fs s = (r, s') ->
      sys_step ff (mkSys s iss) (OpEnqueue fresh now req) (mkSys s' iss)
  | step_claim fs w lease now locked s iss r s' :
      run (ClaimOp true w lease now locked) fs s = (r, s') ->
      sys_step ff (mkSys s iss) (OpClaim w lease now locked)
        (mkSys s' (match r with Ok (Some c) => c :: iss | _ => iss end))
  | step_complete fs c result now s iss r s' :
      c ∈ iss -> run (Complete true ff c result now) fs s = (r, s') ->
      sys_step ff (mkSys s iss) (OpComplete c result now) (mkSys s' iss)
  | step_renew fs c lease now s iss r s' :
      c ∈ iss -> run (Renew true c lease now) fs s = (r, s') ->
      sys_step ff (mkSys s iss) (OpRenew c lease now) (mkSys s' iss)
  | step_fail fs c failure now s iss r s' :
      c ∈ iss -> run (Fail true ff c failure now) fs s = (r, s') ->
      sys_step ff (mkSys s iss) (OpFail c failure now) (mkSys s' iss)
  | step_cancel fs id reason now s iss r s' :
      run (Cancel true id reason now) fs s = (r, s') ->
      sys_step ff (mkSys s iss) (OpCancel id reason now) (mkSys s' iss)
  | step_recover fs now s iss r s' :
      run (RecoverExpired true now) fs s = (r, s') ->
      sys_step ff (mkSys s iss) (OpRecover now) (mkSys s' iss).

Definition empty_store : store := mkStore ∅ ∅ ∅.

Inductive reachable (ff : spec_float -> string) : sys -> Prop :=
  | reach_init : reachable ff (mkSys empty_store [])
  | reach_step s o s' : reachable ff s -> sys_step ff s o s' -> reachable ff s'.

(** A claim handed out describes a row that still exists, with the immutable
    retry bound and an attempt number the row has reached. *)
Definition claim_ok (s : store) (c : Claim) : Prop :=
  exists j, jobs s !! ID (ClaimJob c) = Some j /\
    MaxAttempts (ClaimJob c) = MaxAttempts j /\
    1 <= AttemptCount (ClaimJob c) <= AttemptCount j.

Definition SysInv (y : sys) : Prop := Inv (st y) /\ Forall (claim_ok (st y)) (issued y).

(** ** Rows evolve: inputs are immutable, attempts only grow, the end is final *)

Record evolves (j j' : Job) : Prop := {
  ev_id : ID j' = ID j;
  ev_kind : Kind j' = Kind j;
  ev_schema : JobSchemaVersion j' = JobSchemaVersion j;
  ev_key : IdempotencyKey j' = IdempotencyKey j;
  ev_inputs : InputSnapshotIDs j' = InputSnapshotIDs j;
  ev_payload : Payload j' = Payload j;
  ev_created : CreatedAt j' = CreatedAt j;
  ev_max : MaxAttempts j' = MaxAttempts j;
  ev_attempts : AttemptCount j <= AttemptCount j';
  ev_final : terminal (JobState j) = true -> j' = j;
}.

Definition evolve (s s' : store) : Prop :=
  forall id j, jobs s !! id = Some j -> exists j', jobs s' !! id = Some j' /\ evolves j j'.

Lemma evolves_refl j : evolves j j.
Proof. by split. Qed.

Lemma evolve_refl s : evolve s s.
Proof. intros id j Hj. exists j. split; [done|apply evolves_refl]. Qed.

Lemma evolve_insert s id j j' atts' runs' :
  jobs s !! id = Some j -> evolves j j' ->
  evolve s (mkStore (<[id := j']> (jobs s)) atts' runs').
Proof.
  intros Hj He i k Hk. cbn. destruct (decide (i = id)) as [->|Hne].
  - rewrite lookup_insert_eq. exists j'. split; [done|]. congruence.
  - rewrite lookup_insert_ne by done. exists k. split; [done|apply evolves_refl].
Qed.

Lemma claim_ok_evolve s s' c : evolve s s' -> claim_ok s c -> claim_ok s' c.
Proof.
  intros He (j & Hj & Hm & Hn). destruct (He _ _ Hj) as (j' & Hj' & Hev).
  exists j'. destruct Hev. split; [done|]. split; [congruence|lia].
Qed.

Lemma job_check_counts j :
  job_check j = true -> 0 <= AttemptCount j <= MaxAttempts j /\ 0 < MaxAttempts j.
Proof. unfold job_check. intros H. bool_simp. lia. Qed.

(** Each effect keeps the invariant and lets rows evolve. *)
Lemma lease_effect_keeps c now f g (close : bool) s s' :
  Inv s -> lease_effect c now f g close s s' ->
  (forall j, JobState j = StateRunning -> evolves j (f j)) ->
  (forall j, AttemptCount (f j) = AttemptCount j) ->
  (if close then
     (forall j, JobState (f j) <> StateRunning) /\ (forall a, ~ unfinished (g a)) /\
     (forall j, jobs s !! ID (ClaimJob c) = Some j -> holds_lease c now j = true -> job_shape (f j))
   else forall j, JobState (f j) = JobState j /\ LeaseOwner (f j) = LeaseOwner j /\
                  CompletedAt (f j) = CompletedAt j /\ is_Some (LeaseExpiresAt (f j))) ->
  Inv s' /\ evolve s s'.
Proof.
  intros HI (j & Hj & Hl & Hc & ->) Hev Hn Hcl.
  pose proof (inv_job _ HI _ _ Hj) as Hji.
  destruct (holds_lease_running _ _ _ Hl) as (Hrun & _ & Hnc & _).
  pose proof (Hev j Hrun) as He. pose proof (ev_id _ _ He) as Hid.
  rewrite Hid, (ji_id _ _ _ Hji). split; [|by apply evolve_insert with j].
  destruct close.
  - destruct Hcl as (Hnr & Hg & Hsh). eapply Inv_replace; [done..|apply He|apply He| |].
    + rewrite <- Hnc. eapply job_inv_close; eauto.
    + intros id' n Hne. by apply close_current_other.
  - destruct (Hcl j) as (Hs & Ho & Hct & Hle). eapply Inv_replace; [done..|apply He|apply He| |done].
    destruct Hji. split; [by rewrite Hid|done| |by rewrite Hn|by rewrite Hs, Hn|].
    + unfold job_shape in *. rewrite Hrun in ji_shape0. rewrite Hs, Hrun, Hn, Hct.
      destruct ji_shape0 as (? & _ & ?). auto.
    + intros _. rewrite Hn, Ho. auto.
Qed.

Lemma evolves_running j j' :
  JobState j = StateRunning -> ID j' = ID j -> Kind j' = Kind j ->
  JobSchemaVersion j' = JobSchemaVersion j -> IdempotencyKey j' = IdempotencyKey j ->
  InputSnapshotIDs j' = InputSnapshotIDs j -> Payload j' = Payload j ->
  CreatedAt j' = CreatedAt j -> MaxAttempts j' = MaxAttempts j ->
  AttemptCount j' = AttemptCount j -> evolves j j'.
Proof. intros Hr **. split; try done; [lia|]. by rewrite Hr. Qed.

Lemma Complete_keeps c data hash now g s s' :
  Inv s -> (forall a, ~ unfinished (g a)) ->
  lease_effect c now (complete_job data hash now) g true s s' ->
  Inv s' /\ evolve s s'.
Proof.
  intros HI Hg Hl. eapply lease_effect_keeps; [done..| | |]; cbn.
  - intros j Hr. by apply evolves_running.
  - done.
  - split; [done|]. split; [done|]. by intros.
Qed.

Lemma Renew_keeps c lease now s s' :
  Inv s -> lease_effect c now (renew_job lease now) id false s s' -> Inv s' /\ evolve s s'.
Proof.
  intros HI Hl. eapply lease_effect_keeps; [done..| | |]; cbn.
  - intros j Hr. by apply evolves_running.
  - done.
  - intros j. repeat split; by eauto.
Qed.

(** A worker that was handed the claim reports the true retry bound, so a job
    put back in the queue still has an attempt left. *)
Lemma Fail_keeps c failure details now g s s' :
  Inv s -> claim_ok s c -> (forall a, ~ unfinished (g a)) ->
  lease_effect c now (fail_job (fail_state c failure) failure details now) g true s s' ->
  Inv s' /\ evolve s s'.
Proof.
  intros HI (j0 & Hj0 & Hmax & _) Hg Hl. eapply lease_effect_keeps; [done..| | |]; cbn.
  - intros j Hr. by apply evolves_running.
  - done.
  - split; [|split; [done|]].
    + intros _. unfold fail_state. by case_match.
    + intros j Hj Hh. apply holds_lease_running in Hh as (_ & _ & Hn & _).
      rewrite Hj0 in Hj. injection Hj as <-. unfold job_shape, fail_state. cbn.
      destruct (Retryable failure && _) eqn:E; cbn; [|done]. bool_simp. repeat split; lia.
Qed.

Lemma close_attempts_lookup id reason now s k :
  attempts (close_attempts id reason now s) !! k =
    (fun a => if bool_decide (k.1 = id) && bool_decide (AttFinishedAt a = None)
              then finish_attempt now "cancelled" (Some "JOB_CANCELLED") (Some reason)
                     (AttErrorDetails a) a else a) <$> attempts s !! k.
Proof. unfold close_attempts. cbn. rewrite map_lookup_imap. by destruct (attempts s !! k). Qed.

Lemma Cancel_keeps id j reason now s :
  Inv s -> jobs s !! id = Some j -> active_state (JobState j) = true ->
  job_check (cancel_job reason now j) = true ->
  let s' := close_attempts id reason now
              (set_jobs s (<[ID j := cancel_job reason now j]> (jobs s))) in
  Inv s' /\ evolve s s'.
Proof.
  intros HI Hj Ha Hc s'. pose proof (inv_job _ HI _ _ Hj) as Hji. destruct Hji.
  assert (Hs' : s' = mkStore (<[id := cancel_job reason now j]> (jobs s)) (attempts s') (runs s)).
  { subst s'. unfold close_attempts. cbn. by rewrite ji_id0. }
  assert (Hlk : forall k, attempts s' !! k = _) by apply close_attempts_lookup.
  cbn in Hlk. rewrite Hs'. split.
  - eapply Inv_replace; [done..| |].
    + split; cbn; try done.
      * intros n a. rewrite Hlk. destruct (attempts s !! (id, n)) eqn:E; [|done]. eauto.
      * intros n a. rewrite Hlk. destruct (attempts s !! (id, n)) as [b|] eqn:E; [|done].
        cbn. intros [= <-] Hu. exfalso. unfold unfinished in Hu.
        rewrite (bool_decide_eq_true_2 (id = id)) in Hu by done.
        by destruct (bool_decide (AttFinishedAt b = None)) eqn:Eb; cbn in Hu; bool_simp.
    + intros id' n Hne. rewrite Hlk. destruct (attempts s !! (id', n)); cbn; [|done].
      by rewrite bool_decide_eq_false_2.
  - eapply evolve_insert; [done|]. split; cbn; try done; try lia.
    intros Ht. exfalso. by destruct (JobState j).
Qed.

Lemma claimable_cases now locked j :
  claimable now locked j = true ->
  (JobState j = StateQueued \/ JobState j = StateRetryableFailed) /\
  AvailableAt j <= now /\ ID j ∉ locked.
Proof.
  unfold claimable. intros H. bool_simp. apply orb_prop in H as [H|H]; bool_simp; auto.
Qed.

Lemma candidates_elem now locked s j :
  j ∈ candidates now locked s <->
  claimable now locked j = true /\ exists id, jobs s !! id = Some j.
Proof.
  unfold candidates. rewrite list_elem_of_In, filter_In, <- list_elem_of_In, list_elem_of_fmap.
  split.
  - intros [([id k] & -> & Hk) Hc]. split; [done|]. exists id. by apply elem_of_map_to_list in Hk.
  - intros [Hc [id Hj]]. split; [|done]. exists (id, j). split; [done|].
    by apply elem_of_map_to_list.
Qed.

Lemma min_candidate now locked s j :
  Inv s -> min_of job_before (candidates now locked s) = Some j ->
  jobs s !! ID j = Some j /\ claimable now locked j = true.
Proof.
  intros HI Hm. apply min_of_elem, candidates_elem in Hm as (Hc & id & Hj).
  by rewrite (ji_id _ _ _ (inv_job _ HI _ _ Hj)).
Qed.

Lemma waiting_shape j :
  job_shape j -> JobState j = StateQueued \/ JobState j = StateRetryableFailed ->
  AttemptCount j < MaxAttempts j /\ CompletedAt j = None.
Proof. unfold job_shape. intros H [E|E]; rewrite E in H; destruct H as (? & _ & _ & ?); auto. Qed.

Lemma Claim_keeps w lease now locked j s :
  Inv s -> min_of job_before (candidates now locked s) = Some j ->
  let j' := lease_job w lease now j in
  job_check j' = true ->
  let s' := mkStore (<[ID j := j']> (jobs s))
              (<[(ID j, AttemptCount j + 1) :=
                 mkAttempt w (now + lease) None None None None None]> (attempts s)) (runs s) in
  Inv s' /\ evolve s s' /\ claim_ok s' (mkClaim j' w).
Proof.
  intros HI Hm j' Hc s'. destruct (min_candidate _ _ _ _ HI Hm) as (Hj & Hcl).
  apply claimable_cases in Hcl as (Hst & _ & _).
  pose proof (inv_job _ HI _ _ Hj) as []. destruct (waiting_shape _ ji_shape0 Hst) as (Hlt & Hct).
  pose proof (job_check_counts _ ji_check0) as [Hcnt _].
  assert (Hnr : JobState j <> StateRunning) by (destruct Hst; congruence).
  split; [|split].
  - eapply Inv_replace; [done..| |].
    + split; cbn; try done.
      * split; [lia|]. eauto.
      * intros n a. destruct (decide (n = AttemptCount j + 1)) as [->|Hne]; [intros; lia|].
        rewrite lookup_insert_ne by congruence. intros Ha. specialize (ji_range0 _ _ Ha). lia.
      * intros n a. destruct (decide (n = AttemptCount j + 1)) as [->|Hne]; [done|].
        rewrite lookup_insert_ne by congruence. intros Ha Hu.
        by destruct (ji_open0 _ _ Ha Hu).
      * intros _. eexists. rewrite lookup_insert_eq. by repeat split.
    + intros id' n Hne. rewrite lookup_insert_ne; [done|congruence].
  - eapply evolve_insert; [done|]. split; cbn; try done; try lia.
    intros Ht. exfalso. by destruct Hst as [E|E]; rewrite E in Ht.
  - exists j'. cbn. rewrite lookup_insert_eq. repeat split; lia.
Qed.

Lemma find_job_None p s :
  find_job p s = None -> forall id j, jobs s !! id = Some j -> p j = false.
Proof.
  unfold find_job. intros Hf id j Hj.
  destruct (List.find _ _) as [kv|] eqn:E; [done|].
  eapply (find_none _ _ E (id, j)). apply list_elem_of_In. by apply elem_of_map_to_list.
Qed.

Lemma find_job_Some p s j :
  find_job p s = Some j -> p j = true /\ exists id, jobs s !! id = Some j.
Proof.
  unfold find_job. destruct (List.find _ _) as [[id k]|] eqn:E; [|done]. intros [= <-].
  apply find_some in E as [Hin Hp]. split; [done|]. exists id.
  by apply elem_of_map_to_list, list_elem_of_In.
Qed.

Lemma Enqueue_keeps fresh j s :
  Inv s -> ID j = fresh -> job_check j = true -> JobState j = StateQueued ->
  AttemptCount j = 0 -> LeaseOwner j = None -> LeaseExpiresAt j = None ->
  CompletedAt j = None -> jobs s !! fresh = None ->
  find_job (same_key (Kind j) (IdempotencyKey j)) s = None ->
  let s' := set_jobs s (<[fresh := j]> (jobs s)) in
  Inv s' /\ evolve s s'.
Proof.
  intros HI Hid Hc Hst Hn Ho Hl Hct Hf Hk s'.
  assert (Hnoatt : forall n, attempts s !! (fresh, n) = None).
  { intros n. destruct (attempts s !! (fresh, n)) eqn:E; [|done].
    destruct (inv_att _ HI _ _ _ E) as [? E']. congruence. }
  pose proof (find_job_None _ _ Hk) as Hkey.
  split; [split|]; cbn.
  - intros id k Hk'. destruct (decide (id = fresh)) as [->|Hne].
    + rewrite lookup_insert_eq in Hk'. injection Hk' as <-. pose proof (job_check_counts _ Hc).
      split; try done; try congruence; try (intros n a; by rewrite Hnoatt).
      unfold job_shape. rewrite Hst. repeat split; try done. lia.
    + rewrite lookup_insert_ne in Hk' by done. by apply inv_job.
  - intros id n a Ha. destruct (decide (id = fresh)) as [->|Hne]; [by rewrite Hnoatt in Ha|].
    rewrite lookup_insert_ne by done. by eapply inv_att.
  - assert (Hd : forall id k, jobs s !! id = Some k ->
      Kind k = Kind j -> IdempotencyKey k = IdempotencyKey j -> False).
    { intros id k Hk' HK HKey. specialize (Hkey _ _ Hk'). unfold same_key in Hkey.
      by rewrite !bool_decide_eq_true_2 in Hkey. }
    intros id1 id2 j1 j2. destruct (decide (id1 = fresh)) as [->|H1], (decide (id2 = fresh)) as [->|H2];
      rewrite ?lookup_insert_eq, ?lookup_insert_ne by done; try done.
    + intros [= <-] Hj2 HK HKey. exfalso. eauto.
    + intros Hj1 [= <-] HK HKey. exfalso. eauto.
    + by apply inv_key.
  - intros id k Hk'. exists k. split; [|apply evolves_refl]. cbn.
    rewrite lookup_insert_ne; [done|]. congruence.
Qed.

Lemma expired_cases now j :
  expired now j = true ->
  JobState j = StateRunning /\ exists t, LeaseExpiresAt j = Some t /\ t <= now.
Proof.
  unfold expired. intros H. bool_simp. destruct (LeaseExpiresAt j); [|done]. bool_simp. eauto.
Qed.

Lemma expired_jobs_elem now s k :
  k ∈ expired_jobs now s <->
  exists id j, jobs s !! id = Some j /\ expired now j = true /\ k = expire_job now j.
Proof.
  unfold expired_jobs. rewrite list_elem_of_fmap. split.
  - intros (j & -> & Hj). apply list_elem_of_In, filter_In in Hj as [Hj He].
    apply list_elem_of_In, list_elem_of_fmap in Hj as ([id j'] & -> & Hj).
    apply elem_of_map_to_list in Hj. eauto.
  - intros (id & j & Hj & He & ->). exists j. split; [done|].
    apply list_elem_of_In, filter_In. split; [|done]. apply list_elem_of_In, list_elem_of_fmap.
    exists (id, j). split; [done|]. by apply elem_of_map_to_list.
Qed.

(** Recovery closes exactly the current attempt of each expired row. *)
Lemma closed_by_expired now s id n a j :
  Inv s -> jobs s !! id = Some j ->
  closed_by now (expired_jobs now s) (id, n) a =
    if expired now j && (AttemptCount j =? n) && bool_decide (AttFinishedAt a = None)
    then expire_attempt now a else a.
Proof.
  intros HI Hj. unfold closed_by. cbn.
  destruct (existsb _ _) eqn:Ex.
  - apply existsb_exists in Ex as (k & Hk & Hm). bool_simp.
    apply list_elem_of_In, expired_jobs_elem in Hk as (id' & j' & Hj' & He & ->).
    cbn in *. pose proof (ji_id _ _ _ (inv_job _ HI _ _ Hj')). assert (id' = id) as -> by congruence.
    rewrite Hj in Hj'. injection Hj' as <-. rewrite He. cbn.
    by rewrite (proj2 (Z.eqb_eq _ _)) by done.
  - destruct (expired now j) eqn:He; [|done]. cbn.
    destruct (Z.eqb_spec (AttemptCount j) n) as [Hn|]; [|done]. exfalso.
    apply not_true_iff_false in Ex. apply Ex, existsb_exists. exists (expire_job now j). split.
    + apply list_elem_of_In, expired_jobs_elem. eauto.
    + cbn. rewrite (ji_id _ _ _ (inv_job _ HI _ _ Hj)), bool_decide_eq_true_2, Hn, Z.eqb_refl; done.
Qed.

Lemma expire_evolves now j : JobState j = StateRunning -> evolves j (expire_job now j).
Proof. intros Hr. by apply evolves_running. Qed.

Lemma expire_shape now j :
  job_check j = true -> job_shape (expire_job now j) /\ JobState (expire_job now j) <> StateRunning.
Proof.
  intros Hc. apply job_check_counts in Hc as [? ?]. unfold job_shape. cbn.
  destruct (Z.leb_spec (MaxAttempts j) (AttemptCount j)); split; try done; repeat split; lia.
Qed.

Lemma Recover_job_inv now s s' id j :
  Inv s -> recovered now (expired_jobs now s) s s' ->
  forallb job_check (expired_jobs now s) = true -> jobs s !! id = Some j ->
  job_inv id (if expired now j then expire_job now j else j) (attempts s').
Proof.
  intros HI (HJ & HA & _) Hc Hj. pose proof (inv_job _ HI _ _ Hj) as Hji. destruct Hji.
  assert (Hlk : forall n b, attempts s' !! (id, n) = Some b ->
    exists a, attempts s !! (id, n) = Some a /\
      b = if expired now j && (AttemptCount j =? n) && bool_decide (AttFinishedAt a = None)
          then expire_attempt now a else a).
  { intros n b. rewrite HA. destruct (attempts s !! (id, n)) as [a|]; [|done]. cbn.
    intros [= <-]. exists a. split; [done|]. by apply closed_by_expired. }
  assert (Hlk' : forall n a, attempts s !! (id, n) = Some a -> expired now j = false ->
    attempts s' !! (id, n) = Some a).
  { intros n a Ha He. rewrite HA, Ha. cbn. rewrite (closed_by_expired _ _ _ _ _ _ HI Hj). by rewrite He. }
  destruct (expired now j) eqn:He.
  - pose proof He as (Hrun & _)%expired_cases.
    destruct (expire_shape now j ji_check0) as [Hs Hnr].
    split; try done.
    + rewrite forallb_forall in Hc. apply Hc, list_elem_of_In, expired_jobs_elem.
      by exists id, j.
    + intros n b Hb. apply Hlk in Hb as (a & Ha & _). cbn. eauto.
    + intros n b Hb Hu. apply Hlk in Hb as (a & Ha & ->). exfalso.
      destruct (bool_decide (AttFinishedAt a = None)) eqn:Hd.
      * bool_simp. destruct (ji_open0 _ _ Ha Hd) as [_ ->]. rewrite Z.eqb_refl in Hu. done.
      * rewrite andb_false_r in Hu. bool_simp. done.
  - split; try done.
    + intros n b Hb. apply Hlk in Hb as (a & Ha & _). eauto.
    + intros n b Hb Hu. apply Hlk in Hb as (a & Ha & ->). eauto.
    + intros Hr. destruct (ji_running0 Hr) as (a & Ha & ? & ?). exists a. auto.
Qed.

Lemma Recover_keeps now s s' :
  Inv s -> recovered now (expired_jobs now s) s s' ->
  forallb job_check (expired_jobs now s) = true -> Inv s' /\ evolve s s'.
Proof.
  intros HI HR Hc. pose proof HR as (HJ & HA & _).
  assert (Hback : forall id k, jobs s' !! id = Some k ->
    exists j, jobs s !! id = Some j /\ k = if expired now j then expire_job now j else j).
  { intros id k. rewrite HJ, lookup_fmap. destruct (jobs s !! id); [|done]. intros [= <-]. eauto. }
  split; [split|].
  - intros id k Hk. destruct (Hback _ _ Hk) as (j & Hj & ->). by apply Recover_job_inv with s.
  - intros id n a. rewrite HA. destruct (attempts s !! (id, n)) as [b|] eqn:E; [|done]. intros _.
    rewrite HJ, lookup_fmap. destruct (inv_att _ HI _ _ _ E) as [j ->]. by eexists.
  - intros id1 id2 k1 k2 H1 H2. destruct (Hback _ _ H1) as (j1 & Hj1 & ->),
      (Hback _ _ H2) as (j2 & Hj2 & ->).
    destruct (expired now j1), (expired now j2); cbn; by apply (inv_key _ HI).
  - intros id j Hj. exists (if expired now j then expire_job now j else j).
    rewrite HJ, lookup_fmap, Hj. split; [done|].
    destruct (expired now j) eqn:He; [|apply evolves_refl].
    apply expired_cases in He as [Hr _]. by apply expire_evolves.
Qed.

(** ** The invariant holds in every reachable state *)

Lemma store_keeps ff y o y' :
  SysInv y -> sys_step ff y o y' ->
  Inv (st y') /\ evolve (st y) (st y').
Proof.
  intros [HI HF] Hstep. rewrite Forall_forall in HF.
  destruct Hstep as [fs fresh now req s iss r s' Hr|fs w lease now locked s iss r s' Hr
    |fs c result now s iss r s' Hc Hr|fs c lease now s iss r s' Hc Hr
    |fs c failure now s iss r s' Hc Hr|fs id reason now s iss r s' Hr|fs now s iss r s' Hr];
    cbn [st issued] in *.
  - apply Enqueue_effect in Hr as [->|(j & ? & ? & ? & ? & ? & ? & ? & ? & ? & ? & ->)].
    + split; [done|apply evolve_refl].
    + by apply Enqueue_keeps.
  - apply Claim_effect in Hr as [[-> _]|(j & Hm & ? & _ & Hchk & _ & ->)].
    + split; [done|apply evolve_refl].
    + destruct (Claim_keeps w lease now locked j s HI Hm Hchk) as (? & ? & _). auto.
  - apply Complete_effect in Hr as [[-> _]|(_ & data & _ & Hl)].
    + split; [done|apply evolve_refl].
    + eapply Complete_keeps; [done| |done]. done.
  - apply Renew_effect in Hr as [[-> _]|(_ & _ & Hl)].
    + split; [done|apply evolve_refl].
    + by eapply Renew_keeps.
  - apply Fail_effect in Hr as [[-> _]|(_ & details & Hl)].
    + split; [done|apply evolve_refl].
    + eapply Fail_keeps; [done|by apply HF| |done]. done.
  - apply Cancel_effect in Hr as [[-> _]|(_ & j & Hj & Ha & Hchk & ->)].
    + split; [done|apply evolve_refl].
    + by apply Cancel_keeps.
  - apply Recover_effect in Hr as [[-> _]|(_ & Hchk & HR)].
    + split; [done|apply evolve_refl].
    + by apply Recover_keeps with now.
Qed.

Lemma step_keeps ff y o y' : SysInv y -> sys_step ff y o y' -> SysInv y'.
Proof.
  intros HI Hstep. destruct (store_keeps _ _ _ _ HI Hstep) as [HI' Hev]. split; [done|].
  destruct HI as [HI HF].
  assert (HF' : Forall (claim_ok (st y')) (issued y)).
  { eapply Forall_impl; [exact HF|]. intros c. by apply claim_ok_evolve. }
  destruct Hstep as [| fs w lease now locked s iss r s' Hr| | | | |]; try done.
  apply Claim_effect in Hr as [[-> Hno]|(j & Hm & -> & _ & Hchk & _ & ->)].
  - destruct r as [[c|]|e]; try done. by destruct (Hno c).
  - destruct (Claim_keeps w lease now locked j s HI Hm Hchk) as (_ & _ & Hok).
    by constructor.
Qed.

Lemma reachable_inv ff y : reachable ff y -> SysInv y.
Proof.
  induction 1 as [|y o y' _ IH Hstep]; [|by eapply step_keeps].
  split; [|constructor]. split; cbn; intros *; by rewrite lookup_empty.
Qed.

(** ** Claim order *)

Lemma job_before_irrefl j : job_before j j = false.
Proof. unfold job_before. by rewrite !Z.ltb_irrefl, string_ltb_irrefl. Qed.

Lemma job_before_asym a b : job_before a b = true -> job_before b a = false.
Proof.
  unfold job_before.
  destruct (Z.ltb_spec (AvailableAt a) (AvailableAt b)),
    (Z.ltb_spec (AvailableAt b) (AvailableAt a)); try done; try lia.
  destruct (Z.ltb_spec (CreatedAt a) (CreatedAt b)),
    (Z.ltb_spec (CreatedAt b) (CreatedAt a)); try done; try lia.
  apply string_ltb_asym.
Qed.

Lemma job_before_le_trans a b c :
  job_before b a = false -> job_before c b = false -> job_before c a = false.
Proof.
  unfold job_before.
  destruct (Z.ltb_spec (AvailableAt b) (AvailableAt a)),
    (Z.ltb_spec (AvailableAt a) (AvailableAt b)),
    (Z.ltb_spec (AvailableAt c) (AvailableAt b)),
    (Z.ltb_spec (AvailableAt b) (AvailableAt c)),
    (Z.ltb_spec (AvailableAt c) (AvailableAt a)),
    (Z.ltb_spec (AvailableAt a) (AvailableAt c)); try done; try lia.
  destruct (Z.ltb_spec (CreatedAt b) (CreatedAt a)),
    (Z.ltb_spec (CreatedAt a) (CreatedAt b)),
    (Z.ltb_spec (CreatedAt c) (CreatedAt b)),
    (Z.ltb_spec (CreatedAt b) (CreatedAt c)),
    (Z.ltb_spec (CreatedAt c) (CreatedAt a)),
    (Z.ltb_spec (CreatedAt a) (CreatedAt c)); try done; try lia.
  apply string_ltb_le_trans.
Qed.

Lemma lease_job_check w lease now j :
  job_check j = true -> AttemptCount j < MaxAttempts j -> CompletedAt j = None ->
  job_check (lease_job w lease now j) = true.
Proof.
  unfold job_check. intros H Hlt Hct. bool_simp. cbn.
  rewrite !andb_true_iff, !negb_true_iff, !Z.leb_le, !Z.ltb_lt. repeat split; try done; lia.
Qed.

(** In a reachable store a claimable row can always be leased: no constraint
    refuses the update and its attempt number is free. *)
Lemma claim_statement_ok s w lease now locked j :
  Inv s -> min_of job_before (candidates now locked s) = Some j ->
  job_check (lease_job w lease now j) = true /\
  attempts s !! (ID j, AttemptCount j + 1) = None.
Proof.
  intros HI Hm. destruct (min_candidate _ _ _ _ HI Hm) as (Hj & Hcl).
  apply claimable_cases in Hcl as (Hst & _ & _).
  pose proof (inv_job _ HI _ _ Hj) as []. destruct (waiting_shape _ ji_shape0 Hst) as (Hlt & Hct).
  split; [by apply lease_job_check|].
  destruct (attempts s !! (ID j, AttemptCount j + 1)) eqn:E; [|done]. apply ji_range0 in E. lia.
Qed.

Lemma filter_jobs_size (p : Job -> bool) (m : gmap string Job) :
  length (List.filter p (snd <$> map_to_list m)) =
  size (filter (fun kv => p kv.2 = true) m).
Proof.
  induction m as [|i x m Hi Hfst IH] using map_first_key_ind.
  - by rewrite map_to_list_empty, map_filter_empty, map_size_empty.
  - rewrite map_to_list_insert_first_key by done. cbn. rewrite map_filter_insert. cbn.
    assert (Hd : filter (fun kv => p kv.2 = true) (delete i m) = filter (fun kv => p kv.2 = true) m).
    { by rewrite delete_id. }
    destruct (p x) eqn:Hp.
    + rewrite decide_True by done. rewrite map_size_insert_None; [cbn; by rewrite IH|].
      apply map_lookup_filter_None. left. done.
    + rewrite decide_False by congruence. by rewrite Hd.
Qed.

(** ** Properties *)

(** C1: whatever the interleaving of queue calls by any number of workers, and
    whichever database interactions fail, the job and attempt tables keep their
    invariant: constraints hold, (kind, idempotency key) is unique, a waiting
    job has an attempt left and no lease, attempts are numbered within the
    counter, and the only unfinished attempt of a job is that of its current
    lease holder. *)
Theorem queue_invariant ff y : reachable ff y -> Inv (st y) /\ Forall (claim_ok (st y)) (issued y).
Proof. apply reachable_inv. Qed.

(** C2: fencing.  Once a job has been leased again, a worker still holding an
    older claim can neither complete it, nor fail it, nor renew the lease, at
    any time and under any failure schedule: no call reports success and the
    store is unchanged. *)
Theorem stale_claim_fenced ff y c c' now fs :
  reachable ff y -> c ∈ issued y -> c' ∈ issued y ->
  ID (ClaimJob c) = ID (ClaimJob c') ->
  AttemptCount (ClaimJob c) < AttemptCount (ClaimJob c') ->
  (forall result, let '(r, s') := run (Complete true ff c result now) fs (st y) in
     r <> Ok true /\ s' = st y) /\
  (forall failure, let '(r, s') := run (Fail true ff c failure now) fs (st y) in
     r <> Ok true /\ s' = st y) /\
  (forall lease, let '(r, s') := run (Renew true c lease now) fs (st y) in
     r <> Ok true /\ s' = st y).
Proof.
  intros Hr Hc Hc' Hid Hlt. destruct (reachable_inv _ _ Hr) as [_ HF].
  rewrite Forall_forall in HF. destruct (HF _ Hc') as (j & Hj & _ & Hn).
  assert (Hno : forall f g b s', ~ lease_effect c now f g b (st y) s').
  { intros f g b s' (k & Hk & Hl & _). apply holds_lease_running in Hl as (_ & _ & Hl & _).
    rewrite Hid, Hj in Hk. injection Hk as <-. lia. }
  split; [|split]; intros x; destruct (run _ fs (st y)) as [r s'] eqn:E.
  - apply Complete_effect in E as [[-> ?]|(_ & ? & _ & Hl)]; [by split|by apply Hno in Hl].
  - apply Fail_effect in E as [[-> ?]|(_ & ? & Hl)]; [by split|by apply Hno in Hl].
  - apply Renew_effect in E as [[-> ?]|(_ & _ & Hl)]; [by split|by apply Hno in Hl].
Qed.

(** Along every step of the system a job row is never lost, its input
    contract (kind, schema version, key, snapshots, payload, creation time,
    retry bound) never changes, its attempt counter never decreases, and a row
    in a terminal state is final. *)
Theorem rows_evolve ff y o y' id j :
  reachable ff y -> sys_step ff y o y' -> jobs (st y) !! id = Some j ->
  exists j', jobs (st y') !! id = Some j' /\ evolves j j'.
Proof. intros Hr Hs. eapply store_keeps; [|done]. by eapply reachable_inv. Qed.


Lemma enqueue_row_check fresh1 now1 fresh2 now2 req p :
  job_check (enqueue_row fresh1 now1 req p) = job_check (enqueue_row fresh2 now2 req p).
Proof. done. Qed.

(** A successful enqueue: the request is valid, the answer carries its key and
    is a row of the store left behind, which satisfies the invariant. *)
Lemma Enqueue_ok ff fresh now req fs s j s1 :
  Inv s -> run (Enqueue true ff fresh now req) fs s = (Ok j, s1) ->
  Inv s1 /\ validateEnvelope req = None /\
  (exists p, CanonicalJSON ff (ReqPayload req) = Ok p /\
     job_check (enqueue_row fresh now req p) = true) /\
  same_key (ReqKind req) (ReqIdempotencyKey req) j = true /\
  exists id, jobs s1 !! id = Some j.
Proof.
  intros HI Hrun. pose proof Hrun as Heff%Enqueue_effect.
  assert (HI1 : Inv s1).
  { destruct Heff as [->|(k & ? & ? & ? & ? & ? & ? & ? & ? & ? & ? & ->)]; [done|].
    by apply Enqueue_keeps. }
  clear Heff. split; [done|]. clear HI HI1.
  run_ok_wp Hrun.
  unfold Enqueue. cbn [negb]. destruct (validateEnvelope req) as [e|]; [by apply wp_throw|].
  destruct (CanonicalJSON ff (ReqPayload req)) as [p|e]; [|by apply wp_throw].
  wp_step; [done| |done]. intros k [= ->]. split; [done|].
  unfold enqueue_statement in E. destruct (job_check _) eqn:Hc; [|done].
  split; [by exists p|].
  destruct (find_job _ s) as [old|] eqn:Hf.
  - injection E as <- <-. by apply find_job_Some in Hf.
  - case_match; [done|]. apply put_job_cases in E as [[[=] _]|([= ->] & _ & ->)].
    unfold same_key. cbn. rewrite !bool_decide_eq_true_2 by done. split; [done|].
    exists fresh. by rewrite lookup_insert_eq.
Qed.

(** Enqueue is idempotent on (kind, idempotency key): repeating a successful
    request, at any later time and whatever identifier is drawn, returns the job
    of the first call and leaves the store as it is. *)
Theorem enqueue_idempotent ff fresh1 now1 fresh2 now2 req fs s s1 j :
  Inv s ->
  run (Enqueue true ff fresh1 now1 req) fs s = (Ok j, s1) ->
  run (Enqueue true ff fresh2 now2 req) [] s1 = (Ok j, s1).
Proof.
  intros HI Hrun. destruct (Enqueue_ok _ _ _ _ _ _ _ _ HI Hrun)
    as (HI1 & Hv & (p & Hp & Hc) & Hk & id & Hid).
  unfold run, Enqueue. cbn [negb]. rewrite Hv, Hp. unfold pool_stmt, guarded, next_fault. cbn.
  unfold enqueue_statement. rewrite (enqueue_row_check _ _ fresh1 now1), Hc. cbn.
  destruct (find_job _ s1) as [k|] eqn:Hf.
  - apply find_job_Some in Hf as (Hk' & id' & Hid'). unfold same_key in Hk, Hk'. bool_simp.
    assert (id' = id) as -> by (eapply (inv_key _ HI1); eauto; congruence).
    by replace k with j by congruence.
  - pose proof (find_job_None _ _ Hf _ _ Hid). cbn in *. congruence.
Qed.

(** Recovery is complete and exact.  A successful call leaves no running
    job with an expired lease, reports how many there were, moves each to
    [failed] when its attempts are used up and back to [retryable_failed]
    otherwise, closes its attempt as [expired], and leaves every other job and
    attempt alone. *)
Theorem recover_exact ff y now fs n s' :
  reachable ff y ->
  run (RecoverExpired true now) fs (st y) = (Ok n, s') ->
  n = Z.of_nat (size (filter (fun kv => expired now kv.2 = true) (jobs (st y)))) /\
  (forall id j, jobs s' !! id = Some j -> expired now j = false) /\
  (forall id j, jobs (st y) !! id = Some j ->
     jobs s' !! id = Some (if expired now j then expire_job now j else j)) /\
  (forall id m a j, attempts (st y) !! (id, m) = Some a -> jobs (st y) !! id = Some j ->
     attempts s' !! (id, m) =
       Some (if expired now j && (AttemptCount j =? m) && bool_decide (AttFinishedAt a = None)
             then expire_attempt now a else a)).
Proof.
  intros Hr Hrun. destruct (reachable_inv _ _ Hr) as [HI _].
  apply Recover_effect in Hrun as [[_ Hno]|([= ->] & Hc & HJ & HA & _)]; [by destruct (Hno n)|].
  split; [|split; [|split]].
  - f_equal. unfold expired_jobs. rewrite length_fmap. apply filter_jobs_size.
  - intros id j. rewrite HJ, lookup_fmap. destruct (jobs (st y) !! id) as [k|]; [|done].
    intros [= <-]. destruct (expired now k) eqn:He; [|done]. unfold expired. cbn.
    by case_match.
  - intros id j Hj. by rewrite HJ, lookup_fmap, Hj.
  - intros id m a j Ha Hj. rewrite HA, Ha. cbn. f_equal. by apply closed_by_expired.
Qed.

(** Every queue call is atomic: when it reports an error, wherever the
    failure happened, the committed tables are those it started from. *)
Theorem queue_calls_atomic ff pool fs s :
  (forall fresh now req, let '(r, s') := run (Enqueue pool ff fresh now req) fs s in
     is_ok r = false -> s' = s) /\
  (forall w lease now locked, let '(r, s') := run (ClaimOp pool w lease now locked) fs s in
     is_ok r = false -> s' = s) /\
  (forall c result now, let '(r, s') := run (Complete pool ff c result now) fs s in
     is_ok r = false -> s' = s) /\
  (forall c lease now, let '(r, s') := run (Renew pool c lease now) fs s in
     is_ok r = false -> s' = s) /\
  (forall c failure now, let '(r, s') := run (Fail pool ff c failure now) fs s in
     is_ok r = false -> s' = s) /\
  (forall id reason now, let '(r, s') := run (Cancel pool id reason now) fs s in
     is_ok r = false -> s' = s) /\
  (forall now, let '(r, s') := run (RecoverExpired pool now) fs s in
     is_ok r = false -> s' = s).
Proof.
  repeat split; intros; destruct (run _ fs s) as [r s'] eqn:E; intros Hr.
  - apply Enqueue_effect in E as [|(? & -> & _)]; done.
  - apply Claim_effect in E as [[]|(? & _ & -> & _)]; done.
  - apply Complete_effect in E as [[]|[-> _]]; done.
  - apply Renew_effect in E as [[]|[-> _]]; done.
  - apply Fail_effect in E as [[]|[-> _]]; done.
  - apply Cancel_effect in E as [[]|[-> _]]; done.
  - apply Recover_effect in E as [[]|[-> _]]; done.
Qed.

(** ** Witnesses: one job leased, lost, recovered and leased again *)

Definition demo_ff : spec_float -> string := fun _ => "0"%string.
Definition demo_req : EnqueueRequest :=
  mkEnqueueRequest "scenario.revalue" "1.0" "key-1" ["snap-1"%string]
    (VMap [("b"%string, VInt 2); ("a"%string, VInt 1)]) 2 zero_time.

Definition demo1 := run (Enqueue true demo_ff "job-1" 5 demo_req) [] empty_store.
Definition demo2 := run (ClaimOp true "w1" 10 20 ∅) [] (snd demo1).
Definition demo3 := run (RecoverExpired true 31) [] (snd demo2).
Definition demo4 := run (ClaimOp true "w2" 10 40 ∅) [] (snd demo3).

Definition demo_job : Job := enqueue_row "job-1" 5 demo_req "{}".
Definition claim_of (r : res (option Claim)) : Claim :=
  match r with Ok (Some c) => c | _ => mkClaim demo_job "" end.
Definition demo_c1 : Claim := claim_of (fst demo2).
Definition demo_c2 : Claim := claim_of (fst demo4).
Definition demo_sys : sys := mkSys (snd demo4) [demo_c2; demo_c1].

Lemma demo_reachable1 : reachable demo_ff (mkSys (snd demo1) []).
Proof.
  eapply reach_step; [apply reach_init|].
  eapply (step_enqueue _ [] "job-1" 5 demo_req). apply surjective_pairing.
Qed.

Lemma demo_reachable2 : reachable demo_ff (mkSys (snd demo2) [demo_c1]).
Proof.
  eapply reach_step; [apply demo_reachable1|].
  assert (E : [demo_c1] = match fst demo2 with Ok (Some c) => c :: [] | _ => [] end)
    by (vm_compute; reflexivity).
  rewrite E. eapply (step_claim _ [] "w1" 10 20 ∅). apply surjective_pairing.
Qed.

Lemma demo_reachable : reachable demo_ff demo_sys.
Proof.
  eapply reach_step; [eapply reach_step; [apply demo_reachable2|]|].
  - eapply (step_recover _ [] 31). apply surjective_pairing.
  - assert (E : [demo_c2; demo_c1] =
      match fst demo4 with Ok (Some c) => c :: [demo_c1] | _ => [demo_c1] end)
      by (vm_compute; reflexivity).
    unfold demo_sys. rewrite E. eapply (step_claim _ [] "w2" 10 40 ∅). apply surjective_pairing.
Qed.

Lemma queue_invariant_witness : Inv (st demo_sys) /\ size (attempts (st demo_sys)) = 2%nat.
Proof.
  split; [exact (proj1 (queue_invariant demo_ff demo_sys demo_reachable))|].
  vm_compute. reflexivity.
Defined.

Lemma stale_claim_fenced_witness :
  demo_c1 ∈ issued demo_sys /\
  snd (run (Complete true demo_ff demo_c1 (VInt 1) 41) [] (st demo_sys)) = st demo_sys.
Proof.
  assert (H1 : demo_c1 ∈ issued demo_sys) by (right; left).
  assert (H2 : demo_c2 ∈ issued demo_sys) by left.
  split; [exact H1|].
  pose proof (stale_claim_fenced demo_ff demo_sys demo_c1 demo_c2 41 [] demo_reachable H1 H2
    ltac:(vm_compute; reflexivity) ltac:(vm_compute; reflexivity)) as [H _].
  specialize (H (VInt 1)). destruct (run _ [] _) as [r s']. exact (proj2 H).
Defined.

Lemma rows_evolve_witness :
  exists j', jobs (snd demo1) !! "job-1"%string = Some j' /\
    exists k, jobs (snd demo2) !! "job-1"%string = Some k /\ evolves j' k.
Proof.
  eexists. split; [vm_compute; reflexivity|].
  eapply (rows_evolve demo_ff (mkSys (snd demo1) []) (OpClaim "w1" 10 20 ∅)
            (mkSys (snd demo2) _)).
  - exact demo_reachable1.
  - eapply (step_claim _ [] "w1" 10 20 ∅). apply surjective_pairing.
  - vm_compute. reflexivity.
Defined.

Definition demo_row : Job := default demo_job (jobs (snd demo1) !! "job-1"%string).


Lemma enqueue_idempotent_witness :
  exists j, run (Enqueue true demo_ff "job-2" 77 demo_req) [] (snd demo1) = (Ok j, snd demo1).
Proof.
  eexists. apply (enqueue_idempotent demo_ff "job-1" 5 "job-2" 77 demo_req [] empty_store).
  - exact (proj1 (reachable_inv demo_ff _ (reach_init demo_ff))).
  - vm_compute. reflexivity.
Defined.

Lemma recover_exact_witness : 1 = Z.of_nat
  (size (filter (fun kv => expired 31 kv.2 = true) (jobs (snd demo2)))).
Proof.
  apply (recover_exact demo_ff (mkSys (snd demo2) [demo_c1]) 31 [] 1 (snd demo3) demo_reachable2).
  vm_compute. reflexivity.
Defined.
