(* ===== verification/JobsRows.v ===== *)
(** What the queue's calls keep of the job rows when attempts are not assumed well
    formed: rows are under their identifiers, keys are used once, rows only move
    on, and what belongs to a finished job stays.  This is what remains true when
    another service cancels a job without closing its attempt. *)

From S2P Require Import Prelude GoString GoTime Sha256 Db Json Jobs JobsSafety.
From Stdlib Require Import SpecFloat.
#[local] Open Scope Z_scope.
Import Jobs.

Record rows_ok (s : store) : Prop := {
  ro_id : forall id j, jobs s !! id = Some j -> ID j = id;
  ro_key : forall id1 id2 j1 j2, jobs s !! id1 = Some j1 -> jobs s !! id2 = Some j2 ->
    Kind j1 = Kind j2 -> IdempotencyKey j1 = IdempotencyKey j2 -> id1 = id2;
}.

(** The runs of the scenarios stay with their jobs. *)
Definition runs_keep (s s' : store) : Prop := forall id l, runs s !! id = Some l ->
  exists l', runs s' !! id = Some l' /\ RunJobID l' = RunJobID l.

Record advances (s s' : store) : Prop := {
  adv_rows : rows_ok s';
  adv_evolve : evolve s s';
  adv_runs : runs_keep s s';
  adv_settled : forall id j n, jobs s !! id = Some j -> terminal (JobState j) = true ->
    attempts s' !! (id, n) = attempts s !! (id, n);
}.

Lemma runs_keep_refl s s' : runs s' = runs s -> runs_keep s s'.
Proof. intros E id l Hl. exists l. by rewrite E. Qed.

Lemma advances_refl s : rows_ok s -> advances s s.
Proof. intros H. split; [done|apply evolve_refl|by apply runs_keep_refl|done]. Qed.

Lemma advances_finished s s' id j : advances s s' -> jobs s !! id = Some j -> terminal (JobState j) = true ->
  jobs s' !! id = Some j.
Proof. intros H Hj Ht. destruct (adv_evolve _ _ H _ _ Hj) as (j' & Hj' & He). by rewrite (ev_final _ _ He Ht) in Hj'. Qed.

Lemma advances_trans s1 s2 s3 : advances s1 s2 -> advances s2 s3 -> advances s1 s3.
Proof.
  intros H1 H2. split; [apply H2| | |].
  - intros id j Hj. destruct (adv_evolve _ _ H1 _ _ Hj) as (j' & Hj' & [? ? ? ? ? ? ? ? ? Hf]).
    destruct (adv_evolve _ _ H2 _ _ Hj') as (j'' & Hj'' & [? ? ? ? ? ? ? ? ? Hf']).
    exists j''. split; [done|]. split; try congruence; [lia|]. intros Ht. rewrite Hf'; [by apply Hf|]. by rewrite Hf.
  - intros id l Hl. destruct (adv_runs _ _ H1 _ _ Hl) as (l' & Hl' & E). destruct (adv_runs _ _ H2 _ _ Hl') as (l'' & Hl'' & E').
    exists l''. split; [done|congruence].
  - intros id j n Hj Ht. rewrite (adv_settled _ _ H2 _ _ _ (advances_finished _ _ _ _ H1 Hj Ht) Ht). by apply (adv_settled _ _ H1 _ j).
Qed.

(** One row moves on, and nothing else. *)
Lemma advance_replace s id j j' atts' runs' : rows_ok s -> jobs s !! id = Some j -> evolves j j' ->
  terminal (JobState j) = false -> (forall id' n, id' <> id -> atts' !! (id', n) = attempts s !! (id', n)) ->
  runs_keep s (mkStore ∅ ∅ runs') -> advances s (mkStore (<[id := j']> (jobs s)) atts' runs').
Proof.
  intros HR Hj He Ht Ha Hr. split.
  - assert (Hback : forall i k, <[id := j']> (jobs s) !! i = Some k ->
      exists k0, jobs s !! i = Some k0 /\ ID k = ID k0 /\ Kind k = Kind k0 /\ IdempotencyKey k = IdempotencyKey k0).
    { intros i k. rewrite lookup_insert_Some. intros [[<- <-]|[_ Hk]]; [|by exists k]. exists j. split_and!; [done|apply He..]. }
    split; cbn.
    + intros i k Hk. destruct (Hback _ _ Hk) as (k0 & H0 & -> & _). by apply (ro_id _ HR).
    + intros i1 i2 k1 k2 H1 H2. destruct (Hback _ _ H1) as (? & ? & _ & -> & ->), (Hback _ _ H2) as (? & ? & _ & -> & ->).
      by apply (ro_key _ HR).
  - by apply evolve_insert with j.
  - exact Hr.
  - intros i k n Hk Hkt. apply Ha. intros ->. congruence.
Qed.

(** A new row under a key no row has. *)
Lemma enqueue_advances fresh j s : rows_ok s -> ID j = fresh -> jobs s !! fresh = None ->
  find_job (same_key (Kind j) (IdempotencyKey j)) s = None -> advances s (set_jobs s (<[fresh := j]> (jobs s))).
Proof.
  intros HR Hid Hf Hk.
  pose proof (find_job_None _ _ Hk) as Hkey.
  assert (Hd : forall i k, jobs s !! i = Some k -> Kind k = Kind j -> IdempotencyKey k = IdempotencyKey j -> False).
  { intros i k Hk' HK HKey. specialize (Hkey _ _ Hk'). unfold same_key in Hkey. by rewrite !bool_decide_eq_true_2 in Hkey. }
  split; [split| |by apply runs_keep_refl|done]; cbn.
  + intros i k. rewrite lookup_insert_Some. intros [[<- <-]|[_ Hi]]; [done|by apply (ro_id _ HR)].
  + intros i1 i2 k1 k2. rewrite !lookup_insert_Some. intros [[<- <-]|[_ H1]] [[<- <-]|[_ H2]] HK HKey; [done| | |by eapply (ro_key _ HR)].
    * by destruct (Hd _ _ H2).
    * by destruct (Hd _ _ H1).
  + intros i k Hi. exists k. split; [|apply evolves_refl]. cbn. rewrite lookup_insert_ne; [done|]. congruence.
Qed.

Section steps.
Context (ff : spec_float -> string).

Lemma lease_advances c now f g close s s' : rows_ok s -> lease_effect c now f g close s s' ->
  (forall j, JobState j = StateRunning -> evolves j (f j)) -> advances s s'.
Proof.
  intros HR (j & Hj & Hl & _ & ->) Hev. destruct (holds_lease_running _ _ _ Hl) as (Hrun & _).
  pose proof (Hev j Hrun) as He. rewrite (ev_id _ _ He), (ro_id _ HR _ _ Hj).
  apply (advance_replace _ _ j); [done|done|done|by rewrite Hrun| |by apply runs_keep_refl].
  intros id' n Hne. destruct close; [|done]. by apply close_current_other.
Qed.

Lemma Recover_advances now s s' : rows_ok s -> recovered now (expired_jobs now s) s s' -> advances s s'.
Proof.
  intros HR (HJ & HA & Hruns).
  assert (Hback : forall id k, jobs s' !! id = Some k ->
    exists j, jobs s !! id = Some j /\ k = if expired now j then expire_job now j else j).
  { intros id k. rewrite HJ, lookup_fmap. destruct (jobs s !! id); [|done]. intros [= <-]. eauto. }
  split; [split| | |].
  - intros id k Hk. destruct (Hback _ _ Hk) as (j & Hj & ->). destruct (expired now j); cbn; by apply (ro_id _ HR).
  - intros id1 id2 k1 k2 H1 H2. destruct (Hback _ _ H1) as (j1 & Hj1 & ->), (Hback _ _ H2) as (j2 & Hj2 & ->).
    destruct (expired now j1), (expired now j2); cbn; by apply (ro_key _ HR).
  - intros id j Hj. exists (if expired now j then expire_job now j else j). rewrite HJ, lookup_fmap, Hj. split; [done|].
    destruct (expired now j) eqn:He; [|apply evolves_refl]. apply expired_cases in He as [Hr _]. by apply expire_evolves.
  - intros id l Hl. rewrite Hruns. clear -Hl.
    enough (H : forall l0 rs, (exists l', rs !! id = Some l' /\ RunJobID l' = RunJobID l) ->
      exists l', fold_left (expire_run now) l0 rs !! id = Some l' /\ RunJobID l' = RunJobID l) by (apply H; by exists l).
    induction l0 as [|x l0 IH]; [done|]. intros rs (l' & Hl' & E). cbn [fold_left]. apply IH. unfold expire_run.
    destruct (negb _); [by exists l'|]. rewrite lookup_fmap, Hl'. cbn. eexists. split; [done|].
    by repeat match goal with |- context [if ?b then _ else _] => destruct b end.
  - intros id j n Hj Ht. rewrite HA. destruct (attempts s !! (id, n)) as [a|]; [|done]. cbn. f_equal. unfold closed_by. cbn.
    destruct (existsb _ _) eqn:Ex; [|done]. exfalso. apply existsb_exists in Ex as (k & Hk & Hm). bool_simp.
    apply list_elem_of_In, expired_jobs_elem in Hk as (id' & j' & Hj' & He & ->). cbn in *.
    pose proof (ro_id _ HR _ _ Hj'). assert (id' = id) as -> by congruence. rewrite Hj in Hj'. injection Hj' as <-.
    apply expired_cases in He as [Hr _]. by rewrite Hr in Ht.
Qed.

Lemma queue_advances y o y' : rows_ok (st y) -> sys_step ff y o y' -> advances (st y) (st y').
Proof.
  intros HR Hstep.
  destruct Hstep as [fs fresh now req s iss r s' Hr|fs w lease now locked s iss r s' Hr
    |fs c result now s iss r s' Hc Hr|fs c lease now s iss r s' Hc Hr
    |fs c failure now s iss r s' Hc Hr|fs id reason now s iss r s' Hr|fs now s iss r s' Hr];
    cbn [st issued] in *.
  - apply Enqueue_effect in Hr as [->|(j & ? & Hid & _ & _ & _ & _ & _ & _ & Hf & Hk & ->)]; [by apply advances_refl|].
    by apply enqueue_advances.
  - apply Claim_effect in Hr as [[-> _]|(j & Hm & _ & _ & _ & _ & ->)]; [by apply advances_refl|].
    apply min_of_elem, candidates_elem in Hm as (Hc & id & Hj). pose proof (ro_id _ HR _ _ Hj) as <-.
    apply claimable_cases in Hc as (Hst & _ & _). assert (Ht : terminal (JobState j) = false) by (by destruct Hst as [->| ->]).
    apply (advance_replace _ _ j); [done|done| |done| |by apply runs_keep_refl].
    + split; cbn; try done; try lia. by rewrite Ht.
    + intros id' n Hne. rewrite lookup_insert_ne; [done|]. congruence.
  - apply Complete_effect in Hr as [[-> _]|(_ & data & _ & Hl)]; [by apply advances_refl|].
    eapply lease_advances; [done|done|]. intros j Hrun. by apply evolves_running.
  - apply Renew_effect in Hr as [[-> _]|(_ & _ & Hl)]; [by apply advances_refl|].
    eapply lease_advances; [done|done|]. intros j Hrun. by apply evolves_running.
  - apply Fail_effect in Hr as [[-> _]|(_ & details & Hl)]; [by apply advances_refl|].
    eapply lease_advances; [done|done|]. intros j Hrun. by apply evolves_running.
  - apply Cancel_effect in Hr as [[-> _]|(_ & j & Hj & Ha & _ & ->)]; [by apply advances_refl|].
    assert (Ht : terminal (JobState j) = false) by by destruct (JobState j).
    rewrite (ro_id _ HR _ _ Hj). apply (advance_replace _ _ j); [done|done| |done| |by apply runs_keep_refl].
    + split; cbn; try done; try lia. by rewrite Ht.
    + intros id' n Hne. cbn. rewrite map_lookup_imap. cbn. destruct (attempts s !! (id', n)); [|done]. cbn.
      by rewrite bool_decide_eq_false_2.
  - apply Recover_effect in Hr as [[-> _]|(_ & _ & HR')]; [by apply advances_refl|]. by apply Recover_advances with now.
Qed.
End steps.
