(* ===== verification/Decimal.v ===== *)
(** Exact decimal arithmetic: the [big.Rat] values of the services and the
    NUMERIC(38,18) text codec they share ([formatDecimal], [parseDecimal],
    [roundedDecimal], [scaleDecimal], the decimal pattern).

    A [big.Rat] is a rational in lowest terms; it is a [Q] read through [Qred],
    so two equal rationals are the same [big.Rat] and every function below
    respects [Qeq]. *)

From S2P Require Import Prelude GoString Digits.
From Stdlib Require Import Ascii QArith Qabs Lqa.
#[local] Open Scope Z_scope.

Definition Num (v : Q) : Z := Qnum (Qred v).
Definition Denom (v : Q) : Z := Z.pos (Qden (Qred v)).

Definition scale18 : Z := 10 ^ 18.

(** ** formatDecimal *)

(** The scaled quotient, rounded half away from zero. *)
Definition round18 (v : Q) : Z :=
  let numerator := Num v * scale18 in
  let quotient := Z.quot numerator (Denom v) in
  let remainder := Z.rem numerator (Denom v) in
  if negb (remainder =? 0) then
    let double := Z.shiftl (Z.abs remainder) 1 in
    if Denom v <=? double then
      if numerator <? 0 then quotient - 1 else quotient + 1
    else quotient
  else quotient.

(** The text of a scaled integer: eighteen fractional digits and at least one
    integer digit. *)
Definition fixed18 (quotient : Z) : string :=
  let sign := if quotient <? 0 then chars "-" else [] in
  let digits := digits (Z.abs quotient) in
  let digits := if (length digits <=? 18)%nat
                then replicate (19 - length digits) "0"%char ++ digits else digits in
  let point := (length digits - 18)%nat in
  of_chars (sign ++ take point digits ++ "."%char :: drop point digits).

Definition formatDecimal (value : Q) : string := fixed18 (round18 value).

(** ** big.Rat.SetString, on decimal texts

    An optional sign, digits with at most one point, at least one digit.  (The
    fraction and exponent forms, which no text reaching the services has, are
    refused here.) *)
Definition set_string (s : list ascii) : option Q :=
  let '(neg, body) := match s with
                      | c :: r => if Ascii.eqb c "-" then (true, r)
                                  else if Ascii.eqb c "+" then (false, r) else (false, s)
                      | [] => (false, s)
                      end in
  let '(i, f) := cut_char "." body in
  let f := default [] f in
  if all_digits i && all_digits f && negb (bool_decide (i ++ f = []))
  then Some (Qmake ((if neg then Z.opp else id) (dval (i ++ f)))
               (Z.to_pos (10 ^ Z.of_nat (length f))))
  else None.

(** A rational from a decimal text, required positive. *)
Definition positive_rat (text : string) : option Q :=
  match set_string (chars text) with
  | Some q => if 0 <? Qnum q then Some q else None
  | None => None
  end.

(** [big.Rat.FloatString(18)]: the sign of a negative value that rounds to zero
    stays. *)
Definition FloatString18 (value : Q) : string :=
  if (Num value <? 0) && (round18 value =? 0) then "-" +:+ formatDecimal value else formatDecimal value.

Definition parse_rat (value : string) : option Q := set_string (chars (trim_space value)).

(** [roundedDecimal] (valuation) and [scaleDecimal] (reconciliation) reparse the
    formatted text; the fallback zero is never taken. *)
Definition roundedDecimal (value : Q) : Q := default 0%Q (parse_rat (formatDecimal value)).

(** ** The decimal pattern: an optional sign, an integer part without leading
    zeros, and an optional non-empty fraction *)

Definition int_part_ok (i : list ascii) : bool :=
  match i with
  | [] => false
  | c :: r => if Ascii.eqb c "0" then bool_decide (r = []) else is_digit c && all_digits r
  end.

Definition decimal_body (s : list ascii) : bool :=
  let '(i, f) := cut_char "." s in
  int_part_ok i && match f with
                   | None => true
                   | Some f => negb (bool_decide (f = [])) && all_digits f
                   end.

(** [plus] tells whether the pattern's sign class also has ["+"]. *)
Definition decimal_pattern (plus : bool) (value : string) : bool :=
  match chars value with
  | c :: r => if Ascii.eqb c "-" || (plus && Ascii.eqb c "+") then decimal_body r
              else decimal_body (c :: r)
  | [] => false
  end.

Example formatDecimal_ex : formatDecimal (1 # 3) = "0.333333333333333333".
Proof. vm_compute. reflexivity. Qed.
Example formatDecimal_neg : formatDecimal (-2 # 3) = "-0.666666666666666667".
Proof. vm_compute. reflexivity. Qed.
Example parse_rat_ex : parse_rat " -12.50 " = Some (-1250 # 100).
Proof. vm_compute. reflexivity. Qed.

(** ** Proper *)

Lemma Num_proper v w : v == w -> Num v = Num w.
Proof. intros H. unfold Num. by rewrite (Qred_complete _ _ H). Qed.
Lemma Denom_proper v w : v == w -> Denom v = Denom w.
Proof. intros H. unfold Denom. by rewrite (Qred_complete _ _ H). Qed.

#[export] Instance round18_proper : Proper (Qeq ==> eq) round18.
Proof. intros v w H. unfold round18. by rewrite (Num_proper _ _ H), (Denom_proper _ _ H). Qed.

#[export] Instance formatDecimal_proper : Proper (Qeq ==> eq) formatDecimal.
Proof. intros v w H. unfold formatDecimal. by rewrite H. Qed.

#[export] Instance roundedDecimal_proper : Proper (Qeq ==> eq) roundedDecimal.
Proof. intros v w H. unfold roundedDecimal. by rewrite H. Qed.

(** ** Rounding *)

Lemma Num_Denom v : inject_Z (Num v) / inject_Z (Denom v) == v.
Proof.
  unfold Num, Denom. rewrite <- (Qred_correct v) at 3. destruct (Qred v) as [n d].
  cbn [Qnum Qden]. rewrite (Qmake_Qdiv n d). reflexivity.
Qed.

Lemma Denom_pos v : 0 < Denom v.
Proof. unfold Denom. lia. Qed.

(** The rounded integer is within half a unit, and a tie goes away from zero. *)
Lemma round18_spec v :
  let e := round18 v * Denom v - Num v * scale18 in
  2 * Z.abs e <= Denom v /\
  (2 * Z.abs e = Denom v -> Z.abs (Num v * scale18) < Z.abs (round18 v * Denom v)).
Proof.
  unfold round18. set (n := Num v * scale18). pose proof (Denom_pos v) as Hd.
  set (d := Denom v) in *. clearbody n d.
  pose proof (Z.quot_rem' n d) as Hqr. pose proof (Z.rem_bound_abs n d ltac:(lia)) as Hb.
  pose proof (Z.rem_nonneg n d ltac:(lia)) as Hs1. pose proof (Z.rem_nonpos n d ltac:(lia)) as Hs2.
  set (q := Z.quot n d) in *. set (r := Z.rem n d) in *. clearbody q r.
  rewrite Z.shiftl_mul_pow2 by lia. change (2 ^ 1) with 2.
  destruct (Z.eqb_spec r 0) as [->|Hr]; cbn [negb]; [lia|].
  destruct (Z.leb_spec d (Z.abs r * 2)).
  - destruct (Z.ltb_spec n 0).
    + assert (r < 0) by lia. replace ((q - 1) * d - n) with (- d - r) by nia.
      split; [lia|]. intros. assert (Hz : (q - 1) * d < n) by nia. lia.
    + assert (0 < r) by lia. replace ((q + 1) * d - n) with (d - r) by nia.
      split; [lia|]. intros. assert (Hz : n < (q + 1) * d) by nia. lia.
  - replace (q * d - n) with (- r) by nia. split; lia.
Qed.

(** A multiple of 10^-18 is its own rounding. *)
Lemma round18_exact z : round18 (z # Z.to_pos scale18) = z.
Proof.
  destruct (round18_spec (z # Z.to_pos scale18)) as [H _].
  pose proof (Denom_pos (z # Z.to_pos scale18)) as Hd.
  pose proof (Qred_correct (z # Z.to_pos scale18)) as He. unfold Qeq in He.
  cbn [Qnum Qden] in He. fold (Num (z # Z.to_pos scale18)) (Denom (z # Z.to_pos scale18)) in He.
  change (Z.pos (Z.to_pos scale18)) with scale18 in He.
  set (v := z # Z.to_pos scale18) in *. rewrite He in H. nia.
Qed.

(** ** The text codec *)

Lemma all_digits_not c s : is_digit c = false -> all_digits s = true -> Forall (fun a => a <> c) s.
Proof.
  intros Hc. induction s as [|a s IH]; cbn; [constructor|].
  intros [Ha Hs]%andb_prop. constructor; [|by apply IH]. intros ->. congruence.
Qed.

Lemma digit_solid c : is_digit c = true -> solid c = true.
Proof. unfold is_digit, solid. intros. bool_simp. rewrite andb_true_iff, !Z.leb_le. lia. Qed.

(** The parts of a formatted number. *)
Lemma fixed18_parts z :
  exists i f, chars (fixed18 z) = (if z <? 0 then ["-"%char] else []) ++ i ++ "."%char :: f /\
    all_digits i = true /\ all_digits f = true /\ length f = 18%nat /\
    int_part_ok i = true /\ dval (i ++ f) = Z.abs z.
Proof.
  unfold fixed18. set (ds := digits (Z.abs z)).
  pose proof (all_digits_digits (Z.abs z) ltac:(lia)) as Hd.
  pose proof (dval_digits (Z.abs z) ltac:(lia)) as Hv. fold ds in Hd, Hv.
  set (ds' := if (length ds <=? 18)%nat then _ else _).
  assert (Hd' : all_digits ds' = true).
  { unfold ds'. case_match; [|done]. by rewrite all_digits_app, all_digits_replicate, Hd. }
  assert (Hv' : dval ds' = Z.abs z).
  { unfold ds'. case_match; [|done]. rewrite dval_app, dval_replicate_zero, Hv. lia. }
  assert (Hl : (19 <= length ds')%nat).
  { unfold ds'. destruct (Nat.leb_spec (length ds) 18); [|lia].
    rewrite length_app, length_replicate. lia. }
  exists (take (length ds' - 18) ds'), (drop (length ds' - 18) ds').
  rewrite chars_of_chars. split; [by destruct (z <? 0)|].
  split; [by apply all_digits_take|]. split; [by apply all_digits_drop|].
  split; [rewrite length_drop; lia|]. split; [|by rewrite take_drop].
  unfold ds'. destruct (Nat.leb_spec (length ds) 18) as [Hle|Hgt].
  - rewrite length_app, length_replicate.
    replace (19 - length ds + length ds - 18)%nat with 1%nat by lia.
    replace (19 - length ds)%nat with (S (18 - length ds)) by lia. done.
  - destruct ds as [|c r] eqn:E; [cbn in Hgt; lia|].
    replace (length (c :: r) - 18)%nat with (S (length r - 18)) by (cbn in *; lia). cbn [take].
    cbn in Hd. apply andb_prop in Hd as [Hdc Hdr]. unfold int_part_ok.
    assert (Hz : 0 < Z.abs z).
    { destruct (Z.eq_dec (Z.abs z) 0) as [E0|]; [|lia]. unfold ds in E. rewrite E0 in E.
      injection E as <- <-. cbn in Hgt. lia. }
    pose proof (digits_head _ Hz) as Hh. fold ds in Hh. rewrite E in Hh. cbn in Hh.
    destruct (Ascii.eqb_spec c "0"); [congruence|]. rewrite Hdc. by apply all_digits_take.
Qed.

Lemma fixed18_trim z : trim_space (fixed18 z) = fixed18 z.
Proof.
  destruct (fixed18_parts z) as (i & f & Hch & Hi & Hf & Hlen & Hok & Hv).
  destruct f as [|f0 f'] using rev_ind; [done|]. clear IHf'. destruct i as [|i0 i']; [done|].
  cbn in Hi. apply andb_prop in Hi as [Hi0 _].
  rewrite all_digits_app in Hf. apply andb_prop in Hf as [_ Hf0].
  cbn in Hf0. rewrite andb_true_r in Hf0.
  destruct (z <? 0) eqn:Hz; cbn [app] in Hch.
  - eapply (trim_space_solid _ "-"%char _ ("-"%char :: (i0 :: i') ++ "."%char :: f') f0);
      [exact Hch| |done|by apply digit_solid]. rewrite Hch. cbn. by rewrite <- app_assoc.
  - eapply (trim_space_solid _ i0 _ ((i0 :: i') ++ "."%char :: f') f0);
      [exact Hch| |by apply digit_solid|by apply digit_solid].
    rewrite Hch. cbn. by rewrite <- app_assoc.
Qed.

Lemma set_string_digits (neg : bool) i f :
  all_digits i = true -> all_digits f = true -> i <> [] ->
  set_string ((if neg then ["-"%char] else []) ++ i ++ "."%char :: f) =
    Some (Qmake ((if neg then Z.opp else id) (dval (i ++ f)))
            (Z.to_pos (10 ^ Z.of_nat (length f)))).
Proof.
  intros Hi Hf Hne.
  assert (Hcut : cut_char "." (i ++ "."%char :: f) = (i, Some f))
    by by apply cut_char_app, all_digits_not.
  assert (Hnn : bool_decide (i ++ f = []) = false).
  { apply bool_decide_eq_false_2. by destruct i. }
  unfold set_string. destruct neg; cbn [app].
  - cbn [Ascii.eqb Bool.eqb]. rewrite Hcut. cbn [from_option id]. by rewrite Hi, Hf, Hnn.
  - destruct i as [|i0 i']; [done|]. cbn [app] in Hcut |- *.
    assert (Hs : Ascii.eqb i0 "-" = false /\ Ascii.eqb i0 "+" = false).
    { cbn in Hi. apply andb_prop in Hi as [Hi _]. split; apply Ascii.eqb_neq; intros ->; done. }
    destruct Hs as [-> ->]. rewrite Hcut. cbn [from_option id]. by rewrite Hi, Hf, Hnn.
Qed.

(** Reading back a formatted number gives the number. *)
Lemma parse_fixed18 z : parse_rat (fixed18 z) = Some (z # Z.to_pos scale18).
Proof.
  unfold parse_rat. rewrite fixed18_trim.
  destruct (fixed18_parts z) as (i & f & Hch & Hi & Hf & Hlen & Hok & Hv).
  rewrite Hch, set_string_digits by (try done; by intros ->).
  rewrite Hlen, Hv. change (10 ^ Z.of_nat 18) with scale18. do 2 f_equal.
  destruct (Z.ltb_spec z 0); unfold id; lia.
Qed.

Lemma fixed18_pattern z : decimal_pattern false (fixed18 z) = true.
Proof.
  destruct (fixed18_parts z) as (i & f & Hch & Hi & Hf & Hlen & Hok & Hv).
  assert (Hbody : decimal_body (i ++ "."%char :: f) = true).
  { unfold decimal_body. rewrite cut_char_app by by apply all_digits_not.
    rewrite Hok, Hf. destruct f; done. }
  unfold decimal_pattern. rewrite Hch. destruct (z <? 0) eqn:E; cbn [app]; [done|].
  destruct i as [|i0 i']; [done|]. cbn [app] in *.
  cbn in Hi. apply andb_prop in Hi as [Hi _].
  destruct (Ascii.eqb_spec i0 "-") as [->|]; [done|]. by rewrite andb_false_l.
Qed.

Lemma roundedDecimal_eq v : roundedDecimal v = (round18 v # Z.to_pos scale18).
Proof. unfold roundedDecimal, formatDecimal. by rewrite parse_fixed18. Qed.

Lemma formatDecimal_rounded v : formatDecimal (roundedDecimal v) = formatDecimal v.
Proof. rewrite roundedDecimal_eq. unfold formatDecimal. by rewrite round18_exact. Qed.

#[export] Hint Rewrite parse_fixed18 roundedDecimal_eq formatDecimal_rounded : go.
