(* ===== verification/Order.v ===== *)
(** Comparators for ORDER BY clauses: a list of keys, ascending or descending,
    compared lexicographically. *)

From S2P Require Import Prelude GoString.
From stdpp Require Import sorting.
#[local] Open Scope Z_scope.

(** [c x y] is [Lt] when [x] comes first. *)
Definition comparator (A : Type) : Type := A -> A -> comparison.

Definition asc {A} (key : A -> Z) : comparator A := fun x y => key x ?= key y.
Definition desc {A} (key : A -> Z) : comparator A := fun x y => key y ?= key x.

Definition string_cmp (s t : string) : comparison :=
  if string_ltb s t then Lt else if string_ltb t s then Gt else Eq.
Definition asc_text {A} (key : A -> string) : comparator A := fun x y => string_cmp (key x) (key y).

(** DESC on a nullable column: NULL first. *)
Definition desc_null {A} (key : A -> option Z) : comparator A := fun x y =>
  match key x, key y with
  | None, None => Eq
  | None, Some _ => Lt
  | Some _, None => Gt
  | Some a, Some b => b ?= a
  end.

Definition then_by {A} (c d : comparator A) : comparator A := fun x y =>
  match c x y with Eq => d x y | r => r end.

Definition before {A} (c : comparator A) (x y : A) : bool :=
  match c x y with Lt => true | _ => false end.

Declare Scope order_scope.
Delimit Scope order_scope with order.
#[global] Open Scope order_scope.
Infix ">>" := then_by (at level 50, left associativity) : order_scope.

(** The laws of a total preorder. *)
Class Preordered {A} (c : comparator A) : Prop := {
  cmp_opp x y : c y x = CompOpp (c x y);
  cmp_le_trans x y z : c x y <> Gt -> c y z <> Gt -> c x z <> Gt;
}.

Section laws.
Context {A : Type}.

#[export] Instance asc_preordered (key : A -> Z) : Preordered (asc key).
Proof.
  split; unfold asc; intros.
  - by rewrite Z.compare_antisym.
  - rewrite Z.compare_le_iff in *. lia.
Qed.

#[export] Instance desc_preordered (key : A -> Z) : Preordered (desc key).
Proof.
  split; unfold desc; intros.
  - by rewrite Z.compare_antisym.
  - rewrite Z.compare_le_iff in *. lia.
Qed.

Lemma string_cmp_not_gt s t : string_cmp s t <> Gt <-> string_ltb t s = false.
Proof.
  unfold string_cmp. destruct (string_ltb s t) eqn:E.
  - apply string_ltb_asym in E. done.
  - destruct (string_ltb t s); done.
Qed.

Lemma string_cmp_eq s t : string_cmp s t = Eq -> s = t.
Proof.
  unfold string_cmp. destruct (string_ltb s t) eqn:E1; [done|].
  destruct (string_ltb t s) eqn:E2; [done|]. intros _. by apply string_ltb_eq.
Qed.

#[export] Instance asc_text_preordered (key : A -> string) : Preordered (asc_text key).
Proof.
  split; unfold asc_text; intros x y.
  - unfold string_cmp. destruct (string_ltb (key x) (key y)) eqn:E1.
    + by rewrite (string_ltb_asym _ _ E1).
    + by destruct (string_ltb (key y) (key x)).
  - intros z. rewrite !string_cmp_not_gt. apply string_ltb_le_trans.
Qed.

#[export] Instance desc_null_preordered (key : A -> option Z) : Preordered (desc_null key).
Proof.
  split; unfold desc_null; intros x y.
  - destruct (key x), (key y); try done. by rewrite Z.compare_antisym.
  - intros z. destruct (key x), (key y), (key z); try done.
    rewrite !Z.compare_le_iff. lia.
Qed.

#[export] Instance then_by_preordered (c d : comparator A) :
  Preordered c -> Preordered d -> Preordered (c >> d).
Proof.
  intros Hc Hd. split; unfold then_by; intros x y.
  - rewrite (cmp_opp (c := c) x y). destruct (c x y); try done. apply cmp_opp.
  - intros z. pose proof (cmp_le_trans (c := c) x y z) as H1.
    pose proof (cmp_le_trans (c := c) y z x) as H2. pose proof (cmp_le_trans (c := c) z x y) as H3.
    rewrite (cmp_opp (c := c) x y) in H2. rewrite (cmp_opp (c := c) y z) in H3.
    rewrite (cmp_opp (c := c) x z) in H2, H3.
    pose proof (cmp_le_trans (c := d) x y z) as H4.
    destruct (c x y), (c y z), (c x z); cbn in *; try done; try (intros; exfalso; naive_solver).
Qed.

Context (c : comparator A) `{!Preordered c}.

Lemma before_asym x y : before c x y = true -> before c y x = false.
Proof. unfold before. rewrite (cmp_opp x y). by destruct (c x y). Qed.

Lemma before_irrefl x : before c x x = false.
Proof. unfold before. pose proof (cmp_opp x x) as H. by destruct (c x x). Qed.

Lemma before_false x y : before c y x = false <-> c x y <> Gt.
Proof. unfold before. rewrite (cmp_opp x y). by destruct (c x y). Qed.

Lemma before_le_trans x y z :
  before c y x = false -> before c z y = false -> before c z x = false.
Proof. rewrite !before_false. apply cmp_le_trans. Qed.

(** The first row of an ordered selection precedes every other. *)
Lemma sorted_head l x r y :
  insertion_sort (before c) l = x :: r -> y ∈ l -> before c y x = false.
Proof.
  intros Hl Hy.
  pose proof (insertion_sort_sorted (before c) before_le_trans before_asym l) as Hs.
  rewrite Hl in Hs. inversion Hs as [|? ? _ HF]; subst.
  rewrite <- (insertion_sort_elem (before c)), Hl in Hy.
  apply elem_of_cons in Hy as [->|Hy]; [apply before_irrefl|].
  rewrite Forall_forall in HF. by apply HF.
Qed.

(** On rows no two of which tie, the order of a selection is determined. *)
Lemma sort_unique l1 l2 :
  l1 ≡ₚ l2 -> (forall x y, x ∈ l1 -> y ∈ l1 -> c x y = Eq -> x = y) ->
  insertion_sort (before c) l1 = insertion_sort (before c) l2.
Proof.
  intros Hp Ht.
  apply (StronglySorted_unique_strong (below (before c))).
  - intros x y Hx Hy. rewrite insertion_sort_elem in Hx, Hy. rewrite <- Hp in Hy.
    unfold below. rewrite !before_false. intros H1 H2. apply Ht; [done..|].
    rewrite (cmp_opp x y) in H2. by destruct (c x y).
  - apply insertion_sort_sorted; [apply before_le_trans|apply before_asym].
  - apply insertion_sort_sorted; [apply before_le_trans|apply before_asym].
  - by rewrite !insertion_sort_perm.
Qed.
End laws.
