(* ===== verification/Paging.v ===== *)
(** DISTINCT ON and keyset pages over ordered rows: the first row of each group
    is its least, and pages that start after the last row of the one before put
    together the whole listing. *)

From S2P Require Import Prelude GoString Order.
From stdpp Require Import sorting.
#[local] Open Scope Z_scope.

(** ** DISTINCT ON *)

(** The first row of each run of rows that agree. *)
Section distinct_on.
Context {A : Type} (same : A -> A -> bool).

Fixpoint distinct_after (last : A) (rows : list A) : list A :=
  match rows with
  | [] => []
  | x :: rest => if same last x then distinct_after last rest else x :: distinct_after x rest
  end.

Definition distinct_on (rows : list A) : list A :=
  match rows with [] => [] | x :: rest => x :: distinct_after x rest end.
End distinct_on.

Definition ties {A} (c : comparator A) (x y : A) : bool := match c x y with Eq => true | _ => false end.

(** Descending text. *)
Definition desc_text {A} (key : A -> string) : comparator A := fun x y => string_cmp (key y) (key x).

#[export] Instance desc_text_preordered {A} (key : A -> string) : Preordered (desc_text key).
Proof.
  split; unfold desc_text; intros x y.
  - apply (cmp_opp (c := asc_text key) y x).
  - intros z Hxy Hyz. by apply (cmp_le_trans (c := asc_text key) z y x).
Qed.

Section equal.
Context {A : Type} (c : comparator A) `{!Preordered c}.

Lemma ties_spec x y : ties c x y = true <-> c x y = Eq.
Proof. unfold ties. by destruct (c x y). Qed.

Lemma cmp_eq_sym x y : c x y = Eq -> c y x = Eq.
Proof. intros H. by rewrite (cmp_opp (c := c) x y), H. Qed.

Lemma cmp_eq_trans x y z : c x y = Eq -> c y z = Eq -> c x z = Eq.
Proof.
  intros H1 H2. pose proof (cmp_le_trans x y z) as Ha. pose proof (cmp_le_trans z y x) as Hb.
  rewrite (cmp_eq_sym _ _ H1), (cmp_eq_sym _ _ H2), (cmp_opp (c := c) x z) in Hb. rewrite H1, H2 in Ha.
  destruct (c x z); cbn in *; naive_solver.
Qed.

Lemma cmp_refl x : c x x = Eq.
Proof. pose proof (cmp_opp (c := c) x x) as H. by destruct (c x x). Qed.

Lemma cmp_lt_trans_le x y z : c x y <> Gt -> c y z <> Gt -> c x z = Eq -> c x y = Eq.
Proof.
  intros Hxy Hyz Hxz. pose proof (cmp_le_trans y z x Hyz) as H. rewrite (cmp_eq_sym _ _ Hxz) in H.
  rewrite (cmp_opp (c := c) x y) in H. destruct (c x y); cbn in *; naive_solver.
Qed.
End equal.

Section groups.
Context {A : Type} (p r : comparator A) `{!Preordered p, !Preordered r}.
Abbreviation ordered := (StronglySorted (below (before (p >> r)))).
Implicit Types rows : list A.

(** Within one group, rows that tie are equal. *)
Definition separated (rows : list A) : Prop :=
  forall x y, x ∈ rows -> y ∈ rows -> p x y = Eq -> r x y = Eq -> x = y.

(** [x] is the least row of its group. *)
Definition least (rows : list A) (x : A) : Prop :=
  x ∈ rows /\ forall y, y ∈ rows -> p x y = Eq -> before r y x = false.

Lemma below_cases x y : below (before (p >> r)) x y -> p x y <> Gt /\ (p x y = Eq -> r x y <> Gt).
Proof. unfold below. rewrite before_false by exact _. unfold then_by. destruct (p x y); intuition congruence. Qed.

Lemma distinct_cons y rest : ordered (y :: rest) -> separated (y :: rest) ->
  (forall x, x ∈ distinct_after (ties p) y rest <-> p y x <> Eq /\ least rest x) ->
  forall x, x ∈ y :: distinct_after (ties p) y rest <-> least (y :: rest) x.
Proof.
  intros Ho Hs IH x. inversion Ho as [|? ? Hr Hy]; subst. rewrite Forall_forall in Hy.
  rewrite elem_of_cons, IH. split.
  - intros [->|[Hne [Hx Hm]]]; (split; [by repeat constructor|]).
    + intros z [->|Hz]%elem_of_cons Hp; [by apply before_irrefl|]. rewrite before_false by exact _.
      by apply (below_cases _ _ (Hy _ Hz)).
    + intros z [->|Hz]%elem_of_cons Hp; [|by apply Hm]. by apply (cmp_eq_sym p) in Hp.
  - intros [[->|Hx]%elem_of_cons Hm]; [by left|]. destruct (decide (p y x = Eq)) as [He|He]; [left|right].
    + destruct (below_cases _ _ (Hy _ Hx)) as [_ Hle]. symmetry. apply Hs; [by left|by right|done|].
      specialize (Hm y ltac:(by left) (cmp_eq_sym p _ _ He)). rewrite (before_false r) in Hm.
      specialize (Hle He). rewrite (cmp_opp (c := r) y x) in Hm. by destruct (r y x).
    + split; [done|]. split; [done|]. intros z Hz. apply Hm. by right.
Qed.

Lemma distinct_after_spec rows : forall last, ordered (last :: rows) -> separated (last :: rows) ->
  forall x, x ∈ distinct_after (ties p) last rows <-> p last x <> Eq /\ least rows x.
Proof.
  induction rows as [|y rest IH]; intros last Ho Hs x; cbn [distinct_after].
  { unfold least. rewrite !elem_of_nil. naive_solver. }
  inversion Ho as [|? ? Hrest Hlast]; subst. inversion Hrest as [|? ? Hr Hy]; subst.
  rewrite Forall_forall in Hy, Hlast. destruct (ties p last y) eqn:Et.
  - apply ties_spec in Et. rewrite IH.
    + unfold least. rewrite elem_of_cons. split; [intros (Hne & Hx & Hm)|intros (Hne & [->|Hx] & Hm)]; [|done|].
      * split; [done|]. split; [by right|]. intros z [->|Hz]%elem_of_cons Hp; [|by apply Hm].
        destruct Hne. by apply (cmp_eq_trans p _ y); [|apply (cmp_eq_sym p)].
      * split; [done|]. split; [done|]. intros z Hz. apply Hm. by right.
    + constructor; [done|]. apply Forall_forall. intros z Hz. apply Hlast. by right.
    + intros a b Ha Hb. apply Hs; [inversion Ha|inversion Hb]; subst; by repeat constructor.
  - rewrite (distinct_cons y rest Hrest).
    + split; [|by intros [_ ?]]. intros [Hx Hm]. split; [|by split].
      intros Hp. assert (Hly : p last y = Eq); [|apply ties_spec in Hly; congruence].
      apply elem_of_cons in Hx as [->|Hx]; [done|]. apply (cmp_lt_trans_le p _ _ x); [| |done].
      * apply (below_cases _ _ (Hlast y ltac:(by left))).
      * apply (below_cases _ _ (Hy x Hx)).
    + intros a b Ha Hb. apply Hs; by right.
    + apply IH; [done|]. intros a b Ha Hb. apply Hs; by right.
Qed.

(** What DISTINCT ON keeps of ordered rows. *)
Lemma distinct_on_spec rows : ordered rows -> separated rows ->
  forall x, x ∈ distinct_on (ties p) rows <-> least rows x.
Proof.
  destruct rows as [|y rest]; intros Ho Hs x; cbn [distinct_on].
  { unfold least. rewrite !elem_of_nil. naive_solver. }
  apply distinct_cons; [done|done|]. by apply distinct_after_spec.
Qed.

Lemma distinct_after_sublist last rows : distinct_after (ties p) last rows `sublist_of` rows.
Proof.
  revert last. induction rows as [|y rest IH]; intros last; cbn; [constructor|].
  destruct (ties p last y); [by constructor|]. by constructor.
Qed.

Lemma distinct_on_sublist rows : distinct_on (ties p) rows `sublist_of` rows.
Proof. destruct rows; cbn; [constructor|]. constructor. apply distinct_after_sublist. Qed.

(** The rows of least rank in their group, whatever order they are held in. *)
Lemma distinct_sorted_spec rows : separated rows ->
  forall x, x ∈ distinct_on (ties p) (insertion_sort (before (p >> r)) rows) <-> least rows x.
Proof.
  intros Hs x. rewrite distinct_on_spec.
  - unfold least. setoid_rewrite insertion_sort_elem. done.
  - apply insertion_sort_sorted; [apply before_le_trans, _|apply before_asym, _].
  - intros a b. rewrite !insertion_sort_elem. apply Hs.
Qed.

Lemma NoDup_distinct_sorted rows :
  NoDup rows -> NoDup (distinct_on (ties p) (insertion_sort (before (p >> r)) rows)).
Proof. intros H. eapply sublist_NoDup; [|apply distinct_on_sublist]. by rewrite insertion_sort_perm. Qed.
End groups.

(** ** Keyset pages *)

Section pages.
Context {A : Type} (c : comparator A) `{!Preordered c}.
Implicit Types rows : list A.

(** No two rows tie. *)
Definition total_on (rows : list A) : Prop := forall x y, x ∈ rows -> y ∈ rows -> c x y = Eq -> x = y.

Lemma filter_elem (P : A -> bool) rows x : x ∈ List.filter P rows <-> x ∈ rows /\ P x = true.
Proof. by rewrite !list_elem_of_In, filter_In. Qed.

Lemma filter_perm (P : A -> bool) l1 l2 : l1 ≡ₚ l2 -> List.filter P l1 ≡ₚ List.filter P l2.
Proof.
  induction 1 as [|x l1 l2 _ IH|x y l|l1 l2 l3 _ IH1 _ IH2]; cbn; [done| | |by rewrite IH1].
  - destruct (P x); [by constructor|done].
  - destruct (P x), (P y); try done. constructor.
Qed.

Lemma filter_sorted (R : A -> A -> Prop) (P : A -> bool) rows :
  StronglySorted R rows -> StronglySorted R (List.filter P rows).
Proof.
  induction 1 as [|x l Hs IH HF]; cbn; [constructor|]. destruct (P x); [|done]. constructor; [done|].
  rewrite Forall_forall in *. intros y [Hy _]%filter_elem. by apply HF.
Qed.

Lemma sorted_unique l1 l2 : l1 ≡ₚ l2 -> total_on l1 ->
  StronglySorted (below (before c)) l1 -> StronglySorted (below (before c)) l2 -> l1 = l2.
Proof.
  intros Hp Ht H1 H2. apply (StronglySorted_unique_strong (below (before c))); [|done..].
  intros x y Hx Hy. rewrite <- Hp in Hy. unfold below. rewrite !before_false by exact _. intros Ha Hb.
  apply Ht; [done..|]. rewrite (cmp_opp (c := c) x y) in Hb. by destruct (c x y).
Qed.

Lemma sort_sorted rows : StronglySorted (below (before c)) (insertion_sort (before c) rows).
Proof. apply insertion_sort_sorted; [apply before_le_trans, _|apply before_asym, _]. Qed.

(** Ordered rows of which no two tie ascend strictly. *)
Lemma sorted_strict l : total_on l -> NoDup l -> StronglySorted (below (before c)) l ->
  StronglySorted (fun x y => c x y = Lt) l.
Proof.
  intros Ht Hn Hs. induction Hs as [|x l Hs IH HF]; [constructor|]. apply NoDup_cons in Hn as [Hx Hn].
  constructor; [apply IH; [|done]; intros a b Ha Hb; apply Ht; by right|].
  rewrite Forall_forall in *. intros y Hy. specialize (HF y Hy). unfold below in HF. rewrite (before_false c) in HF.
  destruct (c x y) eqn:E; [|done|done]. apply Ht in E; [by subst|by left|by right].
Qed.

Lemma total_on_perm l1 l2 : l1 ≡ₚ l2 -> total_on l1 -> total_on l2.
Proof. intros Hp Ht x y. rewrite <- Hp. apply Ht. Qed.

Lemma sort_filter (P : A -> bool) rows : total_on rows ->
  insertion_sort (before c) (List.filter P rows) = List.filter P (insertion_sort (before c) rows).
Proof.
  intros Ht. apply sorted_unique.
  - rewrite insertion_sort_perm. apply filter_perm. by rewrite insertion_sort_perm.
  - intros x y. rewrite !insertion_sort_elem, !filter_elem. intros [Hx _] [Hy _]. by apply Ht.
  - apply sort_sorted.
  - apply filter_sorted, sort_sorted.
Qed.

(** The rows after [x], in order. *)
Lemma filter_after rows pre x post : NoDup rows -> total_on rows ->
  insertion_sort (before c) rows = pre ++ x :: post ->
  insertion_sort (before c) (List.filter (before c x) rows) = post.
Proof.
  intros Hnd Ht Hl. rewrite (sort_filter _ _ Ht), Hl. pose proof (sort_sorted rows) as Hs. rewrite Hl in Hs.
  assert (Hnd' : NoDup (pre ++ x :: post)) by (rewrite <- Hl, insertion_sort_perm; done).
  assert (Ht' : total_on (pre ++ x :: post)) by (rewrite <- Hl; eapply total_on_perm; [by rewrite insertion_sort_perm|done]).
  clear Hl Ht Hnd rows. induction pre as [|y pre IH].
  - cbn [app List.filter] in *. rewrite before_irrefl by exact _. inversion Hs as [|? ? _ HF]; subst.
    apply NoDup_cons in Hnd' as [Hx _]. rewrite Forall_forall in HF.
    assert (Hall : Forall (fun y => before c x y = true) post).
    { apply Forall_forall. intros y Hy. specialize (HF y Hy). unfold below in HF. rewrite (before_false c) in HF.
      unfold before. destruct (c x y) eqn:E; [|done|done]. apply Ht' in E; [by subst|by left|by right]. }
    clear -Hall. induction Hall as [|y l Hy _ IH]; cbn; [done|]. by rewrite Hy, IH.
  - cbn [app List.filter]. inversion Hs as [|? ? Hs' HF]; subst. rewrite Forall_app, Forall_cons in HF.
    destruct HF as (_ & Hx & _). unfold below in Hx. rewrite Hx. apply NoDup_cons in Hnd' as [_ Hnd'].
    apply IH; [done|done|]. intros a b Ha Hb. apply Ht'; by right.
Qed.

Lemma filter_true rows : List.filter (fun _ => true) rows = rows.
Proof. induction rows; cbn; congruence. Qed.
End pages.

(** ** Following the pages *)

(** A client that asks for page after page until there is none. *)
Section follow.
Context {A C : Type} (fetch : C -> option (list A * option C)).

Fixpoint follow (fuel : nat) (cursor : C) : option (list A) :=
  match fuel with
  | O => None
  | S fuel =>
      '(items, next) ← fetch cursor;
      match next with
      | None => Some items
      | Some cursor' => rest ← follow fuel cursor'; Some (items ++ rest)
      end
  end.
End follow.

Section exhaustive.
Context {A B C : Type} (fetch : C -> option (list B * option C)) (item : A -> B) (cursor_at : A -> C)
  (start : C) (limit : nat) (rows : list A).

(** The page after the rows [pre], where [post] is what is left. *)
Definition page_after (pre post : list A) : option (list B * option C) :=
  Some (item <$> take limit post,
        if (limit <? length post)%nat then cursor_at <$> last (take limit post) else None).
Definition cursor_after (pre : list A) : C := default start (cursor_at <$> last pre).

Context (Hlimit : (0 < limit)%nat)
  (Hfetch : forall pre post, rows = pre ++ post -> fetch (cursor_after pre) = page_after pre post).

Lemma follow_from fuel : forall pre post, rows = pre ++ post -> (length post < fuel)%nat ->
  follow fetch fuel (cursor_after pre) = Some (item <$> post).
Proof.
  induction fuel as [|fuel IH]; intros pre post Hr Hf; [lia|]. cbn [follow]. rewrite (Hfetch pre post Hr).
  unfold page_after. cbn [mbind option_bind]. destruct (Nat.ltb_spec limit (length post)) as [Hl|Hl].
  - pose proof (take_drop limit post) as Hs. pose proof (length_take_le post limit ltac:(lia)) as Hlen.
    destruct (last (take limit post)) as [x|] eqn:Ex.
    2: { apply last_None in Ex. rewrite Ex in Hlen. cbn in Hlen. lia. }
    assert (Hc : cursor_after (pre ++ take limit post) = cursor_at x).
    { unfold cursor_after. by rewrite last_app, Ex. }
    cbn [fmap option_fmap option_map]. rewrite <- Hc.
    rewrite (IH _ (drop limit post)); [|by rewrite <- app_assoc, Hs|rewrite length_drop; lia]. cbn. by rewrite <- fmap_app, Hs.
  - by rewrite take_ge.
Qed.

Lemma follow_all fuel : (length rows < fuel)%nat -> follow fetch fuel start = Some (item <$> rows).
Proof. intros Hf. by apply (follow_from fuel [] rows). Qed.
End exhaustive.
