(* ===== verification/Tables.v ===== *)
(** The relational tables the services share, with the column types of
    PostgreSQL: NUMERIC(38,18) values as integers scaled by 10^18, TIMESTAMPTZ
    at microsecond resolution, UUID as canonical text
    (db/migrations/00001, 00003, 00004, 00006, 00007; the row types sqlc
    generates from them are in internal/platform/database/models.go). *)

From S2P Require Import Prelude GoString Digits GoTime Sha256 Decimal.
From Stdlib Require Import Ascii QArith.
#[local] Open Scope Z_scope.

(** ** Column types *)

(** NUMERIC(38,18): at most twenty integer digits.  Not-a-number and the
    infinities, which no service writes, are left out. *)
Definition numeric_fits (z : Z) : bool := Z.abs z <? 10 ^ 38.

(** Text to NUMERIC(38,18): PostgreSQL rounds half away from zero. *)
Definition numeric_in (text : string) : option Z :=
  match parse_rat text with
  | Some q => let z := round18 q in if numeric_fits z then Some z else None
  | None => None
  end.

(** A numeric parameter into a NUMERIC(38,18) column. *)
Definition numeric_column (q : Q) : option Z :=
  let z := round18 q in if numeric_fits z then Some z else None.

(** [column::text]: always eighteen fractional digits. *)
Definition numeric_out (z : Z) : string := fixed18 z.

(** A nullable column from a nullable parameter; [None] outside is an error. *)
Definition nullable {A} (cast : string -> option A) (v : option string) : option (option A) :=
  match v with
  | None => Some None
  | Some text => match cast text with Some a => Some (Some a) | None => None end
  end.

(** [length(btrim(text)) = 0]: nothing but spaces. *)
Definition btrim_blank (s : string) : bool := forallb (fun c => code c =? 32) (chars s).

(** The driver sends a timestamp in whole microseconds, rounding down. *)
Definition pg_time (t : time) : time := t / 1000 * 1000.

(** ** Rows *)

Record InstrumentRow : Set := mkInstrument {
  ins_symbol : string;
  ins_type : string;
  ins_native : string;
  ins_status : string;
}.

Record SnapshotRow : Set := mkSnapshot {
  ps_portfolio : string;
  ps_captured_at : time;
}.

Record SnapshotLineRow : Set := mkSnapshotLine {
  sl_snapshot : string;
  sl_account : string;
  sl_instrument : string;
  sl_quantity : Z;
}.

Record PriceRow : Set := mkPriceRow {
  pr_instrument : string;
  pr_quote : string;
  pr_observation : time;
  pr_price : Z;
  pr_source_known : option time;
  pr_system_known : time;
  pr_raw : string;
}.

Record FXRow : Set := mkFXRow {
  fx_base : string;
  fx_quote : string;
  fx_observation : time;
  fx_rate : Z;
  fx_source_known : option time;
  fx_system_known : time;
  fx_raw : string;
}.

Record Reason : Set := mkReason { ReasonCode : string; ReasonMessage : string }.

#[export] Instance Reason_eq_dec : EqDecision Reason.
Proof. solve_decision. Defined.

Record ValuationRunRow : Set := mkValuationRun {
  vr_snapshot : string;
  vr_cutoff : time;
  vr_knowledge_mode : string;
  vr_known_at : time;
  vr_price_max_age : Z;
  vr_fx_max_age : Z;
  vr_request : string;
  vr_state : string;
  vr_result_hash : string;
  vr_created_at : time;
}.

(** The JSONB column [reason_codes] is held as the list it encodes. *)
Record ValuationLineRow : Set := mkValuationLine {
  vl_run : string;
  vl_snapshot_line : string;
  vl_native_currency : string;
  vl_native_amount : option Z;
  vl_try_amount : option Z;
  vl_usd_amount : option Z;
  vl_state : string;
  vl_reasons : list Reason;
  vl_price_method : string;
  vl_price_revision : option string;
  vl_price_quote_unit : option string;
  vl_try_ids : list string;
  vl_try_directions : list string;
  vl_usd_ids : list string;
  vl_usd_directions : list string;
}.

Record ToleranceRow : Set := mkToleranceRow {
  tv_account : string;
  tv_version : Z;
  tv_amount : Z;
  tv_created_at : time;
}.

Record CheckpointRow : Set := mkCheckpointRow {
  cp_valuation : string;
  cp_account : string;
  cp_source_label : string;
  cp_currency : string;
  cp_cutoff : time;
  cp_external_nav : Z;
  cp_valuation_nav : Z;
  cp_absolute : Z;
  cp_relative : option Z;
  cp_tolerance : Z;
  cp_tolerance_version : Z;
  cp_state : string;
  cp_reason : option string;
  cp_line_state : string;
  cp_created_at : time;
}.

Record LineCheckRow : Set := mkLineCheckRow {
  lc_checkpoint : string;
  lc_snapshot_line : string;
  lc_external : Z;
  lc_valuation : Z;
  lc_difference : Z;
  lc_absolute : Z;
}.

Record tables : Type := mkTables {
  instruments : gmap string InstrumentRow;
  portfolios : gmap string string;          (* reporting currency *)
  accounts : gmap string string;            (* portfolio *)
  snapshots : gmap string SnapshotRow;
  snapshot_lines : gmap string SnapshotLineRow;
  prices : gmap string PriceRow;
  fx_quotes : gmap string FXRow;
  valuation_runs : gmap string ValuationRunRow;
  valuation_lines : gmap string ValuationLineRow;
  tolerances : gmap string ToleranceRow;
  checkpoints : gmap string CheckpointRow;
  line_checks : gmap string LineCheckRow;
}.

Definition empty_tables : tables := mkTables ∅ ∅ ∅ ∅ ∅ ∅ ∅ ∅ ∅ ∅ ∅ ∅.

Definition set_valuation_runs (s : tables) m :=
  mkTables (instruments s) (portfolios s) (accounts s) (snapshots s) (snapshot_lines s)
    (prices s) (fx_quotes s) m (valuation_lines s) (tolerances s) (checkpoints s)
    (line_checks s).
Definition set_valuation_lines (s : tables) m :=
  mkTables (instruments s) (portfolios s) (accounts s) (snapshots s) (snapshot_lines s)
    (prices s) (fx_quotes s) (valuation_runs s) m (tolerances s) (checkpoints s)
    (line_checks s).
Definition set_tolerances (s : tables) m :=
  mkTables (instruments s) (portfolios s) (accounts s) (snapshots s) (snapshot_lines s)
    (prices s) (fx_quotes s) (valuation_runs s) (valuation_lines s) m (checkpoints s)
    (line_checks s).
Definition set_checkpoints (s : tables) m :=
  mkTables (instruments s) (portfolios s) (accounts s) (snapshots s) (snapshot_lines s)
    (prices s) (fx_quotes s) (valuation_runs s) (valuation_lines s) (tolerances s) m
    (line_checks s).
Definition set_line_checks (s : tables) m :=
  mkTables (instruments s) (portfolios s) (accounts s) (snapshots s) (snapshot_lines s)
    (prices s) (fx_quotes s) (valuation_runs s) (valuation_lines s) (tolerances s)
    (checkpoints s) m.

(** ** Queries *)

(** The rows of a table satisfying a condition, in an order. *)
Definition select {R} (p : string -> R -> bool) (before : string * R -> string * R -> bool)
    (m : gmap string R) : list (string * R) :=
  insertion_sort before (List.filter (fun kv => p (fst kv) (snd kv)) (map_to_list m)).

Lemma select_elem {R} (p : string -> R -> bool) before m k r :
  (k, r) ∈ select p before m <-> m !! k = Some r /\ p k r = true.
Proof.
  unfold select. rewrite insertion_sort_elem, list_elem_of_In, filter_In.
  rewrite <- list_elem_of_In, elem_of_map_to_list. done.
Qed.

Lemma NoDup_select {R} (p : string -> R -> bool) before m : NoDup (fst <$> select p before m).
Proof.
  unfold select. rewrite insertion_sort_perm.
  pose proof (NoDup_fst_map_to_list m) as H. revert H.
  induction (map_to_list m) as [|[k x] l IH]; [done|].
  rewrite fmap_cons, NoDup_cons. intros [Hx Hl]. cbn [List.filter fst snd].
  destruct (p k x); [|by apply IH]. rewrite fmap_cons, NoDup_cons. split; [|by apply IH].
  intros Hin. apply Hx. apply list_elem_of_fmap in Hin as (y & Hy & Hin).
  apply list_elem_of_fmap. exists y. split; [done|].
  rewrite list_elem_of_In, filter_In in Hin. apply list_elem_of_In. apply Hin.
Qed.

Lemma numeric_in_out z : numeric_fits z = true -> numeric_in (numeric_out z) = Some z.
Proof. intros H. unfold numeric_in, numeric_out. by rewrite parse_fixed18, round18_exact, H. Qed.

Lemma pg_time_le t : pg_time t <= t.
Proof. unfold pg_time. pose proof (Z.div_mod t 1000 ltac:(lia)). pose proof (Z.mod_pos_bound t 1000 ltac:(lia)). lia. Qed.

Lemma pg_time_idemp t : pg_time (pg_time t) = pg_time t.
Proof. unfold pg_time. by rewrite Z.div_mul. Qed.
