(* ===== verification/JsonTree.v ===== *)
(** Parsed JSON documents and the parts of [encoding/json] decoding the program
    uses.  A raw message is an [option json]: [None] when it is empty or not
    valid JSON; object entries are in document order, repeated names kept. *)

From S2P Require Import Prelude GoString.

#[local] Set Warnings "-register-all".
Inductive json : Type :=
  | JNull
  | JBool (b : bool)
  | JNumber (text : string)
  | JString (s : string)
  | JArray (l : list json)
  | JObject (fields : list (string * json)).

#[global] Instance json_eq_dec : EqDecision json.
Proof.
  refine (fix go a b := let _ : EqDecision json := @go in
    match a, b with
    | JNull, JNull => left eq_refl
    | JBool x, JBool y => cast_if (decide (x = y))
    | JNumber x, JNumber y => cast_if (decide (x = y))
    | JString x, JString y => cast_if (decide (x = y))
    | JArray x, JArray y => cast_if (decide (x = y))
    | JObject x, JObject y => cast_if (decide (x = y))
    | _, _ => right _
    end); abstract congruence.
Defined.

(** Decoding an object into a Go map keeps the last of repeated names. *)
Definition map_field (fields : list (string * json)) (name : string) : option json :=
  fold_left (fun acc kv => if bool_decide (fst kv = name) then Some (snd kv) else acc) fields None.

(** The word [UnmarshalTypeError] uses for a value. *)
Definition kind_name (j : json) : string :=
  match j with
  | JNull => "null" | JBool _ => "bool" | JNumber _ => "number" | JString _ => "string"
  | JArray _ => "array" | JObject _ => "object"
  end.

(** Decoding into a string: [null] leaves the variable as it is. *)
Definition decode_string (current : string) (j : json) : option string :=
  match j with
  | JNull => Some current
  | JString s => Some s
  | _ => None
  end.
