(* ===== verification/JsonText.v ===== *)
(** JSON texts: the scanner of [encoding/json], decoding into parsed documents
    ([JsonTree.json]) and into the raw fields of an object, and the compact form
    the encoder gives raw messages.

    A nested value is read with one unit of fuel per level of the grammar and
    per element; twice the length of the text is always enough
    ([parse_value_enough]), since every two calls consume a character.  Go stops at ten thousand levels of nesting, far
    above what the program reads; the model has no such bound. *)

From S2P Require Import Prelude GoString Json JsonTree.
From Stdlib Require Import Ascii.

Definition is_ws (c : ascii) : bool :=
  let b := code c in (b =? 32) || (b =? 9) || (b =? 10) || (b =? 13).

Fixpoint skip_ws (s : list ascii) : list ascii :=
  match s with
  | c :: r => if is_ws c then skip_ws r else s
  | [] => []
  end.

(** ** Strings *)

Definition quote_char : ascii := chr 34.
Definition backslash : ascii := chr 92.

(** The part of a string literal after its opening quote: its raw content and
    what follows the closing quote. *)
Fixpoint scan_string (s : list ascii) : option (list ascii * list ascii) :=
  match s with
  | [] => None
  | c :: r =>
      if Ascii.eqb c quote_char then Some ([], r)
      else if Ascii.eqb c backslash then
        match r with
        | [] => None
        | e :: r1 =>
            if existsb (Ascii.eqb e) (chars "bfnrt\/" ++ [quote_char]) then
              '(raw, rest) ← scan_string r1; Some (c :: e :: raw, rest)
            else if Ascii.eqb e "u" then
              match r1 with
              | h1 :: h2 :: h3 :: h4 :: r2 =>
                  if forallb is_hex [h1; h2; h3; h4]
                  then '(raw, rest) ← scan_string r2; Some (c :: e :: h1 :: h2 :: h3 :: h4 :: raw, rest)
                  else None
              | _ => None
              end
            else None
        end
      else if code c <? 32 then None
      else '(raw, rest) ← scan_string r; Some (c :: raw, rest)
  end.

Definition hex_val (c : ascii) : Z :=
  if is_digit c then code c - 48
  else if is_lower c then code c - 87 else code c - 55.

Definition hex4 (h1 h2 h3 h4 : ascii) : Z :=
  ((hex_val h1 * 16 + hex_val h2) * 16 + hex_val h3) * 16 + hex_val h4.

(** [utf8.EncodeRune] for a code point that is not a surrogate. *)
Definition encode_rune (r : Z) : list ascii :=
  if r <? 128 then [chr r]
  else if r <? 2048 then [chr (192 + r / 64); chr (128 + r mod 64)]
  else if r <? 65536 then [chr (224 + r / 4096); chr (128 + r / 64 mod 64); chr (128 + r mod 64)]
  else [chr (240 + r / 262144); chr (128 + r / 4096 mod 64); chr (128 + r / 64 mod 64); chr (128 + r mod 64)].

Definition replacement : list ascii := [chr 239; chr 191; chr 189].

Definition is_surrogate (r : Z) : bool := (55296 <=? r) && (r <? 57344).

Definition escaped (e : ascii) : ascii :=
  if Ascii.eqb e "b" then chr 8 else if Ascii.eqb e "f" then chr 12
  else if Ascii.eqb e "n" then chr 10 else if Ascii.eqb e "r" then chr 13
  else if Ascii.eqb e "t" then chr 9 else e.

(** The text a raw string content denotes; what is not valid UTF-8 or a lone
    surrogate is replaced. *)
Fixpoint unquote (fuel : nat) (s : list ascii) : list ascii :=
  match fuel, s with
  | S fuel, c :: r =>
      if Ascii.eqb c backslash then
        match r with
        | e :: r1 =>
            if Ascii.eqb e "u" then
              match r1 with
              | h1 :: h2 :: h3 :: h4 :: r2 =>
                  let u := hex4 h1 h2 h3 h4 in
                  if is_surrogate u then
                    match r2 with
                    | b :: v :: g1 :: g2 :: g3 :: g4 :: r3 =>
                        let w := hex4 g1 g2 g3 g4 in
                        if Ascii.eqb b backslash && Ascii.eqb v "u"
                           && forallb is_hex [g1; g2; g3; g4]
                           && (u <? 56320) && (56320 <=? w) && (w <? 57344)
                        then encode_rune ((u - 55296) * 1024 + (w - 56320) + 65536) ++ unquote fuel r3
                        else replacement ++ unquote fuel r2
                    | _ => replacement ++ unquote fuel r2
                    end
                  else encode_rune u ++ unquote fuel r2
              | _ => []
              end
            else escaped e :: unquote fuel r1
        | [] => []
        end
      else if code c <? 128 then c :: unquote fuel r
      else match utf8_width (code <$> s) with
           | O => replacement ++ unquote fuel r
           | n => take n s ++ unquote fuel (drop n s)
           end
  | _, _ => []
  end.

Definition decode_raw_string (raw : list ascii) : string := of_chars (unquote (length raw) raw).

(** ** Numbers *)

Fixpoint take_digits (s : list ascii) : list ascii * list ascii :=
  match s with
  | c :: r => if is_digit c then let '(a, b) := take_digits r in (c :: a, b) else ([], s)
  | [] => ([], [])
  end.

(** At least one digit. *)
Definition some_digits (s : list ascii) : option (list ascii * list ascii) :=
  match take_digits s with ([], _) => None | p => Some p end.

Definition scan_int (s : list ascii) : option (list ascii * list ascii) :=
  match s with
  | c :: r => if Ascii.eqb c "0" then Some ([c], r) else some_digits s
  | [] => None
  end.

Definition scan_frac (s : list ascii) : option (list ascii * list ascii) :=
  match s with
  | c :: r => if Ascii.eqb c "." then '(d, rest) ← some_digits r; Some (c :: d, rest) else Some ([], s)
  | [] => Some ([], [])
  end.

Definition scan_exp (s : list ascii) : option (list ascii * list ascii) :=
  match s with
  | c :: r =>
      if Ascii.eqb c "e" || Ascii.eqb c "E" then
        let '(sign, r1) := match r with
                           | g :: r1 => if Ascii.eqb g "+" || Ascii.eqb g "-" then ([g], r1) else ([], r)
                           | [] => ([], [])
                           end in
        '(d, rest) ← some_digits r1; Some (c :: sign ++ d, rest)
      else Some ([], s)
  | [] => Some ([], [])
  end.

Definition scan_number (s : list ascii) : option (list ascii * list ascii) :=
  let '(sign, s) := match s with
                    | c :: r => if Ascii.eqb c "-" then ([c], r) else ([], s)
                    | [] => ([], [])
                    end in
  '(i, s) ← scan_int s;
  '(f, s) ← scan_frac s;
  '(e, s) ← scan_exp s;
  Some (sign ++ i ++ f ++ e, s).

(** ** Values *)

Fixpoint parse_value (fuel : nat) (s : list ascii) : option (json * list ascii) :=
  match fuel with
  | O => None
  | S fuel =>
      match skip_ws s with
      | [] => None
      | c :: r =>
          if Ascii.eqb c "{" then
            match skip_ws r with
            | d :: r1 => if Ascii.eqb d "}" then Some (JObject [], r1)
                         else '(m, rest) ← parse_members fuel r; Some (JObject m, rest)
            | [] => None
            end
          else if Ascii.eqb c "[" then
            match skip_ws r with
            | d :: r1 => if Ascii.eqb d "]" then Some (JArray [], r1)
                         else '(l, rest) ← parse_elements fuel r; Some (JArray l, rest)
            | [] => None
            end
          else if Ascii.eqb c quote_char then
            '(raw, rest) ← scan_string r; Some (JString (decode_raw_string raw), rest)
          else
            match strip_prefix (chars "null") (c :: r), strip_prefix (chars "true") (c :: r),
                  strip_prefix (chars "false") (c :: r) with
            | Some rest, _, _ => Some (JNull, rest)
            | _, Some rest, _ => Some (JBool true, rest)
            | _, _, Some rest => Some (JBool false, rest)
            | _, _, _ => '(n, rest) ← scan_number (c :: r); Some (JNumber (of_chars n), rest)
            end
      end
  end
with parse_members (fuel : nat) (s : list ascii) : option (list (string * json) * list ascii) :=
  match fuel with
  | O => None
  | S fuel =>
      match skip_ws s with
      | q :: r =>
          if Ascii.eqb q quote_char then
            '(raw, r1) ← scan_string r;
            match skip_ws r1 with
            | k :: r2 =>
                if Ascii.eqb k ":" then
                  '(v, r3) ← parse_value fuel r2;
                  match skip_ws r3 with
                  | d :: r4 =>
                      if Ascii.eqb d "}" then Some ([(decode_raw_string raw, v)], r4)
                      else if Ascii.eqb d "," then
                        '(m, rest) ← parse_members fuel r4; Some ((decode_raw_string raw, v) :: m, rest)
                      else None
                  | [] => None
                  end
                else None
            | [] => None
            end
          else None
      | [] => None
      end
  end
with parse_elements (fuel : nat) (s : list ascii) : option (list json * list ascii) :=
  match fuel with
  | O => None
  | S fuel =>
      '(v, r1) ← parse_value fuel s;
      match skip_ws r1 with
      | d :: r2 =>
          if Ascii.eqb d "]" then Some ([v], r2)
          else if Ascii.eqb d "," then '(l, rest) ← parse_elements fuel r2; Some (v :: l, rest)
          else None
      | [] => None
      end
  end.

Definition value_fuel (s : list ascii) : nat := 2 * length s + 2.

(** The document a whole text holds: [None] when it is empty or malformed. *)
Definition parse_json (text : string) : option json :=
  let s := chars text in
  '(v, rest) ← parse_value (value_fuel s) s;
  match skip_ws rest with [] => Some v | _ => None end.

(** ** Raw messages *)

(** The text of the value that starts here, and what follows it. *)
Definition scan_value (s : list ascii) : option (string * list ascii) :=
  let s := skip_ws s in
  '(_, rest) ← parse_value (value_fuel s) s;
  Some (of_chars (take (length s - length rest) s), rest).

(** The members of an object, after its brace, with the text of each value. *)
Fixpoint raw_members (fuel : nat) (s : list ascii) : option (list (string * string)) :=
  match fuel with
  | O => None
  | S fuel =>
      match skip_ws s with
      | q :: r =>
          if Ascii.eqb q quote_char then
            '(raw, r1) ← scan_string r;
            match skip_ws r1 with
            | k :: r2 =>
                if Ascii.eqb k ":" then
                  '(v, r3) ← scan_value r2;
                  match skip_ws r3 with
                  | d :: r4 =>
                      if Ascii.eqb d "," then
                        m ← raw_members fuel r4; Some ((decode_raw_string raw, v) :: m)
                      else Some [(decode_raw_string raw, v)]
                  | [] => None
                  end
                else None
            | [] => None
            end
          else None
      | [] => None
      end
  end.

(** [json.Unmarshal] of a text into a [map[string]json.RawMessage] held empty:
    an error for a malformed text or another kind of value; [null] leaves the
    map nil.  Repeated names keep the last value. *)
Inductive raw_map : Type :=
  | RawError
  | RawNil
  | RawMap (m : gmap string string).

Definition unmarshal_raw_map (text : string) : raw_map :=
  match parse_json text with
  | Some JNull => RawNil
  | Some (JObject []) => RawMap ∅
  | Some (JObject _) =>
      match skip_ws (chars text) with
      | _ :: r =>
          match raw_members (length r) r with
          | Some m => RawMap (fold_left (fun acc kv => <[fst kv := snd kv]> acc) m ∅)
          | None => RawError
          end
      | [] => RawError
      end
  | _ => RawError
  end.

(** The compact form: white space outside strings is dropped, and the characters
    hidden from HTML are escaped. *)
Definition hide_html (s : list ascii) : option (list ascii * nat) :=
  match code <$> take 3 s with
  | b :: bs =>
      if (b =? 60) || (b =? 62) || (b =? 38)
      then Some (chars "\u00" ++ [Sha256.hex_digit (b / 16); Sha256.hex_digit (b mod 16)], 0%nat)
      else if bool_decide (b :: bs = [226; 128; 168]) then Some (chars "\u2028", 2%nat)
      else if bool_decide (b :: bs = [226; 128; 169]) then Some (chars "\u2029", 2%nat)
      else None
  | [] => None
  end.

(** [skip] characters have been accounted for already. *)
Fixpoint compact_from (in_string escape : bool) (skip : nat) (s : list ascii) : list ascii :=
  match s with
  | [] => []
  | c :: r =>
      match skip with
      | S skip => compact_from in_string escape skip r
      | O =>
          match hide_html s with
          | Some (t, n) => t ++ compact_from in_string false n r
          | None =>
              if in_string then
                if escape then c :: compact_from true false 0 r
                else if Ascii.eqb c backslash then c :: compact_from true true 0 r
                else c :: compact_from (negb (Ascii.eqb c quote_char)) false 0 r
              else if is_ws c then compact_from false false 0 r
              else c :: compact_from (Ascii.eqb c quote_char) false 0 r
          end
      end
  end.

Definition compact (text : string) : string := of_chars (compact_from false false 0 (chars text)).

(** Examples. *)
Definition dq : string := of_chars [quote_char].
Definition quoted (s : string) : string := dq +:+ s +:+ dq.

Example parse_json_ex :
  parse_json ("{ " +:+ quoted "a\u0041" +:+ " : [1.5e3, true ,null], " +:+ quoted "b" +:+ ":{}} ")
  = Some (JObject [("aA", JArray [JNumber "1.5e3"; JBool true; JNull]); ("b", JObject [])]).
Proof. vm_compute. reflexivity. Qed.

Example parse_json_bad :
  (parse_json "{} x", parse_json "01", parse_json ("[1,]"), parse_json "", parse_json (dq +:+ "a"))
  = (None, None, None, None, None).
Proof. vm_compute. reflexivity. Qed.

Example raw_map_ex :
  match unmarshal_raw_map ("{" +:+ quoted "x" +:+ ": [ 1 , 2 ] ," +:+ quoted "x" +:+ ": 3 }") with
  | RawMap m => m !! "x" | _ => None end = Some "3".
Proof. vm_compute. reflexivity. Qed.

Example compact_ex :
  compact ("{ " +:+ quoted "a < b" +:+ " : [ 1 , 2 ] }") = "{" +:+ quoted "a \u003c b" +:+ ":[1,2]}".
Proof. vm_compute. reflexivity. Qed.

(** ** Fuel

    Readers consume their input, and the fuel given is enough. *)

(** Follow a reader from its outermost decision. *)
Ltac split_read H :=
  repeat lazymatch type of H with
  | None = Some _ => discriminate H
  | Some _ = Some _ => injection H; clear H; intros; subst
  | mbind _ ?x = _ => destruct x as [[? ?]|] eqn:?; cbn [mbind option_bind] in H
  | match ?x with _ => _ end = _ => destruct x eqn:?
  end.

Lemma skip_ws_length s : (length (skip_ws s) <= length s)%nat.
Proof. induction s as [|c r IH]; cbn; [done|]. destruct (is_ws c); cbn; lia. Qed.

Lemma scan_string_length s raw rest : scan_string s = Some (raw, rest) -> (length rest < length s)%nat.
Proof.
  enough (H : forall n s raw rest, (length s <= n)%nat -> scan_string s = Some (raw, rest) -> (length rest < length s)%nat).
  { by apply (H (length s)). }
  clear. induction n as [|n IH]; intros [|c r] raw rest Hn; cbn [length] in *; try lia; try done.
  intros H. cbn [scan_string] in H. split_read H; cbn [length] in *; try lia;
    match goal with E : scan_string _ = Some _ |- _ => apply IH in E end; cbn [length] in *; lia.
Qed.

Lemma take_digits_length s a b : take_digits s = (a, b) -> (length a + length b = length s)%nat.
Proof.
  revert a b. induction s as [|c r IH]; cbn; intros a b; [intros [= <- <-]; done|].
  destruct (is_digit c); [|intros [= <- <-]; done]. destruct (take_digits r) as [x y] eqn:E.
  intros [= <- <-]. cbn. specialize (IH _ _ eq_refl). lia.
Qed.

Lemma some_digits_length s a b : some_digits s = Some (a, b) -> (length b < length s)%nat.
Proof.
  unfold some_digits. destruct (take_digits s) as [[|x a'] b'] eqn:E; [done|]. intros [= <- <-].
  apply take_digits_length in E. cbn in E. lia.
Qed.

Lemma scan_number_length s n rest : scan_number s = Some (n, rest) -> (length rest < length s)%nat.
Proof.
  unfold scan_number. intros H.
  destruct (match s with c :: r => if Ascii.eqb c "-" then ([c], r) else ([], s) | [] => ([], []) end) as [sign s0] eqn:Es.
  assert (H0 : (length s0 <= length s)%nat).
  { destruct s as [|c r]; [by injection Es as <- <-|]. destruct (Ascii.eqb c "-"); injection Es as <- <-; cbn; lia. }
  clear Es. destruct (scan_int s0) as [[i s1]|] eqn:E1; [|done]. cbn [mbind option_bind] in H.
  destruct (scan_frac s1) as [[f s2]|] eqn:E2; [|done]. cbn [mbind option_bind] in H.
  destruct (scan_exp s2) as [[e s3]|] eqn:E3; [|done]. cbn [mbind option_bind] in H. injection H as <- <-.
  assert (H1 : (length s1 < length s0)%nat).
  { unfold scan_int in E1. split_read E1; [cbn; lia|]. by eapply some_digits_length. }
  assert (H2 : (length s2 <= length s1)%nat).
  { unfold scan_frac in E2. split_read E2; cbn; try lia.
    match goal with E : some_digits _ = _ |- _ => apply some_digits_length in E end. lia. }
  enough (length s3 <= length s2)%nat by lia. unfold scan_exp in E3.
  destruct s2 as [|c l]; [by injection E3 as <- <-|]. destruct (_ || _) in E3; [|by injection E3 as <- <-].
  destruct (match l with [] => _ | _ => _ end) as [g r1] eqn:Eg.
  assert (Hr : (length r1 <= length l)%nat).
  { destruct l as [|x l']; [by injection Eg as <- <-|]. destruct (_ || _) in Eg; injection Eg as <- <-; cbn; lia. }
  destruct (some_digits r1) as [[d r2]|] eqn:E; [|done]. cbn [mbind option_bind] in E3. injection E3 as <- <-.
  apply some_digits_length in E. cbn [length]. lia.
Qed.

Lemma strip_prefix_length p s r : strip_prefix p s = Some r -> p <> [] -> (length r < length s)%nat.
Proof. intros ->%strip_prefix_Some Hp. rewrite length_app. destruct p; [done|]. cbn. lia. Qed.

(** What is left after a value is shorter, and more fuel changes nothing. *)
Definition shrinks {A} (f : list ascii -> option (A * list ascii)) : Prop :=
  forall s a rest, f s = Some (a, rest) -> (length rest < length s)%nat.

Lemma parse_shrinks n :
  shrinks (parse_value n) /\ shrinks (parse_members n) /\ shrinks (parse_elements n).
Proof.
  induction n as [|n (IHv & IHm & IHe)]; [by split_and!|]. split_and!; intros s a rest H;
    cbn [parse_value parse_members parse_elements] in H;
    pose proof (skip_ws_length s); split_read H;
    repeat match goal with
    | E : strip_prefix _ _ = Some _ |- _ => apply strip_prefix_length in E; [|done]
    | E : scan_string _ = Some _ |- _ => apply scan_string_length in E
    | E : scan_number _ = Some _ |- _ => apply scan_number_length in E
    | E : parse_value _ _ = Some _ |- _ => apply IHv in E
    | E : parse_members _ _ = Some _ |- _ => apply IHm in E
    | E : parse_elements _ _ = Some _ |- _ => apply IHe in E
    | E : skip_ws ?x = _ :: _ |- _ => pose proof (skip_ws_length x); rewrite E in *; clear E
    end; cbn [length] in *; lia.
Qed.

(** The two readers agree as long as both have enough fuel. *)
Definition enough {A} (k : nat) (f : nat -> list ascii -> A) (n : nat) : Prop :=
  forall m s, (2 * length s + k <= n)%nat -> (2 * length s + k <= m)%nat -> f n s = f m s.

Lemma parse_fuel n : enough 1 parse_value n /\ enough 2 parse_members n /\ enough 2 parse_elements n.
Proof.
  induction n as [|n (IHv & IHm & IHe)]; [split_and!; intros m s H; lia|].
  split_and!; intros [|m] s Hn Hm; try lia; cbn [parse_value parse_members parse_elements];
    pose proof (skip_ws_length s);
    repeat match goal with
    | |- ?x = ?x => reflexivity
    | |- match ?x with _ => _ end = match ?x with _ => _ end => destruct x eqn:?
    | |- mbind _ (scan_string ?x) = _ => destruct (scan_string x) as [[? ?]|] eqn:?; cbn [mbind option_bind]
    | |- mbind _ (parse_value n ?x) = mbind _ (parse_value m _) => rewrite (IHv m x) by (cbn [length] in *; lia)
    | |- mbind _ (parse_members n ?x) = mbind _ (parse_members m _) => rewrite (IHm m x) by (cbn [length] in *; lia)
    | |- mbind _ (parse_elements n ?x) = mbind _ (parse_elements m _) => rewrite (IHe m x) by (cbn [length] in *; lia)
    | |- mbind _ ?x = mbind _ ?x => destruct x as [[? ?]|] eqn:?; cbn [mbind option_bind]
    | E : skip_ws ?x = _ :: _ |- _ => pose proof (skip_ws_length x); rewrite E in *; clear E
    | E : scan_string _ = Some _ |- _ => apply scan_string_length in E
    | E : parse_value _ _ = Some _ |- _ => apply parse_shrinks in E
    end; cbn [length] in *.
Qed.

Lemma parse_value_enough n s : (2 * length s + 1 <= n)%nat -> parse_value n s = parse_value (value_fuel s) s.
Proof. intros Hn. apply parse_fuel; unfold value_fuel; lia. Qed.
