(* ===== verification/JsonQuote.v ===== *)
(** What the encoder writes is read back: string literals, and objects whose
    members are texts, both as parsed documents and as raw members. *)

From S2P Require Import Prelude GoString Sha256 Json JsonTree JsonText.
From Stdlib Require Import Ascii.

(** The members of a document decoded into a struct, in order, with the text of
    each value; [null] decodes to no member, other values are an error. *)
Definition unmarshal_members (text : string) : option (list (string * string)) :=
  match parse_json text with
  | Some JNull | Some (JObject []) => Some []
  | Some (JObject _) =>
      match skip_ws (chars text) with
      | _ :: r => raw_members (length r) r
      | [] => None
      end
  | _ => None
  end.

(** Decoding the text of a member into a string; [null] leaves it as it is. *)
Definition unmarshal_text (current raw : string) : option string := parse_json raw ≫= decode_string current.

(** ** String literals *)

(** [u] is what the encoder writes for [d]. *)
Definition quotes (u d : list ascii) : Prop :=
  u <> [] /\
  (forall t, scan_string (u ++ t) = ('(raw, rest) ← scan_string t; Some (u ++ raw, rest))) /\
  (forall n t, unquote (S n) (u ++ t) = d ++ unquote n t).

Inductive escaped_as : list ascii -> list ascii -> Prop :=
  | ea_nil : escaped_as [] []
  | ea_cons u d raw s : quotes u d -> escaped_as raw s -> escaped_as (u ++ raw) (d ++ s).

Lemma scan_escaped raw s t : escaped_as raw s -> scan_string (raw ++ quote_char :: t) = Some (raw, t).
Proof.
  induction 1 as [|u d raw s (_ & Hs & _) _ IH]; [done|]. by rewrite <- app_assoc, Hs, IH.
Qed.

Lemma unquote_escaped raw s : escaped_as raw s -> forall n, (length raw <= n)%nat -> unquote n raw = s.
Proof.
  induction 1 as [|u d raw s (Hu & _ & Hq) _ IH]; intros n Hn; [by destruct n|].
  rewrite length_app in Hn. destruct u as [|c u]; [done|]. cbn [length] in Hn. destruct n as [|n]; [lia|].
  rewrite Hq, IH by lia. done.
Qed.

Lemma quotes_ascii html c : code c < 128 -> quotes (escape_ascii html c) [c].
Proof.
  intros Hc. destruct html, c as [[] [] [] [] [] [] [] []]; try (exfalso; vm_compute in Hc; discriminate Hc);
    (split; [discriminate|split; [intros t; reflexivity|intros n t; reflexivity]]).
Qed.

Lemma quotes_separator (last : bool) :
  quotes (chars (if last then "\u2029" else "\u2028")) [chr 226; chr 128; chr (if last then 169 else 168)].
Proof. destruct last; (split; [discriminate|split; [intros t; reflexivity|intros n t; reflexivity]]). Qed.

Lemma high_not c : 128 <= code c ->
  Ascii.eqb c quote_char = false /\ Ascii.eqb c backslash = false /\ (code c <? 32) = false /\ (code c <? 128) = false.
Proof.
  intros H. split_and!; [apply Ascii.eqb_neq; intros ->; vm_compute in H; by apply H..|apply Z.ltb_ge; lia|apply Z.ltb_ge; lia].
Qed.

Lemma scan_high u t : Forall (fun c => 128 <= code c) u ->
  scan_string (u ++ t) = ('(raw, rest) ← scan_string t; Some (u ++ raw, rest)).
Proof.
  induction 1 as [|c u Hc Hu IH]; cbn [app]; [by destruct (scan_string t) as [[]|]|].
  destruct (high_not _ Hc) as (Hq & Hb & Hs & _). cbn [scan_string]. rewrite Hq, Hb, Hs, IH.
  by destruct (scan_string t) as [[]|].
Qed.

(** A multi-byte rune. *)
Lemma utf8_rune (s : list ascii) n : utf8_width (code <$> s) = S n -> (forall c r, s = c :: r -> 128 <= code c) ->
  Forall (fun c => 128 <= code c) (take (S n) s) /\ length (take (S n) s) = S n /\
  forall t, utf8_width (code <$> (take (S n) s ++ t)) = S n.
Proof.
  intros H Hh. destruct s as [|a r]; [done|]. specialize (Hh _ _ eq_refl). cbn [fmap list_fmap utf8_width] in H.
  destruct (Z.ltb_spec (code a) 128); [lia|].
  destruct ((194 <=? code a) && (code a <=? 223)) eqn:E2; [|destruct ((224 <=? code a) && (code a <=? 239)) eqn:E3;
    [|destruct ((240 <=? code a) && (code a <=? 244)) eqn:E4; [|done]]].
  - destruct r as [|b r]; [done|]. cbn [fmap list_fmap] in H. destruct (cont (code b)) eqn:Eb; [|done].
    injection H as <-. unfold cont in Eb. bool_simp. split_and!; [repeat constructor; lia|done|]. intros t. cbn.
    unfold cont. repeat (case_match; bool_simp; try lia).
  - destruct r as [|b [|c r]]; [done..|]. cbn [fmap list_fmap] in H. 
    match type of H with (if ?b then _ else _) = _ => destruct b eqn:Eb end; [|done].
    injection H as <-. split_and!; [|done|].
    + apply andb_prop in Eb as [Eb Ec]. unfold cont in *. repeat constructor; [lia| |bool_simp; lia].
      repeat (case_match; bool_simp); lia.
    + intros t. cbn. rewrite E2, E3, Eb. by destruct (Z.ltb_spec (code a) 128); [lia|].
  - destruct r as [|b [|c [|d r]]]; [done..|]. cbn [fmap list_fmap] in H.
    match type of H with (if ?b then _ else _) = _ => destruct b eqn:Eb end; [|done]. injection H as <-. split_and!; [|done|].
    + apply andb_prop in Eb as [Eb Ed]. apply andb_prop in Eb as [Eb Ec]. unfold cont in *. repeat constructor; [lia| |bool_simp; lia..].
      repeat (case_match; bool_simp); lia.
    + intros t. cbn. rewrite E2, E3, E4, Eb. by destruct (Z.ltb_spec (code a) 128); [lia|].
Qed.

Lemma quotes_rune s n : utf8_width (code <$> s) = S n -> (forall c r, s = c :: r -> 128 <= code c) ->
  quotes (take (S n) s) (take (S n) s).
Proof.
  intros H Hh. destruct (utf8_rune s n H Hh) as (Hall & Hl & Hw). set (u := take (S n) s) in *.
  split; [by intros Hu; rewrite Hu in Hl|]. split; [intros t; by apply scan_high|]. intros m t.
  clearbody u. destruct u as [|c v]; [done|]. inversion Hall as [|? ? Hc _]; subst.
  destruct (high_not _ Hc) as (_ & Hb & _ & Ha). specialize (Hw t). rewrite <- Hl in Hw. cbn [app unquote]. rewrite Hb, Ha.
  change (c :: v ++ t) with ((c :: v) ++ t). rewrite Hw.
  change (take (length (c :: v)) ((c :: v) ++ t) ++ unquote m (drop (length (c :: v)) ((c :: v) ++ t)) = c :: v ++ unquote m t).
  by rewrite take_app_length, drop_app_length.
Qed.

Lemma escape_escaped html fuel2 : forall fuel1 s, utf8_valid_from fuel1 (code <$> s) = true -> (length s <= fuel2)%nat ->
  escaped_as (escape html fuel2 s) s.
Proof.
  induction fuel2 as [|fuel2 IH]; intros fuel1 s Hv Hl.
  { destruct s; [constructor|cbn in Hl; lia]. }
  destruct s as [|c r]; [constructor|]. destruct fuel1 as [|fuel1]; [done|].
  cbn [utf8_valid_from fmap list_fmap] in Hv. cbn [escape]. cbn [length] in Hl.
  destruct (Z.ltb_spec (code c) 128) as [Hc|Hc].
  - change (c :: r) with ([c] ++ r). constructor; [by apply quotes_ascii|].
    apply (IH fuel1); [|lia]. unfold utf8_width in Hv. destruct (Z.ltb_spec (code c) 128); [|lia]. exact Hv.
  - change (code c :: (code <$> r)) with (code <$> (c :: r)) in Hv. fold (code <$> r).
    change (code c :: (code <$> r)) with (code <$> (c :: r)).
    destruct (utf8_width (code <$> (c :: r))) as [|n] eqn:Ew; [done|].
    assert (Hh : forall c0 r0, c :: r = c0 :: r0 -> 128 <= code c0) by (intros ? ? [= <- <-]; lia).
    pose proof (quotes_rune _ _ Ew Hh) as Hq. destruct (utf8_rune _ _ Ew Hh) as (_ & Hlen & _).
    assert (Hrest : escaped_as (escape html fuel2 (drop (S n) (c :: r))) (drop (S n) (c :: r))).
    { apply (IH fuel1); [by rewrite fmap_drop|rewrite length_drop; cbn [length]; lia]. }
    assert (Hsplit : c :: r = take (S n) (c :: r) ++ drop (S n) (c :: r)) by by rewrite take_drop.
    assert (Hplain : escaped_as (take (S n) (c :: r) ++ escape html fuel2 (drop (S n) (c :: r))) (c :: r)).
    { rewrite Hsplit at 3. by constructor. }
    assert (Hsep : forall last : bool, code <$> take (S n) (c :: r) = [226; 128; if last then 169 else 168] ->
      escaped_as (chars (if last then "\u2029" else "\u2028") ++ escape html fuel2 (drop (S n) (c :: r))) (c :: r)).
    { intros last Ht. rewrite Hsplit at 2. constructor; [|done].
      replace (take (S n) (c :: r)) with [chr 226; chr 128; chr (if last then 169 else 168)]; [apply quotes_separator|].
      destruct (take (S n) (c :: r)) as [|x [|y [|z [|? ?]]]]; cbn in Ht; try done. injection Ht as <- <- Hz.
      rewrite !chr_code. by rewrite <- Hz, chr_code. }
    destruct (code <$> take (S n) (c :: r)) as [|x [|y [|z [|? ?]]]] eqn:Et; try exact Hplain;
      repeat (case_match; try exact Hplain); subst; [by apply (Hsep true)|by apply (Hsep false)].
Qed.

Lemma encode_string_literal html s : utf8_valid s = true ->
  exists raw, chars (encode_string html s) = quote_char :: raw ++ [quote_char] /\
    (forall t, scan_string (raw ++ quote_char :: t) = Some (raw, t)) /\ decode_raw_string raw = s.
Proof.
  intros Hv. pose proof (escape_escaped html (String.length s) _ (chars s) Hv ltac:(rewrite <- length_chars; lia)) as He.
  exists (escape html (String.length s) (chars s)). unfold encode_string. rewrite chars_of_chars. split; [done|].
  split; [intros t; by eapply scan_escaped|]. unfold decode_raw_string. by rewrite (unquote_escaped _ _ He), of_chars_chars.
Qed.

Lemma parse_literal html s n t : utf8_valid s = true ->
  parse_value (S n) (chars (encode_string html s) ++ t) = Some (JString s, t).
Proof.
  intros Hv. destruct (encode_string_literal html s Hv) as (raw & -> & Hs & Hd). cbn [app parse_value skip_ws].
  change (is_ws quote_char) with false. cbn iota.
  change (Ascii.eqb quote_char "{") with false. change (Ascii.eqb quote_char "[") with false.
  change (Ascii.eqb quote_char quote_char) with true. cbn iota. rewrite <- app_assoc. cbn [app]. rewrite Hs. cbn. by rewrite Hd.
Qed.

Lemma scan_value_literal html s t : utf8_valid s = true ->
  scan_value (chars (encode_string html s) ++ t) = Some (encode_string html s, t).
Proof.
  intros Hv. unfold scan_value. replace (skip_ws _) with (chars (encode_string html s) ++ t).
  2: { destruct (encode_string_literal html s Hv) as (raw & -> & _). reflexivity. }
  unfold value_fuel. rewrite Nat.add_succ_r, (parse_literal html s _ t Hv). cbn [mbind option_bind].
  rewrite length_app, Nat.add_sub, take_app_length. by rewrite of_chars_chars.
Qed.

(** ** Objects of texts *)

(** The text of the members, after the opening brace. *)
Fixpoint member_chars (fields : list (string * string)) : list ascii :=
  match fields with
  | [] => ["}"%char]
  | kv :: rest =>
      chars (encode_string true (fst kv)) ++ ":"%char :: chars (encode_string true (snd kv)) ++
        match rest with [] => ["}"%char] | _ => ","%char :: member_chars rest end
  end.

Definition texts_valid (fields : list (string * string)) : Prop :=
  Forall (fun kv => utf8_valid (fst kv) = true /\ utf8_valid (snd kv) = true) fields.

Lemma marshal_texts ff fields :
  exists text, Marshal ff (VStruct ((fun kv => (fst kv, VStr (snd kv))) <$> fields)) = Some text /\
    chars text = "{"%char :: member_chars fields.
Proof.
  unfold Marshal. cbn [encode]. rewrite <- list_fmap_compose.
  replace (mapM _ _) with (Some ((fun kv => encode_string true (fst kv) +:+ ":" +:+ encode_string true (snd kv)) <$> fields)).
  - eexists. split; [reflexivity|]. cbn [mbind option_bind]. rewrite !chars_app. cbn [app].
    change (chars "{") with ["{"%char]. cbn [app]. f_equal.
    induction fields as [|kv [|kv' rest] IH]; [done| |].
    + cbn [fmap list_fmap join member_chars]. rewrite !chars_app. by rewrite <- !app_assoc.
    + change (member_chars (kv :: kv' :: rest)) with (chars (encode_string true (fst kv)) ++ ":"%char ::
        chars (encode_string true (snd kv)) ++ ","%char :: member_chars (kv' :: rest)).
      rewrite <- IH. cbn [fmap list_fmap join]. rewrite !chars_app. rewrite <- !app_assoc. reflexivity.
  - symmetry. apply mapM_Some. induction fields as [|kv rest IH]; [constructor|]. constructor; [done|exact IH].
Qed.

(** A literal read as the name of a member. *)
Lemma member_name name t : utf8_valid name = true ->
  exists raw, chars (encode_string true name) ++ ":"%char :: t = quote_char :: raw ++ quote_char :: ":"%char :: t /\
    scan_string (raw ++ quote_char :: ":"%char :: t) = Some (raw, ":"%char :: t) /\ decode_raw_string raw = name.
Proof.
  intros Hv. destruct (encode_string_literal true name Hv) as (raw & -> & Hs & Hd). exists raw.
  split; [|split; [apply Hs|exact Hd]]. cbn [app]. by rewrite <- app_assoc.
Qed.

Lemma member_chars_cons kv rest :
  member_chars (kv :: rest) = chars (encode_string true (fst kv)) ++ ":"%char :: (chars (encode_string true (snd kv)) ++
    match rest with [] => ["}"%char] | _ => ","%char :: member_chars rest end).
Proof. done. Qed.

Lemma parse_member_chars fields : fields <> [] -> texts_valid fields -> forall n, (length fields < n)%nat ->
  parse_members n (member_chars fields) = Some ((fun kv => (fst kv, JString (snd kv))) <$> fields, []).
Proof.
  intros Hne Hv. induction Hv as [|kv rest [Hk Hs] Hrest IH]; [done|]. intros [|n] Hn; cbn [length] in Hn; [lia|].
  rewrite member_chars_cons. destruct (member_name _ (chars (encode_string true (snd kv)) ++
    match rest with [] => ["}"%char] | _ => ","%char :: member_chars rest end) Hk) as (raw & -> & Hscan & Hname).
  cbn [parse_members skip_ws]. change (is_ws quote_char) with false. cbn iota. change (Ascii.eqb quote_char quote_char) with true.
  cbn iota. rewrite Hscan. cbn [mbind option_bind skip_ws]. change (is_ws ":"%char) with false. cbn iota.
  change (Ascii.eqb ":" ":") with true. cbn iota. 
  destruct n as [|m] eqn:En; [lia|]. rewrite (parse_literal _ _ m _ Hs), <- En in *. cbn [mbind option_bind]. rewrite Hname.
  destruct rest as [|kv' rest]; [done|]. cbn [skip_ws]. change (is_ws ","%char) with false. cbn iota.
  change (Ascii.eqb "," "}") with false. change (Ascii.eqb "," ",") with true. cbn iota.
  rewrite IH; [done|done|cbn [length] in *; lia].
Qed.

Lemma raw_member_chars fields : fields <> [] -> texts_valid fields -> forall n, (length fields <= n)%nat ->
  raw_members n (member_chars fields) = Some ((fun kv => (fst kv, encode_string true (snd kv))) <$> fields).
Proof.
  intros Hne Hv. induction Hv as [|kv rest [Hk Hs] Hrest IH]; [done|]. intros [|n] Hn; cbn [length] in Hn; [lia|].
  rewrite member_chars_cons. destruct (member_name _ (chars (encode_string true (snd kv)) ++
    match rest with [] => ["}"%char] | _ => ","%char :: member_chars rest end) Hk) as (raw & -> & Hscan & Hname).
  cbn [raw_members skip_ws]. change (is_ws quote_char) with false. cbn iota. change (Ascii.eqb quote_char quote_char) with true.
  cbn iota. rewrite Hscan. cbn [mbind option_bind skip_ws]. change (is_ws ":"%char) with false. cbn iota.
  change (Ascii.eqb ":" ":") with true. cbn iota. rewrite (scan_value_literal _ _ _ Hs). cbn [mbind option_bind]. rewrite Hname.
  destruct rest as [|kv' rest]; [done|]. cbn [skip_ws]. change (is_ws ","%char) with false. cbn iota.
  change (Ascii.eqb "," ",") with true. cbn iota. rewrite IH; [done|done|cbn [length] in *; lia].
Qed.

Lemma member_chars_length fields : (length fields < length (member_chars fields))%nat.
Proof.
  induction fields as [|kv rest IH]; [cbn; lia|]. rewrite member_chars_cons, length_app. cbn [length]. rewrite length_app.
  destruct rest; cbn [length] in *; lia.
Qed.

(** A struct of texts is read back member by member. *)
Lemma unmarshal_marshal ff fields text : fields <> [] -> texts_valid fields ->
  Marshal ff (VStruct ((fun kv => (fst kv, VStr (snd kv))) <$> fields)) = Some text ->
  unmarshal_members text = Some ((fun kv => (fst kv, encode_string true (snd kv))) <$> fields).
Proof.
  intros Hne Hv Hm. destruct (marshal_texts ff fields) as (text' & Hm' & Hc). rewrite Hm in Hm'. injection Hm' as <-.
  pose proof (member_chars_length fields) as Hl.
  assert (Hhead : exists r, member_chars fields = quote_char :: r).
  { destruct fields as [|kv rest]; [done|]. rewrite member_chars_cons. inversion Hv as [|? ? [Hk _]]; subst.
    destruct (encode_string_literal true (fst kv) Hk) as (raw & -> & _). by eexists. }
  assert (Hp : parse_json text = Some (JObject ((fun kv => (fst kv, JString (snd kv))) <$> fields))).
  { unfold parse_json. rewrite Hc. unfold value_fuel. rewrite Nat.add_succ_r. cbn [parse_value skip_ws].
    change (is_ws "{"%char) with false. cbn iota. change (Ascii.eqb "{" "{") with true. cbn iota.
    destruct Hhead as [r Hr]. rewrite Hr at 1. cbn [skip_ws]. change (is_ws quote_char) with false. cbn iota.
    change (Ascii.eqb quote_char "}") with false. cbn iota. rewrite parse_member_chars; [done|done|done|cbn [length]; lia]. }
  unfold unmarshal_members. rewrite Hp, Hc. cbn [skip_ws]. change (is_ws "{"%char) with false. cbn iota.
  destruct fields as [|kv rest] eqn:Ef; [done|]. rewrite <- Ef in *. cbn [fmap list_fmap].
  rewrite raw_member_chars; [by rewrite Ef|by rewrite Ef|done|lia].
Qed.

Lemma unmarshal_text_literal current s : utf8_valid s = true -> unmarshal_text current (encode_string true s) = Some s.
Proof.
  intros Hv. unfold unmarshal_text, parse_json, value_fuel. rewrite Nat.add_succ_r.
  rewrite <- (app_nil_r (chars (encode_string true s))). by rewrite (parse_literal _ _ _ _ Hv).
Qed.

(** ** Plain texts *)

(** Printable, and not escaped. *)
Definition plain (c : ascii) : bool :=
  (32 <=? code c) && (code c <? 127)
  && negb ((code c =? 34) || (code c =? 92) || (code c =? 60) || (code c =? 62) || (code c =? 38)).
Definition plain_text (s : string) : bool := forallb plain (chars s).

Lemma escape_plain html n : forall s, forallb plain s = true -> (length s <= n)%nat -> escape html n s = s.
Proof.
  induction n as [|n IH]; intros [|c r] Hp Hl; cbn [length] in Hl; [done|lia|done|].
  cbn [forallb] in Hp. apply andb_prop in Hp as [Hc Hr]. cbn [escape]. rewrite IH by (done || lia).
  unfold plain in Hc. bool_simp. replace (code c <? 128) with true by lia. unfold escape_ascii.
  repeat (case_match; bool_simp; try lia). done.
Qed.

Lemma encode_plain html s : plain_text s = true -> chars (encode_string html s) = quote_char :: chars s ++ [quote_char].
Proof. intros Hp. unfold encode_string. rewrite chars_of_chars, escape_plain; [done|done|by rewrite length_chars]. Qed.

Lemma utf8_valid_plain s : plain_text s = true -> utf8_valid s = true.
Proof.
  unfold plain_text, utf8_valid. rewrite <- length_chars. induction (chars s) as [|c r IH]; intros H; [done|].
  cbn [forallb] in H. apply andb_prop in H as [Hc Hr]. unfold plain in Hc. bool_simp. cbn [length fmap list_fmap utf8_valid_from utf8_width].
  replace (code c <? 128) with true by lia. by apply IH.
Qed.
