(* ===== verification/JsonCompact.v ===== *)
(** The compact form of a text denotes the same document, and it can stand as a
    member of a larger text: what the encoder makes of a raw message. *)

From S2P Require Import Prelude GoString Sha256 Json JsonTree JsonText JsonQuote.
From Stdlib Require Import Ascii.

(** ** String contents *)

(** What may stand between the quotes of a literal. *)
Inductive content : list ascii -> Prop :=
  | content_nil : content []
  | content_escape e r : existsb (Ascii.eqb e) (chars "bfnrt\/" ++ [quote_char]) = true ->
      content r -> content (backslash :: e :: r)
  | content_code h1 h2 h3 h4 r : forallb is_hex [h1; h2; h3; h4] = true ->
      content r -> content (backslash :: "u"%char :: h1 :: h2 :: h3 :: h4 :: r)
  | content_char c r : Ascii.eqb c quote_char = false -> Ascii.eqb c backslash = false -> (code c <? 32) = false ->
      content r -> content (c :: r).

Lemma scan_string_content n : forall s raw rest, (length s <= n)%nat -> scan_string s = Some (raw, rest) ->
  s = raw ++ quote_char :: rest /\ content raw.
Proof.
  induction n as [|n IH]; intros [|c r] raw rest Hn H; try done; cbn [length] in Hn; [lia|].
  cbn [scan_string] in H. split_read H; cbn [length] in *;
    repeat match goal with
    | E : Ascii.eqb _ _ = true |- _ => apply Ascii.eqb_eq in E
    | E : scan_string _ = Some _ |- _ => apply IH in E as [-> ?]; [|lia]
    end; subst; (split; [done|]); by constructor.
Qed.

Lemma scan_content raw rest : content raw -> scan_string (raw ++ quote_char :: rest) = Some (raw, rest).
Proof.
  induction 1 as [|e r He Hr IH|h1 h2 h3 h4 r Hh Hr IH|c r Hq Hb Hc Hr IH]; [done|..]; cbn [app].
  - cbn [scan_string]. change (Ascii.eqb backslash quote_char) with false. change (Ascii.eqb backslash backslash) with true.
    cbn iota. by rewrite He, IH.
  - cbn [scan_string]. change (Ascii.eqb backslash quote_char) with false. change (Ascii.eqb backslash backslash) with true.
    cbn iota. change (existsb (Ascii.eqb "u") (chars "bfnrt\/" ++ [quote_char])) with false. cbn iota.
    change (Ascii.eqb "u" "u") with true. cbn iota. by rewrite Hh, IH.
  - cbn [scan_string]. by rewrite Hq, Hb, Hc, IH.
Qed.

Abbreviation inside := (compact_from true false 0).
Abbreviation outside := (compact_from false false 0).

(** The characters the compact form replaces. *)
Lemma hide_html_spec c r t k : hide_html (c :: r) = Some (t, k) ->
  (k = 0%nat /\ (code c = 60 \/ code c = 62 \/ code c = 38) /\
     t = chars "\u00" ++ [hex_digit (code c / 16); hex_digit (code c mod 16)]) \/
  (k = 2%nat /\ exists (last : bool) r', c = chr 226 /\ r = chr 128 :: chr (if last then 169 else 168) :: r' /\
     t = chars (if last then "\u2029" else "\u2028")).
Proof.
  unfold hide_html. cbn [take fmap list_fmap]. destruct (_ || _ || _) eqn:E.
  - intros [= <- <-]. left. split; [done|]. split; [lia|done].
  - intros H. right.
    assert (Hlast : forall last : bool, code c :: (code <$> take 2 r) = [226; 128; if last then 169 else 168] ->
      exists r', c = chr 226 /\ r = chr 128 :: chr (if last then 169 else 168) :: r').
    { intros last Hc. destruct r as [|x [|y r']]; cbn in Hc; try done. injection Hc as <- <- Hy.
      exists r'. by rewrite !chr_code, <- Hy, chr_code. }
    change ((fix go l := match l with [] => [] | x :: l0 => code x :: go l0 end) (take 2 r)) with (code <$> take 2 r) in H.
    case_bool_decide as H1; [|case_bool_decide as H2; [|done]]; injection H as <- <-; (split; [done|]).
    + destruct (Hlast false H1) as (r' & -> & ->). by exists false, r'.
    + destruct (Hlast true H2) as (r' & -> & ->). by exists true, r'.
Qed.

Lemma hide_html_none c r : code c <> 60 -> code c <> 62 -> code c <> 38 -> code c <> 226 -> hide_html (c :: r) = None.
Proof.
  intros H1 H2 H3 H4. destruct (hide_html (c :: r)) as [[t k]|] eqn:E; [|done].
  apply hide_html_spec in E as [(_ & [?|[?|?]] & _)|(_ & last & r' & -> & _)]; try lia; by exfalso; apply H4; vm_compute.
Qed.

Lemma inside_separator (last : bool) r :
  inside (chr 226 :: chr 128 :: chr (if last then 169 else 168) :: r) = chars (if last then "\u2029" else "\u2028") ++ inside r.
Proof. by destruct last. Qed.

Lemma inside_plain c r : hide_html (c :: r) = None -> Ascii.eqb c quote_char = false -> Ascii.eqb c backslash = false ->
  inside (c :: r) = c :: inside r.
Proof. intros Hh Hq Hb. cbn [compact_from]. by rewrite Hh, Hb, Hq. Qed.

Lemma inside_escape e r : code e <> 60 -> code e <> 62 -> code e <> 38 -> code e <> 226 ->
  inside (backslash :: e :: r) = backslash :: e :: inside r.
Proof.
  intros. cbn [compact_from]. rewrite (hide_html_none backslash) by done. change (Ascii.eqb backslash backslash) with true.
  cbn iota. by rewrite hide_html_none.
Qed.

Lemma hex_safe h : is_hex h = true ->
  code h <> 60 /\ code h <> 62 /\ code h <> 38 /\ code h <> 226 /\ Ascii.eqb h quote_char = false /\ Ascii.eqb h backslash = false.
Proof.
  unfold is_hex. intros H. assert (Hr : 48 <= code h <= 57 \/ 97 <= code h <= 102 \/ 65 <= code h <= 70) by (unfold is_digit in H; lia).
  assert (Hq : h <> quote_char /\ h <> backslash).
  { split; intros ->; vm_compute in Hr; destruct Hr as [[? ?]|[[? ?]|[? ?]]]; congruence. }
  destruct Hq as [Hq%Ascii.eqb_neq Hb%Ascii.eqb_neq]. split_and!; try lia; done.
Qed.

Lemma inside_code h1 h2 h3 h4 r : forallb is_hex [h1; h2; h3; h4] = true ->
  inside (backslash :: "u"%char :: h1 :: h2 :: h3 :: h4 :: r) = backslash :: "u"%char :: h1 :: h2 :: h3 :: h4 :: inside r.
Proof.
  cbn [forallb]. rewrite !andb_true_iff. intros (H1 & H2 & H3 & H4 & _). rewrite inside_escape by done.
  apply hex_safe in H1 as (?&?&?&?&?&?), H2 as (?&?&?&?&?&?), H3 as (?&?&?&?&?&?), H4 as (?&?&?&?&?&?).
  by rewrite !inside_plain by (done || by apply hide_html_none).
Qed.

Lemma escape_safe e : existsb (Ascii.eqb e) (chars "bfnrt\/" ++ [quote_char]) = true ->
  code e <> 60 /\ code e <> 62 /\ code e <> 38 /\ code e <> 226 /\ e <> "u"%char.
Proof.
  intros H. apply existsb_exists in H as (x & Hx & ->%Ascii.eqb_eq).
  repeat (destruct Hx as [<-|Hx]; [by split_and!; vm_compute|]). done.
Qed.

Lemma content_high c r : content (c :: r) -> 128 <= code c -> content r.
Proof.
  intros H Hc. remember (c :: r) as s eqn:E. destruct H; try done; injection E as <- <-; try done; by vm_compute in Hc.
Qed.

(** The compact content of a literal is the compact form of its content, the
    closing quote stays. *)
Lemma inside_app raw rest : content raw -> inside (raw ++ quote_char :: rest) = inside raw ++ quote_char :: outside rest.
Proof.
  enough (H : forall n raw, (length raw <= n)%nat -> content raw ->
    inside (raw ++ quote_char :: rest) = inside raw ++ quote_char :: outside rest) by by apply (H (length raw)).
  clear raw. induction n as [|n IH]; intros raw Hn Hc;
    (destruct Hc as [|e r He Hr|h1 h2 h3 h4 r Hh Hr|c r Hq Hb Hlow Hr]; cbn [length] in Hn; [done|try lia..]); cbn [app].
  - destruct (escape_safe e He) as (?&?&?&?&?). rewrite !inside_escape by done. cbn [app]. by rewrite IH by (done || lia).
  - rewrite !inside_code by done. cbn [app]. by rewrite IH by (done || lia).
  - destruct (hide_html (c :: r)) as [[t k]|] eqn:E.
    + pose proof E as [(-> & Hcc & ->)|(-> & last & r' & -> & -> & ->)]%hide_html_spec.
      * assert (E' : hide_html (c :: r ++ quote_char :: rest) = Some (chars "\u00" ++ [hex_digit (code c / 16); hex_digit (code c mod 16)], 0%nat)).
        { unfold hide_html. cbn [take fmap list_fmap]. by replace (_ || _ || _) with true by lia. }
        cbn [compact_from]. rewrite E, E', IH by (done || lia). by rewrite app_assoc.
      * apply content_high in Hr; [|done]. apply content_high in Hr; [|by destruct last].
        cbn [app length] in *. by rewrite !inside_separator, IH, app_assoc by (done || lia).
    + assert (E' : hide_html (c :: r ++ quote_char :: rest) = None).
      { destruct (hide_html (c :: r ++ quote_char :: rest)) as [[t k]|] eqn:E'; [|done].
        apply hide_html_spec in E' as [(_ & Hcc & _)|(_ & last & r' & -> & Hr' & _)].
        - unfold hide_html in E. cbn [take fmap list_fmap] in E. by replace (_ || _ || _) with true in E by lia.
        - destruct r as [|x [|y r2]]; cbn [app] in Hr'; [by injection Hr' as Hx; vm_compute in Hx|by injection Hr' as -> Hx; destruct last; vm_compute in Hx|].
          injection Hr' as -> -> _. by destruct last. }
      rewrite !inside_plain by done. cbn [app]. by rewrite IH by (done || lia).
Qed.

Lemma content_inside raw : content raw -> content (inside raw).
Proof.
  enough (H : forall n raw, (length raw <= n)%nat -> content raw -> content (inside raw)) by by apply (H (length raw)).
  clear raw. induction n as [|n IH]; intros raw Hn Hc;
    (destruct Hc as [|e r He Hr|h1 h2 h3 h4 r Hh Hr|c r Hq Hb Hlow Hr]; cbn [length] in Hn; [constructor|try lia..]).
  - destruct (escape_safe e He) as (?&?&?&?&?). rewrite inside_escape by done. constructor; [done|]. apply IH; [lia|done].
  - rewrite inside_code by done. constructor; [done|]. apply IH; [lia|done].
  - destruct (hide_html (c :: r)) as [[t k]|] eqn:E.
    + pose proof E as [(-> & Hcc & ->)|(-> & last & r' & -> & -> & ->)]%hide_html_spec.
      * cbn [compact_from]. rewrite E. specialize (IH r ltac:(lia) Hr).
        destruct Hcc as [Hcc|[Hcc|Hcc]]; rewrite Hcc; by apply (content_code "0" "0").
      * apply content_high in Hr; [|done]. apply content_high in Hr; [|by destruct last]. rewrite inside_separator.
        cbn [length] in Hn. specialize (IH r' ltac:(lia) Hr). destruct last; by apply (content_code "2" "0").
    + rewrite inside_plain by done. constructor; [done..|]. apply IH; [lia|done].
Qed.

(** ** What a content denotes *)

(** Continuation bytes stay, and nothing becomes one. *)
Definition no_cont (l : list ascii) : Prop := match l with x :: _ => cont (code x) = false | [] => True end.

Lemma cont_view r : content r ->
  (exists x r', r = x :: r' /\ inside r = x :: inside r' /\ content r') \/ (no_cont r /\ no_cont (inside r)).
Proof.
  intros Hc. destruct Hc as [|e r He Hr|h1 h2 h3 h4 r Hh Hr|c r Hq Hb Hlow Hr]; [by right|..].
  - right. destruct (escape_safe e He) as (?&?&?&?&?). by rewrite inside_escape.
  - right. by rewrite inside_code.
  - destruct (hide_html (c :: r)) as [[t k]|] eqn:E.
    + right. pose proof E as [(-> & Hcc & ->)|(-> & last & r' & -> & -> & ->)]%hide_html_spec.
      * cbn [compact_from]. rewrite E. split; [|done]. cbn. unfold cont. lia.
      * rewrite inside_separator. by destruct last.
    + left. rewrite inside_plain by done. eauto.
Qed.

Lemma width_stop a l : 128 <= a -> match l with x :: _ => cont x = false | [] => True end -> utf8_width (a :: l) = 0%nat.
Proof.
  intros Ha Hl. unfold utf8_width, cont in *. destruct l as [|b l]; repeat case_match; try done; lia.
Qed.

Lemma width_two a b l : 128 <= a -> match l with x :: _ => cont x = false | [] => True end ->
  utf8_width (a :: b :: l) = utf8_width [a; b].
Proof.
  intros Ha Hl. unfold utf8_width, cont in *. destruct l as [|c l]; [done|]. repeat case_match; try done; lia.
Qed.

Lemma width_three a b c l : 128 <= a -> match l with x :: _ => cont x = false | [] => True end ->
  utf8_width (a :: b :: c :: l) = utf8_width [a; b; c].
Proof.
  intros Ha Hl. unfold utf8_width, cont in *. destruct l as [|d l]; [done|]. repeat case_match; try done; lia.
Qed.

Lemma width_four a b c d l : utf8_width (a :: b :: c :: d :: l) = utf8_width [a; b; c; d].
Proof. done. Qed.

Lemma width_le s : (utf8_width s <= length s)%nat.
Proof. unfold utf8_width. repeat case_match; cbn; lia. Qed.

(** A rune starting with [c], or none, is the same in the compact content. *)
Lemma rune_inside c r : 128 <= code c -> content r ->
  utf8_width (code <$> c :: inside r) = utf8_width (code <$> c :: r) /\
  match utf8_width (code <$> c :: r) with
  | O => True
  | n => take n (c :: inside r) = take n (c :: r) /\ drop n (c :: inside r) = inside (drop n (c :: r)) /\
         content (drop n (c :: r))
  end.
Proof.
  intros Hc Hr. rewrite !fmap_cons.
  assert (Hstop : forall l, no_cont l -> match code <$> l with x :: _ => cont x = false | [] => True end) by (intros [|? ?]; done).
  destruct (cont_view r Hr) as [(x1 & r1 & -> & E1 & Hr1)|[Hs Hi]].
  2: { by rewrite (width_stop _ _ Hc (Hstop _ Hs)), (width_stop _ _ Hc (Hstop _ Hi)). }
  rewrite E1, !fmap_cons. destruct (cont_view r1 Hr1) as [(x2 & r2 & -> & E2 & Hr2)|[Hs Hi]].
  2: { rewrite (width_two _ _ _ Hc (Hstop _ Hs)), (width_two _ _ _ Hc (Hstop _ Hi)). split; [done|].
       pose proof (width_le [code c; code x1]) as Hl.
       destruct (utf8_width _) as [|[|[|n]]]; cbn [length take drop] in *; rewrite ?E1; try done; lia. }
  rewrite E2, !fmap_cons. destruct (cont_view r2 Hr2) as [(x3 & r3 & -> & E3 & Hr3)|[Hs Hi]].
  2: { rewrite (width_three _ _ _ _ Hc (Hstop _ Hs)), (width_three _ _ _ _ Hc (Hstop _ Hi)). split; [done|].
       pose proof (width_le [code c; code x1; code x2]) as Hl.
       destruct (utf8_width _) as [|[|[|[|n]]]]; cbn [length take drop] in *; rewrite ?E1, ?E2; try done; lia. }
  rewrite E3, !fmap_cons, !width_four. split; [done|]. pose proof (width_le [code c; code x1; code x2; code x3]) as Hl.
  destruct (utf8_width _) as [|[|[|[|[|n]]]]]; cbn [length take drop] in *; rewrite ?E1, ?E2, ?E3; try done; lia.
Qed.

(** The second half of a surrogate pair, when it is what follows. *)
Definition low_half (u : Z) (r : list ascii) : option (Z * list ascii) :=
  match r with
  | b :: v :: g1 :: g2 :: g3 :: g4 :: r3 =>
      let w := hex4 g1 g2 g3 g4 in
      if Ascii.eqb b backslash && Ascii.eqb v "u" && forallb is_hex [g1; g2; g3; g4] && (u <? 56320) && (56320 <=? w) && (w <? 57344)
      then Some ((u - 55296) * 1024 + (w - 56320) + 65536, r3) else None
  | _ => None
  end.

Lemma unquote_code h1 h2 h3 h4 n r :
  unquote (S n) (backslash :: "u"%char :: h1 :: h2 :: h3 :: h4 :: r) =
    let u := hex4 h1 h2 h3 h4 in
    if is_surrogate u then
      match low_half u r with Some (x, r3) => encode_rune x ++ unquote n r3 | None => replacement ++ unquote n r end
    else encode_rune u ++ unquote n r.
Proof.
  cbn [unquote]. change (Ascii.eqb backslash backslash) with true. change (Ascii.eqb "u" "u") with true. cbn iota zeta.
  destruct (is_surrogate _); [|done]. unfold low_half. destruct r as [|b [|v [|g1 [|g2 [|g3 [|g4 r3]]]]]]; try done.
  by destruct (_ && _ && _ && _ && _ && _).
Qed.

Lemma low_half_no_u u b v l : Ascii.eqb v "u" = false -> low_half u (b :: v :: l) = None.
Proof. intros Hv. unfold low_half. destruct l as [|? [|? [|? [|? ?]]]]; try done. by rewrite Hv, andb_false_r. Qed.

Lemma low_half_no_backslash u b l : Ascii.eqb b backslash = false -> low_half u (b :: l) = None.
Proof. intros Hv. unfold low_half. destruct l as [|? [|? [|? [|? [|? ?]]]]]; try done. by rewrite Hv. Qed.

Lemma low_half_length u r x r3 : low_half u r = Some (x, r3) -> length r = (6 + length r3)%nat.
Proof.
  unfold low_half. destruct r as [|? [|? [|? [|? [|? [|? r]]]]]]; try done. destruct (_ && _ && _ && _ && _ && _); [|done].
  by intros [= _ <-].
Qed.

Lemma low_half_inside u r : content r ->
  match low_half u r with
  | Some (x, r3) => low_half u (inside r) = Some (x, inside r3) /\ content r3
  | None => low_half u (inside r) = None
  end.
Proof.
  intros Hc. destruct Hc as [|e r He Hr|h1 h2 h3 h4 r Hh Hr|c r Hq Hb Hlow Hr]; [done|..].
  - destruct (escape_safe e He) as (?&?&?&?&Hu%Ascii.eqb_neq). rewrite inside_escape by done.
    by rewrite !low_half_no_u.
  - rewrite inside_code by done. unfold low_half. cbn [Ascii.eqb andb]. by destruct (_ && _ && _ && _).
  - rewrite low_half_no_backslash by done. destruct (hide_html (c :: r)) as [[t k]|] eqn:E.
    + pose proof E as [(-> & Hcc & ->)|(-> & last & r' & -> & -> & ->)]%hide_html_spec.
      * cbn [compact_from]. rewrite E. destruct Hcc as [Hcc|[Hcc|Hcc]]; rewrite Hcc; cbn; by rewrite andb_false_r.
      * rewrite inside_separator. destruct last; cbn; by rewrite andb_false_r.
    + rewrite inside_plain by done. by apply low_half_no_backslash.
Qed.

Lemma unquote_plain c n r : Ascii.eqb c backslash = false ->
  unquote (S n) (c :: r) =
    if code c <? 128 then c :: unquote n r
    else match utf8_width (code <$> c :: r) with
         | O => replacement ++ unquote n r
         | k => take k (c :: r) ++ unquote n (drop k (c :: r))
         end.
Proof. intros Hb. cbn [unquote]. by rewrite Hb. Qed.

Lemma unquote_separator (last : bool) n r :
  unquote (S n) (chars (if last then "\u2029" else "\u2028") ++ r) =
    [chr 226; chr 128; chr (if last then 169 else 168)] ++ unquote n r.
Proof. by destruct last. Qed.

(** The compact content denotes what the content denotes. *)
Lemma unquote_inside k : forall raw, (length raw <= k)%nat -> content raw ->
  forall n m, (length (inside raw) <= n)%nat -> (length raw <= m)%nat -> unquote n (inside raw) = unquote m raw.
Proof.
  induction k as [|k IH]; intros raw Hk Hc n m Hn Hm;
    (destruct Hc as [|e r He Hr|h1 h2 h3 h4 r Hh Hr|c r Hq Hb Hlow Hr]; cbn [length] in Hk, Hm; [by destruct n, m|try lia..]);
    (destruct m as [|m]; [lia|]).
  - destruct (escape_safe e He) as (?&?&?&?&Hu%Ascii.eqb_neq). rewrite inside_escape in * by done. cbn [length] in Hn.
    destruct n as [|n]; [lia|]. cbn [unquote]. change (Ascii.eqb backslash backslash) with true. cbn iota. rewrite Hu.
    f_equal. apply IH; (done || lia).
  - rewrite inside_code in * by done. cbn [length] in Hn. destruct n as [|n]; [lia|]. rewrite !unquote_code. cbn zeta.
    rewrite (IH r) with (m := m) by (done || lia). destruct (is_surrogate _); [|done].
    pose proof (low_half_inside (hex4 h1 h2 h3 h4) r Hr) as Hl. destruct (low_half _ r) as [[x r3]|] eqn:El; [|by rewrite Hl].
    destruct Hl as (Hi & H3). rewrite Hi. apply low_half_length in El, Hi. f_equal. apply IH; (done || lia).
  - destruct (hide_html (c :: r)) as [[t j]|] eqn:E.
    + pose proof E as [(-> & Hcc & ->)|(-> & last & r' & -> & -> & ->)]%hide_html_spec.
      * cbn [compact_from] in Hn |- *. rewrite E in *. rewrite !length_app in Hn. cbn [length] in Hn. destruct n as [|n]; [lia|].
        assert (Hi : unquote n (inside r) = unquote m r) by (apply IH; (done || lia)).
        rewrite unquote_plain by done. replace (code c <? 128) with true by lia. rewrite <- Hi, <- (chr_code c).
        by destruct Hcc as [->| [->| ->] ].
      * apply content_high in Hr; [|done]. apply content_high in Hr; [|by destruct last].
        rewrite inside_separator in *. cbn [length] in Hk, Hm. rewrite length_app in Hn.
        replace (length (chars (if last then _ else _))) with 6%nat in Hn by by destruct last. destruct n as [|n]; [lia|].
        assert (Hi : unquote n (inside r') = unquote m r') by (apply IH; (done || lia)).
        rewrite unquote_separator, unquote_plain, Hi by done. by destruct last.
    + rewrite inside_plain in * by done. cbn [length] in Hn. destruct n as [|n]; [lia|]. rewrite !unquote_plain by done.
      destruct (Z.ltb_spec (code c) 128) as [Hl|Hl]; [f_equal; apply IH; (done || lia)|].
      destruct (rune_inside c r Hl Hr) as [-> Hd]. destruct (utf8_width (code <$> c :: r)) as [|w]; [f_equal; apply IH; (done || lia)|].
      cbv zeta in Hd |- *. destruct Hd as (-> & Ei & Hd). rewrite Ei. f_equal.
      apply IH; [|done|rewrite <- Ei|]; rewrite length_drop; cbn [length]; lia.
Qed.

(** A literal in the compact form. *)
Lemma scan_inside s raw rest t : scan_string s = Some (raw, rest) ->
  exists raw', scan_string (inside s ++ t) = Some (raw', outside rest ++ t) /\ decode_raw_string raw' = decode_raw_string raw.
Proof.
  intros H. apply (scan_string_content (length s)) in H as [-> Hc]; [|done]. exists (inside raw).
  rewrite inside_app, <- app_assoc by done. cbn [app]. rewrite scan_content by by apply content_inside.
  split; [done|]. unfold decode_raw_string. f_equal. by apply (unquote_inside (length raw)).
Qed.

(** ** Numbers *)

(** What may follow a value: the end, or what closes or continues the value
    around it. *)
Definition closes (c : ascii) : bool := Ascii.eqb c "," || Ascii.eqb c "]" || Ascii.eqb c "}".
Definition ends (t : list ascii) : Prop := match t with c :: _ => closes c = true | [] => True end.

Definition no_digit (t : list ascii) : Prop := match t with c :: _ => is_digit c = false | [] => True end.

(** Characters the compact form copies. *)
Definition inert (c : ascii) : bool := negb (is_ws c) && negb (Ascii.eqb c quote_char)
  && negb ((code c =? 60) || (code c =? 62) || (code c =? 38) || (code c =? 226)).

Lemma closes_cases c : closes c = true -> c = ","%char \/ c = "]"%char \/ c = "}"%char.
Proof. unfold closes. rewrite !orb_true_iff, !Ascii.eqb_eq. tauto. Qed.

Lemma ends_no_digit t : ends t -> no_digit t.
Proof. destruct t as [|c t]; [done|]. intros [->| [->| ->] ]%closes_cases; done. Qed.

Lemma digit_inert c : is_digit c = true -> inert c = true.
Proof.
  intros H. unfold inert, is_ws. assert (48 <= code c <= 57) by (unfold is_digit in H; lia).
  assert (Hq : Ascii.eqb c quote_char = false) by (apply Ascii.eqb_neq; intros ->; by vm_compute in H).
  rewrite Hq. lia.
Qed.

Lemma take_digits_spec s a b : take_digits s = (a, b) ->
  s = a ++ b /\ Forall (fun c => is_digit c = true) a /\ no_digit b /\
  forall t, no_digit t -> take_digits (a ++ t) = (a, t).
Proof.
  assert (Hnil : forall t, no_digit t -> take_digits t = ([], t)) by (intros [|c t]; cbn; [done|by intros ->]).
  revert a b. induction s as [|c r IH]; intros a b; cbn [take_digits]; [by intros [= <- <-]|].
  destruct (is_digit c) eqn:Ec; [|by intros [= <- <-]].
  destruct (take_digits r) as [x y] eqn:E. intros [= <- <-]. destruct (IH _ _ eq_refl) as (-> & Hx & Hy & Ht).
  split_and!; [done|by constructor|done|]. intros t Hn. cbn [app take_digits]. by rewrite Ec, Ht.
Qed.

Lemma some_digits_spec s a b : some_digits s = Some (a, b) ->
  s = a ++ b /\ a <> [] /\ Forall (fun c => is_digit c = true) a /\
  forall t, no_digit t -> some_digits (a ++ t) = Some (a, t).
Proof.
  unfold some_digits. destruct (take_digits s) as [[|x a'] b'] eqn:E; [done|]. intros [= <- <-].
  destruct (take_digits_spec _ _ _ E) as (-> & Ha & _ & Ht). split_and!; try done. intros t Hn. by rewrite Ht.
Qed.

(** A part of a number: read again whatever follows it, under a condition on
    what follows. *)
Definition part (f : list ascii -> option (list ascii * list ascii)) (ok : list ascii -> Prop) (s a b : list ascii) : Prop :=
  s = a ++ b /\ Forall (fun c => inert c = true) a /\ forall t, ok t -> f (a ++ t) = Some (a, t).

Lemma digits_inert a : Forall (fun c => is_digit c = true) a -> Forall (fun c => inert c = true) a.
Proof. intros H. eapply Forall_impl; [exact H|]. intros c. apply digit_inert. Qed.

Lemma scan_int_spec s a b : scan_int s = Some (a, b) -> part scan_int no_digit s a b.
Proof.
  unfold scan_int. destruct s as [|c r]; [done|]. destruct (Ascii.eqb_spec c "0") as [->|Hc].
  - intros [= <- <-]. split_and!; [done|by repeat constructor|done].
  - intros H. destruct (some_digits_spec _ _ _ H) as (-> & Hne & Hd & Ht). destruct a as [|x a]; [done|].
    split_and!; [done|by apply digits_inert|]. intros t Hn. cbn [app].
    assert (x = c) as -> by (apply some_digits_spec in H as ([= ->] & _); done).
    rewrite (proj2 (Ascii.eqb_neq c "0") Hc). exact (Ht t Hn).
Qed.

Definition no_point (t : list ascii) : Prop := no_digit t /\ match t with c :: _ => Ascii.eqb c "." = false | [] => True end.
Definition no_exp (t : list ascii) : Prop :=
  no_digit t /\ match t with c :: _ => Ascii.eqb c "e" || Ascii.eqb c "E" = false | [] => True end.

Lemma scan_frac_spec s a b : scan_frac s = Some (a, b) -> part scan_frac no_point s a b.
Proof.
  assert (Hnone : forall t, no_point t -> scan_frac t = Some ([], t)) by (intros [|c t]; [done|]; cbn; by intros [_ ->]).
  unfold scan_frac at 1. destruct s as [|c r]; [by intros [= <- <-]|]. destruct (Ascii.eqb_spec c ".") as [->|Hc].
  - destruct (some_digits r) as [[d rest]|] eqn:E; [|done]. cbn. intros [= <- <-].
    destruct (some_digits_spec _ _ _ E) as (-> & _ & Hd & Ht). split_and!; [done|constructor; [done|by apply digits_inert]|].
    intros t [Hn _]. cbn [app scan_frac]. change (Ascii.eqb "." ".") with true. cbn iota. by rewrite Ht.
  - intros [= <- <-]. by split_and!.
Qed.

Lemma scan_exp_spec s a b : scan_exp s = Some (a, b) -> part scan_exp no_exp s a b /\
  match a with c :: _ => Ascii.eqb c "e" || Ascii.eqb c "E" = true | [] => True end.
Proof.
  assert (Hnone : forall t, no_exp t -> scan_exp t = Some ([], t)) by (intros [|c t]; [done|]; cbn; by intros [_ ->]).
  unfold scan_exp at 1. destruct s as [|c r]; [intros [= <- <-]; by split; [split_and!|]|].
  destruct (Ascii.eqb c "e" || Ascii.eqb c "E") eqn:Ec; [|intros [= <- <-]; by split; [split_and!|]].
  assert (Hci : inert c = true) by (apply orb_prop in Ec as [->%Ascii.eqb_eq| ->%Ascii.eqb_eq]; done).
  destruct (match r with [] => _ | _ => _ end) as [sign r1] eqn:Es.
  destruct (some_digits r1) as [[d rest]|] eqn:E; [|done]. cbn. intros [= <- <-]. split; [|done].
  destruct (some_digits_spec _ _ _ E) as (-> & Hne & Hd & Ht).
  assert (Hsign : r = sign ++ d ++ rest /\ (sign = [] \/ exists g, sign = [g] /\ Ascii.eqb g "+" || Ascii.eqb g "-" = true)).
  { destruct r as [|g r']; [injection Es as <- Hx; by destruct d|].
    destruct (Ascii.eqb g "+" || Ascii.eqb g "-") eqn:Eg; injection Es as <- ->; [split; [done|right; by exists g]|by split; [|left]]. }
  destruct Hsign as [-> Hs]. split_and!; [cbn [app]; by rewrite <- app_assoc|..].
  - constructor; [done|]. apply Forall_app. split; [|by apply digits_inert].
    destruct Hs as [->|(g & -> & Hg)]; [constructor|]. constructor; [|constructor].
    apply orb_prop in Hg as [->%Ascii.eqb_eq| ->%Ascii.eqb_eq]; done.
  - intros t [Hn _]. cbn [app scan_exp]. rewrite Ec, <- app_assoc. destruct d as [|x d]; [done|].
    assert (Hx : Ascii.eqb x "+" || Ascii.eqb x "-" = false).
    { inversion Hd as [|? ? Hx _]; subst. apply orb_false_intro; apply Ascii.eqb_neq; intros ->; done. }
    destruct Hs as [->|(g & -> & Hg)]; cbn [app]; [rewrite Hx|rewrite Hg]; change (x :: d ++ t) with ((x :: d) ++ t); by rewrite Ht.
Qed.

Lemma scan_number_spec s n rest : scan_number s = Some (n, rest) ->
  s = n ++ rest /\ Forall (fun c => inert c = true) n /\ (exists c n', n = c :: n' /\ (is_digit c = true \/ c = "-"%char)) /\
  forall t, ends t -> scan_number (n ++ t) = Some (n, t).
Proof.
  unfold scan_number at 1. intros H.
  destruct (match s with c :: r => if Ascii.eqb c "-" then ([c], r) else ([], s) | [] => ([], []) end) as [sign s0] eqn:Es.
  destruct (scan_int s0) as [[i s1]|] eqn:E1; [|done]. cbn [mbind option_bind] in H.
  destruct (scan_frac s1) as [[f s2]|] eqn:E2; [|done]. cbn [mbind option_bind] in H.
  destruct (scan_exp s2) as [[e s3]|] eqn:E3; [|done]. cbn [mbind option_bind] in H. injection H as <- <-.
  pose proof E1 as (-> & Hi & Ht1)%scan_int_spec. pose proof E2 as (-> & Hf & Ht2)%scan_frac_spec.
  pose proof E3 as [(-> & He & Ht3) Hhe]%scan_exp_spec.
  assert (Hfirst : exists c i', i = c :: i' /\ is_digit c = true).
  { destruct i as [|c i']; [by specialize (Ht1 [] I)|].
    exists c, i'. split; [done|]. cbn [app scan_int] in E1. destruct (Ascii.eqb_spec c "0") as [->|]; [done|].
    apply some_digits_spec in E1 as (_ & _ & Hd & _). by inversion Hd. }
  destruct Hfirst as (c & i' & -> & Hc).
  assert (Hsign : s = sign ++ (c :: i') ++ f ++ e ++ s3 /\ (sign = [] \/ sign = ["-"%char])).
  { destruct s as [|c0 r]; [done|]. destruct (Ascii.eqb_spec c0 "-") as [->|]; inversion Es; subst; auto. }
  destruct Hsign as [-> Hs]. split; [by rewrite <- !app_assoc|]. split_and!.
  - rewrite !Forall_app. split_and!; try done. by destruct Hs as [->| ->]; repeat constructor.
  - destruct Hs as [->| ->]; cbn [app]; eauto 6.
  - intros t Ht.
    assert (Hn3 : no_exp t) by (split; [by apply ends_no_digit|]; destruct t as [|x t]; [done|]; by destruct (closes_cases x Ht) as [->| [->| ->] ]).
    assert (Hn2 : no_point (e ++ t)).
    { destruct e as [|x e]; cbn [app].
      - split; [by apply ends_no_digit|]. destruct t as [|x t]; [done|]. by destruct (closes_cases x Ht) as [->| [->| ->] ].
      - by apply orb_prop in Hhe as [->%Ascii.eqb_eq| ->%Ascii.eqb_eq]. }
    assert (Hn1 : no_digit (f ++ e ++ t)).
    { destruct f as [|x f]; cbn [app]; [apply Hn2|]. specialize (Ht2 [] (conj I I)). rewrite app_nil_r in Ht2.
      cbn in Ht2. destruct (Ascii.eqb_spec x ".") as [->|]; done. }
    assert (Hc' : Ascii.eqb c "-" = false) by (apply Ascii.eqb_neq; intros ->; done).
    unfold scan_number. rewrite <- !app_assoc. destruct Hs as [->| ->]; cbn [app];
      [rewrite Hc'|change (Ascii.eqb "-" "-") with true; cbn iota];
      change (c :: i' ++ f ++ e ++ t) with ((c :: i') ++ f ++ e ++ t); rewrite (Ht1 _ Hn1); cbn [mbind option_bind];
      rewrite (Ht2 _ Hn2); cbn [mbind option_bind]; by rewrite (Ht3 _ Hn3).
Qed.

(** ** Values *)

Lemma outside_ws c r : is_ws c = true -> outside (c :: r) = outside r.
Proof.
  intros Hc. cbn [compact_from]. rewrite hide_html_none by (unfold is_ws in Hc; lia). by rewrite Hc.
Qed.

Lemma outside_skip s : outside (skip_ws s) = outside s.
Proof. induction s as [|c r IH]; [done|]. cbn [skip_ws]. destruct (is_ws c) eqn:Ec; [|done]. by rewrite IH, outside_ws. Qed.

Lemma outside_inert c r : inert c = true -> outside (c :: r) = c :: outside r.
Proof.
  unfold inert. rewrite !andb_true_iff, !negb_true_iff. intros [[Hw Hq] Hh]. cbn [compact_from].
  rewrite hide_html_none by lia. by rewrite Hw, Hq.
Qed.

Lemma outside_app l r : Forall (fun c => inert c = true) l -> outside (l ++ r) = l ++ outside r.
Proof. induction 1 as [|c l Hc Hl IH]; [done|]. cbn [app]. by rewrite outside_inert, IH. Qed.

Lemma outside_quote r : outside (quote_char :: r) = quote_char :: inside r.
Proof. cbn [compact_from]. by rewrite hide_html_none. Qed.

Lemma inert_ws c : inert c = true -> is_ws c = false.
Proof. unfold inert. by rewrite !andb_true_iff, !negb_true_iff; intros [[? _] _]. Qed.

(** What a value starts with. *)
Lemma value_head n s j rest : parse_value n s = Some (j, rest) ->
  exists c r, skip_ws s = c :: r /\ Ascii.eqb c "]" = false /\ (inert c = true \/ c = quote_char).
Proof.
  destruct n as [|n]; [done|]. cbn [parse_value]. destruct (skip_ws s) as [|c r]; [done|]. intros H. exists c, r. split; [done|].
  destruct (Ascii.eqb_spec c "{") as [->|_]; [by split; [|left]|]. destruct (Ascii.eqb_spec c "[") as [->|_]; [by split; [|left]|].
  destruct (Ascii.eqb_spec c quote_char) as [->|_]; [by split; [|right]|].
  assert (Hlit : forall p x, strip_prefix p (c :: r) = Some x -> p <> [] -> Forall (fun c => inert c = true /\ Ascii.eqb c "]" = false) p ->
    Ascii.eqb c "]" = false /\ (inert c = true \/ c = quote_char)).
  { intros p x Hp%strip_prefix_Some Hne Hf. destruct p as [|y p]; [done|]. injection Hp as -> _.
    inversion Hf as [|? ? [? ?] _]; subst. auto. }
  destruct (strip_prefix (chars "null") (c :: r)) eqn:E1; [by apply Hlit in E1; [|done|repeat constructor]|].
  destruct (strip_prefix (chars "true") (c :: r)) eqn:E2; [by apply Hlit in E2; [|done|repeat constructor]|].
  destruct (strip_prefix (chars "false") (c :: r)) eqn:E3; [by apply Hlit in E3; [|done|repeat constructor]|].
  destruct (scan_number (c :: r)) as [[m t]|] eqn:E; [|done].
  apply scan_number_spec in E as (Hs & Hi & (c' & n' & -> & Hc) & _). injection Hs as -> _. inversion Hi; subst.
  split; [|by left]. apply Ascii.eqb_neq. intros ->. destruct Hc as [Hc|Hc]; discriminate Hc.
Qed.

Lemma members_head n s m rest : parse_members n s = Some (m, rest) -> exists r, skip_ws s = quote_char :: r.
Proof.
  destruct n as [|n]; [done|]. cbn [parse_members]. destruct (skip_ws s) as [|c r]; [done|].
  destruct (Ascii.eqb_spec c quote_char) as [->|]; [by eexists|done].
Qed.

Lemma elements_head n s m rest : parse_elements n s = Some (m, rest) ->
  exists c r, skip_ws s = c :: r /\ Ascii.eqb c "]" = false /\ (inert c = true \/ c = quote_char).
Proof.
  destruct n as [|n]; [done|]. cbn [parse_elements]. destruct (parse_value n s) as [[v r]|] eqn:E; [|done]. intros _. by eapply value_head.
Qed.

Section embedded.
Context (t : list ascii) (Ht : ends t).

(** The rest of a text in compact form, within a larger one. *)
Abbreviation within s := (outside s ++ t).

Lemma skip_within s : within (skip_ws s) = within s.
Proof. by rewrite outside_skip. Qed.

Lemma ends_within s : ends (skip_ws s) -> ends (within s).
Proof.
  intros H. rewrite <- skip_within. destruct (skip_ws s) as [|c r]; [done|]. 
  rewrite outside_inert; [exact H|]. by destruct (closes_cases c H) as [->| [->| ->] ].
Qed.

Lemma skip_inert s c r : skip_ws s = c :: r -> inert c = true -> skip_ws (within s) = c :: within r.
Proof. intros Hs Hc. rewrite <- skip_within, Hs, outside_inert by done. cbn [app skip_ws]. by rewrite inert_ws. Qed.

Lemma skip_quote s r : skip_ws s = quote_char :: r -> skip_ws (within s) = quote_char :: inside r ++ t.
Proof. intros Hs. by rewrite <- skip_within, Hs, outside_quote. Qed.

Definition embeds {A} (f : list ascii -> option (A * list ascii)) (ok : list ascii -> Prop) : Prop :=
  forall s a rest, f s = Some (a, rest) -> ok rest -> f (within s) = Some (a, within rest).

Lemma prefix_within p s r : strip_prefix p s = Some r -> Forall (fun c => inert c = true) p ->
  strip_prefix p (within s) = Some (within r).
Proof. intros ->%strip_prefix_Some Hp. apply strip_prefix_Some. by rewrite outside_app, app_assoc. Qed.

Lemma prefix_other p c l : match p with x :: _ => x <> c | [] => False end -> strip_prefix p (c :: l) = None.
Proof.
  intros H. destruct (strip_prefix p (c :: l)) eqn:E; [|done]. apply strip_prefix_Some in E. destruct p; [done|]. by injection E as ->.
Qed.

Lemma embeds_scalar c r (v : json) rest :
  match strip_prefix (chars "null") (c :: r), strip_prefix (chars "true") (c :: r), strip_prefix (chars "false") (c :: r) with
  | Some rest, _, _ => Some (JNull, rest)
  | _, Some rest, _ => Some (JBool true, rest)
  | _, _, Some rest => Some (JBool false, rest)
  | _, _, _ => '(n, rest) ← scan_number (c :: r); Some (JNumber (of_chars n), rest)
  end = Some (v, rest) -> ends (skip_ws rest) ->
  match strip_prefix (chars "null") (within (c :: r)), strip_prefix (chars "true") (within (c :: r)), strip_prefix (chars "false") (within (c :: r)) with
  | Some rest, _, _ => Some (JNull, rest)
  | _, Some rest, _ => Some (JBool true, rest)
  | _, _, Some rest => Some (JBool false, rest)
  | _, _, _ => '(n, rest) ← scan_number (within (c :: r)); Some (JNumber (of_chars n), rest)
  end = Some (v, within rest).
Proof.
  intros H He.
  destruct (strip_prefix (chars "null") (c :: r)) as [x|] eqn:E1.
  { injection H as <- <-. by rewrite (prefix_within _ _ _ E1) by repeat constructor. }
  destruct (strip_prefix (chars "true") (c :: r)) as [x|] eqn:E2.
  { injection H as <- <-. rewrite (prefix_within _ _ _ E2) by repeat constructor.
    apply strip_prefix_Some in E2 as [= -> _]. rewrite outside_inert by done. cbn [app]. by rewrite prefix_other. }
  destruct (strip_prefix (chars "false") (c :: r)) as [x|] eqn:E3.
  { injection H as <- <-. rewrite (prefix_within _ _ _ E3) by repeat constructor.
    apply strip_prefix_Some in E3 as [= -> _]. rewrite outside_inert by done. cbn [app]. by rewrite !prefix_other. }
  destruct (scan_number (c :: r)) as [[m x]|] eqn:E; [|done]. injection H as <- <-.
  apply scan_number_spec in E as (-> & Hi & (c' & n' & -> & Hc) & Hn). rewrite outside_app, <- app_assoc by done.
  rewrite (Hn _ (ends_within _ He)). cbn [app]. rewrite !prefix_other; [done|..]; (intros <-; by destruct Hc).
Qed.

Lemma parse_embeds n :
  embeds (parse_value n) (fun r => ends (skip_ws r)) /\ embeds (parse_members n) (fun _ => True) /\
  embeds (parse_elements n) (fun _ => True).
Proof.
  induction n as [|n (IHv & IHm & IHe)]; [by split_and!|]. split_and!; intros s a rest H He.
  - pose proof (value_head _ _ _ _ H) as (c & r & Hs & _ & Hc). cbn [parse_value] in H |- *. rewrite Hs in H.
    destruct Hc as [Hc| ->].
    2: { rewrite (skip_quote _ _ Hs). destruct (scan_string r) as [[raw x]|] eqn:E; [|done]. injection H as <- <-.
         cbn [Ascii.eqb Bool.eqb]. destruct (scan_inside _ _ _ t E) as (raw' & Hx & Hd).
         change (Ascii.eqb quote_char "{") with false. change (Ascii.eqb quote_char "[") with false.
         change (Ascii.eqb quote_char quote_char) with true. cbn iota. rewrite Hx. cbn [mbind option_bind]. by rewrite Hd. }
    rewrite (skip_inert _ _ _ Hs Hc).
    assert (Hq : Ascii.eqb c quote_char = false) by (apply Ascii.eqb_neq; intros ->; done). rewrite Hq in H |- *.
    destruct (Ascii.eqb c "{") eqn:Eo; [|destruct (Ascii.eqb c "[") eqn:Ea].
    + destruct (skip_ws r) as [|d r1] eqn:Er; [done|]. destruct (Ascii.eqb_spec d "}") as [->|Hd].
      * injection H as <- <-. by rewrite (skip_inert _ _ _ Er).
      * destruct (parse_members n r) as [[m x]|] eqn:E; [|done]. injection H as <- <-.
        destruct (members_head _ _ _ _ E) as (r2 & Hr2). rewrite (skip_quote _ _ Hr2). cbn iota.
        change (Ascii.eqb quote_char "}") with false. cbn iota. by rewrite (IHm _ _ _ E).
    + destruct (skip_ws r) as [|d r1] eqn:Er; [done|]. destruct (Ascii.eqb_spec d "]") as [->|Hd].
      * injection H as <- <-. by rewrite (skip_inert _ _ _ Er).
      * destruct (parse_elements n r) as [[l x]|] eqn:E; [|done]. injection H as <- <-.
        pose proof (IHe _ _ _ E I) as E'. destruct (elements_head _ _ _ _ E) as (c' & r2 & Hr2 & Hn & [Hi| ->]).
        -- rewrite (skip_inert _ _ _ Hr2 Hi), Hn. by rewrite E'.
        -- rewrite (skip_quote _ _ Hr2). change (Ascii.eqb quote_char "]") with false. cbn iota. by rewrite E'.
    + apply embeds_scalar in H; [|done]. by rewrite outside_inert in H.
  - pose proof (members_head _ _ _ _ H) as (r & Hs). cbn [parse_members] in H |- *. rewrite Hs in H. rewrite (skip_quote _ _ Hs).
    change (Ascii.eqb quote_char quote_char) with true in *. cbn iota in H |- *.
    destruct (scan_string r) as [[raw r1]|] eqn:E1; [|done]. cbn [mbind option_bind] in H.
    destruct (scan_inside _ _ _ t E1) as (raw' & -> & Hraw). cbn [mbind option_bind]. rewrite Hraw.
    destruct (skip_ws r1) as [|k r2] eqn:E2; [done|]. destruct (Ascii.eqb_spec k ":") as [->|]; [|done].
    rewrite (skip_inert _ _ _ E2) by done. change (Ascii.eqb ":" ":") with true. cbn iota.
    destruct (parse_value n r2) as [[v r3]|] eqn:E3; [|done]. cbn [mbind option_bind] in H.
    destruct (skip_ws r3) as [|d r4] eqn:E4; [done|].
    assert (Hd : closes d = true) by (unfold closes; destruct (Ascii.eqb d "}"); [by rewrite orb_true_r|]; destruct (Ascii.eqb d ","); done).
    rewrite (IHv _ _ _ E3) by by rewrite E4. cbn [mbind option_bind].
    rewrite (skip_inert _ _ _ E4) by by destruct (closes_cases d Hd) as [->| [->| ->] ].
    destruct (Ascii.eqb d "}"); [by injection H as <- <-|]. destruct (Ascii.eqb d ","); [|done].
    destruct (parse_members n r4) as [[m x]|] eqn:E5; [|done]. injection H as <- <-. by rewrite (IHm _ _ _ E5).
  - cbn [parse_elements] in H |- *. destruct (parse_value n s) as [[v r1]|] eqn:E1; [|done]. cbn [mbind option_bind] in H.
    destruct (skip_ws r1) as [|d r2] eqn:E2; [done|].
    assert (Hd : closes d = true) by (unfold closes; destruct (Ascii.eqb d "]"); [by rewrite orb_true_r|]; destruct (Ascii.eqb d ","); done).
    rewrite (IHv _ _ _ E1) by by rewrite E2. cbn [mbind option_bind].
    rewrite (skip_inert _ _ _ E2) by by destruct (closes_cases d Hd) as [->| [->| ->] ].
    destruct (Ascii.eqb d "]"); [by injection H as <- <-|]. destruct (Ascii.eqb d ","); [|done].
    destruct (parse_elements n r2) as [[l x]|] eqn:E3; [|done]. injection H as <- <-. by rewrite (IHe _ _ _ E3).
Qed.
End embedded.

(** ** Texts that stand for a document *)

(** Wherever the text stands as a value, it is read as the document. *)
Definition denotes (text : string) (j : json) : Prop :=
  forall t, ends t -> forall n, (2 * length (chars text ++ t) + 1 <= n)%nat -> parse_value n (chars text ++ t) = Some (j, t).

Lemma denotes_parse text j : denotes text j -> parse_json text = Some j.
Proof.
  intros H. specialize (H [] I (value_fuel (chars text))). rewrite app_nil_r in H. unfold parse_json.
  rewrite H; [done|]. unfold value_fuel. lia.
Qed.

Lemma denotes_compact text j : parse_json text = Some j -> denotes (compact text) j.
Proof.
  unfold parse_json. intros H t Ht n Hn. set (s := chars text) in *.
  destruct (parse_value (value_fuel s) s) as [[v rest]|] eqn:E; [|done]. cbn [mbind option_bind] in H.
  destruct (skip_ws rest) eqn:Er; [|done]. injection H as ->.
  unfold compact in *. rewrite chars_of_chars in *. fold s in Hn |- *.
  rewrite <- (parse_value_enough (max n (value_fuel s)) s) in E by (unfold value_fuel; lia).
  destruct (parse_embeds t Ht (max n (value_fuel s))) as [Hv _]. assert (Hends : ends (skip_ws rest)) by by rewrite Er. specialize (Hv _ _ _ E Hends).
  rewrite <- (outside_skip rest), Er in Hv. etrans; [|exact Hv]. apply parse_fuel; lia.
Qed.

Lemma denotes_string s : utf8_valid s = true -> denotes (encode_string true s) (JString s).
Proof. intros Hv t _ [|n] Hn; [lia|]. by apply parse_literal. Qed.

(** A string that is not UTF-8 is written as one that is. *)
Lemma encode_denotes s : exists s', denotes (encode_string true s) (JString s').
Proof.
  assert (Hq : forall n l, (length l <= n)%nat -> exists l', escaped_as (escape true n l) l').
  { induction n as [|n IH]; intros [|c r] Hl; cbn [length] in Hl; [exists []; constructor|lia|exists []; constructor|].
    cbn [escape]. destruct (Z.ltb_spec (code c) 128) as [Hc|Hc].
    { destruct (IH r ltac:(lia)) as [l' Hl']. eexists. econstructor; [by apply quotes_ascii|done]. }
    destruct (utf8_width (code <$> c :: r)) as [|k] eqn:Ew.
    { destruct (IH r ltac:(lia)) as [l' Hl']. exists (replacement ++ l'). econstructor; [|done].
      split; [done|]. split; [intros t; reflexivity|intros m t; reflexivity]. }
    destruct (IH (drop (S k) (c :: r)) ltac:(rewrite length_drop; cbn [length]; lia)) as [l' Hl'].
    assert (Hp : exists l', escaped_as (take (S k) (c :: r) ++ escape true n (drop (S k) (c :: r))) l').
    { eexists. econstructor; [|done]. apply quotes_rune; [done|]. intros ? ? [= <- <-]. lia. }
    assert (Hsep : forall last : bool, exists l', escaped_as (chars (if last then "\u2029" else "\u2028") ++ escape true n (drop (S k) (c :: r))) l').
    { intros last. eexists. econstructor; [apply quotes_separator|done]. }
    repeat (case_match; try exact Hp); [exact (Hsep true)|exact (Hsep false)]. }
  destruct (Hq (String.length s) (chars s) ltac:(by rewrite length_chars)) as [l' He]. exists (of_chars l').
  intros t _ [|n] Hn; [lia|]. unfold encode_string in *. rewrite chars_of_chars in *. cbn [app parse_value skip_ws].
  change (is_ws (chr 34)) with false. cbn iota. change (Ascii.eqb (chr 34) "{") with false. change (Ascii.eqb (chr 34) "[") with false.
  change (Ascii.eqb (chr 34) quote_char) with true. cbn iota. rewrite <- app_assoc. cbn [app]. change (chr 34) with quote_char.
  rewrite (scan_escaped _ _ t He). cbn [mbind option_bind]. unfold decode_raw_string. by rewrite (unquote_escaped _ _ He).
Qed.

(** Arrays and objects of texts. *)
Definition array_text (items : list string) : string := "[" +:+ join "," items +:+ "]".
Definition member_text (kv : string * string) : string := encode_string true (fst kv) +:+ ":" +:+ snd kv.
Definition object_text (members : list (string * string)) : string := "{" +:+ join "," (member_text <$> members) +:+ "}".

Lemma denotes_elements items : items <> [] -> forall js, Forall2 denotes items js -> forall t n,
  (2 * length (chars (join "," items) ++ "]"%char :: t) + 2 <= n)%nat ->
  parse_elements n (chars (join "," items) ++ "]"%char :: t) = Some (js, t).
Proof.
  intros Hne js H. induction H as [|v j items js Hv Hi IH]; [done|]. intros t [|n] Hn; [lia|].
  cbn [parse_elements]. destruct items as [|v' items].
  - apply Forall2_nil_inv_l in Hi as ->. cbn [join] in *. rewrite (Hv ("]"%char :: t)) by (done || lia). done.
  - change (join "," (v :: v' :: items)) with (v +:+ "," +:+ join "," (v' :: items)) in *. rewrite !chars_app, <- !app_assoc in *.
    change (chars "," ++ ?x) with (","%char :: x) in *. rewrite !length_app in Hn. cbn [length] in Hn. rewrite !length_app in Hn. cbn [length] in Hn.
    rewrite (Hv (","%char :: chars (join "," (v' :: items)) ++ "]"%char :: t));
      [|done|rewrite !length_app; cbn [length]; rewrite !length_app; cbn [length]; lia].
    cbn [mbind option_bind skip_ws]. change (is_ws ",") with false. cbn iota. change (Ascii.eqb "," "]") with false.
    change (Ascii.eqb "," ",") with true. cbn iota. rewrite IH; [done|done|]. rewrite !length_app. cbn [length]. lia.
Qed.

Lemma denotes_array items js : Forall2 denotes items js -> denotes (array_text items) (JArray js).
Proof.
  intros H t Ht [|n] Hn; [lia|]. unfold array_text in *. rewrite !chars_app, <- !app_assoc in *.
  change (chars "[" ++ ?x) with ("["%char :: x) in *. change (chars "]" ++ ?x) with ("]"%char :: x) in *. cbn [length] in Hn.
  cbn [parse_value skip_ws]. change (is_ws "[") with false. cbn iota. change (Ascii.eqb "[" "{") with false.
  change (Ascii.eqb "[" "[") with true. cbn iota. destruct items as [|v items].
  - apply Forall2_nil_inv_l in H as ->. cbn [join chars app skip_ws]. by change (is_ws "]") with false.
  - pose proof (denotes_elements (v :: items) ltac:(done) _ H t n ltac:(lia)) as He.
    destruct (elements_head _ _ _ _ He) as (c & r & -> & -> & _). by rewrite He.
Qed.

Lemma denotes_members members : members <> [] -> forall js,
  Forall2 (fun kv kj => fst kv = fst kj /\ utf8_valid (fst kv) = true /\ denotes (snd kv) (snd kj)) members js -> forall t n,
  (2 * length (chars (join "," (member_text <$> members)) ++ "}"%char :: t) + 2 <= n)%nat ->
  parse_members n (chars (join "," (member_text <$> members)) ++ "}"%char :: t) = Some (js, t).
Proof.
  intros Hne js H. induction H as [|[k v] [k' j] members js (Hk & Hu & Hv) Hi IH]; [done|]. cbn in Hk, Hu, Hv. subst k'.
  set (rest := match members with [] => [] | _ => ","%char :: chars (join "," (member_text <$> members)) end).
  assert (Htext : chars (join "," (member_text <$> (k, v) :: members)) = chars (encode_string true k) ++ ":"%char :: chars v ++ rest).
  { unfold rest. destruct members as [|m members]; cbn [fmap list_fmap join]; unfold member_text at 1; cbn [fst snd];
      rewrite !chars_app, <- ?app_assoc; [by rewrite app_nil_r|done]. }
  intros t [|n] Hn; [lia|]. rewrite Htext in *. rewrite <- !app_assoc in *. cbn [app] in *. rewrite <- !app_assoc in *.
  destruct (member_name k (chars v ++ rest ++ "}"%char :: t) Hu) as (raw & Hc & Hscan & Hname).
  assert (Hlen : (2 * length (chars v ++ rest ++ "}"%char :: t) + 1 <= n)%nat) by (rewrite length_app in Hn; cbn [length] in Hn; lia).
  rewrite Hc. cbn [parse_members skip_ws]. change (is_ws quote_char) with false. cbn iota. change (Ascii.eqb quote_char quote_char) with true.
  cbn iota. rewrite Hscan. cbn [mbind option_bind skip_ws]. change (is_ws ":") with false. cbn iota. change (Ascii.eqb ":" ":") with true. cbn iota.
  rewrite (Hv (rest ++ "}"%char :: t)); [|by unfold rest; destruct members|done]. cbn [mbind option_bind]. rewrite Hname.
  unfold rest in *. destruct members as [|m members].
  - by apply Forall2_nil_inv_l in Hi as ->.
  - cbn [app skip_ws]. change (is_ws ",") with false. cbn iota. change (Ascii.eqb "," "}") with false. change (Ascii.eqb "," ",") with true.
    cbn iota. rewrite length_app in Hlen. cbn [app length] in Hlen. by rewrite IH by (done || lia).
Qed.

Lemma denotes_object members js :
  Forall2 (fun kv kj => fst kv = fst kj /\ utf8_valid (fst kv) = true /\ denotes (snd kv) (snd kj)) members js ->
  denotes (object_text members) (JObject js).
Proof.
  intros H t Ht [|n] Hn; [lia|]. unfold object_text in *. rewrite !chars_app, <- !app_assoc in *.
  change (chars "{" ++ ?x) with ("{"%char :: x) in *. change (chars "}" ++ ?x) with ("}"%char :: x) in *. cbn [length] in Hn.
  cbn [parse_value skip_ws]. change (is_ws "{") with false. cbn iota. change (Ascii.eqb "{" "{") with true. cbn iota.
  destruct members as [|m members].
  - apply Forall2_nil_inv_l in H as ->. cbn [fmap list_fmap join chars app skip_ws]. by change (is_ws "}") with false.
  - pose proof (denotes_members (m :: members) ltac:(done) _ H t n ltac:(lia)) as He.
    destruct (members_head _ _ _ _ He) as (r & ->). change (Ascii.eqb quote_char "}") with false. cbn iota. by rewrite He.
Qed.
