(* ===== verification/JsonDecode.v ===== *)
(** Decoding parsed documents into Go values: [json.Unmarshal] into maps, slices
    and structs.  A value decoded into [any] is the document itself, a number
    kept as its literal; what [Unmarshal] refuses is a literal outside the range
    of [float64].  [null] leaves a map or a slice nil, which reads as empty. *)

From S2P Require Import Prelude GoString Digits JsonTree JsonText.
From Stdlib Require Import Ascii.

(** ** Numbers *)

(** The least magnitude that does not round to a finite float64: the largest one
    and half a unit in its last place. *)
Definition float_limit : Z := 2 ^ 1024 - 2 ^ 970.

(** The digits of a literal without its point, and the power of ten they are to
    be multiplied by. *)
Definition literal_parts (text : string) : Z * Z :=
  let body := match chars text with c :: r => if Ascii.eqb c "-" then r else c :: r | [] => [] end in
  let '(mantissa, exponent) := cut_char "e" ((fun c => if Ascii.eqb c "E" then "e"%char else c) <$> body) in
  let '(i, f) := cut_char "." mantissa in
  let f := default [] f in
  let e := match default [] exponent with
           | c :: r => if Ascii.eqb c "-" then - dval r else if Ascii.eqb c "+" then dval r else dval (c :: r)
           | [] => 0
           end in
  (dval (i ++ f), e - Z.of_nat (length f)).

(** [strconv.ParseFloat] of a literal succeeds.  The number of digits before the
    point decides, unless there are 309 of them. *)
Definition float_ok (text : string) : bool :=
  let '(m, e) := literal_parts text in
  let places := Z.of_nat (length (digits m)) + e in
  if (m =? 0) || (places <? 309) then true
  else if places =? 309 then m * 10 ^ Z.max e 0 <? float_limit * 10 ^ Z.max (- e) 0 else false.

Example float_ok_ex :
  (float_ok "1.7976931348623157e308", float_ok "-1.7976931348623159e+308", float_ok "1e309", float_ok "0e999999", float_ok "1E-400")
  = (true, false, false, true, true).
Proof. vm_compute. reflexivity. Qed.

(** The numbers of a document, decoded into [any]. *)
Fixpoint any_ok (j : json) : bool :=
  match j with
  | JNumber text => float_ok text
  | JArray l => forallb any_ok l
  | JObject fields => forallb (fun kv => any_ok (snd kv)) fields
  | _ => true
  end.

(** ** Decoders

    A decoder answers [None] where [Unmarshal] reports an error. *)
Section decoders.
Context {A : Type} (decode : json -> option A).

(** Into a map; of repeated names the last one counts, but each must decode. *)
Definition decode_map (j : json) : option (gmap string A) :=
  match j with
  | JNull => Some ∅
  | JObject fields =>
      entries ← mapM (fun kv => v ← decode (snd kv); Some (fst kv, v)) fields;
      Some (fold_left (fun acc kv => <[fst kv := snd kv]> acc) entries ∅)
  | _ => None
  end.

Definition decode_list (j : json) : option (list A) :=
  match j with
  | JNull => Some []
  | JArray l => mapM decode l
  | _ => None
  end.

(** Into a struct: each member sets the field whose name it has up to case, in
    order; other members are ignored. *)
Fixpoint field_setter (setters : list (string * (json -> A -> option A))) (name : string) : option (json -> A -> option A) :=
  match setters with
  | [] => None
  | f :: rest => if equal_fold (fst f) name then Some (snd f) else field_setter rest name
  end.

Definition set_member (setters : list (string * (json -> A -> option A))) (acc : option A) (kv : string * json) : option A :=
  a ← acc;
  match field_setter setters (fst kv) with
  | Some f => f (snd kv) a
  | None => Some a
  end.

Definition decode_struct (setters : list (string * (json -> A -> option A))) (zero : A) (j : json) : option A :=
  match j with
  | JNull => Some zero
  | JObject fields => fold_left (set_member setters) fields (Some zero)
  | _ => None
  end.
End decoders.

Definition decode_raw (j : json) : option json := Some j.
Definition decode_any (j : json) : option json := if any_ok j then Some j else None.
Definition decode_text (j : json) : option string := decode_string "" j.

(** [map[string]json.RawMessage] and [map[string]any]. *)
Definition decode_raw_map : json -> option (gmap string json) := decode_map decode_raw.
Definition decode_any_map : json -> option (gmap string json) := decode_map decode_any.

Example decode_map_ex :
  decode_any_map (JObject [("a", JNumber "1"); ("a", JNull)]) = Some {["a" := JNull]}.
Proof. vm_compute. reflexivity. Qed.

(** Decode the members of a document whose names are constants. *)
Ltac decode_members :=
  cbn [decode_struct fold_left set_member field_setter fst snd mbind option_bind];
  repeat (match goal with
          | |- context [equal_fold ?a ?b] =>
              let v := eval vm_compute in (equal_fold a b) in
              lazymatch v with true => idtac | false => idtac end; change (equal_fold a b) with v
          end; cbn [field_setter fst snd mbind option_bind set_member]).
