(* ===== verification/Archive.v ===== *)
(** The content-addressed archive (internal/archive/store.go, the configuration
    checks of internal/archive/client.go).

    The S3 service is a parameter: its three calls act on a world [W] of which
    only documented behaviour is assumed ([S3Laws]): an object, once written
    with If-None-Match, is not replaced, a successful call reports what the
    bucket holds.  What the archive promises its clients is [ContentStore]. *)

From S2P Require Import Prelude GoString Digits Sha256.
From Stdlib Require Import Ascii.

Module Archive.

Definition ErrInvalidDigest : goerr := ENew "invalid content SHA-256".
Definition ErrContentMismatch : goerr :=
  ENew "existing archive object content does not match its address".

Record Object : Type := mkObject {
  Key : string;
  ContentSHA256 : string;
  MediaType : string;
  Body : string;
  Metadata : gmap string string;
}.

Record Reference : Type := mkReference {
  RefKey : string;
  RefContentSHA256 : string;
  RefByteLength : Z;
  RefMediaType : string;
}.

(** ** Addresses *)

Definition SHA256Hex (body : string) : string := sha256_hex body.

(** 64 characters, hexadecimal, and unchanged by lowering. *)
Definition validDigest (value : string) : bool :=
  (slen value =? 64) && forallb is_hex (chars value) && bool_decide (value = to_lower value).

Definition ObjectKey (digest : string) : string :=
  let digest := to_lower (trim_space digest) in
  if validDigest digest
  then "sha256/" +:+ of_chars (take 2 (chars digest)) +:+ "/" +:+ digest else "".

(** "sha256/", two and then sixty-four lower-case hexadecimal digits. *)
Definition validObjectKey (value : string) : bool :=
  match strip_prefix (chars "sha256/") (chars value) with
  | Some (a :: b :: s :: rest) =>
      is_lower_hex a && is_lower_hex b && Ascii.eqb s "/"
      && (length rest =? 64)%nat && forallb is_lower_hex rest
  | _ => false
  end.

Definition validateObject (object : Object) : option goerr :=
  if negb (validDigest (ContentSHA256 object))
     || negb (bool_decide (ObjectKey (ContentSHA256 object) = Key object))
  then Some ErrInvalidDigest
  else if negb (bool_decide (SHA256Hex (Body object) = ContentSHA256 object))
  then Some ErrContentMismatch
  else if bool_decide (trim_space (MediaType object) = "")
  then Some (ENew "archive media type is required")
  else None.

(** ** Metadata *)

Definition secret_words : list string :=
  ["authorization"; "apikey"; "api-key"; "api_key"; "accesskey"; "access-key"; "access_key";
   "secret"; "token"; "password"; "credential"; "cookie"; "session"].

(** The case-insensitive pattern for names that carry credentials. *)
Definition secretName (name : string) : bool :=
  let folded := of_chars (fold_chars (chars name)) in
  existsb (fun w => contains folded w) secret_words.

(** The runes of a value without control characters; an invalid byte becomes
    U+FFFD. *)
Fixpoint strip_control (fuel : nat) (s : list ascii) : list ascii :=
  match s, fuel with
  | c :: r, S fuel' =>
      match utf8_width (code <$> s) with
      | O => chr 239 :: chr 191 :: chr 189 :: strip_control fuel' r
      | n =>
          match code <$> take n s with
          | [b] => (if (b <? 32) || (b =? 127) then [] else [c]) ++ strip_control fuel' r
          | [194; b] => (if b <? 160 then [] else take n s) ++ strip_control fuel' (drop n s)
          | _ => take n s ++ strip_control fuel' (drop n s)
          end
      end
  | _, _ => []
  end.

(** Package net/url: parsing, the parts replaced, and printing. *)
Record urlAPI (U : Type) : Type := mkUrlAPI {
  url_parse : string -> option U;
  clear_user : U -> U;
  url_query : U -> list (string * list string);
  set_query : list (string * list string) -> U -> U;
  url_string : U -> string;
}.
Arguments url_parse {U}.
Arguments clear_user {U}.
Arguments url_query {U}.
Arguments set_query {U}.
Arguments url_string {U}.

Section metadata.
Context {U : Type} (api : urlAPI U).

Definition RedactedURL (raw : string) : string :=
  match url_parse api raw with
  | None => "[invalid-url]"
  | Some u =>
      let u := clear_user api u in
      url_string api
        (set_query api (List.filter (fun kv => negb (secretName (fst kv))) (url_query api u)) u)
  end.

(** One entry of the loop, which visits them in no particular order. *)
Definition sanitize_entry (output : gmap string string) (kv : string * string)
    : gmap string string :=
  let key := to_lower (trim_space (fst kv)) in
  if bool_decide (key = "") || secretName key then output
  else
    let value := of_chars (strip_control (String.length (snd kv)) (chars (snd kv))) in
    let value := if contains key "uri" || bool_decide (key = "url")
                 then RedactedURL value else value in
    <[key := value]> output.

Definition SanitizedMetadata (input : list (string * string)) : gmap string string :=
  fold_left sanitize_entry input ∅.
End metadata.

(** ** The S3 service *)

(** The code of the API error an error wraps, if any. *)
Fixpoint api_code (e : goerr) : option string :=
  match e with
  | ECode c _ => Some c
  | EWrap _ e' => api_code e'
  | _ => None
  end.

Definition isNotFound (e : goerr) : bool :=
  match api_code e with
  | Some c => bool_decide (c ∈ ["NotFound"; "NoSuchKey"; "404"])
  | None => false
  end.

Definition isConditionalConflict (e : goerr) : bool :=
  match api_code e with
  | Some c => bool_decide (c ∈ ["PreconditionFailed"; "ConditionalRequestConflict"; "412"; "409"])
  | None => false
  end.

Record S3Object : Type := mkS3Object {
  s3_body : string;
  s3_type : string;
  s3_metadata : gmap string string;
}.

Record HeadOutput : Type := mkHead {
  ContentLength : option Z;
  ContentType : option string;
}.

(** Each call may answer a nil output; a body is a stream that may fail. *)
Class S3API (W : Type) : Type := {
  HeadObject : string -> W -> res (option HeadOutput) * W;
  PutObject : string -> S3Object -> W -> res unit * W;
  GetObject : string -> W -> res (option (res string)) * W;
}.

Section s3.
Context {W U : Type} `{!S3API W} (api : urlAPI U).

Definition verifyExisting (object : Object) (head : option HeadOutput) (w : W) : res unit * W :=
  match head with
  | None => (Err ErrContentMismatch, w)
  | Some h =>
      if negb (default 0 (ContentLength h) =? slen (Body object))
         || negb (bool_decide (default "" (ContentType h) = MediaType object))
      then (Err ErrContentMismatch, w)
      else
        match GetObject (Key object) w with
        | (Err e, w) => (Err (EWrap "get existing archive object" e), w)
        | (Ok None, w) => (Err ErrContentMismatch, w)
        | (Ok (Some (Err e)), w) => (Err (EWrap "read existing archive object" e), w)
        | (Ok (Some (Ok stream)), w) =>
            let body := of_chars (take (String.length (Body object) + 1) (chars stream)) in
            if bool_decide (body = Body object) then (Ok tt, w) else (Err ErrContentMismatch, w)
        end
  end.

Definition Put (object : Object) (w : W) : res unit * W :=
  match validateObject object with
  | Some e => (Err e, w)
  | None =>
      let metadata := <["sha256" := ContentSHA256 object]>
                        (SanitizedMetadata api (map_to_list (Metadata object))) in
      match HeadObject (Key object) w with
      | (Ok head, w) => verifyExisting object head w
      | (Err e, w) =>
          if negb (isNotFound e) then (Err (EWrap "head archive object" e), w)
          else
            match PutObject (Key object) (mkS3Object (Body object) (MediaType object) metadata) w with
            | (Ok _, w) => (Ok tt, w)
            | (Err e, w) =>
                if isConditionalConflict e then
                  match HeadObject (Key object) w with
                  | (Ok winner, w) => verifyExisting object winner w
                  | (Err _, w) => (Err (EWrap "put archive object" e), w)
                  end
                else (Err (EWrap "put archive object" e), w)
            end
      end
  end.

(** A nil output with no error would be dereferenced. *)
Definition Get (key : string) (w : W) : res (res string) * W :=
  if negb (validObjectKey key) then (Err (ENew "invalid archive object key"), w)
  else
    match GetObject key w with
    | (Err e, w) => (Err (EWrap "get archive object" e), w)
    | (Ok None, w) => (Err (EPanic "nil pointer dereference"), w)
    | (Ok (Some body), w) => (Ok body, w)
    end.
End s3.

(** ** Clients *)

Section payload.
Context {W U : Type} (api : urlAPI U).

(** [store] is the [Store] interface, possibly nil. *)
Definition ArchivePayload (store : option (Object -> W -> res unit * W)) (body mediaType : string)
    (metadata : list (string * string)) (w : W) : res Reference * W :=
  match store with
  | None => (Err (ENew "archive store is required"), w)
  | Some put =>
      let digest := SHA256Hex body in
      let ref := mkReference (ObjectKey digest) digest (slen body) mediaType in
      match put (mkObject (RefKey ref) digest mediaType body (SanitizedMetadata api metadata)) w with
      | (Ok _, w) => (Ok ref, w)
      | (Err e, w) => (Err e, w)
      end
  end.
End payload.

Record ClientConfig : Type := mkClientConfig {
  Endpoint : string;
  Region : string;
  AccessKeyID : string;
  SecretAccessKey : string;
  Bucket : string;
}.

Definition blank (s : string) : bool := bool_decide (trim_space s = "").

(** [NewS3StoreFromConfig] up to the construction of the SDK client. *)
Definition NewS3StoreFromConfig (cfg : ClientConfig) : option goerr :=
  if blank (Endpoint cfg) || blank (Region cfg) then Some (ENew "S3 endpoint and region are required")
  else if blank (AccessKeyID cfg) || blank (SecretAccessKey cfg)
  then Some (ENew "S3 credentials are required")
  else if blank (Bucket cfg) then Some (ENew "S3 bucket is required")
  else None.

(** What a store promises: a successful [Put] leaves the body at its key, and
    what is at a key stays there. *)
Class ContentStore {W : Type} (put : Object -> W -> res unit * W)
    (holds : W -> string -> string -> Prop) : Prop := {
  put_holds object w w' : put object w = (Ok tt, w') -> holds w' (Key object) (Body object);
  put_addressed object w w' : put object w = (Ok tt, w') ->
    Key object = ObjectKey (ContentSHA256 object) /\ SHA256Hex (Body object) = ContentSHA256 object;
  put_keeps object w r w' key body : put object w = (r, w') -> holds w key body -> holds w' key body;
}.

(** What an archive must be for its readers: a body it returns is held at the
    key, and reading loses nothing. *)
Class ArchiveReader {W : Type} (g : string -> W -> res (res string) * W) (holds : W -> string -> string -> Prop) : Prop := {
  read_held key w body w' : g key w = (Ok (Ok body), w') -> holds w' key body;
  read_keeps key w r w' : g key w = (r, w') -> forall k b, holds w k b -> holds w' k b;
}.

(** The documented behaviour of the service the proofs rely on. *)
Class S3Laws (W : Type) `{S3API W} (contents : W -> gmap string S3Object) : Prop := {
  head_grows k w r w' : HeadObject k w = (r, w') -> contents w ⊆ contents w';
  get_grows k w r w' : GetObject k w = (r, w') -> contents w ⊆ contents w';
  put_grows k o w r w' : PutObject k o w = (r, w') -> contents w ⊆ contents w';
  put_writes k o w w' : PutObject k o w = (Ok tt, w') -> contents w' !! k = Some o;
  get_reads k w w' body : GetObject k w = (Ok (Some (Ok body)), w') ->
    exists o, contents w' !! k = Some o /\ s3_body o = body;
}.

End Archive.
