(* ===== verification/ArchiveProofs.v ===== *)
(** The archive keeps its promise: over any service with the documented
    behaviour, [Put] and [ArchivePayload] are content-addressed, immutable and
    safe to retry, and metadata never carries a credential-bearing name. *)

From S2P Require Import Prelude GoString Digits Sha256 Archive.
From Stdlib Require Import Ascii.
Import Archive.

(** ** Digests and keys *)

Lemma hash_digest body : validDigest (SHA256Hex body) = true.
Proof.
  destruct (sha256_hex_shape body) as [Hl Hx]. unfold validDigest, SHA256Hex.
  rewrite lower_hex_lower by done. rewrite bool_decide_true by done.
  rewrite Hl, andb_true_r. cbn [andb Z.eqb Pos.eqb]. apply forallb_forall.
  intros c Hc. rewrite forallb_forall in Hx. by destruct (lower_hex_cases c (Hx c Hc)) as (_ & ? & _).
Qed.

Lemma ObjectKey_hash body :
  ObjectKey (SHA256Hex body) =
    "sha256/" +:+ of_chars (take 2 (chars (SHA256Hex body))) +:+ "/" +:+ SHA256Hex body.
Proof.
  unfold ObjectKey. destruct (sha256_hex_shape body) as [_ Hx]. fold (SHA256Hex body) in Hx.
  by rewrite lower_hex_trim, lower_hex_lower, hash_digest by done.
Qed.

Lemma chars_sub s t : chars (s +:+ t) = chars s ++ chars t.
Proof. apply chars_app. Qed.

(** Every key the archive hands out is one [Get] accepts. *)
Lemma ObjectKey_valid body : validObjectKey (ObjectKey (SHA256Hex body)) = true.
Proof.
  rewrite ObjectKey_hash. destruct (sha256_hex_shape body) as [Hl Hx].
  fold (SHA256Hex body) in Hl, Hx. unfold validObjectKey.
  rewrite !chars_sub, chars_of_chars.
  unfold slen in Hl. rewrite <- length_chars in Hl.
  destruct (chars (SHA256Hex body)) as [|a [|b r]] eqn:E; try done.
  cbn [forallb] in Hx. apply andb_prop in Hx as [Ha Hx]. apply andb_prop in Hx as [Hb Hr].
  cbn [take app]. unfold chars at 1 2. cbn [String.list_ascii_of_string strip_prefix app Ascii.eqb Bool.eqb].
  change (take 0 r) with (@nil ascii). cbn [app].
  rewrite Ascii.eqb_refl. cbn [length forallb] in Hl |- *. rewrite Ha, Hb, Hr, !andb_true_r.
  apply Nat.eqb_eq. lia.
Qed.

(** ** The store over S3 *)

Section laws.
Context {W U : Type} `{HS : S3API W} (api : urlAPI U) (contents : W -> gmap string S3Object)
  `{!S3Laws W contents}.

(** The bucket holds a body at a key. *)
Definition holds (w : W) (key body : string) : Prop :=
  exists o, contents w !! key = Some o /\ s3_body o = body.

Lemma holds_grows w w' key body : contents w ⊆ contents w' -> holds w key body -> holds w' key body.
Proof. intros Hsub (o & Ho & Hb). exists o. split; [by eapply lookup_weaken|done]. Qed.

Lemma take_prefix_eq (s t : list ascii) : take (length t + 1) s = t -> s = t.
Proof.
  intros H. destruct (le_lt_dec (length s) (length t + 1)) as [Hle|Hlt].
  - by rewrite take_ge in H by lia.
  - assert (Hl : length (take (length t + 1) s) = length t) by by rewrite H.
    rewrite length_take in Hl. lia.
Qed.

Lemma verifyExisting_spec object head w r w' :
  verifyExisting object head w = (r, w') ->
  contents w ⊆ contents w' /\ (r = Ok tt -> holds w' (Key object) (Body object)).
Proof.
  unfold verifyExisting. destruct head as [h|]; [|by intros [= <- <-]].
  destruct (_ || _); [by intros [= <- <-]|].
  destruct (GetObject (Key object) w) as [g w1] eqn:Eg. pose proof (get_grows _ _ _ _ Eg) as Hgrow.
  destruct g as [[[stream|e]|]|e]; try by intros [= <- <-].
  case_bool_decide as Hb; intros [= <- <-]; split; try done. intros _.
  apply get_reads in Eg as (o & Ho & Hs). exists o. split; [done|]. rewrite Hs.
  rewrite <- (of_chars_chars stream), <- (of_chars_chars (Body object)). f_equal.
  apply take_prefix_eq. rewrite length_chars, <- (chars_of_chars (take _ _)). by rewrite Hb.
Qed.

Lemma Put_spec object w r w' :
  Put api object w = (r, w') ->
  contents w ⊆ contents w' /\
  (r = Ok tt -> validateObject object = None /\ holds w' (Key object) (Body object)).
Proof.
  unfold Put. destruct (validateObject object) as [e|]; [by intros [= <- <-]|].
  destruct (HeadObject (Key object) w) as [h w1] eqn:Eh. pose proof (head_grows _ _ _ _ Eh) as H1.
  destruct h as [head|e].
  { intros Hv. apply verifyExisting_spec in Hv as [H2 Hr]. split; [by etransitivity|]. auto. }
  destruct (negb (isNotFound e)); [by intros [= <- <-]|].
  destruct (PutObject (Key object) _ w1) as [p w2] eqn:Ep. pose proof (put_grows _ _ _ _ _ Ep) as H2.
  destruct p as [[]|e'].
  { intros [= <- <-]. split; [by etransitivity|]. intros _. split; [done|].
    apply put_writes in Ep. by eexists. }
  destruct (isConditionalConflict e'); [|intros [= <- <-]; split; [by etransitivity|done]].
  destruct (HeadObject (Key object) w2) as [h3 w3] eqn:Eh3. pose proof (head_grows _ _ _ _ Eh3) as H3.
  destruct h3 as [winner|e3].
  - intros Hv. apply verifyExisting_spec in Hv as [H4 Hr].
    split; [do 3 (etransitivity; [eassumption|])|]; auto.
  - intros [= <- <-]. split; [do 2 (etransitivity; [eassumption|])|]; done.
Qed.

(** The S3 store implements the promise made to its clients. *)
#[export] Instance s3_content_store : ContentStore (Put api) holds.
Proof.
  split.
  - intros object w w' Hp. apply Put_spec in Hp as [_ Hp]. by apply Hp.
  - intros object w w' Hp. apply Put_spec in Hp as [_ Hp]. destruct (Hp eq_refl) as [Hv _].
    unfold validateObject in Hv. destruct (_ || _) eqn:E1; [done|].
    destruct (negb _) eqn:E2 in Hv; [done|]. bool_simp. done.
  - intros object w r w' key body Hp. apply Put_spec in Hp as [Hg _]. by apply holds_grows.
Qed.

(** A key [Get] accepts and the body the bucket holds there. *)
Definition readable (w : W) (key body : string) : Prop := validObjectKey key = true /\ holds w key body.

(** [Get] is what the readers of the archive rely on. *)
#[export] Instance s3_archive_reader : ArchiveReader Get readable.
Proof.
  split.
  - intros key w body w'. unfold Get. destruct (validObjectKey key) eqn:E; [cbn [negb]|done].
    destruct (GetObject key w) as [[[[b|e]|]|e] w1] eqn:Eg; try done. intros [= -> ->]. split; [done|].
    apply get_reads in Eg as (o & Ho & Hb). by exists o.
  - intros key w r w'. unfold Get. destruct (validObjectKey key); [cbn [negb]|by intros [= _ <-]].
    destruct (GetObject key w) as [g w1] eqn:Eg. pose proof (get_grows _ _ _ _ Eg) as Hg.
    assert (Hkeep : forall k b, readable w k b -> readable w1 k b).
    { intros k b [Hk Hb]. split; [done|]. by eapply holds_grows. }
    by destruct g as [[[b|e]|]|e]; intros [= _ <-].
Qed.
End laws.

(** ** Properties *)

(** Archiving is content-addressed.  Against any store that keeps the
    promise of the interface, a payload that is archived without error is at the
    key derived from its SHA-256, the reference returned gives that key, digest
    and length, [Get] accepts the key, and no later write to the store changes
    what is there. *)
Theorem payload_addressed {W U} (api : urlAPI U) (put : Object -> W -> res unit * W)
    (held : W -> string -> string -> Prop) (HC : ContentStore put held)
    body mediaType metadata w ref w' :
  ArchivePayload api (Some put) body mediaType metadata w = (Ok ref, w') ->
  ref = mkReference (ObjectKey (SHA256Hex body)) (SHA256Hex body) (slen body) mediaType /\
  validObjectKey (RefKey ref) = true /\ held w' (RefKey ref) body /\
  forall object r w'', put object w' = (r, w'') -> held w'' (RefKey ref) body.
Proof.
  unfold ArchivePayload.
  destruct (put _ w) as [[[]|e] w1] eqn:Ep; [|done]. intros [= <- <-]. split; [done|].
  split; [apply ObjectKey_valid|]. pose proof (put_holds _ _ _ Ep) as Hh. split; [exact Hh|].
  intros object r w'' Hp. by eapply put_keeps.
Qed.

(** What is assumed of the service when it is up: an object that is there is
    reported and read as it is. *)
Definition service_up {W} `{S3API W} (contents : W -> gmap string S3Object) : Prop :=
  forall k o w, contents w !! k = Some o ->
    (exists w', HeadObject k w = (Ok (Some (mkHead (Some (slen (s3_body o))) (Some (s3_type o)))), w')
       /\ contents w' = contents w) /\
    (exists w', GetObject k w = (Ok (Some (Ok (s3_body o))), w') /\ contents w' = contents w).

(** Writes are safe to retry and never replace.  When the key of a valid
    object is already taken and the service is up, [Put] writes nothing: it
    succeeds exactly when what is there has the same bytes and media type, and
    reports a content mismatch otherwise. *)
Lemma put_existing {W U} `{S3API W} (api : urlAPI U) (contents : W -> gmap string S3Object)
    object o w :
  service_up contents -> validateObject object = None -> contents w !! Key object = Some o ->
  exists w', contents w' = contents w /\
    Put api object w =
      (if bool_decide (s3_body o = Body object) && bool_decide (s3_type o = MediaType object)
       then Ok tt else Err ErrContentMismatch, w').
Proof.
  intros Hup Hv Ho. unfold Put. rewrite Hv.
  destruct (Hup _ _ _ Ho) as [(w1 & -> & H1) _]. unfold verifyExisting. cbn [ContentLength ContentType from_option id].
  destruct (Hup (Key object) o w1) as [_ (w2 & Hg & H2)]; [by rewrite H1|].
  destruct (negb (slen (s3_body o) =? slen (Body object))
            || negb (bool_decide (s3_type o = MediaType object))) eqn:E.
  - exists w1. split; [done|].
    destruct (decide (s3_body o = Body object)) as [Hb|Hb]; [|by rewrite bool_decide_false].
    destruct (decide (s3_type o = MediaType object)) as [Ht|Ht];
      [|by rewrite (bool_decide_false (s3_type o = MediaType object)), andb_false_r].
    rewrite Hb, Ht, Z.eqb_refl, bool_decide_true in E by done. done.
  - rewrite Hg. bool_simp. exists w2. split; [congruence|].
    rewrite (bool_decide_true (s3_type o = MediaType object)), andb_true_r by done.
    assert (Htake : take (String.length (Body object) + 1) (chars (s3_body o)) = chars (s3_body o)).
    { apply take_ge. unfold slen in *. rewrite length_chars. lia. }
    rewrite Htake, of_chars_chars. by case_bool_decide.
Qed.

(** Archived metadata never names a credential: whatever the input and the
    order in which it is visited, every name kept is lower-case, trimmed and not
    empty, comes from a name of the input, and does not match the credential
    pattern. *)
Theorem metadata_sanitized {U} (api : urlAPI U) input key value :
  SanitizedMetadata api input !! key = Some value ->
  key <> ""%string /\ secretName key = false /\
  exists raw v, (raw, v) ∈ input /\ key = to_lower (trim_space raw).
Proof.
  unfold SanitizedMetadata.
  assert (Hgen : forall l (m : gmap string string),
    (forall k v, m !! k = Some v -> k <> ""%string /\ secretName k = false /\
       exists raw v, (raw, v) ∈ input /\ k = to_lower (trim_space raw)) ->
    (forall x, x ∈ l -> x ∈ input) ->
    forall k v, fold_left (sanitize_entry api) l m !! k = Some v ->
      k <> ""%string /\ secretName k = false /\
      exists raw v, (raw, v) ∈ input /\ k = to_lower (trim_space raw)).
  { induction l as [|[raw v] l IH]; intros m Hm Hl k v' Hk; cbn [fold_left] in Hk; [by eapply Hm|].
    eapply IH; [|by intros x Hx; apply Hl; constructor|exact Hk]. intros k1 v1.
    unfold sanitize_entry. cbn [fst snd]. destruct (_ || _) eqn:E; [apply Hm|]. bool_simp.
    rewrite lookup_insert_Some. intros [[<- _]|[_ H1]]; [|by eapply Hm].
    split; [done|]. split; [done|]. exists raw, v. split; [apply Hl; constructor|done]. }
  apply Hgen; [|done]. intros k v. by rewrite lookup_empty.
Qed.

(** ** A concrete bucket *)

#[export] Instance map_s3 : S3API (gmap string S3Object) := {
  HeadObject k w := match w !! k with
    | Some o => (Ok (Some (mkHead (Some (slen (s3_body o))) (Some (s3_type o)))), w)
    | None => (Err (ECode "NotFound" ""), w) end;
  PutObject k o w := match w !! k with
    | Some _ => (Err (ECode "PreconditionFailed" ""), w)
    | None => (Ok tt, <[k := o]> w) end;
  GetObject k w := match w !! k with
    | Some o => (Ok (Some (Ok (s3_body o))), w)
    | None => (Err (ECode "NoSuchKey" ""), w) end;
}.

#[export] Instance map_s3_laws : S3Laws (gmap string S3Object) id.
Proof.
  split; cbn; unfold id.
  - intros k w r w'. by case_match; intros [= _ <-].
  - intros k w r w'. by case_match; intros [= _ <-].
  - intros k o w r w'. case_match; intros [= _ <-]; [done|]. by apply insert_subseteq.
  - intros k o w w'. case_match; [done|]. intros [= <-]. apply lookup_insert_eq.
  - intros k w w' body. destruct (w !! k) as [o|] eqn:E; [|done]. intros [= Hb <-]. eauto.
Qed.

Lemma map_s3_up : service_up (W := gmap string S3Object) id.
Proof. intros k o w Ho. cbn. unfold id in Ho. rewrite Ho. split; by exists w. Qed.

Definition no_urls : urlAPI unit :=
  mkUrlAPI unit (fun _ => None) (fun u => u) (fun _ => []) (fun _ u => u) (fun _ => ""%string).

Definition demo_ref : Reference :=
  mkReference (ObjectKey (SHA256Hex "abc")) (SHA256Hex "abc") 3 "text/csv".
Definition demo_metadata : list (string * string) := [("import-kind", "positions"); ("X-Token", "t")]%string.
Definition demo_bucket : gmap string S3Object :=
  snd (ArchivePayload no_urls (Some (Put no_urls)) "abc" "text/csv" demo_metadata (∅ : gmap string S3Object)).

Lemma payload_addressed_witness :
  demo_ref = mkReference (ObjectKey (SHA256Hex "abc")) (SHA256Hex "abc") (slen "abc") "text/csv" /\
  validObjectKey (RefKey demo_ref) = true /\ holds id demo_bucket (RefKey demo_ref) "abc" /\
  forall object r w'', Put no_urls object demo_bucket = (r, w'') ->
    holds id w'' (RefKey demo_ref) "abc".
Proof.
  apply (payload_addressed no_urls (Put no_urls) (holds id) _ "abc" "text/csv" demo_metadata ∅
           demo_ref demo_bucket).
  vm_compute. reflexivity.
Defined.

Lemma metadata_sanitized_witness :
  "import-kind" <> ""%string /\ secretName "import-kind" = false /\
  exists raw v, (raw, v) ∈ demo_metadata /\ "import-kind"%string = to_lower (trim_space raw).
Proof. apply (metadata_sanitized no_urls demo_metadata "import-kind" "positions"). vm_compute. reflexivity. Defined.
