(* ===== verification/Act.v ===== *)
(** Calls on a world outside the database: they act at once, and may fail. *)

From S2P Require Import Prelude.

Section act.
Context {W : Type}.

Definition act (A : Type) : Type := W -> res A * W.

Definition yield {A} (a : A) : act A := fun w => (Ok a, w).
Definition fail {A} (e : goerr) : act A := fun w => (Err e, w).
Definition of_option {A} (e : option goerr) (a : A) : act A := match e with Some e => fail e | None => yield a end.

Definition andthen {A B} (m : act A) (k : A -> act B) : act B :=
  fun w => match m w with (Ok a, w) => k a w | (Err e, w) => (Err e, w) end.

(** The result itself, for code that looks at [err]. *)
Definition catch {A} (m : act A) : act (res A) := fun w => let '(r, w) := m w in (Ok r, w).

Definition within_ctx {A} (context : string) (m : act A) : act A :=
  fun w => match m w with (Ok a, w) => (Ok a, w) | (Err e, w) => (Err (EWrap context e), w) end.
End act.
Arguments act : clear implicits.

Declare Scope act_scope.
Delimit Scope act_scope with act.
Notation "'let*' x := m 'in' k" := (andthen m (fun x => k))
  (at level 10, x name, m at level 100, k at level 200, only parsing) : act_scope.
Notation "m ;;; k" := (andthen m (fun _ => k))
  (at level 100, k at level 200, right associativity, only parsing) : act_scope.

(** ** A logic for calls: what holds of the world and the answer reached *)
Section logic.
Context {W : Type}.

Definition ends {A} (m : act W A) (Q : res A -> W -> Prop) (w : W) : Prop := Q (fst (m w)) (snd (m w)).

Lemma ends_mono {A} (m : act W A) (P Q : res A -> W -> Prop) w : ends m P w -> (forall r w', P r w' -> Q r w') -> ends m Q w.
Proof. unfold ends. auto. Qed.

Lemma ends_yield {A} (a : A) (Q : res A -> W -> Prop) w : Q (Ok a) w -> ends (yield a) Q w.
Proof. done. Qed.

Lemma ends_fail {A} e (Q : res A -> W -> Prop) w : Q (Err e) w -> ends (fail e) Q w.
Proof. done. Qed.

Lemma ends_andthen {A B} (m : act W A) (k : A -> act W B) Q w :
  ends m (fun r w' => match r with Ok a => ends (k a) Q w' | Err e => Q (Err e) w' end) w -> ends (andthen m k) Q w.
Proof. unfold ends, andthen. by destruct (m w) as [[a|e] w']. Qed.

Lemma ends_catch {A} (m : act W A) Q w : ends m (fun r w' => Q (Ok r) w') w -> ends (catch m) Q w.
Proof. unfold ends, catch. by destruct (m w). Qed.

Lemma ends_within_ctx {A} c (m : act W A) Q w :
  ends m (fun r w' => match r with Ok a => Q (Ok a) w' | Err e => Q (Err (EWrap c e)) w' end) w -> ends (within_ctx c m) Q w.
Proof. unfold ends, within_ctx. by destruct (m w) as [[a|e] w']. Qed.

Lemma ends_call {A} (m : act W A) Q w : (forall r w', m w = (r, w') -> Q r w') -> ends m Q w.
Proof. unfold ends. destruct (m w) as [r w']. auto. Qed.
End logic.

(** Walk a call down to what the world is asked. *)
Ltac act_step :=
  match goal with
  | |- ends (yield _) _ _ => apply ends_yield
  | |- ends (fail _) _ _ => apply ends_fail
  | |- ends (andthen _ _) _ _ => apply ends_andthen
  | |- ends (catch _) _ _ => apply ends_catch
  | |- ends (within_ctx _ _) _ _ => apply ends_within_ctx
  end.
