(* ===== verification/Fetcher.v ===== *)
(** The fetcher (internal/ingestion/fetcher.go): a bounded, retried GET of an
    allow-listed HTTPS source that keeps credentials out of what it records.

    The HTTP client, the sleep, the clock and the random source act on a world
    [W]; package net/url is a parameter.  A body is the bytes its reader gives
    and the error it then fails with, if any. *)

From S2P Require Import Prelude GoString Digits GoTime Sha256 Archive Act.
From Stdlib Require Import Ascii.
#[local] Open Scope Z_scope.

Module Fetcher.
#[local] Open Scope act_scope.

(** ** Headers *)

Abbreviation headers := (gmap string (list string)).

(** A byte of a header name. *)
Definition token_char (c : ascii) : bool :=
  is_digit c || is_lower c || is_upper c || bool_decide (c ∈ chars "!#$%&'*+-.^_`|~").

Fixpoint canonical_chars (upper : bool) (s : list ascii) : list ascii :=
  match s with
  | [] => []
  | c :: r => (if upper then upper_ascii c else lower_ascii c) :: canonical_chars (Ascii.eqb c "-") r
  end.

(** [textproto.CanonicalMIMEHeaderKey]. *)
Definition canonical_key (name : string) : string :=
  if forallb token_char (chars name) then of_chars (canonical_chars true (chars name)) else name.

Definition header_get (h : headers) (name : string) : string :=
  match h !! canonical_key name with Some (v :: _) => v | _ => "" end.
Definition header_add (h : headers) (name value : string) : headers :=
  <[canonical_key name := default [] (h !! canonical_key name) ++ [value]]> h.
Definition header_set (h : headers) (name value : string) : headers := <[canonical_key name := [value]]> h.
Definition header_del (h : headers) (name : string) : headers := delete (canonical_key name) h.

(** ** Data *)

(** The headers in the order their map is visited. *)
Record FetchRequest : Type := mkFetchRequest {
  URL : string;
  Headers : list (string * list string);
}.

Record FetchedResponse : Type := mkFetchedResponse {
  StatusCode : Z;
  MediaType : string;
  Body : string;
  RetrievedAt : time;
  CorrelationID : string;
  RequestURI : string;
  RespHeaders : gmap string string;
}.

Record RetryPolicy : Type := mkRetryPolicy { MaxAttempts : Z; BaseDelay : duration; MaxDelay : duration }.

Definition Millisecond : duration := 1000000.

Definition normalized (p : RetryPolicy) : RetryPolicy :=
  mkRetryPolicy (if MaxAttempts p <? 1 then 3 else MaxAttempts p)
    (if BaseDelay p <=? 0 then 100 * Millisecond else BaseDelay p)
    (if MaxDelay p <=? 0 then 2 * Second else MaxDelay p).

(** The GET of a URL under a deadline, with the check for its redirects. *)
Record HTTPRequest : Type := mkHTTPRequest {
  req_url : string;
  req_headers : headers;
  req_timeout : duration;
}.

Record stream : Type := mkStream { bytes : string; breaks : option goerr }.

Record HTTPResponse : Type := mkHTTPResponse {
  resp_status : Z;
  resp_headers : headers;
  resp_body : stream;
}.

(** A redirect is given its URL and headers; the check answers the headers to
    send, or refuses. *)
Abbreviation redirect_check := (string -> headers -> res headers).

Record RateLimitHook (W : Type) : Type := mkRateLimitHook {
  Wait : act W unit;
  Observe : Z -> headers -> act W unit;
}.
Arguments Wait {W}.
Arguments Observe {W}.

Record HTTPFetcher (W : Type) : Type := mkHTTPFetcher {
  ClientPolicy : option redirect_check;               (* of the client, if it has one *)
  AllowedHosts : gset string;
  AllowedMediaTypes : gset string;
  MaxBodyBytes : Z;
  Timeout : duration;
  Retry : RetryPolicy;
  RateLimit : option (RateLimitHook W);
  Sleep : option (duration -> act W unit);
}.
Arguments ClientPolicy {W}.
Arguments AllowedHosts {W}.
Arguments AllowedMediaTypes {W}.
Arguments MaxBodyBytes {W}.
Arguments Timeout {W}.
Arguments Retry {W}.
Arguments RateLimit {W}.
Arguments Sleep {W}.

Definition with_body_bytes {W} (f : HTTPFetcher W) (n : Z) : HTTPFetcher W :=
  mkHTTPFetcher W (ClientPolicy f) (AllowedHosts f) (AllowedMediaTypes f) n (Timeout f) (Retry f) (RateLimit f) (Sleep f).

(** What the fetcher asks of the world; an answer of [Client.Do] is a response or
    an error, never both. *)
Class Network (W : Type) : Type := {
  client_do : redirect_check -> HTTPRequest -> act W HTTPResponse;
  timer_sleep : duration -> act W unit;
  clock : act W time;
  rand_read : act W (list Z);                         (* sixteen bytes *)
}.

(** The parts of a parsed URL. *)
Record urlParts (U : Type) : Type := mkUrlParts {
  Scheme : U -> string;
  Hostname : U -> string;
  has_user : U -> bool;
}.
Arguments Scheme {U}.
Arguments Hostname {U}.
Arguments has_user {U}.

(** ** Errors and bodies *)

Definition Canceled : goerr := ENew "context canceled".
Definition DeadlineExceeded : goerr := ENew "context deadline exceeded".

Definition sanitizedTransportError (e : goerr) : goerr :=
  if errors_is e Canceled then Canceled
  else if errors_is e DeadlineExceeded then DeadlineExceeded
  else ENew "source request failed".

(** The reader is read up to one byte past the limit; a limit that has no
    successor gives an empty body. *)
Definition readBounded (body : stream) (maxBytes : Z) : res string :=
  let limit := wrap64 (maxBytes + 1) in
  let exceeds := ENew ("source response exceeds " +:+ format_int maxBytes +:+ " bytes") in
  if limit <=? 0 then (if maxBytes <? 0 then Err exceeds else Ok "")
  else if limit <=? slen (bytes body) then Err exceeds
  else match breaks body with
       | Some e => Err (EWrap "read source response" e)
       | None => Ok (bytes body)
       end.

Definition retryableStatus (status : Z) : bool := (status =? 429) || (status =? 418) || (500 <=? status).

(** ** Delays *)

(** [float64] of a number that is not negative: to fifty-three bits, ties to
    even. *)
Definition round53 (z : Z) : Z :=
  let e := Z.log2 z - 52 in
  if e <=? 0 then z
  else
    let q := z / 2 ^ e in
    let r := z mod 2 ^ e in
    let up := if 2 * r =? 2 ^ e then Z.odd q else 2 ^ e <? 2 * r in
    (if up then q + 1 else q) * 2 ^ e.

Section delays.
(** The conversion of a [float64] that no int64 is equal to depends on the
    machine. *)
Context (out_of_range : Z -> Z).

Definition to_int64 (z : Z) : Z := if z <? two63 then z else out_of_range z.

(** The product of a [float64] and a power of two is exact, or infinite, which
    is over any bound all the same. *)
Definition retryDelay (policy : RetryPolicy) (attempt : Z) : duration :=
  let delay := round53 (BaseDelay policy) * 2 ^ (attempt - 1) in
  let delay := if round53 (MaxDelay policy) <? delay then round53 (MaxDelay policy) else delay in
  to_int64 delay.

Definition retryAfter (h : headers) (policy : RetryPolicy) (attempt : Z) : res duration :=
  match atoi (trim_space (header_get h "Retry-After")) with
  | Some seconds =>
      if seconds <? 0 then Ok (retryDelay policy attempt)
      else
        let delay := wrap64 (seconds * Second) in
        if MaxDelay policy <? delay then Err (ENew "source retry-after exceeds configured maximum") else Ok delay
  | None => Ok (retryDelay policy attempt)
  end.
End delays.

Definition normalizeMediaType (value : string) : string :=
  to_lower (trim_space (of_chars (fst (cut_char ";" (chars value))))).

(** ** What is sent and recorded *)

Definition outboundRequestHeaders : list string := ["accept"; "content-type"; "user-agent"; "key"].
Definition responseMetadataHeaders : list string :=
  ["accept"; "content-type"; "user-agent"; "etag"; "last-modified"; "content-length"; "retry-after"].

Definition copy_header (destination : headers) (kv : string * list string) : headers :=
  if bool_decide (to_lower (fst kv) ∈ outboundRequestHeaders)
  then fold_left (fun h v => header_add h (fst kv) v) (snd kv) destination
  else destination.

Definition copySafeHeaders (destination : headers) (source : list (string * list string)) : headers :=
  fold_left copy_header source destination.

Definition safe_entry (acc : gmap string string) (kv : string * list string) : gmap string string :=
  match snd kv with
  | v :: _ => if bool_decide (to_lower (fst kv) ∈ responseMetadataHeaders) then <[to_lower (fst kv) := v]> acc else acc
  | [] => acc
  end.

Definition WithCorrelationID (id : string) : option string := Some (trim_space id).

Section fetch.
Context {U : Type} (api : Archive.urlAPI U) (parts : urlParts U) (out_of_range : Z -> Z).

(** The header map is visited in some order. *)
Definition safeHeaders (visit : headers -> list (string * list string)) (h : headers) : gmap string string :=
  Archive.SanitizedMetadata api (map_to_list (fold_left safe_entry (visit h) ∅)).

Definition validateRequestURL (raw : string) (allowed : gset string) : res U :=
  match Archive.url_parse api raw with
  | None => Err (ENew "source URL must be HTTPS without user information")
  | Some u =>
      if negb (bool_decide (Scheme parts u = "https")) || bool_decide (Hostname parts u = "") || has_user parts u
      then Err (ENew "source URL must be HTTPS without user information")
      else
        let host := to_lower (trim_suffix (Hostname parts u) ".") in
        if bool_decide (allowed = ∅) then Err (ENew "source host allowlist is required")
        else if bool_decide (host ∈ allowed) then Ok u else Err (ENew "source host is not allowlisted")
  end.

(** The check the client is given: no key follows a redirect. *)
Definition checkRedirect {W} (f : HTTPFetcher W) : redirect_check := fun url h =>
  let h := header_del h "key" in
  match validateRequestURL url (AllowedHosts f) with
  | Err e => Err (EWrap "source redirect rejected" e)
  | Ok _ => match ClientPolicy f with Some policy => policy url h | None => Ok h end
  end.

Context {W : Type} {HN : Network W} (visit : headers -> list (string * list string)) (context_id : option string).

(** The identifier of the context, or a fresh one. *)
Definition correlation_id : act W string :=
  let value := default "" context_id in
  if bool_decide (value = "") then
    let* random := catch rand_read in
    yield (match random with Ok bytes => hex_encode bytes | Err _ => "correlation-unavailable" end)
  else yield value.

Definition max_bytes (f : HTTPFetcher W) : Z := if MaxBodyBytes f <=? 0 then 10485760 else MaxBodyBytes f.
Definition timeout_of (f : HTTPFetcher W) : duration := if Timeout f <=? 0 then 15 * Second else Timeout f.
Definition sleep_of (f : HTTPFetcher W) : duration -> act W unit := default timer_sleep (Sleep f).

Definition rate_wait (f : HTTPFetcher W) : act W unit :=
  match RateLimit f with
  | Some hook => within_ctx "wait for source rate limit" (Wait hook)
  | None => yield tt
  end.
Definition rate_observe (f : HTTPFetcher W) (response : HTTPResponse) : act W unit :=
  match RateLimit f with
  | Some hook => within_ctx "observe source rate limit" (Observe hook (resp_status response) (resp_headers response))
  | None => yield tt
  end.

(** The request of an attempt. *)
Definition build (f : HTTPFetcher W) (u : U) (request : FetchRequest) (id : string) : res HTTPRequest :=
  match Archive.url_parse api (Archive.url_string api u) with
  | None => Err (EWrap "build source request" (ENew "invalid URL"))
  | Some _ =>
      Ok (mkHTTPRequest (Archive.url_string api u)
            (header_set (copySafeHeaders ∅ (Headers request)) "X-Request-ID" id) (timeout_of f))
  end.

Definition accepted (f : HTTPFetcher W) (u : U) (id : string) (response : HTTPResponse) (body : string) : act W FetchedResponse :=
  let mediaType := normalizeMediaType (header_get (resp_headers response) "Content-Type") in
  if negb (bool_decide (AllowedMediaTypes f = ∅)) && negb (bool_decide (mediaType ∈ AllowedMediaTypes f))
  then fail (ENew "unsupported source media type")
  else
    let* now := clock in
    yield (mkFetchedResponse (resp_status response) mediaType body now id
             (Archive.RedactedURL api (Archive.url_string api u)) (safeHeaders visit (resp_headers response))).

(** The attempts that are left, of which [attempt] is the next. *)
Fixpoint attempts (n : nat) (attempt : Z) (f : HTTPFetcher W) (policy : RetryPolicy) (u : U) (request : FetchRequest) (id : string)
    : act W FetchedResponse :=
  match n with
  | O => fail (ENew "source fetch exhausted retries")
  | S n =>
      let again := attempts n (attempt + 1) f policy u request id in
      rate_wait f ;;;
      match build f u request id with
      | Err e => fail e
      | Ok req =>
          let* answer := catch (client_do (checkRedirect f) req) in
          match answer with
          | Err e =>
              if attempt =? MaxAttempts policy then fail (EWrap "fetch source" (sanitizedTransportError e))
              else sleep_of f (retryDelay out_of_range policy attempt) ;;; again
          | Ok response =>
              let body := readBounded (resp_body response) (max_bytes f) in
              rate_observe f response ;;;
              match body with
              | Err e => fail e
              | Ok body =>
                  if (resp_status response <? 200) || (300 <=? resp_status response) then
                    if retryableStatus (resp_status response) && (attempt <? MaxAttempts policy) then
                      match retryAfter out_of_range (resp_headers response) policy attempt with
                      | Err e => fail e
                      | Ok delay => sleep_of f delay ;;; again
                      end
                    else fail (ENew ("source returned HTTP " +:+ format_int (resp_status response)))
                  else accepted f u id response body
              end
          end
      end
  end.

Definition Fetch (f : HTTPFetcher W) (request : FetchRequest) : act W FetchedResponse :=
  match validateRequestURL (URL request) (AllowedHosts f) with
  | Err e => fail e
  | Ok u =>
      let policy := normalized (Retry f) in
      let* id := correlation_id in
      attempts (Z.to_nat (MaxAttempts policy)) 1 f policy u request id
  end.
End fetch.
End Fetcher.
