(* ===== verification/FetcherProofs.v ===== *)
(** The fetcher, proved: whatever the network answers, a bounded number of
    requests goes to allowed hosts without credentials beyond the source's own
    key, waits are bounded, and what is returned is a bounded, successful answer
    of an accepted type. *)

From S2P Require Import Prelude GoString Digits GoTime Sha256 Archive ArchiveProofs Act Fetcher.
From Stdlib Require Import Ascii.
#[local] Open Scope Z_scope.
Import Fetcher.

(** ** Delays *)

Lemma round53_small z : 0 <= z <= 2 ^ 53 -> round53 z = z.
Proof.
  intros Hz. unfold round53. destruct (Z.leb_spec (Z.log2 z - 52) 0) as [H|H]; [done|].
  destruct (Z.eq_dec z (2 ^ 53)) as [->|Hne]; [reflexivity|]. exfalso.
  assert (z <> 0) by (intros ->; cbn in H; lia). pose proof (proj1 (Z.log2_lt_pow2 z 53 ltac:(lia)) ltac:(lia)). lia.
Qed.

(** The delay before an attempt doubles from the base up to the maximum. *)
Theorem retry_delay_exact out_of_range p attempt : 0 < BaseDelay p <= 2 ^ 53 -> 0 < MaxDelay p <= 2 ^ 53 -> 1 <= attempt ->
  retryDelay out_of_range p attempt = Z.min (BaseDelay p * 2 ^ (attempt - 1)) (MaxDelay p).
Proof.
  intros Hb Hm Ha. unfold retryDelay. rewrite !round53_small by lia. pose proof (Z.pow_nonneg 2 (attempt - 1)).
  unfold to_int64, two63. destruct (Z.ltb_spec (MaxDelay p) (BaseDelay p * 2 ^ (attempt - 1))).
  - rewrite Z.min_r by lia. by rewrite (proj2 (Z.ltb_lt _ _)) by lia.
  - rewrite Z.min_l by lia. by rewrite (proj2 (Z.ltb_lt _ _)) by lia.
Qed.

Definition retry_header (value : string) : headers := {["Retry-After" := [value]]}.

(** A wait the source asks for that no duration can hold comes out as any other. *)
Example retry_after_wraps out_of_range :
  let p := mkRetryPolicy 3 (100 * Millisecond) (2 * Second) in
  retryAfter out_of_range (retry_header "3600") p 1 = Err (ENew "source retry-after exceeds configured maximum") /\
  retryAfter out_of_range (retry_header "18446744074") p 1 = Ok 290448384 /\
  retryAfter out_of_range (retry_header "9223372037") p 1 = Ok (-9223372036709551616).
Proof. vm_compute. auto. Qed.

Lemma normalized_ok p : 1 <= MaxAttempts (normalized p) /\ 0 < BaseDelay (normalized p) /\ 0 < MaxDelay (normalized p).
Proof.
  unfold normalized, Millisecond, Second. cbn. destruct (Z.ltb_spec (MaxAttempts p) 1), (Z.leb_spec (BaseDelay p) 0), (Z.leb_spec (MaxDelay p) 0); lia.
Qed.

Lemma retry_delay_le out_of_range p attempt : 0 < BaseDelay p -> 0 < MaxDelay p <= 2 ^ 53 -> 1 <= attempt ->
  retryDelay out_of_range p attempt <= MaxDelay p.
Proof.
  intros Hb Hm Ha. unfold retryDelay. rewrite (round53_small (MaxDelay p)) by lia. unfold to_int64, two63.
  set (d := round53 _ * _). destruct (Z.ltb_spec (MaxDelay p) d); rewrite (proj2 (Z.ltb_lt _ _)) by lia; lia.
Qed.

Lemma retry_after_le out_of_range h p attempt d : 0 < BaseDelay p -> 0 < MaxDelay p <= 2 ^ 53 -> 1 <= attempt ->
  retryAfter out_of_range h p attempt = Ok d -> d <= MaxDelay p.
Proof.
  intros Hb Hm Ha. unfold retryAfter. pose proof (retry_delay_le out_of_range p attempt Hb Hm Ha).
  destruct (atoi _) as [s|]; [destruct (s <? 0)|]; [by intros [= <-]| |by intros [= <-]].
  destruct (Z.ltb_spec (MaxDelay p) (wrap64 (s * Second))); [done|]. by intros [= <-].
Qed.

(** ** Bodies *)

Lemma readBounded_spec body maxBytes data : 0 < maxBytes < max_int64 -> readBounded body maxBytes = Ok data ->
  data = bytes body /\ slen data <= maxBytes /\ breaks body = None.
Proof.
  intros Hm. unfold readBounded. rewrite wrap64_id by (unfold max_int64, min_int64 in *; lia).
  rewrite (proj2 (Z.leb_gt _ _)) by lia. destruct (Z.leb_spec (maxBytes + 1) (slen (bytes body))); [done|].
  destruct (breaks body); [done|]. intros [= <-]. split_and!; [done|lia|done].
Qed.

(** The limit that has no successor. *)
Example readBounded_wraps : readBounded (mkStream "payload" None) max_int64 = Ok "".
Proof. vm_compute. reflexivity. Qed.

(** ** Headers *)

Definition sendable (name : string) : Prop := exists key, name = canonical_key key /\ to_lower key ∈ outboundRequestHeaders.

Lemma copySafeHeaders_names source (h : headers) name : is_Some (copySafeHeaders h source !! name) -> is_Some (h !! name) \/ sendable name.
Proof.
  unfold copySafeHeaders. revert h. induction source as [|[key values] l IH]; intros h; [by left|]. cbn [fold_left].
  intros [H|H]%IH; [|by right]. unfold copy_header in H. cbn [fst snd] in H. destruct (bool_decide _) eqn:Hk; [|by left].
  apply bool_decide_eq_true in Hk. revert h H. induction values as [|v vs IHv]; intros h H; [by left|]. cbn [fold_left] in H.
  apply IHv in H as [H|H]; [|by right]. unfold header_add in H. apply lookup_insert_is_Some in H as [<-|[_ H]]; [|by left].
  right. by exists key.
Qed.

(** ** Any network

    The world is the history of what was asked of it; its answers are any function
    of the history. *)
Inductive event : Type :=
  | EvDo (req : HTTPRequest)
  | EvSleep (delay : duration)
  | EvWait
  | EvObserve (status : Z) (h : headers)
  | EvClock
  | EvRandom.

Abbreviation history := (list event).

Record oracle : Type := mkOracle {
  o_do : redirect_check -> history -> res HTTPResponse;
  o_sleep : history -> res unit;
  o_wait : history -> res unit;
  o_observe : history -> res unit;
  o_clock : history -> res time;
  o_random : history -> res (list Z);
}.

Definition logs {A} (e : event) (answer : history -> res A) : act history A := fun h => (answer (h ++ [e]), h ++ [e]).

#[export] Instance network (o : oracle) : Network history := {
  client_do check req := logs (EvDo req) (o_do o check);
  timer_sleep d := logs (EvSleep d) (o_sleep o);
  clock := logs EvClock (o_clock o);
  rand_read := logs EvRandom (o_random o);
}.

Definition limiter (o : oracle) : RateLimitHook history :=
  mkRateLimitHook _ (logs EvWait (o_wait o)) (fun status h => logs (EvObserve status h) (o_observe o)).

(** The fetcher's hooks are those of the world. *)
Definition observed (o : oracle) (f : HTTPFetcher history) : Prop :=
  (RateLimit f = None \/ RateLimit f = Some (limiter o)) /\ Sleep f = None.

Definition is_do (e : event) : bool := match e with EvDo _ => true | _ => false end.
Definition requests (h : history) : nat := length (List.filter is_do h).

Lemma requests_app h1 h2 : requests (h1 ++ h2) = (requests h1 + requests h2)%nat.
Proof. unfold requests. by rewrite List.filter_app, length_app. Qed.

Section fetch.
Context {U : Type} (api : Archive.urlAPI U) (parts : urlParts U) (out_of_range : Z -> Z).
Context (visit : headers -> list (string * list string)) (context_id : option string) (o : oracle) (f : HTTPFetcher history).
Context (Hobserved : observed o f).

Abbreviation policy := (normalized (Retry f)).
Abbreviation check := (checkRedirect api parts f).
Abbreviation ask := (attempts (HN := network o) api parts out_of_range visit).

(** What may be asked of the network for a request. *)
Definition permitted (request : FetchRequest) (e : event) : Prop :=
  match e with
  | EvDo req =>
      (exists u, validateRequestURL api parts (URL request) (AllowedHosts f) = Ok u /\ req_url req = Archive.url_string api u) /\
      (forall name, is_Some (req_headers req !! name) -> name = "X-Request-Id" \/ sendable name) /\
      req_timeout req = timeout_of f
  | EvSleep d => d <= MaxDelay policy
  | _ => True
  end.

(** Each request so far failed in a way that is tried again. *)
Definition retried (h : history) : Prop := forall before req after, h = before ++ EvDo req :: after ->
  match o_do o check (before ++ [EvDo req]) with Ok response => retryableStatus (resp_status response) = true | Err _ => True end.

(** The last request was answered so. *)
Definition answered (h : history) (resp : FetchedResponse) : Prop :=
  exists before req response after, h = before ++ EvDo req :: after /\ requests after = 0%nat /\ retried before /\
    o_do o check (before ++ [EvDo req]) = Ok response /\
    StatusCode resp = resp_status response /\ 200 <= StatusCode resp < 300 /\
    Body resp = bytes (resp_body response) /\ breaks (resp_body response) = None /\ slen (Body resp) <= max_bytes f /\
    (AllowedMediaTypes f = ∅ \/ MediaType resp ∈ AllowedMediaTypes f) /\
    RequestURI resp = Archive.RedactedURL api (req_url req) /\
    (forall key value, RespHeaders resp !! key = Some value -> Archive.secretName key = false).

Lemma retried_app h t : retried h -> (forall before req after, t = before ++ EvDo req :: after ->
  match o_do o check (h ++ before ++ [EvDo req]) with Ok response => retryableStatus (resp_status response) = true | Err _ => True end) ->
  retried (h ++ t).
Proof.
  intros H1 H2 before req after E. apply app_eq_app in E as [l [[-> E]|[-> E]]].
  - destruct l as [|x l]; cbn in E.
    + subst t. rewrite app_nil_r in *. specialize (H2 [] req after eq_refl). by rewrite app_nil_l in H2.
    + injection E as <- E. exact (H1 before req l eq_refl).
  - rewrite <- app_assoc. by apply H2 with after.
Qed.

Lemma retried_quiet h t : retried h -> requests t = 0%nat -> retried (h ++ t).
Proof.
  intros H Ht. apply retried_app; [done|]. intros before req after ->. rewrite requests_app in Ht. cbn in Ht. lia.
Qed.

Lemma retried_again h req t : retried h -> requests t = 0%nat ->
  match o_do o check (h ++ [EvDo req]) with Ok response => retryableStatus (resp_status response) = true | Err _ => True end ->
  retried (h ++ EvDo req :: t).
Proof.
  intros H Ht Hdo. apply retried_app; [done|]. intros before req' after E. destruct before as [|x before]; cbn in E; injection E as <- E; [done|].
  rewrite E, requests_app in Ht. cbn in Ht. lia.
Qed.

Lemma logs_ends {A} e (answer : history -> res A) Q h : (forall r, answer (h ++ [e]) = r -> Q r (h ++ [e])) -> ends (logs e answer) Q h.
Proof. intros H. unfold ends, logs. cbn. by apply H. Qed.

(** A call that asks nothing of the source itself. *)
Definition silent {A} (m : act history A) : Prop := forall request h, ends m (fun _ h' => exists t, h' = h ++ t /\ Forall (permitted request) t /\ requests t = 0%nat) h.

Lemma silent_logs {A} e (answer : history -> res A) : (forall request, permitted request e) -> is_do e = false -> silent (logs e answer).
Proof.
  intros He Hd request h. apply logs_ends. intros r _. exists [e]. split; [done|]. split; [by constructor|].
  unfold requests. cbn. by rewrite Hd.
Qed.

Lemma silent_wait : silent (rate_wait f).
Proof.
  destruct Hobserved as [[Hr|Hr] _]; unfold rate_wait; rewrite Hr; intros request h.
  - apply ends_yield. exists []. by rewrite app_nil_r.
  - apply ends_within_ctx. eapply ends_mono; [by apply silent_logs|]. intros [a|e] h' H; exact H.
Qed.

Lemma silent_observe response : silent (rate_observe f response).
Proof.
  destruct Hobserved as [[Hr|Hr] _]; unfold rate_observe; rewrite Hr; intros request h.
  - apply ends_yield. exists []. by rewrite app_nil_r.
  - apply ends_within_ctx. eapply ends_mono; [by apply silent_logs|]. intros [a|e] h' H; exact H.
Qed.

Lemma silent_sleep d : d <= MaxDelay policy -> silent (sleep_of (HN := network o) f d).
Proof. intros Hd. unfold sleep_of. rewrite (proj2 Hobserved). by apply silent_logs. Qed.

Lemma build_permitted u request id req : validateRequestURL api parts (URL request) (AllowedHosts f) = Ok u ->
  build api f u request id = Ok req -> permitted request (EvDo req) /\ req_url req = Archive.url_string api u.
Proof.
  intros Hu. unfold build. destruct (Archive.url_parse _ _); [|done]. intros [= <-]. cbn. split; [|done]. split; [by exists u|]. split; [|done].
  intros name H. unfold header_set in H. apply lookup_insert_is_Some in H as [<-|[_ H]]; [by left|]. apply copySafeHeaders_names in H as [H|H]; [|by right].
  rewrite lookup_empty in H. by destruct H.
Qed.

Lemma safeHeaders_keys h key value : safeHeaders api visit h !! key = Some value -> Archive.secretName key = false.
Proof. intros H. by apply metadata_sanitized in H as (_ & ? & _). Qed.

Lemma accepted_ends u id response body h Q : readBounded (resp_body response) (max_bytes f) = Ok body -> 0 < max_bytes f < max_int64 ->
  200 <= resp_status response < 300 ->
  (forall e t, requests t = 0%nat -> (forall request, Forall (permitted request) t) -> Q (Err e) (h ++ t)) ->
  (forall resp t, requests t = 0%nat -> (forall request, Forall (permitted request) t) -> StatusCode resp = resp_status response ->
     Body resp = bytes (resp_body response) -> breaks (resp_body response) = None -> slen (Body resp) <= max_bytes f ->
     (AllowedMediaTypes f = ∅ \/ MediaType resp ∈ AllowedMediaTypes f) ->
     RequestURI resp = Archive.RedactedURL api (Archive.url_string api u) ->
     (forall key value, RespHeaders resp !! key = Some value -> Archive.secretName key = false) -> Q (Ok resp) (h ++ t)) ->
  ends (accepted (HN := network o) api visit f u id response body) Q h.
Proof.
  intros Hb Hm Hs Herr Hok. unfold accepted. set (mediaType := normalizeMediaType _).
  destruct (negb (bool_decide (AllowedMediaTypes f = ∅)) && negb (bool_decide (mediaType ∈ AllowedMediaTypes f))) eqn:Ht.
  - apply ends_fail. rewrite <- (app_nil_r h). by apply Herr.
  - apply ends_andthen, logs_ends. intros [now|e] _; [apply ends_yield|by apply Herr; [|by repeat constructor]].
    destruct (readBounded_spec _ _ _ Hm Hb) as (-> & Hl & Hbr).
    apply Hok; try done; [by repeat constructor|cbn|apply safeHeaders_keys].
    apply andb_false_iff in Ht as [H|H]; apply negb_false_iff, bool_decide_eq_true in H; auto.
Qed.

(** How a fetch may go on from a history. *)
Definition goes (request : FetchRequest) (n : nat) (h : history) (r : res FetchedResponse) (h' : history) : Prop :=
  exists t, h' = h ++ t /\ Forall (permitted request) t /\ (requests t <= n)%nat /\
    match r with Ok resp => answered h' resp | Err _ => True end.

Lemma goes_after request n m h t r h' : Forall (permitted request) t -> (requests t + n <= m)%nat -> goes request n (h ++ t) r h' ->
  goes request m h r h'.
Proof.
  intros Ht Hn (t' & -> & Hp & Hc & Hr). exists (t ++ t'). rewrite app_assoc. split_and!; [done|by apply Forall_app|rewrite requests_app; lia|done].
Qed.

Lemma goes_err request n h t e : Forall (permitted request) t -> (requests t <= n)%nat -> goes request n h (Err e) (h ++ t).
Proof. intros. by exists t. Qed.

Context (Hdelay : MaxDelay policy <= 2 ^ 53) (Hbytes : 0 < max_bytes f < max_int64).

(** One attempt whose request was answered. *)
Lemma answer_ends n attempt u id request req response h :
  validateRequestURL api parts (URL request) (AllowedHosts f) = Ok u -> req_url req = Archive.url_string api u ->
  permitted request (EvDo req) -> 1 <= attempt -> retried h -> o_do o check (h ++ [EvDo req]) = Ok response ->
  (forall h', retried h' -> ends (ask n (attempt + 1) f policy u request id) (goes request n h') h') ->
  ends (let* _ := rate_observe f response in
        match readBounded (resp_body response) (max_bytes f) with
        | Err e => fail e
        | Ok body =>
            if (resp_status response <? 200) || (300 <=? resp_status response) then
              if retryableStatus (resp_status response) && (attempt <? MaxAttempts policy) then
                match retryAfter out_of_range (resp_headers response) policy attempt with
                | Err e => fail e
                | Ok delay => let* _ := sleep_of (HN := network o) f delay in ask n (attempt + 1) f policy u request id
                end
              else fail (ENew ("source returned HTTP " +:+ format_int (resp_status response)))
            else accepted (HN := network o) api visit f u id response body
        end)%act (goes request (S n) h) (h ++ [EvDo req]).
Proof.
  intros Hu Hreq Hperm Ha Hret Hdo IH. apply ends_andthen. eapply ends_mono; [apply silent_observe|].
  intros r h1 (t & -> & Ht & Hn). rewrite <- app_assoc.
  assert (Hp : Forall (permitted request) ([EvDo req] ++ t)) by (apply Forall_app; split; [by constructor|done]).
  assert (Hc : requests ([EvDo req] ++ t) = 1%nat) by (rewrite requests_app, Hn; reflexivity).
  destruct r as [_|e]; [|apply goes_err; [done|lia]].
  destruct (readBounded _ _) as [body|e] eqn:Eb; [|apply ends_fail, goes_err; [done|lia]].
  destruct (_ || _) eqn:Es.
  - destruct (_ && _) eqn:Er; [|apply ends_fail, goes_err; [done|lia]]. apply andb_true_iff in Er as [Er _].
    destruct (retryAfter _ _ _ _) as [delay|e] eqn:Ed; [|apply ends_fail, goes_err; [done|lia]].
    pose proof (normalized_ok (Retry f)) as (_ & HB & HM).
    apply retry_after_le in Ed; [|done|lia|done]. apply ends_andthen. eapply ends_mono; [by apply silent_sleep|].
    intros r h1 (t2 & -> & Ht2 & Hn2). rewrite <- app_assoc.
    assert (Hp2 : Forall (permitted request) (([EvDo req] ++ t) ++ t2)) by (by apply Forall_app).
    assert (Hc2 : requests (([EvDo req] ++ t) ++ t2) = 1%nat) by (rewrite requests_app, Hc; lia).
    destruct r as [_|e]; [|apply goes_err; [done|lia]].
    eapply ends_mono; [apply IH|].
    + apply retried_again; [done|by rewrite requests_app, Hn|by rewrite Hdo].
    + intros r' h'. apply goes_after; [done|lia].
  - apply orb_false_iff in Es as [E1 E2]. apply Z.ltb_ge in E1. apply Z.leb_gt in E2.
    apply (accepted_ends u id response body); [done|done|lia| |].
    + intros e t2 Hn2 Hp2. rewrite <- app_assoc. apply goes_err; [by apply Forall_app|rewrite requests_app; lia].
    + intros resp t2 Hn2 Hp2 H1 H2 H3 H4 H5 H6 H7. rewrite <- app_assoc. exists (([EvDo req] ++ t) ++ t2).
      split_and!; [done|by apply Forall_app|rewrite requests_app; lia|].
      exists h, req, response, (t ++ t2). rewrite Hreq, H1. split_and!; try done; [rewrite requests_app, Hn; lia].
Qed.

Lemma attempts_end n : forall attempt u id request h, validateRequestURL api parts (URL request) (AllowedHosts f) = Ok u ->
  1 <= attempt -> retried h -> ends (ask n attempt f policy u request id) (goes request n h) h.
Proof.
  induction n as [|n IH]; intros attempt u id request h Hu Ha Hret; cbn [attempts].
  - apply ends_fail. rewrite <- (app_nil_r h) at 2. by apply goes_err.
  - apply ends_andthen. eapply ends_mono; [apply silent_wait|]. intros r h1 (t & -> & Ht & Hn).
    destruct r as [_|e]; [|apply goes_err; [done|lia]].
    destruct (build api f u request id) as [req|e] eqn:Eq; [|apply ends_fail, goes_err; [done|lia]].
    destruct (build_permitted _ _ _ _ Hu Eq) as [Hperm Hreq].
    pose proof (retried_quiet _ _ Hret Hn) as Hret1.
    apply ends_andthen, ends_catch, logs_ends. intros answer Hdo.
    eapply (ends_mono _ (goes request (S n) (h ++ t))); [|by intros r h'; apply goes_after; [|lia]].
    destruct answer as [response|e].
    + apply answer_ends; try done. intros h' Hh. apply IH; [done|lia|done].
    + assert (Hp : Forall (permitted request) [EvDo req]) by by constructor.
      destruct (_ =? _); [apply ends_fail, goes_err; [done|cbn; lia]|].
      pose proof (normalized_ok (Retry f)) as (_ & HB & HM).
      apply ends_andthen. eapply ends_mono; [apply silent_sleep, retry_delay_le; [done|lia|done]|].
      intros r h1 (t2 & -> & Ht2 & Hn2). rewrite <- app_assoc.
      assert (Hp2 : Forall (permitted request) ([EvDo req] ++ t2)) by (by apply Forall_app).
      assert (Hc2 : requests ([EvDo req] ++ t2) = 1%nat) by (rewrite requests_app, Hn2; reflexivity).
      destruct r as [_|e']; [|apply goes_err; [done|lia]].
      eapply ends_mono; [apply IH; [done|lia|]|intros r' h'; apply goes_after; [done|lia]].
      apply retried_again; [done|done|by rewrite Hdo].
Qed.

End fetch.


(** ** What a fetch leaves alone

    Whatever relation the calls of the network and the hooks keep to, a fetch
    keeps to. *)
Section keeps.
Context {U : Type} (api : Archive.urlAPI U) (parts : urlParts U) (out_of_range : Z -> Z).
Context {W : Type} {HN : Network W} (visit : headers -> list (string * list string)) (context_id : option string).
Context (R : relation W) {HR : PreOrder R} (f : HTTPFetcher W).

Definition within_relation {A} (m : act W A) : Prop := forall w, R w (snd (m w)).

Context (Hdo : forall check req, within_relation (client_do check req)) (Hsleep : forall d, within_relation (timer_sleep d)).
Context (Hclock : within_relation clock) (Hrand : within_relation rand_read).
Context (Hlimit : forall hook, RateLimit f = Some hook ->
  within_relation (Wait hook) /\ forall status h, within_relation (Observe hook status h)).
Context (Hhook : forall sleep, Sleep f = Some sleep -> forall d, within_relation (sleep d)).

Lemma within_andthen {A B} (m : act W A) (k : A -> act W B) : within_relation m -> (forall a, within_relation (k a)) -> within_relation (andthen m k).
Proof.
  intros Hm Hk w. unfold andthen. specialize (Hm w). destruct (m w) as [[a|e] w']; cbn in *; [|done]. etransitivity; [exact Hm|apply Hk].
Qed.

Lemma within_yield {A} (a : A) : within_relation (yield a).
Proof. intros w. reflexivity. Qed.

Lemma within_fail {A} e : within_relation (A := A) (fail e).
Proof. intros w. reflexivity. Qed.

Lemma within_catch {A} (m : act W A) : within_relation m -> within_relation (catch m).
Proof. intros Hm w. unfold catch. specialize (Hm w). by destruct (m w). Qed.

Lemma within_within {A} c (m : act W A) : within_relation m -> within_relation (within_ctx c m).
Proof. intros Hm w. unfold within_ctx. specialize (Hm w). by destruct (m w) as [[a|e] w']. Qed.

Lemma within_wait : within_relation (rate_wait f).
Proof. unfold rate_wait. destruct (RateLimit f) as [hook|] eqn:E; [by apply within_within, Hlimit|apply within_yield]. Qed.

Lemma within_observe response : within_relation (rate_observe f response).
Proof. unfold rate_observe. destruct (RateLimit f) as [hook|] eqn:E; [by apply within_within, Hlimit|apply within_yield]. Qed.

Lemma within_sleep d : within_relation (sleep_of f d).
Proof. unfold sleep_of. destruct (Sleep f) as [sleep|] eqn:E; [by apply Hhook|apply Hsleep]. Qed.

Lemma within_attempts n : forall attempt policy u request id, within_relation (attempts api parts out_of_range visit n attempt f policy u request id).
Proof.
  induction n as [|n IH]; intros attempt policy u request id; cbn [attempts]; [apply within_fail|].
  apply within_andthen; [apply within_wait|intros _]. destruct (build _ _ _ _ _); [|apply within_fail].
  apply within_andthen; [by apply within_catch|]. intros [response|e].
  - apply within_andthen; [apply within_observe|intros _]. destruct (readBounded _ _); [|apply within_fail]. destruct (_ || _).
    + destruct (_ && _); [|apply within_fail]. destruct (retryAfter _ _ _ _); [|apply within_fail].
      apply within_andthen; [apply within_sleep|by intros _].
    + unfold accepted. destruct (_ && _); [apply within_fail|]. apply within_andthen; [done|intros now; apply within_yield].
  - destruct (_ =? _); [apply within_fail|]. apply within_andthen; [apply within_sleep|by intros _].
Qed.

Lemma fetch_keeps request w r w' : Fetch api parts out_of_range visit context_id f request w = (r, w') -> R w w'.
Proof.
  intros E. enough (H : within_relation (Fetch api parts out_of_range visit context_id f request)) by (specialize (H w); by rewrite E in H).
  unfold Fetch. destruct (validateRequestURL _ _ _ _); [|apply within_fail]. apply within_andthen; [|intros id; apply within_attempts].
  unfold correlation_id. destruct (bool_decide _); [|apply within_yield]. apply within_andthen; [by apply within_catch|intros bytes; apply within_yield].
Qed.
End keeps.

(** ** A source that is busy at first *)
Module fetch_demo.

Definition host_of (u : string) : string := of_chars (fst (cut_char "/" (chars (trim_prefix u "https://")))).

Definition api : Archive.urlAPI string :=
  Archive.mkUrlAPI string (fun s => if has_prefix s "https://" then Some s else None) (fun u => u) (fun _ => []) (fun _ u => u) (fun u => u).
Definition parts : urlParts string := mkUrlParts string (fun _ => "https") host_of (fun _ => false).
Definition source : string := "https://api.example.org/series".

Definition busy : HTTPResponse := mkHTTPResponse 503 {["Retry-After" := ["1"]]} (mkStream "" None).
Definition served : HTTPResponse :=
  mkHTTPResponse 200 (<["Content-Type" := ["Application/JSON; charset=utf-8"]]> {["Set-Cookie" := ["s"]]}) (mkStream "{}" None).

Definition o : oracle :=
  mkOracle (fun _ h => if (requests h =? 1)%nat then Ok busy else Ok served) (fun _ => Ok tt) (fun _ => Ok tt) (fun _ => Ok tt)
    (fun _ => Ok 5) (fun _ => Ok (replicate 16 171)).
Definition f : HTTPFetcher history :=
  mkHTTPFetcher _ None {["api.example.org"]} {["application/json"]} 0 0 (mkRetryPolicy 2 0 0) (Some (limiter o)) None.
Definition request : FetchRequest := mkFetchRequest source [("Accept", ["*/*"]); ("Authorization", ["secret"]); ("key", ["k"])].

Definition fetch (request : FetchRequest) : res FetchedResponse * history :=
  Fetch (HN := network o) api parts (fun z => z) map_to_list None f request [].
Definition sent : HTTPRequest :=
  mkHTTPRequest source (<["Accept" := ["*/*"]]> (<["Key" := ["k"]]> {["X-Request-Id" := [hex_encode (replicate 16 171)]]})) (15 * Second).

Example fetch_ex : snd (fetch request) =
  [EvRandom; EvWait; EvDo sent; EvObserve 503 (resp_headers busy); EvSleep Second; EvWait; EvDo sent;
   EvObserve 200 (resp_headers served); EvClock] /\
  fst (fetch request) = Ok (mkFetchedResponse 200 "application/json" "{}" 5 (hex_encode (replicate 16 171)) source
    {["content-type" := "Application/JSON; charset=utf-8"]}).
Proof. vm_compute. auto. Qed.
End fetch_demo.


