(* ===== verification/Ingestion.v ===== *)
(** The ingestion pipeline and its run store (internal/ingestion/pipeline.go) over
    the core tables (db/migrations/00001, 00002 and 00013).

    A call of the pipeline is a transaction-less sequence of statements on the
    tables and of calls on the world outside, the network and the archive.  The
    run store is an interface, as in the code, implemented by [DatabaseStore].
    Casts to UUID and JSONB, the texts the database accepts, and the identifiers
    and clock readings it draws are parameters; raw objects are kept by content
    digest.  The order of the members of a JSONB object is not modelled. *)

From S2P Require Import Prelude GoString Digits GoTime Json JsonTree Tables Db World Archive Act Fetcher.
From Stdlib Require Import Ascii SpecFloat.
#[local] Open Scope Z_scope.

Module Ingestion.
Import Archive Fetcher.

Definition ErrRawObjectConflict : goerr := ENew "raw object conflicts with existing content address".

Record NormalizedRecord : Set := mkNormalized {
  Kind : string;
  RawObjectKey : string;
  RawObjectSHA256 : string;
  Payload : string;
}.

Record RawPayload : Type := mkRawPayload {
  PayBody : string;
  PayMediaType : string;
  PayRetrievedAt : time;
  PayCorrelationID : string;
  PayRequestURI : string;
  PayHeaders : gmap string string;
  PayArchive : Reference;
}.

Record RunSpec : Set := mkRunSpec {
  SourceID : string;
  DatasetID : option string;
  IdempotencyKey : string;
  AdapterVersion : string;
  RequestedFrom : option time;
  RequestedTo : option time;
}.

Record RunResult : Type := mkRunResult {
  RunID : string;
  Result : option RawPayload;                          (* the zero payload of a duplicate *)
  Records : list NormalizedRecord;
  Duplicate : bool;
}.

Record RawObjectRegistration : Type := mkRegistration {
  RegReference : Reference;
  RegRetrievedAt : time;
  RegRequestURI : string;
  RequestHeaders : gmap string string;
  IngestionRunID : option string;
  OccurrenceKey : string;
}.

(** *** Tables *)

Record RunRow : Type := mkRunRow {
  ir_source : string;
  ir_dataset : option string;
  ir_key : string;
  ir_adapter : string;
  ir_from : option time;
  ir_to : option time;
  ir_status : string;
  ir_coverage : json;
  ir_error : option string;
  ir_completed : option time;
}.

Record RawRow : Type := mkRawRow {
  ro_id : string;
  ro_key : string;
  ro_media : string;
  ro_length : Z;
  ro_retrieved : time;
  ro_uri : option string;
  ro_metadata : json;
  ro_run : option string;
}.

Record OccurrenceRow : Type := mkOccurrence {
  oc_id : string;
  oc_raw : string;
  oc_retrieved : time;
  oc_uri : option string;
  oc_metadata : json;
}.

Record tables : Type := mkTables {
  sources : gset string;
  datasets : gmap string string;                       (* source *)
  runs : gmap string RunRow;
  raws : gmap string RawRow;                           (* by digest *)
  occurrences : gmap (string * string) OccurrenceRow;  (* by run and key *)
}.

Definition set_runs (s : tables) m := mkTables (sources s) (datasets s) m (raws s) (occurrences s).
Definition set_raws (s : tables) m := mkTables (sources s) (datasets s) (runs s) m (occurrences s).
Definition set_occurrences (s : tables) m := mkTables (sources s) (datasets s) (runs s) (raws s) m.

Definition set_status (status : string) (error : option string) (completed : option time) (r : RunRow) : RunRow :=
  mkRunRow (ir_source r) (ir_dataset r) (ir_key r) (ir_adapter r) (ir_from r) (ir_to r) status (ir_coverage r) error completed.
Definition set_coverage (coverage : json) (r : RunRow) : RunRow :=
  mkRunRow (ir_source r) (ir_dataset r) (ir_key r) (ir_adapter r) (ir_from r) (ir_to r) (ir_status r) coverage (ir_error r) (ir_completed r).

(** The operator [||] of JSONB: the members of the right object win; anything but
    two objects is put together as arrays. *)
Definition elements_of (j : json) : list json := match j with JArray l => l | _ => [j] end.
Definition jsonb_concat (a b : json) : json :=
  match a, b with
  | JObject fa, JObject fb => JObject (List.filter (fun kv => negb (bool_decide (fst kv ∈ fb.*1))) fa ++ fb)
  | _, _ => JArray (elements_of a ++ elements_of b)
  end.

(** ** The interfaces of a pipeline *)

Section interfaces.
Context (S : Type).

Record RunStore : Type := mkRunStore {
  StartRun : RunSpec -> dbm S (string * bool);
  LoadRunStatus : option (string -> dbm S string);     (* of a store that has it *)
  RegisterRawObject : RawObjectRegistration -> dbm S string;
  CompleteRun : string -> string -> list (string * goval) -> dbm S unit;
  FailRun : string -> string -> dbm S unit;
}.

Abbreviation Normalizer := (RawPayload -> dbm S (list NormalizedRecord)).

Record Adapter : Type := mkAdapter {
  BuildRequest : RunSpec -> dbm S FetchRequest;
  Normalize : Normalizer;
}.
End interfaces.
Arguments StartRun {S}.
Arguments LoadRunStatus {S}.
Arguments RegisterRawObject {S}.
Arguments CompleteRun {S}.
Arguments FailRun {S}.
Arguments BuildRequest {S}.
Arguments Normalize {S}.

(** ** The store in PostgreSQL *)

Section database.
Context {U : Type} (api : urlAPI U).
Context (Pool : bool) (uuid_in : string -> option string) (jsonb_in : string -> option json) (text_ok : string -> bool).
Context (format_float : spec_float -> string).
Context {W : Type} (gen : nat -> string) (now : nat -> time).

(** The core tables are part of a larger store. *)
Context {T : Type} (core : T -> tables) (set_core : tables -> T -> T).

Definition on_core {A} (f : tables -> res A * tables) : T * W -> res A * (T * W) :=
  on_tables (fun t => let '(r, c) := f (core t) in (r, set_core c t)).
Definition reads_core {A} (f : tables -> res A) : T * W -> res A * (T * W) := reads (fun t => f (core t)).

Definition no_pool : goerr := ENew "database pool is required".

Definition window_ok (from to : option time) : bool :=
  match from, to with Some f, Some t => f <=? t | _, _ => true end.

Definition same_run (source key : string) (kv : string * RunRow) : bool :=
  bool_decide (ir_source (snd kv) = source) && bool_decide (ir_key (snd kv) = key).

Definition optional_uuid (o : option string) : option (option string) :=
  match o with Some x => Some <$> uuid_in x | None => Some None end.

(** INSERT ... ON CONFLICT (source_id, idempotency_key) DO NOTHING RETURNING id. *)
Definition insert_run (id : string) (spec : RunSpec) (s : tables) : res string * tables :=
  match uuid_in (SourceID spec), optional_uuid (DatasetID spec) with
  | Some source, Some dataset =>
      let from := pg_time <$> RequestedFrom spec in
      let to := pg_time <$> RequestedTo spec in
      if negb (text_ok (IdempotencyKey spec)) || negb (text_ok (AdapterVersion spec)) || negb (window_ok from to) then (Err EDb, s)
      else if existsb (same_run source (IdempotencyKey spec)) (map_to_list (runs s)) then (Err ENoRows, s)
      else if negb (bool_decide (source ∈ sources s)) || bool_decide (is_Some (runs s !! id))
              || match dataset with Some d => negb (bool_decide (datasets s !! d = Some source)) | None => false end
      then (Err EDb, s)
      else (Ok id, set_runs s (<[id := mkRunRow source dataset (IdempotencyKey spec) (AdapterVersion spec) from to "running"
                                        (JObject []) None None]> (runs s)))
  | _, _ => (Err EDb, s)
  end.

Definition select_run (source key : string) (s : tables) : res string :=
  match uuid_in source with
  | None => Err EDb
  | Some source =>
      if negb (text_ok key) then Err EDb
      else match List.filter (same_run source key) (map_to_list (runs s)) with (id, _) :: _ => Ok id | [] => Err ENoRows end
  end.

(** UPDATE ingestion_runs SET f WHERE id = $1 AND p; the rows affected. *)
Definition update_run (id : string) (p : RunRow -> bool) (f : RunRow -> option RunRow) (s : tables) : res Z * tables :=
  match uuid_in id with
  | None => (Err EDb, s)
  | Some id =>
      match runs s !! id with
      | Some r =>
          if p r then match f r with
                      | Some r' => (Ok 1, set_runs s (<[id := r']> (runs s)))
                      | None => (Err EDb, s)
                      end
          else (Ok 0, s)
      | None => (Ok 0, s)
      end
  end.

Definition start_run (spec : RunSpec) : dbm (T * W) (string * bool) :=
  if negb Pool then throw no_pool
  else
    let* inserted := attempt (pool_stmt (on_core (insert_run (gen 0%nat) spec))) in
    match inserted with
    | Ok id => ret (id, false)
    | Err e =>
        if negb (errors_is e ENoRows) then throw (EWrap "start ingestion run" e)
        else
          let* id := pool_stmt (reads_core (select_run (SourceID spec) (IdempotencyKey spec))) in
          let* _ := wrap "resume failed ingestion run"
            (pool_stmt (on_core (update_run id (fun r => bool_decide (ir_status r = "failed"))
                                     (fun r => Some (set_status "running" None None r))))) in
          ret (id, true)
    end.

Definition select_status (id : string) (s : tables) : res string :=
  match uuid_in id with
  | None => Err EDb
  | Some id => match runs s !! id with Some r => Ok (ir_status r) | None => Err ENoRows end
  end.

Definition load_run_status (runID : string) : dbm (T * W) string :=
  if negb Pool then throw no_pool
  else wrap "load ingestion run status" (pool_stmt (reads_core (select_status runID))).

(** *** Raw objects *)

Definition metadata_text (m : gmap string string) : option string :=
  Json.Marshal format_float (VMap ((fun kv => (fst kv, VStr (snd kv))) <$> map_to_list m)).

Definition raw_checks (sha : string) (r : RawRow) : bool :=
  (slen sha =? 64) && forallb is_lower_hex (chars sha) && (0 <=? ro_length r) && negb (bool_decide (trim_space (ro_key r) = "")).

(** INSERT ... ON CONFLICT (content_sha256) DO NOTHING RETURNING id. *)
Definition insert_raw (id : string) (item : RawObjectRegistration) (metadata : string) (s : tables) : res string * tables :=
  let sha := RefContentSHA256 (RegReference item) in
  let uri := RedactedURL api (RegRequestURI item) in
  match jsonb_in metadata, optional_uuid (IngestionRunID item) with
  | Some metadata, Some run =>
      let r := mkRawRow id (RefKey (RegReference item)) (RefMediaType (RegReference item)) (RefByteLength (RegReference item))
                 (pg_time (RegRetrievedAt item)) (Some uri) metadata run in
      if negb (raw_checks sha r) || negb (text_ok (ro_media r)) || negb (text_ok uri) || (max_int64 <? ro_length r) then (Err EDb, s)
      else if bool_decide (is_Some (raws s !! sha)) then (Err ENoRows, s)
      else if existsb (fun kv => bool_decide (ro_key (snd kv) = ro_key r) || bool_decide (ro_id (snd kv) = id)) (map_to_list (raws s))
              || match run with Some run => negb (bool_decide (is_Some (runs s !! run))) | None => false end
      then (Err EDb, s)
      else (Ok id, set_raws s (<[sha := r]> (raws s)))
  | _, _ => (Err EDb, s)
  end.

Definition select_raw_id (sha : string) (s : tables) : res string :=
  match raws s !! sha with Some r => Ok (ro_id r) | None => Err ENoRows end.

Definition select_raw (id sha : string) (s : tables) : res RawRow :=
  match uuid_in id with
  | None => Err EDb
  | Some id => match raws s !! sha with
               | Some r => if bool_decide (ro_id r = id) then Ok r else Err ENoRows
               | None => Err ENoRows
               end
  end.

Definition validateRawObject (id : string) (item : RawObjectRegistration) (expectedMetadata : string) : dbm (T * W) unit :=
  let ref := RegReference item in
  let* r := wrap "validate raw object registration" (pool_stmt (reads_core (select_raw id (RefContentSHA256 ref)))) in
  if negb (bool_decide (ro_key r = RefKey ref)) || negb (bool_decide (ro_media r = RefMediaType ref))
     || negb (ro_length r =? RefByteLength ref)
  then throw ErrRawObjectConflict
  else match IngestionRunID item with
       | Some _ => ret tt
       | None =>
           let* matches := wrap "validate raw object metadata"
             (pool_stmt (reads_core (fun s =>
                match jsonb_in expectedMetadata with
                | None => Err EDb
                | Some metadata =>
                    let! r := select_raw id (RefContentSHA256 ref) s in
                    Ok ((ro_retrieved r =? pg_time (RegRetrievedAt item))
                        && bool_decide (default "" (ro_uri r) = RedactedURL api (RegRequestURI item))
                        && bool_decide (ro_metadata r = metadata))
                end))) in
           if matches : bool then ret tt else throw ErrRawObjectConflict
       end.

(** INSERT ... ON CONFLICT (ingestion_run_id, occurrence_key) DO NOTHING. *)
Definition insert_occurrence (id raw run key uri metadata : string) (retrieved : time) (s : tables) : res unit * tables :=
  match uuid_in raw, uuid_in run, jsonb_in metadata with
  | Some raw, Some run, Some metadata =>
      if negb (match metadata with JObject _ => true | _ => false end) || bool_decide (trim_space key = "")
         || negb (text_ok key) || negb (text_ok uri) then (Err EDb, s)
      else if bool_decide (is_Some (occurrences s !! (run, key))) then (Err ENoRows, s)
      else if negb (existsb (fun kv => bool_decide (ro_id (snd kv) = raw)) (map_to_list (raws s)))
              || negb (bool_decide (is_Some (runs s !! run)))
              || existsb (fun kv => bool_decide (oc_id (snd kv) = id)) (map_to_list (occurrences s))
      then (Err EDb, s)
      else (Ok tt, set_occurrences s (<[(run, key) := mkOccurrence id raw (pg_time retrieved) (Some uri) metadata]> (occurrences s)))
  | _, _, _ => (Err EDb, s)
  end.

Definition select_occurrence (run key metadata : string) (s : tables) : res (string * string * bool) :=
  match uuid_in run, jsonb_in metadata with
  | Some run, Some metadata =>
      if negb (text_ok key) then Err EDb
      else match occurrences s !! (run, key) with
           | Some o => Ok (oc_raw o, default "" (oc_uri o), bool_decide (oc_metadata o = metadata))
           | None => Err ENoRows
           end
  | _, _ => Err EDb
  end.

Definition registerOccurrence (rawObjectID : string) (item : RawObjectRegistration) (metadata : string) : dbm (T * W) unit :=
  match IngestionRunID item with
  | None => ret tt
  | Some run =>
      if bool_decide (run = "") then throw (ENew "ingestion run ID is required for a raw occurrence")
      else
        let requestURI := RedactedURL api (RegRequestURI item) in
        let key := if bool_decide (OccurrenceKey item = "") then requestURI else OccurrenceKey item in
        if bool_decide (key = "") then throw (ENew "raw occurrence key is required")
        else
          let* inserted := attempt (pool_stmt (on_core
            (insert_occurrence (gen 2%nat) rawObjectID run key requestURI metadata (RegRetrievedAt item)))) in
          match inserted with
          | Ok _ => ret tt
          | Err e =>
              if negb (errors_is e ENoRows) then throw (EWrap "register raw object occurrence" e)
              else
                let* stored := wrap "validate raw object occurrence" (pool_stmt (reads_core (select_occurrence run key metadata))) in
                let '(storedRaw, storedURI, metadataMatches) := stored in
                if negb (bool_decide (storedRaw = rawObjectID)) || negb (bool_decide (storedURI = requestURI)) || negb metadataMatches
                then throw ErrRawObjectConflict else ret tt
          end
  end.

Definition register_raw_object (item : RawObjectRegistration) : dbm (T * W) string :=
  let ref := RegReference item in
  if negb Pool then throw no_pool
  else if (RefByteLength ref <? 0) || negb (slen (RefContentSHA256 ref) =? 64)
          || negb (bool_decide (ObjectKey (RefContentSHA256 ref) = RefKey ref))
  then throw ErrInvalidDigest
  else match metadata_text (SanitizedMetadata api (map_to_list (RequestHeaders item))) with
       | None => throw (ENew "json: unsupported value")
       | Some metadata =>
           let* inserted := attempt (pool_stmt (on_core (insert_raw (gen 1%nat) item metadata))) in
           match inserted with
           | Ok id => registerOccurrence id item metadata ;;; ret id
           | Err e =>
               if negb (errors_is e ENoRows) then throw (EWrap "register raw object" e)
               else
                 let* id := pool_stmt (reads_core (select_raw_id (RefContentSHA256 ref))) in
                 validateRawObject id item metadata ;;;
                 registerOccurrence id item metadata ;;;
                 ret id
           end
       end.

(** *** Ends of a run *)

(** The states a run may be in, the running ones alone without an end. *)
Definition status_ok (r : RunRow) : bool :=
  bool_decide (ir_status r ∈ ["running"; "succeeded"; "partial"; "failed"; "cancelled"])
  && (bool_decide (ir_status r = "running") || bool_decide (is_Some (ir_completed r))).

Definition checked (r : RunRow) : option RunRow := if status_ok r then Some r else None.

Definition complete_run (runID status : string) (coverage : list (string * goval)) : dbm (T * W) unit :=
  match Json.Marshal format_float (VMap coverage) with
  | None => throw (ENew "json: unsupported value")
  | Some data =>
      let* _ := pool_stmt (on_core (fun s =>
        match jsonb_in data with
        | None => (Err EDb, s)
        | Some added =>
            update_run runID (fun _ => true)
              (fun r => checked (set_coverage (jsonb_concat (ir_coverage r) added) (set_status status (ir_error r) (Some (now 0%nat)) r))) s
        end)) in
      ret tt
  end.

Definition fail_run (runID code : string) : dbm (T * W) unit :=
  let* _ := pool_stmt (on_core (update_run runID (fun _ => true)
    (fun r => if text_ok code then checked (set_status "failed" (Some code) (Some (now 1%nat)) r) else None))) in
  ret tt.

Definition DatabaseStore : RunStore (T * W) :=
  mkRunStore _ start_run (Some load_run_status) register_raw_object complete_run fail_run.
End database.

(** ** The pipeline *)

Section pipeline.
Context {U W T : Type} (api : urlAPI U) (parts : urlParts U) (out_of_range : Z -> Z) {HN : Network W}.
Context (visit : headers -> list (string * list string)) (context_id : option string).

Abbreviation S := (T * W)%type.

Record Pipeline : Type := mkPipeline {
  PFetcher : option (HTTPFetcher W);
  PArchive : option (Object -> W -> res unit * W);
  Runs : option (RunStore S);
  Persist : option (string -> list NormalizedRecord -> dbm S unit);
  Coverage : option (RawPayload -> option goerr);
  MaxBytes : Z;
}.

(** Record the failure, whatever comes of that, and report it. *)
Definition stop {A} (store : RunStore S) (runID code : string) (e : goerr) : dbm S A :=
  let* _ := attempt (FailRun store runID code) in throw e.

Definition stage {A} (store : RunStore S) (runID code : string) (f : goerr -> goerr) (m : dbm S A) : dbm S A :=
  let* r := attempt m in match r with Ok a => ret a | Err e => stop store runID code (f e) end.

(** The first record that does not name the archived object. *)
Fixpoint stray (ref : Reference) (index : Z) (records : list NormalizedRecord) : option Z :=
  match records with
  | [] => None
  | r :: rest =>
      if bool_decide (RawObjectKey r = RefKey ref) && bool_decide (RawObjectSHA256 r = RefContentSHA256 ref)
      then stray ref (index + 1) rest else Some index
  end.

Definition skips (store : RunStore S) (runID : string) (duplicate : bool) : dbm S bool :=
  match duplicate, LoadRunStatus store with
  | true, Some load => let* status := load runID in ret (bool_decide (status = "succeeded"))
  | _, _ => ret false
  end.

(** What follows once the run is started. *)
Definition process (fetcher : HTTPFetcher W) (put : Object -> W -> res unit * W) (store : RunStore S)
    (persist : string -> list NormalizedRecord -> dbm S unit) (coverage : option (RawPayload -> option goerr))
    (runID : string) (request : FetchRequest) (normalize : RawPayload -> dbm S (list NormalizedRecord)) : dbm S RunResult :=
  let* response := stage store runID "fetch_failed" id
    (on_archive (Fetch api parts out_of_range visit context_id fetcher request)) in
  let* ref := stage store runID "archive_failed" (EWrap "archive fetched response")
    (on_archive (ArchivePayload api (Some put) (Fetcher.Body response) (Fetcher.MediaType response)
       [("request-uri", RequestURI response); ("correlation-id", CorrelationID response)])) in
  let* rawID := stage store runID "registration_failed" (EWrap "register raw object")
    (RegisterRawObject store (mkRegistration ref (RetrievedAt response) (RequestURI response) (RespHeaders response)
       (Some runID) (RequestURI response))) in
  let payload := mkRawPayload (Fetcher.Body response) (Fetcher.MediaType response) (RetrievedAt response)
                   (CorrelationID response) (RequestURI response) (RespHeaders response) ref in
  let* records := stage store runID "normalize_failed" (EWrap ("normalize response " +:+ rawID)) (normalize payload) in
  match stray ref 0 records with
  | Some index =>
      stop store runID "provenance_failed"
        (ENew ("normalized record " +:+ format_int index +:+ " does not reference archived response"))
  | None =>
      let* _ := stage store runID "persistence_failed" (EWrap ("persist normalized records " +:+ rawID)) (persist runID records) in
      let* _ := stage store runID "incomplete_coverage" id
        (match coverage ≫= fun covers => covers payload with Some e => throw e | None => ret tt end) in
      wrap "complete ingestion run"
        (CompleteRun store runID "succeeded" [("records", VInt (Z.of_nat (length records))); ("raw_object_id", VStr rawID)]) ;;;
      ret (mkRunResult runID (Some payload) records false)
  end.

Definition Run (p : Pipeline) (spec : RunSpec) (request : FetchRequest)
    (normalizer : option (RawPayload -> dbm S (list NormalizedRecord))) : dbm S RunResult :=
  match PFetcher p, PArchive p, Runs p, Persist p, normalizer with
  | Some fetcher, Some put, Some store, Some persist, Some normalize =>
      let* started := StartRun store spec in
      let* skip := skips store (fst started) (snd started) in
      if skip : bool then ret (mkRunResult (fst started) None [] true)
      else
        let fetcher := if 0 <? MaxBytes p then with_body_bytes fetcher (MaxBytes p) else fetcher in
        process fetcher put store persist (Coverage p) (fst started) request normalize
  | _, _, _, _, _ => throw (ENew "fetcher, archive, run store, persistence, and normalizer are required")
  end.

Definition RunAdapter (p : Pipeline) (spec : RunSpec) (adapter : option (Adapter S)) : dbm S RunResult :=
  match adapter with
  | None => throw (ENew "adapter is required")
  | Some adapter =>
      let* request := wrap "build adapter request" (BuildRequest adapter spec) in
      Run p spec request (Some (Normalize adapter))
  end.

(** *** Replay *)

Definition ReplayBytes (body mediaType : string) (normalizer : option (RawPayload -> dbm S (list NormalizedRecord))) : dbm S (RawPayload * list NormalizedRecord) :=
  match normalizer with
  | None => throw (ENew "normalizer is required")
  | Some normalize =>
      let* now := on_archive clock in
      let ref := mkReference (ObjectKey (SHA256Hex body)) (SHA256Hex body) (slen body) mediaType in
      let payload := mkRawPayload body mediaType now "fixture-replay" "fixture://replay" ∅ ref in
      let* records := normalize payload in
      match stray ref 0 records with
      | Some index => throw (ENew ("fixture normalized record " +:+ format_int index +:+ " has no exact raw provenance"))
      | None => ret (payload, records)
      end
  end.

(** The file opened at a path, if that succeeds. *)
Definition ReplayFixture (file : res stream) (mediaType : string) (maxBytes : Z)
    (normalizer : option (RawPayload -> dbm S (list NormalizedRecord))) : dbm S (RawPayload * list NormalizedRecord) :=
  match normalizer with
  | None => throw (ENew "normalizer is required")
  | Some _ =>
      let* file := wrap "open fixture" (of_res file) in
      let maxBytes := if maxBytes <=? 0 then 10485760 else maxBytes in
      let exceeds := ENew ("fixture exceeds " +:+ format_int maxBytes +:+ " bytes") in
      let limit := wrap64 (maxBytes + 1) in
      if limit <=? 0 then ReplayBytes "" mediaType normalizer
      else if limit <=? slen (bytes file) then throw exceeds
      else match breaks file with
           | Some e => throw (EWrap "read fixture" e)
           | None => ReplayBytes (bytes file) mediaType normalizer
           end
  end.
End pipeline.
End Ingestion.
