(* ===== verification/IngestionProofs.v ===== *)
(** The ingestion pipeline, proved: what a run that succeeds leaves behind, what a
    failed one does not, and what no history of calls changes. *)

From S2P Require Import Prelude GoString Digits GoTime Json JsonTree JsonText Tables Db World Archive ArchiveProofs Act Fetcher FetcherProofs Ingestion.
From Stdlib Require Import Ascii SpecFloat.
#[local] Open Scope Z_scope.
Import Archive Fetcher Ingestion.

(** ** What calls keep *)

Definition same_identity (r r' : RunRow) : Prop :=
  ir_source r' = ir_source r /\ ir_dataset r' = ir_dataset r /\ ir_key r' = ir_key r /\ ir_adapter r' = ir_adapter r /\
  ir_from r' = ir_from r /\ ir_to r' = ir_to r.

Record recorded (s s' : tables) : Prop := {
  rc_raws : raws s ⊆ raws s';
  rc_occurrences : occurrences s ⊆ occurrences s';
  rc_runs : forall id r, runs s !! id = Some r -> exists r', runs s' !! id = Some r' /\ same_identity r r';
}.

Lemma same_identity_refl r : same_identity r r.
Proof. by split_and!. Qed.

#[export] Instance recorded_preorder : PreOrder recorded.
Proof.
  split.
  - intros s. split; [done|done|]. intros id r Hr. exists r. split; [done|apply same_identity_refl].
  - intros s1 s2 s3 [H1 H2 H3] [G1 G2 G3]. split; [by etransitivity|by etransitivity|].
    intros id r Hr. destruct (H3 _ _ Hr) as (r' & Hr' & E1). destruct (G3 _ _ Hr') as (r'' & Hr'' & E2).
    exists r''. split; [done|]. unfold same_identity in *. naive_solver congruence.
Qed.

Section effects.
Context {U : Type} (api : urlAPI U) (uuid_in : string -> option string) (jsonb_in : string -> option json) (text_ok : string -> bool).
Context (format_float : spec_float -> string) (gen : nat -> string) (now : nat -> time).

(** The tables are consistent. *)
Record tables_ok (s : tables) : Prop := {
  tk_run_id : forall id r, runs s !! id = Some r -> uuid_in id = Some id;
  tk_raw_id : forall sha r, raws s !! sha = Some r -> uuid_in (ro_id r) = Some (ro_id r);
  tk_address : forall sha r, raws s !! sha = Some r -> slen sha = 64 /\ ro_key r = ObjectKey sha /\ 0 <= ro_length r;
  tk_unique : forall sha1 sha2 r1 r2, raws s !! sha1 = Some r1 -> raws s !! sha2 = Some r2 -> ro_id r1 = ro_id r2 -> sha1 = sha2;
  tk_raw_run : forall sha r run, raws s !! sha = Some r -> ro_run r = Some run -> is_Some (runs s !! run);
  tk_occurrence : forall run key o, occurrences s !! (run, key) = Some o ->
    is_Some (runs s !! run) /\ exists sha r, raws s !! sha = Some r /\ ro_id r = oc_raw o;
  tk_key : forall id1 id2 r1 r2, runs s !! id1 = Some r1 -> runs s !! id2 = Some r2 ->
    ir_source r1 = ir_source r2 -> ir_key r1 = ir_key r2 -> id1 = id2;
  tk_status : forall id r, runs s !! id = Some r -> status_ok r = true;
}.

Context (Hgen : forall n, uuid_in (gen n) = Some (gen n)).

(** *** Statements *)

Lemma existsb_map_false {K} {HK : EqDecision K} {HC : Countable K} {A} (p : K * A -> bool) (m : gmap K A) :
  existsb p (map_to_list m) = false <-> forall k a, m !! k = Some a -> p (k, a) = false.
Proof.
  split.
  - intros H k a Hk. apply not_true_iff_false. intros Hp. apply not_true_iff_false in H. apply H, existsb_exists.
    exists (k, a). split; [|done]. by apply list_elem_of_In, elem_of_map_to_list.
  - intros H. apply not_true_iff_false. rewrite existsb_exists. intros ([k a] & Hin & Hp).
    apply list_elem_of_In, elem_of_map_to_list in Hin. by rewrite (H _ _ Hin) in Hp.
Qed.

Lemma insert_run_effect id spec s r s' : uuid_in id = Some id -> insert_run uuid_in text_ok id spec s = (r, s') ->
  (s' = s /\ exists e, r = Err e) \/
  (r = Ok id /\ exists source row, uuid_in (SourceID spec) = Some source /\ runs s !! id = None /\
     (forall i x, runs s !! i = Some x -> ~ (ir_source x = source /\ ir_key x = IdempotencyKey spec)) /\
     ir_source row = source /\ ir_key row = IdempotencyKey spec /\ ir_status row = "running" /\ ir_completed row = None /\
     ir_coverage row = JObject [] /\ s' = set_runs s (<[id := row]> (runs s))).
Proof.
  intros Hid. unfold insert_run. destruct (uuid_in (SourceID spec)) as [source|]; [|intros [= <- <-]; left; eauto].
  destruct (optional_uuid uuid_in (DatasetID spec)) as [dataset|]; [|intros [= <- <-]; left; eauto].
  destruct (_ || _ || _); [intros [= <- <-]; left; eauto|].
  destruct (existsb _ _) eqn:Ex; [intros [= <- <-]; left; eauto|]. destruct (_ || _) eqn:Ef; intros [= <- <-]; [left; eauto|].
  right. split; [done|]. rewrite !orb_false_iff in Ef. destruct Ef as [[_ Hn] _]. apply bool_decide_eq_false, eq_None_not_Some in Hn.
  eexists source, (mkRunRow source dataset _ _ _ _ _ _ _ _). split; [done|]. split; [done|]. split; [|by split_and!]. intros i x Hx [E1 E2].
  rewrite existsb_map_false in Ex. specialize (Ex _ _ Hx). unfold same_run in Ex. cbn in Ex. by rewrite !bool_decide_eq_true_2 in Ex.
Qed.

Lemma update_run_effect id p f s r s' : update_run uuid_in id p f s = (r, s') ->
  (s' = s) \/
  (r = Ok 1 /\ exists uid row row', uuid_in id = Some uid /\ runs s !! uid = Some row /\ p row = true /\ f row = Some row' /\
     s' = set_runs s (<[uid := row']> (runs s))).
Proof.
  unfold update_run. destruct (uuid_in id) as [uid|] eqn:Hu; [|intros [= _ <-]; auto].
  destruct (runs s !! uid) as [row|] eqn:Hr; [|intros [= _ <-]; auto]. destruct (p row) eqn:Hp; [|intros [= _ <-]; auto].
  destruct (f row) as [row'|] eqn:Hf; intros [= <- <-]; [|auto]. right. split; [done|]. exists uid, row, row'. by split_and!.
Qed.

Lemma insert_raw_effect id item metadata s r s' : uuid_in id = Some id -> insert_raw api uuid_in jsonb_in text_ok id item metadata s = (r, s') ->
  (s' = s /\ exists e, r = Err e) \/
  (r = Ok id /\ let ref := RegReference item in exists row, raws s !! RefContentSHA256 ref = None /\
     raw_checks (RefContentSHA256 ref) row = true /\ ro_id row = id /\ ro_key row = RefKey ref /\ ro_media row = RefMediaType ref /\
     ro_length row = RefByteLength ref /\ (forall run, ro_run row = Some run -> is_Some (runs s !! run)) /\
     (forall sha x, raws s !! sha = Some x -> ro_id x <> id) /\
     s' = set_raws s (<[RefContentSHA256 ref := row]> (raws s))).
Proof.
  intros Hid. unfold insert_raw. destruct (jsonb_in metadata) as [m|]; [|intros [= <- <-]; left; eauto].
  destruct (optional_uuid uuid_in (IngestionRunID item)) as [run|]; [|intros [= <- <-]; left; eauto].
  set (row := mkRawRow _ _ _ _ _ _ _ _). destruct (_ || _ || _ || _) eqn:Ec; [intros [= <- <-]; left; eauto|].
  case_bool_decide as Hs; [intros [= <- <-]; left; eauto|]. destruct (existsb _ _ || _) eqn:Ex; intros [= <- <-]; [left; eauto|].
  right. split; [done|]. cbv zeta. exists row. rewrite !orb_false_iff in Ec. destruct Ec as [[[Ec _] _] _]. apply orb_false_iff in Ex as [Ex Er].
  apply eq_None_not_Some in Hs. apply negb_false_iff in Ec. rewrite existsb_map_false in Ex. split_and!; try done.
  - intros x Hx. cbn in Hx. subst run. by apply negb_false_iff, bool_decide_eq_true in Er.
  - intros sha x Hx Hi. specialize (Ex _ _ Hx). cbn in Ex. rewrite (bool_decide_eq_true_2 _ Hi), orb_true_r in Ex. done.
Qed.

Lemma insert_occurrence_effect id raw run key uri metadata at_ s r s' :
  insert_occurrence uuid_in jsonb_in text_ok id raw run key uri metadata at_ s = (r, s') ->
  (s' = s /\ exists e, r = Err e) \/
  (r = Ok tt /\ exists raw' run' o, uuid_in raw = Some raw' /\ uuid_in run = Some run' /\ oc_raw o = raw' /\ oc_uri o = Some uri /\
     occurrences s !! (run', key) = None /\ is_Some (runs s !! run') /\ (exists sha x, raws s !! sha = Some x /\ ro_id x = raw') /\
     s' = set_occurrences s (<[(run', key) := o]> (occurrences s))).
Proof.
  unfold insert_occurrence. destruct (uuid_in raw) as [raw'|]; [|intros [= <- <-]; left; eauto].
  destruct (uuid_in run) as [run'|]; [|intros [= <- <-]; left; eauto]. destruct (jsonb_in metadata) as [m|]; [|intros [= <- <-]; left; eauto].
  destruct (_ || _ || _ || _); [intros [= <- <-]; left; eauto|]. case_bool_decide as Hs; [intros [= <- <-]; left; eauto|].
  destruct (_ || _ || _) eqn:Ex; intros [= <- <-]; [left; eauto|]. right. split; [done|]. eexists _, _, (mkOccurrence _ _ _ _ _). split_and!; try done.
  - by apply eq_None_not_Some.
  - rewrite !orb_false_iff in Ex. destruct Ex as [[_ Ex] _]. by apply negb_false_iff, bool_decide_eq_true in Ex.
  - rewrite !orb_false_iff in Ex. destruct Ex as [[Ex _] _]. apply negb_false_iff, existsb_exists in Ex as ([sha x] & Hin & Hp).
    apply list_elem_of_In, elem_of_map_to_list in Hin. apply bool_decide_eq_true in Hp. by exists sha, x.
Qed.

(** *** What a statement keeps *)

Definition grows (s s' : tables) : Prop := recorded s s' /\ (tables_ok s -> tables_ok s').

(** No run came to have succeeded. *)
Definition no_success (s s' : tables) : Prop := forall id r', runs s' !! id = Some r' -> ir_status r' = "succeeded" ->
  exists r, runs s !! id = Some r /\ ir_status r = "succeeded".

#[export] Instance grows_preorder : PreOrder grows.
Proof.
  split; [by intros s; split|]. intros s1 s2 s3 [H1 H2] [G1 G2]. split; [by etransitivity|auto].
Qed.

#[export] Instance no_success_preorder : PreOrder no_success.
Proof.
  split; [intros s id r Hr Hs; by exists r|]. intros s1 s2 s3 H G id r Hr Hs. destruct (G _ _ Hr Hs) as (r' & Hr' & Hs'). by eapply H.
Qed.

Lemma runs_same_no_success s s' : runs s' = runs s -> no_success s s'.
Proof. intros E id r. rewrite E. intros Hr Hs. by exists r. Qed.

Lemma insert_run_grows id spec s r s' : uuid_in id = Some id -> insert_run uuid_in text_ok id spec s = (r, s') -> grows s s' /\ no_success s s'.
Proof.
  intros Hid [[-> _]|(_ & source & row & _ & Hn & Hk & E1 & E2 & E3 & E4 & _ & ->)]%insert_run_effect; [done| |done]. split; [split|].
  - split; [done|done|]. cbn. intros i x Hx. exists x. split; [rewrite lookup_insert_ne; congruence|apply same_identity_refl].
  - intros [H1 H2 H3 H4 H5 H6 H7 H8]. constructor; cbn; try done.
    + intros i x [[<- <-]|[_ Hx]]%lookup_insert_Some; [done|by eapply H1].
    + intros sha x run Hx Hrun. apply lookup_insert_is_Some'. right. by eapply H5.
    + intros run key o Ho. destruct (H6 _ _ _ Ho) as [G1 G2]. split; [apply lookup_insert_is_Some'; by right|done].
    + intros i1 i2 x1 x2 [[<- <-]|[_ Hx1]]%lookup_insert_Some [[<- <-]|[_ Hx2]]%lookup_insert_Some Es Ek; [done| | |by eapply H7].
      * destruct (Hk _ _ Hx2). split; congruence.
      * destruct (Hk _ _ Hx1). split; congruence.
    + intros i x [[<- <-]|[_ Hx]]%lookup_insert_Some; [|by eapply H8]. unfold status_ok. by rewrite E3.
  - unfold no_success. cbn. intros i x [[<- <-]|[_ Hx]]%lookup_insert_Some Hs; [congruence|by exists x].
Qed.

Lemma update_run_grows id p f s r s' : (forall row row', p row = true -> f row = Some row' -> same_identity row row' /\ (status_ok row = true -> status_ok row' = true)) ->
  update_run uuid_in id p f s = (r, s') -> grows s s'.
Proof.
  intros Hf [->|(_ & uid & row & row' & _ & Hr & Hp & E & ->)]%update_run_effect; [done|]. destruct (Hf _ _ Hp E) as [Hi Hst].
  pose proof Hi as (E1 & _ & E3 & _). split.
  - split; [done|done|]. cbn. intros i x Hx. destruct (decide (i = uid)) as [->|Hne].
    + rewrite lookup_insert_eq. exists row'. split; [done|congruence].
    + rewrite lookup_insert_ne by done. exists x. split; [done|apply same_identity_refl].
  - intros [H1 H2 H3 H4 H5 H6 H7 H8]. constructor; cbn; try done.
    + intros i x [[<- <-]|[_ Hx]]%lookup_insert_Some; [by eapply H1|by eapply H1].
    + intros sha x run Hx Hrun. apply lookup_insert_is_Some'. right. by eapply H5.
    + intros run key o Ho. destruct (H6 _ _ _ Ho) as [G1 G2]. split; [apply lookup_insert_is_Some'; by right|done].
    + intros i1 i2 x1 x2 [[<- <-]|[Hn1 Hx1]]%lookup_insert_Some [[<- <-]|[Hn2 Hx2]]%lookup_insert_Some Es Ek; [done| | |by eapply H7].
      * by eapply H7; [exact Hr|exact Hx2|congruence|congruence].
      * by eapply H7; [exact Hx1|exact Hr|congruence|congruence].
    + intros i x [[<- <-]|[_ Hx]]%lookup_insert_Some; [apply Hst; by eapply H8|by eapply H8].
Qed.

Lemma insert_raw_grows id item metadata s r s' : uuid_in id = Some id -> ObjectKey (RefContentSHA256 (RegReference item)) = RefKey (RegReference item) ->
  insert_raw api uuid_in jsonb_in text_ok id item metadata s = (r, s') -> grows s s' /\ runs s' = runs s.
Proof.
  intros Hid Hkey [[-> _]|(_ & row & Hn & Hc & E1 & E2 & E3 & E4 & Hrun & Hfresh & ->)]%insert_raw_effect; [done| |done]. split; [|done]. split.
  - split; [by apply insert_subseteq|done|]. cbn. intros i x Hx. exists x. split; [done|apply same_identity_refl].
  - intros [H1 H2 H3 H4 H5 H6 H7 H8]. constructor; cbn; try done.
    + intros sha x [[<- <-]|[_ Hx]]%lookup_insert_Some; [by rewrite E1|by eapply H2].
    + intros sha x [[<- <-]|[_ Hx]]%lookup_insert_Some; [|by eapply H3]. unfold raw_checks in Hc.
      rewrite !andb_true_iff, Z.eqb_eq, Z.leb_le in Hc. rewrite E2, Hkey. naive_solver.
    + intros sha1 sha2 x1 x2 [[<- <-]|[_ Hx1]]%lookup_insert_Some [[<- <-]|[_ Hx2]]%lookup_insert_Some E; [done| | |by eapply H4].
      * destruct (Hfresh _ _ Hx2). congruence.
      * destruct (Hfresh _ _ Hx1). congruence.
    + intros sha x run [[<- <-]|[_ Hx]]%lookup_insert_Some Hr; [by apply Hrun|by eapply H5].
    + intros run key o Ho. destruct (H6 _ _ _ Ho) as [G1 (sha & x & Hx & E)]. split; [done|]. exists sha, x. split; [|done].
      rewrite lookup_insert_ne; [done|]. congruence.
Qed.

Lemma insert_occurrence_grows id raw run key uri metadata at_ s r s' :
  insert_occurrence uuid_in jsonb_in text_ok id raw run key uri metadata at_ s = (r, s') -> grows s s' /\ runs s' = runs s /\ raws s' = raws s.
Proof.
  intros [[-> _]|(_ & raw' & run' & o & _ & _ & E1 & _ & Hn & Hrun & Hraw & ->)]%insert_occurrence_effect; [done|]. split; [|done]. split.
  - split; [done|by apply insert_subseteq|]. cbn. intros i x Hx. exists x. split; [done|apply same_identity_refl].
  - intros [H1 H2 H3 H4 H5 H6 H7 H8]. constructor; cbn; try done.
    intros run2 key2 o2 [[[= <- <-] <-]|[_ Hx]]%lookup_insert_Some; [|by eapply H6]. rewrite E1. done.
Qed.
End effects.

(** ** The store's calls *)

Section store.
Context {U : Type} (api : urlAPI U) (uuid_in : string -> option string) (jsonb_in : string -> option json) (text_ok : string -> bool).
Context (format_float : spec_float -> string) (gen : nat -> string) (now : nat -> time).
Context {T W : Type} (core : T -> tables) (set_core : tables -> T -> T).
Context (Hget : forall c t, core (set_core c t) = c) (Hset : forall t, set_core (core t) t = t).
Context (Hput : forall c1 c2 t, set_core c1 (set_core c2 t) = set_core c1 t).
Context (Hgen : forall n, uuid_in (gen n) = Some (gen n)).

Abbreviation tables_ok := (tables_ok uuid_in).
Abbreviation grows := (grows uuid_in).
Abbreviation start := (start_run (W := W) true uuid_in text_ok gen core set_core).
Abbreviation register := (register_raw_object (W := W) api true uuid_in jsonb_in text_ok format_float gen core set_core).
Abbreviation occurrence := (registerOccurrence (W := W) api uuid_in jsonb_in text_ok gen core set_core).
Abbreviation complete := (complete_run (W := W) uuid_in jsonb_in format_float now core set_core).
Abbreviation failed := (fail_run (W := W) uuid_in text_ok now core set_core).

(** Only the core tables changed. *)
Definition core_only (t t' : T) : Prop := t' = set_core (core t') t.

#[export] Instance core_only_preorder : PreOrder core_only.
Proof.
  split; [by intros t; unfold core_only; rewrite Hset|]. intros t1 t2 t3 H1 H2. unfold core_only in *. etransitivity; [exact H2|]. rewrite H1 at 1. by rewrite Hput.
Qed.

Lemma core_only_set c t : core_only t (set_core c t).
Proof. unfold core_only. by rewrite Hget. Qed.

Lemma calls_core {A} (f : tables -> res A * tables) (Q : res A -> T -> W -> Prop) t w :
  Q (Err EDb) t w -> (forall a c, f (core t) = (Ok a, c) -> Q (Ok a) (set_core c t) w) ->
  (forall e c, f (core t) = (Err e, c) -> Q (Err e) t w) -> calls (pool_stmt (on_core core set_core f)) Q t w.
Proof.
  intros Hdb Hok Herr. apply calls_pool_stmt; [done| |].
  - intros a t' E. destruct (f (core t)) as [r c] eqn:Ef. injection E as -> <-. by apply Hok.
  - intros e t' E. destruct (f (core t)) as [r c] eqn:Ef. injection E as -> _. by eapply Herr.
Qed.

Lemma calls_core_read {A} (f : tables -> res A) (Q : res A -> T -> W -> Prop) t w :
  Q (Err EDb) t w -> Q (f (core t)) t w -> calls (pool_stmt (reads_core core f)) Q t w.
Proof. intros. by apply calls_read. Qed.

(** What every call of the store does at least. *)
Definition moved (t : T) (w : W) (t' : T) (w' : W) : Prop := w' = w /\ core_only t t' /\ grows (core t) (core t').

Lemma moved_refl t w : moved t w t w.
Proof. by split_and!. Qed.

Lemma moved_set c t w : grows (core t) c -> moved t w (set_core c t) w.
Proof. intros H. split_and!; [done|apply core_only_set|by rewrite Hget]. Qed.

Ltac idle := solve [split_and!; try done; try apply moved_refl].

(** *** StartRun *)

Definition started (spec : RunSpec) (s s' : tables) (id : string) (duplicate : bool) : Prop :=
  exists row, runs s' !! id = Some row /\ uuid_in (SourceID spec) = Some (ir_source row) /\ ir_key row = IdempotencyKey spec /\
    ir_status row <> "failed" /\
    (if duplicate then is_Some (runs s !! id) else runs s !! id = None /\ ir_status row = "running").

Lemma select_run_spec source key s id : select_run uuid_in text_ok source key s = Ok id ->
  exists row, runs s !! id = Some row /\ uuid_in source = Some (ir_source row) /\ ir_key row = key.
Proof.
  unfold select_run. destruct (uuid_in source) as [u|]; [|done]. destruct (negb _); [done|]. destruct (List.filter _ _) as [|[i row] l] eqn:E; [done|].
  intros [= <-]. exists row. assert (Hin : (i, row) ∈ List.filter (same_run u key) (map_to_list (runs s))) by (rewrite E; constructor).
  apply list_elem_of_In, filter_In in Hin as [Hin Hs]. apply list_elem_of_In, elem_of_map_to_list in Hin.
  unfold same_run in Hs. rewrite andb_true_iff, !bool_decide_eq_true in Hs. cbn in Hs. naive_solver.
Qed.

Lemma start_run_calls spec t w : tables_ok (core t) ->
  calls (start spec) (fun r t' w' => moved t w t' w' /\ no_success (core t) (core t') /\
    match r with
    | Ok (id, duplicate) => started spec (core t) (core t') id duplicate /\
        (duplicate = true -> t' = t \/ exists row, runs (core t) !! id = Some row /\ ir_status row = "failed")
    | Err _ => True
    end) t w.
Proof.
  intros Hok. unfold start_run. cbn [negb]. apply calls_bind, calls_attempt, calls_core.
  - apply calls_throw. idle.
  - intros id c E. apply calls_ret. rewrite Hget. destruct (insert_run_grows _ _ _ _ _ _ _ (Hgen 0) E) as [Hg Hn].
    split; [by apply moved_set|]. split; [done|].
    apply insert_run_effect in E as [[_ [e [=]]]|([= ->] & source & row & Hs & Hnone & _ & <- & Hk & Hr & _ & _ & ->)]; [|done].
    split; [|done]. exists row. cbn. rewrite lookup_insert_eq. split_and!; try done. by rewrite Hr.
  - intros e c _. destruct (negb _); [apply calls_throw; idle|].
    apply calls_bind, calls_core_read; [idle|].
    destruct (select_run _ _ _ _ _) as [id|e'] eqn:Es; [|idle].
    apply select_run_spec in Es as (row & Hr & Hs & Hk). pose proof (tk_run_id _ _ Hok _ _ Hr) as Hid.
    apply calls_bind, calls_wrap, calls_core; [idle| |intros e' c' _; idle].
    intros n c' E. apply calls_ret. rewrite Hget.
    assert (Hg : grows (core t) c').
    { eapply update_run_grows; [|exact E]. intros x x' _ [= <-]. by split; [split_and!|]. }
    split; [by apply moved_set|]. unfold update_run in E. rewrite Hid, Hr in E.
    destruct (bool_decide (ir_status row = "failed")) eqn:Hf; injection E as <- <-.
    + split.
      * intros i x. cbn. intros [[<- <-]|[_ Hx]]%lookup_insert_Some Hx'; [done|by exists x].
      * split; [eexists; cbn; rewrite lookup_insert_eq; split_and!; done|]. intros _. right. exists row. split; [done|].
        by apply bool_decide_eq_true in Hf.
    + apply bool_decide_eq_false in Hf. split; [done|]. split; [exists row; by split_and!|]. intros _. left. by rewrite Hset.
Qed.

(** *** RegisterRawObject *)

Definition occurrence_key (item : RawObjectRegistration) : string :=
  if bool_decide (OccurrenceKey item = "") then RedactedURL api (RegRequestURI item) else OccurrenceKey item.

(** The object is registered under its digest, and so is this retrieval of it. *)
Definition object_registered (item : RawObjectRegistration) (s : tables) (id : string) : Prop :=
  let ref := RegReference item in
  exists row, raws s !! RefContentSHA256 ref = Some row /\ ro_id row = id /\ ro_key row = RefKey ref /\
    ro_media row = RefMediaType ref /\ ro_length row = RefByteLength ref.

Definition occurrence_registered (item : RawObjectRegistration) (s : tables) (id : string) : Prop :=
  forall run, IngestionRunID item = Some run -> exists run' o, uuid_in run = Some run' /\
    occurrences s !! (run', occurrence_key item) = Some o /\ oc_raw o = id /\ default "" (oc_uri o) = RedactedURL api (RegRequestURI item).

Definition moved_raw (t : T) (w : W) (t' : T) (w' : W) : Prop := moved t w t' w' /\ runs (core t') = runs (core t).

Lemma moved_raw_refl t w : moved_raw t w t w.
Proof. by split; [apply moved_refl|]. Qed.

Ltac idle_raw := solve [split_and!; try done; try apply moved_raw_refl].

Lemma occurrence_calls id item metadata t w : uuid_in id = Some id ->
  calls (occurrence id item metadata) (fun r t' w' => moved_raw t w t' w' /\ raws (core t') = raws (core t) /\
    match r with Ok _ => occurrence_registered item (core t') id | Err _ => True end) t w.
Proof.
  intros Hid. unfold registerOccurrence, occurrence_registered. destruct (IngestionRunID item) as [run|] eqn:Hi; [|apply calls_ret; split_and!; try done; apply moved_raw_refl].
  case_bool_decide; [apply calls_throw; idle_raw|]. fold (occurrence_key item). set (key := occurrence_key item).
  destruct (bool_decide (key = "")); [apply calls_throw; idle_raw|]. apply calls_bind, calls_attempt, calls_core.
  - apply calls_throw; idle_raw.
  - intros [] c E. apply calls_ret. rewrite Hget. pose proof (insert_occurrence_grows _ _ _ _ _ _ _ _ _ _ _ _ _ E) as (Hg & Hr & Hw).
    split; [split; [by apply moved_set|by rewrite Hget]|]. split; [done|].
    apply insert_occurrence_effect in E as [[_ [e [=]]]|(_ & raw' & run' & o & H1 & H2 & H3 & H4 & _ & _ & _ & ->)].
    rewrite Hid in H1. injection H1 as <-. intros run0 [= <-]. exists run', o. cbn. rewrite lookup_insert_eq, H4. by split_and!.
  - intros e c _. destruct (negb _); [apply calls_throw; idle_raw|]. apply calls_bind, calls_wrap, calls_core_read; [idle_raw|].
    unfold select_occurrence. destruct (uuid_in run) as [run'|] eqn:Hrun; [|idle_raw]. destruct (jsonb_in metadata) as [m|]; [|idle_raw].
    destruct (negb _); [idle_raw|]. destruct (occurrences (core t) !! (run', key)) as [o|] eqn:Ho; [|idle_raw].
    destruct (_ || _ || _) eqn:Ec; [apply calls_throw; idle_raw|]. apply calls_ret. split_and!; [apply moved_raw_refl|done|].
    rewrite !orb_false_iff, !negb_false_iff, !bool_decide_eq_true in Ec. destruct Ec as [[E1 E2] _].
    intros run0 [= <-]. exists run', o. by split_and!.
Qed.

Lemma validate_calls id item metadata t w : calls (validateRawObject (W := W) api uuid_in jsonb_in core id item metadata)
  (fun r t' w' => t' = t /\ w' = w /\ match r with Ok _ => uuid_in id = Some id -> object_registered item (core t) id | Err _ => True end) t w.
Proof.
  unfold validateRawObject. apply calls_bind, calls_wrap, calls_core_read; [done|].
  destruct (select_raw _ _ _ _) as [row|e] eqn:Es; [|done]. destruct (_ || _ || _) eqn:Ec; [by apply calls_throw|].
  assert (Hreg : uuid_in id = Some id -> object_registered item (core t) id).
  { intros Hid. unfold select_raw in Es. rewrite Hid in Es. destruct (raws (core t) !! _) as [x|] eqn:Hx; [|done].
    destruct (bool_decide (ro_id x = id)) eqn:Hi; [|done]. apply bool_decide_eq_true in Hi. injection Es as <-. exists x.
    rewrite !orb_false_iff, !negb_false_iff, !bool_decide_eq_true, Z.eqb_eq in Ec. naive_solver. }
  destruct (IngestionRunID item); [by apply calls_ret|]. apply calls_bind, calls_wrap, calls_core_read; [done|].
  destruct (jsonb_in metadata) as [m|]; [|done]. rewrite Es. cbn [res_bind]. destruct (_ && _ && _); [by apply calls_ret|by apply calls_throw].
Qed.

Lemma object_registered_kept item s s' id : recorded s s' -> object_registered item s id -> object_registered item s' id.
Proof. intros Hr (row & Hrow & H). exists row. split; [|done]. eapply lookup_weaken; [exact Hrow|apply Hr]. Qed.

Lemma register_calls item t w : tables_ok (core t) ->
  calls (register item) (fun r t' w' => moved_raw t w t' w' /\
    match r with
    | Ok id => object_registered item (core t') id /\ occurrence_registered item (core t') id /\
        ObjectKey (RefContentSHA256 (RegReference item)) = RefKey (RegReference item)
    | Err _ => True
    end) t w.
Proof.
  intros Hok. unfold register_raw_object. cbn [negb]. destruct (_ || _ || _) eqn:Ec; [apply calls_throw; idle_raw|].
  rewrite !orb_false_iff, !negb_false_iff, bool_decide_eq_true in Ec. destruct Ec as [_ Hkey].
  destruct (metadata_text _ _) as [metadata|]; [|apply calls_throw; idle_raw]. apply calls_bind, calls_attempt, calls_core.
  - apply calls_throw; idle_raw.
  - intros id c E. destruct (insert_raw_grows _ _ _ _ _ _ _ _ _ _ (Hgen 1) Hkey E) as [Hg Hruns].
    pose proof (insert_raw_effect _ _ _ _ _ _ _ _ _ _ (Hgen 1) E) as [[_ [e [=]]]|([= ->] & row & _ & _ & E1 & E2 & E3 & E4 & _ & _ & ->)].
    set (c := set_raws _ _) in *. assert (Hobj : object_registered item c (gen 1%nat)) by (exists row; cbn; by rewrite lookup_insert_eq).
    apply calls_bind. eapply calls_mono; [apply occurrence_calls, Hgen|]. intros r t' w' ((Hm & Hr) & _ & Hocc). rewrite Hget in Hr.
    assert (Hmoved : moved_raw t w t' w').
    { destruct Hm as (-> & Hc & Hg'). rewrite Hget in Hg'. split; [split_and!; [done|by etransitivity; [apply core_only_set|]|by etransitivity]|congruence]. }
    destruct r as [_|e]; [|done]. apply calls_ret. split; [done|]. split; [|done].
    destruct Hm as (_ & _ & Hg' & _). rewrite Hget in Hg'. by eapply object_registered_kept.
  - intros e c _. destruct (negb _); [apply calls_throw; idle_raw|]. apply calls_bind, calls_core_read; [idle_raw|].
    unfold select_raw_id. destruct (raws (core t) !! _) as [row|] eqn:Hrow; [|idle_raw].
    pose proof (tk_raw_id _ _ Hok _ _ Hrow) as Hid. apply calls_bind. eapply calls_mono; [apply validate_calls|].
    intros r t' w' (-> & -> & Hr). destruct r as [_|e']; [|idle_raw]. specialize (Hr Hid). apply calls_bind.
    eapply calls_mono; [by apply occurrence_calls|]. intros r t' w' (Hm & _ & Hocc). destruct r as [_|e']; [|done].
    apply calls_ret. split; [done|]. split; [|done]. destruct Hm as [(_ & _ & Hg & _) _]. by eapply object_registered_kept.
Qed.

(** *** The ends of a run *)

Lemma checked_Some r r' : checked r = Some r' -> r' = r /\ status_ok r = true.
Proof. unfold checked. destruct (status_ok r); [|done]. by intros [= <-]. Qed.

Definition completed (id status : string) (coverage : list (string * goval)) (s s' : tables) : Prop :=
  forall uid row, uuid_in id = Some uid -> runs s !! uid = Some row -> exists data added,
    Json.Marshal format_float (VMap coverage) = Some data /\ jsonb_in data = Some added /\
    runs s' !! uid = Some (set_coverage (jsonb_concat (ir_coverage row) added) (set_status status (ir_error row) (Some (now 0%nat)) row)).

Lemma complete_calls id status coverage t w :
  calls (complete id status coverage) (fun r t' w' => moved t w t' w' /\ raws (core t') = raws (core t) /\
    occurrences (core t') = occurrences (core t) /\
    match r with Ok _ => completed id status coverage (core t) (core t') | Err _ => t' = t end) t w.
Proof.
  unfold complete_run, completed. destruct (Json.Marshal _ _) as [data|] eqn:Ed; [|apply calls_throw; idle]. apply calls_bind, calls_core; [idle| |intros; idle].
  intros n c. destruct (jsonb_in data) as [added|] eqn:Ea; [|done]. intros E. apply calls_ret. rewrite Hget.
  assert (Hg : grows (core t) c).
  { eapply update_run_grows; [|exact E]. intros x x' _ [-> Hs]%checked_Some. split; [by split_and!|done]. }
  split; [by apply moved_set|]. unfold update_run in E. destruct (uuid_in id) as [uid|]; [|done].
  destruct (runs (core t) !! uid) as [row|] eqn:Hr.
  - destruct (checked _) as [row'|] eqn:Ek; [|done]. apply checked_Some in Ek as [-> _]. injection E as <- <-. split_and!; [done..|].
    intros uid' row' [= <-] Hr'. rewrite Hr in Hr'. injection Hr' as <-. exists data, added. cbn. by rewrite lookup_insert_eq.
  - injection E as <- <-. split_and!; [done..|]. intros uid' row [= <-] Hr'. congruence.
Qed.

Lemma fail_calls id code t w :
  calls (failed id code) (fun r t' w' => moved t w t' w' /\ no_success (core t) (core t') /\ raws (core t') = raws (core t) /\
    occurrences (core t') = occurrences (core t) /\
    match r with
    | Ok _ => forall uid row, uuid_in id = Some uid -> runs (core t) !! uid = Some row ->
        runs (core t') !! uid = Some (set_status "failed" (Some code) (Some (now 1%nat)) row)
    | Err _ => t' = t
    end) t w.
Proof.
  unfold fail_run. apply calls_bind, calls_core; [idle| |intros; idle]. intros n c E. apply calls_ret. rewrite Hget.
  assert (Hg : grows (core t) c).
  { eapply update_run_grows; [|exact E]. intros x x' _. destruct (text_ok code); [|done]. intros [-> Hs]%checked_Some. split; [by split_and!|done]. }
  split; [by apply moved_set|]. unfold update_run in E. destruct (uuid_in id) as [uid|]; [|done].
  destruct (runs (core t) !! uid) as [row|] eqn:Hr.
  - destruct (text_ok code); [|done]. destruct (checked _) as [row'|] eqn:Ek; [|done]. apply checked_Some in Ek as [-> _]. injection E as <- <-.
    split; [|split_and!; [done..|]].
    + intros i x. cbn. intros [[<- <-]|[_ Hx]]%lookup_insert_Some Hx'; [done|by exists x].
    + intros uid' row' [= <-] Hr'. rewrite Hr in Hr'. injection Hr' as <-. cbn. by rewrite lookup_insert_eq.
  - injection E as <- <-. split_and!; [done..|]. intros uid' row [= <-] Hr'. congruence.
Qed.

(** ** The pipeline *)

Section pipeline.
Context (parts : urlParts U) (out_of_range : Z -> Z) {HN : Network W}.
Context (visit : headers -> list (string * list string)) (context_id : option string).
Context (put : Object -> W -> res unit * W) (holds : W -> string -> string -> Prop) {HC : ContentStore put holds}.
Context (fetcher : HTTPFetcher W) (persist : string -> list NormalizedRecord -> dbm (T * W) unit).
Context (covers : option (RawPayload -> option goerr)) (normalize : RawPayload -> dbm (T * W) (list NormalizedRecord)).

Abbreviation keeps := (keeps holds).
Abbreviation database := (DatabaseStore (W := W) api true uuid_in jsonb_in text_ok format_float gen now core set_core).
Abbreviation fetch f request := (Fetch api parts out_of_range visit context_id f request).
Abbreviation processes f := (process api parts out_of_range visit context_id f put database persist covers).

(** Runs are where they were, under the same status. *)
Definition runs_stay (s s' : tables) : Prop := forall id r, runs s !! id = Some r ->
  exists r', runs s' !! id = Some r' /\ same_identity r r' /\ ir_status r' = ir_status r.

(** What else a caller brings leaves evidence and the state of runs alone. *)
Definition harmless {A} (m : dbm (T * W) A) : Prop := forall t w, tables_ok (core t) ->
  calls m (fun _ t' w' => keeps w w' /\ grows (core t) (core t') /\ no_success (core t) (core t') /\ runs_stay (core t) (core t')) t w.

(** [fetcher] with some limit. *)
Context (Hfetch : forall n request w r w', fetch (with_body_bytes fetcher n) request w = (r, w') -> keeps w w').
Context (Hpersist : forall id records, harmless (persist id records)) (Hnormalize : forall payload, harmless (normalize payload)).

Lemma stage_calls {A} (store : RunStore (T * W)) id code f (m : dbm (T * W) A) Q t w :
  calls m (fun r t1 w1 => match r with Ok a => Q (Ok a) t1 w1 | Err e => calls (stop store id code (f e)) Q t1 w1 end) t w ->
  calls (stage store id code f m) Q t w.
Proof.
  intros H. unfold stage. apply calls_bind, calls_attempt. eapply calls_mono; [exact H|]. intros [a|e] t' w' HQ; [by apply calls_ret|exact HQ].
Qed.

(** The evidence of a run so far. *)
Record kept_on (t : T) (w : W) (t' : T) (w' : W) : Prop := {
  ko_archive : keeps w w';
  ko_recorded : recorded (core t) (core t');
  ko_ok : tables_ok (core t');
  ko_success : no_success (core t) (core t');
}.

Lemma kept_on_refl t w : tables_ok (core t) -> kept_on t w t w.
Proof. by split. Qed.

Lemma kept_on_trans t1 w1 t2 w2 t3 w3 : kept_on t1 w1 t2 w2 -> kept_on t2 w2 t3 w3 -> kept_on t1 w1 t3 w3.
Proof. intros [H1 H2 H3 H4] [G1 G2 G3 G4]. split; [by etransitivity|by etransitivity|done|by etransitivity]. Qed.

Lemma kept_on_moved t w t' w' : tables_ok (core t) -> moved t w t' w' -> no_success (core t) (core t') -> kept_on t w t' w'.
Proof. intros Hok (-> & _ & Hr & Hg) Hn. split; [done|done|by apply Hg|done]. Qed.

Lemma stop_calls {A} id code e t0 w0 t w : kept_on t0 w0 t w ->
  calls (stop (A := A) database id code e) (fun r t' w' => (exists e', r = Err e') /\ kept_on t0 w0 t' w') t w.
Proof.
  intros Hk. unfold stop. apply calls_bind, calls_attempt. eapply calls_mono; [apply fail_calls|].
  intros r t' w' (Hm & Hn & _). apply calls_throw. split; [by eexists|]. eapply kept_on_trans; [exact Hk|]. apply kept_on_moved; [apply Hk|done|done].
Qed.

Lemma stray_none ref i records : stray ref i records = None ->
  Forall (fun r => RawObjectKey r = RefKey ref /\ RawObjectSHA256 r = RefContentSHA256 ref) records.
Proof.
  revert i. induction records as [|r rest IH]; intros i; [by constructor|]. cbn [stray]. destruct (_ && _) eqn:E; [|done].
  rewrite andb_true_iff, !bool_decide_eq_true in E. intros H%IH. by constructor.
Qed.

(** What a successful run leaves. *)
Definition delivered (id : string) (result : RunResult) (t : T) (w : W) : Prop :=
  exists payload raw row, Result result = Some payload /\ RunID result = id /\ Duplicate result = false /\
    let ref := PayArchive payload in
    ref = mkReference (ObjectKey (SHA256Hex (PayBody payload))) (SHA256Hex (PayBody payload)) (slen (PayBody payload)) (PayMediaType payload) /\
    holds w (RefKey ref) (PayBody payload) /\
    raws (core t) !! RefContentSHA256 ref = Some raw /\ ro_key raw = RefKey ref /\ ro_length raw = RefByteLength ref /\
    (exists key o, occurrences (core t) !! (id, key) = Some o /\ oc_raw o = ro_id raw) /\
    Forall (fun r => RawObjectKey r = RefKey ref /\ RawObjectSHA256 r = RefContentSHA256 ref) (Records result) /\
    (forall covered, covers = Some covered -> covered payload = None) /\
    runs (core t) !! id = Some row /\ ir_status row = "succeeded" /\
    exists before data added, Json.Marshal format_float
        (VMap [("records", VInt (Z.of_nat (length (Records result)))); ("raw_object_id", VStr (ro_id raw))]) = Some data /\
      jsonb_in data = Some added /\ ir_coverage row = jsonb_concat before added.

(** How a call that has started a run may end. *)
Definition ended (t : T) (w : W) (id : string) (r : res RunResult) (t' : T) (w' : W) : Prop :=
  match r with
  | Ok result => delivered id result t' w' /\ keeps w w' /\ recorded (core t) (core t') /\ tables_ok (core t')
  | Err _ => kept_on t w t' w'
  end.

Lemma stop_ended {A} id id' code e (P : res A -> T -> W -> Prop) t w t1 w1 : kept_on t w t1 w1 ->
  (forall e' t' w', ended t w id' (Err e') t' w' -> P (Err e') t' w') -> calls (stop database id code e) P t1 w1.
Proof. intros Hk HP. eapply calls_mono; [by apply stop_calls|]. intros r t' w' [[e' ->] H]. by apply HP. Qed.

Lemma run_stays t w t' w' id row : kept_on t w t' w' -> runs (core t) !! id = Some row -> exists row', runs (core t') !! id = Some row' /\ same_identity row row'.
Proof. intros H. apply (rc_runs _ _ (ko_recorded _ _ _ _ H)). Qed.

Lemma archived body media metadata w r w' : ArchivePayload api (Some put) body media metadata w = (r, w') ->
  keeps w w' /\ forall ref, r = Ok ref -> ref = mkReference (ObjectKey (SHA256Hex body)) (SHA256Hex body) (slen body) media /\ holds w' (RefKey ref) body.
Proof.
  unfold ArchivePayload. set (object := mkObject _ _ _ _ _). destruct (put object w) as [[[]|e] w1] eqn:Ep; intros [= <- <-].
  - split; [intros k b; by apply (put_keeps _ _ _ _ _ _ Ep)|]. intros ref [= <-]. split; [done|]. exact (put_holds _ _ _ Ep).
  - split; [intros k b; by apply (put_keeps _ _ _ _ _ _ Ep)|]. done.
Qed.

Lemma kept_on_harmless {A} (m : dbm (T * W) A) t w t1 w1 (Q : res A -> T -> W -> Prop) : harmless m -> kept_on t w t1 w1 ->
  (forall r t2 w2, kept_on t w t2 w2 -> keeps w1 w2 -> recorded (core t1) (core t2) -> runs_stay (core t1) (core t2) -> Q r t2 w2) -> calls m Q t1 w1.
Proof.
  intros Hm Hk HQ. eapply calls_mono; [apply Hm, Hk|]. intros r t2 w2 (Hw & [Hr Ho] & Hn & Hs). apply HQ; [|done..].
  eapply kept_on_trans; [exact Hk|]. split; [done|done|by apply Ho, Hk|done].
Qed.

(** From the archived response on. *)
Lemma finish_calls id row response ref t w t1 w1 : kept_on t w t1 w1 -> runs (core t1) !! id = Some row ->
  ref = mkReference (ObjectKey (SHA256Hex (Fetcher.Body response))) (SHA256Hex (Fetcher.Body response)) (slen (Fetcher.Body response)) (Fetcher.MediaType response) ->
  holds w1 (RefKey ref) (Fetcher.Body response) ->
  calls (
  let* rawID := stage database id "registration_failed" (EWrap "register raw object")
    (RegisterRawObject database (mkRegistration ref (RetrievedAt response) (RequestURI response) (RespHeaders response)
       (Some id) (RequestURI response))) in
  let payload := mkRawPayload (Fetcher.Body response) (Fetcher.MediaType response) (RetrievedAt response)
                   (CorrelationID response) (RequestURI response) (RespHeaders response) ref in
  let* records := stage database id "normalize_failed" (EWrap ("normalize response " +:+ rawID)) (normalize payload) in
  match stray ref 0 records with
  | Some index =>
      stop database id "provenance_failed"
        (ENew ("normalized record " +:+ format_int index +:+ " does not reference archived response"))
  | None =>
      let* _ := stage database id "persistence_failed" (EWrap ("persist normalized records " +:+ rawID)) (persist id records) in
      let* _ := stage database id "incomplete_coverage" Datatypes.id
        (match covers ≫= fun covers => covers payload with Some e => throw e | None => ret tt end) in
      wrap "complete ingestion run"
        (CompleteRun database id "succeeded" [("records", VInt (Z.of_nat (length records))); ("raw_object_id", VStr rawID)]) ;;;
      ret (mkRunResult id (Some payload) records false)
  end)%db (ended t w id) t1 w1.
Proof.
  intros Hk Hrow Href Hheld. pose proof (tk_run_id _ _ (ko_ok _ _ _ _ Hk) _ _ Hrow) as Hid.
  set (item := mkRegistration _ _ _ _ _ _) in *. cbn [RegisterRawObject DatabaseStore CompleteRun].
  apply calls_bind, stage_calls. eapply calls_mono; [apply register_calls, Hk|]. intros r t2 w2 ((Hm & Hruns) & Hr).
  assert (Hk2 : kept_on t w t2 w2).
  { eapply kept_on_trans; [exact Hk|]. apply kept_on_moved; [apply Hk|done|by apply runs_same_no_success]. }
  destruct Hm as (-> & _ & [Hrec _]). rewrite <- Hruns in Hrow.
  destruct r as [rawID|e]; [|eapply (stop_ended _ id); [done|auto]]. destruct Hr as ((raw & Hraw & Eid & Ekey & _ & Elen) & Hocc & _).
  destruct (Hocc id eq_refl) as (run' & o & Hu & Ho & Eraw & _). rewrite Hid in Hu. injection Hu as <-.
  cbv zeta. set (payload := mkRawPayload _ _ _ _ _ _ _). apply calls_bind, stage_calls.
  apply (kept_on_harmless _ t w t2 w1); [apply Hnormalize|done|]. intros r t3 w3 Hk3 Hw3 Hrec3 Hst3.
  destruct r as [records|e]; [|eapply (stop_ended _ id); [done|auto]].
  destruct (stray ref 0 records) as [index|] eqn:Es; [eapply (stop_ended _ id); [done|auto]|]. apply stray_none in Es.
  apply calls_bind, stage_calls. apply (kept_on_harmless _ t w t3 w3); [apply Hpersist|done|]. intros r t4 w4 Hk4 Hw4 Hrec4 Hst4.
  destruct r as [_|e]; [|eapply (stop_ended _ id); [done|auto]].
  apply calls_bind, stage_calls.
  assert (Hcov : match covers ≫= fun covers => covers payload with Some e => True | None => forall covered, covers = Some covered -> covered payload = None end).
  { destruct covers as [covered|]; [|by intros ? [=]]. cbn. destruct (covered payload) eqn:E; [done|]. by intros ? [= <-]. }
  destruct (covers ≫= _) as [e|]; [apply calls_throw; eapply (stop_ended _ id); [done|auto]|]. apply calls_ret.
  apply calls_bind, calls_wrap. eapply calls_mono; [apply complete_calls|]. intros r t5 w5 (Hm5 & Hraws5 & Hoccs5 & Hr5).
  destruct r as [_|e]; [|subst t5; destruct Hm5 as (-> & _); exact Hk4].
  destruct (Hst3 _ _ Hrow) as (row3 & Hrow3 & _). destruct (Hst4 _ _ Hrow3) as (row4 & Hrow4 & _).
  destruct (Hr5 _ _ Hid Hrow4) as (data & added & Hdata & Hadded & Hrow5).
  destruct Hm5 as (-> & _ & [Hrec5 Hok5]). apply calls_ret.
  pose proof (transitivity Hrec3 Hrec4) as Hrec34.
  split; [|split_and!; [apply Hk4|etransitivity; [apply Hk4|exact Hrec5]|apply Hok5, Hk4]].
  exists payload, raw. eexists. split; [done|]. split; [done|]. split; [done|]. cbv zeta. cbn [PayArchive payload PayBody PayMediaType PayRequestURI Records].
  split; [exact Href|]. split; [apply Hw4, Hw3, Hheld|]. split; [rewrite Hraws5; eapply lookup_weaken; [exact Hraw|apply Hrec34]|].
  split; [exact Ekey|]. split; [exact Elen|]. split.
  { exists (occurrence_key item), o. split; [|congruence]. rewrite Hoccs5. eapply lookup_weaken; [exact Ho|apply Hrec34]. }
  split; [done|]. split; [exact Hcov|]. split; [exact Hrow5|]. split; [done|]. exists (ir_coverage row4), data, added.
  split; [by rewrite Eid|]. by split.
Qed.

Lemma process_calls n id row request t w : tables_ok (core t) -> runs (core t) !! id = Some row ->
  calls (processes (with_body_bytes fetcher n) id request normalize) (ended t w id) t w.
Proof.
  intros Hok Hrow. unfold process.
  apply calls_bind, stage_calls, calls_archive. intros r w1 Ef. pose proof (Hfetch _ _ _ _ _ Ef) as Hw1.
  assert (K1 : kept_on t w t w1) by by split.
  destruct r as [response|e]; [|eapply (stop_ended _ id); [done|auto]].
  apply calls_bind, stage_calls, calls_archive. intros r w2 Ea. destruct (archived _ _ _ _ _ _ Ea) as [Hw2 Href].
  assert (K2 : kept_on t w t w2) by (split; [by etransitivity|done..]).
  destruct r as [ref|e]; [|eapply (stop_ended _ id); [done|auto]]. destruct (Href _ eq_refl) as [E Hheld].
  by apply (finish_calls id row).
Qed.

Definition pipeline (maxBytes : Z) : Pipeline := mkPipeline (Some fetcher) (Some put) (Some database) (Some persist) covers maxBytes.

Lemma skips_calls id duplicate t w : calls (skips database id duplicate) (fun r t' w' => t' = t /\ w' = w /\
  match r with Ok true => duplicate = true /\ exists uid row, uuid_in id = Some uid /\ runs (core t) !! uid = Some row /\ ir_status row = "succeeded" | _ => True end) t w.
Proof.
  unfold skips. destruct duplicate; [|by apply calls_ret]. cbn [LoadRunStatus DatabaseStore]. unfold load_run_status. cbn [negb].
  apply calls_bind, calls_wrap, calls_core_read; [done|]. unfold select_status. destruct (uuid_in id) as [uid|]; [|done].
  destruct (runs (core t) !! uid) as [row|] eqn:Hr; [|done]. apply calls_ret. split; [done|]. split; [done|].
  case_bool_decide as Hs; [|done]. split; [done|]. exists uid, row. by rewrite Hs.
Qed.

Definition outcome (spec : RunSpec) (t : T) (w : W) (r : res RunResult) (t' : T) (w' : W) : Prop :=
  keeps w w' /\ recorded (core t) (core t') /\ tables_ok (core t') /\
  match r with
  | Ok result => exists row, runs (core t') !! RunID result = Some row /\ ir_key row = IdempotencyKey spec /\
      uuid_in (SourceID spec) = Some (ir_source row) /\ ir_status row = "succeeded" /\
      (if Duplicate result then t' = t /\ w' = w /\ Records result = [] else delivered (RunID result) result t' w')
  | Err _ => no_success (core t) (core t')
  end.

Lemma outcome_err spec t w e t' w' : kept_on t w t' w' -> outcome spec t w (Err e) t' w'.
Proof. intros []. by split_and!. Qed.

Lemma run_calls maxBytes spec request t w : tables_ok (core t) ->
  calls (Ingestion.Run api parts out_of_range visit context_id (pipeline maxBytes) spec request (Some normalize)) (outcome spec t w) t w.
Proof.
  intros Hok. unfold Ingestion.Run. cbn [PFetcher PArchive Runs Persist Coverage pipeline StartRun DatabaseStore].
  apply calls_bind. eapply calls_mono; [by apply start_run_calls|]. intros r t1 w1 (Hm & Hn & Hr).
  pose proof (kept_on_moved _ _ _ _ Hok Hm Hn) as K1.
  destruct r as [[id duplicate]|e]; [|by apply outcome_err]. destruct Hr as ((row & Hrow & Hsrc & Hkey & Hstat & Hdup) & Hsame).
  pose proof (tk_run_id _ _ (ko_ok _ _ _ _ K1) _ _ Hrow) as Hid. cbn [fst snd].
  apply calls_bind. eapply calls_mono; [apply skips_calls|]. intros r t2 w2 (-> & -> & Hskip).
  destruct r as [[]|e]; [| |by apply outcome_err].
  - destruct Hskip as (-> & uid & row' & Hu & Hrow' & Hs). rewrite Hid in Hu. injection Hu as <-. rewrite Hrow in Hrow'. injection Hrow' as <-.
    apply calls_ret. destruct Hm as (-> & _). split_and!; [apply K1..|]. exists row. cbn. split_and!; try done.
    destruct (Hsame eq_refl) as [->|(old & Hold & Hf)]; [done|].
    destruct (Hn _ _ Hrow Hs) as (old' & Hold' & Hs'). rewrite Hold in Hold'. injection Hold' as <-. congruence.
  - assert (Hf : exists n, (if 0 <? maxBytes then with_body_bytes fetcher maxBytes else fetcher) = with_body_bytes fetcher n).
    { destruct (0 <? maxBytes); [by exists maxBytes|]. exists (MaxBodyBytes fetcher). by destruct fetcher. }
    cbv zeta. cbn [MaxBytes pipeline]. destruct Hf as [n ->]. eapply calls_mono; [eapply process_calls; [apply K1|exact Hrow]|]. intros [result|e] t2 w2 H.
    + destruct H as (Hd & Hw & Hrec & Hok2). pose proof Hd as (payload & raw & row2 & _ & Eid & Edup & _ & _ & _ & _ & _ & _ & _ & _ & Hrow2 & Hs2 & _).
      destruct (rc_runs _ _ Hrec _ _ Hrow) as (row2' & Hrow2' & Hi). rewrite Hrow2 in Hrow2'. injection Hrow2' as <-.
      destruct Hi as (E1 & _ & E3 & _). split_and!; [etransitivity; [apply K1|done]|etransitivity; [apply K1|done]|done|].
      exists row2. rewrite Eid, Edup, E1, E3. by split_and!.
    + apply outcome_err. by eapply kept_on_trans.
Qed.

End pipeline.
End store.

(** ** Histories of the store

    Calls of any workers, interleaved and failing in any way, and the checkpoints
    of the providers, which change the coverage of a run. *)
Section histories.
Context {U : Type} (api : urlAPI U) (uuid_in : string -> option string) (jsonb_in : string -> option json) (text_ok : string -> bool).
Context (format_float : spec_float -> string).

Abbreviation as_is := (fun c _ : tables => c).
Definition fresh_ids (gen : nat -> string) : Prop := forall n, uuid_in (gen n) = Some (gen n).

Inductive store_step : tables -> tables -> Prop :=
  | step_start gen spec fs s r s' : fresh_ids gen ->
      run (start_run (W := unit) true uuid_in text_ok gen Datatypes.id as_is spec) fs (s, tt) = (r, (s', tt)) -> store_step s s'
  | step_register gen item fs s r s' : fresh_ids gen ->
      run (register_raw_object (W := unit) api true uuid_in jsonb_in text_ok format_float gen Datatypes.id as_is item) fs (s, tt) = (r, (s', tt)) ->
      store_step s s'
  | step_complete now id status coverage fs s r s' :
      run (complete_run (W := unit) uuid_in jsonb_in format_float now Datatypes.id as_is id status coverage) fs (s, tt) = (r, (s', tt)) ->
      store_step s s'
  | step_fail now id code fs s r s' :
      run (fail_run (W := unit) uuid_in text_ok now Datatypes.id as_is id code) fs (s, tt) = (r, (s', tt)) -> store_step s s'
  | step_checkpoint id p f s r s' :
      update_run uuid_in id p (fun row => Some (set_coverage (f row) row)) s = (r, s') -> store_step s s'.

(** C10: over any history of the store, of any workers and with any failures, the
    tables stay consistent, with one run per source and key and every raw object
    at the address of its digest, and no raw object, occurrence or identity of a
    run is changed or lost. *)
Theorem evidence_permanent s0 s : tables_ok uuid_in s0 -> rtc store_step s0 s -> tables_ok uuid_in s /\ recorded s0 s.
Proof.
  intros Hok Hs. induction Hs as [s|s s1 s2 Hstep _ IH]; [done|].
  assert (Hg : grows uuid_in s s1).
  { destruct Hstep as [gen spec fs s r s1 Hgen H|gen item fs s r s1 Hgen H|now id status coverage fs s r s1 H|now id code fs s r s1 H|id p f s r s1 H].
    - apply (calls_run _ _ _ _ _ _ _ H (start_run_calls uuid_in jsonb_in text_ok gen Datatypes.id as_is (fun _ _ => eq_refl) (fun _ => eq_refl) (fun _ _ _ => eq_refl) Hgen _ _ _ Hok)).
    - apply (calls_run _ _ _ _ _ _ _ H (register_calls api uuid_in jsonb_in text_ok format_float gen Datatypes.id as_is (fun _ _ => eq_refl) (fun _ => eq_refl) (fun _ _ _ => eq_refl) Hgen _ _ _ Hok)).
    - apply (calls_run _ _ _ _ _ _ _ H (complete_calls uuid_in jsonb_in format_float now Datatypes.id as_is (fun _ _ => eq_refl) (fun _ => eq_refl) (fun _ _ _ => eq_refl) _ _ _ _ _)).
    - apply (calls_run _ _ _ _ _ _ _ H (fail_calls uuid_in text_ok now Datatypes.id as_is (fun _ _ => eq_refl) (fun _ => eq_refl) (fun _ _ _ => eq_refl) _ _ _ _)).
    - eapply update_run_grows; [|exact H]. intros row row' _ [= <-]. by split; [split_and!|]. }
  destruct (IH (proj2 Hg Hok)) as [Hok' Hr]. split; [done|]. etransitivity; [apply Hg|done].
Qed.
End histories.

(** ** A concrete run *)

Module ingestion_demo.
Import fetch_demo.

Abbreviation bucket := (gmap string S3Object).

Definition constant : Network bucket :=
  {| client_do := fun _ _ => yield served; timer_sleep := fun _ => yield tt; clock := yield 5; rand_read := yield (replicate 16 171) |}.
Definition plain : HTTPFetcher bucket :=
  mkHTTPFetcher _ None {["api.example.org"]} {["application/json"]} 0 0 (mkRetryPolicy 2 0 0) None None.
Definition gen (n : nat) : string := "id-" +:+ format_int (Z.of_nat n).
Definition start : tables := mkTables {["fred"]} ∅ ∅ ∅ ∅.
Definition spec : RunSpec := mkRunSpec "fred" None "daily" "1" None None.
Definition normalize (p : RawPayload) : dbm (tables * bucket) (list NormalizedRecord) :=
  ret [mkNormalized "observation" (RefKey (PayArchive p)) (RefContentSHA256 (PayArchive p)) "{}"].
Definition persist (_ : string) (_ : list NormalizedRecord) : dbm (tables * bucket) unit := ret tt.

Definition pipe : Pipeline := pipeline (W := bucket) api Some parse_json (fun _ => true) (fun _ => "0") gen (fun _ => 9)
  Datatypes.id (fun c _ => c) (Put api) plain persist None 0.
Definition answer : res RunResult * (tables * bucket) :=
  run (Ingestion.Run (HN := constant) api parts (fun z => z) map_to_list None pipe spec request (Some normalize)) [] (start, ∅).
Definition after : tables := fst (snd answer).

Definition summary (r : res RunResult) : option (string * nat * bool) :=
  match r with Ok a => Some (RunID a, length (Records a), Duplicate a) | Err _ => None end.

Example run_ex : summary (fst answer) = Some ("id-0", 1%nat, false) /\
  (ir_status <$> runs after !! "id-0") = Some "succeeded" /\ (ro_length <$> raws after !! SHA256Hex "{}") = Some 2.
Proof. vm_compute. auto. Qed.

Lemma sources_only_ok : tables_ok Some start.
Proof. by split. Qed.

Lemma plain_keeps n request (w : bucket) r w' :
  Fetch (HN := constant) api parts (fun z => z) map_to_list None (with_body_bytes plain n) request w = (r, w') ->
  keeps (holds Datatypes.id) w w'.
Proof.
  apply (fetch_keeps (HN := constant) api parts (fun z => z) map_to_list None (keeps (holds Datatypes.id)) (with_body_bytes plain n));
    [intros check req|intros d| | |intros hook [=]|intros sleep [=]]; intros w0; apply (PreOrder_Reflexive (R := keeps (holds Datatypes.id)) w0).
Qed.

(** A second worker on the same key starts the run it found running and, when its
    own fetch fails, marks it failed although the first has completed it. *)
Definition fail_later : res unit * (tables * unit) :=
  run (fail_run (W := unit) Some (fun _ => true) (fun _ => 9) Datatypes.id (fun c _ => c) "id-0" "fetch_failed") [] (after, tt).

Example late_failure : (ir_status <$> runs (fst (snd fail_later)) !! "id-0") = Some "failed" /\
  (ir_error <$> runs (fst (snd fail_later)) !! "id-0") = Some (Some "fetch_failed").
Proof. vm_compute. auto. Qed.

Lemma idle {A} (a : A) : harmless (W := bucket) Some Datatypes.id (holds Datatypes.id) (ret a : dbm (tables * bucket) A).
Proof. intros t w Hok. apply calls_ret. split_and!; [done|done|done|]. intros id r Hr. exists r. by split_and!. Qed.
End ingestion_demo.


Lemma evidence_permanent_witness : exists s', rtc (store_step fetch_demo.api Some parse_json (fun _ => true) (fun _ => "0")) ingestion_demo.start s' /\
  (ir_status <$> runs s' !! "id-0") = Some "failed" /\ tables_ok Some s' /\ recorded ingestion_demo.start s'.
Proof.
  pose (open_ := fst (snd (run (start_run (W := unit) true Some (fun _ => true) ingestion_demo.gen Datatypes.id (fun c _ => c) ingestion_demo.spec)
                        [] (ingestion_demo.start, tt)))).
  pose (ended_ := fst (snd (run (fail_run (W := unit) Some (fun _ => true) (fun _ => 9) Datatypes.id (fun c _ => c) "id-0" "fetch_failed")
                        [] (open_, tt)))).
  assert (Hs : rtc (store_step fetch_demo.api Some parse_json (fun _ => true) (fun _ => "0")) ingestion_demo.start ended_).
  { eapply rtc_l; [|apply rtc_once].
    - eapply (step_start _ _ _ _ _ ingestion_demo.gen ingestion_demo.spec [] _ (Ok ("id-0", false)) open_ (fun _ => eq_refl)). vm_compute. reflexivity.
    - eapply (step_fail _ _ _ _ _ (fun _ => 9) "id-0" "fetch_failed" [] open_ (Ok tt) ended_). vm_compute. reflexivity. }
  exists ended_. split; [exact Hs|]. split; [vm_compute; reflexivity|].
  exact (evidence_permanent fetch_demo.api Some parse_json (fun _ => true) (fun _ => "0") _ _ ingestion_demo.sources_only_ok Hs).
Defined.
