(* ===== verification/JournalModel.v ===== *)
(** The decision journal's domain (internal/domain/journal/model.go) and the
    tables the journal and evidence services read and write (db/migrations/00001,
    00004, 00006, 00008 to 00012).

    A row holds the columns the queries select by, and, where a query takes
    [to_jsonb] of the row, that document.  A JSONB value is the document it
    denotes; identifiers are UUIDs in canonical text. *)

From S2P Require Import Prelude GoString Digits GoTime Json JsonTree.
From Stdlib Require Import Ascii.

(** ** The domain *)

Module Journal.

Definition StatusDraft : string := "draft".
Definition StatusFinalized : string := "finalized".

Record EvidenceRef : Set := mkEvidenceRef {
  Kind : string;
  RefID : string;
  Description : string;
}.

Record Invalidation : Set := mkInvalidation {
  Condition : string;
  Metric : string;
  Threshold : string;
}.

Record Horizon : Set := mkHorizon { Start : time; End_ : time }.

Record RiskBudget : Set := mkRiskBudget {
  Amount : string;
  Currency : string;
  Measure : string;
  BudgetHorizon : string;
}.

(** A [map[string]any] read from the database. *)
Definition metadata := gmap string json.

Record Decision : Type := mkDecision {
  ID : string;
  AccountID : string;
  Thesis : string;
  Alternatives : list string;
  EvidenceReferences : list EvidenceRef;
  InvalidationConditions : list Invalidation;
  DecisionHorizon : Horizon;
  Budget : RiskBudget;
  IntendedAction : string;
  Tags : list string;
  Status : string;
  Author : string;
  SourceMetadata : metadata;
  CreatedAt : time;
  FinalizedAt : option time;
}.

Record Review : Type := mkReview {
  RvID : string;
  RvDecisionID : string;
  RvReview : string;
  RvOutcome : string;
  RvAuthor : string;
  RvSourceMetadata : metadata;
  RvCreatedAt : time;
}.

Record Amendment : Type := mkAmendment {
  AmID : string;
  AmDecisionID : string;
  AmSummary : string;
  AmChanges : metadata;
  AmAuthor : string;
  AmSourceMetadata : metadata;
  AmCreatedAt : time;
}.

(** The payload is a raw message. *)
Record TimelineEvent : Type := mkTimelineEvent {
  EvID : string;
  EvDecisionID : string;
  EvKind : string;
  EvPayload : string;
  EvAuthor : string;
  EvSourceMetadata : metadata;
  EvCreatedAt : time;
}.

Record DecisionTimeline : Type := mkTimeline {
  TlDecision : Decision;
  TlEvents : list TimelineEvent;
}.

(** An instant in a location, which is what a request carries. *)
Record Stamp : Set := mkStamp { At : time; Offset : Z (* seconds east of UTC *) }.

(** Requests.  A slice or map that may be nil is an option where the code asks. *)
Record CreateRequest : Type := mkCreateRequest {
  CrAccountID : string;
  CrThesis : string;
  CrAlternatives : list string;
  CrEvidenceReferences : list EvidenceRef;
  CrInvalidationConditions : list Invalidation;
  CrStart : Stamp;
  CrEnd : Stamp;
  CrRiskBudget : RiskBudget;
  CrIntendedAction : string;
  CrTags : list string;
  CrAuthor : string;
  CrSourceMetadata : option (list (string * goval));
}.

Record ReviewRequest : Type := mkReviewRequest {
  RrReview : string;
  RrOutcome : string;
  RrAuthor : string;
  RrSourceMetadata : option (list (string * goval));
}.

Record AmendmentRequest : Type := mkAmendmentRequest {
  ArSummary : string;
  ArChanges : option (list (string * goval));
  ArAuthor : string;
  ArSourceMetadata : option (list (string * goval));
}.

(** ** Tables of the journal *)

Record DecisionRow : Type := mkDecisionRow {
  dc_account : string;
  dc_thesis : string;
  dc_alternatives : json;
  dc_evidence : json;
  dc_invalidation : json;
  dc_start : time;
  dc_end : time;
  dc_amount : Z;
  dc_currency : string;
  dc_measure : string;
  dc_horizon : string;
  dc_action : string;
  dc_tags : list string;
  dc_status : string;
  dc_author : string;
  dc_metadata : json;
  dc_snapshot : json;
  dc_sequence : Z;
  dc_created : time;
  dc_finalized : option time;
}.

Record ReviewRow : Type := mkReviewRow {
  rw_decision : string;
  rw_review : string;
  rw_outcome : string;
  rw_author : string;
  rw_metadata : json;
  rw_sequence : Z;
  rw_created : time;
}.

Record AmendmentRow : Type := mkAmendmentRow {
  am_decision : string;
  am_summary : string;
  am_changes : json;
  am_author : string;
  am_metadata : json;
  am_sequence : Z;
  am_created : time;
}.

Record EvidenceRow : Type := mkEvidenceRow {
  ev_bytes : string;
  ev_sha : string;
  ev_created : time;
}.

(** ** Tables the evidence is taken from *)

Record SnapshotRow : Type := mkSnapshot { sn_portfolio : string; sn_doc : json }.
Record LineRow : Type := mkLine { ln_snapshot : string; ln_doc : json }.

Record ValuationRow : Type := mkValuation {
  vl_snapshot : string;
  vl_state : string;
  vl_doc : json;
}.

Record ValuationLineRow : Type := mkValuationLine {
  vn_run : string;
  vn_price : option string;
  vn_try_fx : list string;
  vn_usd_fx : list string;
  vn_doc : json;
}.

Record ScenarioRunRow : Type := mkScenarioRun {
  sr_scenario : string;
  sr_version : Z;
  sr_account : string;
  sr_snapshot : string;
  sr_valuation : option string;
  sr_job : string;
  sr_state : string;
  sr_result : option json;
  sr_result_hash : option string;
  sr_completed : option time;
  sr_doc : json;
}.

Record JobRow : Type := mkJob {
  jb_state : string;
  jb_result : option json;
  jb_result_hash : option string;
  jb_doc : json;
}.

Record RawRow : Set := mkRaw { ro_key : string; ro_sha : string }.

Record ObservationRow : Type := mkObservation { ob_raw : string; ob_doc : json }.

Record PriceRow : Type := mkPrice {
  pr_instrument : string;
  pr_observation : time;
  pr_price : Z;
  pr_quote : string;
  pr_source_known : option time;
  pr_system_known : time;
  pr_basis : string;
  pr_raw : string;
  pr_doc : json;
}.

Record FXRow : Type := mkFX {
  fx_base : string;
  fx_quote : string;
  fx_observation : time;
  fx_rate : Z;
  fx_source_known : option time;
  fx_system_known : time;
  fx_basis : string;
  fx_raw : string;
  fx_doc : json;
}.

(** What the journal only reads. *)
Record source_tables : Type := mkSources {
  accounts : gmap string string;                (* portfolio *)
  snapshots : gmap string SnapshotRow;
  snapshot_lines : gmap string LineRow;
  valuation_runs : gmap string ValuationRow;
  valuation_lines : gmap string ValuationLineRow;
  scenario_runs : gmap string ScenarioRunRow;
  scenario_versions : gmap (string * Z) json;   (* document *)
  jobs : gmap string JobRow;
  run_positions : gmap (string * string) json;  (* run and snapshot line; document *)
  run_metrics : gmap (string * string) json;    (* run and metric key; document *)
  raw_objects : gmap string RawRow;
  observations : gmap string ObservationRow;
  prices : gmap string PriceRow;
  fx_quotes : gmap string FXRow;
  instruments : gmap string (string * string);  (* type and native currency *)
}.

Record tables : Type := mkTables {
  sources : source_tables;
  decisions : gmap string DecisionRow;
  reviews : gmap string ReviewRow;
  amendments : gmap string AmendmentRow;
  evidence : gmap string EvidenceRow;
  sequence : Z;                                 (* decision_timeline_sequence *)
}.

Definition set_decisions (s : tables) m :=
  mkTables (sources s) m (reviews s) (amendments s) (evidence s) (sequence s).
Definition set_evidence (s : tables) m :=
  mkTables (sources s) (decisions s) (reviews s) (amendments s) m (sequence s).

End Journal.
