(* ===== verification/Evidence.v ===== *)
(** Decision evidence (internal/application/evidence/service.go): sealing the
    artifacts a decision refers to into a manifest, and reading the manifest back.

    [Seal] runs in the journal's transaction.  The store is the tables together
    with the archive's world; [get] is the archive's [Get], absent when the
    service has none.  The casts of the database to UUID and from JSONB, and its
    collation, are parameters.  Values formatted into the text of an error are
    left out. *)

From S2P Require Import Prelude GoString Digits GoTime Sha256 Decimal Order Tables Db World.
From S2P Require Import Json JsonTree JsonText JsonCompact JsonDecode TimeText JournalModel.
From Stdlib Require Import Ascii QArith.
#[local] Open Scope Z_scope.

Module Evidence.
Import Journal.

Definition ErrIncomplete : goerr := ENew "decision evidence incomplete".
Definition ErrIntegrity : goerr := ENew "decision evidence integrity failure".

Definition ContractVersion : string := "1.0.0".

Record Entry : Set := mkEntry {
  EntryKind : string;
  EntryReference : string;
  EntryDescription : string;
  EntrySnapshot : string;       (* a raw message *)
}.

Record RawRef : Set := mkRawRef {
  RawID : string;
  RawKey : string;
  RawSHA256 : string;
}.

Record Manifest : Set := mkManifest {
  SchemaVersion : string;
  MfContractVersion : string;
  DecisionID : string;
  MfAccountID : string;
  References : list Entry;
  RawObjects : list RawRef;
}.

Record Sealed : Set := mkSealed {
  SealedManifest : string;
  SealedSHA256 : string;
}.

#[export] Instance RawRef_eq_dec : EqDecision RawRef.
Proof. solve_decision. Defined.

(** ** Identifiers *)

Definition uuid_char (i : nat) (c : ascii) : bool :=
  if existsb (Nat.eqb i) [8; 13; 18; 23]%nat then Ascii.eqb c "-" else is_hex c.

Definition canonicalUUID (value : string) : option string :=
  if (slen value =? 36) && forallb (fun ic => uuid_char (fst ic) (snd ic)) (combine (seq 0 36) (chars value))
  then Some (to_lower value) else None.

Definition validUUID (value : string) : bool := bool_decide (is_Some (canonicalUUID value)).

(** ** The manifest as text *)

(** A raw message is written in compact form; one that is not JSON is an error. *)
Definition marshal_raw (raw : string) : option string :=
  match parse_json raw with Some _ => Some (compact raw) | None => None end.

Definition marshal_text (s : string) : string := encode_string true s.

Definition marshal_ref (r : RawRef) : string :=
  object_text [("id", marshal_text (RawID r)); ("key", marshal_text (RawKey r)); ("sha256", marshal_text (RawSHA256 r))].

Definition marshal_entry (e : Entry) : option string :=
  snapshot ← marshal_raw (EntrySnapshot e);
  Some (object_text ([("kind", marshal_text (EntryKind e)); ("reference", marshal_text (EntryReference e))]
    ++ (if bool_decide (EntryDescription e = "") then [] else [("description", marshal_text (EntryDescription e))])
    ++ [("snapshot", snapshot)])).

(** [json.Marshal(manifest)]. *)
Definition marshal_manifest (m : Manifest) : option string :=
  entries ← mapM marshal_entry (References m);
  Some (object_text [("schema_version", marshal_text (SchemaVersion m));
                     ("contract_version", marshal_text (MfContractVersion m));
                     ("decision_id", marshal_text (DecisionID m));
                     ("account_id", marshal_text (MfAccountID m));
                     ("references", array_text entries);
                     ("raw_objects", array_text (marshal_ref <$> RawObjects m))]).

(** [json.Unmarshal] into a manifest: the members that are read afterwards, the
    identifier and the raw objects; the others must only have the right type. *)
Definition decode_ref : json -> option RawRef :=
  decode_struct
    [("id", fun j r => s ← decode_string (RawID r) j; Some (mkRawRef s (RawKey r) (RawSHA256 r)));
     ("key", fun j r => s ← decode_string (RawKey r) j; Some (mkRawRef (RawID r) s (RawSHA256 r)));
     ("sha256", fun j r => s ← decode_string (RawSHA256 r) j; Some (mkRawRef (RawID r) (RawKey r) s))]
    (mkRawRef "" "" "").

Definition skip_text {A} (j : json) (a : A) : option A := _ ← decode_text j; Some a.

Definition decode_entry : json -> option unit :=
  decode_struct [("kind", skip_text); ("reference", skip_text); ("description", skip_text);
                 ("snapshot", fun _ a => Some a)] tt.

Definition decode_manifest : json -> option (string * list RawRef) :=
  decode_struct
    [("schema_version", skip_text); ("contract_version", skip_text);
     ("decision_id", fun j m => s ← decode_string (fst m) j; Some (s, snd m));
     ("account_id", skip_text);
     ("references", fun j m => _ ← decode_list decode_entry j; Some m);
     ("raw_objects", fun j m => l ← decode_list decode_ref j; Some (fst m, l))]
    ("", []).

(** ** Metric inputs

    One entry of a revision history, a [map[string]any]. *)
Definition metric := gmap string json.

Definition metricString (entry : metric) (key : string) : string :=
  match entry !! key with Some (JString s) => trim_space s | _ => "" end.

Definition metricUUID (entry : metric) (key : string) : option string :=
  match entry !! key with Some (JString s) => canonicalUUID s | _ => None end.

Definition metricTimestamp (entry : metric) (key : string) (expected : time) : bool :=
  match entry !! key with
  | Some (JString s) => bool_decide (time_parse s = Some expected)
  | _ => false
  end.

Definition metricNullableTimestamp (entry : metric) (key : string) (expected : option time) : bool :=
  match entry !! key with
  | None | Some JNull => bool_decide (expected = None)
  | Some (JString s) =>
      match expected with Some t => bool_decide (time_parse s = Some t) | None => false end
  | _ => false
  end.

Definition metricObservationDay (entry : metric) : option string :=
  match entry !! "observation_time" with
  | Some (JString s) => utc_date <$> time_parse s
  | _ => None
  end.

Definition metricFXStep (entry : metric) : option (string * string) :=
  match of_chars <$> split_char "/" (chars (metricString entry "pair")) with
  | [p0; p1] =>
      if bool_decide (p0 = "") || bool_decide (p1 = "") then None
      else
        let base := to_upper (trim_space p0) in
        let quote := to_upper (trim_space p1) in
        if bool_decide (metricString entry "direction" = "direct") then Some (base, quote)
        else if bool_decide (metricString entry "direction" = "inverse") then Some (quote, base)
        else None
  | _ => None
  end.

(** Follow a conversion path from a currency. *)
Fixpoint convert_along (current : string) (amount : Q) (path : list metric) : option (string * Q) :=
  match path with
  | [] => Some (current, amount)
  | revision :: rest =>
      '(from, to) ← metricFXStep revision;
      if negb (bool_decide (from = current)) then None
      else
        rate ← positive_rat (metricString revision "rate");
        let amount := if bool_decide (metricString revision "direction" = "direct")
                      then (amount * rate)%Q else (amount / rate)%Q in
        convert_along to amount rest
  end.

Definition validateMetricUSDConversion (entry : metric) (fxRevisions : list metric) : bool :=
  match positive_rat (metricString entry "price"), positive_rat (metricString entry "usd_price") with
  | Some price, Some usdPrice =>
      let currency := to_upper (metricString entry "price_quote_currency") in
      if bool_decide (currency = "") then false
      else
        let expected :=
          if negb (bool_decide (currency = "USD")) then
            match fxRevisions with
            | [] => None
            | _ => match convert_along currency price fxRevisions with
                   | Some (final, amount) => if bool_decide (final = "USD") then Some amount else None
                   | None => None
                   end
            end
          else match fxRevisions with [] => Some price | _ => None end in
        match expected with
        | Some expected =>
            match set_string (chars (formatDecimal expected)) with
            | Some rounded => Qeq_bool rounded usdPrice
            | None => false
            end
        | None => false
        end
  | _, _ => false
  end.

(** The conversion path of an entry: [None] when it is missing, nil or not a list
    of objects.  The code encodes the decoded value and decodes the text, which
    gives the value back. *)
Definition fx_path (entry : metric) : option (list metric) :=
  match entry !! "fx_path" with
  | None | Some JNull => None
  | Some j => decode_list decode_any_map j
  end.

Definition lenMetricFXPath (entry : metric) : Z :=
  match fx_path entry with Some l => Z.of_nat (length l) | None => -1 end.

(** [time.Parse("2006-01-02", value)] succeeds. *)
Definition day_ok (value : string) : bool := bool_decide (is_Some (parse_day value)).

Definition validConstantCashRevision (instrumentID : string) (entry : metric) : bool :=
  match canonicalUUID instrumentID with
  | None => false
  | Some id =>
      let constantID := "cash-constant:" +:+ id +:+ ":" in
      let day := trim_prefix (metricString entry "id") constantID in
      has_prefix (metricString entry "id") constantID && day_ok day
      && bool_decide (metricObservationDay entry = Some day)
      && bool_decide (metricString entry "price" = "1")
      && bool_decide (metricString entry "price_quote_currency" = "USD")
      && bool_decide (metricString entry "usd_price" = "1")
      && bool_decide (metricString entry "knowledge_time_basis" = "constant_cash")
      && metricNullableTimestamp entry "source_known_at" None
      && metricTimestamp entry "system_known_at" zero_time
      && (lenMetricFXPath entry =? 0)
  end.

Definition emptyJSONObject (j : json) : bool :=
  match decode_any_map j with Some m => bool_decide (m = ∅) | None => false end.

(** The envelope [addMetricDependencies] decodes: the provenance of the run, as
    a raw message, [None] inside when there is none. *)
Definition decode_provenance : json -> option (option json) :=
  decode_struct
    [("run", fun j p =>
        match j with
        | JNull => Some p
        | JObject fields => fold_left (set_member [("input_provenance", fun v _ => Some (Some v))]) fields (Some p)
        | _ => None
        end)] None.

(** The metric inputs embedded in the document of a run: [None] when they are
    malformed, [Some None] when the run has none. *)
Definition metric_inputs_of (riskSnapshot : string) : option (option (gmap string json)) :=
  provenance ← parse_json riskSnapshot ≫= decode_provenance;
  match provenance with
  | None | Some JNull => Some None
  | Some p =>
      m ← decode_raw_map p;
      match m !! "metric_inputs" with
      | None => Some None
      | Some JNull => None
      | Some j => inputs ← decode_raw_map j; Some (Some inputs)
      end
  end.

(** The historical prices, [None] when they are malformed. *)
Definition metric_prices (inputs : gmap string json) : option (gmap string metric) :=
  match inputs !! "price_history" with
  | None => Some ∅
  | Some JNull => None
  | Some j => if emptyJSONObject j then Some ∅ else decode_map decode_any_map j
  end.

(** The histories of a group, [None] when they are malformed. *)
Definition metric_histories (inputs : gmap string json) (key : string) : option (gmap string (list metric)) :=
  match inputs !! key with
  | None => Some ∅
  | Some JNull => None
  | Some j => if emptyJSONObject j then Some ∅ else decode_map (decode_list decode_any_map) j
  end.

(** What the histories say of the prices: the same instruments, and for each the
    same days and values. *)
Definition prices_match (prices : gmap string metric) (covered : gset string)
    (expected : gmap string (gmap string string)) : bool :=
  if bool_decide (covered = ∅) then bool_decide (prices = ∅)
  else (size prices =? size covered)%nat
       && forallb (fun kv => bool_decide (fst kv ∈ covered)) (map_to_list prices)
       && forallb (fun kv =>
            match prices !! fst kv with
            | Some actual =>
                (size actual =? size (snd kv))%nat
                && forallb (fun dv => match actual !! fst dv with
                                      | Some (JString v) => bool_decide (v = snd dv)
                                      | _ => false
                                      end) (map_to_list (snd kv))
            | None => false
            end) (map_to_list expected).

(** ** Queries *)

Section queries.
Context (uuid_text : string -> option string) (jsonb_out : json -> string) (collate : string -> string -> comparison).

Definition by_id {R} (x y : string * R) : bool := string_ltb (fst x) (fst y).

(** [jsonb_agg(to_jsonb(r) ORDER BY r.id)] of the rows of a table. *)
Definition agg_docs {R} (doc : R -> json) (p : R -> bool) (m : gmap string R) : json :=
  JArray ((fun kv => doc (snd kv)) <$> select (fun _ r => p r) by_id m).

(** The same for a table keyed by run and a second column. *)
Definition agg_run (cmp : string -> string -> comparison) (run : string) (m : gmap (string * string) json) : json :=
  JArray (snd <$> insertion_sort (before (fun x y => cmp (snd (fst x)) (snd (fst y))))
    (List.filter (fun kv => bool_decide (fst (fst kv) = run)) (map_to_list m))).

Definition select_snapshot (ref account : string) (s : tables) : res json :=
  match snapshots (sources s) !! ref with
  | Some p =>
      if bool_decide (accounts (sources s) !! account = Some (sn_portfolio p))
      then Ok (JObject [("snapshot", sn_doc p);
                        ("lines", agg_docs ln_doc (fun l => bool_decide (ln_snapshot l = ref)) (snapshot_lines (sources s)))])
      else Err ENoRows
  | None => Err ENoRows
  end.

Definition usable_state (state : string) : bool := bool_decide (state ∈ ["valid"; "degraded"]).

Definition select_valuation (ref account : string) (s : tables) : res json :=
  match valuation_runs (sources s) !! ref with
  | Some v =>
      if bool_decide (is_Some (accounts (sources s) !! account))
         && bool_decide (accounts (sources s) !! account = sn_portfolio <$> snapshots (sources s) !! vl_snapshot v)
         && usable_state (vl_state v)
      then Ok (JObject [("run", vl_doc v);
                        ("lines", agg_docs vn_doc (fun l => bool_decide (vn_run l = ref)) (valuation_lines (sources s)))])
      else Err ENoRows
  | None => Err ENoRows
  end.

Definition select_valuation_snapshot (ref : string) (s : tables) : res string :=
  match valuation_runs (sources s) !! ref with Some v => Ok (vl_snapshot v) | None => Err ENoRows end.

(** [document ->> name]. *)
Definition member_as_text (j : json) (name : string) : option string :=
  match j with
  | JObject fields =>
      match map_field fields name with
      | None | Some JNull => None
      | Some (JString s) => Some s
      | Some v => Some (jsonb_out v)
      end
  | _ => None
  end.

(** A completed job whose result names its engine. *)
Definition job_complete (j : JobRow) : bool :=
  bool_decide (jb_state j = "succeeded") && bool_decide (is_Some (jb_result_hash j))
  && match jb_result j with
     | Some result => match member_as_text result "engine_version" with
                      | Some v => negb (bool_decide (v = "")) | None => false end
     | None => false
     end.

Definition run_complete (r : ScenarioRunRow) : bool :=
  usable_state (sr_state r) && bool_decide (is_Some (sr_result r)) && bool_decide (is_Some (sr_result_hash r))
  && bool_decide (is_Some (sr_completed r)).

Definition select_risk (ref account : string) (s : tables) : res json :=
  match scenario_runs (sources s) !! ref with
  | Some r =>
      match scenario_versions (sources s) !! (sr_scenario r, sr_version r), jobs (sources s) !! sr_job r with
      | Some version, Some j =>
          if bool_decide (sr_account r = account) && run_complete r && job_complete j
          then Ok (JObject [("run", sr_doc r); ("scenario_version", version); ("job", jb_doc j);
                            ("positions", agg_run string_cmp ref (run_positions (sources s)));
                            ("metrics", agg_run collate ref (run_metrics (sources s)))])
          else Err ENoRows
      | _, _ => Err ENoRows
      end
  | None => Err ENoRows
  end.

Definition select_risk_inputs (ref : string) (s : tables) : res (string * string) :=
  match scenario_runs (sources s) !! ref with
  | Some r => Ok (sr_snapshot r, default "" (sr_valuation r))
  | None => Err ENoRows
  end.

Definition raw_ref (s : tables) (id : string) : option RawRef :=
  r ← raw_objects (sources s) !! id; Some (mkRawRef id (ro_key r) (ro_sha r)).

Definition select_raw (ref : string) (s : tables) : res RawRef :=
  match raw_ref s ref with Some r => Ok r | None => Err ENoRows end.

(** A revision with its raw object. *)
Definition joined {R} (table : source_tables -> gmap string R) (raw : R -> string) (ref : string) (s : tables)
    : res (R * RawRef) :=
  match table (sources s) !! ref with
  | Some r => match raw_ref s (raw r) with Some o => Ok (r, o) | None => Err ENoRows end
  | None => Err ENoRows
  end.

(** The document and raw object of a revision, by kind. *)
Definition select_revision (kind ref : string) (s : tables) : res (json * RawRef) :=
  if bool_decide (kind = "observation_revision") then
    let! r := joined observations ob_raw ref s in Ok (ob_doc (fst r), snd r)
  else if bool_decide (kind = "price_revision") then
    let! r := joined prices pr_raw ref s in Ok (pr_doc (fst r), snd r)
  else
    let! r := joined fx_quotes fx_raw ref s in Ok (fx_doc (fst r), snd r).

(** The raw objects behind the quotes of a valuation, one row each, in order. *)
Definition valuation_raws (run : string) (s : tables) : list string :=
  let lines := List.filter (fun l => bool_decide (vn_run l = run)) (snd <$> map_to_list (valuation_lines (sources s))) in
  remove_dups
    (flat_map (fun l => option_list (pr_raw <$> (vn_price l ≫= fun id => prices (sources s) !! id))) lines
     ++ flat_map (fun l => flat_map (fun id => option_list (fx_raw <$> fx_quotes (sources s) !! id))
                             (vn_try_fx l ++ vn_usd_fx l)) lines).

Definition select_valuation_raws (run : string) (s : tables) : list RawRef :=
  insertion_sort (before (fun x y => collate (RawID x) (RawID y))) (omap (raw_ref s) (valuation_raws run s)).

(** [instruments WHERE id = $1::uuid], its currency without the padding. *)
Definition btrim (s : string) : string := of_chars (trim_both_char " " (chars s)).

Definition select_instrument (id : string) (s : tables) : res (string * string) :=
  match uuid_text id with
  | Some id => match instruments (sources s) !! id with
               | Some (kind, native) => Ok (kind, btrim native)
               | None => Err ENoRows
               end
  | None => Err EDb
  end.

Definition select_fx (id : string) (s : tables) : res (string * FXRow * RawRef) :=
  match uuid_text id with
  | Some id => let! r := joined fx_quotes fx_raw id s in Ok (id, fst r, snd r)
  | None => Err EDb
  end.

Definition insert_evidence (now : time) (decision bytes sha : string) (s : tables) : res unit * tables :=
  match uuid_text decision with
  | Some id =>
      if bool_decide (is_Some (decisions s !! id)) && bool_decide (evidence s !! id = None)
         && (slen sha =? 64) && forallb is_lower_hex (chars sha) && negb (bool_decide (bytes = ""))
      then (Ok tt, set_evidence s (<[id := mkEvidenceRow bytes sha now]> (evidence s)))
      else (Err EDb, s)
  | None => (Err EDb, s)
  end.

Definition select_evidence (id : string) (s : tables) : res EvidenceRow :=
  match evidence s !! id with Some r => Ok r | None => Err ENoRows end.
End queries.

(** ** The service *)

Section service.
Context {W : Type} (Pool : bool) (get : option (string -> W -> res (res string) * W)).
Context (uuid_text : string -> option string) (jsonb_out : json -> string) (collate : string -> string -> comparison).

Abbreviation store := (tables * W)%type.

(** The object at the key has the digest recorded for it. *)
Definition verifyRaw (raw : RawRef) : dbm store unit :=
  match get with
  | None => throw ErrIntegrity
  | Some g =>
      let* read := attempt (on_archive (g (RawKey raw))) in
      match read with
      | Ok (Ok body) => if bool_decide (sha256_hex body = RawSHA256 raw) then ret tt else throw ErrIntegrity
      | _ => throw ErrIntegrity
      end
  end.

(** The raw objects collected so far and the identifiers among them. *)
Abbreviation raws := (list RawRef * gset string)%type.

Definition keep_raw (raw : RawRef) (acc : raws) : raws := (fst acc ++ [raw], {[RawID raw]} ∪ snd acc).

Definition addRawDependency (acc : raws) (raw : RawRef) : dbm store raws :=
  if bool_decide (RawID raw ∈ snd acc) then ret acc
  else map_err (fun _ => ErrIntegrity) (verifyRaw raw) ;;; ret (keep_raw raw acc).

(** *** Metric dependencies *)

(** An empty result is missing evidence, another failure keeps its context. *)
Definition resolve_metric (ctx : string) (e : goerr) : goerr :=
  if errors_is e ENoRows then ErrIncomplete else EWrap ctx e.

Definition metricInstrument : Type := (string * string)%type.   (* kind and native currency *)

(** The cache of the instruments read is a map. *)
Definition loadMetricInstrument (instrumentID : string) (cache : gmap string metricInstrument)
    : dbm store (metricInstrument * gmap string metricInstrument) :=
  match cache !! instrumentID with
  | Some instrument => ret (instrument, cache)
  | None =>
      let* row := wrap "resolve metric instrument" (stmt (reads (select_instrument uuid_text instrumentID))) in
      let instrument := (to_lower (trim_space (fst row)), to_upper (trim_space (snd row))) in
      ret (instrument, <[instrumentID := instrument]> cache)
  end.

(** What the revision of a price and an entry must agree on. *)
Definition same_price (entry : metric) (p : PriceRow) : bool :=
  metricTimestamp entry "observation_time" (pr_observation p)
  && bool_decide (metricString entry "price" = numeric_out (pr_price p))
  && bool_decide (metricString entry "price_quote_currency" = trim_space (pr_quote p))
  && metricNullableTimestamp entry "source_known_at" (pr_source_known p)
  && metricTimestamp entry "system_known_at" (pr_system_known p)
  && bool_decide (metricString entry "knowledge_time_basis" = pr_basis p).

Definition verifyMetricPriceRevision (instrumentID : string) (entry : metric) : dbm store RawRef :=
  match metricUUID entry "id" with
  | None => throw ErrIncomplete
  | Some revisionID =>
      let* row := map_err (resolve_metric "resolve metric price revision")
                    (stmt (reads (joined prices pr_raw revisionID))) in
      let p := fst row in
      if negb (bool_decide (canonicalUUID instrumentID = Some (pr_instrument p)))
      then throw (EWrap "metric price ownership mismatch" ErrIncomplete)
      else if same_price entry p
      then ret (snd row)
      else throw (EWrap "metric price identity mismatch" ErrIncomplete)
  end.

(** What the revision of a rate and an entry must agree on. *)
Definition same_fx_times (entry : metric) (f : FXRow) : bool :=
  metricTimestamp entry "observation_time" (fx_observation f)
  && metricNullableTimestamp entry "source_known_at" (fx_source_known f)
  && metricTimestamp entry "system_known_at" (fx_system_known f)
  && bool_decide (metricString entry "knowledge_time_basis" = fx_basis f).

(** The currency a rate against the dollar converts. *)
Definition native_of (base quote : string) : option string :=
  if bool_decide (base = "USD") then Some quote
  else if negb (bool_decide (quote = "USD")) then None else Some base.

Definition verifyMetricCashPriceRevision (instrumentID : string) (entry : metric) (revisionID : string) : dbm store RawRef :=
  let* row := map_err (resolve_metric "resolve metric cash FX revision")
                (stmt (reads (select_fx uuid_text revisionID))) in
  let '(rowID, f, raw) := row in
  let base := trim_space (fx_base f) in
  let quote := trim_space (fx_quote f) in
  if negb (validUUID instrumentID) || negb (bool_decide (rowID = revisionID))
     || negb (bool_decide (metricString entry "price" = "1"))
  then throw ErrIncomplete
  else
    match native_of base quote with
    | None => throw ErrIncomplete
    | Some native =>
        if bool_decide (metricString entry "price_quote_currency" = native) && same_fx_times entry f
        then ret raw else throw ErrIncomplete
    end.

Definition direction_of (base quote : string) : option string :=
  if bool_decide (quote = "USD") && negb (bool_decide (base = "USD")) then Some "direct"
  else if bool_decide (base = "USD") && negb (bool_decide (quote = "USD")) then Some "inverse"
  else None.

Definition verifyMetricFXRevision (entry : metric) : dbm store RawRef :=
  match metricUUID entry "id" with
  | None => throw ErrIncomplete
  | Some revisionID =>
      let* row := map_err (resolve_metric "resolve metric FX revision")
                    (stmt (reads (select_fx uuid_text revisionID))) in
      let '(rowID, f, raw) := row in
      let base := trim_space (fx_base f) in
      let quote := trim_space (fx_quote f) in
      match direction_of base quote with
      | None => throw ErrIncomplete
      | Some direction =>
          if bool_decide (rowID = revisionID) && bool_decide (metricString entry "pair" = base +:+ "/" +:+ quote)
             && bool_decide (metricString entry "direction" = direction)
             && bool_decide (metricString entry "rate" = numeric_out (fx_rate f)) && same_fx_times entry f
          then ret raw else throw ErrIncomplete
      end
  end.

Definition metric_fx (acc : raws) (revision : metric) : dbm store raws :=
  let* raw := wrap "verify metric FX dependency" (verifyMetricFXRevision revision) in
  wrap "archive metric FX dependency" (addRawDependency acc raw).

(** The revision behind an entry of a history. *)
Definition metric_source (cashGroup : bool) (instrumentID : string) (instrument : metricInstrument) (revision : metric)
    : dbm store RawRef :=
  if cashGroup then
    if negb (bool_decide (to_upper (metricString revision "price_quote_currency") = snd instrument)) then throw ErrIncomplete
    else wrap "verify metric cash dependency"
           (verifyMetricCashPriceRevision instrumentID revision (metricString revision "id"))
  else wrap "verify metric price dependency" (verifyMetricPriceRevision instrumentID revision).

(** One entry: its sources join the raw objects, its value the history of the
    days. *)
Definition metric_revision (cashGroup : bool) (instrumentID : string) (instrument : metricInstrument)
    (st : raws * gmap string string) (revision : metric) : dbm store (raws * gmap string string) :=
  let '(acc, history) := st in
  let record acc :=
    match metricObservationDay revision with
    | Some day => ret (acc, <[day := metricString revision "usd_price"]> history)
    | None => throw ErrIncomplete
    end in
  if cashGroup && has_prefix (metricString revision "id") "cash-constant:" then
    if negb (bool_decide (snd instrument = "USD")) || negb (validConstantCashRevision instrumentID revision)
    then throw ErrIncomplete else record acc
  else
    let* raw := metric_source cashGroup instrumentID instrument revision in
    let* acc := wrap "archive metric price dependency" (addRawDependency acc raw) in
    match fx_path revision with
    | None => throw ErrIncomplete
    | Some fxRevisions =>
        if negb (validateMetricUSDConversion revision fxRevisions) then throw ErrIncomplete
        else let* acc := fold_m metric_fx acc fxRevisions in record acc
    end.

Record metric_state : Type := mkMetricState {
  ms_raws : raws;
  ms_cache : gmap string metricInstrument;
  ms_covered : gset string;
  ms_expected : gmap string (gmap string string);
}.

(** The instrument of a cash history, which must be cash in a known currency. *)
Definition cash_instrument (st : metric_state) (instrumentID : string)
    : dbm store (metricInstrument * gmap string metricInstrument) :=
  let* r := map_err (fun _ => ErrIncomplete) (loadMetricInstrument instrumentID (ms_cache st)) in
  let '(instrument, cache) := r in
  if (negb (bool_decide (fst instrument = "cash")) && negb (bool_decide (fst instrument = "currency")))
     || bool_decide (snd instrument = "")
  then throw ErrIncomplete else ret (instrument, cache).

Definition metric_history (cashGroup : bool) (st : metric_state) (history : string * list metric) : dbm store metric_state :=
  let '(instrumentID, revisions) := history in
  if negb (validUUID instrumentID) then throw ErrIncomplete
  else
    let* r := (if cashGroup then cash_instrument st instrumentID else ret (("", ""), ms_cache st)) in
    let '(instrument, cache) := r in
    if bool_decide (revisions = []) || bool_decide (is_Some (ms_expected st !! instrumentID)) then throw ErrIncomplete
    else
      let* h := fold_m (metric_revision cashGroup instrumentID instrument) (ms_raws st, ∅) revisions in
      ret (mkMetricState (fst h) cache ({[instrumentID]} ∪ ms_covered st)
             (<[instrumentID := snd h]> (ms_expected st))).

(** The histories of a group, by instrument. *)
Definition metric_group (inputs : gmap string json) (st : metric_state) (group : string * bool) : dbm store metric_state :=
  match metric_histories inputs (fst group) with
  | None => throw ErrIncomplete
  | Some histories => fold_m (metric_history (snd group)) st (insertion_sort by_id (map_to_list histories))
  end.

Definition groups : list (string * bool) := [("price_revision_history", false); ("cash_revision_history", true)].

(** The dependencies of the metric inputs of a run. *)
Definition metric_inputs (inputs : gmap string json) (acc : raws) : dbm store raws :=
  match metric_prices inputs with
  | None => throw ErrIncomplete
  | Some histories =>
      let* st := fold_m (metric_group inputs) (mkMetricState acc ∅ ∅ ∅) groups in
      if prices_match histories (ms_covered st) (ms_expected st) then ret (ms_raws st) else throw ErrIncomplete
  end.

Definition addMetricDependencies (riskSnapshot : string) (acc : raws) : dbm store raws :=
  match metric_inputs_of riskSnapshot with
  | None => throw ErrIncomplete
  | Some None => ret acc
  | Some (Some inputs) => metric_inputs inputs acc
  end.

(** *** Sealing *)

(** The variables of the loop over the references. *)
Record sealing : Type := mkSealing {
  sl_entries : list Entry;
  sl_raws : raws;
  sl_seen : gset string;
  sl_snapshot : string;
  sl_valuation : string;
  sl_valuation_snapshot : string;
  sl_risk_snapshot : string;
  sl_risk_valuation : string;
}.

Definition resolve_failed (kind : string) (e : goerr) : goerr :=
  if errors_is e ENoRows then ErrIncomplete else EWrap ("resolve " +:+ kind +:+ " evidence") e.

Definition see_snapshot (id : string) (st : sealing) : sealing :=
  mkSealing (sl_entries st) (sl_raws st) (sl_seen st) id (sl_valuation st) (sl_valuation_snapshot st)
    (sl_risk_snapshot st) (sl_risk_valuation st).
Definition see_valuation (id snapshot : string) (st : sealing) : sealing :=
  mkSealing (sl_entries st) (sl_raws st) (sl_seen st) (sl_snapshot st) id snapshot
    (sl_risk_snapshot st) (sl_risk_valuation st).
Definition see_risk (snapshot valuation : string) (st : sealing) : sealing :=
  mkSealing (sl_entries st) (sl_raws st) (sl_seen st) (sl_snapshot st) (sl_valuation st) (sl_valuation_snapshot st)
    snapshot valuation.
Definition see_raws (r : raws) (st : sealing) : sealing :=
  mkSealing (sl_entries st) r (sl_seen st) (sl_snapshot st) (sl_valuation st) (sl_valuation_snapshot st)
    (sl_risk_snapshot st) (sl_risk_valuation st).

(** The body of the switch: the document of a reference, and what it says of the
    others. *)
Definition resolve_snapshot (account id : string) (st : sealing) : dbm store (string * sealing) :=
  if negb (bool_decide (sl_snapshot st = "")) then throw ErrIncomplete
  else let* doc := map_err (resolve_failed "portfolio_snapshot") (stmt (reads (select_snapshot id account))) in
       ret (jsonb_out doc, see_snapshot id st).

Definition resolve_valuation (account id : string) (st : sealing) : dbm store (string * sealing) :=
  if negb (bool_decide (sl_valuation st = "")) then throw ErrIncomplete
  else map_err (resolve_failed "valuation_run")
         (let* doc := stmt (reads (select_valuation id account)) in
          let* snapshot := stmt (reads (select_valuation_snapshot id)) in
          ret (jsonb_out doc, see_valuation id snapshot st)).

Definition resolve_risk (account id : string) (st : sealing) : dbm store (string * sealing) :=
  if negb (bool_decide (sl_risk_snapshot st = "")) then throw ErrIncomplete
  else
    let* r := map_err (resolve_failed "risk_run")
                (let* doc := stmt (reads (select_risk jsonb_out collate id account)) in
                 let* inputs := stmt (reads (select_risk_inputs id)) in
                 ret (jsonb_out doc, see_risk (fst inputs) (snd inputs) st)) in
    let* acc := addMetricDependencies (fst r) (sl_raws (snd r)) in
    ret (fst r, see_raws acc (snd r)).

(** A raw object is verified each time it is named. *)
Definition resolve_raw (id : string) (st : sealing) : dbm store (string * sealing) :=
  map_err (resolve_failed "raw_object")
    (let* raw := stmt (reads (select_raw id)) in
     verifyRaw raw ;;;
     ret (marshal_ref raw,
          if bool_decide (RawID raw ∈ snd (sl_raws st)) then st else see_raws (keep_raw raw (sl_raws st)) st)).

Definition resolve_revision (kind id : string) (st : sealing) : dbm store (string * sealing) :=
  map_err (resolve_failed kind)
    (let* r := stmt (reads (select_revision kind id)) in
     if bool_decide (RawID (snd r) ∈ snd (sl_raws st)) then ret (jsonb_out (fst r), st)
     else verifyRaw (snd r) ;;; ret (jsonb_out (fst r), see_raws (keep_raw (snd r) (sl_raws st)) st)).

Definition resolve (account kind id : string) (st : sealing) : dbm store (string * sealing) :=
  if bool_decide (kind = "portfolio_snapshot") then resolve_snapshot account id st
  else if bool_decide (kind = "valuation_run") then resolve_valuation account id st
  else if bool_decide (kind = "risk_run") then resolve_risk account id st
  else if bool_decide (kind = "raw_object") then resolve_raw id st
  else if bool_decide (kind ∈ ["observation_revision"; "price_revision"; "fx_quote_revision"])
  then resolve_revision kind id st
  else throw ErrIncomplete.

Definition seal_ref (account : string) (st : sealing) (ref : EvidenceRef) : dbm store sealing :=
  match canonicalUUID (RefID ref) with
  | None => throw ErrIncomplete
  | Some id =>
      let key := Kind ref +:+ ":" +:+ id in
      if bool_decide (key ∈ sl_seen st) then throw ErrIncomplete
      else
        let* r := resolve account (Kind ref) id st in
        let st := snd r in
        ret (mkSealing (sl_entries st ++ [mkEntry (Kind ref) id (Description ref) (fst r)]) (sl_raws st)
               ({[key]} ∪ sl_seen st) (sl_snapshot st) (sl_valuation st) (sl_valuation_snapshot st)
               (sl_risk_snapshot st) (sl_risk_valuation st))
  end.

(** One snapshot, one valuation of it, one stress run of both. *)
Definition bound_together (st : sealing) : bool :=
  negb (bool_decide (sl_snapshot st = "")) && bool_decide (sl_valuation_snapshot st = sl_snapshot st)
  && bool_decide (sl_risk_snapshot st = sl_snapshot st) && negb (bool_decide (sl_risk_valuation st = ""))
  && negb (bool_decide (sl_valuation st = "")) && bool_decide (sl_risk_valuation st = sl_valuation st).

Definition Seal (now : time) (decisionID accountID : string) (refs : list EvidenceRef) : dbm store unit :=
  match canonicalUUID decisionID, canonicalUUID accountID with
  | Some decision, Some account =>
      let* st := fold_m (seal_ref account) (mkSealing [] ([], ∅) ∅ "" "" "" "" "") refs in
      if negb (bound_together st) then throw ErrIncomplete
      else
        let* rows := wrap "list valuation raw evidence"
                       (stmt (reads (fun s => Ok (select_valuation_raws collate (sl_valuation st) s)))) in
        let* acc := fold_m addRawDependency (sl_raws st) rows in
        match marshal_manifest (mkManifest "1" ContractVersion decision account (sl_entries st) (fst acc)) with
        | None => throw (EWrap "encode decision manifest" (ENew "json: error calling MarshalJSON"))
        | Some data =>
            wrap "seal decision evidence"
              (stmt (on_tables (insert_evidence uuid_text now decisionID data (sha256_hex data))))
        end
  | _, _ => throw ErrIncomplete
  end.

(** *** Reading back *)

Definition Reconstruct (decisionID : string) : dbm store Sealed :=
  match canonicalUUID decisionID with
  | Some id =>
      if negb Pool then throw ErrIncomplete
      else
        let* row := pool_stmt (reads (select_evidence id)) in
        if negb (bool_decide (sha256_hex (ev_bytes row) = ev_sha row)) then throw ErrIntegrity
        else
          match parse_json (ev_bytes row) ≫= decode_manifest with
          | Some (manifestID, objects) =>
              if negb (bool_decide (manifestID = id)) then throw ErrIntegrity
              else
                iter (fun raw => map_err (fun _ => EWrap ("archived evidence " +:+ RawID raw) ErrIntegrity)
                                   (verifyRaw raw)) objects ;;;
                ret (mkSealed (ev_bytes row) (ev_sha row))
          | None => throw ErrIntegrity
          end
  | None => throw ErrIncomplete
  end.
End service.

End Evidence.
