(* ===== verification/EvidenceProofs.v ===== *)
(** What a run's metric inputs depend on: the raw objects behind its price, cash
    and rate histories, collected and verified once each. *)

From S2P Require Import Prelude GoString Digits GoTime Sha256 Decimal Order Tables Db World Archive.
From S2P Require Import Json JsonTree JsonText JsonQuote JsonCompact JsonDecode TimeText JournalModel Evidence.
From Stdlib Require Import Ascii QArith.
#[local] Open Scope Z_scope.
Import Archive(ArchiveReader, read_held, read_keeps, Build_ArchiveReader).
Import Journal Evidence.

(** ** What a manifest promises *)

(** The archive holds a body with the recorded digest. *)
Definition stored {W} (holds : W -> string -> string -> Prop) (w : W) (raw : RawRef) : Prop :=
  exists body, holds w (RawKey raw) body /\ sha256_hex body = RawSHA256 raw.

(** The price revision behind an entry of a history of an instrument. *)
Definition price_backed (t : tables) (instrumentID : string) (entry : metric) (raw : RawRef) : Prop :=
  exists id p, metricUUID entry "id" = Some id /\ prices (sources t) !! id = Some p /\
    canonicalUUID instrumentID = Some (pr_instrument p) /\ same_price entry p = true /\
    raw_ref t (pr_raw p) = Some raw.

(** The rate revision an entry names, by its canonical identifier. *)
Definition names_fx (uuid_text : string -> option string) (t : tables) (id : string) (f : FXRow) (raw : RawRef) : Prop :=
  uuid_text id = Some id /\ fx_quotes (sources t) !! id = Some f /\ raw_ref t (fx_raw f) = Some raw.

Definition cash_backed (uuid_text : string -> option string) (t : tables) (native : string) (entry : metric) (raw : RawRef) : Prop :=
  exists f, names_fx uuid_text t (metricString entry "id") f raw /\ metricString entry "price" = "1" /\
    native_of (trim_space (fx_base f)) (trim_space (fx_quote f)) = Some (metricString entry "price_quote_currency") /\
    to_upper (metricString entry "price_quote_currency") = native /\ same_fx_times entry f = true.

Definition fx_backed (uuid_text : string -> option string) (t : tables) (entry : metric) (raw : RawRef) : Prop :=
  exists id f, metricUUID entry "id" = Some id /\ names_fx uuid_text t id f raw /\
    direction_of (trim_space (fx_base f)) (trim_space (fx_quote f)) = Some (metricString entry "direction") /\
    metricString entry "pair" = trim_space (fx_base f) +:+ "/" +:+ trim_space (fx_quote f) /\
    metricString entry "rate" = numeric_out (fx_rate f) /\ same_fx_times entry f = true.

(** An entry of a history is backed: a constant unit of cash, or a stored
    revision converted to dollars along stored rates, all of whose raw objects
    are among [raws]. *)
Definition entry_backed (uuid_text : string -> option string) (t : tables) (raws : list RawRef) (cash : bool)
    (instrumentID native : string) (entry : metric) : Prop :=
  (cash = true /\ native = "USD" /\ validConstantCashRevision instrumentID entry = true) \/
  exists raw fx, (if cash then cash_backed uuid_text t native entry raw else price_backed t instrumentID entry raw) /\ raw ∈ raws /\
    fx_path entry = Some fx /\ validateMetricUSDConversion entry fx = true /\
    Forall (fun step => exists r, fx_backed uuid_text t step r /\ r ∈ raws) fx.

(** The days of a history with their values, the last one of a day counting. *)
Definition day_values (revisions : list metric) : gmap string string :=
  fold_left (fun h r => match metricObservationDay r with
                        | Some day => <[day := metricString r "usd_price"]> h
                        | None => h
                        end) revisions ∅.

Definition same_values (expected : gmap string string) (actual : metric) : Prop :=
  dom expected = dom actual /\ forall day v, expected !! day = Some v -> actual !! day = Some (JString v).

(** The metric inputs of a run are closed: every entry is backed, and the prices
    are those of the histories. *)
Definition history_backed (uuid_text : string -> option string) (t : tables) (raws : list RawRef) (cash : bool)
    (instrumentID : string) (revisions : list metric) : Prop :=
  validUUID instrumentID = true /\ revisions <> [] /\ exists native,
    (cash = true -> exists kind code, select_instrument uuid_text instrumentID t = Ok (kind, code) /\
       to_lower (trim_space kind) ∈ ["cash"; "currency"] /\ native = to_upper (trim_space code) /\ native <> "") /\
    Forall (fun r => is_Some (metricObservationDay r) /\ entry_backed uuid_text t raws cash instrumentID native r) revisions.

Definition metrics_closed (uuid_text : string -> option string) (t : tables) (raws : list RawRef) (inputs : gmap string json) : Prop :=
  exists values, metric_prices inputs = Some values /\ exists histories : bool -> gmap string (list metric),
    (forall key cash, (key, cash) ∈ groups -> metric_histories inputs key = Some (histories cash)) /\
    (forall cash id revisions, histories cash !! id = Some revisions -> history_backed uuid_text t raws cash id revisions) /\
    (forall id, is_Some (values !! id) <-> exists cash, is_Some (histories cash !! id)) /\
    (forall cash id revisions actual, histories cash !! id = Some revisions -> values !! id = Some actual ->
       same_values (day_values revisions) actual).

(** ** Collecting raw objects *)

Section evidence.
Context {W : Type} (get : option (string -> W -> res (res string) * W)).
Context (uuid_text : string -> option string) (jsonb_out : json -> string) (collate : string -> string -> comparison).
Context (holds : W -> string -> string -> Prop) (Hget : forall g, get = Some g -> ArchiveReader g holds).

Abbreviation raws := (list RawRef * gset string)%type.

(** Raw objects of the tables, once each, all stored. *)
Definition collected (t : tables) (w : W) (acc : raws) : Prop :=
  NoDup (RawID <$> fst acc) /\ (forall id, id ∈ snd acc <-> id ∈ RawID <$> fst acc) /\
  Forall (fun r => raw_ref t (RawID r) = Some r /\ stored holds w r) (fst acc).

Definition gathers (acc : raws) (new : list RawRef) (acc' : raws) : Prop :=
  fst acc ⊆ fst acc' /\ Forall (fun r => r ∈ fst acc') new.

#[local] Instance gathers_refl_trans : PreOrder (fun a b : raws => fst a ⊆ fst b).
Proof. split; [by intros a x|]. intros a b c H1 H2 x Hx. auto. Qed.

Lemma stored_keeps w w' r : keeps holds w w' -> stored holds w r -> stored holds w' r.
Proof. intros Hk (body & Hh & Hs). exists body. auto. Qed.

Lemma raw_ref_id t id r : raw_ref t id = Some r -> RawID r = id.
Proof. unfold raw_ref. destruct (raw_objects _ !! id); [|done]. by intros [= <-]. Qed.

Lemma collected_unique t w acc r1 r2 : collected t w acc -> r1 ∈ fst acc -> raw_ref t (RawID r1) = Some r2 -> r1 = r2.
Proof. intros (_ & _ & Hf) H1 H2. rewrite Forall_forall in Hf. destruct (Hf _ H1) as [H _]. congruence. Qed.

Lemma collected_in t w acc r : collected t w acc -> raw_ref t (RawID r) = Some r -> RawID r ∈ snd acc -> r ∈ fst acc.
Proof.
  intros Hc Hr Hin. destruct Hc as (Hn & Hs & Hf). apply Hs in Hin as (r' & He & Hin)%list_elem_of_fmap.
  rewrite Forall_forall in Hf. destruct (Hf _ Hin) as [H _]. rewrite <- He in H. congruence.
Qed.

Lemma collected_keep t w acc r : collected t w acc -> raw_ref t (RawID r) = Some r -> stored holds w r -> RawID r ∉ snd acc ->
  collected t w (keep_raw r acc).
Proof.
  intros (Hn & Hs & Hf) Hr Hst Hnew. unfold keep_raw. split_and!; cbn [fst snd].
  - rewrite fmap_app. apply NoDup_app. split_and!; [done| |by apply NoDup_singleton].
    intros id Hid ->%list_elem_of_singleton. apply Hnew. by apply Hs.
  - intros id. rewrite fmap_app, elem_of_app, elem_of_union, elem_of_singleton, Hs. change (RawID <$> [r]) with [RawID r]. rewrite list_elem_of_singleton. tauto.
  - apply Forall_app. by repeat constructor.
Qed.

(** The rule of a call that works on raw objects: what was collected stays so
    whatever the archive does meanwhile. *)
Lemma collected_keeps t w w' acc : keeps holds w w' -> collected t w acc -> collected t w' acc.
Proof.
  intros Hk (Hn & Hs & Hf). split_and!; [done|done|]. eapply Forall_impl; [exact Hf|].
  intros r [Hr Hst]. split; [done|]. by eapply stored_keeps.
Qed.

Abbreviation tr := (triple holds).

(** A verification that succeeds shows the object stored, and what the archive
    held before still holds. *)
Lemma triple_verify_keep c t w (I : W -> Prop) raw : (forall w w', keeps holds w w' -> I w -> I w') -> I w ->
  tr c t w (verifyRaw get raw) (fun _ t' w' => t' = t /\ I w' /\ stored holds w' raw).
Proof.
  intros Hmono Hc. unfold verifyRaw. destruct get as [g|] eqn:Eg; [|apply triple_throw]. pose proof (Hget g eq_refl) as Hr.
  eapply triple_bind.
  - apply (triple_attempt_archive holds c t w (g (RawKey raw)) (fun r t' w' => t' = t /\ I w' /\
      forall body, r = Ok (Ok body) -> holds w' (RawKey raw) body)).
    intros r w' E. pose proof (read_keeps _ _ _ _ E) as Hk. split; [done|]. split; [done|].
    split; [by eapply Hmono|]. intros body ->. by eapply read_held.
  - intros r t' w' (-> & Hc' & Hb). destruct r as [[body|e]|e]; [|apply triple_throw..].
    case_bool_decide as Hs; [|apply triple_throw]. apply triple_ret. split; [done|]. split; [done|]. exists body. auto.
Qed.

Lemma triple_verify c t w acc raw : collected t w acc ->
  tr c t w (verifyRaw get raw) (fun _ t' w' => t' = t /\ collected t w' acc /\ stored holds w' raw).
Proof. apply (triple_verify_keep c t w (fun w => collected t w acc)). intros w1 w2 Hk. by apply collected_keeps. Qed.

Lemma triple_add c t w acc raw : collected t w acc -> raw_ref t (RawID raw) = Some raw ->
  tr c t w (addRawDependency get acc raw) (fun acc' t' w' => t' = t /\ collected t w' acc' /\ gathers acc [raw] acc').
Proof.
  intros Hc Hr. unfold addRawDependency. case_bool_decide as Hin.
  - apply triple_ret. split; [done|]. split; [done|]. split; [done|]. constructor; [|constructor]. by eapply collected_in.
  - eapply triple_bind; [apply triple_map_err, triple_verify, Hc|]. intros [] t' w' (-> & Hc' & Hst). apply triple_ret.
    split; [done|]. split; [by apply collected_keep|]. split; cbn; [set_solver|]. constructor; [set_solver|constructor].
Qed.

(** ** Metric dependencies *)

Lemma joined_ok {R} (table : source_tables -> gmap string R) raw ref t r o :
  joined table raw ref t = Ok (r, o) -> table (sources t) !! ref = Some r /\ raw_ref t (raw r) = Some o.
Proof. unfold joined. destruct (table _ !! ref) as [x|]; [|done]. destruct (raw_ref t (raw x)) eqn:E; [|done]. by intros [= <- <-]. Qed.

Lemma select_fx_ok id t rowID f raw : select_fx uuid_text id t = Ok (rowID, f, raw) -> rowID = id -> names_fx uuid_text t id f raw.
Proof.
  unfold select_fx. destruct (uuid_text id) as [id'|] eqn:E; [|done].
  destruct (joined fx_quotes fx_raw id' t) as [[f' raw']|] eqn:Ej; [|done]. cbn. intros [= <- <- <-] ->.
  apply joined_ok in Ej as [? ?]. done.
Qed.

Lemma triple_price c t w id entry :
  tr c t w (verifyMetricPriceRevision id entry) (fun raw t' w' => t' = t /\ w' = w /\ price_backed t id entry raw).
Proof.
  unfold verifyMetricPriceRevision. destruct (metricUUID entry "id") as [rid|] eqn:Eid; [|apply triple_throw].
  eapply triple_bind; [apply triple_map_err, (triple_query holds c t w _ (fun row t' w' => t' = t /\ w' = w /\ joined prices pr_raw rid t = Ok row)); auto|].
  intros [p raw] t' w' (-> & -> & Hj). cbn [fst snd]. apply joined_ok in Hj as [Hp Hraw].
  destruct (negb _) eqn:Eo; [apply triple_throw|]. destruct (same_price entry p) eqn:Es; [|apply triple_throw].
  apply triple_ret. split; [done|]. split; [done|]. exists rid, p. bool_simp. done.
Qed.

Lemma triple_cash c t w id entry native :
  to_upper (metricString entry "price_quote_currency") = native ->
  tr c t w (verifyMetricCashPriceRevision uuid_text id entry (metricString entry "id"))
    (fun raw t' w' => t' = t /\ w' = w /\ cash_backed uuid_text t native entry raw).
Proof.
  intros Hnat. unfold verifyMetricCashPriceRevision.
  eapply triple_bind; [apply triple_map_err, (triple_query holds c t w _ (fun row t' w' => t' = t /\ w' = w /\
    select_fx uuid_text (metricString entry "id") t = Ok row)); auto|].
  intros [[rowID f] raw] t' w' (-> & -> & Hj). destruct (_ || _ || _) eqn:Eo; [apply triple_throw|]. bool_simp.
  destruct (native_of _ _) as [n|] eqn:En; [|apply triple_throw]. destruct (_ && _) eqn:Es; [|apply triple_throw]. bool_simp.
  apply triple_ret. split; [done|]. split; [done|]. exists f. split; [by eapply select_fx_ok|]. by subst.
Qed.

Lemma triple_fx c t w entry :
  tr c t w (verifyMetricFXRevision uuid_text entry) (fun raw t' w' => t' = t /\ w' = w /\ fx_backed uuid_text t entry raw).
Proof.
  unfold verifyMetricFXRevision. destruct (metricUUID entry "id") as [rid|] eqn:Eid; [|apply triple_throw].
  eapply triple_bind; [apply triple_map_err, (triple_query holds c t w _ (fun row t' w' => t' = t /\ w' = w /\
    select_fx uuid_text rid t = Ok row)); auto|].
  intros [[rowID f] raw] t' w' (-> & -> & Hj). destruct (direction_of _ _) as [d|] eqn:Ed; [|apply triple_throw].
  destruct (_ && _ && _ && _ && _) eqn:Es; [|apply triple_throw]. bool_simp.
  apply triple_ret. split; [done|]. split; [done|]. exists rid, f. subst. split_and!; try done. by eapply select_fx_ok.
Qed.

Lemma price_backed_ref t id entry raw : price_backed t id entry raw -> raw_ref t (RawID raw) = Some raw.
Proof. intros (? & p & _ & _ & _ & _ & H). by rewrite (raw_ref_id _ _ _ H). Qed.

Lemma names_fx_ref t id f raw : names_fx uuid_text t id f raw -> raw_ref t (RawID raw) = Some raw.
Proof. intros (_ & _ & H). by rewrite (raw_ref_id _ _ _ H). Qed.

(** The steps of a conversion path. *)
Lemma triple_metric_fx c t w acc fx : collected t w acc ->
  tr c t w (fold_m (metric_fx get uuid_text) acc fx) (fun acc' t' w' => t' = t /\ collected t w' acc' /\ fst acc ⊆ fst acc' /\
    Forall (fun step => exists r, fx_backed uuid_text t step r /\ r ∈ fst acc') fx).
Proof.
  intros Hc. apply (triple_fold holds c t _ (fun pre acc' w' => collected t w' acc' /\ fst acc ⊆ fst acc' /\
    Forall (fun step => exists r, fx_backed uuid_text t step r /\ r ∈ fst acc') pre)); [|done].
  clear w Hc. intros pre step post acc' w _ (Hc & Hs & Hf). unfold metric_fx.
  eapply triple_bind; [apply triple_wrap, triple_fx|]. intros raw t' w' (-> & -> & Hb).
  assert (Hraw : raw_ref t (RawID raw) = Some raw) by (destruct Hb as (? & f & _ & Hn & _); by eapply names_fx_ref).
  eapply triple_mono; [apply triple_wrap, (triple_add c t w acc' raw Hc Hraw)|].
  intros acc2 t' w2 (-> & Hc2 & Hsub & Hin). split; [done|]. split; [done|]. split; [by etransitivity|].
  apply Forall_app. split; [|constructor; [|constructor]].
  - eapply Forall_impl; [exact Hf|]. intros s (r & Hr & Hi). exists r. auto.
  - exists raw. split; [done|]. by inversion Hin.
Qed.

Lemma entry_backed_mono t l l' cash id native entry : l ⊆ l' ->
  entry_backed uuid_text t l cash id native entry -> entry_backed uuid_text t l' cash id native entry.
Proof.
  intros Hs [H|(raw & fx & Hb & Hin & Hp & Hv & Hf)]; [by left|]. right. exists raw, fx. split_and!; try done; [by apply Hs|].
  eapply Forall_impl; [exact Hf|]. intros s (r & Hr & Hi). exists r. auto.
Qed.

Definition instrument_of (cash : bool) (t : tables) (id : string) (instrument : string * string) : Prop :=
  cash = true -> exists kind code, select_instrument uuid_text id t = Ok (kind, code) /\
    to_lower (trim_space kind) ∈ ["cash"; "currency"] /\ snd instrument = to_upper (trim_space code) /\ snd instrument <> "".

Lemma triple_source c t w cash id instrument entry :
  tr c t w (metric_source uuid_text cash id instrument entry) (fun raw t' w' => t' = t /\ w' = w /\
    (if cash then cash_backed uuid_text t (snd instrument) entry raw else price_backed t id entry raw)).
Proof.
  unfold metric_source. destruct cash; [|apply triple_wrap, triple_price].
  destruct (negb _) eqn:E; [apply triple_throw|]. bool_simp. by apply triple_wrap, triple_cash.
Qed.

(** One entry of a history. *)
Lemma triple_revision c t w cash id instrument acc h entry : collected t w acc ->
  tr c t w (metric_revision get uuid_text cash id instrument (acc, h) entry) (fun r t' w' => t' = t /\
    collected t w' (fst r) /\ fst acc ⊆ fst (fst r) /\ entry_backed uuid_text t (fst (fst r)) cash id (snd instrument) entry /\
    exists day, metricObservationDay entry = Some day /\ snd r = <[day := metricString entry "usd_price"]> h).
Proof.
  intros Hc. unfold metric_revision. destruct (cash && has_prefix _ _) eqn:Ec.
  - apply andb_prop in Ec as [-> _]. destruct (_ || _) eqn:Ev; [apply triple_throw|]. bool_simp.
    destruct (metricObservationDay entry) as [day|]; [|apply triple_throw]. apply triple_ret. cbn.
    split_and!; try done; [by left|by exists day].
  - clear Ec. eapply triple_bind; [apply triple_source|]. intros raw t' w' (-> & -> & Hb).
    assert (Hraw : raw_ref t (RawID raw) = Some raw).
    { destruct cash; [destruct Hb as (f & Hn & _); by eapply names_fx_ref|by eapply price_backed_ref]. }
    eapply triple_bind; [apply triple_wrap, (triple_add c t w acc raw Hc Hraw)|].
    intros acc1 t' w1 (-> & Hc1 & Hs1 & Hin). inversion Hin as [|? ? Hin1 _]; subst.
    destruct (fx_path entry) as [fx|] eqn:Ep; [|apply triple_throw].
    destruct (validateMetricUSDConversion entry fx) eqn:Ev; [cbn [negb]|apply triple_throw].
    eapply triple_bind; [by apply triple_metric_fx|]. intros acc2 t' w2 (-> & Hc2 & Hs2 & Hf).
    destruct (metricObservationDay entry) as [day|]; [|apply triple_throw]. apply triple_ret. cbn [fst snd].
    split_and!; try done; [by etransitivity| |by exists day].
    right. exists raw, fx. split_and!; try done. by apply Hs2.
Qed.

(** One history. *)
Lemma triple_entries c t w cash id instrument acc revisions : collected t w acc ->
  tr c t w (fold_m (metric_revision get uuid_text cash id instrument) (acc, ∅) revisions) (fun r t' w' => t' = t /\
    collected t w' (fst r) /\ fst acc ⊆ fst (fst r) /\ snd r = day_values revisions /\
    Forall (fun e => is_Some (metricObservationDay e) /\ entry_backed uuid_text t (fst (fst r)) cash id (snd instrument) e) revisions).
Proof.
  intros Hc. eapply triple_mono; [apply (triple_fold holds c t _ (fun pre r w' => collected t w' (fst r) /\ fst acc ⊆ fst (fst r) /\
    snd r = day_values pre /\
    Forall (fun e => is_Some (metricObservationDay e) /\ entry_backed uuid_text t (fst (fst r)) cash id (snd instrument) e) pre))|]; [|done|done].
  clear w Hc. intros pre entry post [acc' h] w _ (Hc & Hs & Hh & Hf). cbn [fst snd] in *.
  eapply triple_mono; [by apply triple_revision|]. intros [acc2 h2] t' w2 (-> & Hc2 & Hs2 & Hb & day & Hd & Hh2). cbn [fst snd] in *.
  split; [done|]. split; [done|]. split; [by etransitivity|]. split.
  - unfold day_values. rewrite fold_left_app. cbn. rewrite Hd, Hh2, Hh. done.
  - apply Forall_app. split; [|constructor; [by rewrite Hd|constructor]]. eapply Forall_impl; [exact Hf|].
    intros e [He Hb']. split; [done|]. by eapply entry_backed_mono.
Qed.

(** The histories treated so far and the state of the loop over them. *)
Abbreviation item := (bool * string * list metric)%type.
Definition item_id (x : item) : string := snd (fst x).

Record treated (t : tables) (acc : raws) (xs : list item) (st : metric_state) (w : W) : Prop := {
  tr_collected : collected t w (ms_raws st);
  tr_grows : fst acc ⊆ fst (ms_raws st);
  tr_once : NoDup (item_id <$> xs);
  tr_covered : ms_covered st = dom (ms_expected st);
  tr_expected id h : ms_expected st !! id = Some h <-> exists cash revisions, (cash, id, revisions) ∈ xs /\ h = day_values revisions;
  tr_cache id i : ms_cache st !! id = Some i ->
    exists kind code, select_instrument uuid_text id t = Ok (kind, code) /\
      i = (to_lower (trim_space kind), to_upper (trim_space code));
  tr_backed : Forall (fun x => history_backed uuid_text t (fst (ms_raws st)) (fst (fst x)) (item_id x) (snd x)) xs;
}.

Lemma history_backed_mono t l l' cash id revisions : l ⊆ l' ->
  history_backed uuid_text t l cash id revisions -> history_backed uuid_text t l' cash id revisions.
Proof.
  intros Hs (Hv & Hne & native & Hn & Hf). split; [done|]. split; [done|]. exists native. split; [done|].
  eapply Forall_impl; [exact Hf|]. intros e [He Hb]. split; [done|]. by eapply entry_backed_mono.
Qed.

(** The instrument of a history, and the cache after it was asked for. *)
Lemma triple_instrument c t w cash id st :
  (forall id i, ms_cache st !! id = Some i -> exists kind code, select_instrument uuid_text id t = Ok (kind, code) /\
      i = (to_lower (trim_space kind), to_upper (trim_space code))) ->
  tr c t w (if cash : bool then cash_instrument uuid_text st id else ret (("", ""), ms_cache st)) (fun r t' w' => t' = t /\ w' = w /\
    instrument_of cash t id (fst r) /\
    forall id i, snd r !! id = Some i -> exists kind code, select_instrument uuid_text id t = Ok (kind, code) /\
      i = (to_lower (trim_space kind), to_upper (trim_space code))).
Proof.
  intros Hcache. destruct cash; [|apply triple_ret; by split_and!]. unfold cash_instrument.
  eapply (triple_bind holds c t w _ _ (fun r t' w' => t' = t /\ w' = w /\
    (exists kind code, select_instrument uuid_text id t = Ok (kind, code) /\
      fst r = (to_lower (trim_space kind), to_upper (trim_space code))) /\
    forall id i, snd r !! id = Some i -> exists kind code, select_instrument uuid_text id t = Ok (kind, code) /\
      i = (to_lower (trim_space kind), to_upper (trim_space code)))).
  - apply triple_map_err. unfold loadMetricInstrument. destruct (ms_cache st !! id) as [i|] eqn:Ei.
    { apply triple_ret. split_and!; try done. by apply Hcache. }
    eapply triple_bind; [apply triple_wrap, (triple_query holds c t w _ (fun row t' w' => t' = t /\ w' = w /\
      select_instrument uuid_text id t = Ok row)); auto|].
    intros [kind code] t' w' (-> & -> & Hsel). apply triple_ret. split_and!; try done; [by exists kind, code|].
    cbn [fst snd]. intros id' i' [[<- <-]|[_ H]]%lookup_insert_Some; [by exists kind, code|by apply Hcache].
  - intros [i cache] t' w' (-> & -> & (kind & code & Hsel & Hi) & Hc). cbn [fst snd] in Hi, Hc.
    destruct (_ || _) eqn:E; [apply triple_throw|]. apply triple_ret. split_and!; try done.
    intros _. exists kind, code. cbn [fst snd]. subst i. cbn [fst snd] in *. split; [done|]. apply orb_false_elim in E as [E1 E2].
    split_and!; [|done|by bool_simp].
    apply andb_false_iff in E1 as [E1|E1]; bool_simp; rewrite E1; set_solver.
Qed.

Lemma triple_history c t w acc xs st cash id revisions : treated t acc xs st w ->
  tr c t w (metric_history get uuid_text cash st (id, revisions)) (fun st' t' w' => t' = t /\
    treated t acc (xs ++ [(cash, id, revisions)]) st' w').
Proof.
  intros Ht. unfold metric_history. destruct (validUUID id) eqn:Ev; [cbn [negb]|apply triple_throw].
  eapply triple_bind; [apply triple_instrument, (tr_cache _ _ _ _ _ Ht)|].
  intros [instrument cache] t' w' (-> & -> & Hi & Hcache). cbn [fst snd] in Hi, Hcache.
  destruct (_ || _) eqn:Eg; [apply triple_throw|]. apply orb_false_elim in Eg as [Hne Hnew]. bool_simp.
  eapply triple_bind; [apply triple_entries, (tr_collected _ _ _ _ _ Ht)|].
  intros [acc' h] t' w' (-> & Hc' & Hs' & Hh & Hf). cbn [fst snd] in *. apply triple_ret. split; [done|].
  assert (Hfresh : forall cash' r', (cash', id, r') ∉ xs).
  { intros cash' r' Hin. apply Hnew. exists (day_values r'). apply (tr_expected _ _ _ _ _ Ht). by exists cash', r'. }
  destruct Ht as [H1 H2 H3 H4 H5 H6 H7]. split; cbn [ms_raws ms_covered ms_expected ms_cache]; try done; [by etransitivity|..].
  - rewrite fmap_app. apply NoDup_app. split; [done|]. split; [|by apply NoDup_singleton].
    intros x Hx ->%list_elem_of_singleton. apply list_elem_of_fmap in Hx as ([[cash' id'] r'] & Hid & Hin).
    cbn in Hid. subst id'. by apply (Hfresh cash' r').
  - by rewrite H4, dom_insert_L.
  - intros id' h'. rewrite lookup_insert_Some, H5. setoid_rewrite elem_of_app. setoid_rewrite list_elem_of_singleton. split.
    + intros [[<- <-]|[Hn (cash' & r' & Hin & He)]]; [exists cash, revisions; auto|exists cash', r'; auto].
    + intros (cash' & r' & [Hin| [= -> -> ->] ] & He); [|left; by subst]. right. split; [|by exists cash', r'].
      intros ->. by apply (Hfresh cash' r').
  - apply Forall_app. split; [|constructor; [|constructor]].
    + eapply Forall_impl; [exact H7|]. intros x. by apply history_backed_mono.
    + split; [done|]. split; [done|]. exists (snd instrument). split; [exact Hi|exact Hf].
Qed.

Definition entries_of (inputs : gmap string json) (group : string * bool) : list item :=
  match metric_histories inputs (fst group) with
  | Some m => (fun kv => (snd group, fst kv, snd kv)) <$> insertion_sort by_id (map_to_list m)
  | None => []
  end.

Lemma triple_group c t w inputs acc xs st group : treated t acc xs st w ->
  tr c t w (metric_group get uuid_text inputs st group) (fun st' t' w' => t' = t /\
    treated t acc (xs ++ entries_of inputs group) st' w' /\ is_Some (metric_histories inputs (fst group))).
Proof.
  intros Ht. unfold metric_group, entries_of. destruct (metric_histories inputs (fst group)) as [m|]; [|apply triple_throw].
  eapply triple_mono; [apply (triple_fold holds c t _ (fun pre st' w' => treated t acc
    (xs ++ ((fun kv => (snd group, fst kv, snd kv)) <$> pre)) st' w'))|].
  - intros pre [id revisions] post st' w' _ Hpre. rewrite fmap_app, app_assoc. by apply triple_history.
  - by rewrite app_nil_r.
  - intros st' t' w' [-> H]. by split_and!.
Qed.

Lemma size_dom_eq {A B} (m1 : gmap string A) (m2 : gmap string B) : dom m1 ⊆ dom m2 -> size m1 = size m2 -> dom m1 = dom m2.
Proof. intros Hs Hn. apply set_subseteq_size_eq; [done|]. rewrite !size_dom. lia. Qed.

(** The comparison of the prices with the histories. *)
Lemma prices_match_spec values covered expected : covered = dom expected -> prices_match values covered expected = true ->
  dom values = dom expected /\
  forall id h actual, expected !! id = Some h -> values !! id = Some actual -> same_values h actual.
Proof.
  intros -> H. unfold prices_match in H. case_bool_decide as He.
  { bool_simp. assert (Hx : expected = ∅) by by apply dom_empty_inv_L. subst. rewrite !dom_empty_L. split; [done|].
    intros id h actual Hc. by rewrite lookup_empty in Hc. }
  apply andb_prop in H as [H Hv]. apply andb_prop in H as [Hn Hk]. apply Nat.eqb_eq in Hn.
  rewrite forallb_forall in Hk, Hv.
  assert (Hdom : dom values = dom expected).
  { apply size_dom_eq; [|by rewrite Hn, size_dom]. intros id [v Hid]%elem_of_dom.
    specialize (Hk (id, v)). cbn in Hk. bool_simp. apply bool_decide_eq_true in Hk; [done|].
    apply list_elem_of_In. by apply elem_of_map_to_list. }
  split; [done|]. intros id h actual Hid Ha. specialize (Hv (id, h)). cbn in Hv. rewrite Ha in Hv.
  apply elem_of_map_to_list, list_elem_of_In, Hv, andb_prop in Hid as [Hsize Hall]. apply Nat.eqb_eq in Hsize.
  rewrite forallb_forall in Hall.
  assert (Hval : forall day v, h !! day = Some v -> actual !! day = Some (JString v)).
  { intros day v Hd. apply elem_of_map_to_list, list_elem_of_In, Hall in Hd. cbn in Hd.
    destruct (actual !! day) as [[]|]; try done. bool_simp. by subst. }
  split; [|done]. apply size_dom_eq; [|done]. intros day [v Hd]%elem_of_dom. apply elem_of_dom. eexists. by apply Hval.
Qed.

Lemma triple_inputs c t w inputs acc : collected t w acc ->
  tr c t w (metric_inputs get uuid_text inputs acc) (fun acc' t' w' => t' = t /\ collected t w' acc' /\ fst acc ⊆ fst acc' /\
    metrics_closed uuid_text t (fst acc') inputs).
Proof.
  intros Hc. unfold metric_inputs. destruct (metric_prices inputs) as [values|] eqn:Ev; [|apply triple_throw].
  eapply triple_bind; [apply (triple_fold holds c t _ (fun pre st w' => treated t acc (flat_map (entries_of inputs) pre) st w' /\
    Forall (fun g => is_Some (metric_histories inputs (fst g))) pre))|].
  - intros pre group post st w' _ [Ht Hg]. eapply triple_mono; [by apply triple_group|].
    intros st' t' w2 (-> & Ht' & Hs). split; [done|]. rewrite flat_map_app. cbn [flat_map]. rewrite app_nil_r.
    split; [done|]. apply Forall_app. by repeat constructor.
  - split; [|constructor]. split; cbn; [done|done|apply NoDup_nil_2|by rewrite dom_empty_L| |done|constructor]. intros id h.
    rewrite lookup_empty. split; [done|]. intros (? & ? & H & _). by apply not_elem_of_nil in H.
  - intros st t' w' (-> & Ht & Hg). destruct (prices_match _ _ _) eqn:Em; [|apply triple_throw]. apply triple_ret.
    destruct Ht as [H1 H2 H3 H4 H5 H6 H7]. split; [done|]. split; [done|]. split; [done|].
    apply prices_match_spec in Em as [Hdom Hsame]; [|done].
    set (key := fun cash : bool => if cash then "cash_revision_history" else "price_revision_history").
    assert (Hkey : forall cash, is_Some (metric_histories inputs (key cash))).
    { rewrite Forall_forall in Hg. intros []; [apply (Hg ("cash_revision_history", true))|apply (Hg ("price_revision_history", false))]; set_solver. }
    exists values. split; [done|]. exists (fun cash => default ∅ (metric_histories inputs (key cash))).
    assert (Hin : forall cash id revisions, default ∅ (metric_histories inputs (key cash)) !! id = Some revisions <->
      (cash, id, revisions) ∈ flat_map (entries_of inputs) groups).
    { intros cash id revisions. destruct (Hkey true) as [m1 E1], (Hkey false) as [m2 E2]. unfold key in E1, E2.
      unfold groups. cbn [flat_map]. unfold entries_of. cbn [fst snd]. rewrite E1, E2, app_nil_r, elem_of_app, !list_elem_of_fmap.
      setoid_rewrite insertion_sort_elem.
      assert (Hk : default ∅ (metric_histories inputs (key cash)) = if cash then m1 else m2) by (destruct cash; unfold key; by rewrite ?E1, ?E2).
      rewrite Hk. split.
      - intros Hl. destruct cash; [right|left]; (exists (id, revisions); split; [done|by apply elem_of_map_to_list]).
      - intros [((id' & r') & [= -> -> ->] & Hm)|((id' & r') & [= -> -> ->] & Hm)]; by apply elem_of_map_to_list in Hm. }
    split_and!.
    + intros k cash Hk. assert (k = key cash) as ->.
      { unfold groups in Hk. apply elem_of_cons in Hk as [[= -> ->]|Hk]; [done|]. apply list_elem_of_singleton in Hk as [= -> ->]. done. }
      destruct (Hkey cash) as [m Hm]. by rewrite Hm.
    + intros cash id revisions Hh. apply Hin in Hh. rewrite Forall_forall in H7. exact (H7 _ Hh).
    + intros id. rewrite <- elem_of_dom, Hdom, elem_of_dom. split.
      * intros [h (cash & revisions & Hx & _)%H5]. exists cash, revisions. by apply Hin.
      * intros (cash & revisions & Hh%Hin). eexists. apply H5. by exists cash, revisions.
    + intros cash id revisions actual Hh%Hin Ha. eapply Hsame; [|done]. apply H5. by exists cash, revisions.
Qed.

Definition dependencies_closed (t : tables) (l : list RawRef) (doc : string) : Prop :=
  exists inputs, metric_inputs_of doc = Some inputs /\
    match inputs with Some inputs => metrics_closed uuid_text t l inputs | None => True end.

Lemma triple_dependencies c t w doc acc : collected t w acc ->
  tr c t w (addMetricDependencies get uuid_text doc acc) (fun acc' t' w' => t' = t /\ collected t w' acc' /\ fst acc ⊆ fst acc' /\
    dependencies_closed t (fst acc') doc).
Proof.
  intros Hc. unfold addMetricDependencies, dependencies_closed. destruct (metric_inputs_of doc) as [[inputs|]|]; [| |apply triple_throw].
  - eapply triple_mono; [by apply triple_inputs|]. intros acc' t' w' (-> & ? & ? & ?). split_and!; try done. by eexists.
  - apply triple_ret. split_and!; try done. by exists None.
Qed.
End evidence.
