(* ===== verification/EvidenceSeal.v ===== *)
(** Sealing decision evidence, and reading the manifest back. *)

From S2P Require Import Prelude GoString Digits GoTime Sha256 Decimal Order Tables Db World Archive.
From S2P Require Import Json JsonTree JsonText JsonQuote JsonCompact JsonDecode TimeText JournalModel Evidence EvidenceProofs.
From Stdlib Require Import Ascii QArith.
#[local] Open Scope Z_scope.
Import Archive(ArchiveReader, read_held, read_keeps).
Import Journal Evidence.

Section evidence.
Context {W : Type} (get : option (string -> W -> res (res string) * W)).
Context (uuid_text : string -> option string) (jsonb_out : json -> string) (collate : string -> string -> comparison).
Context (holds : W -> string -> string -> Prop) (Hget : forall g, get = Some g -> ArchiveReader g holds).

Abbreviation raws := (list RawRef * gset string)%type.
Abbreviation tr := (triple holds).
Abbreviation dependencies_closed := (dependencies_closed uuid_text).
Abbreviation collected := (collected holds).

(** ** Sealing *)

(** What the text sealed for a reference is. *)
Inductive resolved (t : tables) (account : string) (l : list RawRef) : string -> string -> string -> Prop :=
  | resolved_snapshot id doc : select_snapshot id account t = Ok doc ->
      resolved t account l "portfolio_snapshot" id (jsonb_out doc)
  | resolved_valuation id doc : select_valuation id account t = Ok doc ->
      resolved t account l "valuation_run" id (jsonb_out doc)
  | resolved_risk id doc : select_risk jsonb_out collate id account t = Ok doc -> dependencies_closed t l (jsonb_out doc) ->
      resolved t account l "risk_run" id (jsonb_out doc)
  | resolved_raw id r : raw_ref t id = Some r -> r ∈ l -> resolved t account l "raw_object" id (marshal_ref r)
  | resolved_revision kind id doc r : kind ∈ ["observation_revision"; "price_revision"; "fx_quote_revision"] ->
      select_revision kind id t = Ok (doc, r) -> r ∈ l -> resolved t account l kind id (jsonb_out doc).

Definition entry_sound (t : tables) (account : string) (l : list RawRef) (ref : EvidenceRef) (e : Entry) : Prop :=
  EntryKind e = Kind ref /\ canonicalUUID (RefID ref) = Some (EntryReference e) /\ EntryDescription e = Description ref /\
  resolved t account l (EntryKind e) (EntryReference e) (EntrySnapshot e).

(** The references of a kind. *)
Definition named (kind : string) (entries : list Entry) : list string :=
  EntryReference <$> List.filter (fun e => bool_decide (EntryKind e = kind)) entries.

(** A raw object behind a quote of a valuation. *)
Definition quote_raw (t : tables) (run : string) (raw : RawRef) : Prop :=
  exists lid line, valuation_lines (sources t) !! lid = Some line /\ vn_run line = run /\
    ((exists id p, vn_price line = Some id /\ prices (sources t) !! id = Some p /\ raw_ref t (pr_raw p) = Some raw) \/
     (exists id f, id ∈ vn_try_fx line ++ vn_usd_fx line /\ fx_quotes (sources t) !! id = Some f /\ raw_ref t (fx_raw f) = Some raw)).

(** One snapshot of the account's portfolio, one valuation of it and one stress
    run of the account on both. *)
Definition bound (t : tables) (account : string) (m : Manifest) : Prop :=
  exists s v r snapshot valuation run,
    named "portfolio_snapshot" (References m) = [s] /\ named "valuation_run" (References m) = [v] /\
    named "risk_run" (References m) = [r] /\
    snapshots (sources t) !! s = Some snapshot /\ accounts (sources t) !! account = Some (sn_portfolio snapshot) /\
    valuation_runs (sources t) !! v = Some valuation /\ vl_snapshot valuation = s /\ usable_state (vl_state valuation) = true /\
    scenario_runs (sources t) !! r = Some run /\ sr_snapshot run = s /\ sr_valuation run = Some v /\ sr_account run = account /\
    run_complete run = true /\
    forall raw, quote_raw t v raw -> raw ∈ RawObjects m.

Record manifest_sound (t : tables) (w : W) (decision account : string) (refs : list EvidenceRef) (m : Manifest) : Prop := {
  sound_versions : SchemaVersion m = "1" /\ MfContractVersion m = ContractVersion;
  sound_ids : DecisionID m = decision /\ MfAccountID m = account;
  sound_entries : Forall2 (entry_sound t account (RawObjects m)) refs (References m);
  sound_once : NoDup ((fun e => (EntryKind e, EntryReference e)) <$> References m);
  sound_bound : bound t account m;
  sound_raws_once : NoDup (RawID <$> RawObjects m);
  sound_raws : Forall (fun r => raw_ref t (RawID r) = Some r /\ stored holds w r) (RawObjects m);
}.

Lemma dependencies_mono t l l' doc : l ⊆ l' -> dependencies_closed t l doc -> dependencies_closed t l' doc.
Proof.
  intros Hs (inputs & Hi & H). exists inputs. split; [done|]. destruct inputs as [inputs|]; [|done].
  destruct H as (values & Hv & hist & H1 & H2 & H3 & H4). exists values. split; [done|]. exists hist. split_and!; try done.
  intros cash id revisions Hh. eapply history_backed_mono; [exact Hs|]. by apply H2.
Qed.

Lemma entry_sound_mono t account l l' ref e : l ⊆ l' -> entry_sound t account l ref e -> entry_sound t account l' ref e.
Proof.
  intros Hs (Hk & Hid & Hd & Hr). split_and!; try done. destruct Hr; econstructor; eauto. by eapply dependencies_mono.
Qed.

(** The state of the loop over the references. *)
Record progress (t : tables) (account : string) (refs : list EvidenceRef) (st : sealing) (w : W) : Prop := {
  pg_collected : collected t w (sl_raws st);
  pg_entries : Forall2 (entry_sound t account (fst (sl_raws st))) refs (sl_entries st);
  pg_once : NoDup ((fun e => (EntryKind e, EntryReference e)) <$> sl_entries st);
  pg_seen e : e ∈ sl_entries st -> EntryKind e +:+ ":" +:+ EntryReference e ∈ sl_seen st;
  pg_snapshot : named "portfolio_snapshot" (sl_entries st) = if bool_decide (sl_snapshot st = "") then [] else [sl_snapshot st];
  pg_valuation : (sl_valuation st = "" /\ named "valuation_run" (sl_entries st) = []) \/
    (named "valuation_run" (sl_entries st) = [sl_valuation st] /\ sl_valuation st <> "" /\
     exists v, valuation_runs (sources t) !! sl_valuation st = Some v /\ sl_valuation_snapshot st = vl_snapshot v);
  pg_risk : (sl_risk_snapshot st = "" /\ named "risk_run" (sl_entries st) = []) \/
    exists id r, named "risk_run" (sl_entries st) = [id] /\ scenario_runs (sources t) !! id = Some r /\
      sl_risk_snapshot st = sr_snapshot r /\ sl_risk_snapshot st <> "" /\ sl_risk_valuation st = default "" (sr_valuation r);
}.

(** What resolving one reference does to that state. *)
Definition resolves (t : tables) (account kind id : string) (st : sealing) (r : string * sealing) (w : W) : Prop :=
  let st' := snd r in
  sl_entries st' = sl_entries st /\ sl_seen st' = sl_seen st /\ collected t w (sl_raws st') /\ fst (sl_raws st) ⊆ fst (sl_raws st') /\
  resolved t account (fst (sl_raws st')) kind id (fst r) /\
  (if bool_decide (kind = "portfolio_snapshot") then sl_snapshot st = "" /\ sl_snapshot st' = id
   else sl_snapshot st' = sl_snapshot st) /\
  (if bool_decide (kind = "valuation_run")
   then sl_valuation st = "" /\ sl_valuation st' = id /\
        exists v, valuation_runs (sources t) !! id = Some v /\ sl_valuation_snapshot st' = vl_snapshot v
   else sl_valuation st' = sl_valuation st /\ sl_valuation_snapshot st' = sl_valuation_snapshot st) /\
  (if bool_decide (kind = "risk_run")
   then sl_risk_snapshot st = "" /\ exists r, scenario_runs (sources t) !! id = Some r /\ sl_risk_snapshot st' = sr_snapshot r /\
        sl_risk_valuation st' = default "" (sr_valuation r)
   else sl_risk_snapshot st' = sl_risk_snapshot st /\ sl_risk_valuation st' = sl_risk_valuation st).

Lemma triple_resolve_snapshot c t w account id st : collected t w (sl_raws st) ->
  tr c t w (resolve_snapshot jsonb_out account id st) (fun r t' w' => t' = t /\ resolves t account "portfolio_snapshot" id st r w').
Proof.
  intros Hc. unfold resolve_snapshot. destruct (negb _) eqn:E; [apply triple_throw|]. bool_simp.
  eapply triple_bind; [apply triple_map_err, (triple_query holds c t w _ (fun doc t' w' => t' = t /\ w' = w /\ select_snapshot id account t = Ok doc)); auto|].
  intros doc t' w' (-> & -> & Hd). apply triple_ret. split; [done|]. unfold resolves. decide_texts. cbn. split_and!; try done. by constructor.
Qed.

Lemma triple_resolve_valuation c t w account id st : collected t w (sl_raws st) ->
  tr c t w (resolve_valuation jsonb_out account id st) (fun r t' w' => t' = t /\ resolves t account "valuation_run" id st r w').
Proof.
  intros Hc. unfold resolve_valuation. destruct (negb _) eqn:E; [apply triple_throw|]. bool_simp. apply triple_map_err.
  eapply triple_bind; [apply (triple_query holds c t w _ (fun doc t' w' => t' = t /\ w' = w /\ select_valuation id account t = Ok doc)); auto|].
  intros doc t' w' (-> & -> & Hd).
  eapply triple_bind; [apply (triple_query holds c t w _ (fun s t' w' => t' = t /\ w' = w /\ select_valuation_snapshot id t = Ok s)); auto|].
  intros s t' w' (-> & -> & Hs). apply triple_ret. split; [done|]. unfold resolves. decide_texts. cbn. split_and!; try done; [by constructor|].
  unfold select_valuation_snapshot in Hs. destruct (valuation_runs _ !! id) as [v|]; [|done]. injection Hs as <-. by exists v.
Qed.

Lemma triple_resolve_risk c t w account id st : collected t w (sl_raws st) ->
  tr c t w (resolve_risk get uuid_text jsonb_out collate account id st) (fun r t' w' => t' = t /\ resolves t account "risk_run" id st r w').
Proof.
  intros Hc. unfold resolve_risk. destruct (negb _) eqn:E; [apply triple_throw|]. bool_simp.
  eapply (triple_bind holds c t w _ _ (fun r t' w' => t' = t /\ w' = w /\ exists doc inputs,
    select_risk jsonb_out collate id account t = Ok doc /\ select_risk_inputs id t = Ok inputs /\
    r = (jsonb_out doc, see_risk (fst inputs) (snd inputs) st))).
  - apply triple_map_err.
    eapply triple_bind; [apply (triple_query holds c t w _ (fun doc t' w' => t' = t /\ w' = w /\ select_risk jsonb_out collate id account t = Ok doc)); auto|].
    intros doc t' w' (-> & -> & Hd).
    eapply triple_bind; [apply (triple_query holds c t w _ (fun s t' w' => t' = t /\ w' = w /\ select_risk_inputs id t = Ok s)); auto|].
    intros s t' w' (-> & -> & Hs). apply triple_ret. split_and!; try done. by exists doc, s.
  - intros r t' w' (-> & -> & doc & inputs & Hd & Hs & ->). cbn [fst snd].
    eapply triple_bind; [by apply triple_dependencies|]. intros acc t' w' (-> & Hc' & Hsub & Hdep). apply triple_ret.
    split; [done|]. unfold resolves. decide_texts. cbn in *. split_and!; try done; [by constructor|].
    unfold select_risk_inputs in Hs. destruct (scenario_runs _ !! id) as [r|]; [|done]. injection Hs as <-. by exists r.
Qed.

Lemma triple_resolve_raw c t w account id st : collected t w (sl_raws st) ->
  tr c t w (resolve_raw get id st) (fun r t' w' => t' = t /\ resolves t account "raw_object" id st r w').
Proof.
  intros Hc. unfold resolve_raw. apply triple_map_err.
  eapply triple_bind; [apply (triple_query holds c t w _ (fun r t' w' => t' = t /\ w' = w /\ raw_ref t id = Some r))|].
  { intros r Hr. unfold select_raw in Hr. destruct (raw_ref t id); [|done]. by injection Hr as <-. }
  intros raw t' w' (-> & -> & Hr). pose proof (raw_ref_id _ _ _ Hr) as Hid.
  eapply triple_bind; [by apply (triple_verify get holds Hget c t w (sl_raws st))|]. intros [] t' w' (-> & Hc' & Hst). apply triple_ret.
  split; [done|]. assert (Hr' : raw_ref t (RawID raw) = Some raw) by by rewrite Hid.
  destruct (bool_decide (RawID raw ∈ snd (sl_raws st))) eqn:Hin; bool_simp; unfold resolves; decide_texts; cbn [fst snd see_raws sl_entries sl_seen sl_raws sl_snapshot sl_valuation sl_valuation_snapshot sl_risk_snapshot sl_risk_valuation].
  - split_and!; try done. apply resolved_raw; [done|]. by eapply collected_in.
  - split_and!; try done; [by apply collected_keep|cbn; set_solver|]. apply resolved_raw; [done|]. cbn. set_solver.
Qed.

Lemma select_revision_raw kind id t doc r : select_revision kind id t = Ok (doc, r) -> raw_ref t (RawID r) = Some r.
Proof.
  unfold select_revision. intros H. assert (Hj : forall R (table : source_tables -> gmap string R) raw x, joined table raw id t = Ok x ->
    raw_ref t (RawID (snd x)) = Some (snd x)).
  { intros R table raw [x o] Hx. apply joined_ok in Hx as [_ Hx]. cbn. by rewrite (raw_ref_id _ _ _ Hx). }
  repeat case_bool_decide; (destruct (joined _ _ id t) as [x|] eqn:Ej; [|done]); cbn in H; injection H as _ <-; by eapply Hj.
Qed.

Lemma triple_resolve_revision c t w account kind id st : collected t w (sl_raws st) ->
  kind ∈ ["observation_revision"; "price_revision"; "fx_quote_revision"] ->
  tr c t w (resolve_revision get jsonb_out kind id st) (fun r t' w' => t' = t /\ resolves t account kind id st r w').
Proof.
  intros Hc Hk. unfold resolve_revision. apply triple_map_err.
  eapply triple_bind; [apply (triple_query holds c t w _ (fun r t' w' => t' = t /\ w' = w /\ select_revision kind id t = Ok r)); auto|].
  intros [doc raw] t' w' (-> & -> & Hr). cbn [fst snd]. pose proof (select_revision_raw _ _ _ _ _ Hr) as Hraw.
  assert (Hn : bool_decide (kind = "portfolio_snapshot") = false /\ bool_decide (kind = "valuation_run") = false /\
    bool_decide (kind = "risk_run") = false).
  { repeat (apply elem_of_cons in Hk as [->|Hk]; [done|]). by apply not_elem_of_nil in Hk. }
  destruct Hn as (E1 & E2 & E3). destruct (bool_decide (RawID raw ∈ snd (sl_raws st))) eqn:Hin; [apply bool_decide_eq_true_1 in Hin|apply bool_decide_eq_false_1 in Hin].
  - apply triple_ret. split; [done|]. unfold resolves. rewrite E1, E2, E3. split_and!; try done.
    eapply resolved_revision; [done..|]. by eapply collected_in.
  - eapply triple_bind; [by apply (triple_verify get holds Hget c t w (sl_raws st))|]. intros [] t' w' (-> & Hc' & Hst). apply triple_ret.
    split; [done|]. unfold resolves. rewrite E1, E2, E3.
    cbn [fst snd see_raws sl_entries sl_seen sl_raws sl_snapshot sl_valuation sl_valuation_snapshot sl_risk_snapshot sl_risk_valuation].
    split_and!; try done; [by apply collected_keep|cbn; set_solver|]. eapply resolved_revision; [done..|]. cbn. set_solver.
Qed.

Lemma triple_resolve c t w account kind id st : collected t w (sl_raws st) ->
  tr c t w (resolve get uuid_text jsonb_out collate account kind id st) (fun r t' w' => t' = t /\ resolves t account kind id st r w').
Proof.
  intros Hc. unfold resolve.
  destruct (bool_decide (kind = "portfolio_snapshot")) eqn:E1; bool_simp; [subst; by apply triple_resolve_snapshot|].
  destruct (bool_decide (kind = "valuation_run")) eqn:E2; bool_simp; [subst; by apply triple_resolve_valuation|].
  destruct (bool_decide (kind = "risk_run")) eqn:E3; bool_simp; [subst; by apply triple_resolve_risk|].
  destruct (bool_decide (kind = "raw_object")) eqn:E4; bool_simp; [subst; by apply triple_resolve_raw|].
  destruct (bool_decide (kind ∈ _)) eqn:E5; bool_simp; [by apply triple_resolve_revision|apply triple_throw].
Qed.

(** ** Identifiers in canonical form *)

Definition uuid_shape (l : list ascii) : bool :=
  (length l =? 36)%nat && forallb (fun ic => uuid_char (fst ic) (snd ic)) (combine (seq 0 36) l).

Lemma lower_chars_map l : Forall (fun c => code c < 128) l -> lower_chars l = lower_ascii <$> l.
Proof.
  induction 1 as [|c l Hc Hl IH]; [done|]. cbn [lower_chars fmap list_fmap]. rewrite IH.
  destruct (code c) as [|p|p] eqn:E; [done| |done]. repeat (destruct p as [p|p|]; try done; try lia).
Qed.

Lemma uuid_char_lower i c : uuid_char i c = true -> code c < 128 /\ uuid_char i (lower_ascii c) = true /\ plain (lower_ascii c) = true /\
  lower_ascii (lower_ascii c) = lower_ascii c.
Proof. unfold uuid_char. destruct (existsb _ _); intros H; destruct c as [[] [] [] [] [] [] [] []]; try discriminate H; (split; [done|]); by split_and!. Qed.

Lemma uuid_shape_lower l k : forallb (fun ic => uuid_char (fst ic) (snd ic)) (combine (seq k (length l)) l) = true ->
  Forall (fun c => code c < 128) l /\ forallb (fun ic => uuid_char (fst ic) (snd ic)) (combine (seq k (length l)) (lower_ascii <$> l)) = true /\
  forallb plain (lower_ascii <$> l) = true /\ lower_ascii <$> (lower_ascii <$> l) = lower_ascii <$> l.
Proof.
  revert k. induction l as [|c l IH]; intros k; [by repeat split; try constructor|]. cbn [length seq combine forallb fst snd fmap list_fmap].
  intros [Hc Hl]%andb_prop. destruct (uuid_char_lower _ _ Hc) as (H1 & H2 & H3 & H4). destruct (IH _ Hl) as (I1 & I2 & I3 & I4).
  split; [by constructor|]. split; [rewrite H2; exact I2|]. split; [rewrite H3; exact I3|]. f_equal; [exact H4|exact I4].
Qed.

Lemma canonical_spec v id : canonicalUUID v = Some id -> canonicalUUID id = Some id /\ plain_text id = true /\ id <> "".
Proof.
  unfold canonicalUUID. destruct (_ && _) eqn:E; [|done]. intros [= <-]. apply andb_prop in E as [Hn Hf].
  assert (Hlen : length (chars v) = 36%nat) by (rewrite length_chars; unfold slen in Hn; lia).
  rewrite <- Hlen in Hf. destruct (uuid_shape_lower _ _ Hf) as (Hlow & Hf' & Hp & Hi).
  assert (Hc : chars (to_lower v) = lower_ascii <$> chars v) by (unfold to_lower; by rewrite chars_of_chars, lower_chars_map).
  assert (Hl : length (chars (to_lower v)) = 36%nat) by by rewrite Hc, length_fmap.
  split_and!.
  - rewrite <- Hc, Hlen in Hf'. rewrite Hf'. replace (slen (to_lower v) =? 36) with true by (rewrite length_chars in Hl; unfold slen; lia).
    cbn [andb]. f_equal. apply chars_inj. unfold to_lower at 1. rewrite chars_of_chars, Hc.
    rewrite lower_chars_map; [exact Hi|]. apply Forall_fmap. rewrite forallb_forall in Hp. apply Forall_forall. intros c Hin.
    assert (Hx : In (lower_ascii c) (lower_ascii <$> chars v)) by (apply list_elem_of_In; by apply list_elem_of_fmap_2).
    apply Hp in Hx. unfold plain in Hx. cbn. lia.
  - unfold plain_text. by rewrite Hc.
  - intros He. by rewrite He in Hl.
Qed.

(** ** The manifest *)

Lemma named_snoc kind l e : named kind (l ++ [e]) =
  named kind l ++ (if bool_decide (EntryKind e = kind) then [EntryReference e] else []).
Proof. unfold named. rewrite List.filter_app, fmap_app. cbn [List.filter]. by case_bool_decide. Qed.

Lemma canonical_not_empty v id : canonicalUUID v = Some id -> id <> "".
Proof. intros H. by apply canonical_spec in H as (_ & _ & ?). Qed.

(** Identifiers of snapshots are not empty. *)
Definition runs_identified (t : tables) : Prop := forall id r, scenario_runs (sources t) !! id = Some r -> sr_snapshot r <> "".

Lemma progress_snoc t account refs st w0 w ref id text st' : runs_identified t ->
  progress t account refs st w0 -> canonicalUUID (RefID ref) = Some id -> Kind ref +:+ ":" +:+ id ∉ sl_seen st ->
  resolves t account (Kind ref) id st (text, st') w ->
  progress t account (refs ++ [ref])
    (mkSealing (sl_entries st' ++ [mkEntry (Kind ref) id (Description ref) text]) (sl_raws st')
       ({[Kind ref +:+ ":" +:+ id]} ∪ sl_seen st') (sl_snapshot st') (sl_valuation st') (sl_valuation_snapshot st')
       (sl_risk_snapshot st') (sl_risk_valuation st')) w.
Proof.
  intros Hids [P1 P2 P3 P4 P5 P6 P7] Hid Hnew (He & Hse & Hc & Hs & Hr & H1 & H2 & H3). cbn [fst snd] in *.
  pose proof (canonical_not_empty _ _ Hid) as Hne.
  split; cbn [sl_entries sl_raws sl_seen sl_snapshot sl_valuation sl_valuation_snapshot sl_risk_snapshot sl_risk_valuation];
    rewrite ?He, ?named_snoc; cbn [EntryKind EntryReference]; [done|..].
  - apply Forall2_app; [|constructor; [|constructor]; by split_and!].
    eapply Forall2_impl; [exact P2|]. intros r e. by apply entry_sound_mono.
  - rewrite fmap_app. apply NoDup_app. split; [done|]. split; [|by apply NoDup_singleton].
    intros x Hx ->%list_elem_of_singleton. apply list_elem_of_fmap in Hx as (e & Hx & Hin). injection Hx as Hk Hrf.
    apply Hnew. rewrite Hk, Hrf. by apply P4.
  - intros e. rewrite elem_of_app, list_elem_of_singleton, Hse. intros [Hin| ->]; [|set_solver]. specialize (P4 e Hin). set_solver.
  - destruct (bool_decide (Kind ref = "portfolio_snapshot")).
    + destruct H1 as [H1 ->]. rewrite P5, H1. decide_texts. rewrite bool_decide_false by done. done.
    + by rewrite H1, P5, app_nil_r.
  - destruct (bool_decide (Kind ref = "valuation_run")).
    + destruct H2 as (H2 & -> & v & Hv & Hvs). destruct P6 as [[_ P6]|(_ & P6 & _)]; [|done]. right. rewrite P6. split; [done|].
      split; [done|]. by exists v.
    + destruct H2 as [-> ->]. by rewrite app_nil_r.
  - destruct (bool_decide (Kind ref = "risk_run")).
    + destruct H3 as (H3 & r & Hrr & Hrs & Hrv). destruct P7 as [[_ P7]|(? & ? & _ & _ & _ & P7 & _)]; [|done]. right. rewrite P7.
      exists id, r. split_and!; try done. rewrite Hrs. by eapply Hids.
    + destruct H3 as [-> ->]. by rewrite app_nil_r.
Qed.

Lemma triple_seal_ref c t w account refs st ref : runs_identified t -> progress t account refs st w ->
  tr c t w (seal_ref get uuid_text jsonb_out collate account st ref) (fun st' t' w' => t' = t /\ progress t account (refs ++ [ref]) st' w').
Proof.
  intros Hids Hp. unfold seal_ref. destruct (canonicalUUID (RefID ref)) as [id|] eqn:Eid; [|apply triple_throw].
  destruct (bool_decide (_ ∈ sl_seen st)) eqn:Es; [apply triple_throw|]. apply bool_decide_eq_false_1 in Es.
  eapply triple_bind; [apply triple_resolve, (pg_collected _ _ _ _ _ Hp)|].
  intros [text st'] t' w' [-> Hr]. apply triple_ret. split; [done|]. by eapply progress_snoc.
Qed.

Lemma quote_raw_listed t run raw : quote_raw t run raw -> raw ∈ select_valuation_raws collate run t.
Proof.
  intros (lid & line & Hl & Hrun & Hq). unfold select_valuation_raws. rewrite insertion_sort_elem.
  apply list_elem_of_omap.
  assert (Hin : line ∈ List.filter (fun l => bool_decide (vn_run l = run)) (snd <$> map_to_list (valuation_lines (sources t)))).
  { apply list_elem_of_In, filter_In. split; [|by apply bool_decide_eq_true]. apply list_elem_of_In, list_elem_of_fmap.
    exists (lid, line). split; [done|]. by apply elem_of_map_to_list. }
  destruct Hq as [(id & p & Hp & Hpr & Hr)|(id & f & Hf & Hfx & Hr)].
  - exists (pr_raw p). split; [|exact Hr]. unfold valuation_raws. apply elem_of_remove_dups, elem_of_app. left.
    apply list_elem_of_In, in_flat_map. exists line. split; [by apply list_elem_of_In|]. rewrite Hp. cbn [mbind option_bind]. rewrite Hpr. by left.
  - exists (fx_raw f). split; [|exact Hr]. unfold valuation_raws. apply elem_of_remove_dups, elem_of_app. right.
    apply list_elem_of_In, in_flat_map. exists line. split; [by apply list_elem_of_In|]. apply in_flat_map. exists id.
    split; [by apply list_elem_of_In|]. rewrite Hfx. by left.
Qed.

Lemma listed_raw_ref t run raw : raw ∈ select_valuation_raws collate run t -> raw_ref t (RawID raw) = Some raw.
Proof.
  unfold select_valuation_raws. rewrite insertion_sort_elem, list_elem_of_omap. intros (id & _ & Hr). by rewrite (raw_ref_id _ _ _ Hr).
Qed.

Lemma triple_add_all c t w acc l : collected t w acc -> Forall (fun r => raw_ref t (RawID r) = Some r) l ->
  tr c t w (fold_m (addRawDependency get) acc l) (fun acc' t' w' => t' = t /\ collected t w' acc' /\ gathers acc l acc').
Proof.
  intros Hc Hl. apply (triple_fold holds c t _ (fun pre acc' w' => collected t w' acc' /\ gathers acc pre acc')).
  2: { split; [done|]. split; [done|constructor]. }
  clear w Hc. intros pre r post acc' w -> (Hc & Hs & Hf). apply Forall_app in Hl as [_ Hl]. apply Forall_cons in Hl as [Hr _].
  eapply triple_mono; [by apply triple_add|]. intros acc2 t' w2 (-> & Hc2 & Hs2 & Hf2). split; [done|]. split; [done|].
  split; [by etransitivity|]. apply Forall_app. split; [|done]. eapply Forall_impl; [exact Hf|]. intros x Hx. by apply Hs2.
Qed.

Lemma named_elem kind l id : named kind l = [id] -> exists e, e ∈ l /\ EntryKind e = kind /\ EntryReference e = id.
Proof.
  unfold named. intros H. assert (Hin : id ∈ EntryReference <$> List.filter (fun e => bool_decide (EntryKind e = kind)) l) by (rewrite H; set_solver).
  apply list_elem_of_fmap in Hin as (e & -> & Hin). apply list_elem_of_In, filter_In in Hin as [Hin Hk].
  exists e. apply list_elem_of_In in Hin. by apply bool_decide_eq_true in Hk.
Qed.

Lemma resolved_unique_kind t account l kind id text : resolved t account l kind id text ->
  match kind with
  | "portfolio_snapshot" => exists doc, select_snapshot id account t = Ok doc
  | "valuation_run" => exists doc, select_valuation id account t = Ok doc
  | "risk_run" => exists doc, select_risk jsonb_out collate id account t = Ok doc
  | _ => True
  end.
Proof.
  intros H. destruct H as [id doc H|id doc H|id doc H Hd|id r H Hin|kind id doc r Hk H Hin]; eauto.
  repeat (apply elem_of_cons in Hk as [->|Hk]; [done|]). by apply not_elem_of_nil in Hk.
Qed.

(** The last test of the loop makes the references one bundle. *)
Lemma progress_bound t w account refs st l m : progress t account refs st w -> bound_together st = true ->
  References m = sl_entries st -> RawObjects m = l -> fst (sl_raws st) ⊆ l ->
  Forall (fun r => r ∈ l) (select_valuation_raws collate (sl_valuation st) t) -> bound t account m.
Proof.
  intros [P1 P2 P3 P4 P5 P6 P7] Hb HR Hl Hs Hq. unfold bound_together in Hb. bool_simp.
  rewrite bool_decide_false in P5 by done. destruct P6 as [[? _]|(Hv & _ & v & Hvr & Hvs)]; [done|].
  destruct P7 as [[? _]|(rid & r & Hr & Hrr & Hrs & Hrne & Hrv)]; [congruence|].
  assert (Hdoc : forall kind id, named kind (sl_entries st) = [id] -> exists text, resolved t account (fst (sl_raws st)) kind id text).
  { intros kind id (e & Hin & <- & <-)%named_elem. apply list_elem_of_lookup in Hin as [i Hi].
    destruct (Forall2_lookup_r _ _ _ _ _ P2 Hi) as (ref & _ & _ & _ & _ & He). eauto. }
  destruct (Hdoc _ _ P5) as [? Hds%resolved_unique_kind], (Hdoc _ _ Hv) as [? Hdv%resolved_unique_kind],
    (Hdoc _ _ Hr) as [? Hdr%resolved_unique_kind]. destruct Hds as [ds Hds], Hdv as [dv Hdv], Hdr as [dr Hdr].
  unfold select_snapshot in Hds. destruct (snapshots _ !! sl_snapshot st) as [p|] eqn:Ep; [|done]. case_bool_decide as Eacc; [|done].
  unfold select_valuation in Hdv. rewrite Hvr in Hdv. destruct (_ && _ && _) eqn:Ev; [|done].
  unfold select_risk in Hdr. rewrite Hrr in Hdr. destruct (scenario_versions _ !! _); [|done]. destruct (jobs _ !! _); [|done].
  destruct (_ && _ && _) eqn:Er in Hdr; [|done]. bool_simp.
  exists (sl_snapshot st), (sl_valuation st), rid, p, v, r. rewrite HR. split_and!; try done; try congruence.
  - destruct (sr_valuation r) as [vid|]; cbn in Hrv; congruence.
  - intros raw Hraw%quote_raw_listed. rewrite Hl. rewrite Forall_forall in Hq. by apply Hq.
Qed.

Lemma triple_seal c t w now decisionID accountID refs : runs_identified t ->
  tr c t w (Seal get uuid_text jsonb_out collate now decisionID accountID refs) (fun _ t' w' =>
    exists decision account id m data, canonicalUUID decisionID = Some decision /\ canonicalUUID accountID = Some account /\
      uuid_text decisionID = Some id /\ manifest_sound t w' decision account refs m /\ marshal_manifest m = Some data /\
      evidence t !! id = None /\ is_Some (decisions t !! id) /\
      t' = set_evidence t (<[id := mkEvidenceRow data (sha256_hex data) now]> (evidence t))).
Proof.
  intros Hids. unfold Seal. destruct (canonicalUUID decisionID) as [decision|] eqn:Ed; [|apply triple_throw].
  destruct (canonicalUUID accountID) as [account|] eqn:Ea; [|apply triple_throw].
  eapply triple_bind; [apply (triple_fold holds c t _ (fun pre st w' => progress t account pre st w'))|].
  { intros pre ref post st w' _ Hp. by apply triple_seal_ref. }
  { split; cbn; [split_and!; [apply NoDup_nil_2|set_solver|constructor]|constructor|apply NoDup_nil_2|set_solver|done|by left|by left]. }
  intros st t' w' [-> Hp]. destruct (bound_together st) eqn:Eb; [cbn [negb]|apply triple_throw].
  eapply triple_bind; [apply triple_wrap, (triple_query holds c t w' _ (fun rows t' w2 => t' = t /\ w2 = w' /\
    rows = select_valuation_raws collate (sl_valuation st) t)); by intros a [= <-]|].
  intros rows t' w2 (-> & -> & ->).
  eapply triple_bind; [apply triple_add_all; [apply (pg_collected _ _ _ _ _ Hp)|]|].
  { apply Forall_forall. intros r. apply listed_raw_ref. }
  intros acc t' w2 (-> & Hc & Hs & Hq). destruct (marshal_manifest _) as [data|] eqn:Em; [|apply triple_throw].
  apply triple_wrap, triple_stmt. unfold insert_evidence. destruct (uuid_text decisionID) as [id|]; [|done]. intros [] t'.
  destruct (_ && _ && _ && _ && _) eqn:E; [|done]. intros [= <-]. bool_simp.
  exists decision, account, id. eexists _, data. split; [done|]. split; [done|]. split; [done|].
  split; [|split; [exact Em|by split_and!]].
  pose proof Hc as (Hn & _ & Hf). split; cbn; try done.
  - eapply Forall2_impl; [apply (pg_entries _ _ _ _ _ Hp)|]. intros ref e. by apply entry_sound_mono.
  - apply (pg_once _ _ _ _ _ Hp).
  - by eapply progress_bound.
Qed.

(** ** Reading the manifest back *)

(** The texts of raw objects are UTF-8, as the database keeps them. *)
Definition raw_utf8 (r : RawRef) : Prop :=
  utf8_valid (RawID r) = true /\ utf8_valid (RawKey r) = true /\ utf8_valid (RawSHA256 r) = true.

Lemma ref_denotes r : raw_utf8 r -> denotes (marshal_ref r)
  (JObject [("id", JString (RawID r)); ("key", JString (RawKey r)); ("sha256", JString (RawSHA256 r))]).
Proof. intros (H1 & H2 & H3). apply denotes_object. repeat constructor; cbn; by try apply denotes_string. Qed.

Lemma decode_ref_json r : decode_ref (JObject [("id", JString (RawID r)); ("key", JString (RawKey r)); ("sha256", JString (RawSHA256 r))]) = Some r.
Proof. unfold decode_ref. decode_members. by destruct r. Qed.

Lemma entry_denotes e text : marshal_entry e = Some text -> exists j, denotes text j /\ decode_entry j = Some tt.
Proof.
  unfold marshal_entry, marshal_raw. destruct (parse_json (EntrySnapshot e)) as [j|] eqn:Ej; [|done]. intros [= <-].
  destruct (encode_denotes (EntryKind e)) as [k Hk], (encode_denotes (EntryReference e)) as [r Hr], (encode_denotes (EntryDescription e)) as [d Hd].
  pose proof (denotes_compact _ _ Ej) as Hs. case_bool_decide.
  - exists (JObject [("kind", JString k); ("reference", JString r); ("snapshot", j)]). split.
    + apply denotes_object. by repeat constructor.
    + unfold decode_entry. by decode_members.
  - exists (JObject [("kind", JString k); ("reference", JString r); ("description", JString d); ("snapshot", j)]). split.
    + apply denotes_object. by repeat constructor.
    + unfold decode_entry. by decode_members.
Qed.

Lemma decode_manifest_json a b d e refs l objects :
  is_Some (decode_list decode_entry refs) -> decode_list decode_ref l = Some objects ->
  decode_manifest (JObject [("schema_version", JString a); ("contract_version", JString b); ("decision_id", JString d);
    ("account_id", JString e); ("references", refs); ("raw_objects", l)]) = Some (d, objects).
Proof.
  intros [x Hr] Hl. unfold decode_manifest. decode_members. rewrite Hr. cbn [mbind option_bind]. decode_members. by rewrite Hl.
Qed.

Lemma manifest_read m data : plain_text (DecisionID m) = true -> Forall raw_utf8 (RawObjects m) -> marshal_manifest m = Some data ->
  parse_json data ≫= decode_manifest = Some (DecisionID m, RawObjects m).
Proof.
  intros Hd Hr Hm. unfold marshal_manifest in Hm. destruct (mapM marshal_entry (References m)) as [entries|] eqn:Ee; [|done].
  injection Hm as <-. apply mapM_Some in Ee.
  assert (Hent : exists js, Forall2 denotes entries js /\ mapM decode_entry js = Some (replicate (length entries) tt)).
  { clear Hr. induction Ee as [|e text l entries He Hl IH]; [exists []; by split|]. destruct IH as (js & Hjs & Hdec).
    destruct (entry_denotes _ _ He) as (j & Hj & Hdj). exists (j :: js). split; [by constructor|].
    cbn [mapM length replicate]. by rewrite Hdj, Hdec. }
  destruct Hent as (js & Hjs & Hdec).
  set (rs := (fun r => JObject [("id", JString (RawID r)); ("key", JString (RawKey r)); ("sha256", JString (RawSHA256 r))]) <$> RawObjects m).
  assert (Hrs : Forall2 denotes (marshal_ref <$> RawObjects m) rs /\ mapM decode_ref rs = Some (RawObjects m)).
  { subst rs. induction Hr as [|r l Hr Hl [IH1 IH2]]; [by split; [constructor|]|]. cbn [fmap list_fmap]. split.
    - constructor; [by apply ref_denotes|exact IH1].
    - cbn [mapM]. rewrite decode_ref_json. cbn [mbind option_bind]. by rewrite IH2. }
  destruct Hrs as [Hrs Hrd].
  destruct (encode_denotes (SchemaVersion m)) as [a Ha], (encode_denotes (MfContractVersion m)) as [b Hb], (encode_denotes (MfAccountID m)) as [e He].
  rewrite (denotes_parse _ (JObject [("schema_version", JString a); ("contract_version", JString b); ("decision_id", JString (DecisionID m));
    ("account_id", JString e); ("references", JArray js); ("raw_objects", JArray rs)])).
  - cbn [mbind option_bind]. apply decode_manifest_json; [|exact Hrd]. cbn [decode_list]. rewrite Hdec. by eexists.
  - apply denotes_object. repeat constructor; cbn [fst snd]; try assumption; try by apply denotes_array.
    by apply denotes_string, utf8_valid_plain.
Qed.

(** ** Reconstruction *)

(** The archive answers with what it holds. *)
Definition available (g : string -> W -> res (res string) * W) : Prop :=
  forall w key body, holds w key body -> exists w', g key w = (Ok (Ok body), w').

Lemma verify_answers t w r g : get = Some g -> available g -> stored holds w r ->
  exists w', keeps holds w w' /\ forall fs, verifyRaw get r (Db (t, w) (t, w) fs) = (Ok tt, Db (t, w') (t, w') fs).
Proof.
  intros Hg Hav (body & Hh & Hsha). destruct (Hav _ _ _ Hh) as [w' Hb]. exists w'.
  split; [exact (read_keeps (ArchiveReader := Hget g Hg) _ _ _ _ Hb)|].
  intros fs. unfold verifyRaw. rewrite Hg. unfold bind, attempt, on_archive. cbn. rewrite Hb. cbn. by rewrite bool_decide_true.
Qed.

Lemma verify_all_answers t g f l : get = Some g -> available g -> forall w, Forall (stored holds w) l ->
  exists w', keeps holds w w' /\ forall fs, iter (fun r => map_err (f r) (verifyRaw get r)) l (Db (t, w) (t, w) fs) = (Ok tt, Db (t, w') (t, w') fs).
Proof.
  intros Hg Hav. induction l as [|r l IH]; intros w Hl; [by exists w|].
  apply Forall_cons in Hl as [Hr Hl]. destruct (verify_answers t w r g Hg Hav Hr) as (w1 & Hk1 & E1).
  destruct (IH w1) as (w2 & Hk2 & E2).
  { eapply Forall_impl; [exact Hl|]. intros x. by apply stored_keeps. }
  exists w2. split; [by etransitivity|]. intros fs. cbn [iter]. unfold bind, map_err. by rewrite E1, E2.
Qed.

(** What was sealed soundly is given back as it was, as long as the archive
    answers. *)
Lemma reconstruct_sealed t w g id m data at_ : get = Some g -> available g -> canonicalUUID id = Some id -> DecisionID m = id ->
  marshal_manifest m = Some data -> Forall raw_utf8 (RawObjects m) -> Forall (stored holds w) (RawObjects m) ->
  evidence t !! id = Some (mkEvidenceRow data (sha256_hex data) at_) ->
  exists w', keeps holds w w' /\ run (Reconstruct true get id) [] (t, w) = (Ok (mkSealed data (sha256_hex data)), (t, w')).
Proof.
  intros Hg Hav Hid Hdec Hm Hu Hst Hrow. pose proof (canonical_spec _ _ Hid) as (_ & Hplain & _).
  destruct (verify_all_answers t g (fun raw _ => EWrap ("archived evidence " +:+ RawID raw) ErrIntegrity) (RawObjects m) Hg Hav w Hst)
    as (w' & Hk & Hv). exists w'. split; [exact Hk|].
  unfold run, Reconstruct. rewrite Hid. cbn [negb]. unfold bind at 1, pool_stmt, guarded, next_fault, reads, on_tables, select_evidence.
  cbn [faults committed fst snd]. rewrite Hrow. cbn [ev_bytes ev_sha]. rewrite bool_decide_true by done. cbn [negb].
  rewrite <- Hdec in Hplain. rewrite (manifest_read m data Hplain Hu Hm), Hdec, bool_decide_true by done. cbn [negb].
  unfold bind. rewrite Hv. done.
Qed.

Lemma triple_verify_all c t f l : forall pre w, Forall (stored holds w) pre ->
  tr c t w (iter (fun raw => map_err (f raw) (verifyRaw get raw)) l) (fun _ t' w' => t' = t /\ Forall (stored holds w') (pre ++ l)).
Proof.
  induction l as [|r l IH]; intros pre w Hpre; cbn [iter]; [apply triple_ret; by rewrite app_nil_r|].
  eapply triple_bind.
  - apply triple_map_err, (triple_verify_keep get holds Hget c t w (fun w => Forall (stored holds w) pre)); [|done].
    intros w1 w2 Hk Hf. eapply Forall_impl; [exact Hf|]. intros x. by apply stored_keeps.
  - intros [] t' w' (-> & Hpre' & Hr). cbn beta in *. rewrite cons_middle, app_assoc. apply IH. apply Forall_app. by repeat constructor.
Qed.

(** Whatever fails, an answer is the row as it is stored, with the digest of its
    bytes, and every raw object it names was verified again. *)
Lemma triple_reconstruct t w Pool id :
  tr t t w (Reconstruct Pool get id) (fun sealed t' w' => t' = t /\ exists c row l, canonicalUUID id = Some c /\
    evidence t !! c = Some row /\ sealed = mkSealed (ev_bytes row) (ev_sha row) /\ ev_sha row = sha256_hex (ev_bytes row) /\
    parse_json (ev_bytes row) ≫= decode_manifest = Some (c, l) /\ Forall (stored holds w') l).
Proof.
  unfold Reconstruct. destruct (canonicalUUID id) as [c|]; [|apply triple_throw]. destruct Pool; [cbn [negb]|apply triple_throw].
  eapply triple_bind; [apply (triple_pool_query holds t w _ (fun row t' w' => t' = t /\ w' = w /\ select_evidence c t = Ok row)); auto|].
  intros row t' w' (-> & -> & Hrow). destruct (negb _) eqn:Eh; [apply triple_throw|]. bool_simp.
  destruct (parse_json (ev_bytes row) ≫= decode_manifest) as [[mid l]|] eqn:Em; [|apply triple_throw].
  destruct (negb _) eqn:Ei; [apply triple_throw|]. bool_simp. subst mid.
  assert (Hrow' : evidence t !! c = Some row) by (unfold select_evidence in Hrow; destruct (evidence t !! c); congruence).
  eapply triple_bind; [by apply (triple_verify_all _ _ _ _ [])|]. intros [] t' w' [-> Hst]. apply triple_ret.
  split; [done|]. by exists c, row, l.
Qed.
End evidence.
