(* ===== verification/JournalService.v ===== *)
(** The decision journal (internal/application/journal/service.go): recording a
    decision, finalizing it with its evidence, reviews, amendments and the
    timeline.

    The store is the tables with the archive's world, as in [Evidence].  The
    UUID scanner of the driver, the casts of the database, the texts it accepts,
    the identifiers it draws, its clock and the decimal text of a non-integral
    float are parameters.  A number drawn from the timeline's sequence by a
    statement that fails is drawn again, where PostgreSQL leaves a gap. *)

From S2P Require Import Prelude GoString Digits GoTime Sha256 Decimal Order Tables Db World.
From S2P Require Import Json JsonTree JsonText JsonDecode TimeText JournalModel Evidence.
From Stdlib Require Import Ascii QArith SpecFloat.
#[local] Open Scope Z_scope.

Module JournalService.
Import Journal.

Definition ErrInvalidRequest : goerr := ENew "invalid decision journal request".
Definition ErrNotFound : goerr := ENew "decision journal resource not found".

(** A [ConflictError]; it wraps [ErrConflict], which only the HTTP layer asks
    for. *)
Definition ConflictError (code message : string) : goerr := ECode code message.

(** ** Decimals *)

Definition parseDecimal (value : string) : option Q :=
  if decimal_pattern false value then set_string (chars value) else None.

(** At most twenty integer and eighteen fractional digits. *)
Definition validPersistedDecimal (value : string) : bool :=
  decimal_pattern false value &&
  let '(i, f) := cut_char "." (chars (trim_prefix value "-")) in
  (length i <=? 20)%nat && match f with Some f => (length f <=? 18)%nat | None => true end.

Definition scaleDecimal (value : Q) : Q := default 0%Q (parseDecimal (formatDecimal value)).

(** ** Requests *)

Definition trim_ref (r : EvidenceRef) : EvidenceRef :=
  mkEvidenceRef (trim_space (Kind r)) (trim_space (RefID r)) (trim_space (Description r)).

Definition normalizeCreate (r : CreateRequest) : CreateRequest :=
  let b := CrRiskBudget r in
  mkCreateRequest (trim_space (CrAccountID r)) (trim_space (CrThesis r)) (trim_space <$> CrAlternatives r)
    (trim_ref <$> CrEvidenceReferences r) (CrInvalidationConditions r) (CrStart r) (CrEnd r)
    (mkRiskBudget (trim_space (Amount b)) (to_upper (trim_space (Currency b))) (trim_space (Measure b))
       (trim_space (BudgetHorizon b)))
    (trim_space (CrIntendedAction r)) (trim_space <$> CrTags r) (trim_space (CrAuthor r)) (CrSourceMetadata r).

Definition normalizeReview (r : ReviewRequest) : ReviewRequest :=
  mkReviewRequest (trim_space (RrReview r)) (trim_space (RrOutcome r)) (trim_space (RrAuthor r)) (RrSourceMetadata r).

Definition normalizeAmendment (r : AmendmentRequest) : AmendmentRequest :=
  mkAmendmentRequest (trim_space (ArSummary r)) (ArChanges r) (trim_space (ArAuthor r)) (ArSourceMetadata r).

Definition empty (s : string) : bool := bool_decide (s = "").

Definition validCreate (r : CreateRequest) : bool :=
  let b := CrRiskBudget r in
  negb (empty (CrAccountID r) || empty (CrThesis r) || empty (CrIntendedAction r) || empty (CrAuthor r)
        || empty (Currency b) || empty (Measure b) || empty (BudgetHorizon b)
        || negb (validPersistedDecimal (Amount b)) || bool_decide (CrInvalidationConditions r = []))
  && forallb (fun e => negb (empty (trim_space (Kind e)) || empty (trim_space (RefID e)))) (CrEvidenceReferences r)
  && forallb (fun c => negb (empty (trim_space (Condition c)))) (CrInvalidationConditions r).

(** ** Encoding *)

(** [omitempty]. *)
Definition optional_field (name value : string) : list (string * goval) :=
  if empty value then [] else [(name, VStr value)].

Definition ref_value (r : EvidenceRef) : goval :=
  VStruct ([("kind", VStr (Kind r)); ("reference", VStr (RefID r))] ++ optional_field "description" (Description r)).

Definition invalidation_value (i : Invalidation) : goval :=
  VStruct (("condition", VStr (Condition i)) :: optional_field "metric" (Metric i) ++ optional_field "threshold" (Threshold i)).

Definition budget_value (b : RiskBudget) : goval :=
  VStruct [("amount", VStr (Amount b)); ("currency", VStr (Currency b)); ("measure", VStr (Measure b));
           ("horizon", VStr (BudgetHorizon b))].

(** [Time.MarshalJSON] in the location of the stamp: an error for a year or an
    offset out of range. *)
Definition marshal_stamp (t : Stamp) : option string :=
  if Offset t =? 0 then marshal_time (At t)
  else
    local ← marshal_time (At t + Offset t * Second);
    let minutes := Z.abs (Z.quot (Offset t) 60) in
    let hours := pad_left 2 (digits (minutes / 60)) in
    if 24 <=? minutes / 60 then None
    else Some (trim_suffix local "Z" +:+ (if Z.quot (Offset t) 60 <? 0 then "-" else "+")
               +:+ of_chars hours +:+ ":" +:+ of_chars (pad_left 2 (digits (minutes mod 60)))).

Example marshal_stamp_ex :
  (marshal_stamp (mkStamp 0 (3 * 3600)), marshal_stamp (mkStamp 500000000 (- 5400)))
  = (Some "1970-01-01T03:00:00+03:00", Some "1969-12-31T22:30:00.5-01:30").
Proof. vm_compute. reflexivity. Qed.

Definition any_map (m : list (string * goval)) : goval := VMap m.

Definition creation_value (r : CreateRequest) (metadata : list (string * goval)) : option goval :=
  start ← marshal_stamp (CrStart r);
  finish ← marshal_stamp (CrEnd r);
  Some (VMap [("account_id", VStr (CrAccountID r)); ("thesis", VStr (CrThesis r));
    ("alternatives", VArr (VStr <$> CrAlternatives r));
    ("evidence_references", VArr (ref_value <$> CrEvidenceReferences r));
    ("invalidation_conditions", VArr (invalidation_value <$> CrInvalidationConditions r));
    ("horizon", VStruct [("start", VStr start); ("end", VStr finish)]);
    ("risk_budget", budget_value (CrRiskBudget r)); ("intended_action", VStr (CrIntendedAction r));
    ("tags", VArr (VStr <$> CrTags r)); ("status", VStr StatusDraft); ("author", VStr (CrAuthor r));
    ("source_metadata", any_map metadata)]).
(** ** Decoding *)

Definition decode_reference : json -> option EvidenceRef :=
  decode_struct
    [("kind", fun j r => s ← decode_string (Kind r) j; Some (mkEvidenceRef s (RefID r) (Description r)));
     ("reference", fun j r => s ← decode_string (RefID r) j; Some (mkEvidenceRef (Kind r) s (Description r)));
     ("description", fun j r => s ← decode_string (Description r) j; Some (mkEvidenceRef (Kind r) (RefID r) s))]
    (mkEvidenceRef "" "" "").

Definition decode_invalidation : json -> option Invalidation :=
  decode_struct
    [("condition", fun j r => s ← decode_string (Condition r) j; Some (mkInvalidation s (Metric r) (Threshold r)));
     ("metric", fun j r => s ← decode_string (Metric r) j; Some (mkInvalidation (Condition r) s (Threshold r)));
     ("threshold", fun j r => s ← decode_string (Threshold r) j; Some (mkInvalidation (Condition r) (Metric r) s))]
    (mkInvalidation "" "" "").

(** [_ = json.Unmarshal(text, &m)] into a map: what could be decoded stays, a
    number out of range is left nil. *)
Fixpoint drop_numbers (j : json) : json :=
  match j with
  | JNumber text => if float_ok text then j else JNull
  | JArray l => JArray (drop_numbers <$> l)
  | JObject fields => JObject ((fun kv => (fst kv, drop_numbers (snd kv))) <$> fields)
  | _ => j
  end.

Definition unmarshal_map (text : string) : metadata :=
  default ∅ (j ← parse_json text; decode_any_map (drop_numbers j)).

Section service.
Context {W : Type} (Pool : bool) (get : option (string -> W -> res (res string) * W)).
Context (scan_uuid uuid_text : string -> option string) (jsonb_in : string -> option json) (jsonb_out : json -> string).
Context (collate : string -> string -> comparison) (text_ok : string -> bool) (format_float : spec_float -> string).

Abbreviation store := (tables * W)%type.

Definition validUUID (value : string) : bool := bool_decide (is_Some (scan_uuid (trim_space value))).
Definition parseUUID (value : string) : option string := scan_uuid (trim_space value).

Definition marshal (v : goval) : option string := Marshal format_float v.

(** *** Rows *)

Definition hydrateDecision (id : string) (r : DecisionRow) : option Decision :=
  alternatives ← parse_json (jsonb_out (dc_alternatives r)) ≫= decode_list decode_text;
  refs ← parse_json (jsonb_out (dc_evidence r)) ≫= decode_list decode_reference;
  conditions ← parse_json (jsonb_out (dc_invalidation r)) ≫= decode_list decode_invalidation;
  meta ← (if empty (jsonb_out (dc_metadata r)) then Some ∅
          else parse_json (jsonb_out (dc_metadata r)) ≫= decode_any_map);
  Some (mkDecision id (dc_account r) (dc_thesis r) alternatives refs conditions
          (mkHorizon (dc_start r) (dc_end r))
          (mkRiskBudget (numeric_out (dc_amount r)) (dc_currency r) (dc_measure r) (dc_horizon r))
          (dc_action r) (dc_tags r) (dc_status r) (dc_author r) meta (dc_created r) (dc_finalized r)).

Definition decoded {A} (o : option A) : dbm store A :=
  match o with Some a => ret a | None => throw (EWrap "decode decision" (ENew "json: cannot unmarshal")) end.

Definition select_decision (id : string) (s : tables) : res DecisionRow :=
  match decisions s !! id with Some r => Ok r | None => Err ENoRows end.

(** [read] is [tx.QueryRow] or [Pool.QueryRow]. *)
Definition getDecision (read : (store -> res DecisionRow * store) -> dbm store DecisionRow) (id : string) : dbm store Decision :=
  let* row := map_err (fun e => if errors_is e ENoRows then ErrNotFound else EWrap "get decision" e)
                (read (reads (select_decision id))) in
  decoded (hydrateDecision id row).

(** *** Create *)

Definition isForeignKeyViolation (e : goerr) : bool :=
  match e with ECode code _ => bool_decide (code = "23503") | _ => false end.

Definition not_blank (s : string) : bool := text_ok s && negb (btrim_blank s).

(** The CHECK constraints of the table on the values of a new row. *)
Definition decision_checks (r : DecisionRow) : bool :=
  not_blank (dc_thesis r) && not_blank (dc_currency r) && not_blank (dc_measure r) && not_blank (dc_horizon r)
  && not_blank (dc_action r) && not_blank (dc_author r) && forallb text_ok (dc_tags r)
  && (dc_start r <? dc_end r) && (0 <=? dc_amount r)
  && match dc_alternatives r with JArray _ => true | _ => false end
  && match dc_evidence r with JArray _ => true | _ => false end
  && match dc_invalidation r with JArray (_ :: _) => true | _ => false end
  && match dc_snapshot r with JObject _ => true | _ => false end.

Definition set_sequence (s : tables) (d : gmap string DecisionRow) (v : gmap string ReviewRow) (a : gmap string AmendmentRow) : tables :=
  mkTables (sources s) d v a (evidence s) (sequence s + 1).

(** INSERT INTO decisions: a check fails before a foreign key does. *)
Definition insert_decision (id : string) (r : DecisionRow) (s : tables) : res (string * DecisionRow) * tables :=
  if negb (decision_checks r) || bool_decide (is_Some (decisions s !! id)) then (Err EDb, s)
  else if negb (bool_decide (is_Some (accounts (sources s) !! dc_account r))) then (Err (ECode "23503" "decisions"), s)
  else (Ok (id, r), set_sequence s (<[id := r]> (decisions s)) (reviews s) (amendments s)).

(** The parameters of the statement, as the database reads them. *)
Definition decision_row (now : time) (r : CreateRequest) (account : string) (amount : Q)
    (alternatives refs invalidation metadata snapshot : string) (n : Z) : option DecisionRow :=
  account ← uuid_text account;
  alternatives ← jsonb_in alternatives;
  refs ← jsonb_in refs;
  invalidation ← jsonb_in invalidation;
  metadata ← jsonb_in metadata;
  snapshot ← jsonb_in snapshot;
  amount ← numeric_in (formatDecimal amount);
  Some (mkDecisionRow account (CrThesis r) alternatives refs invalidation
          (pg_time (At (CrStart r))) (pg_time (At (CrEnd r))) amount
          (Currency (CrRiskBudget r)) (Measure (CrRiskBudget r)) (BudgetHorizon (CrRiskBudget r))
          (CrIntendedAction r) (CrTags r) StatusDraft (CrAuthor r) metadata snapshot n (pg_time now) None).

(** The texts sent with the request. *)
Definition creation_texts (r : CreateRequest) : option (string * string * string * string * string) :=
  let metadata := default [] (CrSourceMetadata r) in
  alternatives ← marshal (VArr (VStr <$> CrAlternatives r));
  refs ← marshal (VArr (ref_value <$> CrEvidenceReferences r));
  invalidation ← marshal (VArr (invalidation_value <$> CrInvalidationConditions r));
  meta ← marshal (any_map metadata);
  snapshot ← creation_value r metadata ≫= marshal;
  Some (alternatives, refs, invalidation, meta, snapshot).

Definition Create (id : string) (now : time) (request : CreateRequest) : dbm store Decision :=
  let request := normalizeCreate request in
  if negb Pool || negb (validCreate request) then throw ErrInvalidRequest
  else
    match parseDecimal (Amount (CrRiskBudget request)) with
    | None => throw ErrInvalidRequest
    | Some amount =>
        if Qnum amount <? 0 then throw ErrInvalidRequest
        else
          let amount := scaleDecimal amount in
          match parseUUID (CrAccountID request) with
          | None => throw ErrInvalidRequest
          | Some _ =>
              if negb (At (CrStart request) <? At (CrEnd request)) then throw ErrInvalidRequest
              else
                match creation_texts request with
                | None => throw ErrInvalidRequest
                | Some (alternatives, refs, invalidation, meta, snapshot) =>
                    let* row := map_err (fun e => if isForeignKeyViolation e then ErrNotFound else EWrap "create decision" e)
                      (pool_stmt (on_tables (fun s =>
                         match decision_row now request (CrAccountID request) amount alternatives refs invalidation meta
                                 snapshot (sequence s) with
                         | Some r => insert_decision id r s
                         | None => (Err EDb, s)
                         end))) in
                    decoded (hydrateDecision (fst row) (snd row))
                end
          end
    end.

Definition Get (rawID : string) : dbm store Decision :=
  match parseUUID rawID with
  | Some id => if Pool then getDecision pool_stmt id else throw ErrInvalidRequest
  | None => throw ErrInvalidRequest
  end.

(** *** Finalize *)

(** The row the UPDATE leaves. *)
Definition finalized (at_ : time) (r : DecisionRow) : DecisionRow :=
  mkDecisionRow (dc_account r) (dc_thesis r) (dc_alternatives r) (dc_evidence r) (dc_invalidation r) (dc_start r) (dc_end r)
    (dc_amount r) (dc_currency r) (dc_measure r) (dc_horizon r) (dc_action r) (dc_tags r) StatusFinalized (dc_author r)
    (dc_metadata r) (dc_snapshot r) (dc_sequence r) (dc_created r) (Some at_).

(** UPDATE decisions: the guard refuses a row that is finalized. *)
Definition finalize_row (id : string) (now : time) (s : tables) : res unit * tables :=
  match decisions s !! id with
  | None => (Ok tt, s)
  | Some r =>
      if bool_decide (dc_status r = StatusFinalized) then (Err EDb, s)
      else (Ok tt, set_decisions s (<[id := finalized (pg_time now) r]> (decisions s)))
  end.

Definition seal_failed (e : goerr) : goerr :=
  if errors_is e Evidence.ErrIncomplete || errors_is e Evidence.ErrIntegrity
  then ConflictError "EVIDENCE_INCOMPLETE" "required decision evidence is unavailable or incomplete"
  else EWrap "seal decision evidence" e.

(** [now n] is the [n]-th reading of the database's clock. *)
Definition Finalize (now : nat -> time) (rawID : string) : dbm store Decision :=
  match parseUUID rawID with
  | None => throw ErrInvalidRequest
  | Some id =>
      if negb Pool then throw ErrInvalidRequest
      else
        wrap "begin decision finalization" begin ;;;
        let* row := map_err (fun e => if errors_is e ENoRows then ErrNotFound else EWrap "lock decision" e)
                      (stmt (reads (select_decision id))) in
        if negb (bool_decide (dc_status row = StatusDraft))
        then throw (ConflictError "DECISION_IMMUTABLE" "the decision is already finalized")
        else
          let* decision := getDecision stmt id in
          map_err seal_failed
            (Evidence.Seal get uuid_text jsonb_out collate (pg_time (now 0%nat)) (ID decision) (AccountID decision)
               (EvidenceReferences decision)) ;;;
          wrap "finalize decision" (stmt (on_tables (finalize_row id (now 1%nat)))) ;;;
          let* result := getDecision stmt id in
          wrap "commit decision finalization" commit ;;;
          ret result
  end.

Definition EvidenceOf (rawID : string) : dbm store Evidence.Sealed :=
  match parseUUID rawID with
  | None => throw ErrInvalidRequest
  | Some id =>
      if negb Pool then throw ErrInvalidRequest
      else map_err (fun e => if errors_is e ENoRows then ErrNotFound else e) (Evidence.Reconstruct Pool get id)
  end.

(** *** Reviews and amendments *)

Definition insert_review (id : string) (now : time) (decision review outcome author meta : string) (s : tables)
    : res (string * ReviewRow) * tables :=
  match uuid_text decision, jsonb_in meta with
  | Some decision, Some meta =>
      if negb (bool_decide (is_Some (decisions s !! decision))) then (Err ENoRows, s)
      else
        let r := mkReviewRow decision review outcome author meta (sequence s) (pg_time now) in
        if not_blank review && not_blank outcome && not_blank author && bool_decide (reviews s !! id = None)
        then (Ok (id, r), set_sequence s (decisions s) (<[id := r]> (reviews s)) (amendments s))
        else (Err EDb, s)
  | _, _ => (Err EDb, s)
  end.

Definition AddReview (id : string) (now : time) (rawID : string) (request : ReviewRequest) : dbm store Review :=
  let request := normalizeReview request in
  if negb Pool || negb (validUUID rawID) || empty (trim_space (RrReview request))
     || empty (trim_space (RrOutcome request)) || empty (trim_space (RrAuthor request))
  then throw ErrInvalidRequest
  else
    match marshal (any_map (default [] (RrSourceMetadata request))) with
    | None => throw ErrInvalidRequest
    | Some meta =>
        let* row := map_err (fun e => if errors_is e ENoRows then ErrNotFound else EWrap "create decision review" e)
          (pool_stmt (on_tables (insert_review id now rawID (RrReview request) (RrOutcome request) (RrAuthor request) meta))) in
        let r := snd row in
        ret (mkReview (fst row) (rw_decision r) (rw_review r) (rw_outcome r) (rw_author r)
               (unmarshal_map (jsonb_out (rw_metadata r))) (rw_created r))
    end.

Definition insert_amendment (id : string) (now : time) (decision summary changes author meta : string) (s : tables)
    : res (string * AmendmentRow) * tables :=
  match uuid_text decision, jsonb_in changes, jsonb_in meta with
  | Some decision, Some changes, Some meta =>
      if negb (bool_decide (is_Some (decisions s !! decision))) then (Err ENoRows, s)
      else
        let r := mkAmendmentRow decision summary changes author meta (sequence s) (pg_time now) in
        if not_blank summary && match changes with JObject _ => true | _ => false end && not_blank author
           && bool_decide (amendments s !! id = None)
        then (Ok (id, r), set_sequence s (decisions s) (reviews s) (<[id := r]> (amendments s)))
        else (Err EDb, s)
  | _, _, _ => (Err EDb, s)
  end.

Definition AddAmendment (id : string) (now : time) (rawID : string) (request : AmendmentRequest) : dbm store Amendment :=
  let request := normalizeAmendment request in
  match ArChanges request with
  | None => throw ErrInvalidRequest
  | Some changes =>
      if negb Pool || negb (validUUID rawID) || empty (trim_space (ArSummary request))
         || empty (trim_space (ArAuthor request))
      then throw ErrInvalidRequest
      else
        match marshal (any_map changes), marshal (any_map (default [] (ArSourceMetadata request))) with
        | Some changes, Some meta =>
            let* row := map_err (fun e => if errors_is e ENoRows then ErrNotFound else EWrap "create decision amendment" e)
              (pool_stmt (on_tables (insert_amendment id now rawID (ArSummary request) changes (ArAuthor request) meta))) in
            let r := snd row in
            ret (mkAmendment (fst row) (am_decision r) (am_summary r) (unmarshal_map (jsonb_out (am_changes r))) (am_author r)
                   (unmarshal_map (jsonb_out (am_metadata r))) (am_created r))
        | _, _ => throw ErrInvalidRequest
        end
  end.

(** *** Timeline *)

(** A row of the union, with its place. *)
Record event_row : Type := mkEventRow {
  er_sequence : Z;
  er_event : TimelineEvent;
}.

Definition decision_event (id : string) (r : DecisionRow) : event_row :=
  mkEventRow (dc_sequence r) (mkTimelineEvent id id "decision" (jsonb_out (dc_snapshot r)) (dc_author r)
    (unmarshal_map (jsonb_out (dc_metadata r))) (dc_created r)).

Definition review_event (id : string) (r : ReviewRow) : event_row :=
  mkEventRow (rw_sequence r) (mkTimelineEvent id (rw_decision r) "review"
    (jsonb_out (JObject [("review", JString (rw_review r)); ("outcome", JString (rw_outcome r))])) (rw_author r)
    (unmarshal_map (jsonb_out (rw_metadata r))) (rw_created r)).

Definition amendment_event (id : string) (r : AmendmentRow) : event_row :=
  mkEventRow (am_sequence r) (mkTimelineEvent id (am_decision r) "amendment"
    (jsonb_out (JObject [("summary", JString (am_summary r)); ("changes", am_changes r)])) (am_author r)
    (unmarshal_map (jsonb_out (am_metadata r))) (am_created r)).

(** The events of a decision, in no particular order. *)
Definition events_of (id : string) (s : tables) : list event_row :=
  option_list (decision_event id <$> decisions s !! id)
  ++ ((fun kv => review_event (fst kv) (snd kv)) <$>
        List.filter (fun kv => bool_decide (rw_decision (snd kv) = id)) (map_to_list (reviews s)))
  ++ ((fun kv => amendment_event (fst kv) (snd kv)) <$>
        List.filter (fun kv => bool_decide (am_decision (snd kv) = id)) (map_to_list (amendments s))).

Definition select_events (id : string) (s : tables) : list TimelineEvent :=
  er_event <$> insertion_sort (before (asc er_sequence)) (events_of id s).

Definition Timeline (rawID : string) : dbm store DecisionTimeline :=
  match parseUUID rawID with
  | None => throw ErrInvalidRequest
  | Some id =>
      if negb Pool then throw ErrInvalidRequest
      else
        wrap "begin decision timeline snapshot" begin ;;;
        let* decision := getDecision stmt id in
        let* events := wrap "list decision timeline" (stmt (reads (fun s => Ok (select_events id s)))) in
        wrap "commit decision timeline snapshot" commit ;;;
        ret (mkTimeline decision events)
  end.
End service.

End JournalService.
