(* ===== verification/JournalEffects.v ===== *)
(** What every call on the decision journal does to the tables. *)

From S2P Require Import Prelude GoString Digits GoTime Sha256 Decimal Order Tables Db World Archive.
From S2P Require Import Json JsonTree JsonText JsonDecode TimeText JournalModel Evidence EvidenceProofs EvidenceSeal JournalService.
From Stdlib Require Import Ascii QArith.
#[local] Open Scope Z_scope.
Import Archive(ArchiveReader).
Import Journal Evidence JournalService.

(** What the driver's scanner and the database's cast make of identifiers: both
    answer the canonical text, and the cast knows it. *)
Class UuidDriver (scan_uuid uuid_text : string -> option string) : Prop := {
  scan_canonical v id : scan_uuid v = Some id -> canonicalUUID id = Some id;
  cast_id id : canonicalUUID id = Some id -> uuid_text id = Some id;
}.

(** The references a decision row holds. *)
Definition row_references (jsonb_out : json -> string) (r : DecisionRow) : option (list EvidenceRef) :=
  parse_json (jsonb_out (dc_evidence r)) ≫= decode_list decode_reference.

Section journal.
Context {W : Type} (get : option (string -> W -> res (res string) * W)).
Context (scan_uuid uuid_text : string -> option string) (jsonb_in : string -> option json) (jsonb_out : json -> string).
Context (collate : string -> string -> comparison) (text_ok : string -> bool) (format_float : SpecFloat.spec_float -> string).
Context (holds : W -> string -> string -> Prop) (Hget : forall g, get = Some g -> ArchiveReader g holds).
Context {HU : UuidDriver scan_uuid uuid_text}.

Abbreviation store := (tables * W)%type.
Abbreviation keeps := (keeps holds).

(** A change one call makes to the tables.  [edit_seal] is what [Finalize]
    commits: the row and its evidence together. *)
Inductive edit (t : tables) (w : W) : tables -> Prop :=
  | edit_none : edit t w t
  | edit_create id r : decisions t !! id = None -> decision_checks text_ok r = true -> dc_status r = StatusDraft ->
      dc_finalized r = None -> dc_sequence r = sequence t -> is_Some (accounts (sources t) !! dc_account r) ->
      edit t w (set_sequence t (<[id := r]> (decisions t)) (reviews t) (amendments t))
  | edit_seal id r account refs m data sealed_at at_ : decisions t !! id = Some r -> dc_status r = StatusDraft ->
      row_references jsonb_out r = Some refs -> evidence t !! id = None -> canonicalUUID (dc_account r) = Some account ->
      manifest_sound uuid_text jsonb_out collate holds t w id account refs m -> marshal_manifest m = Some data ->
      edit t w (set_decisions (set_evidence t (<[id := mkEvidenceRow data (sha256_hex data) sealed_at]> (evidence t)))
                  (<[id := finalized at_ r]> (decisions t)))
  | edit_review id r : reviews t !! id = None -> is_Some (decisions t !! rw_decision r) -> rw_sequence r = sequence t ->
      not_blank text_ok (rw_review r) && not_blank text_ok (rw_outcome r) && not_blank text_ok (rw_author r) = true ->
      edit t w (set_sequence t (decisions t) (<[id := r]> (reviews t)) (amendments t))
  | edit_amendment id r : amendments t !! id = None -> is_Some (decisions t !! am_decision r) -> am_sequence r = sequence t ->
      not_blank text_ok (am_summary r) && not_blank text_ok (am_author r) = true ->
      edit t w (set_sequence t (decisions t) (reviews t) (<[id := r]> (amendments t))).

(** *** Reading a decision *)

Lemma triple_get c t w id : triple holds c t w (getDecision jsonb_out stmt id) (fun d t' w' => t' = t /\ w' = w /\
  exists r, decisions t !! id = Some r /\ hydrateDecision jsonb_out id r = Some d).
Proof.
  unfold getDecision. eapply triple_bind.
  - apply triple_map_err, (triple_query holds c t w _ (fun r t' w' => t' = t /\ w' = w /\ decisions t !! id = Some r)).
    intros r Hr. unfold select_decision in Hr. destruct (decisions t !! id); [|done]. by injection Hr as ->.
  - intros r t' w' (-> & -> & Hr). unfold decoded. destruct (hydrateDecision _ _ _) as [d|] eqn:Ed; [|apply triple_throw].
    apply triple_ret. split_and!; try done. by exists r.
Qed.

Lemma hydrate_fields id r d : hydrateDecision jsonb_out id r = Some d ->
  ID d = id /\ AccountID d = dc_account r /\ row_references jsonb_out r = Some (EvidenceReferences d).
Proof.
  unfold hydrateDecision, row_references. intros H. repeat (apply bind_Some in H as (? & ? & H)). injection H as <-. by split_and!.
Qed.

(** *** Finalize *)

(** The body of the transaction up to its commit. *)
Lemma finalize_tx now rawID t w : runs_identified t ->
  tx holds t t w (Finalize true get scan_uuid uuid_text jsonb_out collate now rawID) (fun d t' w' =>
    exists id r account m data, scan_uuid (trim_space rawID) = Some id /\ decisions t !! id = Some r /\ dc_status r = StatusDraft /\
      hydrateDecision jsonb_out id (finalized (pg_time (now 1%nat)) r) = Some d /\ evidence t !! id = None /\
      canonicalUUID (dc_account r) = Some account /\
      manifest_sound uuid_text jsonb_out collate holds t w' id account (EvidenceReferences d) m /\ marshal_manifest m = Some data /\
      t' = set_decisions (set_evidence t (<[id := mkEvidenceRow data (sha256_hex data) (pg_time (now 0%nat))]> (evidence t)))
             (<[id := finalized (pg_time (now 1%nat)) r]> (decisions t))).
Proof.
  intros Hids. unfold Finalize, parseUUID. destruct (scan_uuid (trim_space rawID)) as [id|] eqn:Eid; [cbn [negb]|apply tx_throw].
  pose proof (scan_canonical _ _ Eid) as Hc. apply tx_begin.
  eapply tx_bind.
  { apply triple_map_err, (triple_query holds t t w _ (fun r t' w' => t' = t /\ w' = w /\ decisions t !! id = Some r)).
    intros r Hr. unfold select_decision in Hr. destruct (decisions t !! id); [|done]. by injection Hr as ->. }
  intros r t1 w1 _ (-> & -> & Hr). destruct (negb _) eqn:Es; [apply tx_throw|]. bool_simp.
  eapply tx_bind; [apply triple_get|]. intros d0 t1 w1 _ (-> & -> & r' & Hr' & Hd0).
  assert (r' = r) as -> by congruence. apply hydrate_fields in Hd0 as (Hd1 & Hd2 & Hd3). rewrite Hd1, Hd2.
  eapply tx_bind; [apply triple_map_err, (triple_seal get uuid_text jsonb_out collate holds Hget); exact Hids|]. cbn beta.
  intros [] t1 w1 Hk (decision & account & id' & m & data & Hdec & Hacc & Hcast & Hm & Hmar & Hev & Hdecs & ->).
  rewrite Hc in Hdec. injection Hdec as <-. rewrite (cast_id (scan_uuid := scan_uuid) _ Hc) in Hcast. injection Hcast as <-.
  eapply tx_bind; [apply triple_wrap, (triple_stmt holds t _ w1 _ (fun _ t' w' => w' = w1 /\
    t' = set_decisions (set_evidence t (<[id := mkEvidenceRow data (sha256_hex data) (pg_time (now 0%nat))]> (evidence t)))
             (<[id := finalized (pg_time (now 1%nat)) r]> (decisions t))))|].
  { intros [] t1. unfold finalize_row. cbn [decisions set_evidence]. rewrite Hr, Es, bool_decide_false by done. by intros [= <-]. }
  cbn beta. intros [] t1 w2 _ (-> & ->). eapply tx_bind; [apply triple_get|]. cbn beta.
  intros d t1 w2 _ (-> & -> & r2 & Hr2 & Hd). cbn [decisions set_decisions] in Hr2. rewrite lookup_insert_eq in Hr2. injection Hr2 as <-.
  apply tx_commit. exists id, r, account, m, data. split_and!; try done.
  apply hydrate_fields in Hd as (_ & _ & Hd). change (row_references jsonb_out (finalized (pg_time (now 1%nat)) r)) with (row_references jsonb_out r) in Hd.
  congruence.
Qed.

(** *** Create *)

(** The row a request gives. *)
Definition created (id : string) (now : time) (request : CreateRequest) (t : tables) (r : DecisionRow) : Prop :=
  let rq := normalizeCreate request in
  validCreate rq = true /\ At (CrStart rq) < At (CrEnd rq) /\ is_Some (parseUUID scan_uuid (CrAccountID rq)) /\
  (exists amount alternatives refs invalidation meta snapshot,
    parseDecimal (Amount (CrRiskBudget rq)) = Some amount /\ 0 <= Qnum amount /\
    creation_texts format_float rq = Some (alternatives, refs, invalidation, meta, snapshot) /\
    decision_row uuid_text jsonb_in now rq (CrAccountID rq) (scaleDecimal amount) alternatives refs invalidation meta snapshot
      (sequence t) = Some r) /\
  decision_checks text_ok r = true /\ decisions t !! id = None /\ is_Some (accounts (sources t) !! dc_account r).

Lemma create_decision_effect id now request fs t w res_ t' w' :
  run (Create (W := W) true scan_uuid uuid_text jsonb_in jsonb_out text_ok format_float id now request) fs (t, w) = (res_, (t', w')) ->
  w' = w /\ ((t' = t /\ is_ok res_ = false) \/
    exists r, created id now request t r /\
      t' = set_sequence t (<[id := r]> (decisions t)) (reviews t) (amendments t) /\
      forall d, res_ = Ok d <-> hydrateDecision jsonb_out id r = Some d).
Proof.
  clear collate.
  unfold Create. destruct (validCreate _) eqn:Ev; cbn [negb orb]; [|by intros [= <- <- <-]; auto].
  destruct (parseDecimal _) as [amount|] eqn:Ea; [|by intros [= <- <- <-]; auto].
  destruct (Qnum amount <? 0) eqn:Eq; [by intros [= <- <- <-]; auto|].
  destruct (parseUUID _ _) as [acc|] eqn:Eu; [|by intros [= <- <- <-]; auto].
  destruct (negb (At _ <? _)) eqn:Eh; [by intros [= <- <- <-]; auto|].
  destruct (creation_texts _ _) as [[[[[alternatives refs] invalidation] meta] snapshot]|] eqn:Ec; [|by intros [= <- <- <-]; auto].
  unfold run. set (f := on_tables _). intros H.
  assert (HR : wp (pool_stmt (S := store) f) (fun r d => match r with
      | Ok (i, r) => i = id /\ created id now request t r /\
          committed d = (set_sequence t (<[id := r]> (decisions t)) (reviews t) (amendments t), w)
      | Err _ => committed d = (t, w) end) (Db (t, w) (t, w) fs)).
  { apply wp_pool_stmt; [done| |done]. intros fs' [i r] [t1 w1] E. subst f. unfold on_tables in E. cbn [fst snd] in E.
    destruct (decision_row _ _ _ _ _ _ _ _ _ _ _ _) as [row|] eqn:Er; [|done]. unfold insert_decision in E.
    destruct (negb (decision_checks _ _) || _) eqn:E1; [done|]. destruct (negb (bool_decide _)) eqn:E2; [done|].
    injection E as <- <- <- <-. apply orb_false_iff in E1 as [E1 E3]. apply bool_decide_eq_false_1 in E3. bool_simp.
    split; [done|]. split; [|done]. split; [done|]. split; [done|]. split; [by exists acc|]. split; [|split; [done|split; [by apply eq_None_not_Some|done]]].
    exists amount, alternatives, refs, invalidation, meta, snapshot. by split_and!. }
  unfold wp in HR. unfold bind, map_err in H. destruct (pool_stmt f _) as [[[i r]|e] d]; cbn [fst snd] in *.
  - destruct HR as (-> & Hr & Hd). split; [|right; exists r; split; [done|split]];
      unfold decoded in H; destruct (hydrateDecision _ _ _) as [dd|]; injection H as <- H; rewrite Hd in H; injection H as <- <-; naive_solver.
  - injection H as <- H. rewrite HR in H. injection H as <- <-. auto.
Qed.

(** *** Reviews and amendments *)

Lemma review_tx id now rawID request t w :
  tx holds t t w (AddReview true scan_uuid uuid_text jsonb_in jsonb_out text_ok format_float id now rawID request) (fun v t' w' =>
    exists r meta, let rq := normalizeReview request in
      w' = w /\ reviews t !! id = None /\ uuid_text rawID = Some (rw_decision r) /\ is_Some (decisions t !! rw_decision r) /\
      not_blank text_ok (rw_review r) && not_blank text_ok (rw_outcome r) && not_blank text_ok (rw_author r) = true /\
      marshal format_float (any_map (default [] (RrSourceMetadata rq))) ≫= jsonb_in = Some meta /\
      r = mkReviewRow (rw_decision r) (RrReview rq) (RrOutcome rq) (RrAuthor rq) meta (sequence t) (pg_time now) /\
      t' = set_sequence t (decisions t) (<[id := r]> (reviews t)) (amendments t) /\
      v = mkReview id (rw_decision r) (rw_review r) (rw_outcome r) (rw_author r) (unmarshal_map (jsonb_out meta)) (pg_time now)).
Proof.
  unfold AddReview. destruct (_ || _); [apply tx_throw|]. destruct (marshal _ _) as [meta|] eqn:Em; [|apply tx_throw].
  apply tx_then, tx_map_err, tx_pool_stmt. intros [i r] t'. unfold insert_review.
  destruct (uuid_text rawID) as [decision|]; [|done]. destruct (jsonb_in meta) as [m|] eqn:Ej; [|done].
  destruct (negb _) eqn:Ed; [done|]. destruct (_ && _ && _ && _) eqn:Ec; [|done]. intros [= <- <- <-]. bool_simp.
  exists (mkReviewRow decision (RrReview (normalizeReview request)) (RrOutcome (normalizeReview request))
    (RrAuthor (normalizeReview request)) m (sequence t) (pg_time now)), m. split_and!; try done.
  cbn [rw_review rw_outcome rw_author]. by apply andb_true_intro; split; [apply andb_true_intro|].
Qed.

Lemma amendment_tx id now rawID request t w :
  tx holds t t w (AddAmendment true scan_uuid uuid_text jsonb_in jsonb_out text_ok format_float id now rawID request) (fun v t' w' =>
    exists r meta changes, let rq := normalizeAmendment request in
      w' = w /\ amendments t !! id = None /\ uuid_text rawID = Some (am_decision r) /\ is_Some (decisions t !! am_decision r) /\
      not_blank text_ok (am_summary r) && not_blank text_ok (am_author r) = true /\
      (x ← ArChanges rq; marshal format_float (any_map x) ≫= jsonb_in) = Some changes /\
      marshal format_float (any_map (default [] (ArSourceMetadata rq))) ≫= jsonb_in = Some meta /\
      r = mkAmendmentRow (am_decision r) (ArSummary rq) changes (ArAuthor rq) meta (sequence t) (pg_time now) /\
      t' = set_sequence t (decisions t) (reviews t) (<[id := r]> (amendments t)) /\
      v = mkAmendment id (am_decision r) (am_summary r) (unmarshal_map (jsonb_out changes)) (am_author r)
            (unmarshal_map (jsonb_out meta)) (pg_time now)).
Proof.
  unfold AddAmendment. destruct (ArChanges (normalizeAmendment request)) as [changes|] eqn:Ech; [|apply tx_throw].
  destruct (_ || _); [apply tx_throw|]. destruct (marshal _ (any_map changes)) as [ch|] eqn:Em1; [|apply tx_throw].
  destruct (marshal _ (any_map (default [] _))) as [meta|] eqn:Em; [|apply tx_throw].
  apply tx_then, tx_map_err, tx_pool_stmt. intros [i r] t'. unfold insert_amendment.
  destruct (uuid_text rawID) as [decision|]; [|done]. destruct (jsonb_in ch) as [c|] eqn:Ec; [|done].
  destruct (jsonb_in meta) as [m|] eqn:Ej; [|done].
  destruct (negb _) eqn:Ed; [done|]. destruct (_ && _ && _ && _) eqn:Eb; [|done]. intros [= <- <- <-]. bool_simp.
  exists (mkAmendmentRow decision (ArSummary (normalizeAmendment request)) c (ArAuthor (normalizeAmendment request)) m
    (sequence t) (pg_time now)), m, c. cbn [mbind option_bind]. rewrite Em1. split_and!; try done.
  cbn [am_summary am_author]. by apply andb_true_intro.
Qed.

(** *** Reading *)

Lemma evidence_tx rawID t w :
  tx holds t t w (EvidenceOf true get scan_uuid rawID) (fun sealed t' w' => t' = t /\ exists id row,
    scan_uuid (trim_space rawID) = Some id /\ evidence t !! id = Some row /\ sealed = mkSealed (ev_bytes row) (ev_sha row)).
Proof.
  unfold EvidenceOf, parseUUID. destruct (scan_uuid (trim_space rawID)) as [id|] eqn:Eid; [cbn [negb]|apply tx_throw].
  apply tx_map_err. eapply tx_mono; [apply tx_reads, (triple_reconstruct get holds Hget)|].
  intros sealed t' w' (-> & _ & -> & c & row & l & Hc & Hrow & -> & _). split; [done|]. exists id, row.
  rewrite (scan_canonical _ _ Eid) in Hc. injection Hc as <-. done.
Qed.

Lemma get_tx rawID t w :
  tx holds t t w (Get true scan_uuid jsonb_out rawID) (fun d t' w' => t' = t /\ exists id r,
    scan_uuid (trim_space rawID) = Some id /\ decisions t !! id = Some r /\ hydrateDecision jsonb_out id r = Some d).
Proof.
  unfold Get, parseUUID. destruct (scan_uuid (trim_space rawID)) as [id|] eqn:Eid; [|apply tx_throw].
  eapply tx_mono; [apply (tx_reads holds t w _ (fun d _ _ => exists r, decisions t !! id = Some r /\ hydrateDecision jsonb_out id r = Some d))|].
  - unfold getDecision. eapply triple_bind.
    + apply triple_map_err, (triple_pool_query holds t w _ (fun r t' w' => t' = t /\ w' = w /\ decisions t !! id = Some r)).
      intros r Hr. unfold select_decision in Hr. destruct (decisions t !! id); [|done]. by injection Hr as ->.
    + intros r t' w' (-> & -> & Hr). unfold decoded. destruct (hydrateDecision _ _ _) as [d|] eqn:Ed; [|apply triple_throw].
      apply triple_ret. by exists r.
  - intros d t' w' (-> & _ & r & Hr & Hd). split; [done|]. by exists id, r.
Qed.

Lemma timeline_tx rawID t w :
  tx holds t t w (Timeline true scan_uuid jsonb_out rawID) (fun tl t' w' => t' = t /\ exists id r,
    scan_uuid (trim_space rawID) = Some id /\ decisions t !! id = Some r /\
    hydrateDecision jsonb_out id r = Some (TlDecision tl) /\ TlEvents tl = select_events jsonb_out id t).
Proof.
  unfold Timeline, parseUUID. destruct (scan_uuid (trim_space rawID)) as [id|] eqn:Eid; [cbn [negb]|apply tx_throw]. apply tx_begin.
  eapply tx_bind; [apply triple_get|]. intros d t1 w1 _ (-> & -> & r & Hr & Hd).
  eapply tx_bind; [apply triple_wrap, (triple_query holds t t w _ (fun l t' w' => t' = t /\ l = select_events jsonb_out id t)); by intros l [= <-]|].
  cbn beta. intros l t1 w1 _ (-> & ->). apply tx_commit. split; [done|]. by exists id, r.
Qed.
End journal.
