(* ===== verification/JournalSafety.v ===== *)
(** The decision journal over any history of its calls: the tables stay well
    formed, a timeline only grows, and what was sealed is given back. *)

From S2P Require Import Prelude GoString Digits GoTime Sha256 Decimal Order Paging Tables Db World Archive.
From S2P Require Import Json JsonTree JsonText JsonDecode TimeText JournalModel Evidence EvidenceProofs EvidenceSeal JournalService JournalEffects.
From Stdlib Require Import Ascii QArith.
#[local] Open Scope Z_scope.
Import Archive(ArchiveReader).
Import Journal Evidence JournalService.

(** What the rest of the system keeps of its tables: the snapshot of a run is
    named, and texts are UTF-8. *)
Definition sources_ok (s : source_tables) : Prop :=
  (forall id r, scenario_runs s !! id = Some r -> sr_snapshot r <> "") /\
  (forall id r, raw_objects s !! id = Some r -> raw_utf8 (mkRawRef id (ro_key r) (ro_sha r))).

Definition with_sources (s : source_tables) (t : tables) : tables :=
  mkTables s (decisions t) (reviews t) (amendments t) (evidence t) (sequence t).

(** The rows that have a place in the timeline, and their numbers. *)
Inductive kind_of_row : Set := DecisionKind | ReviewKind | AmendmentKind.

Definition place (t : tables) (k : kind_of_row) (id : string) : option Z :=
  match k with
  | DecisionKind => dc_sequence <$> decisions t !! id
  | ReviewKind => rw_sequence <$> reviews t !! id
  | AmendmentKind => am_sequence <$> amendments t !! id
  end.

Section journal.
Context {W : Type} (get : option (string -> W -> res (res string) * W)).
Context (scan_uuid uuid_text : string -> option string) (jsonb_in : string -> option json) (jsonb_out : json -> string).
Context (collate : string -> string -> comparison) (text_ok : string -> bool) (format_float : SpecFloat.spec_float -> string).
Context (holds : W -> string -> string -> Prop).

Abbreviation store := (tables * W)%type.
Abbreviation keeps := (keeps holds).

(** One call, whatever fails and whatever the request, or work of the rest of
    the system on what the journal reads. *)
Inductive step : store -> store -> Prop :=
  | step_create id now request fs s :
      step s (snd (run (Create true scan_uuid uuid_text jsonb_in jsonb_out text_ok format_float id now request) fs s))
  | step_finalize now rawID fs s :
      step s (snd (run (Finalize true get scan_uuid uuid_text jsonb_out collate now rawID) fs s))
  | step_review id now rawID request fs s :
      step s (snd (run (AddReview true scan_uuid uuid_text jsonb_in jsonb_out text_ok format_float id now rawID request) fs s))
  | step_amendment id now rawID request fs s :
      step s (snd (run (AddAmendment true scan_uuid uuid_text jsonb_in jsonb_out text_ok format_float id now rawID request) fs s))
  | step_get rawID fs s : step s (snd (run (Get true scan_uuid jsonb_out rawID) fs s))
  | step_timeline rawID fs s : step s (snd (run (Timeline true scan_uuid jsonb_out rawID) fs s))
  | step_evidence rawID fs s : step s (snd (run (EvidenceOf true get scan_uuid rawID) fs s))
  | step_outside sources w t w' : sources_ok sources -> keeps w w' -> step (t, w) (with_sources sources t, w').

Definition steps : store -> store -> Prop := rtc step.

(** The manifest behind an evidence row: it names the decision, its references
    in order, and raw objects the archive holds. *)
Definition sealed (w : W) (id : string) (r : DecisionRow) (e : EvidenceRow) : Prop :=
  exists m refs, marshal_manifest m = Some (ev_bytes e) /\ ev_sha e = sha256_hex (ev_bytes e) /\ DecisionID m = id /\
    row_references jsonb_out r = Some refs /\
    Forall2 (fun ref entry => EntryKind entry = Kind ref /\ canonicalUUID (RefID ref) = Some (EntryReference entry) /\
      EntryDescription entry = Description ref) refs (References m) /\
    Forall raw_utf8 (RawObjects m) /\ Forall (stored holds w) (RawObjects m).

Definition row_ok (t : tables) (w : W) (id : string) (r : DecisionRow) : Prop :=
  decision_checks text_ok r = true /\
  ((dc_status r = StatusDraft /\ dc_finalized r = None /\ evidence t !! id = None) \/
   (dc_status r = StatusFinalized /\ is_Some (dc_finalized r) /\ exists e, evidence t !! id = Some e /\ sealed w id r e)).

Record journal_ok (s : store) : Prop := {
  ok_sources : sources_ok (sources (fst s));
  ok_decisions id r : decisions (fst s) !! id = Some r -> row_ok (fst s) (snd s) id r;
  ok_evidence id e : evidence (fst s) !! id = Some e -> is_Some (decisions (fst s) !! id);
  ok_reviews id r : reviews (fst s) !! id = Some r -> is_Some (decisions (fst s) !! rw_decision r) /\
    not_blank text_ok (rw_review r) && not_blank text_ok (rw_outcome r) && not_blank text_ok (rw_author r) = true;
  ok_amendments id r : amendments (fst s) !! id = Some r -> is_Some (decisions (fst s) !! am_decision r) /\
    not_blank text_ok (am_summary r) && not_blank text_ok (am_author r) = true;
  ok_below k id n : place (fst s) k id = Some n -> n < sequence (fst s);
  ok_places k1 id1 k2 id2 n : place (fst s) k1 id1 = Some n -> place (fst s) k2 id2 = Some n -> k1 = k2 /\ id1 = id2;
}.

Lemma sealed_keeps w w' id r e : keeps w w' -> sealed w id r e -> sealed w' id r e.
Proof.
  intros Hk (m & refs & H1 & H2 & H3 & H4 & H5 & H6 & H7). exists m, refs. split_and!; try done.
  eapply Forall_impl; [exact H7|]. intros x. by apply stored_keeps.
Qed.

Lemma ok_keeps t w w' : keeps w w' -> journal_ok (t, w) -> journal_ok (t, w').
Proof.
  intros Hk [H1 H2 H3 H4 H5 H6 H7]. split; try done. intros id r Hr. destruct (H2 id r Hr) as [Hc Hs]. split; [done|].
  destruct Hs as [Hs|(Hf & Ha & e & He & Hse)]; [by left|right]. split; [done|]. split; [done|]. exists e. split; [done|].
  by eapply sealed_keeps.
Qed.

(** A row with a fresh number joins the timeline. *)
Lemma places_fresh t t' k0 id0 : (forall k id n, place t k id = Some n -> n < sequence t) ->
  (forall k1 id1 k2 id2 n, place t k1 id1 = Some n -> place t k2 id2 = Some n -> k1 = k2 /\ id1 = id2) ->
  (forall k id n, place t' k id = Some n -> (k = k0 /\ id = id0 /\ n = sequence t) \/ place t k id = Some n) ->
  sequence t' = sequence t + 1 ->
  (forall k id n, place t' k id = Some n -> n < sequence t') /\
  (forall k1 id1 k2 id2 n, place t' k1 id1 = Some n -> place t' k2 id2 = Some n -> k1 = k2 /\ id1 = id2).
Proof.
  intros Hb Hp Ho Hs. split.
  - intros k id n [(-> & -> & ->)|Hn]%Ho; [lia|]. apply Hb in Hn. lia.
  - intros k1 id1 k2 id2 n [(-> & -> & ->)|H1]%Ho [(-> & -> & Hn)|H2]%Ho; [done| | |by eapply Hp].
    + apply Hb in H2. lia.
    + subst n. apply Hb in H1. lia.
Qed.

Abbreviation edit := (edit uuid_text jsonb_out collate text_ok holds).

Lemma sound_sealed t w id account refs m data r at_ : sources_ok (sources t) ->
  manifest_sound uuid_text jsonb_out collate holds t w id account refs m -> marshal_manifest m = Some data ->
  row_references jsonb_out r = Some refs -> sealed w id r (mkEvidenceRow data (sha256_hex data) at_).
Proof.
  intros [_ Hu] [_ [Hid _] He _ _ _ Hr] Hm Href. exists m, refs. split_and!; try done.
  - eapply Forall2_impl; [exact He|]. intros ref entry (H1 & H2 & H3 & _). done.
  - eapply Forall_impl; [exact Hr|]. intros raw [H _]. unfold raw_ref in H. destruct (raw_objects _ !! _) as [x|] eqn:Ex; [|done].
    apply Hu in Ex. injection H as H. by rewrite H in Ex.
  - eapply Forall_impl; [exact Hr|]. by intros raw [_ H].
Qed.

(** The places after an insertion. *)
Ltac place_cases Hs :=
  intros k i n; unfold place; destruct k; cbn [set_sequence decisions reviews amendments]; try (by right);
  rewrite fmap_Some; setoid_rewrite lookup_insert_Some;
  intros (x & [[-> ->]|[Hne Hx]] & ->); [left; by rewrite Hs|right; by rewrite Hx].

Lemma ok_created t w id r : journal_ok (t, w) -> decisions t !! id = None -> decision_checks text_ok r = true ->
  dc_status r = StatusDraft -> dc_finalized r = None -> dc_sequence r = sequence t ->
  journal_ok (set_sequence t (<[id := r]> (decisions t)) (reviews t) (amendments t), w).
Proof.
  intros [H1 H2 H3 H4 H5 H6 H7] Hn Hc Hst Hf Hs. cbn [fst snd] in *.
  set (t' := set_sequence _ _ _ _). destruct (places_fresh t t' DecisionKind id H6 H7) as [P1 P2]; [subst t'; place_cases Hs|done|].
  split; try done; cbn [fst snd t' set_sequence decisions reviews amendments evidence].
  - intros i x [[<- <-]|[_ Hx]]%lookup_insert_Some; [|by apply H2]. split; [done|]. left. split_and!; [done..|].
    apply eq_None_not_Some. intros [e [y Hy]%H3]. congruence.
  - intros i e Hi. apply lookup_insert_is_Some'. right. by eapply H3.
  - intros i x Hx. apply H4 in Hx as [Hx ?]. split; [|done]. apply lookup_insert_is_Some'. by right.
  - intros i x Hx. apply H5 in Hx as [Hx ?]. split; [|done]. apply lookup_insert_is_Some'. by right.
Qed.

Lemma ok_sealed t w id r e at_ : journal_ok (t, w) -> decisions t !! id = Some r -> sealed w id r e ->
  journal_ok (set_decisions (set_evidence t (<[id := e]> (evidence t))) (<[id := finalized at_ r]> (decisions t)), w).
Proof.
  intros [H1 H2 H3 H4 H5 H6 H7] Hr Hse. cbn [fst snd] in *. set (t' := set_decisions _ _).
  assert (Hp : forall k i, place t' k i = place t k i).
  { intros [] i; try done. cbn. destruct (decide (i = id)) as [->|Hne]; [by rewrite lookup_insert_eq, Hr|by rewrite lookup_insert_ne]. }
  split; cbn [fst snd t' set_decisions set_evidence decisions reviews amendments evidence sources sequence]; try done.
  - intros i x [[<- <-]|[Hne Hx]]%lookup_insert_Some.
    + destruct (H2 id r Hr) as [Hc _]. split; [exact Hc|]. right. split; [done|]. split; [by eexists|]. exists e.
      cbn [evidence set_decisions set_evidence t']. by rewrite lookup_insert_eq.
    + destruct (H2 i x Hx) as [Hc Hs]. split; [done|]. cbn [evidence set_decisions set_evidence t']. by rewrite lookup_insert_ne.
  - intros i x [[<- <-]|[Hne Hx]]%lookup_insert_Some; apply lookup_insert_is_Some'; [by left|right; by eapply H3].
  - intros i x Hx. apply H4 in Hx as [Hx ?]. split; [|done]. apply lookup_insert_is_Some'. by right.
  - intros i x Hx. apply H5 in Hx as [Hx ?]. split; [|done]. apply lookup_insert_is_Some'. by right.
  - intros k i n. rewrite Hp. apply H6.
  - intros k1 i1 k2 i2 n. rewrite !Hp. apply H7.
Qed.

Lemma edit_ok t w t' : journal_ok (t, w) -> edit t w t' -> journal_ok (t', w).
Proof.
  intros Hok He.
  destruct He as [|id r Hn Hc Hst Hf Hs _|id r account refs m data at1 at2 Hr Hst Href Hev _ Hm Hmar|id r Hn Hd Hs Ht|id r Hn Hd Hs Ht].
  - done.
  - by apply ok_created.
  - apply ok_sealed; [done..|]. eapply sound_sealed; [exact (ok_sources _ Hok)|done..].
  - destruct Hok as [H1 H2 H3 H4 H5 H6 H7]. cbn [fst snd] in *. set (t' := set_sequence _ _ _ _).
    destruct (places_fresh t t' ReviewKind id H6 H7) as [P1 P2]; [subst t'; place_cases Hs|done|].
    split; try done; cbn [fst snd t' set_sequence decisions reviews amendments evidence].
    intros i x [[<- <-]|[_ Hx]]%lookup_insert_Some; [done|by eapply H4].
  - destruct Hok as [H1 H2 H3 H4 H5 H6 H7]. cbn [fst snd] in *. set (t' := set_sequence _ _ _ _).
    destruct (places_fresh t t' AmendmentKind id H6 H7) as [P1 P2]; [subst t'; place_cases Hs|done|].
    split; try done; cbn [fst snd t' set_sequence decisions reviews amendments evidence].
    intros i x [[<- <-]|[_ Hx]]%lookup_insert_Some; [done|by eapply H5].
Qed.

(** ** What a history keeps *)

(** A decision row only goes from draft to finalized. *)
Definition settles (r r' : DecisionRow) : Prop :=
  r' = r \/ (dc_status r = StatusDraft /\ exists at_, r' = finalized at_ r).

(** Rows stay, a decision's but for its finalization; new ones come after. *)
Record evolves (t t' : tables) : Prop := {
  ev_decisions id r : decisions t !! id = Some r -> exists r', decisions t' !! id = Some r' /\ settles r r';
  ev_reviews : reviews t ⊆ reviews t';
  ev_amendments : amendments t ⊆ amendments t';
  ev_evidence : evidence t ⊆ evidence t';
  ev_sequence : sequence t <= sequence t';
  ev_new k id n : place t' k id = Some n -> place t k id = None -> sequence t <= n;
}.

Lemma settles_status r r' : settles r r' -> dc_status r = StatusFinalized -> r' = r.
Proof. intros [->|[Hd _]] Hf; [done|]. by rewrite Hd in Hf. Qed.

Lemma settles_trans r1 r2 r3 : settles r1 r2 -> settles r2 r3 -> settles r1 r3.
Proof.
  intros [->|[Hd [at_ ->]]] H; [done|]. right. split; [done|]. exists at_. by eapply settles_status.
Qed.

Lemma settles_sequence r r' : settles r r' -> dc_sequence r' = dc_sequence r.
Proof. by intros [->|[_ [at_ ->]]]. Qed.

#[export] Instance evolves_refl : Reflexive evolves.
Proof.
  intros t. split; try done.
  - intros id r Hr. exists r. split; [done|by left].
  - intros k id n H1 H2. congruence.
Qed.

Lemma evolves_place t t' k id n : evolves t t' -> place t k id = Some n -> place t' k id = Some n.
Proof.
  intros H. destruct k; cbn; rewrite !fmap_Some.
  - intros (r & Hr & ->). destruct (ev_decisions _ _ H _ _ Hr) as (r' & Hr' & Hs). exists r'. split; [done|]. by rewrite (settles_sequence _ _ Hs).
  - intros (r & Hr & ->). exists r. split; [|done]. eapply lookup_weaken; [done|apply (ev_reviews _ _ H)].
  - intros (r & Hr & ->). exists r. split; [|done]. eapply lookup_weaken; [done|apply (ev_amendments _ _ H)].
Qed.

#[export] Instance evolves_trans : Transitive evolves.
Proof.
  intros t1 t2 t3 H1 H2. split.
  - intros id r Hr. destruct (ev_decisions _ _ H1 _ _ Hr) as (r2 & Hr2 & Hs2). destruct (ev_decisions _ _ H2 _ _ Hr2) as (r3 & Hr3 & Hs3).
    exists r3. split; [done|]. by eapply settles_trans.
  - etransitivity; [apply (ev_reviews _ _ H1)|apply (ev_reviews _ _ H2)].
  - etransitivity; [apply (ev_amendments _ _ H1)|apply (ev_amendments _ _ H2)].
  - etransitivity; [apply (ev_evidence _ _ H1)|apply (ev_evidence _ _ H2)].
  - pose proof (ev_sequence _ _ H1). pose proof (ev_sequence _ _ H2). lia.
  - intros k id n Hn Hno. destruct (place t2 k id) as [n2|] eqn:E2.
    + pose proof (evolves_place _ _ _ _ _ H2 E2). assert (n2 = n) as -> by congruence. by eapply (ev_new _ _ H1).
    + pose proof (ev_new _ _ H2 _ _ _ Hn E2). pose proof (ev_sequence _ _ H1). lia.
Qed.

(** A row under a new key, with the next number. *)
Ltac fresh_row Hs :=
  intros k i n; unfold place; destruct k; cbn [set_sequence decisions reviews amendments]; try congruence;
  rewrite fmap_Some, fmap_None; setoid_rewrite lookup_insert_Some;
  intros (x & [[-> ->]|[Hne Hx]] & ->) Hno; [rewrite Hs; lia|congruence].

Lemma edit_evolves t w t' : journal_ok (t, w) -> edit t w t' -> evolves t t'.
Proof.
  intros Hok He.
  destruct He as [|id r Hn Hc Hst Hf Hs _|id r account refs m data at1 at2 Hr Hst Href Hev _ Hm Hmar|id r Hn Hd Hs Ht|id r Hn Hd Hs Ht];
    [done|split; cbn [set_sequence decisions reviews amendments evidence sequence]; try done; try lia..].
  - intros i x Hx. exists x. split; [|by left]. rewrite lookup_insert_ne; [done|]. intros ->. congruence.
  - fresh_row Hs.
  - intros i x Hx. cbn [set_decisions decisions]. destruct (decide (i = id)) as [->|Hne].
    + rewrite lookup_insert_eq. assert (x = r) as -> by congruence. eexists. split; [done|]. right. split; [done|]. by eexists.
    + rewrite lookup_insert_ne by done. exists x. split; [done|by left].
  - cbn [evidence set_decisions set_evidence]. by apply insert_subseteq.
  - intros k i n Hp Hno. destruct k; cbn in *; [|congruence..]. apply fmap_Some in Hp as (x & Hx & ->). apply fmap_None in Hno.
    apply lookup_insert_Some in Hx as [[<- _]|[_ Hx]]; congruence.
  - intros i x Hx. exists x. split; [done|by left].
  - by apply insert_subseteq.
  - fresh_row Hs.
  - intros i x Hx. exists x. split; [done|by left].
  - by apply insert_subseteq.
  - fresh_row Hs.
Qed.

(** ** The timeline *)

Lemma NoDup_rows {R E} (f : string * R -> E) (key : E -> string) p (m : gmap string R) :
  (forall i r, key (f (i, r)) = i) -> NoDup (f <$> List.filter p (map_to_list m)).
Proof.
  intros Hk. apply NoDup_fmap_2_strong.
  - intros [i r] [j q] [Hi _]%filter_elem [Hj _]%filter_elem He. assert (i = j) as <- by (rewrite <- (Hk i r), <- (Hk j q); congruence).
    apply elem_of_map_to_list in Hi, Hj. congruence.
  - apply NoDup_ListNoDup, List.NoDup_filter, NoDup_ListNoDup, NoDup_map_to_list.
Qed.

Lemma option_list_elem {A} (o : option A) x : x ∈ option_list o <-> o = Some x.
Proof. destruct o as [y|]; cbn; [rewrite list_elem_of_singleton; split; congruence|split; [set_solver|done]]. Qed.

Lemma events_elem id t e : e ∈ events_of jsonb_out id t <->
  (exists r, decisions t !! id = Some r /\ e = decision_event jsonb_out id r) \/
  (exists i r, reviews t !! i = Some r /\ rw_decision r = id /\ e = review_event jsonb_out i r) \/
  (exists i r, amendments t !! i = Some r /\ am_decision r = id /\ e = amendment_event jsonb_out i r).
Proof.
  unfold events_of. rewrite !elem_of_app, option_list_elem, fmap_Some, !list_elem_of_fmap. setoid_rewrite filter_elem.
  split.
  - intros [H|[([i r] & -> & [Hi Hr])|([i r] & -> & [Hi Hr])]]; [by left; destruct H as (r & ? & ?); exists r|right; left|right; right];
      exists i, r; apply bool_decide_eq_true_1 in Hr; by apply elem_of_map_to_list in Hi.
  - intros [(r & Hr & ->)|[(i & r & Hi & Hr & ->)|(i & r & Hi & Hr & ->)]]; [by left; exists r|right; left|right; right];
      exists (i, r); (split; [done|]); (split; [by apply elem_of_map_to_list|by apply bool_decide_eq_true_2]).
Qed.

Lemma events_nodup id t : NoDup (events_of jsonb_out id t).
Proof.
  unfold events_of. apply NoDup_app. split; [|split].
  - destruct (decisions t !! id); [apply NoDup_singleton|apply NoDup_nil_2].
  - intros e He Hin. apply option_list_elem, fmap_Some in He as (r & _ & ->).
    apply elem_of_app in Hin as [([i x] & H & _)%list_elem_of_fmap|([i x] & H & _)%list_elem_of_fmap]; discriminate H.
  - apply NoDup_app. split; [|split].
    + by apply (NoDup_rows _ (fun e => EvID (er_event e))).
    + intros e ([i x] & -> & _)%list_elem_of_fmap ([j y] & H & _)%list_elem_of_fmap. discriminate H.
    + by apply (NoDup_rows _ (fun e => EvID (er_event e))).
Qed.

(** Where an event of a decision stands. *)
Lemma event_place id t e : e ∈ events_of jsonb_out id t -> exists k i, place t k i = Some (er_sequence e) /\
  match k with
  | DecisionKind => exists r, decisions t !! i = Some r /\ i = id /\ e = decision_event jsonb_out id r
  | ReviewKind => exists r, reviews t !! i = Some r /\ rw_decision r = id /\ e = review_event jsonb_out i r
  | AmendmentKind => exists r, amendments t !! i = Some r /\ am_decision r = id /\ e = amendment_event jsonb_out i r
  end.
Proof.
  intros [(r & Hr & ->)|[(i & r & Hi & Hr & ->)|(i & r & Hi & Hr & ->)]]%events_elem.
  - exists DecisionKind, id. cbn. rewrite Hr. split; [done|]. by exists r.
  - exists ReviewKind, i. cbn. rewrite Hi. split; [done|]. by exists r.
  - exists AmendmentKind, i. cbn. rewrite Hi. split; [done|]. by exists r.
Qed.

Lemma events_total id t w : journal_ok (t, w) -> total_on (asc er_sequence) (events_of jsonb_out id t).
Proof.
  intros Hok x y (k1 & i1 & P1 & H1)%event_place (k2 & i2 & P2 & H2)%event_place Hc.
  unfold asc in Hc. apply Z.compare_eq in Hc. rewrite Hc in P1.
  destruct (ok_places _ Hok _ _ _ _ _ P1 P2) as [<- <-].
  destruct k1; destruct H1 as (r & Hr & _ & ->), H2 as (r2 & Hr2 & _ & ->); congruence.
Qed.

(** The events a decision had are those with the numbers drawn before. *)
Lemma events_kept id t t' w : journal_ok (t, w) -> evolves t t' ->
  events_of jsonb_out id t ≡ₚ List.filter (fun e => er_sequence e <? sequence t) (events_of jsonb_out id t') \/
  decisions t !! id = None.
Proof.
  intros Hok Hev. destruct (decisions t !! id) as [r0|] eqn:E0; [left|by right].
  apply NoDup_Permutation; [apply events_nodup|apply NoDup_ListNoDup, List.NoDup_filter, NoDup_ListNoDup, events_nodup|].
  intros e. rewrite filter_elem. split.
  - intros He. pose proof (event_place _ _ _ He) as (k & i & Hp & _). apply (ok_below _ Hok) in Hp. cbn in Hp.
    split; [|lia]. apply events_elem. apply events_elem in He as [(r & Hr & ->)|[(i' & r & Hi & Hr & ->)|(i' & r & Hi & Hr & ->)]].
    + left. destruct (ev_decisions _ _ Hev _ _ Hr) as (r' & Hr' & Hs). exists r'. split; [done|]. by destruct Hs as [->|[_ [at_ ->]]].
    + right; left. exists i', r. split; [eapply lookup_weaken; [done|apply (ev_reviews _ _ Hev)]|done].
    + right; right. exists i', r. split; [eapply lookup_weaken; [done|apply (ev_amendments _ _ Hev)]|done].
  - intros [He Hlt]. apply event_place in He as (k & i & Hp & H). destruct (place t k i) as [n|] eqn:En.
    2: { apply (ev_new _ _ Hev) in Hp; [lia|done]. }
    apply events_elem. destruct k; cbn in En; apply fmap_Some in En as (x & Hx & _); destruct H as (r & Hr & Hd & ->).
    + left. subst i. exists x. split; [done|]. destruct (ev_decisions _ _ Hev _ _ Hx) as (r' & Hr' & Hs).
      assert (r' = r) as -> by congruence. by destruct Hs as [->|[_ [at_ ->]]].
    + right; left. exists i, x. pose proof (lookup_weaken _ _ _ _ Hx (ev_reviews _ _ Hev)). assert (x = r) as -> by congruence. done.
    + right; right. exists i, x. pose proof (lookup_weaken _ _ _ _ Hx (ev_amendments _ _ Hev)). assert (x = r) as -> by congruence. done.
Qed.

(** Sorted rows split at a bound of their key. *)
Lemma sorted_split {A} (key : A -> Z) n l : StronglySorted (below (before (asc key))) l ->
  exists rest, l = List.filter (fun x => key x <? n) l ++ rest.
Proof.
  induction 1 as [|x l Hs [rest IH] HF]; [by exists []|]. cbn [List.filter]. destruct (key x <? n) eqn:E.
  - exists rest. cbn [app]. by f_equal.
  - exists (x :: l). replace (List.filter (fun x => key x <? n) l) with (@nil A); [done|].
    clear IH. induction HF as [|y l Hy HF IH]; [done|]. cbn [List.filter].
    assert (key x <= key y) by (unfold below, before, asc in Hy; destruct (key y ?= key x) eqn:Ec; [apply Z.compare_eq in Ec; lia|done|apply Z.compare_gt_iff in Ec; lia]).
    replace (key y <? n) with false by lia. apply IH. by inversion Hs.
Qed.

Lemma timeline_prefix id t t' w w' r : journal_ok (t, w) -> journal_ok (t', w') -> evolves t t' -> decisions t !! id = Some r ->
  exists later, select_events jsonb_out id t' = select_events jsonb_out id t ++ later.
Proof.
  intros Hok Hok' Hev Hr. destruct (events_kept id t t' w Hok Hev) as [Hp|Hn]; [|congruence].
  destruct (sorted_split er_sequence (sequence t) (insertion_sort (before (asc er_sequence)) (events_of jsonb_out id t'))) as [rest Hrest].
  { apply (sort_sorted (asc er_sequence)). }
  exists (er_event <$> rest). unfold select_events. rewrite Hrest, fmap_app. f_equal. f_equal.
  rewrite <- (sort_filter (asc er_sequence)) by exact (events_total id t' w' Hok').
  symmetry. apply (sort_unique (asc er_sequence)); [exact Hp|exact (events_total id t w Hok)].
Qed.

Context (Hget : forall g, get = Some g -> ArchiveReader g holds) {HU : UuidDriver scan_uuid uuid_text}.

(** What one step does: at most one edit, after the archive has grown, or work of
    the rest of the system. *)
Definition advances (s s' : store) : Prop :=
  keeps (snd s) (snd s') /\
  (edit (fst s) (snd s') (fst s') \/ exists sources, sources_ok sources /\ fst s' = with_sources sources (fst s)).

(** A transaction whose answers are edits. *)
Lemma tx_advances {A} (m : dbm store A) Q fs s :
  (forall t w, sources_ok (sources t) -> tx holds t t w m (Q t w)) ->
  (forall t w a t' w', Q t w a t' w' -> edit t w' t') -> sources_ok (sources (fst s)) -> advances s (snd (run m fs s)).
Proof.
  intros Hm HQ Hs. destruct s as [t w]. destruct (run m fs (t, w)) as [r [t' w']] eqn:E.
  destruct (tx_run holds t w m (Q t w) fs r t' w' (Hm t w Hs) E) as [Hk Hr]. split; [exact Hk|]. left. cbn [fst snd].
  destruct r as [a|e]; [by eapply HQ|]. subst. constructor.
Qed.

Lemma step_advances s s' : sources_ok (sources (fst s)) -> step s s' -> advances s s'.
Proof.
  intros Hok H. destruct H as [id now request fs s|now rawID fs s|id now rawID request fs s|id now rawID request fs s
    |rawID fs s|rawID fs s|rawID fs s|src w t w' Hs Hk]; [|eapply tx_advances; [..|exact Hok]..|].
  - destruct s as [t w]. destruct (run _ fs (t, w)) as [r [t' w']] eqn:E. apply create_decision_effect in E as [-> [[-> _]|(row & Hr & -> & _)]].
    + split; [done|]. left. constructor.
    + split; [done|]. left. destruct Hr as (_ & _ & _ & (amount & a & b & c & d & e & _ & _ & _ & Hrow) & Hc & Hn & Ha).
      unfold decision_row in Hrow. repeat (apply bind_Some in Hrow as (? & ? & Hrow)). injection Hrow as <-. by constructor.
  - intros t w Hs. eapply finalize_tx; first [exact Hget|exact HU|exact (proj1 Hs)].
  - cbn beta. intros t w d t' w' (id & r & account & m & data & _ & Hr & Hst & Hd & Hev & Hacc & Hm & Hmar & ->).
    apply hydrate_fields in Hd as (_ & _ & Hd). by eapply edit_seal.
  - intros t w _. apply review_tx.
  - cbn beta. intros t w v t' w' (r & meta & -> & Hn & _ & Hd & Hb & _ & Hr & -> & _). constructor; try done. by rewrite Hr.
  - intros t w _. apply amendment_tx.
  - cbn beta. intros t w v t' w' (r & meta & ch & -> & Hn & _ & Hd & Hb & _ & _ & Hr & -> & _). constructor; try done. by rewrite Hr.
  - intros t w _. eapply get_tx.
  - cbn beta. intros t w d t' w' [-> _]. constructor.
  - intros t w _. eapply timeline_tx.
  - cbn beta. intros t w d t' w' [-> _]. constructor.
  - intros t w _. by eapply evidence_tx.
  - cbn beta. intros t w d t' w' [-> _]. constructor.
  - split; [done|]. right. by exists src.
Qed.

Lemma advances_history s s' : journal_ok s -> advances s s' -> journal_ok s' /\ evolves (fst s) (fst s').
Proof.
  destruct s as [t w], s' as [t' w']. intros Hok [Hk [He|(src & Hs & Ht)]]; cbn [fst snd] in *; [|subst t'].
  - apply (ok_keeps _ _ _ Hk) in Hok. split; [by eapply edit_ok|by eapply edit_evolves].
  - apply (ok_keeps _ _ _ Hk) in Hok.
    assert (Hp : forall k id, place (with_sources src t) k id = place t k id) by by intros [].
    split; [destruct Hok as [H1 H2 H3 H4 H5 H6 H7]|]; split; try done; cbn [fst snd] in *.
    + intros id r Hr. exists r. split; [done|by left].
    + intros k id n. rewrite Hp. congruence.
Qed.

Lemma steps_history s s' : journal_ok s -> steps s s' -> journal_ok s' /\ evolves (fst s) (fst s') /\ keeps (snd s) (snd s').
Proof.
  intros Hok H. induction H as [s|s1 s2 s3 H12 _ IH]; [done|].
  apply step_advances in H12 as Ha; [|exact (ok_sources _ Hok)]. pose proof (proj1 Ha) as Hk.
  apply advances_history in Ha as [Hok2 Hev2]; [|done]. destruct (IH Hok2) as (Hok3 & Hev3 & Hk3).
  split; [done|]. split; by etransitivity.
Qed.

(** Before any decision. *)
Definition empty_journal (s : store) : Prop :=
  sources_ok (sources (fst s)) /\ decisions (fst s) = ∅ /\ reviews (fst s) = ∅ /\ amendments (fst s) = ∅ /\ evidence (fst s) = ∅.

Lemma empty_ok s : empty_journal s -> journal_ok s.
Proof.
  intros (Hs & Hd & Hr & Ha & He). split; [done|..].
  1-4: intros id r; rewrite ?Hd, ?Hr, ?Ha, ?He; by rewrite lookup_empty.
  - intros [] id n; cbn; rewrite ?Hd, ?Hr, ?Ha; by rewrite lookup_empty.
  - intros [] id [] id2 n; cbn; rewrite ?Hd, ?Hr, ?Ha; by rewrite lookup_empty.
Qed.
End journal.
