(* ===== verification/Timeline.v ===== *)
(** Point-in-time views of observations
    (internal/application/timeline/service.go, statements of
    internal/platform/database/timeline.sql.go, the view
    latest_observation_revisions of migration 00001).

    The driver and PostgreSQL are parameters: [scan_uuid] scans a text into a
    UUID (its canonical text; the byte order of UUIDs is that of the texts),
    [read_numeric] is what the driver gives for a NUMERIC(38,18) column,
    [jsonb_out] the text of a JSONB value, [text_ok] tells the texts the server
    accepts, [collate] is its collation.  The clock is read once per call. *)

From S2P Require Import Prelude GoString Digits GoTime TimeText Base64 Order Paging Tables Db Json JsonTree JsonText JsonQuote.
From Stdlib Require Import Ascii SpecFloat.
#[local] Open Scope Z_scope.

Module Timeline.

Definition ModeLatest : string := "latest".
Definition ModeSourceAsOf : string := "source-as-of".
Definition ModeSystemAsOf : string := "system-as-of".
Definition ModeRevisions : string := "revisions".
Definition ModeCombined : string := "combined".

Definition ErrNotFound : goerr := ENew "timeline resource not found".
Definition ErrInvalidCursor : goerr := ENew "invalid timeline cursor".
Definition ErrInvalidWindow : goerr := ENew "invalid timeline observation window".
Definition ErrInvalidLimit : goerr := ENew "invalid timeline limit".
Definition ErrInvalidMode : goerr := ENew "invalid timeline mode".
Definition ErrInvalidSeriesID : goerr := ENew "invalid timeline series id".
Definition ErrInvalidSeriesSelection : goerr := ENew "invalid timeline series selection".
Definition ErrSourceAsOfUnsupported : goerr := ENew "source-as-of is unsupported for this source".
Definition ErrDatabase : goerr := ENew "timeline database is required".

(** ** Records *)

Record Page (A : Type) : Type := mkPage {
  Items : list A;
  PageLimit : Z;
  NextCursor : string;
  HasMore : bool;
}.
Arguments mkPage {A}.
Arguments Items {A}.
Arguments PageLimit {A}.
Arguments NextCursor {A}.
Arguments HasMore {A}.

Record Capabilities : Set := mkCapabilities {
  CapLatest : bool;
  CapSourceAsOf : bool;
  CapSystemAsOf : bool;
  CapRevisions : bool;
}.

Record Series : Set := mkSeries {
  SeID : string;
  SeDatasetID : string;
  SeSourceCode : string;
  SeSourceName : string;
  SeDatasetExternalKey : string;
  SeName : string;
  SeUnit : string;
  SeFrequency : string;
  SeSeasonalAdjustment : option string;
  SeSourceTimezone : option string;
  SeFreshnessPolicy : string;
  SeCapabilities : Capabilities;
}.

Record Clocks : Set := mkClocks {
  SourceKnownAt : option time;
  SystemKnownAt : time;
  KnowledgeTimeBasis : string;
}.

Record Observation : Set := mkObservation {
  ObID : string;
  ObSeriesID : string;
  ObObservationTime : time;
  ObValue : option string;
  ObValueText : option string;
  ObUnit : string;
  ObFrequency : string;
  ObDataSourceCode : string;
  ObClocks : Clocks;
  ObQuality : string;
  ObRawProvenanceID : string;
  ObRawObjectSHA256 : string;
}.

Record ObservationRequest : Set := mkObservationRequest {
  RqMode : string;
  RqFrom : time;
  RqTo : time;
  RqAsOf : time;
  RqLimit : Z;
  RqCursor : string;
}.

Record observationCursor : Set := mkObservationCursor {
  CuObservationTime : time;
  CuSystemKnownAt : time;
  CuSeriesID : string;
  CuID : string;
}.

Record seriesCursor : Set := mkSeriesCursor {
  CuDataSourceCode : string;
  CuSourceCode : string;
  CuSeries : string;
}.

(** ** Tables *)

Record SourceRow : Set := mkSourceRow { so_code : string; so_name : string }.
Record DatasetRow : Set := mkDatasetRow { da_source : string; da_key : string }.

Record SeriesRow : Type := mkSeriesRow {
  se_dataset : string;
  se_code : string;
  se_name : string;
  se_unit : string;
  se_frequency : string;
  se_adjustment : option string;
  se_timezone : option string;
  se_policy : json;
}.

Record RevisionRow : Type := mkRevisionRow {
  re_series : string;
  re_time : time;
  re_value : option Z;
  re_text : option string;
  re_source_known : option time;
  re_system_known : time;
  re_basis : string;
  re_raw : string;
  re_flags : json;
}.

(** Of a raw object, its content hash. *)
Record store : Type := mkStore {
  sources : gmap string SourceRow;
  datasets : gmap string DatasetRow;
  series : gmap string SeriesRow;
  raw_objects : gmap string string;
  revisions : gmap string RevisionRow;
}.

(** A revision with its identifier. *)
Abbreviation revision := (string * RevisionRow)%type.

(** A [pgtype.Numeric]. *)
Record Numeric : Set := mkNumeric {
  Int : option Z;
  Exp : Z;
  NaN : bool;
  InfinityModifier : Z;
  Valid : bool;
}.

(** ** Query rows *)

(** [GetTimelineSeriesRow], [ListTimelineSeriesRow]. *)
Record TimelineSeriesRow : Set := mkTimelineSeriesRow {
  ts_id : string;
  ts_dataset : string;
  ts_source_code : string;
  ts_name : string;
  ts_unit : string;
  ts_frequency : string;
  ts_adjustment : option string;
  ts_timezone : option string;
  ts_policy : string;
  ts_data_source_code : string;
  ts_data_source_name : string;
  ts_dataset_key : string;
  ts_source_as_of : bool;
}.

(** The rows of the seven observation queries have the same columns. *)
Record ObservationRow : Set := mkObservationRow {
  or_id : string;
  or_series : string;
  or_time : time;
  or_value : Numeric;
  or_text : option string;
  or_source_known : option time;
  or_system_known : time;
  or_basis : string;
  or_raw : string;
  or_flags : string;
  or_sha : string;
  or_unit : string;
  or_frequency : string;
  or_source : string;
}.

(** ** Queries *)

(** [uuid > $n] where the parameter may be NULL, which no row satisfies. *)
Definition text_gt (x : string) (parameter : option string) : bool :=
  match parameter with Some y => string_ltb y x | None => false end.
Definition text_eq (x : string) (parameter : option string) : bool := bool_decide (parameter = Some x).

Section queries.
Context (read_numeric : option Z -> Numeric) (jsonb_out : json -> string) (text_ok : string -> bool)
  (collate : string -> string -> comparison).

Definition source_as_of_supported (t : store) (id : string) : bool :=
  existsb (fun kv => bool_decide (re_series (snd kv) = id) && bool_decide (is_Some (re_source_known (snd kv))))
    (map_to_list (revisions t)).

Definition series_row (t : store) (kv : string * SeriesRow) : option TimelineSeriesRow :=
  let '(id, s) := kv in
  d ← datasets t !! se_dataset s;
  ds ← sources t !! da_source d;
  Some (mkTimelineSeriesRow id (se_dataset s) (se_code s) (se_name s) (se_unit s) (se_frequency s)
          (se_adjustment s) (se_timezone s) (jsonb_out (se_policy s)) (so_code ds) (so_name ds) (da_key d)
          (source_as_of_supported t id)).

Definition GetTimelineSeries (id : string) (t : store) : res TimelineSeriesRow :=
  match s ← series t !! id; series_row t (id, s) with Some row => Ok row | None => Err ENoRows end.

Definition collated {A} (key : A -> string) : comparator A := fun x y => collate (key x) (key y).
Definition collate_gt (x y : string) : bool := match collate x y with Gt => true | _ => false end.

Definition by_code : comparator TimelineSeriesRow :=
  collated ts_data_source_code >> collated ts_source_code >> asc_text ts_id.

Definition after_code (has_cursor : bool) (code source_code : string) (id : option string) (r : TimelineSeriesRow)
    : bool :=
  negb has_cursor || collate_gt (ts_data_source_code r) code
  || (bool_decide (ts_data_source_code r = code) && collate_gt (ts_source_code r) source_code)
  || (bool_decide (ts_data_source_code r = code) && bool_decide (ts_source_code r = source_code)
      && text_gt (ts_id r) id).

Definition ListTimelineSeries (has_cursor : bool) (code source_code : string) (id : option string) (limit : Z)
    (t : store) : res (list TimelineSeriesRow) :=
  if negb (text_ok code && text_ok source_code) then Err EDb
  else Ok (take (Z.to_nat limit)
             (insertion_sort (before by_code)
               (List.filter (after_code has_cursor code source_code id)
                 (omap (series_row t) (map_to_list (series t)))))).

(** The joins every observation query ends with. *)
Definition observation_row (t : store) (kv : string * RevisionRow) : option ObservationRow :=
  let '(id, o) := kv in
  s ← series t !! re_series o;
  d ← datasets t !! se_dataset s;
  ds ← sources t !! da_source d;
  sha ← raw_objects t !! re_raw o;
  Some (mkObservationRow id (re_series o) (re_time o) (read_numeric (re_value o)) (re_text o)
          (re_source_known o) (re_system_known o) (re_basis o) (re_raw o) (jsonb_out (re_flags o)) sha
          (se_unit s) (se_frequency s) (so_code ds)).

(** DISTINCT ON (series_id, observation_time). *)
Definition point : comparator revision :=
  asc_text (fun kv => re_series (snd kv)) >> asc (fun kv => re_time (snd kv)).
Definition by_system : comparator revision := desc (fun kv => re_system_known (snd kv)) >> desc_text fst.
Definition by_source : comparator revision := desc_null (fun kv => re_source_known (snd kv)) >> by_system.

Definition ranked (rank : comparator revision) (where_ : revision -> bool) (t : store) : list revision :=
  distinct_on (ties point)
    (insertion_sort (before (point >> rank)) (List.filter where_ (map_to_list (revisions t)))).

Definition latest_observation_revisions (t : store) : list revision := ranked by_system (fun _ => true) t.

Definition in_window (from to : time) (o : RevisionRow) : bool :=
  (pg_time from <=? re_time o) && (re_time o <? pg_time to).
Definition source_known_by (as_of : time) (o : RevisionRow) : bool :=
  match re_source_known o with Some known => known <=? pg_time as_of | None => false end.
Definition system_known_by (as_of : time) (o : RevisionRow) : bool := re_system_known o <=? pg_time as_of.

(** The rows after a cursor, where there is one. *)
Definition after_id (has_cursor : bool) (at_ : time) (id : option string) (o : ObservationRow) : bool :=
  negb has_cursor || (pg_time at_ <? or_time o) || ((or_time o =? pg_time at_) && text_gt (or_id o) id).
Definition after_series (has_cursor : bool) (at_ : time) (sid id : option string) (o : ObservationRow) : bool :=
  negb has_cursor || (pg_time at_ <? or_time o) || ((or_time o =? pg_time at_) && text_gt (or_series o) sid)
  || ((or_time o =? pg_time at_) && text_eq (or_series o) sid && text_gt (or_id o) id).
Definition after_revision (has_cursor : bool) (at_ known : time) (id : option string) (o : ObservationRow) : bool :=
  negb has_cursor || (pg_time at_ <? or_time o)
  || ((or_time o =? pg_time at_) && (pg_time known <? or_system_known o))
  || ((or_time o =? pg_time at_) && (or_system_known o =? pg_time known) && text_gt (or_id o) id).

(** ORDER BY ... LIMIT. *)
Definition by_time_id : comparator ObservationRow := asc or_time >> asc_text or_id.
Definition by_time_series : comparator ObservationRow := asc or_time >> asc_text or_series >> asc_text or_id.
Definition by_time_known : comparator ObservationRow := asc or_time >> asc or_system_known >> asc_text or_id.

Definition page_of (order : comparator ObservationRow) (after : ObservationRow -> bool) (limit : Z) (t : store)
    (rows : list revision) : list ObservationRow :=
  take (Z.to_nat limit) (insertion_sort (before order) (List.filter after (omap (observation_row t) rows))).

Definition ListTimelineObservationRevisions (sid : string) (from to : time) (limit : Z) (has_cursor : bool)
    (at_ known : time) (id : option string) (t : store) : list ObservationRow :=
  page_of by_time_known (after_revision has_cursor at_ known id) limit t
    (List.filter (fun kv => bool_decide (re_series (snd kv) = sid) && in_window from to (snd kv))
       (map_to_list (revisions t))).

Definition ListTimelineObservationsLatest (sid : string) (from to : time) (limit : Z) (has_cursor : bool)
    (at_ : time) (id : option string) (t : store) : list ObservationRow :=
  page_of by_time_id (after_id has_cursor at_ id) limit t
    (List.filter (fun kv => bool_decide (re_series (snd kv) = sid) && in_window from to (snd kv))
       (latest_observation_revisions t)).

Definition ListTimelineObservationsSourceAsOf (sid : string) (from to as_of : time) (limit : Z) (has_cursor : bool)
    (at_ : time) (id : option string) (t : store) : list ObservationRow :=
  page_of by_time_id (after_id has_cursor at_ id) limit t
    (ranked by_source (fun kv => bool_decide (re_series (snd kv) = sid) && in_window from to (snd kv)
       && source_known_by as_of (snd kv)) t).

Definition ListTimelineObservationsSystemAsOf (sid : string) (from to as_of : time) (limit : Z) (has_cursor : bool)
    (at_ : time) (id : option string) (t : store) : list ObservationRow :=
  page_of by_time_id (after_id has_cursor at_ id) limit t
    (ranked by_system (fun kv => bool_decide (re_series (snd kv) = sid) && in_window from to (snd kv)
       && system_known_by as_of (snd kv)) t).

Definition ListTimelineObservationsCombinedLatest (sids : list string) (from to : time) (limit : Z)
    (has_cursor : bool) (at_ : time) (sid id : option string) (t : store) : list ObservationRow :=
  page_of by_time_series (after_series has_cursor at_ sid id) limit t
    (List.filter (fun kv => bool_decide (re_series (snd kv) ∈ sids) && in_window from to (snd kv))
       (latest_observation_revisions t)).

Definition ListTimelineObservationsCombinedSourceAsOf (sids : list string) (from to as_of : time) (limit : Z)
    (has_cursor : bool) (at_ : time) (sid id : option string) (t : store) : list ObservationRow :=
  page_of by_time_series (after_series has_cursor at_ sid id) limit t
    (ranked by_source (fun kv => bool_decide (re_series (snd kv) ∈ sids) && in_window from to (snd kv)
       && source_known_by as_of (snd kv)) t).

Definition ListTimelineObservationsCombinedSystemAsOf (sids : list string) (from to as_of : time) (limit : Z)
    (has_cursor : bool) (at_ : time) (sid id : option string) (t : store) : list ObservationRow :=
  page_of by_time_series (after_series has_cursor at_ sid id) limit t
    (ranked by_system (fun kv => bool_decide (re_series (snd kv) ∈ sids) && in_window from to (snd kv)
       && system_known_by as_of (snd kv)) t).
End queries.

(** ** Cursors *)

(** No member of a cursor is a float. *)
Definition no_float (_ : spec_float) : string := "".

Definition encodeSeriesCursor (cursor : seriesCursor) : string :=
  EncodeToString (default "" (Marshal no_float (VStruct [
    ("data_source_code", VStr (CuDataSourceCode cursor));
    ("source_code", VStr (CuSourceCode cursor));
    ("id", VStr (CuSeries cursor))]))).

(** A member of the document into its field; unknown names are ignored. *)
Definition series_cursor_member (cursor : option seriesCursor) (kv : string * string) : option seriesCursor :=
  c ← cursor;
  let '(name, raw) := kv in
  if equal_fold name "data_source_code" then
    s ← unmarshal_text (CuDataSourceCode c) raw; Some (mkSeriesCursor s (CuSourceCode c) (CuSeries c))
  else if equal_fold name "source_code" then
    s ← unmarshal_text (CuSourceCode c) raw; Some (mkSeriesCursor (CuDataSourceCode c) s (CuSeries c))
  else if equal_fold name "id" then
    s ← unmarshal_text (CuSeries c) raw; Some (mkSeriesCursor (CuDataSourceCode c) (CuSourceCode c) s)
  else Some c.

Definition empty_series_cursor : seriesCursor := mkSeriesCursor "" "" "".

Definition decodeSeriesCursor (raw : string) : res seriesCursor :=
  if bool_decide (raw = "") then Ok empty_series_cursor
  else
    match b ← DecodeString raw; members ← unmarshal_members b;
          fold_left series_cursor_member members (Some empty_series_cursor) with
    | Some cursor =>
        if bool_decide (CuDataSourceCode cursor = "") || bool_decide (CuSourceCode cursor = "")
           || bool_decide (CuSeries cursor = "")
        then Err ErrInvalidCursor else Ok cursor
    | None => Err ErrInvalidCursor
    end.

(** [omitempty] does nothing on a [time.Time]. *)
Definition marshalObservationCursor (cursor : observationCursor) : option string :=
  at_ ← marshal_time (CuObservationTime cursor);
  known ← marshal_time (CuSystemKnownAt cursor);
  Marshal no_float (VStruct (
    [("observation_time", VStr at_); ("system_known_at", VStr known)]
    ++ (if bool_decide (CuSeriesID cursor = "") then [] else [("series_id", VStr (CuSeriesID cursor))])
    ++ [("id", VStr (CuID cursor))])).

Definition encodeObservationCursor (cursor : observationCursor) : string :=
  EncodeToString (default "" (marshalObservationCursor cursor)).

Definition observation_cursor_member (cursor : option observationCursor) (kv : string * string)
    : option observationCursor :=
  c ← cursor;
  let '(name, raw) := kv in
  if equal_fold name "observation_time" then
    t ← unmarshal_time (CuObservationTime c) raw;
    Some (mkObservationCursor t (CuSystemKnownAt c) (CuSeriesID c) (CuID c))
  else if equal_fold name "system_known_at" then
    t ← unmarshal_time (CuSystemKnownAt c) raw;
    Some (mkObservationCursor (CuObservationTime c) t (CuSeriesID c) (CuID c))
  else if equal_fold name "series_id" then
    s ← unmarshal_text (CuSeriesID c) raw;
    Some (mkObservationCursor (CuObservationTime c) (CuSystemKnownAt c) s (CuID c))
  else if equal_fold name "id" then
    s ← unmarshal_text (CuID c) raw;
    Some (mkObservationCursor (CuObservationTime c) (CuSystemKnownAt c) (CuSeriesID c) s)
  else Some c.

Definition empty_observation_cursor : observationCursor := mkObservationCursor zero_time zero_time "" "".

Definition decodeObservationCursor (raw : string) : res observationCursor :=
  if bool_decide (raw = "") then Ok empty_observation_cursor
  else
    match b ← DecodeString raw; members ← unmarshal_members b;
          fold_left observation_cursor_member members (Some empty_observation_cursor) with
    | Some cursor =>
        if bool_decide (CuID cursor = "") || IsZero (CuObservationTime cursor)
        then Err ErrInvalidCursor else Ok cursor
    | None => Err ErrInvalidCursor
    end.

(** ** Conversions *)

Definition all_capabilities (source_as_of : bool) : Capabilities := mkCapabilities true source_as_of true true.

Definition seriesFromRow (row : TimelineSeriesRow) : Series :=
  mkSeries (ts_id row) (ts_dataset row) (ts_source_code row) (ts_data_source_name row) (ts_dataset_key row)
    (ts_name row) (ts_unit row) (ts_frequency row) (ts_adjustment row) (ts_timezone row) (ts_policy row)
    (all_capabilities (ts_source_as_of row)).
Definition seriesFromListRow (row : TimelineSeriesRow) : Series := seriesFromRow row.

(** The plain decimal text of a numeric. *)
Definition numeric_text (value : Numeric) : string :=
  let v := match Int value with Some z => chars (format_int z) | None => ["0"%char] end in
  let '(sign, v) :=
    match v with
    | c :: v' => if Ascii.eqb c "-" || Ascii.eqb c "+" then ([c], v') else ([], v)
    | [] => ([], v)
    end in
  let v :=
    if 0 <=? Exp value then v ++ replicate (Z.to_nat (Exp value)) "0"%char
    else
      let digits := Z.to_nat (- Exp value) in
      let v := if (length v <=? digits)%nat then replicate (digits - length v + 1) "0"%char ++ v else v in
      let split := (length v - digits)%nat in
      take split v ++ "."%char :: drop split v in
  of_chars (sign ++ v).

Definition observation (id sid : string) (at_ : time) (source : option time) (system : time) (value : Numeric)
    (valueText : option string) (basis raw sha unit frequency sourceCode quality : string) : Observation :=
  let numeric :=
    if Valid value && negb (NaN value) && (InfinityModifier value =? 0) then Some (numeric_text value) else None in
  let numeric := match valueText with Some _ => None | None => numeric end in
  let quality := match parse_json quality with Some _ => quality | None => "{}" end in
  mkObservation id sid at_ numeric valueText unit frequency sourceCode (mkClocks source system basis) quality raw sha.

Definition observation_of (r : ObservationRow) : Observation :=
  observation (or_id r) (or_series r) (or_time r) (or_source_known r) (or_system_known r) (or_value r) (or_text r)
    (or_basis r) (or_raw r) (or_sha r) (or_unit r) (or_frequency r) (or_source r) (or_flags r).

Definition observationsFromLatest (rows : list ObservationRow) : list Observation := observation_of <$> rows.
Definition observationsFromSystem (rows : list ObservationRow) : list Observation := observation_of <$> rows.
Definition observationsFromSource (rows : list ObservationRow) : list Observation := observation_of <$> rows.
Definition observationsFromRevisions (rows : list ObservationRow) : list Observation := observation_of <$> rows.
Definition observationsFromCombinedLatest (rows : list ObservationRow) : list Observation := observation_of <$> rows.
Definition observationsFromCombinedSource (rows : list ObservationRow) : list Observation := observation_of <$> rows.
Definition observationsFromCombinedSystem (rows : list ObservationRow) : list Observation := observation_of <$> rows.

(** ** The service *)

Definition validateLimit (value : Z) : res unit :=
  if (value <? 1) || (200 <? value) then Err ErrInvalidLimit else Ok tt.

(** At most [limit] of the items, and the cursor of the last where there are
    more. *)
Definition cut_page {A B} (limit : Z) (rows : list A) (item : A -> B) (cursor_of : A -> string) : Page B :=
  let hasMore := limit <? Z.of_nat (length rows) in
  if hasMore then
    mkPage (item <$> take (Z.to_nat limit) rows) limit
      (match rows !! Z.to_nat (limit - 1) with Some last => cursor_of last | None => "" end) true
  else mkPage (item <$> rows) limit "" false.

Section service.
Context (Queries : bool) (scan_uuid : string -> option string) (read_numeric : option Z -> Numeric)
  (jsonb_out : json -> string) (text_ok : string -> bool) (collate : string -> string -> comparison).

Abbreviation dbt := (dbm store).

Definition parseUUID (value : string) : res string :=
  match scan_uuid (trim_space value) with
  | Some id => Ok id
  | None => Err (EWrap "scan" ErrInvalidSeriesID)
  end.

(** A UUID of a cursor, absent when the text is empty. *)
Definition cursor_uuid (value : string) : res (option string) :=
  if bool_decide (value = "") then Ok None
  else match parseUUID value with Ok id => Ok (Some id) | Err _ => Err ErrInvalidCursor end.

Definition series_cursor_of (row : TimelineSeriesRow) : string :=
  encodeSeriesCursor (mkSeriesCursor (ts_data_source_code row) (ts_source_code row) (ts_id row)).

Definition ListSeries (limit : Z) (cursor : string) : dbt (Page Series) :=
  of_res (validateLimit limit) ;;;
  let* pageCursor := of_res (decodeSeriesCursor cursor) in
  if negb Queries then throw ErrDatabase
  else
    let* cursorID := of_res (cursor_uuid (CuSeries pageCursor)) in
    let* rows := wrap "list timeline series" (pool_query
      (ListTimelineSeries jsonb_out text_ok collate (negb (bool_decide (cursor = ""))) (CuDataSourceCode pageCursor)
         (CuSourceCode pageCursor) cursorID (limit + 1))) in
    ret (cut_page limit rows seriesFromListRow series_cursor_of).

(** [GetTimelineSeries] with its errors told apart. *)
Definition load_series (context id : string) : dbt TimelineSeriesRow :=
  map_err (fun err => if errors_is err ENoRows then ErrNotFound else EWrap context err)
    (pool_query (GetTimelineSeries jsonb_out id)).

Definition GetSeries (rawID : string) : dbt Series :=
  let* id := of_res (parseUUID rawID) in
  if negb Queries then throw ErrDatabase
  else let* row := load_series "get timeline series" id in ret (seriesFromRow row).

Definition or_default (t : time) (d : time) : time := if IsZero t then d else t.
Definition tomorrow (now : time) : time := now + 24 * Hour.

(** The page of an observation listing, with the cursor of its last item. *)
Definition observation_cursor_of (last : Observation) : string :=
  encodeObservationCursor (mkObservationCursor (ObObservationTime last) (SystemKnownAt (ObClocks last)) "" (ObID last)).
Definition combined_cursor_of (last : Observation) : string :=
  encodeObservationCursor (mkObservationCursor (ObObservationTime last) zero_time (ObSeriesID last) (ObID last)).

Definition Observations (now : time) (rawID : string) (request : ObservationRequest) : dbt (Page Observation) :=
  of_res (validateLimit (RqLimit request)) ;;;
  if negb (bool_decide (RqMode request ∈ [""; ModeLatest; ModeSourceAsOf; ModeSystemAsOf; ModeRevisions]))
  then throw ErrInvalidMode
  else
    let* seriesID := of_res (parseUUID rawID) in
    if negb Queries then throw ErrDatabase
    else
      let* row := load_series "get timeline series" seriesID in
      let mode := if bool_decide (RqMode request = "") then ModeLatest else RqMode request in
      if bool_decide (mode = ModeSourceAsOf) && negb (ts_source_as_of row) then throw ErrSourceAsOfUnsupported
      else
        let from := or_default (RqFrom request) 0 in
        let to := or_default (RqTo request) (tomorrow now) in
        if negb (Before from to) then throw ErrInvalidWindow
        else if negb (bool_decide (mode ∈ [ModeLatest; ModeRevisions; ModeCombined])) && IsZero (RqAsOf request)
        then throw ErrInvalidWindow
        else
          let limit := RqLimit request in
          let* cursor := of_res (decodeObservationCursor (RqCursor request)) in
          let* cursorID := of_res (cursor_uuid (CuID cursor)) in
          let has_cursor := negb (bool_decide (CuID cursor = "")) in
          let at_ := CuObservationTime cursor in
          let* items :=
            if bool_decide (mode = ModeLatest) then
              let* rows := wrap "list latest timeline observations" (pool_query (fun t =>
                Ok (ListTimelineObservationsLatest read_numeric jsonb_out seriesID from to (limit + 1) has_cursor
                      at_ cursorID t))) in
              ret (observationsFromLatest rows)
            else if bool_decide (mode = ModeSystemAsOf) then
              let* rows := wrap "list system-as-of observations" (pool_query (fun t =>
                Ok (ListTimelineObservationsSystemAsOf read_numeric jsonb_out seriesID from to (RqAsOf request)
                      (limit + 1) has_cursor at_ cursorID t))) in
              ret (observationsFromSystem rows)
            else if bool_decide (mode = ModeSourceAsOf) then
              let* rows := wrap "list source-as-of observations" (pool_query (fun t =>
                Ok (ListTimelineObservationsSourceAsOf read_numeric jsonb_out seriesID from to (RqAsOf request)
                      (limit + 1) has_cursor at_ cursorID t))) in
              ret (observationsFromSource rows)
            else if bool_decide (mode = ModeRevisions) then
              let* rows := wrap "list timeline revisions" (pool_query (fun t =>
                Ok (ListTimelineObservationRevisions read_numeric jsonb_out seriesID from to (limit + 1) has_cursor
                      at_ (CuSystemKnownAt cursor) cursorID t))) in
              ret (observationsFromRevisions rows)
            else throw ErrInvalidMode in
          ret (cut_page limit items id observation_cursor_of).

(** The distinct series of a selection, in order. *)
Fixpoint parse_selection (seen : gset string) (ids : list string) : res (list string) :=
  match ids with
  | [] => Ok []
  | raw :: rest =>
      let! id := parseUUID raw in
      if bool_decide (id ∈ seen) then parse_selection seen rest
      else let! others := parse_selection ({[id]} ∪ seen) rest in Ok (id :: others)
  end.

Fixpoint check_selection (mode : string) (ids : list string) : dbt unit :=
  match ids with
  | [] => ret tt
  | id :: rest =>
      let* row := load_series "get combined timeline series" id in
      if bool_decide (mode = ModeSourceAsOf) && negb (ts_source_as_of row) then throw ErrSourceAsOfUnsupported
      else check_selection mode rest
  end.

Definition CrossSource (now : time) (ids : list string) (request : ObservationRequest) : dbt (Page Observation) :=
  if bool_decide (ids = []) then throw ErrInvalidSeriesSelection
  else
    of_res (validateLimit (RqLimit request)) ;;;
    let mode := if bool_decide (RqMode request = "") || bool_decide (RqMode request = ModeCombined)
                then ModeLatest else RqMode request in
    if negb (bool_decide (mode ∈ [ModeLatest; ModeSourceAsOf; ModeSystemAsOf])) then throw ErrInvalidMode
    else
      let from := or_default (RqFrom request) 0 in
      let to := or_default (RqTo request) (tomorrow now) in
      if negb (Before from to) then throw ErrInvalidWindow
      else if negb (bool_decide (mode = ModeLatest)) && IsZero (RqAsOf request) then throw ErrInvalidWindow
      else
        let* seriesIDs := of_res (parse_selection ∅ ids) in
        if negb Queries then throw ErrDatabase
        else
          check_selection mode seriesIDs ;;;
          let limit := RqLimit request in
          let* cursor := of_res (decodeObservationCursor (RqCursor request)) in
          let* cursorID := of_res (cursor_uuid (CuID cursor)) in
          let* cursorSeriesID := of_res (cursor_uuid (CuSeriesID cursor)) in
          let has_cursor := negb (bool_decide (CuID cursor = "")) in
          let at_ := CuObservationTime cursor in
          let* items :=
            if bool_decide (mode = ModeLatest) then
              let* rows := wrap "list combined latest timeline" (pool_query (fun t =>
                Ok (ListTimelineObservationsCombinedLatest read_numeric jsonb_out seriesIDs from to (limit + 1)
                      has_cursor at_ cursorSeriesID cursorID t))) in
              ret (observationsFromCombinedLatest rows)
            else if bool_decide (mode = ModeSourceAsOf) then
              let* rows := wrap "list combined source-as-of timeline" (pool_query (fun t =>
                Ok (ListTimelineObservationsCombinedSourceAsOf read_numeric jsonb_out seriesIDs from to
                      (RqAsOf request) (limit + 1) has_cursor at_ cursorSeriesID cursorID t))) in
              ret (observationsFromCombinedSource rows)
            else
              let* rows := wrap "list combined system-as-of timeline" (pool_query (fun t =>
                Ok (ListTimelineObservationsCombinedSystemAsOf read_numeric jsonb_out seriesIDs from to
                      (RqAsOf request) (limit + 1) has_cursor at_ cursorSeriesID cursorID t))) in
              ret (observationsFromCombinedSystem rows) in
          ret (cut_page limit items id combined_cursor_of).
End service.
End Timeline.
