(* ===== verification/TimelineRows.v ===== *)
(** The cursors of timeline pages are read back, and the rows behind a page: which
    revisions a projection selects, and where the page after a cursor starts. *)

From S2P Require Import Prelude GoString Digits GoTime TimeText Base64 Order Paging Tables Json JsonTree JsonText JsonQuote Timeline.
From Stdlib Require Import Ascii.
#[local] Open Scope Z_scope.

Import Timeline.

(** ** Cursors *)

(** Instants a cursor can carry: of four-digit years, in whole microseconds. *)
Definition time_ok (t : time) : Prop := 0 <= year_of t <= 9999 /\ pg_time t = t.

Lemma digit_plain c : is_digit c = true -> plain c = true.
Proof. unfold is_digit, plain. intros H. bool_simp. rewrite <- !andb_assoc. repeat (apply andb_true_intro; split); lia. Qed.

Lemma digits_plain s : all_digits s = true -> forallb plain s = true.
Proof.
  unfold all_digits. rewrite !forallb_forall. intros H c Hc. apply digit_plain. by apply H.
Qed.

Lemma num2_digits a b n : num2 a b = Some n -> is_digit a = true /\ is_digit b = true.
Proof. unfold num2. destruct (is_digit a), (is_digit b); done. Qed.

Lemma format_plain t : 0 <= year_of t <= 9999 -> plain_text (format_rfc3339nano t) = true.
Proof.
  unfold year_of. destruct (civil_from_days (t / day_ns)) as [[y m] d] eqn:Ec. intros Hy.
  destruct (format_shape t y m d Ec Hy) as (y1 & y2 & y3 & y4 & m1 & m2 & d1 & d2 & h1 & h2 & n1 & n2 & s1 & s2 & frac &
    Hs & Hyd & _ & Hm & Hd & (Hh1 & Hh2 & _) & Hn & Hsec & Hf & _).
  unfold plain_text. rewrite Hs, !forallb_app. apply num2_digits in Hm as [], Hd as [], Hn as [], Hsec as [].
  apply digits_plain in Hyd, Hf. cbn [forallb] in Hyd. bool_simp. cbn [forallb].
  repeat match goal with H : is_digit _ = true |- _ => apply digit_plain in H end.
  repeat match goal with H : plain _ = true |- _ => rewrite H; clear H end.
  destruct frac as [|f0 frac]; [done|]. change (forallb plain ("."%char :: f0 :: frac)) with (forallb plain (f0 :: frac)). by rewrite Hf.
Qed.

Lemma unmarshal_time_literal current t : 0 <= year_of t <= 9999 ->
  unmarshal_time current (encode_string true (format_rfc3339nano t)) = Some t.
Proof.
  intros Hy. destruct (time_round_trip t Hy) as [_ Hp]. pose proof (encode_plain true _ (format_plain t Hy)) as Hc.
  unfold unmarshal_time. rewrite bool_decide_false; [|intros He; by rewrite He in Hc]. rewrite Hc.
  rewrite reverse_app. change (reverse [quote_char]) with [quote_char]. cbn [app].
  change (code quote_char =? 34) with true. cbn iota. by rewrite reverse_involutive, of_chars_chars.
Qed.

Lemma encode_nonempty text c r : chars text = c :: r -> EncodeToString text <> "".
Proof.
  intros Hc He. pose proof (base64_round_trip text) as Hr. rewrite He in Hr. injection Hr as <-. done.
Qed.

(** A flat document of texts, encoded and read back. *)
Lemma document_round_trip fields : fields <> [] -> texts_valid fields ->
  exists text, Marshal no_float (VStruct ((fun kv => (fst kv, VStr (snd kv))) <$> fields)) = Some text /\
    EncodeToString text <> "" /\ DecodeString (EncodeToString text) = Some text /\
    unmarshal_members text = Some ((fun kv => (fst kv, encode_string true (snd kv))) <$> fields).
Proof.
  intros Hne Hv. destruct (marshal_texts no_float fields) as (text & Hm & Hc). exists text.
  split; [done|]. split; [by eapply encode_nonempty|]. split; [apply base64_round_trip|]. by eapply unmarshal_marshal.
Qed.

Definition cursor_ok (c : observationCursor) : Prop :=
  0 <= year_of (CuObservationTime c) <= 9999 /\ IsZero (CuObservationTime c) = false /\
  0 <= year_of (CuSystemKnownAt c) <= 9999 /\
  utf8_valid (CuSeriesID c) = true /\ utf8_valid (CuID c) = true /\ CuID c <> "".

Section members.
Context (c : observationCursor).
Ltac member := unfold observation_cursor_member; cbn [mbind option_bind];
  change (equal_fold "observation_time" "observation_time") with true;
  change (equal_fold "system_known_at" "observation_time") with false;
  change (equal_fold "system_known_at" "system_known_at") with true;
  change (equal_fold "series_id" "observation_time") with false;
  change (equal_fold "series_id" "system_known_at") with false;
  change (equal_fold "series_id" "series_id") with true;
  change (equal_fold "id" "observation_time") with false; change (equal_fold "id" "system_known_at") with false;
  change (equal_fold "id" "series_id") with false; change (equal_fold "id" "id") with true; cbn iota.

Lemma member_time t : 0 <= year_of t <= 9999 ->
  observation_cursor_member (Some c) ("observation_time", encode_string true (format_rfc3339nano t)) =
  Some (mkObservationCursor t (CuSystemKnownAt c) (CuSeriesID c) (CuID c)).
Proof. intros Ht. member. by rewrite unmarshal_time_literal. Qed.

Lemma member_known t : 0 <= year_of t <= 9999 ->
  observation_cursor_member (Some c) ("system_known_at", encode_string true (format_rfc3339nano t)) =
  Some (mkObservationCursor (CuObservationTime c) t (CuSeriesID c) (CuID c)).
Proof. intros Ht. member. by rewrite unmarshal_time_literal. Qed.

Lemma member_series s : utf8_valid s = true ->
  observation_cursor_member (Some c) ("series_id", encode_string true s) =
  Some (mkObservationCursor (CuObservationTime c) (CuSystemKnownAt c) s (CuID c)).
Proof. intros Hs. member. by rewrite unmarshal_text_literal. Qed.

Lemma member_id s : utf8_valid s = true ->
  observation_cursor_member (Some c) ("id", encode_string true s) =
  Some (mkObservationCursor (CuObservationTime c) (CuSystemKnownAt c) (CuSeriesID c) s).
Proof. intros Hs. member. by rewrite unmarshal_text_literal. Qed.
End members.

Lemma observation_cursor_round_trip c : cursor_ok c ->
  encodeObservationCursor c <> "" /\ decodeObservationCursor (encodeObservationCursor c) = Ok c.
Proof.
  intros (Ht & Hz & Hk & Hs & Hi & Hne). destruct c as [t known sid i]. cbn [CuObservationTime CuSystemKnownAt CuSeriesID CuID] in *.
  set (fields := [("observation_time", format_rfc3339nano t); ("system_known_at", format_rfc3339nano known)]
    ++ (if bool_decide (sid = "") then [] else [("series_id", sid)]) ++ [("id", i)]).
  destruct (document_round_trip fields) as (text & Hm & Hn & Hd & Hu).
  { done. }
  { unfold fields. repeat apply Forall_app_2.
    - repeat constructor; cbn; by apply utf8_valid_plain, format_plain.
    - case_bool_decide; repeat constructor; done.
    - by repeat constructor. }
  assert (He : encodeObservationCursor (mkObservationCursor t known sid i) = EncodeToString text).
  { unfold encodeObservationCursor, marshalObservationCursor. cbn [CuObservationTime CuSystemKnownAt CuSeriesID CuID].
    rewrite (proj1 (time_round_trip t Ht)), (proj1 (time_round_trip known Hk)). cbn [mbind option_bind].
    unfold fields in Hm. rewrite !fmap_app in Hm. case_bool_decide; cbn [fmap list_fmap fst snd] in Hm; by rewrite Hm. }
  rewrite He. split; [done|]. unfold decodeObservationCursor. rewrite bool_decide_false by done. rewrite Hd. cbn [mbind option_bind].
  rewrite Hu. cbn [mbind option_bind]. unfold fields. rewrite !fmap_app, !fold_left_app.
  cbn [fmap list_fmap fold_left fst snd]. rewrite (member_time _ _ Ht), (member_known _ _ Hk).
  case_bool_decide as Hsid; cbn [fmap list_fmap fold_left fst snd]; rewrite ?(member_series _ _ Hs), (member_id _ _ Hi);
    cbn [CuObservationTime CuSystemKnownAt CuSeriesID CuID empty_observation_cursor];
    by rewrite Hz, bool_decide_false, ?Hsid by done.
Qed.

Definition series_cursor_ok (c : seriesCursor) : Prop :=
  Forall (fun s => utf8_valid s = true /\ s <> "") [CuDataSourceCode c; CuSourceCode c; CuSeries c].

Lemma series_cursor_round_trip c : series_cursor_ok c ->
  encodeSeriesCursor c <> "" /\ decodeSeriesCursor (encodeSeriesCursor c) = Ok c.
Proof.
  unfold series_cursor_ok. rewrite !Forall_cons. intros ([H1 N1] & [H2 N2] & [H3 N3] & _).
  destruct c as [code source i]. cbn [CuDataSourceCode CuSourceCode CuSeries] in *.
  destruct (document_round_trip [("data_source_code", code); ("source_code", source); ("id", i)])
    as (text & Hm & Hn & Hd & Hu); [done|by repeat constructor|].
  assert (He : encodeSeriesCursor (mkSeriesCursor code source i) = EncodeToString text).
  { unfold encodeSeriesCursor. cbn [CuDataSourceCode CuSourceCode CuSeries]. cbn [fmap list_fmap fst snd] in Hm. by rewrite Hm. }
  rewrite He. split; [done|]. unfold decodeSeriesCursor. rewrite bool_decide_false by done. rewrite Hd. cbn [mbind option_bind].
  rewrite Hu. cbn [mbind option_bind fmap list_fmap fold_left fst snd series_cursor_member].
  change (equal_fold "data_source_code" "data_source_code") with true. change (equal_fold "source_code" "data_source_code") with false.
  change (equal_fold "source_code" "source_code") with true. change (equal_fold "id" "data_source_code") with false.
  change (equal_fold "id" "source_code") with false. change (equal_fold "id" "id") with true. cbn iota.
  rewrite !unmarshal_text_literal by done. cbn [mbind option_bind CuDataSourceCode CuSourceCode CuSeries].
  rewrite !unmarshal_text_literal by done. cbn [mbind option_bind CuDataSourceCode CuSourceCode CuSeries].
  rewrite !unmarshal_text_literal by done. cbn [mbind option_bind CuDataSourceCode CuSourceCode CuSeries].
  by rewrite !bool_decide_false by done.
Qed.

(** ** What a projection selects *)

(** *** Said without the queries

    The revisions of a mode known at [as_of]. *)
Definition known_by (mode : string) (as_of : time) (o : RevisionRow) : Prop :=
  if bool_decide (mode = ModeSystemAsOf) then re_system_known o <= pg_time as_of
  else if bool_decide (mode = ModeSourceAsOf) then exists known, re_source_known o = Some known /\ known <= pg_time as_of
  else True.

(** One revision was recorded after another; of two recorded at one time, the
    one of the greater identifier counts as the later. *)
Definition recorded_after (id : string) (o : RevisionRow) (id' : string) (o' : RevisionRow) : Prop :=
  re_system_known o' < re_system_known o \/ re_system_known o' = re_system_known o /\ string_ltb id' id = true.

(** It is shown instead of the other; in the source's view the clock of the source
    decides first. *)
Definition shown_instead (mode : string) (id : string) (o : RevisionRow) (id' : string) (o' : RevisionRow) : Prop :=
  if bool_decide (mode = ModeSourceAsOf) then
    match re_source_known o, re_source_known o' with
    | Some known, Some known' => known' < known \/ known' = known /\ recorded_after id o id' o'
    | _, _ => False
    end
  else recorded_after id o id' o'.

Definition same_point (x y : RevisionRow) : Prop := re_series x = re_series y /\ re_time x = re_time y.

(** What a listing of a series shows: its revisions in the window known at the
    time, but for the revisions mode only those no other replaces. *)
Definition shown (mode sid : string) (from to as_of : time) (t : store) (id : string) (o : RevisionRow) : Prop :=
  revisions t !! id = Some o /\ re_series o = sid /\ pg_time from <= re_time o < pg_time to /\ known_by mode as_of o /\
  (mode <> ModeRevisions -> forall id' o', revisions t !! id' = Some o' -> same_point o' o -> known_by mode as_of o' ->
     ~ shown_instead mode id' o' id o).

(** The order of a listing. *)
Definition precedes (mode : string) (x y : ObservationRow) : Prop :=
  or_time x < or_time y \/ or_time x = or_time y /\
    if bool_decide (mode = ModeRevisions)
    then or_system_known x < or_system_known y \/
         or_system_known x = or_system_known y /\ string_ltb (or_id x) (or_id y) = true
    else string_ltb (or_id x) (or_id y) = true.

Section rows.
Context (read_numeric : option Z -> Numeric) (jsonb_out : json -> string).
Implicit Types (t : store) (kv : revision).

(** The revisions of a mode known at [as_of]. *)
Definition known (mode : string) (as_of : time) (o : RevisionRow) : bool :=
  if bool_decide (mode = ModeSystemAsOf) then system_known_by as_of o
  else if bool_decide (mode = ModeSourceAsOf) then source_known_by as_of o else true.

(** [x] is shown instead of [y]: it was known later, and among those known at
    one time its identifier is the greater. *)
Definition supersedes (mode : string) (x y : revision) : bool :=
  before (if bool_decide (mode = ModeSourceAsOf) then by_source else by_system) x y.

(** A revision of a selection of series that the queries pick. *)
Definition picked (mode : string) (selected : string -> bool) (from to as_of : time) t (id : string) (o : RevisionRow) : Prop :=
  revisions t !! id = Some o /\ selected (re_series o) = true /\ in_window from to o = true /\ known mode as_of o = true /\
  (mode <> ModeRevisions -> forall id' o', revisions t !! id' = Some o' -> same_point o' o -> known mode as_of o' = true ->
     supersedes mode (id', o') (id, o) = false).

(** The revisions behind a listing, before it is ordered. *)
Definition base (mode : string) (selected : string -> bool) (from to as_of : time) t : list revision :=
  let where_ kv := selected (re_series (snd kv)) && in_window from to (snd kv) in
  if bool_decide (mode = ModeLatest) then List.filter where_ (latest_observation_revisions t)
  else if bool_decide (mode = ModeSystemAsOf) then ranked by_system (fun kv => where_ kv && system_known_by as_of (snd kv)) t
  else if bool_decide (mode = ModeSourceAsOf) then ranked by_source (fun kv => where_ kv && source_known_by as_of (snd kv)) t
  else List.filter where_ (map_to_list (revisions t)).

Lemma point_eq x y : point x y = Eq <-> same_point (snd x) (snd y).
Proof.
  unfold point, then_by, asc_text, asc, same_point. split.
  - destruct (string_cmp _ _) eqn:E; [|done..]. intros H. by rewrite (string_cmp_eq _ _ E), (Z.compare_eq _ _ H).
  - intros [-> ->]. unfold string_cmp. by rewrite string_ltb_irrefl, Z.compare_refl.
Qed.

Lemma by_system_eq x y : by_system x y = Eq -> fst x = fst y.
Proof.
  unfold by_system, then_by, desc_text. destruct (desc _ x y); [|done..]. intros H. by rewrite (string_cmp_eq _ _ H).
Qed.

Lemma by_source_eq x y : by_source x y = Eq -> fst x = fst y.
Proof. unfold by_source, then_by. destruct (desc_null _ x y); [|done..]. apply by_system_eq. Qed.

(** Rows of the table with one identifier are one row. *)
Lemma rows_inj t (P : revision -> bool) x y :
  x ∈ List.filter P (map_to_list (revisions t)) -> y ∈ List.filter P (map_to_list (revisions t)) -> fst x = fst y -> x = y.
Proof.
  rewrite !filter_elem. intros [Hx _] [Hy _]. destruct x as [k r], y as [k' r']. cbn. intros <-.
  apply elem_of_map_to_list in Hx, Hy. congruence.
Qed.

Lemma ranked_spec (rank : comparator revision) `{!Preordered rank} (where_ : revision -> bool) t kv :
  (forall x y, rank x y = Eq -> fst x = fst y) ->
  kv ∈ ranked rank where_ t <->
  revisions t !! fst kv = Some (snd kv) /\ where_ kv = true /\
  forall id' o', revisions t !! id' = Some o' -> where_ (id', o') = true -> same_point o' (snd kv) ->
    before rank (id', o') kv = false.
Proof.
  intros Hr. unfold ranked. rewrite distinct_sorted_spec by
    (try exact _; intros x y Hx Hy _ He; by eapply rows_inj, Hr). unfold least. rewrite filter_elem.
  destruct kv as [k r]. rewrite elem_of_map_to_list. cbn [fst snd].
  split; [intros [[H1 H2] H3]|intros (H1 & H2 & H3)]; (split_and!; [done..|]).
  - intros id' o' Hl Hw Hp. apply (H3 (id', o')); [by rewrite filter_elem, elem_of_map_to_list|].
    apply point_eq. destruct Hp. by split.
  - intros [id' o'] [Hl Hw]%filter_elem Hp. apply elem_of_map_to_list in Hl. apply (H3 id' o' Hl Hw).
    apply point_eq in Hp as []. by split.
Qed.

Lemma NoDup_filter_list {A} (P : A -> bool) (l : list A) : NoDup l -> NoDup (List.filter P l).
Proof. rewrite !NoDup_ListNoDup. apply List.NoDup_filter. Qed.

Lemma base_NoDup mode selected from to as_of t : NoDup (base mode selected from to as_of t).
Proof.
  assert (Hd : forall P, NoDup (List.filter P (map_to_list (revisions t)))) by (intros; apply NoDup_filter_list, NoDup_map_to_list).
  unfold base, latest_observation_revisions, ranked.
  repeat case_bool_decide; first [done | apply NoDup_distinct_sorted; done | apply NoDup_filter_list, NoDup_distinct_sorted; done].
Qed.
(** *** The two readings agree *)

Lemma string_before x y : match string_cmp x y with Lt => true | _ => false end = string_ltb x y.
Proof. unfold string_cmp. destruct (string_ltb x y) eqn:E; [done|]. by destruct (string_ltb y x). Qed.

Lemma string_lt x y : string_cmp x y = Lt <-> string_ltb x y = true.
Proof. rewrite <- string_before. by destruct (string_cmp x y). Qed.

Lemma known_spec mode as_of o : known mode as_of o = true <-> known_by mode as_of o.
Proof.
  unfold known, known_by, system_known_by, source_known_by. case_bool_decide; [apply Z.leb_le|].
  case_bool_decide; [|done]. destruct (re_source_known o) as [k|]; [rewrite Z.leb_le|]; naive_solver.
Qed.

Lemma by_system_before x y : before by_system x y = true <-> recorded_after (fst x) (snd x) (fst y) (snd y).
Proof.
  unfold before, by_system, then_by, desc, desc_text, recorded_after.
  destruct (Z.compare_spec (re_system_known (snd y)) (re_system_known (snd x))); [rewrite string_before|..]; naive_solver lia.
Qed.

Lemma by_source_before x y : is_Some (re_source_known (snd x)) -> is_Some (re_source_known (snd y)) ->
  before by_source x y = true <-> shown_instead ModeSourceAsOf (fst x) (snd x) (fst y) (snd y).
Proof.
  intros [k Hk] [k' Hk']. unfold shown_instead. decide_texts. rewrite Hk, Hk', <- by_system_before.
  unfold before, by_source, then_by at 1, desc_null. rewrite Hk, Hk'.
  destruct (Z.compare_spec k' k); naive_solver lia.
Qed.

Lemma supersedes_spec mode as_of x y : known_by mode as_of (snd x) -> known_by mode as_of (snd y) ->
  supersedes mode x y = true <-> shown_instead mode (fst x) (snd x) (fst y) (snd y).
Proof.
  unfold supersedes. destruct (decide (mode = ModeSourceAsOf)) as [->|Hm].
  - unfold known_by. decide_texts. intros (k & Hk & _) (k' & Hk' & _). by apply by_source_before; eexists.
  - intros _ _. unfold shown_instead. rewrite !bool_decide_false by done. apply by_system_before.
Qed.

(** What the queries pick is what a listing shows. *)
Lemma picked_shown mode sid from to as_of t id o :
  picked mode (fun s => bool_decide (s = sid)) from to as_of t id o <-> shown mode sid from to as_of t id o.
Proof.
  unfold picked, shown, in_window. rewrite known_spec, andb_true_iff, Z.leb_le, Z.ltb_lt, bool_decide_eq_true.
  split; intros (Hl & Hs & Hw & Hk & Hm); (split_and!; [done|done|lia..|done|]).
  - intros Hne id' o' Hl' Hp Hk' Hi. specialize (Hm Hne id' o' Hl' Hp (proj2 (known_spec _ _ _) Hk')).
    apply (supersedes_spec _ as_of (id', o') (id, o)) in Hi; [congruence|done..].
  - intros Hne id' o' Hl' Hp Hk'. apply known_spec in Hk'. apply not_true_is_false. intros Hi.
    apply (supersedes_spec _ as_of) in Hi; [|done..]. by apply (Hm Hne id' o').
Qed.

Definition listing_modes : list string := [ModeLatest; ModeSystemAsOf; ModeSourceAsOf; ModeRevisions].

Lemma same_window from to o o' : same_point o' o -> in_window from to o' = in_window from to o.
Proof. intros [_ H]. unfold in_window. by rewrite H. Qed.

(** The revisions behind a listing are those shown. *)
Lemma base_spec mode selected from to as_of t id o : mode ∈ listing_modes ->
  (id, o) ∈ base mode selected from to as_of t <-> picked mode selected from to as_of t id o.
Proof.
  assert (Hw : forall o', same_point o' o -> selected (re_series o) && in_window from to o = true ->
    selected (re_series o') && in_window from to o' = true).
  { intros o' Hp H. rewrite (same_window _ _ _ _ Hp). destruct Hp as [-> _]. done. }
  unfold listing_modes. rewrite !elem_of_cons. intros [->|[->|[->|[->|[]%elem_of_nil]]]]; unfold base, picked, known, supersedes;
    decide_texts.
  - rewrite filter_elem. unfold latest_observation_revisions. rewrite (ranked_spec _ _ _ _ by_system_eq). cbn [fst snd].
    rewrite andb_true_iff. naive_solver.
  - rewrite (ranked_spec _ _ _ _ by_system_eq). cbn [fst snd]. rewrite !andb_true_iff. split.
    + intros (Hl & [[Hs Hi] Hk] & Hm). split_and!; [done..|]. intros _ id' o' Hl' Hp Hk'. apply Hm; [done| |done].
      rewrite Hk', (Hw o' Hp); [done|by rewrite Hs, Hi].
    + intros (Hl & Hs & Hi & Hk & Hm). split_and!; [done..|]. intros id' o' Hl' [_ Hk']%andb_prop Hp. by apply Hm.
  - rewrite (ranked_spec _ _ _ _ by_source_eq). cbn [fst snd]. rewrite !andb_true_iff. split.
    + intros (Hl & [[Hs Hi] Hk] & Hm). split_and!; [done..|]. intros _ id' o' Hl' Hp Hk'. apply Hm; [done| |done].
      rewrite Hk', (Hw o' Hp); [done|by rewrite Hs, Hi].
    + intros (Hl & Hs & Hi & Hk & Hm). split_and!; [done..|]. intros id' o' Hl' [_ Hk']%andb_prop Hp. by apply Hm.
  - rewrite filter_elem, elem_of_map_to_list. cbn [fst snd]. rewrite andb_true_iff. naive_solver.
Qed.

Lemma base_lookup mode selected from to as_of t id o : mode ∈ listing_modes ->
  (id, o) ∈ base mode selected from to as_of t -> revisions t !! id = Some o.
Proof. intros Hm H. by apply base_spec in H as []. Qed.

(** ** The rows of a listing *)

Abbreviation row t := (observation_row read_numeric jsonb_out t).

(** A row has the identifier, series and clocks of its revision. *)
Lemma row_spec t kv x : row t kv = Some x ->
  or_id x = fst kv /\ or_series x = re_series (snd kv) /\ or_time x = re_time (snd kv) /\
  or_system_known x = re_system_known (snd kv).
Proof.
  unfold observation_row. destruct kv as [id o]. destruct (series t !! re_series o) as [s|]; [|done]. cbn [mbind option_bind].
  destruct (datasets t !! se_dataset s) as [d|]; [|done]. cbn [mbind option_bind].
  destruct (sources t !! da_source d) as [ds|]; [|done]. cbn [mbind option_bind].
  destruct (raw_objects t !! re_raw o) as [sha|]; [|done]. by intros [= <-].
Qed.

Definition listing mode selected from to as_of t : list ObservationRow :=
  omap (row t) (base mode selected from to as_of t).

Lemma listing_elem mode selected from to as_of t x : mode ∈ listing_modes ->
  x ∈ listing mode selected from to as_of t <->
  exists id o, picked mode selected from to as_of t id o /\ row t (id, o) = Some x.
Proof.
  intros Hm. unfold listing. rewrite list_elem_of_omap. split.
  - intros ([id o] & Hb & Hx). exists id, o. by rewrite <- base_spec.
  - intros (id & o & Hb & Hx). exists (id, o). by rewrite base_spec.
Qed.

(** A row is determined by its identifier. *)
Lemma listing_inj mode selected from to as_of t x y : mode ∈ listing_modes ->
  x ∈ listing mode selected from to as_of t -> y ∈ listing mode selected from to as_of t -> or_id x = or_id y -> x = y.
Proof.
  intros Hm. rewrite !listing_elem by done. intros (id & o & [Hl _] & Hx) (id' & o' & [Hl' _] & Hy) He.
  pose proof (row_spec _ _ _ Hx) as (Hi & _). pose proof (row_spec _ _ _ Hy) as (Hi' & _). cbn in Hi, Hi'.
  assert (id' = id) as -> by congruence. assert (o' = o) as -> by congruence. congruence.
Qed.

Lemma NoDup_omap {A B} (f : A -> option B) (l : list A) :
  (forall x y z, x ∈ l -> y ∈ l -> f x = Some z -> f y = Some z -> x = y) -> NoDup l -> NoDup (omap f l).
Proof.
  intros Hf Hl. induction Hl as [|x l Hx Hl IH]; cbn; [constructor|].
  assert (IH' : NoDup (omap f l)) by (apply IH; intros a b z Ha Hb; apply Hf; by right).
  destruct (f x) as [z|] eqn:E; [|done]. constructor; [|done]. rewrite list_elem_of_omap. intros (y & Hy & Ey).
  destruct Hx. rewrite (Hf x y z); [done|by left|by right|done|done].
Qed.

Lemma listing_NoDup mode selected from to as_of t : mode ∈ listing_modes -> NoDup (listing mode selected from to as_of t).
Proof.
  intros Hm. apply NoDup_omap; [|apply base_NoDup]. intros [i o] [i' o'] z Hx Hy Ex Ey.
  apply base_lookup in Hx, Hy; [|done..]. apply row_spec in Ex as (E1 & _), Ey as (E2 & _). cbn in *.
  assert (i' = i) as -> by congruence. congruence.
Qed.

(** ** Orders and cursors *)

(** Orders whose last key is the identifier. *)
Definition identifies (order : comparator ObservationRow) : Prop := forall x y, order x y = Eq -> or_id x = or_id y.

Lemma asc_text_eq {A} (key : A -> string) x y : asc_text key x y = Eq -> key x = key y.
Proof. apply string_cmp_eq. Qed.

Lemma then_by_eq {A} (c d : comparator A) x y : (c >> d) x y = Eq -> d x y = Eq.
Proof. unfold then_by. by destruct (c x y). Qed.

Lemma by_time_id_identifies : identifies by_time_id.
Proof. intros x y H. by apply then_by_eq, asc_text_eq in H. Qed.
Lemma by_time_series_identifies : identifies by_time_series.
Proof. intros x y H. by apply then_by_eq, asc_text_eq in H. Qed.
Lemma by_time_known_identifies : identifies by_time_known.
Proof. intros x y H. by apply then_by_eq, asc_text_eq in H. Qed.

Lemma listing_total order mode selected from to as_of t : identifies order -> mode ∈ listing_modes ->
  total_on order (listing mode selected from to as_of t).
Proof. intros Ho Hm x y Hx Hy He. by eapply listing_inj, Ho. Qed.

Lemma compare_cases a b : (a ?= b) = if a <? b then Lt else if b =? a then Eq else Gt.
Proof. destruct (Z.compare_spec a b); repeat (case_match; bool_simp); lia || done. Qed.

Lemma string_cmp_cases x y : string_cmp x y = if string_ltb x y then Lt else if bool_decide (Some x = Some y) then Eq else Gt.
Proof.
  unfold string_cmp. destruct (string_ltb x y) eqn:E; [done|]. case_bool_decide as He.
  - injection He as ->. by rewrite string_ltb_irrefl.
  - destruct (string_ltb y x) eqn:E'; [done|]. destruct He. by rewrite (string_ltb_eq _ _ E E').
Qed.

(** The predicates of the queries are "after the row the cursor was taken from". *)
Lemma after_id_before x o : pg_time (or_time x) = or_time x ->
  after_id true (or_time x) (Some (or_id x)) o = before by_time_id x o.
Proof.
  intros Hx. unfold after_id, before, by_time_id, then_by, asc, asc_text. rewrite Hx, compare_cases. cbn [negb orb text_gt].
  destruct (or_time x <? or_time o) eqn:E; [done|]. cbn [orb]. destruct (or_time o =? or_time x); [|done].
  by rewrite string_before.
Qed.

Lemma after_series_before x o : pg_time (or_time x) = or_time x ->
  after_series true (or_time x) (Some (or_series x)) (Some (or_id x)) o = before by_time_series x o.
Proof.
  intros Hx. unfold after_series, before, by_time_series, then_by, asc, asc_text. rewrite Hx, compare_cases.
  cbn [negb orb text_gt]. destruct (or_time x <? or_time o) eqn:E; [done|]. cbn [orb].
  destruct (or_time o =? or_time x); [|done]. cbn [andb]. rewrite string_cmp_cases. unfold text_eq.
  destruct (string_ltb (or_series x) (or_series o)); [done|]. cbn [orb]. case_bool_decide; [|done].
  by rewrite string_before.
Qed.

Lemma after_revision_before x o : pg_time (or_time x) = or_time x -> pg_time (or_system_known x) = or_system_known x ->
  after_revision true (or_time x) (or_system_known x) (Some (or_id x)) o = before by_time_known x o.
Proof.
  intros Hx Hk. unfold after_revision, before, by_time_known, then_by, asc, asc_text. rewrite Hx, Hk, compare_cases.
  cbn [negb orb text_gt]. destruct (or_time x <? or_time o) eqn:E; [done|]. cbn [orb].
  destruct (or_time o =? or_time x); [|done]. cbn [andb]. rewrite compare_cases.
  destruct (or_system_known x <? or_system_known o); [done|]. cbn [orb].
  destruct (or_system_known o =? or_system_known x); [|done]. by rewrite string_before.
Qed.

(** The page after the rows [pre] of a listing. *)
Lemma page_rest order after mode selected from to as_of t limit pre post : identifies order -> Preordered order ->
  mode ∈ listing_modes ->
  insertion_sort (before order) (listing mode selected from to as_of t) = pre ++ post ->
  (forall o, after o = match last pre with Some x => before order x o | None => true end) ->
  page_of read_numeric jsonb_out order after limit t (base mode selected from to as_of t) = take (Z.to_nat limit) post.
Proof.
  intros Ho Hp Hm Hl Ha. unfold page_of. fold (listing mode selected from to as_of t). f_equal.
  erewrite filter_ext by exact Ha. destruct pre as [|y pre _] using rev_ind; cbn [last].
  - by rewrite filter_true.
  - rewrite last_snoc. rewrite <- app_assoc in Hl. apply (filter_after order _ pre y); [|by apply listing_total|done].
    by apply listing_NoDup.
Qed.
End rows.

(** ** Cutting a page *)

Lemma cut_page_spec {A B} limit (post : list A) (item : A -> B) (cursor_of : A -> string) : 0 < limit ->
  let page := cut_page limit (take (Z.to_nat (limit + 1)) post) item cursor_of in
  Items page = item <$> take (Z.to_nat limit) post /\ HasMore page = (limit <? Z.of_nat (length post)) /\
  (HasMore page = true -> Some (NextCursor page) = cursor_of <$> last (take (Z.to_nat limit) post)).
Proof.
  intros Hl page. unfold page, cut_page. rewrite length_take.
  assert (Hb : (limit <? Z.of_nat (Z.to_nat (limit + 1) `min` length post)) = (limit <? Z.of_nat (length post)))
    by (apply Bool.eq_iff_eq_true; rewrite !Z.ltb_lt; lia).
  rewrite Hb. destruct (Z.ltb_spec limit (Z.of_nat (length post))) as [Hm|Hm]; cbn [Items HasMore NextCursor].
  - rewrite take_take, Nat.min_l by lia. split_and!; [done..|]. intros _. rewrite lookup_take_lt by lia.
    rewrite last_lookup, length_take, Nat.min_l, lookup_take_lt by lia.
    replace (pred (Z.to_nat limit)) with (Z.to_nat (limit - 1)) by lia.
    destruct (post !! Z.to_nat (limit - 1)) eqn:E; [done|]. apply lookup_ge_None in E. lia.
  - split_and!; [|done|done]. by rewrite !take_ge by lia.
Qed.

(** A page as the client reads it. *)
Definition page_result {A} (r : res (Page A)) : option (list A * option string) :=
  match r with
  | Ok page => Some (Items page, if HasMore page then Some (NextCursor page) else None)
  | Err _ => None
  end.

Lemma page_result_cut {A B} limit (pre post : list A) (item : A -> B) (cursor_of : A -> string) : 0 < limit ->
  page_result (Ok (cut_page limit (take (Z.to_nat (limit + 1)) post) item cursor_of)) =
  page_after item cursor_of (Z.to_nat limit) pre post.
Proof.
  intros Hl. destruct (cut_page_spec limit post item cursor_of Hl) as (H1 & H2 & H3). unfold page_result, page_after.
  rewrite H1, H2. f_equal. f_equal.
  destruct (Z.ltb_spec limit (Z.of_nat (length post))), (Nat.ltb_spec (Z.to_nat limit) (length post)); try lia; [|done].
  rewrite H2 in H3. by apply H3.
Qed.

Lemma cut_page_fmap {A B C} limit (rows : list A) (f : A -> B) (item : B -> C) (cursor_of : B -> string) :
  cut_page limit (f <$> rows) item cursor_of = cut_page limit rows (item ∘ f) (cursor_of ∘ f).
Proof.
  unfold cut_page. rewrite length_fmap, list_lookup_fmap, <- fmap_take, <- !list_fmap_compose. by destruct (rows !! _).
Qed.

