(* ===== verification/TimelineProofs.v ===== *)
(** What the timeline answers: exact projections, answers that later revisions do
    not change, and pages that put together the whole listing. *)

From S2P Require Import Prelude GoString Digits GoTime TimeText Base64 Order Paging Tables Db Json JsonTree JsonText JsonQuote Timeline TimelineRows.
From Stdlib Require Import Ascii.
#[local] Open Scope Z_scope.

Import Timeline.

Section service.
Context (scan_uuid : string -> option string) (read_numeric : option Z -> Numeric) (jsonb_out : json -> string).

Abbreviation observations := (Observations true scan_uuid read_numeric jsonb_out).
Abbreviation uuid := (parseUUID scan_uuid).
Abbreviation listed := (listing read_numeric jsonb_out).
Implicit Types (t : store) (req : ObservationRequest).

(** ** The answers, failures apart *)

Lemma steady_load_series context id : steady (load_series jsonb_out context id).
Proof. unfold load_series. repeat steady_step. Qed.
Hint Resolve steady_load_series : go.

Definition series_of t (id : string) : res TimelineSeriesRow :=
  match GetTimelineSeries jsonb_out id t with
  | Ok row => Ok row
  | Err _ => Err ErrNotFound
  end.

Lemma answer_load_series context id t : answer (load_series jsonb_out context id) t = series_of t id.
Proof.
  unfold load_series, series_of. rewrite answer_map_err, answer_pool_query. unfold GetTimelineSeries.
  by destruct (series t !! id ≫= _).
Qed.

Definition order_of (mode : string) : comparator ObservationRow :=
  if bool_decide (mode = ModeRevisions) then by_time_known else by_time_id.

Definition mode_of req : string := if bool_decide (RqMode req = "") then ModeLatest else RqMode req.
Definition from_of req : time := or_default (RqFrom req) 0.
Definition to_of (now : time) req : time := or_default (RqTo req) (tomorrow now).
Definition only (sid : string) : string -> bool := fun s => bool_decide (s = sid).

(** What a request is checked for before its cursor is read: the series. *)
Definition admitted (now : time) (raw : string) req t : res string :=
  let! _ := validateLimit (RqLimit req) in
  if negb (bool_decide (RqMode req ∈ [""; ModeLatest; ModeSourceAsOf; ModeSystemAsOf; ModeRevisions])) then Err ErrInvalidMode
  else
    let! sid := uuid raw in
    let! row := series_of t sid in
    if bool_decide (mode_of req = ModeSourceAsOf) && negb (ts_source_as_of row) then Err ErrSourceAsOfUnsupported
    else if negb (Before (from_of req) (to_of now req)) then Err ErrInvalidWindow
    else if negb (bool_decide (mode_of req ∈ [ModeLatest; ModeRevisions; ModeCombined])) && IsZero (RqAsOf req)
    then Err ErrInvalidWindow else Ok sid.

Definition rows_after (mode : string) (c : observationCursor) (cid : option string) : ObservationRow -> bool :=
  let has := negb (bool_decide (CuID c = "")) in
  if bool_decide (mode = ModeRevisions) then after_revision has (CuObservationTime c) (CuSystemKnownAt c) cid
  else after_id has (CuObservationTime c) cid.

Definition observation_page (now : time) (sid : string) (c : observationCursor) (cid : option string) req t : Page Observation :=
  cut_page (RqLimit req)
    (observation_of <$>
      page_of read_numeric jsonb_out (order_of (mode_of req)) (rows_after (mode_of req) c cid) (RqLimit req + 1) t
        (base (mode_of req) (only sid) (from_of req) (to_of now req) (RqAsOf req) t))
    id observation_cursor_of.

Lemma mode_cases req : RqMode req ∈ [""; ModeLatest; ModeSourceAsOf; ModeSystemAsOf; ModeRevisions] -> mode_of req ∈ listing_modes.
Proof.
  unfold mode_of, listing_modes. rewrite !elem_of_cons. intros H. case_bool_decide; naive_solver.
Qed.

Lemma steady_observations now raw req : steady (observations now raw req).
Proof. unfold Observations. repeat steady_step. Qed.

Lemma observations_answer now raw req t :
  answer (observations now raw req) t =
    let! sid := admitted now raw req t in
    let! c := decodeObservationCursor (RqCursor req) in
    let! cid := cursor_uuid scan_uuid (CuID c) in
    Ok (observation_page now sid c cid req t).
Proof.
  unfold Observations, admitted. answers. destruct (validateLimit _); [cbn [res_bind]|done].
  destruct (negb _) eqn:Em; answers; [done|]. apply negb_false_iff, bool_decide_eq_true, mode_cases in Em.
  destruct (uuid raw) as [sid|]; [cbn [res_bind negb]|done]. answers. rewrite answer_load_series.
  destruct (series_of t sid) as [r|]; [cbn [res_bind]|done].
  cbv zeta. fold (mode_of req). fold (from_of req). fold (to_of now req).
  destruct (_ && negb (ts_source_as_of r)); [done|]. destruct (negb (Before _ _)); [done|]. destruct (negb _ && _); [done|].
  answers. cbn [res_bind]. destruct (decodeObservationCursor _) as [c|]; [cbn [res_bind]|done]. answers.
  destruct (cursor_uuid _ _) as [cid|]; [cbn [res_bind]|done]. unfold observation_page, order_of, rows_after, base.
  unfold listing_modes in Em. rewrite !elem_of_cons in Em. set (asof := RqAsOf req). set (from := from_of req). set (to := to_of now req).
  destruct Em as [->|[->|[->|[->|[]%elem_of_nil]]]]; decide_texts; answers; done.
Qed.

(** A successful call: its request was admitted, its cursor read. *)
Lemma observations_ok now raw req fs t page t' :
  run (observations now raw req) fs t = (Ok page, t') ->
  t' = t /\ exists sid c cid, admitted now raw req t = Ok sid /\ decodeObservationCursor (RqCursor req) = Ok c /\
    cursor_uuid scan_uuid (CuID c) = Ok cid /\ page = observation_page now sid c cid req t.
Proof.
  intros Hr. destruct (steady_run _ _ _ _ _ (steady_observations now raw req) Hr) as [-> Ha]. split; [done|].
  specialize (Ha page eq_refl). rewrite observations_answer in Ha.
  destruct (admitted now raw req t) as [sid|] eqn:E1; [cbn [res_bind] in Ha|done].
  destruct (decodeObservationCursor _) as [c|] eqn:E2; [cbn [res_bind] in Ha|done].
  destruct (cursor_uuid _ _) as [cid|] eqn:E3; [cbn [res_bind] in Ha|done]. injection Ha as <-. by exists sid, c, cid.
Qed.

Lemma admitted_inv now raw req t sid : admitted now raw req t = Ok sid ->
  uuid raw = Ok sid /\ 1 <= RqLimit req <= 200 /\ mode_of req ∈ listing_modes.
Proof.
  unfold admitted, validateLimit. destruct ((RqLimit req <? 1) || (200 <? RqLimit req)) eqn:El; [done|]. cbn [res_bind].
  destruct (negb _) eqn:Em; [done|]. apply negb_false_iff, bool_decide_eq_true, mode_cases in Em.
  destruct (uuid raw) as [sid'|]; [cbn [res_bind]|done]. destruct (series_of t sid'); [cbn [res_bind]|done].
  destruct (_ && negb (ts_source_as_of _)); [done|]. destruct (negb (Before _ _)); [done|]. destruct (negb _ && _); [done|].
  intros [= ->]. bool_simp. split_and!; [done|lia..|done].
Qed.

(** ** Pages *)

(** The cursor of no row. *)
Lemma first_cursor : decodeObservationCursor "" = Ok empty_observation_cursor /\ cursor_uuid scan_uuid "" = Ok None.
Proof. done. Qed.

Lemma rows_after_first mode cid o : rows_after mode empty_observation_cursor cid o = true.
Proof. unfold rows_after. by case_bool_decide. Qed.

#[local] Instance order_of_preordered mode : Preordered (order_of mode).
Proof. unfold order_of. case_bool_decide; exact _. Qed.

Lemma order_of_identifies mode : identifies (order_of mode).
Proof. unfold order_of. case_bool_decide; [apply by_time_known_identifies|apply by_time_id_identifies]. Qed.
Hint Resolve order_of_identifies : go.

(** The listing a request pages through. *)
Definition full_listing (now : time) (sid : string) req t : list ObservationRow :=
  insertion_sort (before (order_of (mode_of req)))
    (listed (mode_of req) (only sid) (from_of req) (to_of now req) (RqAsOf req) t).

Lemma full_listing_elem now sid req t x : mode_of req ∈ listing_modes ->
  x ∈ full_listing now sid req t <->
  exists id o, picked (mode_of req) (only sid) (from_of req) (to_of now req) (RqAsOf req) t id o /\
    observation_row read_numeric jsonb_out t (id, o) = Some x.
Proof. intros Hm. unfold full_listing. by rewrite insertion_sort_elem, listing_elem. Qed.

Lemma full_listing_sorted now sid req t :
  StronglySorted (below (before (order_of (mode_of req)))) (full_listing now sid req t).
Proof. apply sort_sorted. exact _. Qed.

Lemma full_listing_NoDup now sid req t : mode_of req ∈ listing_modes -> NoDup (full_listing now sid req t).
Proof. intros Hm. unfold full_listing. rewrite insertion_sort_perm. by apply listing_NoDup. Qed.

Lemma full_listing_shown now sid req t x : mode_of req ∈ listing_modes ->
  x ∈ full_listing now sid req t <->
  exists id o, shown (mode_of req) sid (from_of req) (to_of now req) (RqAsOf req) t id o /\
    observation_row read_numeric jsonb_out t (id, o) = Some x.
Proof. intros Hm. rewrite full_listing_elem by done. by setoid_rewrite picked_shown. Qed.

Lemma order_of_precedes mode x y : order_of mode x y = Lt <-> precedes mode x y.
Proof.
  unfold order_of, precedes. case_bool_decide; unfold by_time_known, by_time_id, then_by, asc, asc_text.
  - destruct (Z.compare_spec (or_time x) (or_time y)); [|naive_solver lia..].
    destruct (Z.compare_spec (or_system_known x) (or_system_known y)); [rewrite string_lt|..]; naive_solver lia.
  - destruct (Z.compare_spec (or_time x) (or_time y)); [rewrite string_lt|..]; naive_solver lia.
Qed.

Lemma full_listing_ordered now sid req t : mode_of req ∈ listing_modes ->
  StronglySorted (precedes (mode_of req)) (full_listing now sid req t).
Proof.
  intros Hm. assert (Ht : total_on (order_of (mode_of req)) (full_listing now sid req t)).
  { eapply total_on_perm; [by unfold full_listing; rewrite insertion_sort_perm|]. by apply listing_total; [apply order_of_identifies|]. }
  pose proof (sorted_strict _ _ Ht (full_listing_NoDup now sid req t Hm) (full_listing_sorted now sid req t)) as Hs.
  clear Ht. induction Hs as [|x l Hs IH HF]; [constructor|]. constructor; [done|].
  eapply Forall_impl; [exact HF|]. intros y. apply order_of_precedes.
Qed.

(** But for revisions, one row for each time. *)
Lemma one_per_time now sid req t : mode_of req ∈ listing_modes -> mode_of req <> ModeRevisions ->
  NoDup (or_time <$> full_listing now sid req t).
Proof.
  intros Hm Hr. apply NoDup_fmap_2_strong; [|by apply full_listing_NoDup]. intros x y Hx Hy He.
  pose proof Hx as Hx'. pose proof Hy as Hy'. apply full_listing_elem in Hx', Hy'; [|done..].
  destruct Hx' as (i & o & (Hl & Hs & Hw & Hk & Hmin) & Ex), Hy' as (i' & o' & (Hl' & Hs' & Hw' & Hk' & Hmin') & Ey).
  apply row_spec in Ex as (Ei & Es & Et & _), Ey as (Ei' & Es' & Et' & _). cbn in *.
  unfold only in Hs, Hs'. bool_simp. assert (Hp : same_point o o') by (split; congruence).
  assert (Hp' : same_point o' o) by (destruct Hp; by split).
  specialize (Hmin Hr i' o' Hl' Hp' Hk'). specialize (Hmin' Hr i o Hl Hp Hk). unfold supersedes in Hmin, Hmin'.
  eapply (listing_inj read_numeric jsonb_out _ _ _ _ _ t); [done|by unfold full_listing in Hx; rewrite insertion_sort_elem in Hx|
    by unfold full_listing in Hy; rewrite insertion_sort_elem in Hy|].
  rewrite Ei, Ei'. assert (Hrank : exists rank, Preordered rank /\ (forall a b, rank a b = Eq -> fst a = fst b) /\
    before rank (i', o') (i, o) = false /\ before rank (i, o) (i', o') = false).
  { case_bool_decide; eexists; (split; [|split; [|split; [exact Hmin|exact Hmin']]]); try exact _; [apply by_source_eq|apply by_system_eq]. }
  destruct Hrank as (rank & Hpre & Hid & H1 & H2). apply (Hid (i, o) (i', o')). rewrite (before_false rank) in H1, H2.
  rewrite (cmp_opp (c := rank) (i, o) (i', o')) in H2. destruct (rank (i, o) (i', o')); naive_solver.
Qed.

Lemma page_from now sid c cid req t pre post : mode_of req ∈ listing_modes ->
  full_listing now sid req t = pre ++ post ->
  (forall o, rows_after (mode_of req) c cid o = match last pre with Some x => before (order_of (mode_of req)) x o | None => true end) ->
  observation_page now sid c cid req t =
  cut_page (RqLimit req) (take (Z.to_nat (RqLimit req + 1)) post) observation_of (observation_cursor_of ∘ observation_of).
Proof.
  intros Hm Hf Ha. unfold observation_page. rewrite cut_page_fmap. f_equal.
  by apply (page_rest _ _ _ _ _ _ _ _ _ _ _ pre); [apply order_of_identifies|exact _|..].
Qed.

(** ** Listings over two stores *)

(** [t'] is [t] with more rows; the revisions recorded since were not known at
    [as_of]. *)
Record grown (as_of : time) (t t' : store) : Prop := {
  grown_sources : sources t ⊆ sources t';
  grown_datasets : datasets t ⊆ datasets t';
  grown_series : series t ⊆ series t';
  grown_raw : raw_objects t ⊆ raw_objects t';
  grown_revisions : revisions t ⊆ revisions t';
  grown_later id o : revisions t' !! id = Some o -> revisions t !! id = Some o \/ pg_time as_of < re_system_known o;
}.

(** Every revision has its series, dataset, source and raw object. *)
Definition referenced t : Prop :=
  forall id o, revisions t !! id = Some o -> is_Some (observation_row read_numeric jsonb_out t (id, o)).

Lemma grown_row as_of t t' kv x : grown as_of t t' ->
  observation_row read_numeric jsonb_out t kv = Some x -> observation_row read_numeric jsonb_out t' kv = Some x.
Proof.
  intros [H1 H2 H3 H4 _ _]. unfold observation_row. destruct kv as [id o].
  destruct (series t !! re_series o) as [se|] eqn:E1; [|done]. rewrite (lookup_weaken _ _ _ _ E1 H3). cbn [mbind option_bind].
  destruct (datasets t !! se_dataset se) as [d|] eqn:E2; [|done]. rewrite (lookup_weaken _ _ _ _ E2 H2). cbn [mbind option_bind].
  destruct (sources t !! da_source d) as [ds|] eqn:E3; [|done]. rewrite (lookup_weaken _ _ _ _ E3 H1). cbn [mbind option_bind].
  destruct (raw_objects t !! re_raw o) as [sha|] eqn:E4; [|done]. by rewrite (lookup_weaken _ _ _ _ E4 H4).
Qed.

Lemma grown_picked as_of t t' selected from to id o : grown as_of t t' ->
  picked ModeSystemAsOf selected from to as_of t' id o <-> picked ModeSystemAsOf selected from to as_of t id o.
Proof.
  intros Hg. unfold picked, known. decide_texts. unfold system_known_by. split; intros (Hl & Hs & Hw & Hk & Hm).
  - apply Z.leb_le in Hk. destruct (grown_later _ _ _ Hg _ _ Hl) as [Hl'|]; [|lia]. split_and!; [done..|lia|].
    intros Hne id' o' Ho'. apply Hm; [done|]. by eapply lookup_weaken, Hg.
  - split_and!; [by eapply lookup_weaken, Hg|done..|]. intros Hne id' o' Ho' Hp Hk'.
    destruct (grown_later _ _ _ Hg _ _ Ho') as [Ho''|]; [by apply Hm|]. apply Z.leb_le in Hk'. lia.
Qed.

Lemma listing_same t t' mode mode' selected from to as_of as_of' : mode ∈ listing_modes -> mode' ∈ listing_modes ->
  (forall x, x ∈ listed mode selected from to as_of t <-> x ∈ listed mode' selected from to as_of' t') ->
  listed mode selected from to as_of t ≡ₚ listed mode' selected from to as_of' t'.
Proof. intros Hm Hm' H. apply NoDup_Permutation; [by apply listing_NoDup..|done]. Qed.

Lemma page_of_perm order after limit t t' (l l' : list revision) : Preordered order ->
  omap (observation_row read_numeric jsonb_out t) l ≡ₚ omap (observation_row read_numeric jsonb_out t') l' ->
  total_on order (omap (observation_row read_numeric jsonb_out t) l) ->
  page_of read_numeric jsonb_out order after limit t l = page_of read_numeric jsonb_out order after limit t' l'.
Proof.
  intros Ho Hp Ht. unfold page_of. f_equal. apply sort_unique; [exact _|by apply filter_perm|].
  intros x y [Hx _]%filter_elem [Hy _]%filter_elem. by apply Ht.
Qed.

Lemma grown_listing as_of t t' selected from to : grown as_of t t' -> referenced t ->
  listed ModeSystemAsOf selected from to as_of t ≡ₚ listed ModeSystemAsOf selected from to as_of t'.
Proof.
  intros Hg Hf. apply listing_same; [set_solver..|]. intros x. rewrite !listing_elem by set_solver. split.
  - intros (id & o & Hs & Hx). exists id, o. rewrite grown_picked by done. split; [done|by eapply grown_row].
  - intros (id & o & Hs & Hx). rewrite grown_picked in Hs by done. exists id, o. split; [done|].
    destruct (Hf id o) as [y Hy]; [apply Hs|]. rewrite Hy. rewrite (grown_row _ _ _ _ _ Hg Hy) in Hx. done.
Qed.

Lemma to_of_given now now' req : IsZero (RqTo req) = false -> to_of now req = to_of now' req.
Proof. intros H. unfold to_of, or_default. by rewrite H. Qed.

(** A system-as-of answer does not change: asked again once any number of
    series and revisions were recorded after the request's time, the same
    request is answered with the same page. *)
Theorem as_of_stable now now' raw req fs fs' t t' page page' t1 t1' :
  RqMode req = ModeSystemAsOf -> IsZero (RqTo req) = false -> grown (RqAsOf req) t t' -> referenced t ->
  run (observations now raw req) fs t = (Ok page, t1) ->
  run (observations now' raw req) fs' t' = (Ok page', t1') ->
  page = page'.
Proof.
  intros Hm Hto Hg Hf H1 H2. destruct (observations_ok _ _ _ _ _ _ _ H1) as (_ & sid & c & cid & Ha & Hc & Hi & ->).
  destruct (observations_ok _ _ _ _ _ _ _ H2) as (_ & sid' & c' & cid' & Ha' & Hc' & Hi' & ->).
  apply admitted_inv in Ha as (Hu & _ & Hmode), Ha' as (Hu' & _ & _). rewrite Hu in Hu'. injection Hu' as <-.
  rewrite Hc in Hc'. injection Hc' as <-. rewrite Hi in Hi'. injection Hi' as <-.
  assert (Hmo : mode_of req = ModeSystemAsOf) by (unfold mode_of; by rewrite Hm).
  unfold observation_page. f_equal. f_equal. rewrite (to_of_given now now' req Hto), Hmo. apply page_of_perm; [exact _|by apply grown_listing|].
  apply listing_total; [apply order_of_identifies|set_solver].
Qed.

Lemma latest_picked sid from to as_of as_of' t id o :
  (forall i r, revisions t !! i = Some r -> re_series r = sid -> re_system_known r <= pg_time as_of') ->
  picked ModeLatest (only sid) from to as_of t id o <-> picked ModeSystemAsOf (only sid) from to as_of' t id o.
Proof.
  intros Hk. unfold picked, known. decide_texts. unfold system_known_by, only. split; intros (Hl & Hs & Hw & Hkn & Hm); bool_simp.
  - split_and!; [done|by apply bool_decide_eq_true|done|apply Z.leb_le; by eapply Hk|].
    intros _ id' o' Hl' Hp _. by apply Hm.
  - split_and!; [done|by apply bool_decide_eq_true|done..|]. intros _ id' o' Hl' Hp _. apply Hm; [done..|].
    apply Z.leb_le. eapply Hk; [done|]. destruct Hp. congruence.
Qed.

Definition at_time req (as_of : time) : ObservationRequest :=
  mkObservationRequest ModeSystemAsOf (RqFrom req) (RqTo req) as_of (RqLimit req) (RqCursor req).

(** The latest view of a series, computed from the view of the database, is
    its system-as-of view at any time by which all its revisions were known. *)
Theorem latest_is_as_of now raw req as_of fs fs' t page page' t1 t1' :
  RqMode req = ModeLatest ->
  (forall i r, revisions t !! i = Some r -> uuid raw = Ok (re_series r) -> re_system_known r <= pg_time as_of) ->
  run (observations now raw req) fs t = (Ok page, t1) ->
  run (observations now raw (at_time req as_of)) fs' t = (Ok page', t1') ->
  page = page'.
Proof.
  intros Hm Hk H1 H2. destruct (observations_ok _ _ _ _ _ _ _ H1) as (_ & sid & c & cid & Ha & Hc & Hi & ->).
  destruct (observations_ok _ _ _ _ _ _ _ H2) as (_ & sid' & c' & cid' & Ha' & Hc' & Hi' & ->).
  apply admitted_inv in Ha as (Hu & _ & _), Ha' as (Hu' & _ & _). rewrite Hu in Hu'. injection Hu' as <-.
  cbn [at_time RqCursor] in Hc'. rewrite Hc in Hc'. injection Hc' as <-. rewrite Hi in Hi'. injection Hi' as <-.
  assert (Hmo : mode_of req = ModeLatest) by (unfold mode_of; by rewrite Hm).
  unfold observation_page. rewrite Hmo. change (mode_of (at_time req as_of)) with ModeSystemAsOf.
  cbn [at_time RqLimit RqAsOf]. f_equal. f_equal. change (from_of (at_time req as_of)) with (from_of req).
  change (to_of now (at_time req as_of)) with (to_of now req). change (order_of ModeSystemAsOf) with (order_of ModeLatest).
  change (rows_after ModeSystemAsOf c cid) with (rows_after ModeLatest c cid). apply page_of_perm; [exact _| |].
  - apply listing_same; [set_solver..|]. intros x. rewrite !listing_elem by set_solver.
    setoid_rewrite (latest_picked sid _ _ _ as_of t); [done|]. intros i r Hr <-. by eapply Hk.
  - apply listing_total; [apply order_of_identifies|set_solver].
Qed.

(** C31: a successful call lists exactly the projection it was asked for: the
    stored revisions of the series in the window that were known at the
    request's time, but for the revisions mode each observation time with the
    revision that supersedes all others known then, in order, cut at the limit. *)
Theorem observations_exact now raw req fs t t' page :
  run (observations now raw req) fs t = (Ok page, t') -> RqCursor req = "" ->
  t' = t /\ exists sid rows, uuid raw = Ok sid /\
    StronglySorted (precedes (mode_of req)) rows /\
    (mode_of req <> ModeRevisions -> NoDup (or_time <$> rows)) /\
    (forall x, x ∈ rows <-> exists id o,
      shown (mode_of req) sid (from_of req) (to_of now req) (RqAsOf req) t id o /\
      observation_row read_numeric jsonb_out t (id, o) = Some x) /\
    Items page = observation_of <$> take (Z.to_nat (RqLimit req)) rows /\
    HasMore page = (RqLimit req <? Z.of_nat (length rows)).
Proof.
  intros Hr Hc. destruct (observations_ok _ _ _ _ _ _ _ Hr) as (-> & sid & c & cid & Ha & Hd & Hi & ->). split; [done|].
  rewrite Hc in Hd. injection Hd as <-. injection Hi as <-. destruct (admitted_inv _ _ _ _ _ Ha) as (Hu & Hl & Hm).
  exists sid, (full_listing now sid req t). split; [done|]. split; [by apply full_listing_ordered|].
  split; [by apply one_per_time|]. split; [intros x; by apply full_listing_shown|].
  rewrite (page_from now sid empty_observation_cursor None req t [] (full_listing now sid req t) Hm);
    [|done|intros o; apply rows_after_first].
  by destruct (cut_page_spec (RqLimit req) (full_listing now sid req t) observation_of
    (observation_cursor_of ∘ observation_of)) as (H1 & H2 & _); [lia|].
Qed.

(** ** Following the cursors *)

Definition with_cursor req (cursor : string) : ObservationRequest :=
  mkObservationRequest (RqMode req) (RqFrom req) (RqTo req) (RqAsOf req) (RqLimit req) cursor.

(** One request of a client that follows the cursors, its clock readings given. *)
Definition fetch_observations (now : string -> time) (raw : string) req t (cursor : string)
    : option (list Observation * option string) :=
  page_result (fst (run (observations (now cursor) raw (with_cursor req cursor)) [] t)).

(** An identifier the driver writes is read back by it. *)
Definition id_ok (id : string) : Prop := uuid id = Ok id /\ utf8_valid id = true /\ id <> "".

(** What a cursor carries of a revision. *)
Definition cursors_fit t : Prop := forall id o, revisions t !! id = Some o ->
  id_ok id /\ id_ok (re_series o) /\ time_ok (re_time o) /\ IsZero (re_time o) = false /\ time_ok (re_system_known o).

Lemma cursor_uuid_ok id : id_ok id -> cursor_uuid scan_uuid id = Ok (Some id).
Proof. intros (H & _ & Hne). unfold cursor_uuid. by rewrite bool_decide_false, H. Qed.

Lemma listing_fits mode selected from to as_of t x : mode ∈ listing_modes -> cursors_fit t ->
  x ∈ listed mode selected from to as_of t ->
  id_ok (or_id x) /\ id_ok (or_series x) /\ time_ok (or_time x) /\ IsZero (or_time x) = false /\ time_ok (or_system_known x).
Proof.
  intros Hm Hf. rewrite listing_elem by done. intros (id & o & [Hl _] & Hx). apply row_spec in Hx as (-> & -> & -> & ->).
  apply (Hf _ _ Hl).
Qed.

Definition cursor_of_row (x : ObservationRow) : observationCursor :=
  mkObservationCursor (or_time x) (or_system_known x) "" (or_id x).

Lemma row_cursor x : id_ok (or_id x) -> time_ok (or_time x) -> IsZero (or_time x) = false -> time_ok (or_system_known x) ->
  (observation_cursor_of ∘ observation_of) x <> "" /\
  decodeObservationCursor ((observation_cursor_of ∘ observation_of) x) = Ok (cursor_of_row x).
Proof. intros (_ & Hv & Hne) [Hy _] Hz [Hk _]. by apply (observation_cursor_round_trip (cursor_of_row x)). Qed.

Lemma rows_after_row mode x o : id_ok (or_id x) -> time_ok (or_time x) -> time_ok (or_system_known x) ->
  rows_after mode (cursor_of_row x) (Some (or_id x)) o = before (order_of mode) x o.
Proof.
  intros (_ & _ & Hne) [_ Ht] [_ Hk]. unfold rows_after, order_of. cbn [CuID CuObservationTime CuSystemKnownAt cursor_of_row].
  rewrite (bool_decide_false (or_id x = "")) by done. cbn [negb]. case_bool_decide; [by apply after_revision_before|by apply after_id_before].
Qed.

Lemma base_length mode selected from to as_of t : mode ∈ listing_modes ->
  (length (base mode selected from to as_of t) <= size (revisions t))%nat.
Proof.
  intros Hm. rewrite <- length_map_to_list. apply submseteq_length, NoDup_submseteq; [apply base_NoDup|].
  intros [id o] H. apply elem_of_map_to_list. by eapply base_lookup.
Qed.

Lemma omap_length {A B} (f : A -> option B) (l : list A) : (length (omap f l) <= length l)%nat.
Proof. induction l as [|x l IH]; cbn; [lia|]. destruct (f x); cbn; lia. Qed.

Lemma full_listing_length now sid req t : mode_of req ∈ listing_modes ->
  (length (full_listing now sid req t) <= size (revisions t))%nat.
Proof.
  intros Hm. unfold full_listing. rewrite insertion_sort_perm. etransitivity; [apply omap_length|]. by apply base_length.
Qed.

(** One step of the client. *)
Lemma fetch_page now raw req t sid pre post : cursors_fit t -> IsZero (RqTo req) = false ->
  admitted (now "") raw req t = Ok sid -> full_listing (now "") sid req t = pre ++ post ->
  fetch_observations now raw req t (Paging.cursor_after (observation_cursor_of ∘ observation_of) "" pre) =
  page_after observation_of (observation_cursor_of ∘ observation_of) (Z.to_nat (RqLimit req)) pre post.
Proof.
  intros Hf Hto Ha Hl. destruct (admitted_inv _ _ _ _ _ Ha) as (Hu & Hlim & Hm).
  set (cursor := Paging.cursor_after _ _ _). unfold fetch_observations. rewrite run_answer, observations_answer.
  assert (Had : admitted (now cursor) raw (with_cursor req cursor) t = Ok sid).
  { rewrite <- Ha. unfold admitted. by rewrite (to_of_given (now cursor) (now "") (with_cursor req cursor)). }
  rewrite Had. cbn [res_bind with_cursor RqCursor].
  assert (Hc : exists c cid, decodeObservationCursor cursor = Ok c /\ cursor_uuid scan_uuid (CuID c) = Ok cid /\
    forall o, rows_after (mode_of req) c cid o = match last pre with Some x => before (order_of (mode_of req)) x o | None => true end).
  { unfold cursor, Paging.cursor_after. destruct (last pre) as [x|] eqn:Ex.
    - assert (Hx : x ∈ full_listing (now "") sid req t).
      { rewrite Hl. apply elem_of_app. left. apply last_Some_elem_of in Ex. done. }
      unfold full_listing in Hx. rewrite insertion_sort_elem in Hx.
      destruct (listing_fits _ _ _ _ _ _ _ Hm Hf Hx) as (Hi & _ & Ht & Hz & Hk). exists (cursor_of_row x), (Some (or_id x)).
      split; [by apply row_cursor|]. split; [by apply cursor_uuid_ok|]. intros o. by apply rows_after_row.
    - exists empty_observation_cursor, None. split_and!; [done..|]. intros o. apply rows_after_first. }
  destruct Hc as (c & cid & Hd & Hi & Hr). rewrite Hd. cbn [res_bind]. rewrite Hi. cbn [res_bind].
  rewrite (page_from (now cursor) sid c cid (with_cursor req cursor) t pre post Hm); [apply page_result_cut; cbn; lia| |done].
  unfold full_listing. rewrite (to_of_given (now cursor) (now "") (with_cursor req cursor)) by done. exact Hl.
Qed.

(** C32: a client that follows the cursors gets the whole listing: every revision
    its first request selects, once, in order, in at most as many requests as
    there are revisions and one more, whatever the limit. *)
Theorem observations_paged now raw req t page fuel :
  cursors_fit t -> IsZero (RqTo req) = false -> (size (revisions t) < fuel)%nat ->
  fst (run (observations (now "") raw (with_cursor req "")) [] t) = Ok page ->
  exists sid rows, uuid raw = Ok sid /\
    follow (fetch_observations now raw req t) fuel "" = Some (observation_of <$> rows) /\
    StronglySorted (precedes (mode_of req)) rows /\
    forall x, x ∈ rows <-> exists id o,
      shown (mode_of req) sid (from_of req) (to_of (now "") req) (RqAsOf req) t id o /\
      observation_row read_numeric jsonb_out t (id, o) = Some x.
Proof.
  intros Hf Hto Hfuel Hp. rewrite run_answer, observations_answer in Hp.
  change (admitted (now "") raw (with_cursor req "") t) with (admitted (now "") raw req t) in Hp.
  destruct (admitted (now "") raw req t) as [sid|] eqn:Ha; [|done]. destruct (admitted_inv _ _ _ _ _ Ha) as (Hu & Hlim & Hm).
  exists sid, (full_listing (now "") sid req t). split; [done|]. split.
  - apply (follow_all _ observation_of (observation_cursor_of ∘ observation_of) "" (Z.to_nat (RqLimit req))); [lia| |].
    + intros pre post Hl. by apply fetch_page with sid.
    + eapply Nat.le_lt_trans; [by apply full_listing_length|done].
  - split; [by apply full_listing_ordered|]. intros x. by apply full_listing_shown.
Qed.
End service.

(** ** A store with two series *)

Definition demo_scan (s : string) : option string :=
  if forallb (fun c => is_lower_hex c || Ascii.eqb c "-") (chars s) && negb (bool_decide (s = "")) then Some s else None.
Definition demo_numeric (z : option Z) : Numeric :=
  match z with Some z => mkNumeric (Some z) (-18) false 0 true | None => mkNumeric None 0 false 0 false end.
Definition demo_json (_ : json) : string := "{}".

Definition day (n : Z) : time := n * day_ns.
Definition demo_revision (sid : string) (observed known value : Z) : RevisionRow :=
  mkRevisionRow sid (day observed) (Some (value * 10 ^ 18)) None None (day known) "first_observed_by_system" "e1" (JObject []).

(** The second revision of day 10 was recorded on day 14. *)
Definition demo : store :=
  mkStore {[ "a1" := mkSourceRow "evds" "EVDS" ]} {[ "b1" := mkDatasetRow "a1" "rates" ]}
    (<["c1" := mkSeriesRow "b1" "TP.1" "First" "pct" "daily" None None (JObject [])]>
     {[ "c2" := mkSeriesRow "b1" "TP.2" "Second" "pct" "daily" None None (JObject []) ]})
    {[ "e1" := "00ff" ]}
    (<["d1" := demo_revision "c1" 10 12 7]> (<["d2" := demo_revision "c1" 10 14 8]>
     (<["d3" := demo_revision "c1" 11 12 9]> {[ "d4" := demo_revision "c2" 10 12 5 ]}))).

Definition demo_request (mode : string) (limit : Z) : ObservationRequest :=
  mkObservationRequest mode (day 1) (day 20) (day 13) limit "".

Definition demo_call (mode : string) (limit : Z) (t : store) : res (Page Observation) * store :=
  run (Observations true demo_scan demo_numeric demo_json (day 30) "c1" (demo_request mode limit)) [] t.

Definition ids_of (r : res (Page Observation)) : list string :=
  match r with Ok page => ObID <$> Items page | Err _ => [] end.

Example demo_as_of : ids_of (fst (demo_call ModeSystemAsOf 2 demo)) = ["d1"; "d3"].
Proof. vm_compute. reflexivity. Qed.
Example demo_latest : ids_of (fst (demo_call ModeLatest 2 demo)) = ["d2"; "d3"].
Proof. vm_compute. reflexivity. Qed.
Example demo_value : match demo_call ModeLatest 2 demo with (Ok p, _) => ObValue <$> Items p | _ => [] end
  = [Some "8.000000000000000000"; Some "9.000000000000000000"].
Proof. vm_compute. reflexivity. Qed.

Definition demo_page (mode : string) (limit : Z) (t : store) : Page Observation :=
  match fst (demo_call mode limit t) with Ok page => page | Err _ => mkPage [] 0 "" false end.

Lemma demo_answers :
  demo_call ModeSystemAsOf 1 demo = (Ok (demo_page ModeSystemAsOf 1 demo), demo) /\
  demo_call ModeRevisions 1 demo = (Ok (demo_page ModeRevisions 1 demo), demo) /\
  demo_call ModeLatest 1 demo = (Ok (demo_page ModeLatest 1 demo), demo).
Proof. split_and!; vm_compute; reflexivity. Qed.

(** Case analysis on the rows of the store. *)
Ltac demo_rows H :=
  repeat (apply lookup_insert_Some in H as [[<- <-]|[_ H]]); try (apply lookup_singleton_Some in H as [<- <-]).

Lemma demo_fits : cursors_fit demo_scan demo.
Proof.
  intros id o H. cbn in H. demo_rows H; unfold id_ok, time_ok; split_and!;
    vm_compute; first [reflexivity | discriminate].
Qed.

Lemma demo_referenced : referenced demo_numeric demo_json demo.
Proof. intros id o H. cbn in H. demo_rows H; by eexists. Qed.

Lemma observations_exact_witness :
  demo_call ModeSystemAsOf 1 demo = (Ok (demo_page ModeSystemAsOf 1 demo), demo) /\
  exists rows : list ObservationRow, NoDup (or_time <$> rows) /\
    Items (demo_page ModeSystemAsOf 1 demo) = observation_of <$> take 1 rows.
Proof.
  destruct demo_answers as (H & _). split; [exact H|].
  destruct (observations_exact demo_scan demo_numeric demo_json (day 30) "c1" (demo_request ModeSystemAsOf 1) [] demo demo _ H eq_refl)
    as (_ & sid & rows & _ & _ & Ht & _ & Hi & _).
  exists rows. split; [apply Ht; discriminate|exact Hi].
Defined.

(** The store a month later. *)
Definition demo_later : store :=
  mkStore (sources demo) (datasets demo) (series demo) (raw_objects demo)
    (<["d9" := demo_revision "c1" 11 25 3]> (revisions demo)).

Lemma demo_grown : grown (day 13) demo demo_later.
Proof.
  split; try reflexivity.
  - apply insert_subseteq. reflexivity.
  - intros id o H. unfold demo_later in H. cbn [revisions] in H. apply lookup_insert_Some in H as [[<- <-]|[_ H]]; [by right|by left].
Qed.

Lemma as_of_stable_witness :
  demo_page ModeSystemAsOf 1 demo = demo_page ModeSystemAsOf 1 demo_later.
Proof.
  apply (as_of_stable demo_scan demo_numeric demo_json (day 30) (day 30) "c1" (demo_request ModeSystemAsOf 1) [] [] demo demo_later
    (demo_page ModeSystemAsOf 1 demo) (demo_page ModeSystemAsOf 1 demo_later) demo demo_later
    eq_refl eq_refl demo_grown demo_referenced).
  - exact (proj1 demo_answers).
  - vm_compute. reflexivity.
Defined.

Definition demo_at : res (Page Observation) * store :=
  run (Observations true demo_scan demo_numeric demo_json (day 30) "c1" (at_time (demo_request ModeLatest 1) (day 15))) [] demo.

Lemma latest_is_as_of_witness : demo_at = (Ok (demo_page ModeLatest 1 demo), demo).
Proof.
  assert (H : exists page, demo_at = (Ok page, demo)) by (eexists; vm_compute; reflexivity).
  destruct H as [page H]. rewrite H. f_equal. f_equal. symmetry.
  apply (latest_is_as_of demo_scan demo_numeric demo_json (day 30) "c1" (demo_request ModeLatest 1) (day 15) [] [] demo
    (demo_page ModeLatest 1 demo) page demo demo eq_refl).
  - intros i r Hl _. cbn in Hl. demo_rows Hl; vm_compute; discriminate.
  - exact (proj2 (proj2 demo_answers)).
  - exact H.
Defined.

Lemma observations_paged_witness :
  exists rows : list ObservationRow,
    follow (fetch_observations demo_scan demo_numeric demo_json (fun _ => day 30) "c1" (demo_request ModeRevisions 1) demo) 5 ""
      = Some (observation_of <$> rows) /\ StronglySorted (precedes ModeRevisions) rows.
Proof.
  destruct (observations_paged demo_scan demo_numeric demo_json (fun _ => day 30) "c1" (demo_request ModeRevisions 1) demo
    (demo_page ModeRevisions 1 demo) 5 demo_fits eq_refl) as (sid & rows & _ & Hf & Hn & _).
  - apply (bool_decide_eq_true_1 (_ < _)%nat). vm_compute. reflexivity.
  - vm_compute. reflexivity.
  - exists rows. split; [exact Hf|exact Hn].
Defined.

Example demo_all :
  match follow (fetch_observations demo_scan demo_numeric demo_json (fun _ => day 30) "c1"
          (demo_request ModeRevisions 1) demo) 5 "" with
  | Some items => ObID <$> items
  | None => []
  end = ["d1"; "d2"; "d3"].
Proof. vm_compute. reflexivity. Qed.
