(* ===== verification/TimelineMerge.v ===== *)
(** Listings of several series together, and the listing of the series: pages
    that put together what the single listings show. *)

From S2P Require Import Prelude GoString Digits GoTime TimeText Base64 Order Paging Tables Db Json JsonTree JsonText JsonQuote.
From S2P Require Import Timeline TimelineRows TimelineProofs.
From Stdlib Require Import Ascii.
#[local] Open Scope Z_scope.

Import Timeline.

Section cross_source.
Context (scan_uuid : string -> option string) (read_numeric : option Z -> Numeric) (jsonb_out : json -> string).

Abbreviation cross_source := (CrossSource true scan_uuid read_numeric jsonb_out).
Abbreviation uuid := (parseUUID scan_uuid).
Abbreviation listed := (listing read_numeric jsonb_out).
Implicit Types (t : store) (req : ObservationRequest).

(** ** Cross-source listings *)

Definition cross_mode req : string :=
  if bool_decide (RqMode req = "") || bool_decide (RqMode req = ModeCombined) then ModeLatest else RqMode req.

Definition any_of (sids : list string) : string -> bool := fun s => bool_decide (s ∈ sids).

Fixpoint all_admit (mode : string) (sids : list string) t : res unit :=
  match sids with
  | [] => Ok tt
  | sid :: rest =>
      let! row := series_of jsonb_out t sid in
      if bool_decide (mode = ModeSourceAsOf) && negb (ts_source_as_of row) then Err ErrSourceAsOfUnsupported
      else all_admit mode rest t
  end.

Definition admitted_many (now : time) (ids : list string) req t : res (list string) :=
  if bool_decide (ids = []) then Err ErrInvalidSeriesSelection
  else
    let! _ := validateLimit (RqLimit req) in
    if negb (bool_decide (cross_mode req ∈ [ModeLatest; ModeSourceAsOf; ModeSystemAsOf])) then Err ErrInvalidMode
    else if negb (Before (from_of req) (to_of now req)) then Err ErrInvalidWindow
    else if negb (bool_decide (cross_mode req = ModeLatest)) && IsZero (RqAsOf req) then Err ErrInvalidWindow
    else
      let! sids := parse_selection scan_uuid ∅ ids in
      let! _ := all_admit (cross_mode req) sids t in Ok sids.

Definition cross_after (c : observationCursor) (csid cid : option string) : ObservationRow -> bool :=
  after_series (negb (bool_decide (CuID c = ""))) (CuObservationTime c) csid cid.

Definition cross_page (now : time) (sids : list string) (c : observationCursor) (csid cid : option string) req t
    : Page Observation :=
  cut_page (RqLimit req)
    (observation_of <$>
      page_of read_numeric jsonb_out by_time_series (cross_after c csid cid) (RqLimit req + 1) t
        (base (cross_mode req) (any_of sids) (from_of req) (to_of now req) (RqAsOf req) t))
    id combined_cursor_of.

Hint Resolve steady_load_series : go.

Lemma steady_check_selection mode sids : steady (check_selection jsonb_out mode sids).
Proof. induction sids; cbn; repeat steady_step. Qed.
Hint Resolve steady_check_selection : go.

Lemma answer_check_selection mode sids t : answer (check_selection jsonb_out mode sids) t = all_admit mode sids t.
Proof.
  induction sids as [|sid sids IH]; cbn [check_selection all_admit]; [done|]. answers. rewrite answer_load_series.
  destruct (series_of jsonb_out t sid) as [row|]; [cbn [res_bind]|done]. by destruct (_ && _).
Qed.

Lemma cross_answer now ids req t :
  answer (cross_source now ids req) t =
    let! sids := admitted_many now ids req t in
    let! c := decodeObservationCursor (RqCursor req) in
    let! cid := cursor_uuid scan_uuid (CuID c) in
    let! csid := cursor_uuid scan_uuid (CuSeriesID c) in
    Ok (cross_page now sids c csid cid req t).
Proof.
  unfold CrossSource, admitted_many. fold (cross_mode req). fold (from_of req). fold (to_of now req).
  destruct (bool_decide (ids = [])); [done|]. answers. destruct (validateLimit _); [cbn [res_bind]|done].
  destruct (negb (bool_decide _)) eqn:Em; answers; [done|]. apply negb_false_iff, bool_decide_eq_true in Em.
  destruct (negb (Before _ _)); [done|]. destruct (negb _ && _); [done|]. answers.
  destruct (parse_selection _ _ _) as [sids|]; [cbn [res_bind negb]|done]. answers. rewrite answer_check_selection.
  destruct (all_admit _ _ _); [cbn [res_bind]|done]. answers.
  destruct (decodeObservationCursor _) as [c|]; [cbn [res_bind]|done]. answers.
  destruct (cursor_uuid _ (CuID c)) as [cid|]; [cbn [res_bind]|done]. answers.
  destruct (cursor_uuid _ (CuSeriesID c)) as [csid|]; [cbn [res_bind]|done]. unfold cross_page, base.
  set (asof := RqAsOf req). set (from := from_of req). set (to := to_of now req).
  rewrite !elem_of_cons in Em. destruct Em as [->|[->|[->|[]%elem_of_nil]]]; decide_texts; answers; done.
Qed.

Lemma all_ids_parsed ids : forall seen sids, parse_selection scan_uuid seen ids = Ok sids ->
  forall sid, sid ∈ sids <-> (sid ∉ seen) /\ (exists raw, raw ∈ ids /\ uuid raw = Ok sid).
Proof.
  induction ids as [|raw ids IH]; intros seen sids; cbn [parse_selection].
  { intros [= <-] sid. rewrite elem_of_nil. split; [done|]. intros (_ & r & []%elem_of_nil & _). }
  destruct (uuid raw) as [i|] eqn:Er; [cbn [res_bind]|done]. case_bool_decide as Hin.
  - intros H sid. rewrite (IH _ _ H). split; intros (Hs & r & Hr & Hu); (split; [done|]).
    + exists r. split; [by right|done].
    + apply elem_of_cons in Hr as [->|Hr]; [congruence|]. by exists r.
  - destruct (parse_selection _ _ ids) as [others|] eqn:Ep; [cbn [res_bind]|done]. intros [= <-] sid.
    rewrite elem_of_cons, (IH _ _ Ep). split.
    + intros [->|(Hs & r & Hr & Hu)]; [split; [done|]; exists raw; by split; [left|]|]. split; [set_solver|]. exists r. by split; [right|].
    + intros (Hs & r & Hr & Hu). destruct (decide (sid = i)) as [->|Hne]; [by left|right]. split; [set_solver|].
      apply elem_of_cons in Hr as [->|Hr]; [congruence|]. by exists r.
Qed.

Lemma cross_modes req : cross_mode req ∈ [ModeLatest; ModeSourceAsOf; ModeSystemAsOf] -> cross_mode req ∈ listing_modes.
Proof. unfold listing_modes. rewrite !elem_of_cons. naive_solver. Qed.

Lemma admitted_many_inv now ids req t sids : admitted_many now ids req t = Ok sids ->
  1 <= RqLimit req <= 200 /\ cross_mode req ∈ listing_modes /\
  (forall sid, sid ∈ sids <-> exists raw, raw ∈ ids /\ uuid raw = Ok sid).
Proof.
  unfold admitted_many, validateLimit. destruct (bool_decide (ids = [])); [done|].
  destruct ((RqLimit req <? 1) || (200 <? RqLimit req)) eqn:El; [done|]. cbn [res_bind].
  destruct (negb (bool_decide _)) eqn:Em; [done|]. apply negb_false_iff, bool_decide_eq_true, cross_modes in Em.
  destruct (negb (Before _ _)); [done|]. destruct (negb _ && _); [done|].
  destruct (parse_selection _ _ _) as [sids'|] eqn:Ep; [cbn [res_bind]|done]. destruct (all_admit _ _ _); [cbn [res_bind]|done].
  intros [= ->]. bool_simp. split_and!; [lia..|done|]. intros sid. rewrite (all_ids_parsed _ _ _ Ep). set_solver.
Qed.

Definition cross_listing (now : time) (sids : list string) req t : list ObservationRow :=
  insertion_sort (before by_time_series) (listed (cross_mode req) (any_of sids) (from_of req) (to_of now req) (RqAsOf req) t).

(** The listing of a selection is that of its series together. *)
Lemma cross_listing_elem now sids req t x : cross_mode req ∈ listing_modes ->
  x ∈ cross_listing now sids req t <->
  exists sid id o, sid ∈ sids /\
    shown (cross_mode req) sid (from_of req) (to_of now req) (RqAsOf req) t id o /\
    observation_row read_numeric jsonb_out t (id, o) = Some x.
Proof.
  intros Hm. unfold cross_listing. rewrite insertion_sort_elem, listing_elem by done.
  setoid_rewrite <- picked_shown. unfold picked, any_of. cbn beta. split.
  - intros (id & o & (H1 & H2 & H3) & Hx). apply bool_decide_eq_true in H2. exists (re_series o), id, o.
    split; [done|]. split; [|done]. split; [done|]. by rewrite bool_decide_true.
  - intros (sid & id & o & Hin & (H1 & H2 & H3) & Hx). apply bool_decide_eq_true in H2. exists id, o.
    split; [|done]. split; [done|]. rewrite bool_decide_true; [done|congruence].
Qed.

(** The order of a cross-source listing. *)
Definition cross_precedes (x y : ObservationRow) : Prop :=
  or_time x < or_time y \/ or_time x = or_time y /\
    (string_ltb (or_series x) (or_series y) = true \/
     or_series x = or_series y /\ string_ltb (or_id x) (or_id y) = true).

Lemma by_time_series_precedes x y : by_time_series x y = Lt <-> cross_precedes x y.
Proof.
  unfold by_time_series, cross_precedes, then_by, asc, asc_text.
  destruct (Z.compare_spec (or_time x) (or_time y)); [|naive_solver lia..].
  destruct (string_cmp (or_series x) (or_series y)) eqn:E.
  - apply string_cmp_eq in E. rewrite E, string_lt, string_ltb_irrefl. naive_solver lia.
  - rewrite string_lt in E. naive_solver lia.
  - assert (Hn : string_ltb (or_series x) (or_series y) = false) by (apply not_true_is_false; rewrite <- string_lt; congruence).
    assert (Hne : or_series x <> or_series y).
    { intros He. unfold string_cmp in E. by rewrite He, string_ltb_irrefl in E. }
    rewrite Hn. naive_solver lia.
Qed.

Lemma cross_listing_ordered now sids req t : cross_mode req ∈ listing_modes ->
  StronglySorted cross_precedes (cross_listing now sids req t).
Proof.
  intros Hm. assert (Ht : total_on by_time_series (cross_listing now sids req t)).
  { eapply total_on_perm; [by unfold cross_listing; rewrite insertion_sort_perm|]. by apply listing_total; [apply by_time_series_identifies|]. }
  assert (Hn : NoDup (cross_listing now sids req t)).
  { unfold cross_listing. rewrite insertion_sort_perm. by apply listing_NoDup. }
  pose proof (sorted_strict _ _ Ht Hn (sort_sorted _ _)) as Hs. fold (cross_listing now sids req t) in Hs.
  clear Ht Hn. induction Hs as [|x l Hs IH HF]; [constructor|]. constructor; [done|].
  eapply Forall_impl; [exact HF|]. intros y. apply by_time_series_precedes.
Qed.

Definition cross_cursor_of_row (x : ObservationRow) : observationCursor :=
  mkObservationCursor (or_time x) zero_time (or_series x) (or_id x).

Lemma cross_row_cursor x : id_ok scan_uuid (or_id x) -> id_ok scan_uuid (or_series x) -> time_ok (or_time x) ->
  IsZero (or_time x) = false ->
  decodeObservationCursor ((combined_cursor_of ∘ observation_of) x) = Ok (cross_cursor_of_row x).
Proof.
  intros (_ & Hv & Hne) (_ & Hs & _) [Hy _] Hz. apply (observation_cursor_round_trip (cross_cursor_of_row x)).
  split; [exact Hy|]. split; [exact Hz|]. split; [|done]. by vm_compute.
Qed.

Lemma cross_page_from now sids c cid csid req t pre post : cross_mode req ∈ listing_modes ->
  cross_listing now sids req t = pre ++ post ->
  (forall o, cross_after c csid cid o = match last pre with Some x => before by_time_series x o | None => true end) ->
  cross_page now sids c csid cid req t =
  cut_page (RqLimit req) (take (Z.to_nat (RqLimit req + 1)) post) observation_of (combined_cursor_of ∘ observation_of).
Proof.
  intros Hm Hf Ha. unfold cross_page. rewrite cut_page_fmap. f_equal.
  by apply (page_rest _ _ _ _ _ _ _ _ _ _ _ pre); [apply by_time_series_identifies|exact _|..].
Qed.

Definition fetch_cross (now : string -> time) (ids : list string) req t (cursor : string)
    : option (list Observation * option string) :=
  page_result (fst (run (cross_source (now cursor) ids (with_cursor req cursor)) [] t)).

Lemma fetch_cross_page now ids req t sids pre post : cursors_fit scan_uuid t -> IsZero (RqTo req) = false ->
  admitted_many (now "") ids req t = Ok sids -> cross_listing (now "") sids req t = pre ++ post ->
  fetch_cross now ids req t (Paging.cursor_after (combined_cursor_of ∘ observation_of) "" pre) =
  page_after observation_of (combined_cursor_of ∘ observation_of) (Z.to_nat (RqLimit req)) pre post.
Proof.
  intros Hf Hto Ha Hl. destruct (admitted_many_inv _ _ _ _ _ Ha) as (Hlim & Hm & _).
  set (cursor := Paging.cursor_after _ _ _). unfold fetch_cross. rewrite run_answer, cross_answer.
  assert (Had : admitted_many (now cursor) ids (with_cursor req cursor) t = Ok sids).
  { rewrite <- Ha. unfold admitted_many. by rewrite (to_of_given (now cursor) (now "") (with_cursor req cursor)). }
  rewrite Had. cbn [res_bind with_cursor RqCursor].
  assert (Hc : exists c cid csid, decodeObservationCursor cursor = Ok c /\ cursor_uuid scan_uuid (CuID c) = Ok cid /\
    cursor_uuid scan_uuid (CuSeriesID c) = Ok csid /\
    forall o, cross_after c csid cid o = match last pre with Some x => before by_time_series x o | None => true end).
  { unfold cursor, Paging.cursor_after. destruct (last pre) as [x|] eqn:Ex.
    - assert (Hx : x ∈ cross_listing (now "") sids req t).
      { rewrite Hl. apply elem_of_app. left. apply last_Some_elem_of in Ex. done. }
      unfold cross_listing in Hx. rewrite insertion_sort_elem in Hx.
      destruct (listing_fits _ _ _ _ _ _ _ _ _ _ Hm Hf Hx) as (Hi & Hs & Ht & Hz & Hk).
      exists (cross_cursor_of_row x), (Some (or_id x)), (Some (or_series x)).
      split; [by apply cross_row_cursor|]. split; [by apply cursor_uuid_ok|]. split; [by apply cursor_uuid_ok|].
      intros o. unfold cross_after. cbn [CuID CuObservationTime cross_cursor_of_row].
      rewrite (bool_decide_false (or_id x = "")) by apply Hi. apply after_series_before, Ht.
    - by exists empty_observation_cursor, None, None. }
  destruct Hc as (c & cid & csid & Hd & Hi & Hs & Hr). rewrite Hd. cbn [res_bind]. rewrite Hi. cbn [res_bind].
  rewrite Hs. cbn [res_bind].
  rewrite (cross_page_from (now cursor) sids c cid csid (with_cursor req cursor) t pre post Hm);
    [apply page_result_cut; cbn; lia| |done].
  unfold cross_listing. rewrite (to_of_given (now cursor) (now "") (with_cursor req cursor)) by done. exact Hl.
Qed.

(** C33: the pages of a cross-source listing put together are the listings of its
    series put together: a client that follows the cursors gets every revision
    the single listing of some selected series shows, once, ordered by time,
    series and identifier. *)
Theorem cross_source_paged now ids req t page fuel :
  cursors_fit scan_uuid t -> IsZero (RqTo req) = false -> (size (revisions t) < fuel)%nat ->
  fst (run (cross_source (now "") ids (with_cursor req "")) [] t) = Ok page ->
  exists rows,
    follow (fetch_cross now ids req t) fuel "" = Some (observation_of <$> rows) /\
    StronglySorted cross_precedes rows /\
    forall x, x ∈ rows <-> exists raw sid id o, raw ∈ ids /\ uuid raw = Ok sid /\
      shown (cross_mode req) sid (from_of req) (to_of (now "") req) (RqAsOf req) t id o /\
      observation_row read_numeric jsonb_out t (id, o) = Some x.
Proof.
  intros Hf Hto Hfuel Hp. rewrite run_answer, cross_answer in Hp.
  change (admitted_many (now "") ids (with_cursor req "") t) with (admitted_many (now "") ids req t) in Hp.
  destruct (admitted_many (now "") ids req t) as [sids|] eqn:Ha; [|done]. destruct (admitted_many_inv _ _ _ _ _ Ha) as (Hlim & Hm & Hs).
  exists (cross_listing (now "") sids req t). split; [|split; [by apply cross_listing_ordered|]].
  - apply (follow_all _ observation_of (combined_cursor_of ∘ observation_of) "" (Z.to_nat (RqLimit req))); [lia| |].
    + intros pre post Hl. by apply fetch_cross_page with sids.
    + eapply Nat.le_lt_trans; [|exact Hfuel]. unfold cross_listing. rewrite insertion_sort_perm.
      etransitivity; [apply omap_length|by apply base_length].
  - intros x. rewrite cross_listing_elem by done. setoid_rewrite Hs. naive_solver.
Qed.

End cross_source.

(** ** The listing of the series *)

Section series.
Context (scan_uuid : string -> option string) (jsonb_out : json -> string) (text_ok : string -> bool)
  (collate : string -> string -> comparison).

Abbreviation list_series := (ListSeries true scan_uuid jsonb_out text_ok collate).
Implicit Types t : store.
#[local] Hint Resolve steady_load_series : go.

(** The collation is a total order on texts. *)
Class collation : Prop := {
  collation_order :: Preordered (collate : comparator string);
  collation_eq x y : collate x y = Eq -> x = y;
}.

#[local] Instance collated_preordered {A} (key : A -> string) : Preordered (collate : comparator string) -> Preordered (collated collate key).
Proof.
  intros H. split; unfold collated; intros x y; [apply (cmp_opp (c := collate : comparator string))|].
  intros z. apply (cmp_le_trans (c := collate : comparator string)).
Qed.

Definition series_rows t : list TimelineSeriesRow := omap (series_row jsonb_out t) (map_to_list (series t)).
Definition series_listing t : list TimelineSeriesRow := insertion_sort (before (by_code collate)) (series_rows t).

(** What a cursor carries of a series. *)
Definition series_row_fits (r : TimelineSeriesRow) : Prop :=
  id_ok scan_uuid (ts_id r) /\
  Forall (fun s => utf8_valid s = true /\ s <> "" /\ text_ok s = true) [ts_data_source_code r; ts_source_code r].
Definition series_fit t : Prop := forall r, r ∈ series_rows t -> series_row_fits r.

Lemma series_row_id t kv r : series_row jsonb_out t kv = Some r -> ts_id r = fst kv.
Proof.
  unfold series_row. destruct kv as [id se]. destruct (datasets t !! se_dataset se) as [d|]; [|done]. cbn [mbind option_bind].
  destruct (sources t !! da_source d) as [ds|]; [|done]. by intros [= <-].
Qed.

Lemma series_rows_elem t r : r ∈ series_rows t <-> exists id se, series t !! id = Some se /\ series_row jsonb_out t (id, se) = Some r.
Proof.
  unfold series_rows. rewrite list_elem_of_omap. split.
  - intros ([id se] & Hin & Hr). exists id, se. by rewrite <- elem_of_map_to_list.
  - intros (id & se & Hin & Hr). exists (id, se). by rewrite elem_of_map_to_list.
Qed.

Lemma series_rows_inj t x y : x ∈ series_rows t -> y ∈ series_rows t -> ts_id x = ts_id y -> x = y.
Proof.
  rewrite !series_rows_elem. intros (i & se & Hl & Hx) (i' & se' & Hl' & Hy) He.
  pose proof (series_row_id _ _ _ Hx). pose proof (series_row_id _ _ _ Hy). cbn in *.
  assert (i' = i) as -> by congruence. assert (se' = se) as -> by congruence. congruence.
Qed.

Lemma NoDup_series_rows t : NoDup (series_rows t).
Proof.
  apply NoDup_omap; [|apply NoDup_map_to_list]. intros [i se] [i' se'] z Hx Hy Ex Ey.
  apply elem_of_map_to_list in Hx, Hy. apply series_row_id in Ex, Ey. cbn in *. assert (i' = i) as -> by congruence. congruence.
Qed.

Lemma series_total t : total_on (by_code collate) (series_rows t).
Proof. intros x y Hx Hy He. apply then_by_eq, asc_text_eq in He. by eapply series_rows_inj. Qed.

Lemma after_code_before x r : collation ->
  after_code collate true (ts_data_source_code x) (ts_source_code x) (Some (ts_id x)) r = before (by_code collate) x r.
Proof.
  intros Hc. unfold after_code, before, by_code, then_by, collated, asc_text, collate_gt. cbn [negb orb text_gt].
  assert (Hcase : forall a b, collate a b = match collate b a with Gt => Lt | Eq => Eq | Lt => Gt end).
  { intros a b. rewrite (cmp_opp (c := collate : comparator string) b a). by destruct (collate b a). }
  assert (Hrefl : forall a, collate a a = Eq) by apply (cmp_refl (collate : comparator string)).
  rewrite (Hcase (ts_data_source_code x)), (Hcase (ts_source_code x)).
  destruct (collate (ts_data_source_code r) (ts_data_source_code x)) eqn:E1; cbn [orb].
  - apply collation_eq in E1. rewrite bool_decide_true by done. cbn [andb].
    destruct (collate (ts_source_code r) (ts_source_code x)) eqn:E2; cbn [orb].
    + apply collation_eq in E2. rewrite bool_decide_true by done. cbn [andb]. by rewrite string_before.
    + rewrite bool_decide_false; [done|]. intros He. rewrite He, Hrefl in E2. done.
    + done.
  - rewrite bool_decide_false; [done|]. intros He. rewrite He, Hrefl in E1. done.
  - done.
Qed.

Definition series_page (limit : Z) (cursor : string) t : res (Page Series) :=
  let! _ := validateLimit limit in
  let! c := decodeSeriesCursor cursor in
  let! cid := cursor_uuid scan_uuid (CuSeries c) in
  if negb (text_ok (CuDataSourceCode c) && text_ok (CuSourceCode c)) then Err (EWrap "list timeline series" EDb)
  else Ok (cut_page limit
    (take (Z.to_nat (limit + 1)) (insertion_sort (before (by_code collate))
      (List.filter (after_code collate (negb (bool_decide (cursor = ""))) (CuDataSourceCode c) (CuSourceCode c) cid)
        (series_rows t)))) seriesFromListRow series_cursor_of).

Lemma series_answer limit cursor t : answer (list_series limit cursor) t = series_page limit cursor t.
Proof.
  unfold ListSeries, series_page. answers. destruct (validateLimit _); [cbn [res_bind]|done]. answers.
  destruct (decodeSeriesCursor _) as [c|]; [cbn [res_bind negb]|done]. answers.
  destruct (cursor_uuid _ _) as [cid|]; [cbn [res_bind]|done]. answers. unfold ListTimelineSeries.
  destruct (text_ok _ && text_ok _); done.
Qed.

Lemma row_series_cursor x : series_row_fits x ->
  series_cursor_of x <> "" /\
  decodeSeriesCursor (series_cursor_of x) = Ok (mkSeriesCursor (ts_data_source_code x) (ts_source_code x) (ts_id x)).
Proof.
  intros [(_ & Hv & Hn) Ht]. rewrite !Forall_cons in Ht. destruct Ht as ((U1 & N1 & _) & (U2 & N2 & _) & _).
  apply (series_cursor_round_trip (mkSeriesCursor (ts_data_source_code x) (ts_source_code x) (ts_id x))).
  by repeat constructor.
Qed.

Lemma first_series_cursor : decodeSeriesCursor "" = Ok empty_series_cursor.
Proof. done. Qed.

Definition fetch_series (limit : Z) t (cursor : string) : option (list Series * option string) :=
  page_result (fst (run (list_series limit cursor) [] t)).

Lemma fetch_series_page limit t page pre post : collation -> series_fit t ->
  series_page limit "" t = Ok page -> series_listing t = pre ++ post ->
  fetch_series limit t (Paging.cursor_after series_cursor_of "" pre) =
  page_after seriesFromListRow series_cursor_of (Z.to_nat limit) pre post.
Proof.
  intros Hc Hf Hp Hl. pose proof collation_order as Ho. unfold fetch_series. rewrite run_answer, series_answer.
  unfold series_page, validateLimit in *. destruct ((limit <? 1) || (200 <? limit)) eqn:El; [done|]. cbn [res_bind] in *.
  destruct pre as [|x pre _] using rev_ind.
  - cbn [Paging.cursor_after last fmap option_fmap option_map default from_option id]. cbn [app] in Hl.
    rewrite first_series_cursor in *. cbn [res_bind] in *.
    change (cursor_uuid scan_uuid (CuSeries empty_series_cursor)) with (Ok (@None string)) in *. cbn [res_bind] in *.
    destruct (negb (text_ok _ && _)); [done|]. rewrite filter_true. fold (series_listing t). rewrite Hl. apply page_result_cut. bool_simp. lia.
  - unfold Paging.cursor_after. rewrite last_snoc. cbn [fmap option_fmap option_map default from_option id].
    assert (Hx : x ∈ series_rows t).
    { apply (insertion_sort_elem (before (by_code collate))). fold (series_listing t). rewrite Hl. set_solver. }
    destruct (Hf x Hx) as [Hi Ht]. rewrite !Forall_cons in Ht. destruct Ht as ((U1 & N1 & T1) & (U2 & N2 & T2) & _).
    destruct (row_series_cursor x (Hf x Hx)) as [Hne Hd]. rewrite Hd. cbn [res_bind CuDataSourceCode CuSourceCode CuSeries].
    rewrite (cursor_uuid_ok _ _ Hi), T1, T2. cbn [res_bind negb andb]. rewrite bool_decide_false by done. cbn [negb].
    rewrite <- app_assoc in Hl. rewrite (filter_ext _ (before (by_code collate) x)) by (intros; by apply after_code_before).
    rewrite (filter_after (by_code collate) (series_rows t) pre x post); [|apply NoDup_series_rows|apply series_total|exact Hl].
    apply page_result_cut. bool_simp. lia.
Qed.

(** The pages of the series listing put together hold every series once, in
    the order of source, code and identifier, each as [GetSeries] answers it. *)
Theorem series_paged limit t page fuel :
  collation -> series_fit t -> (size (series t) < fuel)%nat ->
  fst (run (list_series limit "") [] t) = Ok page ->
  exists rows,
    follow (fetch_series limit t) fuel "" = Some (seriesFromListRow <$> rows) /\
    StronglySorted (below (before (by_code collate))) rows /\ NoDup rows /\
    (forall r, r ∈ rows <-> exists id se, series t !! id = Some se /\ series_row jsonb_out t (id, se) = Some r) /\
    (forall r, r ∈ rows -> fst (run (GetSeries true scan_uuid jsonb_out (ts_id r)) [] t) = Ok (seriesFromListRow r)).
Proof.
  intros Hc Hf Hfuel Hp. pose proof collation_order as Ho. rewrite run_answer, series_answer in Hp.
  assert (Hlim : 0 < limit).
  { unfold series_page, validateLimit in Hp. destruct (limit <? 1) eqn:El; [done|]. bool_simp. lia. }
  exists (series_listing t). split; [|split; [apply sort_sorted; exact _|split; [|split]]].
  - apply (follow_all _ seriesFromListRow series_cursor_of "" (Z.to_nat limit)); [lia| |].
    + intros pre post Hl. by apply fetch_series_page with page.
    + eapply Nat.le_lt_trans; [|exact Hfuel]. unfold series_listing. rewrite insertion_sort_perm.
      etransitivity; [apply omap_length|]. by rewrite length_map_to_list.
  - unfold series_listing. rewrite insertion_sort_perm. apply NoDup_series_rows.
  - intros r. unfold series_listing. by rewrite insertion_sort_elem, series_rows_elem.
  - intros r. unfold series_listing. rewrite insertion_sort_elem. intros Hr. destruct (Hf r Hr) as [(Hu & _) _].
    rewrite run_answer. unfold GetSeries. answers. rewrite Hu. cbn [res_bind negb]. answers. rewrite answer_load_series.
    apply series_rows_elem in Hr as (i & se & Hl & Hr). pose proof (series_row_id _ _ _ Hr) as Hid. cbn in Hid.
    unfold series_of, GetTimelineSeries. rewrite Hid, Hl. cbn [mbind option_bind]. by rewrite Hr.
Qed.
End series.

(** ** The store of two series *)

Definition demo_cross : res (Page Observation) :=
  fst (run (CrossSource true demo_scan demo_numeric demo_json (day 30) ["c2"; "c1"; "c2"]
              (with_cursor (demo_request ModeSystemAsOf 1) "")) [] demo).
Definition cross_demo_page : Page Observation :=
  match demo_cross with Ok page => page | Err _ => mkPage [] 0 "" false end.

Lemma demo_cross_ok : demo_cross = Ok cross_demo_page.
Proof. vm_compute. reflexivity. Qed.

Lemma cross_source_paged_witness :
  exists rows : list ObservationRow,
    follow (fetch_cross demo_scan demo_numeric demo_json (fun _ => day 30) ["c2"; "c1"; "c2"]
      (demo_request ModeSystemAsOf 1) demo) 5 "" = Some (observation_of <$> rows) /\ StronglySorted cross_precedes rows.
Proof.
  destruct (cross_source_paged demo_scan demo_numeric demo_json (fun _ => day 30) ["c2"; "c1"; "c2"]
    (demo_request ModeSystemAsOf 1) demo cross_demo_page 5 demo_fits eq_refl) as (rows & Hf & Hn & _).
  - apply (bool_decide_eq_true_1 (_ < _)%nat). vm_compute. reflexivity.
  - exact demo_cross_ok.
  - exists rows. split; [exact Hf|exact Hn].
Defined.

Example demo_cross_all :
  match follow (fetch_cross demo_scan demo_numeric demo_json (fun _ => day 30) ["c2"; "c1"; "c2"]
          (demo_request ModeSystemAsOf 1) demo) 5 "" with
  | Some items => ObID <$> items
  | None => []
  end = ["d1"; "d4"; "d3"].
Proof. vm_compute. reflexivity. Qed.

#[local] Instance string_collation : collation string_cmp.
Proof. split; [exact (asc_text_preordered id)|apply string_cmp_eq]. Qed.

Definition any_text (_ : string) : bool := true.

Definition demo_series : res (Page Series) :=
  fst (run (ListSeries true demo_scan demo_json any_text string_cmp 1 "") [] demo).
Definition series_demo_page : Page Series :=
  match demo_series with Ok page => page | Err _ => mkPage [] 0 "" false end.

Lemma demo_series_ok : demo_series = Ok series_demo_page.
Proof. vm_compute. reflexivity. Qed.

Lemma demo_series_fit : series_fit demo_scan demo_json any_text demo.
Proof.
  intros r Hr. apply series_rows_elem in Hr as (i & se & Hl & Hr). cbn in Hl.
  demo_rows Hl; injection Hr as <-; (split; [split_and!; try reflexivity; discriminate|repeat constructor; discriminate]).
Qed.

Lemma series_paged_witness :
  exists rows : list TimelineSeriesRow,
    follow (fetch_series demo_scan demo_json any_text string_cmp 1 demo) 3 "" = Some (seriesFromListRow <$> rows) /\ NoDup rows.
Proof.
  destruct (series_paged demo_scan demo_json any_text string_cmp 1 demo series_demo_page 3 string_collation demo_series_fit)
    as (rows & Hf & _ & Hn & _).
  - apply (bool_decide_eq_true_1 (_ < _)%nat). vm_compute. reflexivity.
  - exact demo_series_ok.
  - exists rows. split; [exact Hf|exact Hn].
Defined.
