(* ===== verification/Portfolio.v ===== *)
(** Portfolios, accounts, instruments and snapshots
    (internal/application/portfolio/service.go, records of
    internal/domain/portfolio/model.go, statements of
    internal/platform/database/portfolio.sql.go, constraints and triggers of
    db/migrations/00001 to 00004).

    The driver and PostgreSQL are parameters: [scan_uuid] and [scan_numeric]
    scan a text into a UUID (its canonical text) and a numeric, [read_numeric]
    is what the driver gives for a NUMERIC(38,18) column, [jsonb_in] and
    [jsonb_out] convert JSONB values, [text_ok] tells the texts the server
    accepts, [collate] is its collation; [account_used] tells the accounts rows
    of other services refer to.  [float_ok] is [strconv.ParseFloat] accepting a
    JSON number; [shuffle] is the order in which a run visits a map. *)

From S2P Require Import Prelude GoString Digits GoTime Order Decimal Tables Db Json JsonTree JsonText.
From Stdlib Require Import Ascii SpecFloat QArith.
#[local] Open Scope Z_scope.

Module Portfolio.

Definition ErrInvalidRequest : goerr := ENew "invalid portfolio request".
Definition ErrNotFound : goerr := ENew "portfolio resource not found".
Definition ErrConflict : goerr := ENew "portfolio resource conflict".
Definition ErrDatabase : goerr := ENew "portfolio database is required".

(** ** Records *)

Definition InstrumentFixedBond : string := "fixed_rate_bond".
Definition StatusActive : string := "active".

Definition SupportedInstrumentTypes : list string :=
  ["cash"; "currency"; "spot_crypto"; "manual_spot"; InstrumentFixedBond].
Definition SupportedStatuses : list string := [StatusActive; "inactive"; "delisted"].
Definition ReportingCurrencies : list string := ["TRY"; "USD"].

Record ExternalIdentifier : Set := mkExternalIdentifier { Namespace : string; ExternalID : string }.

Record Instrument : Set := mkInstrument {
  InID : string;
  CanonicalSymbol : string;
  InstrumentType : string;
  NativeUnit : string;
  ExternalIDs : list ExternalIdentifier;
  InStatus : string;
  InCreatedAt : time;
}.

Record Portfolio : Type := mkPortfolio {
  PoID : string;
  PoName : string;
  ReportingCurrency : string;
  PoMetadata : gmap string json;
  PoCreatedAt : time;
  PoUpdatedAt : time;
}.

Record Account : Type := mkAccount {
  AcID : string;
  AcPortfolioID : string;
  AcName : string;
  AcMetadata : gmap string json;
  AcCreatedAt : time;
  AcUpdatedAt : time;
}.

Record SnapshotLine : Set := mkSnapshotLine {
  LnID : string;
  LnAccountID : string;
  LnInstrumentID : string;
  LnQuantity : string;
  LnTotalCostBasis : option string;
  LnModifiedDurationYears : string;
  LnConvexityYearsSquared : string;
  LnAccountName : string;
  LnCanonicalSymbol : string;
  LnInstrumentType : string;
  LnNativeUnit : string;
  LnStatus : string;
}.

Record Snapshot : Set := mkSnapshot {
  SnID : string;
  SnPortfolioID : string;
  SnCapturedAt : time;
  SnSupersedesSnapshotID : string;
  SnCreatedAt : time;
  SnLines : list SnapshotLine;
}.

(** ** Requests; nil metadata is [None] *)

Record CreateInstrumentRequest : Set := mkCreateInstrumentRequest {
  CiSymbol : string;
  CiType : string;
  CiUnit : string;
  CiExternalIDs : list ExternalIdentifier;
  CiStatus : string;
}.

Record CreatePortfolioRequest : Type := mkCreatePortfolioRequest {
  CpName : string;
  CpCurrency : string;
  CpMetadata : option (list (string * goval));
}.
Abbreviation UpdatePortfolioRequest := CreatePortfolioRequest.

Record CreateAccountRequest : Type := mkCreateAccountRequest {
  CaName : string;
  CaMetadata : option (list (string * goval));
}.
Abbreviation UpdateAccountRequest := CreateAccountRequest.

Record SnapshotLineInput : Set := mkSnapshotLineInput {
  AccountID : string;
  InstrumentID : string;
  Quantity : string;
  TotalCostBasis : option string;
  ModifiedDurationYears : string;
  ConvexityYearsSquared : string;
}.

Record CreateSnapshotRequest : Set := mkCreateSnapshotRequest {
  CapturedAt : time;
  SupersedesSnapshotID : string;
  Lines : list SnapshotLineInput;
}.

(** ** Decimals *)

(** A valid [pgtype.Numeric]: [Int * 10^Exp]. *)
Record Numeric : Set := mkNumeric { Int : Z; Exp : Z }.

Definition numeric_value (n : Numeric) : Q :=
  if 0 <=? Exp n then inject_Z (Int n * 10 ^ Exp n) else Int n # (Z.to_pos (10 ^ (- Exp n))).

Section decimals.
Context (scan_numeric : string -> option Numeric).

(** [None] is an absent optional value. *)
Definition parseDecimal (value : string) (optional : bool) : res (option Numeric) :=
  if bool_decide (trim_space value = "") then
    if optional then Ok None else Err ErrInvalidRequest
  else
    let value := trim_space value in
    if negb (decimal_pattern false value) then Err ErrInvalidRequest
    else
      let digits := trim_prefix value "-" in
      let '(integer, fraction) := cut_char "." (chars digits) in
      let fractionalDigits := default [] fraction in
      if (18 <? length fractionalDigits)%nat then Err ErrInvalidRequest
      else
        let integerDigits := trim_left_char "0" integer in
        if (20 <? length integerDigits)%nat || (38 <? length integerDigits + length fractionalDigits)%nat
        then Err ErrInvalidRequest
        else match scan_numeric value with
             | Some result => Ok (Some result)
             | None => Err ErrInvalidRequest
             end.
End decimals.

Definition numericString (value : option Numeric) : string :=
  match value with
  | None => ""
  | Some v =>
      let sign := if Int v <? 0 then ["-"%char] else [] in
      let digits := digits (Z.abs (Int v)) in
      if 0 <=? Exp v then of_chars (sign ++ digits ++ replicate (Z.to_nat (Exp v)) "0"%char)
      else
        let scale := Z.to_nat (- Exp v) in
        let digits := if (length digits <=? scale)%nat
                      then replicate (scale - length digits + 1) "0"%char ++ digits else digits in
        let point := (length digits - scale)%nat in
        of_chars (sign ++ take point digits ++ "."%char :: drop point digits)
  end.

Definition numericOptionalString (value : option Numeric) : string := numericString value.

Definition numericPointer (value : option Numeric) : option string :=
  match value with None => None | Some _ => Some (numericString value) end.

(** ** Tables *)

Record InstrumentRow : Type := mkInstrumentRow {
  in_symbol : string;
  in_type : string;
  in_native : string;
  in_external : json;
  in_status : string;
  in_created : time;
}.

Record PortfolioRow : Type := mkPortfolioRow {
  po_name : string;
  po_currency : string;
  po_metadata : json;
  po_created : time;
  po_updated : time;
}.

Record AccountRow : Type := mkAccountRow {
  ac_portfolio : string;
  ac_name : string;
  ac_metadata : json;
  ac_created : time;
  ac_updated : time;
}.

Record PortfolioSnapshot : Set := mkPortfolioSnapshot {
  sn_portfolio : string;
  sn_captured : time;
  sn_supersedes : option string;
  sn_created : time;
}.

Record LineRow : Set := mkLineRow {
  ln_portfolio : string;
  ln_snapshot : string;
  ln_account : string;
  ln_instrument : string;
  ln_quantity : Z;
  ln_cost : option Z;
  ln_duration : option Z;
  ln_convexity : option Z;
}.

(** External identifiers are keyed by instrument and namespace. *)
Record portfolio_tables : Type := mkPortfolioTables {
  instruments : gmap string InstrumentRow;
  identifiers : gmap (string * string) string;
  portfolios : gmap string PortfolioRow;
  accounts : gmap string AccountRow;
  snapshots : gmap string PortfolioSnapshot;
  snapshot_lines : gmap string LineRow;
}.

Definition set_instruments (s : portfolio_tables) m :=
  mkPortfolioTables m (identifiers s) (portfolios s) (accounts s) (snapshots s) (snapshot_lines s).
Definition set_identifiers (s : portfolio_tables) m :=
  mkPortfolioTables (instruments s) m (portfolios s) (accounts s) (snapshots s) (snapshot_lines s).
Definition set_portfolios (s : portfolio_tables) m :=
  mkPortfolioTables (instruments s) (identifiers s) m (accounts s) (snapshots s) (snapshot_lines s).
Definition set_accounts (s : portfolio_tables) m :=
  mkPortfolioTables (instruments s) (identifiers s) (portfolios s) m (snapshots s) (snapshot_lines s).
Definition set_snapshots (s : portfolio_tables) m :=
  mkPortfolioTables (instruments s) (identifiers s) (portfolios s) (accounts s) m (snapshot_lines s).
Definition set_lines (s : portfolio_tables) m :=
  mkPortfolioTables (instruments s) (identifiers s) (portfolios s) (accounts s) (snapshots s) m.

(** Some row of a table satisfies a condition. *)
Definition exists_row {K R} `{Countable K} (p : K -> R -> bool) (m : gmap K R) : bool :=
  existsb (fun kv => p (fst kv) (snd kv)) (map_to_list m).

(** A database error with its SQLSTATE. *)
Definition pgerr (code : string) : goerr := ECode code "".
Definition unique_violation : goerr := pgerr "23505".
Definition foreign_key_violation : goerr := pgerr "23503".
Definition check_violation : goerr := pgerr "23514".

(** [errors.As] to a database error. *)
Fixpoint pg_code (e : goerr) : option string :=
  match e with ECode code _ => Some code | EWrap _ e => pg_code e | _ => None end.

Definition mapDatabaseError (err : goerr) : goerr :=
  match pg_code err with
  | Some code => if bool_decide (code ∈ ["23505"; "23503"; "23514"; "55000"]) then ErrConflict else err
  | None => err
  end.

(** [external_ids->>'provider' = 'binance']. *)
Definition provider_is_binance (j : json) : bool :=
  match j with
  | JObject fields =>
      match map_field fields "provider" with
      | Some (JString s) => bool_decide (s = "binance")
      | _ => false
      end
  | _ => false
  end.

(** The trigger on instruments, run after an insert or an update. *)
Definition ensure_binance_external_identifier (id : string) (r : InstrumentRow) (t : portfolio_tables)
    : res portfolio_tables :=
  if negb (provider_is_binance (in_external r)) then Ok t
  else match identifiers t !! (id, "binance.symbol") with
       | Some x => if bool_decide (x = in_symbol r) then Ok t else Err check_violation
       | None =>
           if exists_row (fun k x => bool_decide (snd k = "binance.symbol") && bool_decide (x = in_symbol r))
                (identifiers t)
           then Err unique_violation
           else Ok (set_identifiers t (<[(id, "binance.symbol") := in_symbol r]> (identifiers t)))
       end.

Definition unitCodePattern (s : string) : bool :=
  negb (bool_decide (s = "")) && forallb (fun c => is_upper c || is_digit c) (chars s).

Section statements.
Context (text_ok : string -> bool) (jsonb_in : string -> option json) (account_used : string -> bool).

Definition CreatePortfolioInstrument (id : string) (now : time) (symbol type native external status : string)
    (t : portfolio_tables) : res (string * InstrumentRow) * portfolio_tables :=
  match jsonb_in external with
  | None => (Err EDb, t)
  | Some j =>
      let r := mkInstrumentRow symbol type native j status now in
      if negb (forallb text_ok [symbol; type; native; status]) then (Err EDb, t)
      else if btrim_blank symbol || btrim_blank type || negb (unitCodePattern native)
              || negb (bool_decide (status ∈ SupportedStatuses))
      then (Err check_violation, t)
      else if bool_decide (is_Some (instruments t !! id))
              || exists_row (fun _ r => bool_decide (in_symbol r = symbol)) (instruments t)
      then (Err unique_violation, t)
      else match ensure_binance_external_identifier id r (set_instruments t (<[id := r]> (instruments t))) with
           | Ok t' => (Ok (id, r), t')
           | Err e => (Err e, t)
           end
  end.

Definition InsertInstrumentExternalIdentifier (id namespace external : string) (t : portfolio_tables)
    : res unit * portfolio_tables :=
  if negb (text_ok namespace && text_ok external) then (Err EDb, t)
  else if btrim_blank namespace || btrim_blank external then (Err check_violation, t)
  else if bool_decide (is_Some (identifiers t !! (id, namespace))) then (Ok tt, t)
  else if exists_row (fun k x => bool_decide (snd k = namespace) && bool_decide (x = external)) (identifiers t)
  then (Err unique_violation, t)
  else if bool_decide (instruments t !! id = None) then (Err foreign_key_violation, t)
  else (Ok tt, set_identifiers t (<[(id, namespace) := external]> (identifiers t))).

Definition with_status (status : string) (r : InstrumentRow) : InstrumentRow :=
  mkInstrumentRow (in_symbol r) (in_type r) (in_native r) (in_external r) status (in_created r).

Definition UpdatePortfolioInstrumentStatus (id status : string) (t : portfolio_tables)
    : res (string * InstrumentRow) * portfolio_tables :=
  if negb (text_ok status) then (Err EDb, t)
  else match instruments t !! id with
       | None => (Err ENoRows, t)
       | Some r =>
           if negb (bool_decide (status ∈ SupportedStatuses)) then (Err check_violation, t)
           else
             let r := with_status status r in
             match ensure_binance_external_identifier id r (set_instruments t (<[id := r]> (instruments t))) with
             | Ok t' => (Ok (id, r), t')
             | Err e => (Err e, t)
             end
       end.

Definition portfolio_check (name currency : string) : bool :=
  negb (btrim_blank name) && bool_decide (currency ∈ ReportingCurrencies).

Definition insert_portfolio (id : string) (now : time) (name currency metadata : string) (t : portfolio_tables)
    : res (string * PortfolioRow) * portfolio_tables :=
  match jsonb_in metadata with
  | None => (Err EDb, t)
  | Some j =>
      let r := mkPortfolioRow name currency j now now in
      if negb (text_ok name && text_ok currency) then (Err EDb, t)
      else if negb (portfolio_check name currency) then (Err check_violation, t)
      else if bool_decide (is_Some (portfolios t !! id)) then (Err unique_violation, t)
      else (Ok (id, r), set_portfolios t (<[id := r]> (portfolios t)))
  end.

Definition update_portfolio (id : string) (now : time) (name currency metadata : string) (t : portfolio_tables)
    : res (string * PortfolioRow) * portfolio_tables :=
  match jsonb_in metadata with
  | None => (Err EDb, t)
  | Some j =>
      if negb (text_ok name && text_ok currency) then (Err EDb, t)
      else match portfolios t !! id with
           | None => (Err ENoRows, t)
           | Some old =>
               let r := mkPortfolioRow name currency j (po_created old) now in
               if negb (portfolio_check name currency) then (Err check_violation, t)
               else (Ok (id, r), set_portfolios t (<[id := r]> (portfolios t)))
           end
  end.

(** The number of rows deleted; accounts and snapshots refer to a portfolio. *)
Definition delete_portfolio (id : string) (t : portfolio_tables) : res Z * portfolio_tables :=
  match portfolios t !! id with
  | None => (Ok 0, t)
  | Some _ =>
      if exists_row (fun _ r => bool_decide (ac_portfolio r = id)) (accounts t)
         || exists_row (fun _ r => bool_decide (sn_portfolio r = id)) (snapshots t)
      then (Err foreign_key_violation, t)
      else (Ok 1, set_portfolios t (delete id (portfolios t)))
  end.

(** Another account of the portfolio has the name. *)
Definition account_named (id portfolio name : string) (t : portfolio_tables) : bool :=
  exists_row (fun k r => negb (bool_decide (k = id)) && bool_decide (ac_portfolio r = portfolio)
                         && bool_decide (ac_name r = name)) (accounts t).

Definition insert_account (id : string) (now : time) (portfolio name metadata : string) (t : portfolio_tables)
    : res (string * AccountRow) * portfolio_tables :=
  match jsonb_in metadata with
  | None => (Err EDb, t)
  | Some j =>
      let r := mkAccountRow portfolio name j now now in
      if negb (text_ok name) then (Err EDb, t)
      else if btrim_blank name then (Err check_violation, t)
      else if bool_decide (is_Some (accounts t !! id)) || account_named id portfolio name t
      then (Err unique_violation, t)
      else if bool_decide (portfolios t !! portfolio = None) then (Err foreign_key_violation, t)
      else (Ok (id, r), set_accounts t (<[id := r]> (accounts t)))
  end.

Definition update_account (id : string) (now : time) (name metadata : string) (t : portfolio_tables)
    : res (string * AccountRow) * portfolio_tables :=
  match jsonb_in metadata with
  | None => (Err EDb, t)
  | Some j =>
      if negb (text_ok name) then (Err EDb, t)
      else match accounts t !! id with
           | None => (Err ENoRows, t)
           | Some old =>
               let r := mkAccountRow (ac_portfolio old) name j (ac_created old) now in
               if btrim_blank name then (Err check_violation, t)
               else if account_named id (ac_portfolio old) name t then (Err unique_violation, t)
               else (Ok (id, r), set_accounts t (<[id := r]> (accounts t)))
           end
  end.

Definition delete_account (id : string) (t : portfolio_tables) : res Z * portfolio_tables :=
  match accounts t !! id with
  | None => (Ok 0, t)
  | Some _ =>
      if exists_row (fun _ r => bool_decide (ln_account r = id)) (snapshot_lines t) || account_used id
      then (Err foreign_key_violation, t)
      else (Ok 1, set_accounts t (delete id (accounts t)))
  end.
End statements.

Definition CreatePortfolioSnapshot (id : string) (now : time) (portfolio : string) (captured : time)
    (supersedes : option string) (t : portfolio_tables) : res (string * PortfolioSnapshot) * portfolio_tables :=
  let r := mkPortfolioSnapshot portfolio (pg_time captured) supersedes now in
  if bool_decide (supersedes = Some id) then (Err check_violation, t)
  else if bool_decide (is_Some (snapshots t !! id)) then (Err unique_violation, t)
  else if bool_decide (is_Some (portfolios t !! portfolio))
          && match supersedes with
             | None => true
             | Some old => bool_decide (sn_portfolio <$> snapshots t !! old = Some portfolio)
             end
  then (Ok (id, r), set_snapshots t (<[id := r]> (snapshots t)))
  else (Err foreign_key_violation, t).

(** The trigger on lines, run before an insert. *)
Definition validate_portfolio_snapshot_line (r : LineRow) (t : portfolio_tables) : option goerr :=
  match instruments t !! ln_instrument r with
  | None => Some foreign_key_violation
  | Some i =>
      if bool_decide (in_type i = "fixed_rate_bond")
      then match ln_duration r with
           | Some d => if 0 <? d then None else Some check_violation
           | None => Some check_violation
           end
      else if bool_decide (ln_duration r = None) && bool_decide (ln_convexity r = None) then None
      else Some check_violation
  end.

(** A nullable numeric parameter into its column. *)
Definition nullable_column (n : option Numeric) : option (option Z) :=
  match n with None => Some None | Some n => Some <$> numeric_column (numeric_value n) end.

Definition insert_line (id : string) (r : LineRow) (t : portfolio_tables) : res unit * portfolio_tables :=
  match validate_portfolio_snapshot_line r t with
  | Some e => (Err e, t)
  | None =>
      if match ln_convexity r with Some c => c <? 0 | None => false end then (Err check_violation, t)
      else if bool_decide (is_Some (snapshot_lines t !! id))
              || exists_row (fun _ l => bool_decide (ln_snapshot l = ln_snapshot r)
                                        && bool_decide (ln_account l = ln_account r)
                                        && bool_decide (ln_instrument l = ln_instrument r)) (snapshot_lines t)
      then (Err unique_violation, t)
      else if bool_decide (sn_portfolio <$> snapshots t !! ln_snapshot r = Some (ln_portfolio r))
              && bool_decide (ac_portfolio <$> accounts t !! ln_account r = Some (ln_portfolio r))
      then (Ok tt, set_lines t (<[id := r]> (snapshot_lines t)))
      else (Err foreign_key_violation, t)
  end.

(** A row of [ListPortfolioSnapshotLines]: the line with its identifier, its
    account and its instrument. *)
Definition joined : Type := (string * LineRow) * AccountRow * InstrumentRow.

Definition join_line (t : portfolio_tables) (kv : string * LineRow) : option joined :=
  a ← accounts t !! ln_account (snd kv);
  i ← instruments t !! ln_instrument (snd kv);
  Some (kv, a, i).

(** ** The service *)

Section service.
Context (Queries Beginner : bool) (scan_uuid : string -> option string)
  (scan_numeric : string -> option Numeric) (read_numeric : Z -> Numeric)
  (jsonb_in : string -> option json) (jsonb_out : json -> string) (text_ok : string -> bool)
  (collate : string -> string -> comparison) (account_used : string -> bool)
  (format_float : spec_float -> string) (float_ok : string -> bool)
  (shuffle : list (string * string) -> list (string * string)).

Abbreviation dbt := (dbm portfolio_tables).

Definition parseUUID (value : string) : option string := scan_uuid (trim_space value).

Definition isSupportedType (value : string) : bool := bool_decide (value ∈ SupportedInstrumentTypes).
Definition isSupportedStatus (value : string) : bool := bool_decide (value ∈ SupportedStatuses).

Definition validatePortfolio (name currency : string) : bool :=
  negb (bool_decide (trim_space name = "")) && bool_decide (currency ∈ ReportingCurrencies).

Fixpoint validExternalIDs_from (seen : gset string) (ids : list ExternalIdentifier) : bool :=
  match ids with
  | [] => true
  | id :: rest =>
      if negb (bool_decide (Namespace id = trim_space (Namespace id)))
         || negb (bool_decide (ExternalID id = trim_space (ExternalID id)))
         || bool_decide (Namespace id = "") || bool_decide (ExternalID id = "")
      then false
      else
        let key := trim_space (Namespace id) in
        if bool_decide (key ∈ seen) then false else validExternalIDs_from ({[key]} ∪ seen) rest
  end.
Definition validExternalIDs (ids : list ExternalIdentifier) : bool := validExternalIDs_from ∅ ids.

Definition externalIDsMap (ids : list ExternalIdentifier) : gmap string string :=
  fold_left (fun m id => <[Namespace id := ExternalID id]> m) ids ∅.

(** [json.Marshal] of a [map[string]string]. *)
Definition marshal_string_map (m : gmap string string) : option string :=
  Marshal format_float (VMap ((fun kv => (fst kv, VStr (snd kv))) <$> map_to_list m)).

Definition encodeMetadata (value : option (list (string * goval))) : res string :=
  match value with
  | None => Ok "{}"
  | Some m =>
      match Marshal format_float (VMap m) with
      | Some encoded => if bool_decide (is_Some (parse_json encoded)) then Ok encoded else Err ErrInvalidRequest
      | None => Err ErrInvalidRequest
      end
  end.

(** Every number of a document fits a float64. *)
Fixpoint floats_ok (j : json) : bool :=
  match j with
  | JNumber text => float_ok text
  | JArray l => forallb floats_ok l
  | JObject fields => forallb (fun kv => floats_ok (snd kv)) fields
  | _ => true
  end.

Definition decodeMetadata (value : json) : gmap string json :=
  match parse_json (jsonb_out value) with
  | Some (JObject fields) =>
      if floats_ok (JObject fields) then fold_left (fun m kv => <[fst kv := snd kv]> m) fields ∅ else ∅
  | _ => ∅
  end.

(** [json.Unmarshal] into a nil [map[string]string]. *)
Definition unmarshal_string_map (text : string) : option (gmap string string) :=
  match parse_json text with
  | Some JNull => Some ∅
  | Some (JObject fields) =>
      fold_left (fun m kv => m ← m; v ← decode_string "" (snd kv); Some (<[fst kv := v]> m)) fields (Some ∅)
  | _ => None
  end.

Definition portfolioFromRow (row : string * PortfolioRow) : Portfolio :=
  let r := snd row in
  mkPortfolio (fst row) (po_name r) (po_currency r) (decodeMetadata (po_metadata r)) (po_created r) (po_updated r).

Definition accountFromRow (row : string * AccountRow) : Account :=
  let r := snd row in
  mkAccount (fst row) (ac_portfolio r) (ac_name r) (decodeMetadata (ac_metadata r)) (ac_created r) (ac_updated r).

(** *** Queries *)

Definition row_of {R} (m : gmap string R) (id : string) : res (string * R) :=
  match m !! id with Some r => Ok (id, r) | None => Err ENoRows end.

Definition collated {A} (key : A -> string) : comparator A := fun x y => collate (key x) (key y).

Definition GetPortfolioInstrument (id : string) : dbt (string * InstrumentRow) :=
  pool_query (fun t => row_of (instruments t) id).
Definition GetPortfolioRow (id : string) : dbt (string * PortfolioRow) :=
  pool_query (fun t => row_of (portfolios t) id).
Definition GetAccountRow (id : string) : dbt (string * AccountRow) :=
  pool_query (fun t => row_of (accounts t) id).
Definition GetPortfolioSnapshot (id : string) : dbt (string * PortfolioSnapshot) :=
  pool_query (fun t => row_of (snapshots t) id).

Definition ListInstrumentExternalIdentifiers (id : string) : dbt (list ExternalIdentifier) :=
  pool_query (fun t => Ok ((fun kv => mkExternalIdentifier (snd (fst kv)) (snd kv)) <$>
    insertion_sort (before (collated (fun kv => snd (fst kv)) >> collated snd))
      (List.filter (fun kv => bool_decide (fst (fst kv) = id)) (map_to_list (identifiers t))))).

Definition ListPortfolioInstruments : dbt (list (string * InstrumentRow)) :=
  pool_query (fun t => Ok (insertion_sort (before (collated (fun kv => in_symbol (snd kv)) >> asc_text fst))
    (map_to_list (instruments t)))).
Definition ListPortfolioRows : dbt (list (string * PortfolioRow)) :=
  pool_query (fun t => Ok (insertion_sort (before (collated (fun kv => po_name (snd kv)) >> asc_text fst))
    (map_to_list (portfolios t)))).
Definition ListAccountRows (portfolio : string) : dbt (list (string * AccountRow)) :=
  pool_query (fun t => Ok (select (fun _ r => bool_decide (ac_portfolio r = portfolio))
    (before (collated (fun kv => ac_name (snd kv)) >> asc_text fst)) (accounts t))).
Definition ListPortfolioSnapshots (portfolio : string) : dbt (list (string * PortfolioSnapshot)) :=
  pool_query (fun t => Ok (select (fun _ r => bool_decide (sn_portfolio r = portfolio))
    (before (desc (fun kv => sn_captured (snd kv)) >> (fun x y => asc_text fst y x))) (snapshots t))).

Definition line_order : comparator joined :=
  collated (fun j => ac_name (snd (fst j))) >> collated (fun j => in_symbol (snd j))
  >> asc_text (fun j => fst (fst (fst j))).

Definition snapshot_rows (id : string) (t : portfolio_tables) : list joined :=
  insertion_sort (before line_order)
    (omap (join_line t) (List.filter (fun kv => bool_decide (ln_snapshot (snd kv) = id)) (map_to_list (snapshot_lines t)))).

Definition ListPortfolioSnapshotLines (id : string) : dbt (list joined) :=
  pool_query (fun t => Ok (snapshot_rows id t)).

(** *** Answers *)

Definition line_answer (j : joined) : SnapshotLine :=
  let '((id, l), a, i) := j in
  let number z := numericString (Some (read_numeric z)) in
  mkSnapshotLine id (ln_account l) (ln_instrument l) (number (ln_quantity l))
    (numericPointer (read_numeric <$> ln_cost l)) (numericOptionalString (read_numeric <$> ln_duration l))
    (numericOptionalString (read_numeric <$> ln_convexity l)) (ac_name a) (in_symbol i) (in_type i) (in_native i)
    (in_status i).

Definition snapshot (row : string * PortfolioSnapshot) : dbt Snapshot :=
  let* lines := wrap "list snapshot lines" (ListPortfolioSnapshotLines (fst row)) in
  let r := snd row in
  ret (mkSnapshot (fst row) (sn_portfolio r) (sn_captured r) (default "" (sn_supersedes r)) (sn_created r)
         (line_answer <$> lines)).

(** Identifiers that are only in the older representation, in the order the map
    is visited. *)
Definition legacy_identifiers (row : InstrumentRow) (seen : list ExternalIdentifier) : list ExternalIdentifier :=
  match unmarshal_string_map (jsonb_out (in_external row)) with
  | None => []
  | Some legacy =>
      (fun kv => mkExternalIdentifier (fst kv) (snd kv)) <$>
        List.filter (fun kv => negb (bool_decide (fst kv ∈ Namespace <$> seen))
                               && negb (bool_decide (trim_space (fst kv) = ""))
                               && negb (bool_decide (trim_space (snd kv) = "")))
          (shuffle (map_to_list legacy))
  end.

Definition instrument (row : string * InstrumentRow) : dbt Instrument :=
  let* ids := wrap "list instrument identifiers" (ListInstrumentExternalIdentifiers (fst row)) in
  let r := snd row in
  ret (mkInstrument (fst row) (in_symbol r) (in_type r) (in_native r) (ids ++ legacy_identifiers r ids)
         (in_status r) (in_created r)).

(** A lookup whose empty answer is [ErrNotFound]. *)
Definition found {A} (ctx : string) (m : dbt A) : dbt A :=
  map_err (fun e => if errors_is e ENoRows then ErrNotFound else EWrap ctx e) m.

(** An update whose empty answer is [ErrNotFound]. *)
Definition updated {A} (m : dbt A) : dbt A :=
  map_err (fun e => if errors_is e ENoRows then ErrNotFound else mapDatabaseError e) m.

Definition or_invalid {A} (o : option A) : dbt A :=
  match o with Some a => ret a | None => throw ErrInvalidRequest end.

(** *** Instruments *)

Definition CreateInstrument (id : string) (now : time) (request : CreateInstrumentRequest) : dbt Instrument :=
  if negb Queries || negb Beginner then throw ErrDatabase
  else
    let symbol := trim_space (CiSymbol request) in
    let type := trim_space (CiType request) in
    let unit := to_upper (trim_space (CiUnit request)) in
    let status := if bool_decide (CiStatus request = "") then StatusActive else CiStatus request in
    if bool_decide (symbol = "") || negb (isSupportedType type) || negb (unitCodePattern unit)
    then throw ErrInvalidRequest
    else if negb (isSupportedStatus status) || negb (validExternalIDs (CiExternalIDs request))
    then throw ErrInvalidRequest
    else
      let* metadata := or_invalid (marshal_string_map (externalIDsMap (CiExternalIDs request))) in
      wrap "begin instrument transaction" begin ;;;
      let* row := map_err mapDatabaseError
        (stmt (CreatePortfolioInstrument text_ok jsonb_in id now symbol type unit metadata status)) in
      iter (fun identifier => map_err mapDatabaseError
              (stmt (InsertInstrumentExternalIdentifier text_ok (fst row) (Namespace identifier) (ExternalID identifier))))
        (CiExternalIDs request) ;;;
      wrap "commit instrument transaction" commit ;;;
      instrument row.

Definition ListInstruments : dbt (list Instrument) :=
  if negb Queries then throw ErrDatabase
  else let* rows := wrap "list instruments" ListPortfolioInstruments in collect instrument rows.

Definition GetInstrument (id : string) : dbt Instrument :=
  if negb Queries then throw ErrDatabase
  else let* parsed := or_invalid (parseUUID id) in
       let* row := found "get instrument" (GetPortfolioInstrument parsed) in instrument row.

Definition UpdateInstrumentStatus (id status : string) : dbt Instrument :=
  if negb Queries then throw ErrDatabase
  else let* parsed := or_invalid (if isSupportedStatus status then parseUUID id else None) in
       let* row := updated (pool_stmt (UpdatePortfolioInstrumentStatus text_ok parsed status)) in instrument row.

(** *** Portfolios *)

Definition CreatePortfolio (id : string) (now : time) (request : CreatePortfolioRequest) : dbt Portfolio :=
  if negb Queries then throw ErrDatabase
  else if negb (validatePortfolio (CpName request) (CpCurrency request)) then throw ErrInvalidRequest
  else
    let* metadata := of_res (encodeMetadata (CpMetadata request)) in
    let* row := map_err mapDatabaseError
      (pool_stmt (insert_portfolio text_ok jsonb_in id now (trim_space (CpName request)) (CpCurrency request) metadata)) in
    ret (portfolioFromRow row).

Definition ListPortfolios : dbt (list Portfolio) :=
  if negb Queries then throw ErrDatabase
  else let* rows := wrap "list portfolios" ListPortfolioRows in ret (portfolioFromRow <$> rows).

Definition GetPortfolio (id : string) : dbt Portfolio :=
  if negb Queries then throw ErrDatabase
  else let* parsed := or_invalid (parseUUID id) in
       let* row := found "get portfolio" (GetPortfolioRow parsed) in ret (portfolioFromRow row).

Definition UpdatePortfolio (now : time) (id : string) (request : UpdatePortfolioRequest) : dbt Portfolio :=
  if negb Queries then throw ErrDatabase
  else
    let* parsed := or_invalid (parseUUID id) in
    if negb (validatePortfolio (CpName request) (CpCurrency request)) then throw ErrInvalidRequest
    else
      let* metadata := of_res (encodeMetadata (CpMetadata request)) in
      let* row := updated
        (pool_stmt (update_portfolio text_ok jsonb_in parsed now (trim_space (CpName request)) (CpCurrency request) metadata)) in
      ret (portfolioFromRow row).

(** A delete that finds no row is [ErrNotFound]. *)
Definition deleted (statement : portfolio_tables -> res Z * portfolio_tables) : dbt unit :=
  let* rows := map_err mapDatabaseError (pool_stmt statement) in
  if rows =? 0 then throw ErrNotFound else ret tt.

Definition DeletePortfolio (id : string) : dbt unit :=
  if negb Queries then throw ErrDatabase
  else let* parsed := or_invalid (parseUUID id) in deleted (delete_portfolio parsed).

(** *** Accounts *)

Definition CreateAccount (id : string) (now : time) (portfolioID : string) (request : CreateAccountRequest)
    : dbt Account :=
  if negb Queries then throw ErrDatabase
  else
    let* pid := or_invalid (if bool_decide (trim_space (CaName request) = "") then None else parseUUID portfolioID) in
    found "get account portfolio" (GetPortfolioRow pid) ;;;
    let* metadata := of_res (encodeMetadata (CaMetadata request)) in
    let* row := map_err mapDatabaseError
      (pool_stmt (insert_account text_ok jsonb_in id now pid (trim_space (CaName request)) metadata)) in
    ret (accountFromRow row).

Definition ListAccounts (portfolioID : string) : dbt (list Account) :=
  if negb Queries then throw ErrDatabase
  else
    let* pid := or_invalid (parseUUID portfolioID) in
    found "get accounts portfolio" (GetPortfolioRow pid) ;;;
    let* rows := wrap "list accounts" (ListAccountRows pid) in ret (accountFromRow <$> rows).

Definition GetAccount (id : string) : dbt Account :=
  if negb Queries then throw ErrDatabase
  else let* parsed := or_invalid (parseUUID id) in
       let* row := found "get account" (GetAccountRow parsed) in ret (accountFromRow row).

Definition UpdateAccount (now : time) (id : string) (request : UpdateAccountRequest) : dbt Account :=
  if negb Queries then throw ErrDatabase
  else
    let* parsed := or_invalid (if bool_decide (trim_space (CaName request) = "") then None else parseUUID id) in
    let* metadata := of_res (encodeMetadata (CaMetadata request)) in
    let* row := updated (pool_stmt (update_account text_ok jsonb_in parsed now (trim_space (CaName request)) metadata)) in
    ret (accountFromRow row).

Definition DeleteAccount (id : string) : dbt unit :=
  if negb Queries then throw ErrDatabase
  else let* parsed := or_invalid (parseUUID id) in deleted (delete_account account_used parsed).

(** *** Snapshots *)

Record preparedLine : Set := mkPreparedLine {
  accountID : string;
  instrumentID : string;
  quantity : option Numeric;
  costBasis : option Numeric;
  duration : option Numeric;
  convexity : option Numeric;
}.

(** The parsed decimals of a line, and the rule for fixed-rate bonds. *)
Definition line_numbers (input : SnapshotLineInput) (type : string)
    : res (option Numeric * option Numeric * option Numeric * option Numeric) :=
  let! quantity := parseDecimal scan_numeric (Quantity input) false in
  let! costBasis := match TotalCostBasis input with
                    | Some text => parseDecimal scan_numeric text false
                    | None => Ok None
                    end in
  let! duration := parseDecimal scan_numeric (ModifiedDurationYears input) true in
  let! convexity := parseDecimal scan_numeric (ConvexityYearsSquared input) true in
  if bool_decide (type = InstrumentFixedBond) then
    if match duration with None => true | Some d => (Int d =? 0) || (Int d <? 0) end
       || match convexity with Some c => Int c <? 0 | None => false end
    then Err ErrInvalidRequest
    else Ok (quantity, costBasis, duration, convexity)
  else if bool_decide (is_Some duration) || bool_decide (is_Some convexity)
  then Err ErrInvalidRequest
  else Ok (quantity, costBasis, duration, convexity).

Definition prepareLine (portfolioID account instr : string) (input : SnapshotLineInput) : dbt preparedLine :=
  let* owner := attempt (GetAccountRow account) in
  let owner_portfolio := match owner with Ok row => ac_portfolio (snd row) | Err _ => "" end in
  if match owner with Err e => errors_is e ENoRows | Ok _ => false end
     || negb (bool_decide (owner_portfolio = portfolioID))
  then throw ErrInvalidRequest
  else
    wrap "get snapshot account" (of_res owner) ;;;
    let* i := map_err (fun e => if errors_is e ENoRows then ErrInvalidRequest else EWrap "get snapshot instrument" e)
                (GetPortfolioInstrument instr) in
    let* numbers := of_res (line_numbers input (in_type (snd i))) in
    let '(((quantity, costBasis), duration), convexity) := numbers in
    ret (mkPreparedLine account instr quantity costBasis duration convexity).

Fixpoint prepareLines (portfolioID : string) (seen : gset string) (lines : list SnapshotLineInput)
    : dbt (list preparedLine) :=
  match lines with
  | [] => ret []
  | input :: rest =>
      let* account := or_invalid (parseUUID (AccountID input)) in
      let* instr := or_invalid (parseUUID (InstrumentID input)) in
      let key := account +:+ ":" +:+ instr in
      if bool_decide (key ∈ seen) then throw ErrInvalidRequest
      else
        let* line := prepareLine portfolioID account instr input in
        let* prepared := prepareLines portfolioID ({[key]} ∪ seen) rest in
        ret (line :: prepared)
  end.

(** The snapshot a request supersedes. *)
Definition superseded (pid : string) (id : string) : dbt (option string) :=
  if bool_decide (id = "") then ret None
  else
    let* old := or_invalid (parseUUID id) in
    let* r := attempt (GetPortfolioSnapshot old) in
    match r with
    | Err e => throw (if errors_is e ENoRows then ErrNotFound else ErrInvalidRequest)
    | Ok row => if bool_decide (sn_portfolio (snd row) = pid) then ret (Some old) else throw ErrInvalidRequest
    end.

(** The row a prepared line is stored as; [None] when a number does not fit its
    column. *)
Definition line_row (pid snapshot : string) (line : preparedLine) : option LineRow :=
  quantity ← quantity line ≫= fun n => numeric_column (numeric_value n);
  cost ← nullable_column (costBasis line);
  duration ← nullable_column (duration line);
  convexity ← nullable_column (convexity line);
  Some (mkLineRow pid snapshot (accountID line) (instrumentID line) quantity cost duration convexity).

Definition InsertPortfolioSnapshotLine (id pid snapshot : string) (line : preparedLine) (t : portfolio_tables)
    : res unit * portfolio_tables :=
  match line_row pid snapshot line with
  | None => (Err EDb, t)
  | Some r => insert_line id r t
  end.

(** The identifier of the n-th line is [gen (S n)]. *)
Fixpoint insert_lines (gen : nat -> string) (pid snapshot : string) (n : nat) (lines : list preparedLine) : dbt unit :=
  match lines with
  | [] => ret tt
  | line :: rest =>
      map_err mapDatabaseError (stmt (InsertPortfolioSnapshotLine (gen (S n)) pid snapshot line)) ;;;
      insert_lines gen pid snapshot (S n) rest
  end.

Definition CreateSnapshot (gen : nat -> string) (now : time) (portfolioID : string) (request : CreateSnapshotRequest)
    : dbt Snapshot :=
  if negb Queries || negb Beginner then throw ErrDatabase
  else
    let* pid := or_invalid (if IsZero (CapturedAt request) || bool_decide (Lines request = [])
                            then None else parseUUID portfolioID) in
    found "get snapshot portfolio" (GetPortfolioRow pid) ;;;
    let* supersedes := superseded pid (SupersedesSnapshotID request) in
    let* inputs := prepareLines pid ∅ (Lines request) in
    wrap "begin snapshot transaction" begin ;;;
    let* row := map_err mapDatabaseError
      (stmt (CreatePortfolioSnapshot (gen 0%nat) now pid (CapturedAt request) supersedes)) in
    insert_lines gen pid (fst row) 0 inputs ;;;
    wrap "commit snapshot transaction" commit ;;;
    snapshot row.

Definition ListSnapshots (portfolioID : string) : dbt (list Snapshot) :=
  if negb Queries then throw ErrDatabase
  else
    let* pid := or_invalid (parseUUID portfolioID) in
    let* rows := wrap "list snapshots" (ListPortfolioSnapshots pid) in collect snapshot rows.

Definition GetSnapshot (id : string) : dbt Snapshot :=
  if negb Queries then throw ErrDatabase
  else let* parsed := or_invalid (parseUUID id) in
       let* row := found "get snapshot" (GetPortfolioSnapshot parsed) in snapshot row.

(** ** Histories: the calls that may change the tables *)

Inductive service_step : portfolio_tables -> portfolio_tables -> Prop :=
  | sp_instrument fs id now request t r t' :
      run (CreateInstrument id now request) fs t = (r, t') -> service_step t t'
  | sp_status fs id status t r t' :
      run (UpdateInstrumentStatus id status) fs t = (r, t') -> service_step t t'
  | sp_portfolio fs id now request t r t' :
      run (CreatePortfolio id now request) fs t = (r, t') -> service_step t t'
  | sp_update fs now id request t r t' :
      run (UpdatePortfolio now id request) fs t = (r, t') -> service_step t t'
  | sp_delete fs id t r t' :
      run (DeletePortfolio id) fs t = (r, t') -> service_step t t'
  | sp_account fs id now portfolio request t r t' :
      run (CreateAccount id now portfolio request) fs t = (r, t') -> service_step t t'
  | sp_update_account fs now id request t r t' :
      run (UpdateAccount now id request) fs t = (r, t') -> service_step t t'
  | sp_delete_account fs id t r t' :
      run (DeleteAccount id) fs t = (r, t') -> service_step t t'
  | sp_snapshot fs gen now portfolio request t r t' :
      run (CreateSnapshot gen now portfolio request) fs t = (r, t') -> service_step t t'.
End service.

End Portfolio.
