(* ===== verification/PortfolioRows.v ===== *)
(** Well-formed portfolio tables, and that every statement of the portfolio
    service keeps them well formed and keeps what a snapshot depends on:
    [respects evolves]. *)

From S2P Require Import Prelude GoString Digits GoTime Order Decimal Tables Db Json JsonTree JsonText Portfolio.
From Stdlib Require Import Ascii QArith.
#[local] Open Scope Z_scope.
Import Portfolio.

(** ** Well-formed tables *)

(** What a line's instrument asks of its risk attributes. *)
Definition bond_rule (i : InstrumentRow) (l : LineRow) : Prop :=
  if bool_decide (in_type i = InstrumentFixedBond)
  then exists d, ln_duration l = Some d /\ 0 < d
  else ln_duration l = None /\ ln_convexity l = None.

Record RowInv (t : portfolio_tables) : Prop := {
  ri_portfolio id p : portfolios t !! id = Some p ->
    btrim_blank (po_name p) = false /\ po_currency p ∈ ReportingCurrencies;
  ri_account id a : accounts t !! id = Some a ->
    btrim_blank (ac_name a) = false /\ is_Some (portfolios t !! ac_portfolio a);
  ri_account_names id id' a a' : accounts t !! id = Some a -> accounts t !! id' = Some a' ->
    ac_portfolio a = ac_portfolio a' -> ac_name a = ac_name a' -> id = id';
  ri_instrument id r : instruments t !! id = Some r ->
    in_type r ∈ SupportedInstrumentTypes /\ in_status r ∈ SupportedStatuses /\ unitCodePattern (in_native r) = true;
  ri_symbols id id' r r' : instruments t !! id = Some r -> instruments t !! id' = Some r' ->
    in_symbol r = in_symbol r' -> id = id';
  ri_identifier id ns x : identifiers t !! (id, ns) = Some x -> is_Some (instruments t !! id);
  ri_identifiers id id' ns x : identifiers t !! (id, ns) = Some x -> identifiers t !! (id', ns) = Some x -> id = id';
  ri_snapshot id s : snapshots t !! id = Some s ->
    is_Some (portfolios t !! sn_portfolio s) /\
    forall old, sn_supersedes s = Some old -> sn_portfolio <$> snapshots t !! old = Some (sn_portfolio s);
  ri_chain : exists rank : string -> nat, forall id s old,
    snapshots t !! id = Some s -> sn_supersedes s = Some old -> (rank old < rank id)%nat;
  ri_line id l : snapshot_lines t !! id = Some l ->
    sn_portfolio <$> snapshots t !! ln_snapshot l = Some (ln_portfolio l) /\
    ac_portfolio <$> accounts t !! ln_account l = Some (ln_portfolio l) /\
    exists i, instruments t !! ln_instrument l = Some i /\ bond_rule i l;
  ri_convexity id l c : snapshot_lines t !! id = Some l -> ln_convexity l = Some c -> 0 <= c;
  ri_lines id id' l l' : snapshot_lines t !! id = Some l -> snapshot_lines t !! id' = Some l' ->
    ln_snapshot l = ln_snapshot l' -> ln_account l = ln_account l' -> ln_instrument l = ln_instrument l' -> id = id';
}.

(** The identity of an instrument, which never changes. *)
Definition same_instrument (r r' : InstrumentRow) : Prop :=
  in_symbol r = in_symbol r' /\ in_type r = in_type r' /\ in_native r = in_native r' /\
  in_external r = in_external r' /\ in_created r = in_created r'.

(** What a call leaves of the tables: instruments with their identity, their
    identifiers, and the snapshots with their lines. *)
Record kept (t t' : portfolio_tables) : Prop := {
  kp_instrument id r : instruments t !! id = Some r -> exists r', instruments t' !! id = Some r' /\ same_instrument r r';
  kp_identifier k x : identifiers t !! k = Some x -> identifiers t' !! k = Some x;
  kp_snapshot id s : snapshots t !! id = Some s -> snapshots t' !! id = Some s;
  kp_line id l : snapshot_lines t !! id = Some l -> snapshot_lines t' !! id = Some l;
}.

#[export] Instance same_instrument_refl : Reflexive same_instrument.
Proof. intros r. by repeat split. Qed.

#[export] Instance kept_refl : Reflexive kept.
Proof. intros t. split; [|eauto..]. intros id r Hr. by exists r. Qed.

#[export] Instance kept_trans : Transitive kept.
Proof.
  intros t1 t2 t3 [A1 B1 C1 D1] [A2 B2 C2 D2]. split; [|eauto..].
  intros id r Hr. destruct (A1 _ _ Hr) as (r' & Hr' & H1 & H2 & H3 & H4 & H5). destruct (A2 _ _ Hr') as (r'' & Hr'' & G1 & G2 & G3 & G4 & G5).
  exists r''. split; [done|]. repeat split; congruence.
Qed.

Lemma kept_intro t t' :
  instruments t' = instruments t -> identifiers t' = identifiers t ->
  snapshots t ⊆ snapshots t' -> snapshot_lines t ⊆ snapshot_lines t' -> kept t t'.
Proof.
  intros H1 H2 H3 H4. split; rewrite ?H1, ?H2; [|done|..].
  - intros id r Hr. by exists r.
  - intros id s H. exact (lookup_weaken _ _ _ _ H H3).
  - intros id l H. exact (lookup_weaken _ _ _ _ H H4).
Qed.

(** The relation every statement respects. *)
Definition evolves (t t' : portfolio_tables) : Prop := RowInv t -> RowInv t' /\ kept t t'.

#[export] Instance evolves_refl : Reflexive evolves.
Proof. intros t H. by split. Qed.

#[export] Instance evolves_trans : Transitive evolves.
Proof. intros t1 t2 t3 H1 H2 H. destruct (H1 H) as [I1 K1]. destruct (H2 I1) as [I2 K2]. split; [done|by etransitivity]. Qed.

Lemma exists_row_false {K R} `{Countable K} (p : K -> R -> bool) (m : gmap K R) k r :
  exists_row p m = false -> m !! k = Some r -> p k r = false.
Proof.
  intros He Hm. destruct (p k r) eqn:Hp; [|done]. enough (exists_row p m = true) by congruence.
  apply existsb_exists. exists (k, r). split; [|exact Hp]. by apply list_elem_of_In, elem_of_map_to_list.
Qed.

(** Case analysis on the lookups in an updated table. *)
Ltac lookups :=
  cbn [instruments identifiers portfolios accounts snapshots snapshot_lines set_instruments set_identifiers
       set_portfolios set_accounts set_snapshots set_lines] in *;
  repeat match goal with
  | H : <[_ := _]> _ !! _ = Some _ |- _ => apply lookup_insert_Some in H as [[? ?]|[? H]]; simplify_eq
  | H : delete _ _ !! _ = Some _ |- _ => apply lookup_delete_Some in H as [? H]
  | H : exists_row _ ?m = false, H' : ?m !! _ = Some _ |- _ =>
      pose proof (exists_row_false _ _ _ _ H H'); clear H
  end.

Lemma fmap_insert_fresh {A B} (f : A -> B) (m : gmap string A) k v i y :
  m !! k = None -> f <$> m !! i = Some y -> f <$> <[k := v]> m !! i = Some y.
Proof. intros Hk H. rewrite lookup_insert_ne; [done|]. intros <-. rewrite Hk in H. discriminate H. Qed.

Lemma fresh_ne {A} (m : gmap string A) k i v : m !! k = None -> m !! i = Some v -> k <> i.
Proof. intros Hk Hi ->. congruence. Qed.

(** A row that escapes the uniqueness test differs from the new one. *)
Ltac clash :=
  cbn in *;
  match goal with
  | H : _ && bool_decide _ && bool_decide _ = false |- _ =>
      rewrite ?andb_false_iff, ?negb_false_iff, ?bool_decide_eq_true, ?bool_decide_eq_false in H; cbn in *;
      intuition congruence
  end.

Section statements.
Context (text_ok : string -> bool) (jsonb_in : string -> option json) (account_used : string -> bool).

Lemma respects_insert_portfolio id now name currency metadata :
  respects evolves (insert_portfolio text_ok jsonb_in id now name currency metadata).
Proof.
  intros t a t' H. unfold insert_portfolio in H. destruct (jsonb_in metadata) as [j|]; [|done].
  destruct (text_ok name && _); [|done]. destruct (portfolio_check name currency) eqn:Hc; [|done].
  cbn [negb] in H. case_bool_decide as Hid; [done|]. injection H as <- <-. intros I.
  apply eq_None_not_Some in Hid. unfold portfolio_check in Hc. bool_simp. split; [|by apply kept_intro].
  destruct I. split; intros; lookups; eauto.
  - destruct (ri_account0 _ _ H1). split; [done|by apply is_Some_insert].
  - destruct (ri_snapshot0 _ _ H1). split; [by apply is_Some_insert|done].
Qed.

Lemma respects_update_portfolio id now name currency metadata :
  respects evolves (update_portfolio text_ok jsonb_in id now name currency metadata).
Proof.
  intros t a t' H. unfold update_portfolio in H. destruct (jsonb_in metadata) as [j|]; [|done].
  destruct (text_ok name && _); [|done]. cbn [negb] in H. destruct (portfolios t !! id) as [old|]; [|done].
  destruct (portfolio_check name currency) eqn:Hc; [|done]. cbn [negb] in H. injection H as <- <-. intros I.
  unfold portfolio_check in Hc. bool_simp. split; [|by apply kept_intro].
  destruct I. split; intros; lookups; eauto.
  - destruct (ri_account0 _ _ H1). split; [done|by apply is_Some_insert].
  - destruct (ri_snapshot0 _ _ H1). split; [by apply is_Some_insert|done].
Qed.

Lemma respects_delete_portfolio id : respects evolves (delete_portfolio id).
Proof.
  intros t a t' H. unfold delete_portfolio in H. destruct (portfolios t !! id) as [old|]; [|by injection H as <- <-].
  destruct (exists_row _ (accounts t)) eqn:Ha; [done|]. destruct (exists_row _ (snapshots t)) eqn:Hs; [done|].
  cbn [orb] in H. injection H as <- <-. intros I. split; [|by apply kept_intro].
  destruct I. split; intros; cbn in *; eauto.
  - lookups. eauto.
  - pose proof (exists_row_false _ _ _ _ Ha H) as Hne. cbn in Hne. bool_simp.
    destruct (ri_account0 _ _ H). split; [done|]. by rewrite lookup_delete_ne.
  - pose proof (exists_row_false _ _ _ _ Hs H) as Hne. cbn in Hne. bool_simp.
    destruct (ri_snapshot0 _ _ H). split; [|done]. by rewrite lookup_delete_ne.
Qed.

Lemma respects_insert_account id now portfolio name metadata :
  respects evolves (insert_account text_ok jsonb_in id now portfolio name metadata).
Proof.
  intros t a t' H. unfold insert_account in H. destruct (jsonb_in metadata) as [j|]; [|done].
  destruct (text_ok name); [|done]. cbn [negb] in H. destruct (btrim_blank name) eqn:Hb; [done|].
  destruct (bool_decide (is_Some _) || _) eqn:Hu; [done|]. case_bool_decide as Hp; [done|]. injection H as <- <-.
  intros I. apply orb_false_elim in Hu as [Hid Hn]. apply bool_decide_eq_false_1, eq_None_not_Some in Hid.
  split; [|by apply kept_intro]. unfold account_named in Hn. destruct I. split; intros; lookups; eauto; try clash.
  - cbn. split; [done|]. by apply not_eq_None_Some.
  - destruct (ri_line0 _ _ H) as (Hs & Ha & Hi). split_and!; [done| |done]. by apply fmap_insert_fresh.
Qed.

Lemma respects_update_account id now name metadata :
  respects evolves (update_account text_ok jsonb_in id now name metadata).
Proof.
  intros t a t' H. unfold update_account in H. destruct (jsonb_in metadata) as [j|]; [|done].
  destruct (text_ok name); [|done]. cbn [negb] in H. destruct (accounts t !! id) as [old|] eqn:Hold; [|done].
  destruct (btrim_blank name) eqn:Hb; [done|]. destruct (account_named _ _ _ _) eqn:Hu; [done|]. injection H as <- <-.
  intros I. split; [|by apply kept_intro]. unfold account_named in Hu.
  destruct I. split; intros; lookups; eauto; try clash.
  - cbn. split; [done|]. by eapply ri_account0.
  - destruct (ri_line0 _ _ H) as (Hs & Ha & Hi). split_and!; [done| |done].
    destruct (decide (id = ln_account l)) as [->|Hne]; [|by rewrite lookup_insert_ne].
    rewrite lookup_insert_eq. by rewrite Hold in Ha.
Qed.

Lemma respects_delete_account id : respects evolves (delete_account account_used id).
Proof.
  intros t a t' H. unfold delete_account in H. destruct (accounts t !! id) as [old|]; [|by injection H as <- <-].
  destruct (exists_row _ _ || _) eqn:Hu; [done|]. injection H as <- <-. intros I. bool_simp.
  split; [|by apply kept_intro]. destruct I. split; intros; cbn in *; eauto.
  - lookups. eauto.
  - lookups. eauto.
  - pose proof (exists_row_false _ _ _ _ H H1) as Hne. cbn in Hne. bool_simp.
    destruct (ri_line0 _ _ H1) as (Hs & Ha & Hi). split_and!; [done| |done]. by rewrite lookup_delete_ne.
Qed.
End statements.

Section instrument_statements.
Context (text_ok : string -> bool) (jsonb_in : string -> option json).

(** The trigger adds at most one identifier. *)
Lemma trigger_effect id r t t' :
  ensure_binance_external_identifier id r t = Ok t' ->
  t' = t \/
  identifiers t !! (id, "binance.symbol") = None /\
  (forall id' x, identifiers t !! (id', "binance.symbol") = Some x -> x <> in_symbol r) /\
  t' = set_identifiers t (<[(id, "binance.symbol") := in_symbol r]> (identifiers t)).
Proof.
  unfold ensure_binance_external_identifier. destruct (negb _); [intros [= <-]; by left|].
  destruct (identifiers t !! (id, "binance.symbol")) as [x|] eqn:Hi.
  - case_bool_decide; [intros [= <-]; by left|done].
  - destruct (exists_row _ _) eqn:He; [done|]. intros [= <-]. right. split; [done|]. split; [|done].
    intros id' x Hx ->. pose proof (exists_row_false _ _ _ _ He Hx) as H. cbn in H.
    by rewrite !bool_decide_true in H.
Qed.

(** Adding an identifier whose pair is new, of an instrument that exists. *)
Lemma evolves_identifier t id ns x :
  is_Some (instruments t !! id) -> identifiers t !! (id, ns) = None ->
  (forall id' x', identifiers t !! (id', ns) = Some x' -> x' <> x) ->
  evolves t (set_identifiers t (<[(id, ns) := x]> (identifiers t))).
Proof.
  intros Hid Hnone Hnew I. split.
  - destruct I. split; intros; lookups; eauto; exfalso; by eapply Hnew.
  - split; cbn; [intros i r Hr; by exists r| |done..].
    intros k y Hk. rewrite lookup_insert_ne; [done|]. intros <-. congruence.
Qed.

Lemma evolves_trigger id r t t' :
  is_Some (instruments t !! id) -> ensure_binance_external_identifier id r t = Ok t' -> evolves t t'.
Proof.
  intros Hid [->|(Hnone & Hnew & ->)]%trigger_effect; [reflexivity|]. apply evolves_identifier; [done|done|].
  intros id' x' Hx. by eapply Hnew.
Qed.

Lemma respects_insert_instrument id now symbol type native external status :
  isSupportedType type = true ->
  respects evolves (CreatePortfolioInstrument text_ok jsonb_in id now symbol type native external status).
Proof.
  intros Htype t a t' H. unfold CreatePortfolioInstrument in H. destruct (jsonb_in external) as [j|]; [|done].
  destruct (negb (forallb text_ok _)); [done|]. destruct (btrim_blank symbol || _ || _ || _) eqn:Hc; [done|].
  destruct (bool_decide (is_Some _) || _) eqn:Hu; [done|]. destruct (ensure_binance_external_identifier _ _ _) as [t''|] eqn:Et; [|done].
  injection H as <- <-. apply orb_false_elim in Hu as [Hid Hsym]. apply bool_decide_eq_false_1, eq_None_not_Some in Hid.
  unfold isSupportedType in Htype. bool_simp.
  assert (Hstep : evolves t (set_instruments t (<[id := mkInstrumentRow symbol type native j status now]> (instruments t)))).
  { intros I. split.
    - destruct I. split; intros; lookups; eauto; try (exfalso; cbn in *; bool_simp; congruence).
      + select (identifiers t !! _ = Some _) (fun Hx => apply ri_identifier0 in Hx; by apply is_Some_insert).
      + select (snapshot_lines t !! _ = Some _) (fun Hx => destruct (ri_line0 _ _ Hx) as (Hs & Ha & i & Hi & Hb)).
        split_and!; [done..|]. exists i.
        split; [|done]. rewrite lookup_insert_ne; [done|]. by eapply fresh_ne.
    - split; cbn; [|done..]. intros i r Hr. exists r. split; [|reflexivity].
      rewrite lookup_insert_ne; [done|]. by eapply fresh_ne. }
  etransitivity; [exact Hstep|]. apply evolves_trigger in Et; [exact Et|]. cbn. rewrite lookup_insert_eq. by eexists.
Qed.

Lemma respects_insert_identifier id namespace external :
  respects evolves (InsertInstrumentExternalIdentifier text_ok id namespace external).
Proof.
  intros t a t' H. unfold InsertInstrumentExternalIdentifier in H.
  destruct (negb (_ && _)); [done|]. destruct (btrim_blank namespace || _); [done|]. case_bool_decide as Hk; [by injection H as <- <-|].
  destruct (exists_row _ _) eqn:He; [done|]. case_bool_decide as Hid; [done|]. injection H as <- <-.
  apply evolves_identifier; [by apply not_eq_None_Some|by apply eq_None_not_Some|].
  intros id' x' Hx ->. pose proof (exists_row_false _ _ _ _ He Hx) as H. cbn in H. by rewrite !bool_decide_true in H.
Qed.

Lemma respects_update_status id status : respects evolves (UpdatePortfolioInstrumentStatus text_ok id status).
Proof.
  intros t a t' H. unfold UpdatePortfolioInstrumentStatus in H. destruct (negb (text_ok status)); [done|].
  destruct (instruments t !! id) as [old|] eqn:Hold; [|done]. case_bool_decide as Hs; [|done]. cbn [negb] in H.
  destruct (ensure_binance_external_identifier _ _ _) as [t''|] eqn:Et; [|done]. injection H as <- <-.
  assert (Hstep : evolves t (set_instruments t (<[id := with_status status old]> (instruments t)))).
  { intros I. split.
    - destruct I. split; intros; lookups; eauto.
      + destruct (ri_instrument0 _ _ Hold) as (? & _ & ?). done.
      + select (identifiers t !! _ = Some _) (fun Hx => apply ri_identifier0 in Hx; by apply is_Some_insert).
      + select (snapshot_lines t !! _ = Some _) (fun Hx => destruct (ri_line0 _ _ Hx) as (Hs' & Ha & i & Hi & Hb)).
        split_and!; [done..|].
        destruct (decide (id = ln_instrument l)) as [->|Hne].
        * exists (with_status status old). rewrite lookup_insert_eq. split; [done|]. rewrite Hold in Hi. by injection Hi as <-.
        * exists i. by rewrite lookup_insert_ne.
    - split; cbn; [|done..]. intros i r Hr. destruct (decide (id = i)) as [->|Hne].
      + exists (with_status status old). rewrite lookup_insert_eq. split; [done|]. rewrite Hold in Hr. injection Hr as <-. by repeat split.
      + exists r. by rewrite lookup_insert_ne. }
  etransitivity; [exact Hstep|]. apply evolves_trigger in Et; [exact Et|]. cbn. rewrite lookup_insert_eq. by eexists.
Qed.
End instrument_statements.

Lemma respects_insert_snapshot id now portfolio captured supersedes :
  respects evolves (CreatePortfolioSnapshot id now portfolio captured supersedes).
Proof.
  intros t a t' H. unfold CreatePortfolioSnapshot in H. case_bool_decide as Hself; [done|].
  case_bool_decide as Hid; [done|]. destruct (_ && _) eqn:Hfk; [|done]. injection H as <- <-.
  apply eq_None_not_Some in Hid. bool_simp. intros I.
  assert (Hsub : snapshots t ⊆ <[id := mkPortfolioSnapshot portfolio (pg_time captured) supersedes now]> (snapshots t))
    by by apply insert_subseteq.
  split; [|by apply kept_intro]. destruct I. split; intros; lookups; eauto.
  - split; [done|]. intros old Hold. cbn in *. subst supersedes. bool_simp. by apply fmap_insert_fresh.
  - select (snapshots t !! _ = Some _) (fun Hx => destruct (ri_snapshot0 _ _ Hx) as [Hp Hold]). split; [done|]. intros old Ho. apply fmap_insert_fresh; [done|]. by apply Hold.
  - destruct ri_chain0 as [rank Hrank].
    exists (fun i => if decide (i = id) then match supersedes with Some old => S (rank old) | None => 0%nat end else rank i).
    intros i s old Hs Ho. apply lookup_insert_Some in Hs as [[<- <-]|[Hne Hs]].
    + cbn in Ho. subst supersedes. rewrite (decide_True (P := id = id)), (decide_False (P := old = id)) by congruence. lia.
    + rewrite (decide_False (P := i = id)) by done. destruct (ri_snapshot0 _ _ Hs) as [_ Hold]. specialize (Hold _ Ho).
      rewrite decide_False by (intros ->; rewrite Hid in Hold; discriminate Hold). by eapply Hrank.
  - select (snapshot_lines t !! _ = Some _) (fun Hx => destruct (ri_line0 _ _ Hx) as (Hs & Ha & Hi)).
    split_and!; [|done..]. by apply fmap_insert_fresh.
Qed.

Lemma trigger_rule r t : validate_portfolio_snapshot_line r t = None ->
  exists i, instruments t !! ln_instrument r = Some i /\ bond_rule i r.
Proof.
  unfold validate_portfolio_snapshot_line, bond_rule, InstrumentFixedBond.
  destruct (instruments t !! ln_instrument r) as [i|]; [|done]. case_bool_decide as Hb.
  - destruct (ln_duration r) as [d|] eqn:Hd; [|done]. destruct (Z.ltb_spec 0 d); [|done]. intros _. exists i.
    split; [done|]. rewrite bool_decide_true by done. eauto.
  - destruct (_ && _) eqn:Hn; [|done]. bool_simp. intros _. exists i. split; [done|]. by rewrite bool_decide_false.
Qed.

Lemma respects_insert_line id r : respects evolves (insert_line id r).
Proof.
  intros t a t' H. unfold insert_line in H. destruct (validate_portfolio_snapshot_line r t) eqn:Hv; [done|].
  apply trigger_rule in Hv. destruct (match ln_convexity r with Some c => c <? 0 | None => false end) eqn:Hc; [done|].
  destruct (bool_decide (is_Some _) || _) eqn:Hu; [done|]. destruct (bool_decide (sn_portfolio <$> _ = _) && _) eqn:Hfk; [|done]. injection H as <- <-.
  apply orb_false_elim in Hu as [Hid Hdup]. apply bool_decide_eq_false_1, eq_None_not_Some in Hid. bool_simp. intros I.
  split; [|apply kept_intro; [done..|by apply insert_subseteq]].
  destruct I. split; intros; lookups; eauto; try clash.
  select (ln_convexity _ = Some _) (fun Hx => rewrite Hx in Hc; by apply Z.ltb_ge).
Qed.
