(* ===== verification/Valuation.v ===== *)
(** Portfolio valuation (internal/application/valuation/service.go, records of
    internal/domain/valuation/model.go).

    The service reads a snapshot and the revisions eligible at a cutoff under a
    knowledge clock, values every line in TRY and USD through explicit
    conversion paths, and persists the run with its lines in one transaction.
    [gen] supplies the identifiers the database draws: [gen 0] for the run and
    [gen (S i)] for its i-th line. *)

From S2P Require Import Prelude GoString Digits GoTime Sha256 Json Db Decimal Order Tables.
From Stdlib Require Import Ascii SpecFloat QArith.
#[local] Open Scope Z_scope.

Module Valuation.

Definition KnowledgeSystem : string := "system_as_of".
Definition KnowledgeSource : string := "source_as_of".
Definition StateValid : string := "valid".
Definition StateBlocked : string := "blocked".
Definition maxAgeSeconds : Z := 9223372036.

Definition errNonPositiveFXRate : goerr := ENew "FX rate must be positive".
Definition ErrInvalidRequest : goerr := ENew "invalid valuation request".
Definition ErrNotFound : goerr := ENew "valuation resource not found".

(** ** Domain records *)

Record Request : Type := mkRequest {
  SnapshotID : string;
  Cutoff : time;
  KnowledgeMode : string;
  KnownAt : time;
  PriceMaxAgeSeconds : Z;
  FXMaxAgeSeconds : Z;
}.

Record FXPathEntry : Set := mkFXPathEntry { QuoteRevisionID : string; Direction : string }.

Record Line : Type := mkLine {
  LineID : string;
  SnapshotLineID : string;
  InstrumentID : string;
  NativeCurrency : string;
  NativeAmount : option string;
  TryAmount : option string;
  USDAmount : option string;
  LineState : string;
  ReasonCodes : list Reason;
  PriceMethod : string;
  PriceRevisionID : option string;
  PriceQuoteUnit : option string;
  TryFXPath : list FXPathEntry;
  USDFXPath : list FXPathEntry;
}.

Record Totals : Type := mkTotals { TRY : option string; USD : option string }.

Record Run : Type := mkRun {
  ID : string;
  RunSnapshotID : string;
  RunCutoff : time;
  RunKnowledgeMode : string;
  RunKnownAt : time;
  RunPriceMaxAgeSeconds : Z;
  RunFXMaxAgeSeconds : Z;
  RunState : string;
  ResultHash : string;
  Lines : list Line;
  RunTotals : Totals;
  CreatedAt : time;
}.

(** ** Service records *)

Record snapshotLine : Type := mkSnapshotLine {
  line_id : string;
  line_instrument : string;
  line_native : string;
  line_type : string;
  line_quantity : Q;
}.

Record priceRevision : Type := mkPriceRevision {
  price_id : string;
  price_quote : string;
  price_raw : string;
  price_observation : time;
  price_value : Q;
  price_source : option time;
  price_system : time;
}.

Record fxRevision : Type := mkFXRevision {
  rev_id : string;
  rev_base : string;
  rev_quote : string;
  rev_raw : string;
  rev_observation : time;
  rev_rate : Q;
  rev_source : option time;
  rev_system : time;
}.

Record selectedPath : Type := mkPath { path_rate : Q; path_edges : list FXPathEntry }.

(** ** Eligibility *)

(** [time.Duration(maxAgeSeconds)*time.Second] is an [int64] product. *)
Definition eligibleRevision (observation : time) (sourceKnown : option time)
    (systemKnown : time) (knowledgeMode : string) (cutoff knownAt : time) (maxAge : Z) : bool :=
  if After observation cutoff || (wrap64 (maxAge * Second) <? Sub cutoff observation) then false
  else if bool_decide (knowledgeMode = KnowledgeSource)
  then match sourceKnown with Some t => negb (After t knownAt) | None => false end
  else negb (After systemKnown knownAt).

Definition selectPrice (ps : list priceRevision) : option priceRevision := head ps.

Definition parseDecimal (value : string) : res Q :=
  match parse_rat value with Some q => Ok q | None => Err ErrInvalidRequest end.

(** ** Conversion paths *)

Definition Sign (q : Q) : Z := Z.sgn (Qnum q).

Definition with_rate (q : fxRevision) (r : Q) : fxRevision :=
  mkFXRevision (rev_id q) (rev_base q) (rev_quote q) (rev_raw q) (rev_observation q) r
    (rev_source q) (rev_system q).

(** The quotes between two currencies, the reversed ones with their rate
    inverted when it is positive. *)
Fixpoint direct_quotes (source target : string) (quotes : list fxRevision) : list fxRevision :=
  match quotes with
  | [] => []
  | q :: rest =>
      if bool_decide (rev_base q = source) && bool_decide (rev_quote q = target)
      then q :: direct_quotes source target rest
      else if bool_decide (rev_base q = target) && bool_decide (rev_quote q = source)
      then (if 0 <? Sign (rev_rate q) then with_rate q (/ rev_rate q)%Q else q)
             :: direct_quotes source target rest
      else direct_quotes source target rest
  end.

(** The comparison function of [sort.SliceStable]. *)
Definition fresher (a b : fxRevision) : bool :=
  if negb (rev_observation a =? rev_observation b)
  then After (rev_observation a) (rev_observation b)
  else
    match rev_source a, rev_source b with
    | Some sa, Some sb =>
        if negb (sa =? sb) then After sa sb
        else if negb (rev_system a =? rev_system b) then After (rev_system a) (rev_system b)
        else string_ltb (rev_id a) (rev_id b)
    | _, _ =>
        if negb (rev_system a =? rev_system b) then After (rev_system a) (rev_system b)
        else string_ltb (rev_id a) (rev_id b)
    end.

Fixpoint bridgeQuote (source target : string) (quotes : list fxRevision)
    : option (fxRevision * string) :=
  match quotes with
  | [] => None
  | q :: rest =>
      if bool_decide (rev_base q = source) && bool_decide (rev_quote q = target)
      then if Sign (rev_rate q) <=? 0 then None else Some (q, "forward")
      else if bool_decide (rev_base q = target) && bool_decide (rev_quote q = source)
      then if Sign (rev_rate q) <=? 0 then None
           else Some (with_rate q (/ rev_rate q)%Q, "reverse")
      else bridgeQuote source target rest
  end.

Definition fxReason (target : string) (err : option goerr) : Reason :=
  match err with
  | Some e =>
      if errors_is e errNonPositiveFXRate
      then mkReason "FX_INVALID_RATE"
             ("eligible FX quote has a non-positive rate for " +:+ target)
      else mkReason ("FX_" +:+ target +:+ "_MISSING_OR_STALE")
             ("no explicit eligible conversion path to " +:+ target)
  | None => mkReason ("FX_" +:+ target +:+ "_MISSING_OR_STALE")
              ("no explicit eligible conversion path to " +:+ target)
  end.

Definition fxPathFromArrays (ids directions : list string) : list FXPathEntry :=
  zip_with mkFXPathEntry ids directions.

(** ** JSON values *)

Definition optional_value (s : option string) : goval :=
  match s with Some s => VStr s | None => VNil end.

Definition path_value (path : list FXPathEntry) : goval :=
  VArr ((fun e => VStruct [("quote_revision_id", VStr (QuoteRevisionID e));
                           ("direction", VStr (Direction e))]) <$> path).

(** [time.Time.MarshalJSON] refuses years outside 0..9999. *)
Definition time_value (t : time) : option goval :=
  if (0 <=? year_of t) && (year_of t <=? 9999)
  then Some (VStr (format_rfc3339nano t)) else None.

Definition request_value (r : Request) : option goval :=
  cutoff ← time_value (Cutoff r);
  known_at ← time_value (KnownAt r);
  Some (VStruct [("snapshot_id", VStr (SnapshotID r)); ("cutoff", cutoff);
    ("knowledge_mode", VStr (KnowledgeMode r)); ("known_at", known_at);
    ("price_max_age_seconds", VInt (PriceMaxAgeSeconds r));
    ("fx_max_age_seconds", VInt (FXMaxAgeSeconds r))]).

Definition line_value (l : Line) : goval :=
  VMap [("snapshot_line_id", VStr (SnapshotLineID l));
    ("price_revision_id", optional_value (PriceRevisionID l));
    ("price_quote_unit", optional_value (PriceQuoteUnit l));
    ("try_fx_path", path_value (TryFXPath l)); ("usd_fx_path", path_value (USDFXPath l));
    ("native_amount", optional_value (NativeAmount l));
    ("try_amount", optional_value (TryAmount l)); ("usd_amount", optional_value (USDAmount l));
    ("state", VStr (LineState l))].

Definition totals_value (t : Totals) : goval :=
  VStruct [("try", optional_value (TRY t)); ("usd", optional_value (USD t))].

Section hash.
Context (format_float : spec_float -> string).

(** A marshalling failure leaves an empty payload. *)
Definition resultHash (request : Request) (lines : list Line) (totals : Totals) : string :=
  sha256_hex (default "" (
    r ← request_value request;
    Marshal format_float (VMap [("request", r); ("lines", VArr (line_value <$> lines));
                                ("totals", totals_value totals)]))).

Definition request_json (request : Request) : option string :=
  r ← request_value request; Marshal format_float r.
End hash.

Section paths.
Context (parseISO : string -> bool).

Definition isFiatCode (c : string) : bool :=
  let c := to_upper (trim_space c) in
  parseISO c && negb (bool_decide (c ∈ ["XXX"; "XAU"; "XAG"; "XDR"; "XBA"; "XBB"; "XBC"; "XBD"; "XTS"])).

Definition identity_path : selectedPath := mkPath 1%Q [].

Definition pathFor (source target : string) (quotes : list fxRevision) : res selectedPath :=
  if negb (isFiatCode source) || negb (isFiatCode target)
  then Err (ENew "non-fiat asset code cannot be used as an FX currency")
  else if bool_decide (source = target) then Ok identity_path
  else
    match insertion_sort fresher (direct_quotes source target quotes) with
    | q :: _ =>
        if Sign (rev_rate q) <=? 0 then Err errNonPositiveFXRate
        else Ok (mkPath (rev_rate q)
                   [mkFXPathEntry (rev_id q)
                      (if bool_decide (rev_base q = target) then "reverse" else "forward")])
    | [] =>
        if bool_decide (source = "USD") || bool_decide (target = "USD")
        then Err (ENew "no direct USD path")
        else
          match bridgeQuote source "USD" quotes, bridgeQuote "USD" target quotes with
          | Some (first, firstDir), Some (second, secondDir) =>
              Ok (mkPath (rev_rate first * rev_rate second)%Q
                    [mkFXPathEntry (rev_id first) firstDir;
                     mkFXPathEntry (rev_id second) secondDir])
          | _, _ => Err (ENew "no USD bridge")
          end
    end.

(** ** Valuing a line *)

(** The values the loop of [Create] carries. *)
Record loopState : Type := mkLoop {
  ls_prices : gmap string (list priceRevision);
  ls_results : list Line;
  ls_try : Q;
  ls_usd : Q;
  ls_blocked : bool;
}.

Definition is_cash (line : snapshotLine) : bool :=
  bool_decide (line_type line = "cash") || bool_decide (line_type line = "currency").

(** The amount in one target currency: the path found for the quote unit, which
    is the identity when the quote unit is the target itself. *)
Definition convert (amount : Q) (quote target : string) (fx : list fxRevision)
    : res (Q * list FXPathEntry) :=
  let! path := pathFor quote target fx in
  let path := if bool_decide (quote = target) then identity_path else path in
  Ok ((amount * path_rate path)%Q, path_edges path).

Definition blocked_line (line : snapshotLine) : Line :=
  mkLine "" (line_id line) (line_instrument line) (line_native line) None None None
    StateBlocked
    [mkReason "PRICE_MISSING_OR_STALE"
       "no eligible price revision at the requested cutoff and knowledge clock"]
    "revision" None None [] [].

Definition target_reasons (target : string) (r : res (Q * list FXPathEntry)) : list Reason :=
  match r with Ok _ => [] | Err e => [fxReason target (Some e)] end.
Definition target_amount (r : res (Q * list FXPathEntry)) : option string :=
  match r with Ok (q, _) => Some (formatDecimal q) | Err _ => None end.
Definition target_path (r : res (Q * list FXPathEntry)) : list FXPathEntry :=
  match r with Ok (_, p) => p | Err _ => [] end.
Definition add_rounded (total : Q) (r : res (Q * list FXPathEntry)) : Q :=
  match r with Ok (q, _) => (total + roundedDecimal q)%Q | Err _ => total end.

(** The body of the loop once the price of the line, if any, is known. *)
Definition value_line (fx : list fxRevision) (line : snapshotLine)
    (price : option priceRevision) (st : loopState) : loopState :=
  let priced :=
    if is_cash line then Some ("identity", None, line_quantity line, line_native line)
    else match price with
         | Some p => Some ("revision", Some p, (line_quantity line * price_value p)%Q, price_quote p)
         | None => None
         end in
  match priced with
  | None => mkLoop (ls_prices st) (ls_results st ++ [blocked_line line]) (ls_try st) (ls_usd st) true
  | Some (method, p, amount, quote) =>
      let t := convert amount quote "TRY" fx in
      let u := convert amount quote "USD" fx in
      let reasons := target_reasons "TRY" t ++ target_reasons "USD" u in
      let blocked := negb (bool_decide (reasons = [])) in
      mkLoop (ls_prices st)
        (ls_results st ++
           [mkLine "" (line_id line) (line_instrument line) (line_native line)
              (Some (formatDecimal amount)) (target_amount t) (target_amount u)
              (if blocked then StateBlocked else StateValid) reasons method
              (price_id <$> p) (price_quote <$> p) (target_path t) (target_path u)])
        (add_rounded (ls_try st) t) (add_rounded (ls_usd st) u) (ls_blocked st || blocked)
  end.
End paths.

(** ** Loading *)

Section service.
Context (Pool : bool) (scan_uuid uuid_text : string -> option string)
  (parseISO : string -> bool) (format_float : spec_float -> string).

Definition validUUID (value : string) : bool :=
  bool_decide (is_Some (scan_uuid (trim_space value))).

Definition validRequest (r : Request) : bool :=
  validUUID (SnapshotID r) && negb (IsZero (Cutoff r)) && negb (IsZero (KnownAt r))
  && (bool_decide (KnowledgeMode r = KnowledgeSystem)
      || bool_decide (KnowledgeMode r = KnowledgeSource))
  && (0 <=? PriceMaxAgeSeconds r) && (PriceMaxAgeSeconds r <=? maxAgeSeconds)
  && (0 <=? FXMaxAgeSeconds r) && (FXMaxAgeSeconds r <=? maxAgeSeconds).

Definition to_snapshotLine (s : tables) (kv : string * SnapshotLineRow) : res snapshotLine :=
  match instruments s !! sl_instrument (snd kv) with
  | Some i =>
      let! quantity := parseDecimal (numeric_out (sl_quantity (snd kv))) in
      Ok (mkSnapshotLine (fst kv) (sl_instrument (snd kv)) (ins_native i) (ins_type i) quantity)
  | None => Err ENoRows
  end.

Fixpoint res_mapM {A B} (f : A -> res B) (l : list A) : res (list B) :=
  match l with
  | [] => Ok []
  | x :: l' => let! y := f x in let! ys := res_mapM f l' in Ok (y :: ys)
  end.

(** The join drops a line whose instrument is missing, which the foreign key
    excludes. *)
Definition loadSnapshot (id : string) (s : tables) : res (list snapshotLine * string) :=
  match uuid_text id with
  | None => Err EDb
  | Some sid =>
      let reporting := ps ← snapshots s !! sid; portfolios s !! ps_portfolio ps in
      let rows := select (fun _ r => bool_decide (sl_snapshot r = sid)
                                     && bool_decide (is_Some (instruments s !! sl_instrument r))
                                     && bool_decide (is_Some reporting))
                    (before (asc_text fst)) (snapshot_lines s) in
      let! lines := res_mapM (to_snapshotLine s) rows in
      let reporting := if bool_decide (rows = []) then "" else default "" reporting in
      if bool_decide (reporting = "") then Err ENoRows else Ok (lines, reporting)
  end.

(** The WHERE clause on the two clocks, on microsecond parameters. *)
Definition eligible_row (request : Request) (maxAge : Z) (observation : time)
    (source : option time) (system : time) : bool :=
  (observation <=? pg_time (Cutoff request))
  && (pg_time (Cutoff request) - maxAge * Second <=? observation)
  && (if bool_decide (KnowledgeMode request = KnowledgeSource)
      then match source with Some t => t <=? pg_time (KnownAt request) | None => false end
      else system <=? pg_time (KnownAt request)).

Definition price_order (request : Request) : comparator (string * PriceRow) :=
  if bool_decide (KnowledgeMode request = KnowledgeSource)
  then desc (fun kv => pr_observation (snd kv)) >> desc_null (fun kv => pr_source_known (snd kv))
       >> desc (fun kv => pr_system_known (snd kv)) >> asc_text fst
  else desc (fun kv => pr_observation (snd kv)) >> desc (fun kv => pr_system_known (snd kv))
       >> asc_text fst.

(** The scanning loop: the first row of each quote unit is kept. *)
Fixpoint scan_prices (request : Request) (seen : gset string) (rows : list (string * PriceRow))
    : res (list priceRevision) :=
  match rows with
  | [] => Ok []
  | (id, r) :: rest =>
      if negb (eligibleRevision (pr_observation r) (pr_source_known r) (pr_system_known r)
                 (KnowledgeMode request) (Cutoff request) (KnownAt request)
                 (PriceMaxAgeSeconds request))
      then scan_prices request seen rest
      else if bool_decide (pr_quote r ∈ seen) then scan_prices request seen rest
      else
        let! price := parseDecimal (numeric_out (pr_price r)) in
        let! items := scan_prices request ({[pr_quote r]} ∪ seen) rest in
        Ok (mkPriceRevision id (pr_quote r) (pr_raw r) (pr_observation r) price
              (pr_source_known r) (pr_system_known r) :: items)
  end.

Definition loadPrices (instrumentID : string) (request : Request) (s : tables)
    : res (list priceRevision) :=
  match uuid_text instrumentID with
  | None => Err EDb
  | Some iid =>
      scan_prices request ∅
        (select (fun _ r => bool_decide (pr_instrument r = iid)
                   && eligible_row request (PriceMaxAgeSeconds request) (pr_observation r)
                        (pr_source_known r) (pr_system_known r))
           (before (price_order request)) (prices s))
  end.

Definition fx_order (request : Request) : comparator (string * FXRow) :=
  asc_text (fun kv => fx_base (snd kv)) >> asc_text (fun kv => fx_quote (snd kv))
  >> (if bool_decide (KnowledgeMode request = KnowledgeSource)
      then desc (fun kv => fx_observation (snd kv)) >> desc_null (fun kv => fx_source_known (snd kv))
           >> desc (fun kv => fx_system_known (snd kv)) >> asc_text fst
      else desc (fun kv => fx_observation (snd kv)) >> desc (fun kv => fx_system_known (snd kv))
           >> asc_text fst).

(** The first row of each [base:quote] key is kept. *)
Fixpoint scan_fx (request : Request) (seen : gset string) (rows : list (string * FXRow))
    : res (list fxRevision) :=
  match rows with
  | [] => Ok []
  | (id, r) :: rest =>
      let key := fx_base r +:+ ":" +:+ fx_quote r in
      if negb (eligibleRevision (fx_observation r) (fx_source_known r) (fx_system_known r)
                 (KnowledgeMode request) (Cutoff request) (KnownAt request)
                 (FXMaxAgeSeconds request))
      then scan_fx request seen rest
      else if bool_decide (key ∈ seen) then scan_fx request seen rest
      else
        let! rate := parseDecimal (numeric_out (fx_rate r)) in
        let! items := scan_fx request ({[key]} ∪ seen) rest in
        Ok (mkFXRevision id (fx_base r) (fx_quote r) (fx_raw r) (fx_observation r) rate
              (fx_source_known r) (fx_system_known r) :: items)
  end.

Definition loadFX (request : Request) (s : tables) : res (list fxRevision) :=
  scan_fx request ∅
    (select (fun _ r => eligible_row request (FXMaxAgeSeconds request) (fx_observation r)
                          (fx_source_known r) (fx_system_known r))
       (before (fx_order request)) (fx_quotes s)).

(** ** Persisting *)

Definition pathArrays (path : list FXPathEntry) : res (list string * list string) :=
  let! ids := res_mapM (fun e => match scan_uuid (QuoteRevisionID e) with
                                 | Some id => Ok id
                                 | None => Err (ENew "cannot parse UUID")
                                 end) path in
  Ok (ids, Direction <$> path).

Definition hash_shape (h : string) : bool := (slen h =? 64) && forallb is_lower_hex (chars h).

(** INSERT INTO valuation_runs, with the constraints of the table. *)
Definition insert_run (id : string) (now : time) (request : Request) (run : Run) (s : tables)
    : res (string * time) * tables :=
  match uuid_text (SnapshotID request), request_json format_float request with
  | Some sid, Some json =>
      if bool_decide (is_Some (snapshots s !! sid))
         && bool_decide (valuation_runs s !! id = None)
         && (bool_decide (KnowledgeMode request = KnowledgeSystem)
             || bool_decide (KnowledgeMode request = KnowledgeSource))
         && (0 <=? PriceMaxAgeSeconds request) && (0 <=? FXMaxAgeSeconds request)
         && bool_decide (RunState run ∈ ["valid"; "degraded"; "blocked"])
         && hash_shape (ResultHash run)
      then (Ok (id, now), set_valuation_runs s (<[id :=
              mkValuationRun sid (pg_time (Cutoff request)) (KnowledgeMode request)
                (pg_time (KnownAt request)) (PriceMaxAgeSeconds request)
                (FXMaxAgeSeconds request) json (RunState run) (ResultHash run) now]>
              (valuation_runs s)))
      else (Err EDb, s)
  | _, _ => (Err EDb, s)
  end.

(** The CHECK constraints of [valuation_lines]. *)
Definition line_check (r : ValuationLineRow) : bool :=
  bool_decide (vl_state r ∈ ["valid"; "degraded"; "blocked"])
  && (bool_decide (vl_price_method r = "identity")
        && bool_decide (vl_price_revision r = None) && bool_decide (vl_price_quote_unit r = None)
      || bool_decide (vl_price_method r = "revision")
         && (bool_decide (is_Some (vl_price_revision r))
               && bool_decide (is_Some (vl_price_quote_unit r))
             || bool_decide (vl_state r = "blocked")
                && bool_decide (vl_price_revision r = None)
                && bool_decide (vl_price_quote_unit r = None)))
  && bool_decide (length (vl_try_ids r) = length (vl_try_directions r))
  && bool_decide (length (vl_usd_ids r) = length (vl_usd_directions r)).

(** The foreign keys, the uniqueness of (run, snapshot line) and the trigger
    tying the line to the snapshot of its run. *)
Definition line_refs (r : ValuationLineRow) (s : tables) : bool :=
  match valuation_runs s !! vl_run r, snapshot_lines s !! vl_snapshot_line r with
  | Some run, Some sl => bool_decide (sl_snapshot sl = vr_snapshot run)
  | _, _ => false
  end
  && match vl_price_revision r with
     | Some p => bool_decide (is_Some (prices s !! p))
     | None => true
     end
  && negb (existsb (fun kv => bool_decide (vl_run (snd kv) = vl_run r)
                              && bool_decide (vl_snapshot_line (snd kv) = vl_snapshot_line r))
             (map_to_list (valuation_lines s))).

Definition line_row (runID : string) (tryIDs tryDirections usdIDs usdDirections : list string)
    (line : Line) : option ValuationLineRow :=
  rid ← uuid_text runID;
  sl ← uuid_text (SnapshotLineID line);
  native ← nullable numeric_in (NativeAmount line);
  try_amount ← nullable numeric_in (TryAmount line);
  usd ← nullable numeric_in (USDAmount line);
  price ← nullable uuid_text (PriceRevisionID line);
  Some (mkValuationLine rid sl (NativeCurrency line) native try_amount usd (LineState line)
          (ReasonCodes line) (PriceMethod line) price (PriceQuoteUnit line)
          tryIDs tryDirections usdIDs usdDirections).

Definition insert_line (id runID : string)
    (tryIDs tryDirections usdIDs usdDirections : list string) (line : Line) (s : tables)
    : res unit * tables :=
  match line_row runID tryIDs tryDirections usdIDs usdDirections line with
  | Some r =>
      if line_check r && line_refs r s && bool_decide (valuation_lines s !! id = None)
      then (Ok tt, set_valuation_lines s (<[id := r]> (valuation_lines s)))
      else (Err EDb, s)
  | None => (Err EDb, s)
  end.

Definition persist_line (runID : string) (il : string * Line) : dbm tables unit :=
  let* tr := of_res (pathArrays (TryFXPath (snd il))) in
  let* ud := of_res (pathArrays (USDFXPath (snd il))) in
  wrap "insert valuation line"
    (stmt (insert_line (fst il) runID (fst tr) (snd tr) (fst ud) (snd ud) (snd il))).

Definition persist (gen : nat -> string) (now : time) (request : Request) (run : Run)
    (lines : list Line) : dbm tables (string * time) :=
  wrap "begin valuation transaction" begin ;;;
  let* created := wrap "insert valuation run" (stmt (insert_run (gen 0%nat) now request run)) in
  iter (persist_line (fst created)) (zip_with pair (gen <$> seq 1 (length lines)) lines) ;;;
  wrap "commit valuation" commit ;;;
  ret created.

(** ** Reading back *)

Definition to_run (id : string) (r : ValuationRunRow) : Run :=
  mkRun id (vr_snapshot r) (vr_cutoff r) (vr_knowledge_mode r) (vr_known_at r)
    (vr_price_max_age r) (vr_fx_max_age r) (vr_state r) (vr_result_hash r) []
    (mkTotals None None) (vr_created_at r).

Definition to_line (s : tables) (kv : string * ValuationLineRow) : option Line :=
  let r := snd kv in
  sl ← snapshot_lines s !! vl_snapshot_line r;
  Some (mkLine (fst kv) (vl_snapshot_line r) (sl_instrument sl) (vl_native_currency r)
          (numeric_out <$> vl_native_amount r) (numeric_out <$> vl_try_amount r)
          (numeric_out <$> vl_usd_amount r) (vl_state r) (vl_reasons r) (vl_price_method r)
          (vl_price_revision r) (vl_price_quote_unit r)
          (fxPathFromArrays (vl_try_ids r) (vl_try_directions r))
          (fxPathFromArrays (vl_usd_ids r) (vl_usd_directions r))).

Definition select_run (id : string) (s : tables) : res Run :=
  match uuid_text id with
  | None => Err EDb
  | Some rid =>
      match valuation_runs s !! rid with Some r => Ok (to_run rid r) | None => Err ENoRows end
  end.

Definition select_lines (id : string) (s : tables) : res (list Line) :=
  match uuid_text id with
  | None => Err EDb
  | Some rid =>
      Ok (omap (to_line s)
            (select (fun _ r => bool_decide (vl_run r = rid)) (before (asc_text fst))
               (valuation_lines s)))
  end.

(** An amount that does not parse is skipped. *)
Definition add_amount (total : Q) (amount : option string) : Q :=
  match amount with
  | Some text => match parseDecimal text with Ok v => (total + v)%Q | Err _ => total end
  | None => total
  end.

Definition sum_totals (lines : list Line) : Totals :=
  mkTotals (Some (formatDecimal (fold_left (fun t l => add_amount t (TryAmount l)) lines 0%Q)))
    (Some (formatDecimal (fold_left (fun t l => add_amount t (USDAmount l)) lines 0%Q))).

Definition get_ (id : string) : dbm tables Run :=
  let* r := attempt (pool_query (select_run id)) in
  match r with
  | Err e => if errors_is e ENoRows then throw ErrNotFound else throw e
  | Ok run =>
      let* lines := pool_query (select_lines id) in
      ret (mkRun (ID run) (RunSnapshotID run) (RunCutoff run) (RunKnowledgeMode run)
             (RunKnownAt run) (RunPriceMaxAgeSeconds run) (RunFXMaxAgeSeconds run)
             (RunState run) (ResultHash run) lines (sum_totals lines) (CreatedAt run))
  end.

Definition Get (id : string) : dbm tables Run :=
  if negb Pool || negb (validUUID id) then throw ErrInvalidRequest else get_ id.

(** ** Create *)

(** The prices of an instrument are loaded once, and never for cash. *)
Definition cached_prices (request : Request) (line : snapshotLine) (st : loopState)
    : dbm tables loopState :=
  if bool_decide (ls_prices st !! line_instrument line = None) && negb (is_cash line) then
    let* ps := wrap "load prices" (pool_query (loadPrices (line_instrument line) request)) in
    ret (mkLoop (<[line_instrument line := ps]> (ls_prices st)) (ls_results st)
           (ls_try st) (ls_usd st) (ls_blocked st))
  else ret st.

Fixpoint value_all (request : Request) (fx : list fxRevision) (lines : list snapshotLine)
    (st : loopState) : dbm tables loopState :=
  match lines with
  | [] => ret st
  | line :: rest =>
      let* st := cached_prices request line st in
      value_all request fx rest
        (value_line parseISO fx line
           (selectPrice (default [] (ls_prices st !! line_instrument line))) st)
  end.

Definition empty_loop : loopState := mkLoop ∅ [] 0%Q 0%Q false.

Definition make_run (request : Request) (st : loopState) : Run :=
  let totals := mkTotals (Some (formatDecimal (ls_try st))) (Some (formatDecimal (ls_usd st))) in
  mkRun "" (SnapshotID request) (Cutoff request) (KnowledgeMode request) (KnownAt request)
    (PriceMaxAgeSeconds request) (FXMaxAgeSeconds request)
    (if ls_blocked st then StateBlocked else StateValid)
    (resultHash format_float request (ls_results st) totals) (ls_results st) totals zero_time.

Definition Create (gen : nat -> string) (now : time) (request : Request) : dbm tables Run :=
  if negb Pool || negb (validRequest request) then throw ErrInvalidRequest
  else
    let* r := attempt (pool_query (loadSnapshot (SnapshotID request))) in
    match r with
    | Err e => if errors_is e ENoRows then throw ErrNotFound else throw (EWrap "load snapshot" e)
    | Ok loaded =>
        let* fx := wrap "load fx revisions" (pool_query (loadFX request)) in
        let* st := value_all request fx (fst loaded) empty_loop in
        let* created := persist gen now request (make_run request st) (ls_results st) in
        get_ (fst created)
    end.
End service.
End Valuation.
