(* ===== verification/ValuationPaths.v ===== *)
(** Price and conversion-path selection of the valuation service: the age and
    knowledge tests are exact, the newest eligible revision is chosen, and the
    path between two currencies does not depend on its direction. *)

From S2P Require Import Prelude GoString Digits GoTime Json Db Decimal Order Tables Valuation.
From Stdlib Require Import Ascii SpecFloat QArith Lqa.
From stdpp Require Import sorting.
#[local] Open Scope Z_scope.
Import Valuation.

(** ** Eligibility *)

Lemma Sub_le t u d : 0 <= d < max_int64 -> Sub t u <= d <-> t - u <= d.
Proof.
  intros Hd. unfold Sub. unfold max_int64, min_int64, two63 in *.
  repeat case_match; bool_simp; lia.
Qed.

Lemma max_age_range maxAge :
  0 <= maxAge <= maxAgeSeconds -> 0 <= maxAge * Second < max_int64.
Proof. unfold maxAgeSeconds, Second, max_int64, two63. lia. Qed.

(** The clock a knowledge mode reads. *)
Definition known (mode : string) (source : option time) (system knownAt : time) : Prop :=
  if bool_decide (mode = KnowledgeSource)
  then exists t, source = Some t /\ t <= knownAt else system <= knownAt.

(** The freshness test is exact for every maximum age a valid request can
    carry: the [int64] product of the age by a second does not wrap, the
    saturating subtraction loses nothing, and a revision is eligible exactly when
    it is not later than the cutoff, not older than the maximum age, and known
    by then on the clock of the request. *)
Theorem eligible_exact observation source system mode cutoff knownAt maxAge :
  0 <= maxAge <= maxAgeSeconds ->
  eligibleRevision observation source system mode cutoff knownAt maxAge = true <->
  (observation <= cutoff <= observation + maxAge * Second /\ known mode source system knownAt).
Proof.
  intros Hage. pose proof (max_age_range _ Hage) as Hr.
  unfold eligibleRevision, known, After.
  rewrite (wrap64_id (maxAge * Second)) by (unfold min_int64, two63; lia).
  pose proof (Sub_le cutoff observation _ Hr) as Hs.
  destruct ((cutoff <? observation) || (maxAge * Second <? Sub cutoff observation)) eqn:E.
  - split; [done|]. intros [Hc _]. apply orb_true_iff in E. rewrite !Z.ltb_lt in E. lia.
  - bool_simp. destruct (bool_decide (mode = KnowledgeSource)).
    + destruct source as [t|].
      * rewrite negb_true_iff, Z.ltb_ge. split; [|by intros (_ & t' & [= <-] & ?)].
        intros Hk. split; [lia|eauto].
      * split; [done|]. intros (_ & t' & ? & _). done.
    + rewrite negb_true_iff, Z.ltb_ge. lia.
Qed.

Lemma eligible_exact_witness :
  eligibleRevision 0 None 5 KnowledgeSystem 1000 5 maxAgeSeconds = true.
Proof.
  refine (proj2 (eligible_exact 0 None 5 KnowledgeSystem 1000 5 maxAgeSeconds _) _).
  - unfold maxAgeSeconds. lia.
  - unfold maxAgeSeconds, Second, known. rewrite bool_decide_false by done. lia.
Defined.

(** ** Path selection *)

Definition flip (direction : string) : string :=
  if bool_decide (direction = "forward") then "reverse" else "forward".
Definition flip_edge (e : FXPathEntry) : FXPathEntry :=
  mkFXPathEntry (QuoteRevisionID e) (flip (Direction e)).

Lemma Sign_inv r : Sign (/ r)%Q = Sign r.
Proof. unfold Sign. destruct r as [[|n|n] d]; reflexivity. Qed.

Lemma Sign_pos_nonzero r : 0 < Sign r -> ~ (r == 0)%Q.
Proof. unfold Sign, Qeq. destruct r as [[|n|n] d]; cbn; lia. Qed.

(** Two readings of one quote, in opposite directions. *)
Definition mate (q q' : fxRevision) : Prop :=
  with_rate q' (rev_rate q) = q /\ Sign (rev_rate q') = Sign (rev_rate q)
  /\ (0 < Sign (rev_rate q) -> (rev_rate q * rev_rate q' == 1)%Q).

Definition invert (q : fxRevision) : fxRevision :=
  if 0 <? Sign (rev_rate q) then with_rate q (/ rev_rate q)%Q else q.

Lemma mate_invert q : mate q (invert q).
Proof.
  unfold mate, invert. destruct (Z.ltb_spec 0 (Sign (rev_rate q))).
  - cbn. rewrite Sign_inv. split; [by destruct q|]. split; [done|].
    intros _. by apply Qmult_inv_r, Sign_pos_nonzero.
  - split; [by destruct q|]. split; [done|]. lia.
Qed.

Lemma mate_sym q q' : mate q q' -> mate q' q.
Proof.
  intros (Hk & Hs & Hr). split; [by rewrite <- Hk; destruct q'|]. split; [done|].
  rewrite Hs. intros Hp. rewrite Qmult_comm. by apply Hr.
Qed.

Lemma mate_fresher a b a' b' : mate a a' -> mate b b' -> fresher a b = fresher a' b'.
Proof. intros [Ha _] [Hb _]. rewrite <- Ha, <- Hb. reflexivity. Qed.

Lemma pair_false (P Q : Prop) `{Decision P, Decision Q} :
  ~ (P /\ Q) -> bool_decide P && bool_decide Q = false.
Proof. intros. rewrite <- bool_decide_and. by apply bool_decide_false. Qed.

Lemma direct_quotes_mate source target quotes :
  source <> target ->
  Forall2 mate (direct_quotes source target quotes) (direct_quotes target source quotes).
Proof.
  intros Hne. induction quotes as [|q quotes IH]; [constructor|]. cbn [direct_quotes].
  fold (invert q).
  destruct (decide (rev_base q = source /\ rev_quote q = target)) as [[H1 H2]|H1].
  - rewrite H1, H2, (bool_decide_true (source = source)), (bool_decide_true (target = target)),
      (bool_decide_false (source = target)) by done.
    cbn [andb]. constructor; [apply mate_invert|done].
  - destruct (decide (rev_base q = target /\ rev_quote q = source)) as [[H2 H3]|H2].
    + rewrite H2, H3, (bool_decide_true (source = source)), (bool_decide_true (target = target)),
      (bool_decide_false (target = source)) by done.
      cbn [andb]. constructor; [apply mate_sym, mate_invert|done].
    + assert (Hx : bool_decide (rev_base q = source) && bool_decide (rev_quote q = target) = false)
        by by apply pair_false.
      assert (Hy : bool_decide (rev_base q = target) && bool_decide (rev_quote q = source) = false)
        by by apply pair_false.
      by rewrite Hx, Hy.
Qed.

Lemma direct_quotes_unit source target quotes q :
  q ∈ direct_quotes source target quotes ->
  (rev_base q = source /\ rev_quote q = target) \/ (rev_base q = target /\ rev_quote q = source).
Proof.
  induction quotes as [|x quotes IH]; cbn [direct_quotes]; [by intros ?%elem_of_nil|].
  fold (invert x).
  assert (Hk : rev_base (invert x) = rev_base x /\ rev_quote (invert x) = rev_quote x).
  { unfold invert. by case_match. }
  destruct Hk as [Hk1 Hk2].
  repeat case_match; bool_simp; rewrite ?elem_of_cons; try done; intros [->|Hq]; auto.
  rewrite Hk1, Hk2. by right.
Qed.

Definition mate_quote (a b : option (fxRevision * string)) : Prop :=
  match a, b with
  | None, None => True
  | Some (q, d), Some (q', d') =>
      mate q q' /\ d' = flip d /\ d = flip d' /\ 0 < Sign (rev_rate q)
  | _, _ => False
  end.

Lemma bridgeQuote_mate source target quotes :
  source <> target ->
  mate_quote (bridgeQuote source target quotes) (bridgeQuote target source quotes).
Proof.
  intros Hne. induction quotes as [|q quotes IH]; [done|]. cbn [bridgeQuote].
  assert (Hinv : 0 < Sign (rev_rate q) -> mate q (with_rate q (/ rev_rate q)%Q)).
  { intros H. pose proof (mate_invert q) as Hm. unfold invert in Hm.
    by rewrite (proj2 (Z.ltb_lt _ _) H) in Hm. }
  destruct (decide (rev_base q = source /\ rev_quote q = target)) as [[H1 H2]|H1].
  - rewrite H1, H2, (bool_decide_true (source = source)), (bool_decide_true (target = target)),
      (bool_decide_false (source = target)) by done.
    cbn [andb]. destruct (Z.leb_spec (Sign (rev_rate q)) 0); [done|]. cbn. auto.
  - destruct (decide (rev_base q = target /\ rev_quote q = source)) as [[H2 H3]|H2].
    + rewrite H2, H3, (bool_decide_true (source = source)), (bool_decide_true (target = target)),
      (bool_decide_false (target = source)) by done.
      cbn [andb]. destruct (Z.leb_spec (Sign (rev_rate q)) 0); [done|]. cbn.
      rewrite Sign_inv. split; [by apply mate_sym, Hinv|]. auto.
    + assert (Hx : bool_decide (rev_base q = source) && bool_decide (rev_quote q = target) = false)
        by by apply pair_false.
      assert (Hy : bool_decide (rev_base q = target) && bool_decide (rev_quote q = source) = false)
        by by apply pair_false.
      by rewrite Hx, Hy.
Qed.

(** Conversion is reversible: when a path is found from one currency to
    another, the same call with the currencies exchanged finds the path through
    the same quote revisions in the opposite order, each read the other way, and
    the two rates, which are positive, multiply to one. *)
Theorem path_reversible parseISO source target quotes p :
  pathFor parseISO source target quotes = Ok p ->
  exists p', pathFor parseISO target source quotes = Ok p' /\
    path_edges p' = reverse (flip_edge <$> path_edges p) /\
    (0 < path_rate p)%Q /\ (path_rate p * path_rate p' == 1)%Q.
Proof.
  unfold pathFor. rewrite (orb_comm (negb (isFiatCode _ target))).
  destruct (negb (isFiatCode parseISO source) || negb (isFiatCode parseISO target)); [done|].
  destruct (decide (source = target)) as [->|Hne].
  { rewrite bool_decide_true by done. intros [= <-]. exists identity_path. done. }
  rewrite (bool_decide_false (source = target)), (bool_decide_false (target = source)) by done.
  pose proof (insertion_sort_Forall2 fresher fresher mate mate_fresher _ _
                (direct_quotes_mate _ _ quotes Hne)) as Hd.
  destruct (insertion_sort fresher (direct_quotes source target quotes)) as [|q l] eqn:El;
    inversion Hd as [|? q' ? l' Hq Hl]; subst.
  - rewrite (orb_comm (bool_decide (target = "USD"))).
    destruct (bool_decide (source = "USD") || bool_decide (target = "USD")) eqn:Eu; [done|].
    bool_simp.
    pose proof (bridgeQuote_mate source "USD" quotes ltac:(done)) as Hb1.
    pose proof (bridgeQuote_mate "USD" target quotes ltac:(done)) as Hb2.
    destruct (bridgeQuote source "USD" quotes) as [[a da]|]; [|done].
    destruct (bridgeQuote "USD" target quotes) as [[b db]|]; [|done].
    destruct (bridgeQuote "USD" source quotes) as [[a' da']|]; [|done].
    destruct (bridgeQuote target "USD" quotes) as [[b' db']|]; [|done].
    destruct Hb1 as ((Ha & _ & Ha1) & -> & _ & Hpa), Hb2 as ((Hb & _ & Hb1) & -> & _ & Hpb).
    intros [= <-]. eexists. split; [reflexivity|]. cbn.
    specialize (Ha1 Hpa). specialize (Hb1 Hpb).
    assert (Hia : rev_id a' = rev_id a) by (by rewrite <- Ha).
    assert (Hib : rev_id b' = rev_id b) by (by rewrite <- Hb).
    rewrite Hia, Hib. split; [reflexivity|].
    unfold Sign in *. split.
    + apply Qmult_lt_0_compat; unfold Qlt; cbn; lia.
    + transitivity ((rev_rate a * rev_rate a') * (rev_rate b * rev_rate b'))%Q; [ring|].
      rewrite Ha1, Hb1. reflexivity.
  - destruct Hq as (Hk & Hs & Hr). rewrite Hs.
    destruct (Z.leb_spec (Sign (rev_rate q)) 0); [done|]. intros [= <-]. eexists.
    split; [done|]. cbn. specialize (Hr ltac:(lia)).
    assert (Hin : q ∈ direct_quotes source target quotes).
    { rewrite <- (insertion_sort_elem fresher), El. constructor. }
    apply direct_quotes_unit in Hin. split; [|split; [|done]].
    + rewrite <- Hk in *. cbn in *. unfold flip_edge. cbn. do 2 f_equal.
      destruct Hin as [[-> _]|[-> _]].
      * by rewrite (bool_decide_false (source = target)), !bool_decide_true by done.
      * by rewrite (bool_decide_false (target = source)), !bool_decide_true by done.
    + unfold Sign in *. unfold Qlt. cbn. lia.
Qed.

Definition demo_quote (id base quote : string) (rate : Q) : fxRevision :=
  mkFXRevision id base quote "raw" 0 rate None 0.

Lemma path_reversible_witness :
  exists p', pathFor (fun _ => true) "TRY" "EUR"
               [demo_quote "a" "EUR" "USD" (11 # 10); demo_quote "b" "TRY" "USD" (1 # 40)] = Ok p' /\
    path_edges p' = reverse (flip_edge <$> [mkFXPathEntry "a" "forward"; mkFXPathEntry "b" "reverse"]) /\
    (0 < (11 # 10) * / (1 # 40))%Q /\ ((11 # 10) * / (1 # 40) * path_rate p' == 1)%Q.
Proof.
  apply (path_reversible (fun _ => true) "EUR" "TRY"
    [demo_quote "a" "EUR" "USD" (11 # 10); demo_quote "b" "TRY" "USD" (1 # 40)]
    (mkPath ((11 # 10) * / (1 # 40))%Q [mkFXPathEntry "a" "forward"; mkFXPathEntry "b" "reverse"])).
  vm_compute. reflexivity.
Defined.

(** ** Loading *)

Lemma parseDecimal_out z : parseDecimal (numeric_out z) = Ok (z # Z.to_pos scale18).
Proof. unfold parseDecimal, numeric_out. by rewrite parse_fixed18. Qed.

(** Stored instants are whole microseconds. *)
Definition whole (t : time) : Prop := t mod 1000 = 0.

Lemma whole_le t u : whole t -> t <= u -> t <= pg_time u.
Proof.
  unfold whole, pg_time. intros Ht Hu. pose proof (Z.div_mod t 1000 ltac:(lia)).
  assert (t / 1000 <= u / 1000) by (apply Z.div_le_mono; lia). lia.
Qed.

(** What the scanning loop keeps: the revision of a row that passes the test. *)
Definition eligible_price (request : Request) (r : PriceRow) : bool :=
  eligibleRevision (pr_observation r) (pr_source_known r) (pr_system_known r)
    (KnowledgeMode request) (Cutoff request) (KnownAt request) (PriceMaxAgeSeconds request).

Definition price_of (kv : string * PriceRow) : priceRevision :=
  mkPriceRevision (fst kv) (pr_quote (snd kv)) (pr_raw (snd kv)) (pr_observation (snd kv))
    (pr_price (snd kv) # Z.to_pos scale18) (pr_source_known (snd kv)) (pr_system_known (snd kv)).

Lemma scan_prices_spec request rows seen :
  exists kept, scan_prices request seen rows = Ok (price_of <$> kept) /\
    Forall (fun kv => kv ∈ rows /\ eligible_price request (snd kv) = true) kept.
Proof.
  revert seen; induction rows as [|[id r] rows IH]; intros seen; cbn [scan_prices].
  - exists []. done.
  - fold (eligible_price request r).
    assert (Hskip : forall kept, Forall (fun kv => kv ∈ rows /\ eligible_price request (snd kv) = true) kept ->
      Forall (fun kv => kv ∈ (id, r) :: rows /\ eligible_price request (snd kv) = true) kept).
    { intros kept Hk. eapply Forall_impl; [exact Hk|]. intros kv [Hin He]. split; [by constructor|done]. }
    destruct (eligible_price request r) eqn:He; cbn [negb]; [case_match|].
    + destruct (IH seen) as (kept & -> & Hk). exists kept. auto.
    + destruct (IH ({[pr_quote r]} ∪ seen)) as (kept & Hs & Hk).
      rewrite parseDecimal_out. cbn [res_bind]. rewrite Hs. cbn [res_bind].
      exists ((id, r) :: kept). split; [done|]. constructor; [|by apply Hskip].
      split; [constructor|done].
    + destruct (IH seen) as (kept & -> & Hk). exists kept. auto.
Qed.

(** With nothing seen yet, the first eligible row is kept first. *)
Lemma scan_prices_head request rows ps :
  scan_prices request ∅ rows = Ok ps ->
  match ps with
  | [] => Forall (fun kv => eligible_price request (snd kv) = false) rows
  | p :: _ => exists pre kv post, rows = pre ++ kv :: post /\ p = price_of kv /\
      eligible_price request (snd kv) = true /\
      Forall (fun kv => eligible_price request (snd kv) = false) pre
  end.
Proof.
  induction rows as [|[id r] rows IH]; cbn [scan_prices]; [by intros [= <-]|].
  fold (eligible_price request r). destruct (eligible_price request r) eqn:He; cbn [negb].
  - rewrite bool_decide_false by set_solver. rewrite parseDecimal_out. cbn [res_bind].
    destruct (scan_prices_spec request rows ({[pr_quote r]} ∪ ∅)) as (kept & -> & _).
    cbn [res_bind]. intros [= <-]. exists [], (id, r), rows. done.
  - intros Hs. specialize (IH Hs). destruct ps as [|p ps].
    + by constructor.
    + destruct IH as (pre & kv & post & -> & Hp & Hk & Hpre).
      exists ((id, r) :: pre), kv, post. repeat split; [done..|]. by constructor.
Qed.

Instance price_order_preordered request : Preordered (price_order request).
Proof. unfold price_order. case_match; apply _. Qed.

Lemma eligible_price_row request r :
  0 <= PriceMaxAgeSeconds request <= maxAgeSeconds ->
  whole (pr_observation r) -> whole (pr_system_known r) ->
  (forall t, pr_source_known r = Some t -> whole t) ->
  eligible_price request r = true ->
  eligible_row request (PriceMaxAgeSeconds request) (pr_observation r) (pr_source_known r)
    (pr_system_known r) = true.
Proof.
  intros Hage Ho Hs Hk He. apply eligible_exact in He as [Hc Hknown]; [|done].
  unfold eligible_row. rewrite !andb_true_iff, !Z.leb_le.
  pose proof (pg_time_le (Cutoff request)). split.
  - split; [apply whole_le; [done|lia]|lia].
  - unfold known in Hknown. destruct (bool_decide _).
    + destruct Hknown as (t & Ht & Hle). rewrite Ht. apply Z.leb_le.
      apply whole_le; [by apply Hk|done].
    + apply Z.leb_le. by apply whole_le.
Qed.

(** Price selection is optimal.  Loading the prices of an instrument never
    fails on a stored price; the price chosen is an eligible revision of the
    instrument that no eligible revision of it precedes in (observation time,
    knowledge time, identifier) order, and no price is chosen exactly when the
    instrument has no eligible revision, whatever the quote units. *)
Theorem price_newest uuid_text request instrument iid s :
  uuid_text instrument = Some iid ->
  0 <= PriceMaxAgeSeconds request <= maxAgeSeconds ->
  (forall id r, prices s !! id = Some r -> whole (pr_observation r) /\ whole (pr_system_known r) /\
     (forall t, pr_source_known r = Some t -> whole t)) ->
  exists ps, loadPrices uuid_text instrument request s = Ok ps /\
  match selectPrice ps with
  | Some p => exists r, prices s !! price_id p = Some r /\ pr_instrument r = iid /\
      p = price_of (price_id p, r) /\ eligible_price request r = true /\
      forall id' r', prices s !! id' = Some r' -> pr_instrument r' = iid ->
        eligible_price request r' = true ->
        before (price_order request) (id', r') (price_id p, r) = false
  | None => forall id r, prices s !! id = Some r -> pr_instrument r = iid ->
      eligible_price request r = false
  end.
Proof.
  intros Hid Hage Hwhole. unfold loadPrices. rewrite Hid.
  set (rows := select _ _ _).
  assert (Hrow : forall id r, prices s !! id = Some r -> pr_instrument r = iid ->
            eligible_price request r = true -> (id, r) ∈ rows).
  { intros id r Hr Hi He. apply select_elem. split; [done|].
    destruct (Hwhole _ _ Hr) as (H1 & H2 & H3).
    rewrite bool_decide_true by done. by apply eligible_price_row. }
  destruct (scan_prices_spec request rows ∅) as (kept & Hs & _). rewrite Hs.
  eexists. split; [done|]. apply scan_prices_head in Hs.
  destruct (price_of <$> kept) as [|p ps]; cbn [selectPrice head].
  - intros id r Hr Hi. destruct (eligible_price request r) eqn:He; [|done].
    rewrite Forall_forall in Hs. specialize (Hs _ (Hrow _ _ Hr Hi He)). cbn in Hs. congruence.
  - destruct Hs as (pre & [id r] & post & Hrows & -> & He & Hpre). cbn [price_of price_id fst snd] in *.
    assert (Hin : (id, r) ∈ rows) by (rewrite Hrows, elem_of_app, elem_of_cons; auto).
    apply select_elem in Hin as [Hr Hc]. apply andb_prop in Hc as [Hc _]. bool_simp.
    exists r. split; [done|]. split; [done|]. split; [done|]. split; [done|].
    intros id' r' Hr' Hi' He'. specialize (Hrow _ _ Hr' Hi' He').
    rewrite Hrows, elem_of_app, elem_of_cons in Hrow.
    destruct Hrow as [Hpre'|[[= -> ->]|Hpost]].
    + rewrite Forall_forall in Hpre. specialize (Hpre _ Hpre'). cbn in Hpre. congruence.
    + apply before_irrefl, _.
    + assert (Hsort : StronglySorted (below (before (price_order request))) rows).
      { apply insertion_sort_sorted; [apply before_le_trans|apply before_asym]; apply _. }
      rewrite Hrows in Hsort. apply StronglySorted_app_1_r in Hsort.
      inversion Hsort as [|? ? _ HF]; subst. rewrite Forall_forall in HF. by apply HF.
Qed.

(** Two prices of one instrument: the second is newer, but not known in time. *)
Definition demo_prices : gmap string PriceRow :=
  {[ "p1" := mkPriceRow "i" "TRY" 1000 (5 * scale18) None 2000 "raw";
     "p2" := mkPriceRow "i" "TRY" 3000 (6 * scale18) None 9000 "raw" ]}.
Definition demo_price_tables : tables :=
  mkTables ∅ ∅ ∅ ∅ ∅ demo_prices ∅ ∅ ∅ ∅ ∅ ∅.
Definition demo_request : Request := mkRequest "s" 5000 KnowledgeSystem 4000 60 60.

Lemma price_newest_witness :
  exists ps, loadPrices Some "i" demo_request demo_price_tables = Ok ps /\
  match selectPrice ps with
  | Some p => exists r, prices demo_price_tables !! price_id p = Some r /\ pr_instrument r = "i" /\
      p = price_of (price_id p, r) /\ eligible_price demo_request r = true /\
      forall id' r', prices demo_price_tables !! id' = Some r' -> pr_instrument r' = "i" ->
        eligible_price demo_request r' = true ->
        before (price_order demo_request) (id', r') (price_id p, r) = false
  | None => forall id r, prices demo_price_tables !! id = Some r -> pr_instrument r = "i" ->
      eligible_price demo_request r = false
  end.
Proof.
  apply (price_newest Some demo_request "i" "i" demo_price_tables).
  - reflexivity.
  - vm_compute. split; congruence.
  - intros id r. change (prices demo_price_tables) with demo_prices. unfold demo_prices.
    rewrite lookup_insert_Some, lookup_singleton_Some.
    intros [[_ <-]|[_ [_ <-]]]; unfold whole; cbn; done.
Defined.

Example demo_price_selected :
  (price_id <$> match loadPrices Some "i" demo_request demo_price_tables with
                | Ok ps => selectPrice ps | Err _ => None end) = Some "p1"%string.
Proof. vm_compute. reflexivity. Qed.
