(* ===== verification/ValuationProofs.v ===== *)
(** [Valuation.Create] end to end: what a successful call persists and returns,
    and what a failed one leaves behind. *)

From S2P Require Import Prelude GoString Digits GoTime Sha256 Json Db Decimal Order Tables.
From S2P Require Import Valuation ValuationPaths.
From Stdlib Require Import Ascii SpecFloat QArith Lqa.
#[local] Open Scope Z_scope.
Import Valuation.

(** ** The loop *)

Section lines.
Context (parseISO : string -> bool).

(** The line the loop appends for a snapshot line and its price, if any. *)
Definition priced_line (fx : list fxRevision) (line : snapshotLine) (price : option priceRevision)
    : Line :=
  let value method p amount quote :=
    let t := convert parseISO amount quote "TRY" fx in
    let u := convert parseISO amount quote "USD" fx in
    let reasons := target_reasons "TRY" t ++ target_reasons "USD" u in
    mkLine "" (line_id line) (line_instrument line) (line_native line)
      (Some (formatDecimal amount)) (target_amount t) (target_amount u)
      (if bool_decide (reasons = []) then StateValid else StateBlocked) reasons method
      (price_id <$> p) (price_quote <$> p) (target_path t) (target_path u) in
  if is_cash line then value "identity" None (line_quantity line) (line_native line)
  else match price with
       | Some p => value "revision" (Some p) (line_quantity line * price_value p)%Q (price_quote p)
       | None => blocked_line line
       end.

Definition has_reasons (l : Line) : bool := negb (bool_decide (ReasonCodes l = [])).

Lemma add_rounded_amount total r : add_rounded total r = add_amount total (target_amount r).
Proof.
  destruct r as [[q p]|e]; [|done]. cbn. unfold parseDecimal, formatDecimal.
  by rewrite parse_fixed18, roundedDecimal_eq.
Qed.

Lemma value_line_eq fx line price st :
  value_line parseISO fx line price st =
    let l := priced_line fx line price in
    mkLoop (ls_prices st) (ls_results st ++ [l]) (add_amount (ls_try st) (TryAmount l))
      (add_amount (ls_usd st) (USDAmount l)) (ls_blocked st || has_reasons l).
Proof.
  unfold value_line, priced_line, has_reasons.
  destruct (is_cash line); [|destruct price]; cbn; rewrite <- ?add_rounded_amount, ?orb_true_r;
    try (by case_bool_decide); done.
Qed.
End lines.

Section loop.
Context (uuid_text : string -> option string) (parseISO : string -> bool).

(** What the loop computes for one line from the stored revisions. *)
Definition line_spec (s : tables) (request : Request) (fx : list fxRevision)
    (line : snapshotLine) (result : Line) : Prop :=
  exists price, result = priced_line parseISO fx line price /\
    (is_cash line = true \/
     exists ps, loadPrices uuid_text (line_instrument line) request s = Ok ps /\
                price = selectPrice ps).

Definition cache_ok (s : tables) (request : Request) (st : loopState) : Prop :=
  forall i ps, ls_prices st !! i = Some ps -> loadPrices uuid_text i request s = Ok ps.

Definition sum_try (ls : list Line) (q : Q) : Q := fold_left (fun t l => add_amount t (TryAmount l)) ls q.
Definition sum_usd (ls : list Line) (q : Q) : Q := fold_left (fun t l => add_amount t (USDAmount l)) ls q.

Definition loop_spec (s : tables) (request : Request) (fx : list fxRevision)
    (lines : list snapshotLine) (st st' : loopState) : Prop :=
  exists results, Forall2 (line_spec s request fx) lines results /\
    ls_results st' = ls_results st ++ results /\
    ls_try st' = sum_try results (ls_try st) /\ ls_usd st' = sum_usd results (ls_usd st) /\
    ls_blocked st' = ls_blocked st || existsb has_reasons results.

Lemma cached_prices_wp request line st s w fs (Q : res loopState -> db tables -> Prop) :
  cache_ok s request st ->
  (forall e w' fs', Q (Err e) (Db s w' fs')) ->
  (forall st' w' fs', cache_ok s request st' -> ls_results st' = ls_results st ->
     ls_try st' = ls_try st -> ls_usd st' = ls_usd st -> ls_blocked st' = ls_blocked st ->
     (is_cash line = true \/
      exists ps, ls_prices st' !! line_instrument line = Some ps) ->
     Q (Ok st') (Db s w' fs')) ->
  wp (cached_prices uuid_text request line st) Q (Db s w fs).
Proof.
  intros Hc He Hok. unfold cached_prices, pool_query. case_match eqn:E.
  - repeat wp_step; [by apply He| |].
    + injection E0 as Hl <-. apply Hok; try done.
      * intros i ps. cbn. rewrite lookup_insert_Some. intros [[<- <-]|[_ Hi]]; [done|by apply Hc].
      * right. exists a. cbn. by rewrite lookup_insert_eq.
    + injection E0 as Hl <-. apply He.
  - wp_step. apply Hok; try done. apply andb_false_iff in E as [E|E]; bool_simp.
    + right. destruct (ls_prices st !! line_instrument line) eqn:El; [eauto|done].
    + by left.
Qed.

Lemma value_all_wp request fx lines s Q : forall st w fs,
  cache_ok s request st ->
  (forall e w' fs', Q (Err e) (Db s w' fs')) ->
  (forall st' w' fs', loop_spec s request fx lines st st' -> Q (Ok st') (Db s w' fs')) ->
  wp (value_all uuid_text parseISO request fx lines st) Q (Db s w fs).
Proof.
  induction lines as [|line lines IH]; intros st w fs Hc He Hok; cbn [value_all].
  - wp_step. apply Hok. exists []. cbn. rewrite app_nil_r, orb_false_r. auto.
  - wp_step. apply cached_prices_wp; [done|done|].
    intros st1 w1 fs1 Hc1 Hr1 Ht1 Hu1 Hb1 Hp1. rewrite value_line_eq. cbn zeta.
    set (l := priced_line _ _ _ _).
    apply IH; [by apply Hc1|done|]. cbn [ls_results ls_try ls_usd ls_blocked ls_prices].
    intros st2 w2 fs2 (results & Hf & Hr2 & Ht2 & Hu2 & Hb2). apply Hok.
    exists (l :: results). rewrite Hr2, Ht2, Hu2, Hb2, <- Hr1, <- Ht1, <- Hu1, <- Hb1.
    cbn [existsb ls_results ls_try ls_usd ls_blocked]. rewrite <- app_assoc, orb_assoc.
    repeat split; try done. constructor; [|done].
    exists (selectPrice (default [] (ls_prices st1 !! line_instrument line))). split; [done|].
    destruct Hp1 as [Hp1|[ps Hp1]]; [by left|]. right. exists ps. split; [by apply Hc1|].
    by rewrite Hp1.
Qed.
End loop.

(** ** Persisting *)

Definition of_run (rid : string) (kv : string * ValuationLineRow) : bool :=
  bool_decide (vl_run (snd kv) = rid).

Section persist.
Context (scan_uuid uuid_text : string -> option string) (format_float : spec_float -> string).

Definition row_for (rid : string) (il : string * Line) (kr : string * ValuationLineRow) : Prop :=
  fst kr = fst il /\ exists tr ud,
    pathArrays scan_uuid (TryFXPath (snd il)) = Ok tr /\
    pathArrays scan_uuid (USDFXPath (snd il)) = Ok ud /\
    line_row uuid_text rid (fst tr) (snd tr) (fst ud) (snd ud) (snd il) = Some (snd kr).

(** The lines of run [rid] in [w] are the rows of [ils], the rest is [s1]. *)
Definition lines_added (rid : string) (s1 : tables) (ils : list (string * Line)) (w : tables) : Prop :=
  w = set_valuation_lines s1 (valuation_lines w) /\
  (exists rows, Forall2 (row_for rid) ils rows /\
     List.filter (of_run rid) (map_to_list (valuation_lines w)) ≡ₚ rows) /\
  (forall id, valuation_lines w !! id = valuation_lines s1 !! id \/
     valuation_lines s1 !! id = None /\ exists il, il ∈ ils /\ fst il = id).

Lemma filter_Permutation {A} (p : A -> bool) l l' :
  l ≡ₚ l' -> List.filter p l ≡ₚ List.filter p l'.
Proof.
  induction 1 as [|x l l' Hl IH|x y l|l1 l2 l3 _ IH1 _ IH2]; cbn; [done| | |by etransitivity].
  - case_match; [by constructor|done].
  - repeat case_match; try done. constructor.
Qed.

Lemma line_row_inv rid ti td ui ud l r :
  line_row uuid_text rid ti td ui ud l = Some r ->
  exists rid' sl native try_amount usd price,
    uuid_text rid = Some rid' /\ uuid_text (SnapshotLineID l) = Some sl /\
    nullable numeric_in (NativeAmount l) = Some native /\
    nullable numeric_in (TryAmount l) = Some try_amount /\
    nullable numeric_in (USDAmount l) = Some usd /\
    nullable uuid_text (PriceRevisionID l) = Some price /\
    r = mkValuationLine rid' sl (NativeCurrency l) native try_amount usd (LineState l)
          (ReasonCodes l) (PriceMethod l) price (PriceQuoteUnit l) ti td ui ud.
Proof.
  unfold line_row. intros H. repeat (apply bind_Some in H as (? & ? & H)).
  injection H as <-. eauto 20.
Qed.

Lemma insert_line_added rid s1 ils il w w' :
  uuid_text rid = Some rid ->
  lines_added rid s1 ils w ->
  forall tr ud, pathArrays scan_uuid (TryFXPath (snd il)) = Ok tr ->
  pathArrays scan_uuid (USDFXPath (snd il)) = Ok ud ->
  insert_line uuid_text (fst il) rid (fst tr) (snd tr) (fst ud) (snd ud) (snd il) w = (Ok tt, w') ->
  lines_added rid s1 (ils ++ [il]) w'.
Proof.
  intros Hrid (Hw & (rows & Hrows & Hperm) & Hold) tr ud Ht Hu. unfold insert_line.
  destruct (line_row _ _ _ _ _ _ _) as [r|] eqn:Er; [|done].
  case_match eqn:E; [|done]. intros [= <-]. bool_simp. rename H0 into Hnew.
  assert (Hrun : vl_run r = rid).
  { apply line_row_inv in Er as (? & ? & ? & ? & ? & ? & ? & ? & _ & _ & _ & _ & ->).
    cbn. congruence. }
  split; [by rewrite Hw|]. split.
  - exists (rows ++ [(fst il, r)]). split.
    + apply Forall2_app; [done|]. constructor; [|constructor]. split; [done|]. exists tr, ud. done.
    + cbn [valuation_lines set_valuation_lines]. rewrite filter_Permutation by (by apply map_to_list_insert).
      cbn [List.filter]. unfold of_run at 1. cbn [snd]. rewrite bool_decide_true by done.
      rewrite Hperm. by rewrite Permutation_app_comm.
  - intros id. cbn [valuation_lines set_valuation_lines]. destruct (decide (fst il = id)) as [<-|Hne].
    + right. destruct (Hold (fst il)) as [Ho|(Ho & _)].
      * rewrite <- Ho. split; [done|]. exists il. split; [set_solver|done].
      * split; [done|]. exists il. split; [set_solver|done].
    + rewrite lookup_insert_ne by done. destruct (Hold id) as [Ho|(Ho & il' & Hil & Heq)]; [by left|].
      right. split; [done|]. exists il'. split; [set_solver|done].
Qed.

(** What a committed valuation adds. *)
Definition persisted (rid : string) (now : time) (gen : nat -> string) (request : Request) (run : Run)
    (lines : list Line) (s s' : tables) : Prop :=
  exists s1, insert_run uuid_text format_float rid now request run s = (Ok (rid, now), s1) /\
    lines_added rid s1 (zip_with pair (gen <$> seq 1 (length lines)) lines) s'.

Lemma insert_run_inv rid now request run s a s1 :
  insert_run uuid_text format_float rid now request run s = (Ok a, s1) ->
  a = (rid, now) /\ exists sid json,
    uuid_text (SnapshotID request) = Some sid /\ request_json format_float request = Some json /\
    is_Some (snapshots s !! sid) /\ valuation_runs s !! rid = None /\
    s1 = set_valuation_runs s (<[rid :=
      mkValuationRun sid (pg_time (Cutoff request)) (KnowledgeMode request)
        (pg_time (KnownAt request)) (PriceMaxAgeSeconds request) (FXMaxAgeSeconds request)
        json (RunState run) (ResultHash run) now]> (valuation_runs s)).
Proof.
  unfold insert_run. destruct (uuid_text (SnapshotID request)) as [sid|]; [|done].
  destruct (request_json format_float request) as [json|]; [|done].
  case_match eqn:E; [|done]. intros [= <- <-]. bool_simp. split; [done|].
  exists sid, json. done.
Qed.

Lemma persist_wp gen now request run lines s w fs (Q : res (string * time) -> db tables -> Prop) :
  uuid_text (gen 0%nat) = Some (gen 0%nat) ->
  (forall id l, valuation_lines s !! id = Some l -> is_Some (valuation_runs s !! vl_run l)) ->
  (forall e w' fs', Q (Err e) (Db s w' fs')) ->
  (forall s' fs', persisted (gen 0%nat) now gen request run lines s s' ->
     Q (Ok (gen 0%nat, now)) (Db s' s' fs')) ->
  wp (persist scan_uuid uuid_text format_float gen now request run lines) Q (Db s w fs).
Proof.
  intros Hrid Hfk He Hok. unfold persist. do 3 wp_step; [apply He|].
  do 3 wp_step; [apply He| |apply He].
  apply insert_run_inv in E as Hrun. destruct Hrun as [-> (sid & json & Hsid & Hj & Hsn & Hnone & Hs1)].
  wp_step. apply (wp_iter _ (lines_added (gen 0%nat) w0) s _ _ []).
  - split; [by destruct w0|]. split; [|by intros; left]. exists []. split; [constructor|].
    assert (Hf : List.filter (of_run (gen 0%nat)) (map_to_list (valuation_lines w0)) = []); [|by rewrite Hf].
    rewrite Hs1. cbn [valuation_lines set_valuation_runs].
    destruct (List.filter _ _) as [|[k r] l] eqn:Ef; [done|].
    assert (Hin : In (k, r) ((k, r) :: l)) by by left. rewrite <- Ef, filter_In in Hin.
    destruct Hin as [Hin Hr]. unfold of_run in Hr. bool_simp.
    apply list_elem_of_In, elem_of_map_to_list in Hin. apply Hfk in Hin as [x Hx].
    cbn in *. congruence.
  - intros. apply He.
  - intros ils il w' fs' HI. unfold persist_line.
    do 2 wp_step. destruct (pathArrays scan_uuid (TryFXPath il.2)) as [tr|] eqn:Et; [|eauto].
    do 2 wp_step. destruct (pathArrays scan_uuid (USDFXPath il.2)) as [ud|] eqn:Eu; [|eauto].
    do 2 wp_step; eauto. destruct a. eexists _, _. split; [done|].
    by eapply insert_line_added.
  - intros w' fs' HI. do 3 wp_step; [apply He|]. wp_step. apply Hok. exists w0. split; [done|].
    exact HI.
Qed.
End persist.

(** ** Where the values come from *)

Lemma res_mapM_Forall2 {A B} (f : A -> res B) l k :
  res_mapM f l = Ok k -> Forall2 (fun x y => f x = Ok y) l k.
Proof.
  revert k; induction l as [|x l IH]; intros k; cbn; [by intros [= <-]|].
  destruct (f x) as [y|] eqn:E; [|done]. cbn. destruct (res_mapM f l) as [ys|] eqn:El; [|done].
  cbn. intros [= <-]. constructor; [done|by apply IH].
Qed.

Lemma loadSnapshot_lines uuid_text id s lines reporting :
  loadSnapshot uuid_text id s = Ok (lines, reporting) ->
  exists sid, uuid_text id = Some sid /\
  Forall (fun l => exists r, snapshot_lines s !! line_id l = Some r /\ sl_snapshot r = sid /\
            sl_instrument r = line_instrument l) lines.
Proof.
  unfold loadSnapshot. destruct (uuid_text id) as [sid|]; [|done].
  set (rows := select _ _ _). destruct (res_mapM (to_snapshotLine s) rows) as [ls|] eqn:E; [|done].
  cbn [res_bind]. case_bool_decide; [done|]. intros [= <- _]. exists sid. split; [done|].
  apply res_mapM_Forall2 in E. rewrite Forall_forall. intros l Hl.
  apply list_elem_of_lookup in Hl as [i Hi].
  destruct (Forall2_lookup_r _ _ _ _ _ E Hi) as ([k r] & Hk & Hr).
  apply list_elem_of_lookup_2, select_elem in Hk as [Hk Hc]. bool_simp.
  unfold to_snapshotLine in Hr. cbn [fst snd] in Hr. case_match; [|done].
  rewrite parseDecimal_out in Hr. injection Hr as <-. exists r. done.
Qed.

Definition eligible_fx (request : Request) (r : FXRow) : bool :=
  eligibleRevision (fx_observation r) (fx_source_known r) (fx_system_known r)
    (KnowledgeMode request) (Cutoff request) (KnownAt request) (FXMaxAgeSeconds request).

Lemma scan_fx_elem request rows seen fx q :
  scan_fx request seen rows = Ok fx -> q ∈ fx ->
  exists r, (rev_id q, r) ∈ rows /\ eligible_fx request r = true.
Proof.
  revert seen fx; induction rows as [|[id r] rows IH]; intros seen fx; cbn [scan_fx].
  - intros [= <-] ?%elem_of_nil. done.
  - fold (eligible_fx request r). intros Hs Hq.
    destruct (eligible_fx request r) eqn:He; cbn [negb] in Hs.
    + case_match.
      * destruct (IH _ _ Hs Hq) as (r' & Hin & He'). exists r'. split; [by constructor|done].
      * rewrite parseDecimal_out in Hs. cbn [res_bind] in Hs.
        destruct (scan_fx request _ rows) as [items|] eqn:E; [|done]. cbn [res_bind] in Hs.
        injection Hs as <-. apply elem_of_cons in Hq as [->|Hq].
        -- exists r. split; [constructor|done].
        -- destruct (IH _ _ E Hq) as (r' & Hin & He'). exists r'. split; [by constructor|done].
    + destruct (IH _ _ Hs Hq) as (r' & Hin & He'). exists r'. split; [by constructor|done].
Qed.

(** Every quote loaded is an eligible stored revision. *)
Lemma loadFX_elem request s fx q :
  loadFX request s = Ok fx -> q ∈ fx ->
  exists r, fx_quotes s !! rev_id q = Some r /\ eligible_fx request r = true.
Proof.
  intros Hl Hq. destruct (scan_fx_elem _ _ _ _ _ Hl Hq) as (r & Hin & He).
  apply select_elem in Hin as [Hin _]. eauto.
Qed.

Lemma loadPrices_elem uuid_text instrument request s ps p :
  loadPrices uuid_text instrument request s = Ok ps -> p ∈ ps ->
  exists iid r, uuid_text instrument = Some iid /\ prices s !! price_id p = Some r /\
    pr_instrument r = iid /\ eligible_price request r = true.
Proof.
  unfold loadPrices. destruct (uuid_text instrument) as [iid|]; [|done].
  set (rows := select _ _ _).
  destruct (scan_prices_spec request rows ∅) as (kept & -> & Hk). intros [= <-] Hp.
  apply list_elem_of_fmap in Hp as ([id r] & -> & Hin). rewrite Forall_forall in Hk.
  destruct (Hk _ Hin) as [Hrow He]. apply select_elem in Hrow as [Hrow Hc]. bool_simp.
  exists iid, r. done.
Qed.

(** Every step of a path reads one of the loaded quotes. *)
Lemma bridge_elem source target quotes q d :
  bridgeQuote source target quotes = Some (q, d) -> exists q', q' ∈ quotes /\ rev_id q' = rev_id q.
Proof.
  induction quotes as [|x quotes IH]; cbn [bridgeQuote]; [done|].
  repeat case_match; try done; try (intros [= <- <-]; exists x; split; [constructor|done]).
  intros H'. destruct (IH H') as (q' & Hin & Hid). exists q'. split; [by constructor|done].
Qed.

Lemma direct_elem source target quotes q :
  q ∈ direct_quotes source target quotes -> exists q', q' ∈ quotes /\ rev_id q' = rev_id q.
Proof.
  induction quotes as [|x quotes IH]; cbn [direct_quotes]; [by intros ?%elem_of_nil|].
  assert (Hrec : q ∈ direct_quotes source target quotes ->
            exists q', q' ∈ x :: quotes /\ rev_id q' = rev_id q).
  { intros Hq. destruct (IH Hq) as (q' & Hin & Hid). exists q'. split; [by constructor|done]. }
  repeat case_match; rewrite ?elem_of_cons; try done;
    intros [->|Hq]; auto; exists x; (split; [constructor|done]).
Qed.

Lemma path_edges_elem parseISO source target quotes p e :
  pathFor parseISO source target quotes = Ok p -> e ∈ path_edges p ->
  exists q, q ∈ quotes /\ rev_id q = QuoteRevisionID e.
Proof.
  unfold pathFor. case_match; [done|]. case_match; [by intros [= <-] ?%elem_of_nil|].
  destruct (insertion_sort _ _) as [|q l] eqn:El.
  - case_match; [done|].
    destruct (bridgeQuote source "USD" quotes) as [[a da]|] eqn:Ea; [|done].
    destruct (bridgeQuote "USD" target quotes) as [[b db]|] eqn:Eb; [|done].
    intros [= <-]. cbn [path_edges]. rewrite !elem_of_cons.
    intros [->|[->|?%elem_of_nil]]; [by eapply bridge_elem|by eapply bridge_elem|done].
  - case_match; [done|]. intros [= <-]. cbn [path_edges]. intros ->%list_elem_of_singleton.
    cbn. apply (direct_elem source target). rewrite <- (insertion_sort_elem fresher), El. constructor.
Qed.

Lemma target_path_elem parseISO amount quote target quotes e :
  e ∈ target_path (convert parseISO amount quote target quotes) ->
  exists q, q ∈ quotes /\ rev_id q = QuoteRevisionID e.
Proof.
  unfold convert. destruct (pathFor parseISO quote target quotes) as [p|] eqn:E; cbn;
    [|by intros ?%elem_of_nil]. case_bool_decide; cbn; [by intros ?%elem_of_nil|].
  by eapply path_edges_elem.
Qed.

(** ** Results of the loop *)

Definition formatted (amount : option string) : Prop :=
  forall text, amount = Some text -> exists z, text = fixed18 z.

(** The stored revisions a line rests on. *)
Definition price_from (uuid_text : string -> option string) (s : tables) (request : Request) (l : Line) : Prop :=
  forall p, PriceRevisionID l = Some p ->
    exists iid r, uuid_text (InstrumentID l) = Some iid /\ prices s !! p = Some r /\
      pr_instrument r = iid /\ eligible_price request r = true.
Definition quotes_from (s : tables) (request : Request) (l : Line) : Prop :=
  forall e, e ∈ TryFXPath l ++ USDFXPath l ->
    exists r, fx_quotes s !! QuoteRevisionID e = Some r /\ eligible_fx request r = true.

Lemma target_amount_formatted r : formatted (target_amount r).
Proof. intros text. destruct r as [[q p]|]; [|done]. intros [= <-]. by eexists. Qed.

Lemma some_formatted q : formatted (Some (formatDecimal q)).
Proof. intros text [= <-]. by eexists. Qed.

Lemma none_formatted : formatted None.
Proof. done. Qed.

Lemma quotes_from_paths parseISO s request fx l amount quote :
  loadFX request s = Ok fx ->
  TryFXPath l = target_path (convert parseISO amount quote "TRY" fx) ->
  USDFXPath l = target_path (convert parseISO amount quote "USD" fx) ->
  quotes_from s request l.
Proof.
  intros Hfx Ht Hu e. rewrite Ht, Hu, elem_of_app.
  intros [He|He]; apply target_path_elem in He as (x & Hx & <-); by eapply loadFX_elem.
Qed.

Lemma quotes_from_none s request l :
  TryFXPath l = [] -> USDFXPath l = [] -> quotes_from s request l.
Proof. intros Ht Hu e. rewrite Ht, Hu. by intros ?%elem_of_nil. Qed.

Lemma price_from_none uuid_text s request l :
  PriceRevisionID l = None -> price_from uuid_text s request l.
Proof. intros Hp p. by rewrite Hp. Qed.

#[local] Hint Resolve some_formatted none_formatted target_amount_formatted : go.

Lemma line_spec_sources uuid_text parseISO s request fx line l :
  loadFX request s = Ok fx -> line_spec uuid_text parseISO s request fx line l ->
  SnapshotLineID l = line_id line /\ InstrumentID l = line_instrument line /\ LineID l = ""%string /\
  formatted (NativeAmount l) /\ formatted (TryAmount l) /\ formatted (USDAmount l) /\
  price_from uuid_text s request l /\ quotes_from s request l.
Proof.
  intros Hfx (price & -> & Hp). unfold priced_line.
  destruct (is_cash line) eqn:Ec; [|destruct price as [p|]]; cbn [blocked_line SnapshotLineID InstrumentID LineID
    NativeAmount TryAmount USDAmount]; split_and!; eauto with go.
  - by apply price_from_none.
  - by eapply quotes_from_paths.
  - intros x [= <-]. destruct Hp as [?|(ps & Hps & Hsel)]; [congruence|].
    eapply loadPrices_elem; [done|]. destruct ps; [done|]. injection Hsel as ->. constructor.
  - by eapply quotes_from_paths.
  - by apply price_from_none.
  - by apply quotes_from_none.
Qed.

(** ** Reading back *)

Definition with_id (id : string) (l : Line) : Line :=
  mkLine id (SnapshotLineID l) (InstrumentID l) (NativeCurrency l) (NativeAmount l) (TryAmount l)
    (USDAmount l) (LineState l) (ReasonCodes l) (PriceMethod l) (PriceRevisionID l)
    (PriceQuoteUnit l) (TryFXPath l) (USDFXPath l).

(** Identifiers the database stores read back as they are. *)
Record canonical (scan_uuid uuid_text : string -> option string) (s : tables) : Prop := {
  canon_lines id : is_Some (snapshot_lines s !! id) -> uuid_text id = Some id;
  canon_prices id : is_Some (prices s !! id) -> uuid_text id = Some id;
  canon_quotes id : is_Some (fx_quotes s !! id) -> scan_uuid id = Some id;
}.

Lemma nullable_formatted amount o :
  formatted amount -> nullable numeric_in amount = Some o -> numeric_out <$> o = amount.
Proof.
  intros Hf. destruct amount as [text|]; cbn; [|by intros [= <-]].
  destruct (Hf text eq_refl) as [z ->]. unfold numeric_in. rewrite parse_fixed18, round18_exact.
  destruct (numeric_fits z); [|done]. intros [= <-]. reflexivity.
Qed.

Lemma nullable_canonical cast v o :
  (forall x, v = Some x -> cast x = Some x) -> nullable cast v = Some o -> o = v.
Proof.
  intros Hc. destruct v as [x|]; cbn; [|by intros [= <-]]. rewrite Hc by done. by intros [= <-].
Qed.

Lemma pathArrays_roundtrip scan_uuid path a :
  (forall e, e ∈ path -> scan_uuid (QuoteRevisionID e) = Some (QuoteRevisionID e)) ->
  pathArrays scan_uuid path = Ok a -> fxPathFromArrays (fst a) (snd a) = path.
Proof.
  unfold pathArrays, fxPathFromArrays. intros Hc.
  destruct (res_mapM _ path) as [ids|] eqn:E; [|done]. cbn. intros [= <-]. cbn.
  revert ids E; induction path as [|e path IH]; intros ids; cbn; [by intros [= <-]|].
  rewrite Hc by constructor. cbn. destruct (res_mapM _ path) as [ids'|] eqn:E; [|done].
  cbn. intros [= <-]. cbn. f_equal; [by destruct e|]. apply IH; [|done].
  intros e' He'. apply Hc. by constructor.
Qed.

Lemma to_line_row scan_uuid uuid_text s s' request rid il kr :
  canonical scan_uuid uuid_text s -> snapshot_lines s' = snapshot_lines s ->
  (exists r, snapshot_lines s !! SnapshotLineID (snd il) = Some r /\
             sl_instrument r = InstrumentID (snd il)) ->
  formatted (NativeAmount (snd il)) -> formatted (TryAmount (snd il)) ->
  formatted (USDAmount (snd il)) ->
  price_from uuid_text s request (snd il) -> quotes_from s request (snd il) ->
  row_for scan_uuid uuid_text rid il kr ->
  to_line s' kr = Some (with_id (fst il) (snd il)).
Proof.
  intros Hcan Hsl (slr & Hslr & Hins) Hn Ht Hu Hp Hq (Hk & tr & ud & Htr & Hud & Hrow).
  apply line_row_inv in Hrow as (rid' & sl & n & t & u & p & _ & Hline & Hn' & Ht' & Hu' & Hp' & Hrow).
  rewrite (canon_lines _ _ _ Hcan) in Hline by eauto. injection Hline as <-.
  apply nullable_formatted in Hn', Ht', Hu'; try done.
  apply nullable_canonical in Hp'; [subst p|].
  2:{ intros x Hx. destruct (Hp x Hx) as (? & ? & _ & Hx' & _). eapply canon_prices; eauto. }
  assert (Hqc : forall e, e ∈ TryFXPath (snd il) ++ USDFXPath (snd il) ->
            scan_uuid (QuoteRevisionID e) = Some (QuoteRevisionID e)).
  { intros e He. destruct (Hq e He) as (? & Hx & _). eapply canon_quotes; eauto. }
  apply pathArrays_roundtrip in Htr; [|intros e He; apply Hqc; by apply elem_of_app; left].
  apply pathArrays_roundtrip in Hud; [|intros e He; apply Hqc; by apply elem_of_app; right].
  unfold to_line. rewrite Hrow. cbn [vl_snapshot_line]. rewrite Hsl, Hslr. cbn -[fxPathFromArrays].
  by rewrite Hn', Ht', Hu', Htr, Hud, Hins, Hk.
Qed.

Section get.
Context (uuid_text : string -> option string).

(** What reading a run returns. *)
Definition get_result (id : string) (s : tables) (r : Run) : Prop :=
  exists run lines, select_run uuid_text id s = Ok run /\ select_lines uuid_text id s = Ok lines /\
    r = mkRun (ID run) (RunSnapshotID run) (RunCutoff run) (RunKnowledgeMode run)
          (RunKnownAt run) (RunPriceMaxAgeSeconds run) (RunFXMaxAgeSeconds run)
          (RunState run) (ResultHash run) lines (sum_totals lines) (CreatedAt run).

Lemma get_wp id s w fs (Q : res Run -> db tables -> Prop) :
  (forall e w' fs', Q (Err e) (Db s w' fs')) ->
  (forall r w' fs', get_result id s r -> Q (Ok r) (Db s w' fs')) ->
  wp (get_ uuid_text id) Q (Db s w fs).
Proof.
  intros He Hok. unfold get_, pool_query. do 3 wp_step.
  - case_match; wp_step; apply He.
  - injection E as Hr <-. wp_step. wp_step; [apply He| |injection E as _ <-; apply He].
    injection E as Hl <-. wp_step. apply Hok. exists a, a0. done.
  - injection E as _ <-. case_match; wp_step; apply He.
Qed.
End get.

(** ** Create *)

Section create.
Context (scan_uuid uuid_text : string -> option string) (parseISO : string -> bool)
  (format_float : spec_float -> string).
Context (gen : nat -> string) (now : time) (request : Request).

Abbreviation create := (Create true scan_uuid uuid_text parseISO format_float gen now request).

(** The run a store determines: the snapshot lines and quotes loaded, and the
    state the loop ends in. *)
Definition determined (s : tables) (fx : list fxRevision) (lines : list snapshotLine)
    (st : loopState) : Prop :=
  (exists reporting, loadSnapshot uuid_text (SnapshotID request) s = Ok (lines, reporting)) /\
  loadFX request s = Ok fx /\
  loop_spec uuid_text parseISO s request fx lines empty_loop st.

Lemma create_inv fs s res s' :
  uuid_text (gen 0%nat) = Some (gen 0%nat) ->
  (forall id l, valuation_lines s !! id = Some l -> is_Some (valuation_runs s !! vl_run l)) ->
  run create fs s = (res, s') ->
  (is_ok res = false /\ s' = s) \/
  (validRequest scan_uuid request = true /\ exists fx lines st, determined s fx lines st /\
     persisted scan_uuid uuid_text format_float (gen 0%nat) now gen request
       (make_run format_float request st) (ls_results st) s s' /\
     forall r, res = Ok r -> get_result uuid_text (gen 0%nat) s' r).
Proof.
  intros Hgen Hfk Hrun. run_wp Hrun. unfold Create. cbn [negb orb].
  destruct (validRequest scan_uuid request) eqn:Hv; cbn [negb]; [|wp_step; by left].
  unfold pool_query. do 3 wp_step.
  - case_match; wp_step; by left.
  - injection E as Hsnap <-. do 3 wp_step; [by left| |injection E as _ <-; by left].
    injection E as Hfx <-. wp_step. apply value_all_wp.
    + intros i ps. cbn. by rewrite lookup_empty.
    + by left.
    + intros st w1 fs9 Hloop. wp_step. apply persist_wp; [done|done|by left|].
      intros s1 fs8 Hper. cbn [fst]. destruct a as [lines reporting].
      assert (Hdet : determined s a0 lines st) by (split; eauto).
      apply get_wp.
      * intros e w2 fs7. right. split; [done|]. exists a0, lines, st. by split_and!.
      * intros r w2 fs7 Hget. right. split; [done|]. exists a0, lines, st. split_and!; try done.
        by intros r' [= <-].
  - injection E as _ <-. case_match; wp_step; by left.
Qed.
End create.

(** ** The theorems *)

Lemma with_id_id l : LineID l = ""%string -> with_id "" l = l.
Proof. destruct l. cbn. by intros ->. Qed.

Lemma zip_pair_snd {A B} (l : list B) (k : list A) :
  length k = length l -> snd <$> zip_with pair k l = l.
Proof.
  revert k; induction l as [|x l IH]; intros [|y k]; cbn; try done.
  intros [= H]. by rewrite IH.
Qed.

Section results.
Context (scan_uuid uuid_text : string -> option string) (parseISO : string -> bool)
  (format_float : spec_float -> string).
Context (gen : nat -> string) (now : time) (request : Request) (s : tables).

(** What the properties assume of the store and of the database's identifiers:
    stored identifiers read back as they are, and valuation lines refer to
    stored runs (a foreign key). *)
Record sound_store : Prop := {
  sound_ids : canonical scan_uuid uuid_text s;
  sound_gen : uuid_text (gen 0%nat) = Some (gen 0%nat);
  sound_fk : forall id l, valuation_lines s !! id = Some l -> is_Some (valuation_runs s !! vl_run l);
}.

(** The lines computed for the snapshot, in snapshot order. *)
Definition computed (results : list Line) : Prop :=
  exists fx lines, loadFX request s = Ok fx /\
    (exists reporting, loadSnapshot uuid_text (SnapshotID request) s = Ok (lines, reporting)) /\
    Forall2 (line_spec uuid_text parseISO s request fx) lines results.

Lemma computed_line results l :
  computed results -> l ∈ results ->
  LineID l = ""%string /\
  (exists r, snapshot_lines s !! SnapshotLineID l = Some r /\ sl_instrument r = InstrumentID l) /\
  formatted (NativeAmount l) /\ formatted (TryAmount l) /\ formatted (USDAmount l) /\
  price_from uuid_text s request l /\ quotes_from s request l.
Proof.
  intros (fx & lines & Hfx & (reporting & Hsnap) & Hf) Hl.
  apply list_elem_of_lookup in Hl as [i Hi].
  destruct (Forall2_lookup_r _ _ _ _ _ Hf Hi) as (line & Hline & Hspec).
  destruct (line_spec_sources _ _ _ _ _ _ _ Hfx Hspec) as (H1 & H2 & H3 & Hrest).
  apply loadSnapshot_lines in Hsnap as (sid & _ & Hall). rewrite Forall_forall in Hall.
  destruct (Hall line) as (r & Hr & _ & Hi'); [by eapply list_elem_of_lookup_2|].
  split; [done|]. split; [|done]. exists r. by rewrite H1, H2.
Qed.

Lemma omap_rows rid s' ils rows :
  snapshot_lines s' = snapshot_lines s -> canonical scan_uuid uuid_text s ->
  (exists results, computed results /\ forall il, il ∈ ils -> snd il ∈ results) ->
  Forall2 (row_for scan_uuid uuid_text rid) ils rows ->
  with_id "" <$> omap (to_line s') rows = snd <$> ils.
Proof.
  intros Hsl Hcan (results & Hres & Hils) Hf. induction Hf as [|il kr ils rows Hrow Hf IH]; [done|].
  destruct (computed_line results (snd il) Hres) as (Hid & Hlook & Hn & Ht & Hu & Hp & Hq).
  { apply Hils. constructor. }
  rewrite fmap_cons. cbn [omap list_omap].
  rewrite (to_line_row _ _ _ s' _ _ _ _ Hcan Hsl Hlook Hn Ht Hu Hp Hq Hrow).
  cbn [fmap list_fmap]. f_equal.
  - by rewrite <- (with_id_id (snd il)) at 2.
  - apply IH. intros il' Hin. apply Hils. by constructor.
Qed.

(** The amounts of persisted lines fit their columns. *)
Definition fitting (l : Line) : Prop :=
  is_Some (nullable numeric_in (TryAmount l)) /\ is_Some (nullable numeric_in (USDAmount l)).

Lemma rows_fitting rid ils rows :
  Forall2 (row_for scan_uuid uuid_text rid) ils rows -> Forall (fun il => fitting (snd il)) ils.
Proof.
  induction 1 as [|il kr ils rows Hrow Hf IH]; constructor; [|done].
  destruct Hrow as (_ & tr & ud & _ & _ & Hrow).
  apply line_row_inv in Hrow as (? & ? & ? & t & u & ? & _ & _ & _ & Ht & Hu & _).
  split; eauto.
Qed.

Lemma read_back run results s' r :
  sound_store -> computed results ->
  persisted scan_uuid uuid_text format_float (gen 0%nat) now gen request run results s s' ->
  get_result uuid_text (gen 0%nat) s' r ->
  with_id "" <$> Lines r ≡ₚ results /\ RunState r = RunState run /\
  ResultHash r = ResultHash run /\ RunTotals r = sum_totals (Lines r) /\
  Forall fitting results.
Proof.
  intros [Hcan Hgen Hfk] Hcomp (s1 & Hins & Hadd) (rr & lines & Hrun & Hlines & ->).
  apply insert_run_inv in Hins as (_ & sid & json & Hsid & Hj & Hsn & Hnone & Hs1).
  destruct Hadd as (Hw & (rows & Hrows & Hperm) & _).
  assert (Hruns : valuation_runs s' = valuation_runs s1) by by rewrite Hw.
  assert (Hsl : snapshot_lines s' = snapshot_lines s) by by rewrite Hw, Hs1.
  unfold select_run in Hrun. rewrite Hgen, Hruns, Hs1 in Hrun. cbn in Hrun.
  rewrite lookup_insert_eq in Hrun. injection Hrun as <-.
  unfold select_lines in Hlines. rewrite Hgen in Hlines. injection Hlines as <-.
  cbn [Lines RunState ResultHash RunTotals]. split; [|split_and!; try done].
  2:{ pose proof (rows_fitting _ _ _ Hrows) as Hfit.
      rewrite <- (zip_pair_snd results (gen <$> seq 1 (length results)))
        by by rewrite length_fmap, length_seq.
      by rewrite Forall_fmap. }
  transitivity (with_id "" <$> omap (to_line s') rows).
  - apply fmap_Permutation, omap_Permutation. unfold select. rewrite insertion_sort_perm.
    exact Hperm.
  - erewrite (omap_rows (gen 0%nat) s' _ rows Hsl Hcan); [| |exact Hrows].
    + by rewrite zip_pair_snd by by rewrite length_fmap, length_seq.
    + exists results. split; [done|]. intros [k l] Hin. by apply elem_of_zip_r in Hin.
Qed.

Lemma create_result fs r s' :
  sound_store ->
  run (Create true scan_uuid uuid_text parseISO format_float gen now request) fs s = (Ok r, s') ->
  validRequest scan_uuid request = true /\ exists results st, computed results /\
    with_id "" <$> Lines r ≡ₚ results /\ ls_results st = results /\
    ls_try st = sum_try results 0%Q /\ ls_usd st = sum_usd results 0%Q /\
    ls_blocked st = existsb has_reasons results /\
    RunState r = RunState (make_run format_float request st) /\
    ResultHash r = ResultHash (make_run format_float request st) /\
    RunTotals r = sum_totals (Lines r) /\ Forall fitting results.
Proof.
  intros Hs Hrun. destruct Hs as [Hcan Hgen Hfk] eqn:Heq. clear Heq.
  destruct (create_inv _ _ _ _ _ _ _ _ _ _ _ Hgen Hfk Hrun) as [[? _]|(Hv & fx & lines & st & Hdet & Hper & Hget)];
    [done|]. split; [done|].
  destruct Hdet as (Hsnap & Hfx & results & Hf & Hres & Ht & Hu & Hb). cbn in Hres, Ht, Hu, Hb.
  rewrite Hres in Hper. assert (Hc : computed results) by (exists fx, lines; done).
  exists results, st. split; [done|].
  destruct (read_back _ _ _ _ (Build_sound_store Hcan Hgen Hfk) Hc Hper (Hget r eq_refl))
    as (Hl & Hst & Hh & Htot & Hfit). by split_and!.
Qed.
End results.
