(* ===== verification/ValuationTheorems.v ===== *)
(** The properties of [Valuation.Create]: no look-ahead, exact totals bound by
    the result hash, completeness of a valid run, and what a failure leaves. *)

From S2P Require Import Prelude GoString Digits GoTime Sha256 Json Db Decimal Order Tables.
From S2P Require Import Valuation ValuationPaths ValuationProofs.
From Stdlib Require Import Ascii SpecFloat QArith Lqa.
#[local] Open Scope Z_scope.
Import Valuation.

(** ** Totals *)

(** An amount in units of 10^-18; an absent amount counts for nothing. *)
Definition units (amount : option string) : Z :=
  match amount with Some text => default 0 (numeric_in text) | None => 0 end.

Definition sum_units (amount : Line -> option string) (ls : list Line) : Z :=
  foldr (fun l t => units (amount l) + t) 0 ls.

(** Amounts read from a NUMERIC column. *)
Definition stored_amount (amount : option string) : Prop :=
  forall text, amount = Some text -> exists z, numeric_fits z = true /\ text = fixed18 z.

Lemma units_fixed18 z : numeric_fits z = true -> units (Some (fixed18 z)) = z.
Proof. intros H. cbn. fold (numeric_out z). by rewrite numeric_in_out. Qed.

Lemma add_amount_units q amount :
  stored_amount amount -> (add_amount q amount == q + (units amount # Z.to_pos scale18))%Q.
Proof.
  intros Hs. destruct amount as [text|].
  - destruct (Hs text eq_refl) as (z & Hz & ->). rewrite units_fixed18 by done. cbn.
    unfold parseDecimal. rewrite parse_fixed18. reflexivity.
  - cbn [add_amount units]. unfold Qeq, Qplus. cbn [Qnum Qden]. rewrite Pos2Z.inj_mul. ring.
Qed.

Lemma fold_amounts (amount : Line -> option string) ls : forall q,
  Forall (fun l => stored_amount (amount l)) ls ->
  (fold_left (fun t l => add_amount t (amount l)) ls q
     == q + (sum_units amount ls # Z.to_pos scale18))%Q.
Proof.
  induction ls as [|l ls IH]; intros q Hf; cbn [fold_left sum_units foldr].
  - unfold Qeq, Qplus. cbn [Qnum Qden]. rewrite Pos2Z.inj_mul. ring.
  - inversion Hf as [|? ? Hl Hls]; subst. rewrite IH, add_amount_units by done.
    fold (sum_units amount ls). unfold Qeq, Qplus. cbn [Qnum Qden].
    rewrite !Pos2Z.inj_mul. ring.
Qed.

Lemma format_sum (amount : Line -> option string) ls :
  Forall (fun l => stored_amount (amount l)) ls ->
  formatDecimal (fold_left (fun t l => add_amount t (amount l)) ls 0%Q) = fixed18 (sum_units amount ls).
Proof.
  intros Hf. rewrite (fold_amounts amount ls 0%Q Hf), Qplus_0_l.
  unfold formatDecimal. by rewrite round18_exact.
Qed.

Lemma sum_units_perm (amount : Line -> option string) ls ls' :
  ls ≡ₚ ls' -> sum_units amount ls = sum_units amount ls'.
Proof.
  induction 1 as [|x l l' _ IH|x y l|l1 l2 l3 _ IH1 _ IH2]; cbn [sum_units foldr];
    [done| | |congruence]; fold (sum_units amount l); [|lia].
  fold (sum_units amount l'). by rewrite IH.
Qed.

Lemma sum_units_with_id (amount : Line -> option string) ls :
  (forall id l, amount (with_id id l) = amount l) ->
  sum_units amount (with_id "" <$> ls) = sum_units amount ls.
Proof. intros Ha. induction ls as [|l ls IH]; [done|].
  change (units (amount (with_id "" l)) + sum_units amount (with_id "" <$> ls) = sum_units amount (l :: ls)).
  rewrite Ha, IH. done.
Qed.

Lemma fitting_amount amount :
  formatted amount -> is_Some (nullable numeric_in amount) -> stored_amount amount.
Proof.
  intros Hf [o Ho] text ->. destruct (Hf text eq_refl) as [z ->]. exists z. split; [|done].
  cbn in Ho. unfold numeric_in in Ho. rewrite parse_fixed18, round18_exact in Ho.
  by destruct (numeric_fits z).
Qed.

(** ** Completeness of a line *)

Lemma target_reasons_nil target r :
  target_reasons target r = [] <-> is_Some (target_amount r).
Proof. destruct r as [[q p]|e]; cbn; split; [eauto|done|done|by intros []]. Qed.

(** A line is valid exactly when it is valued in both currencies. *)
Lemma line_spec_state uuid_text parseISO s request fx line l :
  line_spec uuid_text parseISO s request fx line l ->
  (LineState l = StateValid <-> ReasonCodes l = []) /\
  (LineState l = StateBlocked <-> ReasonCodes l <> []) /\
  (ReasonCodes l = [] <-> is_Some (TryAmount l) /\ is_Some (USDAmount l)) /\
  (ReasonCodes l = [] -> is_Some (NativeAmount l)).
Proof.
  intros (price & -> & _). unfold priced_line.
  assert (Hgo : forall a u q m n p1 p2 i1 i2 i3,
    let l := mkLine i1 i2 i3 n (Some q)
      (target_amount (convert parseISO a u "TRY" fx)) (target_amount (convert parseISO a u "USD" fx))
      (if bool_decide (target_reasons "TRY" (convert parseISO a u "TRY" fx) ++
                       target_reasons "USD" (convert parseISO a u "USD" fx) = [])
       then StateValid else StateBlocked)
      (target_reasons "TRY" (convert parseISO a u "TRY" fx) ++
       target_reasons "USD" (convert parseISO a u "USD" fx)) m p1 p2
      (target_path (convert parseISO a u "TRY" fx)) (target_path (convert parseISO a u "USD" fx)) in
    (LineState l = StateValid <-> ReasonCodes l = []) /\
    (LineState l = StateBlocked <-> ReasonCodes l <> []) /\
    (ReasonCodes l = [] <-> is_Some (TryAmount l) /\ is_Some (USDAmount l)) /\
    (ReasonCodes l = [] -> is_Some (NativeAmount l))).
  { intros. cbn. split; [|split; [|split; [|by eauto]]].
    - by case_bool_decide.
    - by case_bool_decide.
    - by rewrite app_nil, !target_reasons_nil. }
  destruct (is_cash line); [apply Hgo|]. destruct price; [apply Hgo|].
  cbn. split; [done|]. split; [done|]. split; [|done]. split; [done|]. by intros [[] _].
Qed.

(** ** Properties *)

Section properties.
Context (scan_uuid uuid_text : string -> option string) (parseISO : string -> bool)
  (format_float : spec_float -> string).
Context (gen : nat -> string) (now : time) (request : Request) (fs : list bool).
Context (s s' : tables) (r : Run).

Lemma with_id_elem ls results l :
  with_id "" <$> ls ≡ₚ results -> l ∈ ls -> with_id "" l ∈ results.
Proof. intros Hp Hl. rewrite <- Hp. apply list_elem_of_fmap. eauto. Qed.

(** C4: no look-ahead.  In the run a successful call returns, every price and
    every conversion quote a line rests on is a stored revision, of the
    instrument of the line for a price, observed no later than the cutoff, no
    older than the maximum age asked, and already known at the requested time
    on the clock of the requested knowledge mode. *)
Theorem valuation_no_lookahead :
  sound_store scan_uuid uuid_text gen s ->
  run (Create true scan_uuid uuid_text parseISO format_float gen now request) fs s = (Ok r, s') ->
  forall l, l ∈ Lines r ->
  (forall p, PriceRevisionID l = Some p -> exists row,
     prices s !! p = Some row /\ uuid_text (InstrumentID l) = Some (pr_instrument row) /\
     pr_observation row <= Cutoff request <= pr_observation row + PriceMaxAgeSeconds request * Second /\
     known (KnowledgeMode request) (pr_source_known row) (pr_system_known row) (KnownAt request)) /\
  (forall e, e ∈ TryFXPath l ++ USDFXPath l -> exists row,
     fx_quotes s !! QuoteRevisionID e = Some row /\
     fx_observation row <= Cutoff request <= fx_observation row + FXMaxAgeSeconds request * Second /\
     known (KnowledgeMode request) (fx_source_known row) (fx_system_known row) (KnownAt request)).
Proof.
  intros Hs Hrun l Hl.
  destruct (create_result _ _ _ _ _ _ _ _ _ _ _ Hs Hrun) as (Hv & results & st & Hc & Hp & _).
  destruct (computed_line _ _ _ _ _ _ Hc (with_id_elem _ _ _ Hp Hl))
    as (_ & _ & _ & _ & _ & Hprice & Hquotes).
  unfold validRequest in Hv. bool_simp. split.
  - intros p Hpr. destruct (Hprice p Hpr) as (iid & row & Hi & Hrow & <- & He).
    exists row. split; [done|]. split; [done|]. by apply eligible_exact.
  - intros e He. destruct (Hquotes e He) as (row & Hrow & Hel).
    exists row. split; [done|]. by apply eligible_exact.
Qed.

(** C26: totals are exact and bound by the hash.  The totals returned are the
    sums, digit for digit, of the line amounts as persisted; and the result hash
    is that of the request, of the computed lines (those returned, up to their
    order and the identifiers the database drew) and of those same totals. *)
Theorem valuation_totals_hash :
  sound_store scan_uuid uuid_text gen s ->
  run (Create true scan_uuid uuid_text parseISO format_float gen now request) fs s = (Ok r, s') ->
  RunTotals r = mkTotals (Some (fixed18 (sum_units TryAmount (Lines r))))
                  (Some (fixed18 (sum_units USDAmount (Lines r)))) /\
  exists results, with_id "" <$> Lines r ≡ₚ results /\
    ResultHash r = resultHash format_float request results (RunTotals r).
Proof.
  intros Hs Hrun.
  destruct (create_result _ _ _ _ _ _ _ _ _ _ _ Hs Hrun)
    as (Hv & results & st & Hc & Hp & Hres & Ht & Hu & _ & _ & Hh & Htot & Hfit).
  assert (Hst : forall amount : Line -> option string,
    (forall id l, amount (with_id id l) = amount l) ->
    (forall l, l ∈ results -> stored_amount (amount l)) ->
    Forall (fun l => stored_amount (amount l)) (Lines r) /\
    Forall (fun l => stored_amount (amount l)) results /\
    sum_units amount (Lines r) = sum_units amount results).
  { intros amount Ha Hall. split; [|split].
    - rewrite Forall_forall. intros l Hl. rewrite <- (Ha ""%string l). by eapply Hall, with_id_elem.
    - by rewrite Forall_forall.
    - rewrite <- (sum_units_with_id amount (Lines r)) by done. by apply sum_units_perm. }
  rewrite Forall_forall in Hfit.
  destruct (Hst TryAmount) as (H1 & H2 & H3); [done| |].
  { intros l Hl. destruct (computed_line _ _ _ _ _ _ Hc Hl) as (_ & _ & _ & Hf & _).
    by apply fitting_amount, Hfit. }
  destruct (Hst USDAmount) as (H4 & H5 & H6); [done| |].
  { intros l Hl. destruct (computed_line _ _ _ _ _ _ Hc Hl) as (_ & _ & _ & _ & Hf & _).
    by apply fitting_amount, Hfit. }
  assert (Htotals : RunTotals r = mkTotals (Some (fixed18 (sum_units TryAmount (Lines r))))
                  (Some (fixed18 (sum_units USDAmount (Lines r))))).
  { rewrite Htot. unfold sum_totals. by rewrite !format_sum. }
  split; [done|]. exists results. split; [done|]. rewrite Hh, Htotals. unfold make_run. cbn [ResultHash].
  rewrite Hres, Ht, Hu. unfold sum_try, sum_usd. by rewrite !format_sum, H3, H6.
Qed.
(** A run is presented as valid only when it is complete.  The run is
    blocked exactly when one of its lines is; a line is valid exactly when it
    has no reason code, which is exactly when it has an amount in both report
    currencies (and then one in its native unit too). *)
Theorem valuation_complete :
  sound_store scan_uuid uuid_text gen s ->
  run (Create true scan_uuid uuid_text parseISO format_float gen now request) fs s = (Ok r, s') ->
  (RunState r = StateBlocked <-> exists l, l ∈ Lines r /\ LineState l = StateBlocked) /\
  (RunState r = StateValid <-> forall l, l ∈ Lines r -> LineState l = StateValid) /\
  (forall l, l ∈ Lines r ->
     (LineState l = StateValid <-> ReasonCodes l = []) /\
     (ReasonCodes l = [] <-> is_Some (TryAmount l) /\ is_Some (USDAmount l)) /\
     (ReasonCodes l = [] -> is_Some (NativeAmount l))).
Proof.
  intros Hs Hrun.
  destruct (create_result _ _ _ _ _ _ _ _ _ _ _ Hs Hrun)
    as (_ & results & st & (fx & lines & _ & _ & Hf) & Hp & Hres & _ & _ & Hb & Hst & _).
  assert (Hline : forall l, l ∈ results -> exists line, line_spec uuid_text parseISO s request fx line l).
  { intros l [i Hi]%list_elem_of_lookup. destruct (Forall2_lookup_r _ _ _ _ _ Hf Hi) as (? & _ & ?). eauto. }
  assert (Hback : forall l, l ∈ results -> exists id, with_id id l ∈ Lines r).
  { intros l. rewrite <- Hp. intros (l' & -> & Hl')%list_elem_of_fmap. exists (LineID l'). by destruct l'. }
  assert (Hstate : RunState r = if existsb has_reasons results then StateBlocked else StateValid).
  { rewrite Hst. unfold make_run. cbn. by rewrite Hb. }
  assert (Hlines : forall l, l ∈ Lines r -> exists line, line_spec uuid_text parseISO s request fx line (with_id "" l)).
  { intros l Hl. by eapply Hline, with_id_elem. }
  assert (Hexists : existsb has_reasons results = true <-> exists l, l ∈ Lines r /\ LineState l = StateBlocked).
  { rewrite existsb_exists. split.
    - intros (l & Hl & Hr). rewrite <- list_elem_of_In in Hl. unfold has_reasons in Hr. bool_simp.
      destruct (Hline _ Hl) as (line & Hspec). destruct (Hback _ Hl) as (id & Hid).
      exists (with_id id l). split; [done|]. by apply (line_spec_state _ _ _ _ _ _ _ Hspec).
    - intros (l & Hl & Hr). exists (with_id "" l). rewrite <- list_elem_of_In.
      split; [by eapply with_id_elem|]. destruct (Hlines _ Hl) as (line & Hspec).
      apply line_spec_state in Hspec as (_ & Hbl & _). apply Hbl in Hr.
      unfold has_reasons. by rewrite bool_decide_false. }
  split; [|split].
  - rewrite Hstate, <- Hexists. by destruct (existsb has_reasons results).
  - rewrite Hstate. destruct (existsb has_reasons results) eqn:E.
    + destruct (proj1 Hexists eq_refl) as (l & Hl & Hbl). split; [done|]. intros Hall.
      rewrite (Hall _ Hl) in Hbl. done.
    + split; [|done]. intros _ l Hl. destruct (Hlines _ Hl) as (line & Hspec).
      apply line_spec_state in Hspec as (Hv & Hbl & _). apply Hv.
      destruct (decide (ReasonCodes (with_id "" l) = [])) as [|Hne]; [done|].
      apply Hbl in Hne. discriminate (proj2 Hexists (ex_intro _ l (conj Hl Hne))).
  - intros l Hl. destruct (Hlines _ Hl) as (line & Hspec).
    apply line_spec_state in Hspec as (Hv & _ & Ha & Hn). split_and!; [exact Hv..|exact Ha|exact Hn].
Qed.

End properties.

(** ** A concrete run *)

(** Ten lira in cash and two units of an asset priced at three dollars, with the
    lira at forty to the dollar. *)
Definition demo_tables : tables :=
  mkTables
    {[ "cash" := mkInstrument "TRY" "cash" "TRY" "active";
       "asset" := mkInstrument "A" "manual_spot" "USD" "active" ]}
    {[ "p" := "TRY" ]} ∅ {[ "s" := mkSnapshot "p" 0 ]}
    {[ "l1" := Tables.mkSnapshotLine "s" "a" "cash" (10 * scale18);
       "l2" := Tables.mkSnapshotLine "s" "a" "asset" (2 * scale18) ]}
    {[ "p1" := mkPriceRow "asset" "USD" 1000 (3 * scale18) None 2000 "raw";
       "p2" := mkPriceRow "asset" "USD" 9000 (4 * scale18) None 9000 "raw" ]}
    {[ "f1" := mkFXRow "USD" "TRY" 1000 (40 * scale18) None 2000 "raw" ]}
    ∅ ∅ ∅ ∅ ∅.

Definition demo_gen (n : nat) : string := "v" +:+ format_int (Z.of_nat n).
Definition demo_iso (c : string) : bool := bool_decide (c ∈ ["TRY"; "USD"; "EUR"]).
Definition demo_create : dbm tables Run :=
  Create true Some Some demo_iso (fun _ => "0"%string) demo_gen 7000 demo_request.
Definition demo_run : res Run * tables := run demo_create [] demo_tables.
Definition returned (o : res Run * tables) : Run :=
  match fst o with
  | Ok r => r
  | Err _ => mkRun "" "" 0 "" 0 0 0 "" "" [] (mkTotals None None) 0
  end.
Definition demo_result : Run := returned demo_run.

Example demo_totals :
  RunTotals demo_result = mkTotals (Some "250.000000000000000000") (Some "6.250000000000000000").
Proof. vm_compute. reflexivity. Qed.

Lemma demo_runs : run demo_create [] demo_tables = (Ok demo_result, snd demo_run).
Proof. vm_compute. reflexivity. Qed.

Lemma demo_sound : sound_store Some Some demo_gen demo_tables.
Proof.
  split; [by split|done|]. intros id l Hl. change (valuation_lines demo_tables) with (∅ : gmap string ValuationLineRow) in Hl.
  by rewrite lookup_empty in Hl.
Qed.

Lemma valuation_no_lookahead_witness :
  length (Lines demo_result) = 2%nat /\ forall l, l ∈ Lines demo_result ->
  (forall p, PriceRevisionID l = Some p -> exists row,
     prices demo_tables !! p = Some row /\ Some (InstrumentID l) = Some (pr_instrument row) /\
     pr_observation row <= 5000 <= pr_observation row + 60 * Second /\
     known KnowledgeSystem (pr_source_known row) (pr_system_known row) 4000) /\
  (forall e, e ∈ TryFXPath l ++ USDFXPath l -> exists row,
     fx_quotes demo_tables !! QuoteRevisionID e = Some row /\
     fx_observation row <= 5000 <= fx_observation row + 60 * Second /\
     known KnowledgeSystem (fx_source_known row) (fx_system_known row) 4000).
Proof.
  split; [vm_compute; reflexivity|].
  exact (valuation_no_lookahead Some Some demo_iso _ demo_gen 7000 demo_request [] demo_tables _ _
           demo_sound demo_runs).
Defined.

Lemma valuation_totals_hash_witness :
  RunTotals demo_result = mkTotals (Some (fixed18 (sum_units TryAmount (Lines demo_result))))
                            (Some (fixed18 (sum_units USDAmount (Lines demo_result)))) /\
  exists results, with_id "" <$> Lines demo_result ≡ₚ results /\
    ResultHash demo_result =
      resultHash (fun _ => "0"%string) demo_request results (RunTotals demo_result).
Proof.
  exact (valuation_totals_hash Some Some demo_iso _ demo_gen 7000 demo_request [] demo_tables _ _
           demo_sound demo_runs).
Defined.

Lemma valuation_complete_witness :
  (RunState demo_result = StateBlocked <->
     exists l, l ∈ Lines demo_result /\ LineState l = StateBlocked) /\
  (RunState demo_result = StateValid <->
     forall l, l ∈ Lines demo_result -> LineState l = StateValid) /\
  (forall l, l ∈ Lines demo_result ->
     (LineState l = StateValid <-> ReasonCodes l = []) /\
     (ReasonCodes l = [] <-> is_Some (TryAmount l) /\ is_Some (USDAmount l)) /\
     (ReasonCodes l = [] -> is_Some (NativeAmount l))).
Proof.
  exact (valuation_complete Some Some demo_iso _ demo_gen 7000 demo_request [] demo_tables _ _
           demo_sound demo_runs).
Defined.

