(* ===== verification/Reconciliation.v ===== *)
(** Reconciliation of a valuation with an external statement
    (internal/application/reconciliation/service.go, records of
    internal/domain/reconciliation/model.go, constraints and triggers of
    db/migrations/00007_reconciliation.sql), over the shared tables.

    The maps the service iterates have no order: [shuffle] is the order in which
    one run visits the expected lines.  Exact sums do not depend on it. *)

From S2P Require Import Prelude GoString Digits GoTime Decimal Order Tables Db.
From Stdlib Require Import Ascii QArith Qabs.
#[local] Open Scope Z_scope.

Module Reconciliation.

Definition ErrInvalidRequest : goerr := ENew "invalid reconciliation request".
Definition ErrNotFound : goerr := ENew "reconciliation resource not found".

(** [conflict]: a [ConflictError]. *)
Definition conflict (code message : string) : goerr := ECode code message.

Definition CurrencyTRY : string := "TRY".
Definition CurrencyUSD : string := "USD".
Definition StateReconciled : string := "reconciled".
Definition StateUnreconciled : string := "unreconciled".
Definition LineCheckNone : string := "none".
Definition LineCheckPartial : string := "partial".
Definition LineCheckComplete : string := "complete".

Record ToleranceVersion : Type := mkToleranceVersion {
  TolID : string;
  TolAccountID : string;
  TolVersion : Z;
  ToleranceAmount : string;
  TolCreatedAt : time;
}.

Record LineCheckInput : Type := mkLineCheckInput {
  InSnapshotLineID : string;
  InExternalAmount : string;
}.

Record Request : Type := mkRequest {
  ReqAccountID : string;
  ReqSourceLabel : string;
  ReqCurrency : string;
  ReqCutoff : time;
  ReqExternalNAV : string;
  ReqLineChecks : list LineCheckInput;
  LineChecksComplete : bool;
}.

Record LineCheck : Type := mkLineCheck {
  SnapshotLineID : string;
  ExternalAmount : string;
  ValuationAmount : string;
  Difference : string;
  LineAbsoluteDifference : string;
}.

Record Checkpoint : Type := mkCheckpoint {
  ID : string;
  ValuationID : string;
  AccountID : string;
  SourceLabel : string;
  Currency : string;
  Cutoff : time;
  ExternalNAV : string;
  ValuationNAV : string;
  AbsoluteDifference : string;
  RelativeDifference : option string;
  EffectiveTolerance : string;
  TolVersionUsed : Z;
  CpState : string;
  ReasonCode : option string;
  LineCheckState : string;
  LineChecks : list LineCheck;
  CreatedAt : time;
}.

Record valuationInfo : Type := mkValuationInfo {
  vi_id : string;
  vi_snapshot : string;
  vi_portfolio : string;
  vi_state : string;
  vi_reporting : string;
  vi_cutoff : time;
}.

Record valueLine : Type := mkValueLine { val_id : string; val_account : string; val_amount : Q }.

(** ** Decimals *)

Definition validDecimal (value : string) : bool := decimal_pattern false (trim_space value).

Definition parseDecimal (value : string) : res Q :=
  if negb (validDecimal value) then Err ErrInvalidRequest
  else match parse_rat value with Some q => Ok q | None => Err ErrInvalidRequest end.

Definition scaleDecimal (value : Q) : Q :=
  match parseDecimal (formatDecimal value) with Ok q => q | Err _ => 0%Q end.

Definition defaultTolerance (externalNAV : Q) : Q :=
  let minimum := (1 # 100)%Q in
  let basisPoint := (Qabs externalNAV / (10000 # 1))%Q in
  if negb (Qle_bool basisPoint minimum) then basisPoint else minimum.

Section service.
Context (Pool : bool) (scan_uuid uuid_text : string -> option string)
  (shuffle : list string -> list string).

Definition validUUID (value : string) : bool :=
  bool_decide (is_Some (scan_uuid (trim_space value))).

Definition validRequest (r : Request) : bool :=
  validUUID (ReqAccountID r) && negb (bool_decide (trim_space (ReqSourceLabel r) = ""))
  && (equal_fold (ReqCurrency r) CurrencyTRY || equal_fold (ReqCurrency r) CurrencyUSD)
  && negb (IsZero (ReqCutoff r)) && validDecimal (ReqExternalNAV r).

(** ** Tolerance versions *)

(** SELECT ... FROM accounts WHERE id FOR UPDATE. *)
Definition select_account (id : string) (s : tables) : res string :=
  match uuid_text id with
  | None => Err EDb
  | Some a => match accounts s !! a with Some p => Ok p | None => Err ENoRows end
  end.

Definition versions_of (account : string) (s : tables) : list (string * ToleranceRow) :=
  select (fun _ r => bool_decide (tv_account r = account))
    (before (desc (fun kv => tv_version (snd kv)))) (tolerances s).

(** COALESCE(MAX(version), 0) + 1, an INTEGER. *)
Definition next_version (accountID : string) (s : tables) : res Z :=
  match uuid_text accountID with
  | None => Err EDb
  | Some a =>
      let v := match versions_of a s with (_, r) :: _ => tv_version r | [] => 0 end + 1 in
      if v <=? 2147483647 then Ok v else Err EDb
  end.

Definition insert_tolerance (id accountID : string) (version : Z) (amount : string) (now : time)
    (s : tables) : res (string * time) * tables :=
  match uuid_text accountID, numeric_in amount with
  | Some a, Some z =>
      if bool_decide (is_Some (accounts s !! a)) && (0 <=? z)
         && bool_decide (tolerances s !! id = None)
         && negb (existsb (fun kv => bool_decide (tv_account (snd kv) = a)
                                     && (tv_version (snd kv) =? version))
                    (map_to_list (tolerances s)))
      then (Ok (id, now),
            set_tolerances s (<[id := mkToleranceRow a version z now]> (tolerances s)))
      else (Err EDb, s)
  | _, _ => (Err EDb, s)
  end.

(** An error of a single-row query: no rows is [ErrNotFound]. *)
Definition row_or {A} (ctx : string) (m : dbm tables A) : dbm tables A :=
  let* r := attempt m in
  match r with
  | Ok a => ret a
  | Err e => if errors_is e ENoRows then throw ErrNotFound else throw (EWrap ctx e)
  end.

Definition CreateTolerance (id : string) (now : time) (accountID amount : string)
    : dbm tables ToleranceVersion :=
  if negb Pool || negb (validUUID accountID) || negb (validDecimal amount)
  then throw ErrInvalidRequest
  else
    match parseDecimal amount with
    | Err _ => throw ErrInvalidRequest
    | Ok tolerance =>
        if Qnum tolerance <? 0 then throw ErrInvalidRequest
        else
          let tolerance := scaleDecimal tolerance in
          wrap "begin tolerance transaction" begin ;;;
          row_or "lock tolerance account" (query (select_account accountID)) ;;;
          let* version := wrap "read tolerance version" (query (next_version accountID)) in
          let* created := wrap "insert tolerance version"
            (stmt (insert_tolerance id accountID version (formatDecimal tolerance) now)) in
          wrap "commit tolerance version" commit ;;;
          ret (mkToleranceVersion (fst created) accountID version (formatDecimal tolerance)
                 (snd created))
    end.

(** ** Loading the valuation *)

Definition select_valuation (id : string) (s : tables) : res valuationInfo :=
  match uuid_text id with
  | None => Err EDb
  | Some v =>
      match (vr ← valuation_runs s !! v;
             ps ← snapshots s !! vr_snapshot vr;
             reporting ← portfolios s !! ps_portfolio ps;
             Some (mkValuationInfo v (vr_snapshot vr) (ps_portfolio ps) (vr_state vr) reporting
                     (vr_cutoff vr))) with
      | Some info => Ok info
      | None => Err ENoRows
      end
  end.

(** A row of the outer join of snapshot lines with valuation lines. *)
Record lineRow : Type := mkLineRow {
  lr_line : string;
  lr_account : string;
  lr_valuation : option string;
  lr_amount : option string;
  lr_state : option string;
}.

Definition join_row (currency : string) (sl : string * SnapshotLineRow)
    (vl : string * ValuationLineRow) : lineRow :=
  let amount := if bool_decide (currency = CurrencyTRY) then vl_try_amount (snd vl)
                else vl_usd_amount (snd vl) in
  mkLineRow (fst sl) (sl_account (snd sl)) (Some (fst vl)) (numeric_out <$> amount)
    (Some (vl_state (snd vl))).

Definition join_rows (run currency : string) (s : tables) (sl : string * SnapshotLineRow)
    : list lineRow :=
  match select (fun _ r => bool_decide (vl_run r = run) && bool_decide (vl_snapshot_line r = fst sl))
          (before (asc_text fst)) (valuation_lines s) with
  | [] => [mkLineRow (fst sl) (sl_account (snd sl)) None None None]
  | matches => join_row currency sl <$> matches
  end.

Definition lines_of (snapshot : string) (s : tables) : list (string * SnapshotLineRow) :=
  select (fun _ r => bool_decide (sl_snapshot r = snapshot)) (before (asc_text fst))
    (snapshot_lines s).

Definition select_lines (valuationID snapshot currency : string) (s : tables) : res (list lineRow) :=
  match uuid_text valuationID with
  | None => Err EDb
  | Some run => Ok (lines_of snapshot s ≫= join_rows run currency s)
  end.

(** The maps the scanning loop fills. *)
Record lineMaps : Type := mkLineMaps {
  allLines : gmap string valueLine;
  accountLines : gmap string valueLine;
  expectedLines : gset string;
  invalidLines : gset string;
  lineCounts : gmap string Z;
}.

Definition empty_maps : lineMaps := mkLineMaps ∅ ∅ ∅ ∅ ∅.

Definition scan_row (account : string) (m : lineMaps) (r : lineRow) : lineMaps :=
  let mine := bool_decide (lr_account r = account) in
  let expected := if mine then {[lr_line r]} ∪ expectedLines m else expectedLines m in
  let counts := match lr_valuation r with
                | Some _ => <[lr_line r := default 0 (lineCounts m !! lr_line r) + 1]> (lineCounts m)
                | None => lineCounts m
                end in
  let skip := mkLineMaps (allLines m) (accountLines m) expected (invalidLines m) counts in
  match lr_valuation r, lr_amount r, lr_state r with
  | Some _, Some amount, Some state =>
      if negb (bool_decide (state = "valid")) then skip
      else
        match parseDecimal amount with
        | Err _ =>
            mkLineMaps (allLines m) (accountLines m) expected
              (if mine then {[lr_line r]} ∪ invalidLines m else invalidLines m) counts
        | Ok q =>
            let line := mkValueLine (lr_line r) (lr_account r) q in
            mkLineMaps (<[lr_line r := line]> (allLines m))
              (if mine then <[lr_line r := line]> (accountLines m) else accountLines m)
              expected (invalidLines m) counts
        end
  | _, _, _ => skip
  end.

Definition scan_rows (account : string) (rows : list lineRow) : lineMaps :=
  fold_left (scan_row account) rows empty_maps.

(** The switch over one expected line. *)
Definition expected_error (m : lineMaps) (line : string) : option goerr :=
  let n := default 0 (lineCounts m !! line) in
  if 1 <? n
  then Some (conflict "VALUATION_LINE_DUPLICATE" "valuation has more than one line for a snapshot line")
  else if n =? 0
  then Some (conflict "VALUATION_ACCOUNT_LINES_INCOMPLETE" "valuation is missing an account snapshot line")
  else if bool_decide (line ∈ invalidLines m)
  then Some (conflict "VALUATION_ACCOUNT_LINES_INCOMPLETE" "valuation account line has an invalid amount")
  else if bool_decide (accountLines m !! line = None)
  then Some (conflict "VALUATION_ACCOUNT_LINES_INCOMPLETE"
               "valuation account line is not valid with a non-null amount")
  else None.

Fixpoint first_error {A} (f : A -> option goerr) (l : list A) : option goerr :=
  match l with
  | [] => None
  | x :: l' => match f x with Some e => Some e | None => first_error f l' end
  end.

Definition sumQ (l : list Q) : Q := fold_left Qplus l 0%Q.

Definition nav_of (m : lineMaps) : Q := sumQ ((fun kv => val_amount (snd kv)) <$> map_to_list (accountLines m)).

(** ** Tolerance in force *)

Definition select_tolerance (accountID : string) (s : tables) : res (Z * string) :=
  match uuid_text accountID with
  | None => Err EDb
  | Some a =>
      match versions_of a s with
      | (_, r) :: _ => Ok (tv_version r, numeric_out (tv_amount r))
      | [] => Err ENoRows
      end
  end.

(** ** Line checks *)

Definition select_line_account (id snapshot : string) (s : tables) : res string :=
  match uuid_text id with
  | None => Err EDb
  | Some l =>
      match snapshot_lines s !! l with
      | Some r => if bool_decide (sl_snapshot r = snapshot) then Ok (sl_account r) else Err ENoRows
      | None => Err ENoRows
      end
  end.

Definition make_check (line : valueLine) (external : Q) : LineCheck :=
  let difference := (external - val_amount line)%Q in
  mkLineCheck (val_id line) (formatDecimal external) (formatDecimal (val_amount line))
    (formatDecimal difference) (formatDecimal (Qabs difference)).

(** The loop over the checks: their total and their records. *)
Fixpoint check_lines (snapshot account : string) (m : lineMaps) (inputs : list LineCheckInput)
    (total : Q) (results : list LineCheck) : dbm tables (Q * list LineCheck) :=
  match inputs with
  | [] => ret (total, results)
  | input :: rest =>
      match allLines m !! InSnapshotLineID input with
      | None =>
          let* r := attempt (query (select_line_account (InSnapshotLineID input) snapshot)) in
          match r with
          | Err e =>
              if errors_is e ENoRows
              then throw (conflict "LINE_CHECK_UNKNOWN" "snapshot line is not part of the valuation snapshot")
              else throw (EWrap "check line membership" e)
          | Ok lineAccount =>
              if bool_decide (lineAccount = account)
              then throw (conflict "LINE_CHECK_UNKNOWN" "snapshot line has no valid persisted valuation amount")
              else throw (conflict "LINE_CHECK_CROSS_ACCOUNT" "snapshot line belongs to another account")
          end
      | Some line =>
          if negb (bool_decide (val_account line = account))
          then throw (conflict "LINE_CHECK_CROSS_ACCOUNT" "snapshot line belongs to another account")
          else
            match parseDecimal (InExternalAmount input) with
            | Err _ => throw ErrInvalidRequest
            | Ok external =>
                let external := scaleDecimal external in
                check_lines snapshot account m rest (total + external)%Q
                  (results ++ [make_check line external])
            end
      end
  end.

Definition run_checks (request : Request) (snapshot : string) (m : lineMaps) (externalNAV : Q)
    : dbm tables (string * list LineCheck) :=
  match ReqLineChecks request with
  | [] =>
      if LineChecksComplete request
      then throw (conflict "LINE_CHECK_INCOMPLETE" "complete line checks must include every account line")
      else ret (LineCheckNone, [])
  | inputs =>
      let* out := check_lines snapshot (ReqAccountID request) m inputs 0%Q [] in
      if bool_decide (length inputs = size (accountLines m)) then
        if negb (Qeq_bool (fst out) externalNAV)
        then throw (conflict "LINE_CHECK_TOTAL_MISMATCH" "complete line checks do not sum to external NAV")
        else ret (LineCheckComplete, snd out)
      else if LineChecksComplete request
      then throw (conflict "LINE_CHECK_INCOMPLETE" "complete line checks must include every account line")
      else ret (LineCheckPartial, snd out)
  end.

(** The validation of the inputs, before any query: duplicates are found by the
    text of the identifier. *)
Fixpoint input_error (seen : gset string) (inputs : list LineCheckInput) : option goerr :=
  match inputs with
  | [] => None
  | c :: rest =>
      if negb (validUUID (InSnapshotLineID c)) || negb (validDecimal (InExternalAmount c))
      then Some ErrInvalidRequest
      else if bool_decide (InSnapshotLineID c ∈ seen)
      then Some (conflict "LINE_CHECK_DUPLICATE" "the same snapshot line was supplied more than once")
      else input_error ({[InSnapshotLineID c]} ∪ seen) rest
  end.

(** ** Storing a checkpoint *)

(** The row of a checkpoint; a value a column cannot hold is an error. *)
Definition checkpoint_row (cp : Checkpoint) (now : time) : option CheckpointRow :=
  v ← uuid_text (ValuationID cp);
  a ← uuid_text (AccountID cp);
  external ← numeric_in (ExternalNAV cp);
  nav ← numeric_in (ValuationNAV cp);
  absolute ← numeric_in (AbsoluteDifference cp);
  relative ← nullable numeric_in (RelativeDifference cp);
  tolerance ← numeric_in (EffectiveTolerance cp);
  Some (mkCheckpointRow v a (SourceLabel cp) (Currency cp) (pg_time (Cutoff cp)) external nav absolute
          relative tolerance (TolVersionUsed cp) (CpState cp) (ReasonCode cp) (LineCheckState cp) now).

Definition checkpoint_check (r : CheckpointRow) : bool :=
  bool_decide (cp_currency r ∈ [CurrencyTRY; CurrencyUSD]) && (0 <=? cp_absolute r)
  && (0 <=? cp_tolerance r) && match cp_relative r with Some z => 0 <=? z | None => true end
  && (0 <=? cp_tolerance_version r) && (cp_tolerance_version r <=? 2147483647)
  && bool_decide (cp_state r ∈ [StateReconciled; StateUnreconciled])
  && bool_decide (cp_line_state r ∈ [LineCheckNone; LineCheckPartial; LineCheckComplete]).

(** The trigger [validate_reconciliation_checkpoint]. *)
Definition checkpoint_trigger (r : CheckpointRow) (s : tables) : bool :=
  match (vr ← valuation_runs s !! cp_valuation r;
         ps ← snapshots s !! vr_snapshot vr;
         portfolio ← accounts s !! cp_account r; Some (vr, ps, portfolio)) with
  | None => false
  | Some (vr, ps, portfolio) =>
      bool_decide (ps_portfolio ps = portfolio)
      && existsb (fun kv => bool_decide (sl_snapshot (snd kv) = vr_snapshot vr)
                            && bool_decide (sl_account (snd kv) = cp_account r))
           (map_to_list (snapshot_lines s))
      && (cp_cutoff r =? vr_cutoff vr)
      && (negb (0 <? cp_tolerance_version r)
          || existsb (fun kv => bool_decide (tv_account (snd kv) = cp_account r)
                                && (tv_version (snd kv) =? cp_tolerance_version r)
                                && (tv_amount (snd kv) =? cp_tolerance r))
               (map_to_list (tolerances s)))
  end.

Definition insert_checkpoint (id : string) (now : time) (cp : Checkpoint) (s : tables)
    : res (string * time) * tables :=
  match checkpoint_row cp now with
  | Some r =>
      if checkpoint_check r && checkpoint_trigger r s && bool_decide (checkpoints s !! id = None)
      then (Ok (id, now), set_checkpoints s (<[id := r]> (checkpoints s)))
      else (Err EDb, s)
  | None => (Err EDb, s)
  end.

Definition line_check_row (checkpointID : string) (c : LineCheck) : option LineCheckRow :=
  rc ← uuid_text checkpointID;
  sl ← uuid_text (SnapshotLineID c);
  external ← numeric_in (ExternalAmount c);
  valuation ← numeric_in (ValuationAmount c);
  difference ← numeric_in (Difference c);
  absolute ← numeric_in (LineAbsoluteDifference c);
  Some (mkLineCheckRow rc sl external valuation difference absolute).

(** The trigger [validate_reconciliation_line_check]. *)
Definition line_check_trigger (r : LineCheckRow) (s : tables) : bool :=
  match (rc ← checkpoints s !! lc_checkpoint r;
         vr ← valuation_runs s !! cp_valuation rc;
         sl ← snapshot_lines s !! lc_snapshot_line r; Some (rc, vr, sl)) with
  | None => false
  | Some (rc, vr, sl) =>
      bool_decide (sl_snapshot sl = vr_snapshot vr) && bool_decide (sl_account sl = cp_account rc)
      && existsb (fun kv => bool_decide (vl_run (snd kv) = cp_valuation rc)
                            && bool_decide (vl_snapshot_line (snd kv) = lc_snapshot_line r))
           (map_to_list (valuation_lines s))
  end.

Definition insert_line_check (id checkpointID : string) (c : LineCheck) (s : tables)
    : res unit * tables :=
  match line_check_row checkpointID c with
  | Some r =>
      if line_check_trigger r s && (0 <=? lc_absolute r) && bool_decide (line_checks s !! id = None)
         && negb (existsb (fun kv => bool_decide (lc_checkpoint (snd kv) = lc_checkpoint r)
                                     && bool_decide (lc_snapshot_line (snd kv) = lc_snapshot_line r))
                    (map_to_list (line_checks s)))
      then (Ok tt, set_line_checks s (<[id := r]> (line_checks s)))
      else (Err EDb, s)
  | None => (Err EDb, s)
  end.

(** ** Create *)

Definition normalize (r : Request) : Request :=
  mkRequest (trim_space (ReqAccountID r)) (trim_space (ReqSourceLabel r))
    (to_upper (trim_space (ReqCurrency r))) (ReqCutoff r) (trim_space (ReqExternalNAV r))
    (ReqLineChecks r) (LineChecksComplete r).

Definition valuation_error (info : valuationInfo) (request : Request) : option goerr :=
  if negb (bool_decide (vi_state info = "valid"))
  then Some (conflict "VALUATION_NOT_VALID" "only valid valuations can be reconciled")
  else if negb (bool_decide (vi_reporting info = ReqCurrency request))
  then Some (conflict "CURRENCY_MISMATCH"
               "reconciliation currency must equal the portfolio reporting currency")
  else if negb (vi_cutoff info =? ReqCutoff request)
  then Some (conflict "CUTOFF_MISMATCH" "reconciliation cutoff must equal the valuation cutoff")
  else None.

Definition lines_error (accountPortfolio : string) (info : valuationInfo) (m : lineMaps)
    : option goerr :=
  if bool_decide (expectedLines m = ∅) then
    if bool_decide (accountPortfolio = vi_portfolio info)
    then Some (conflict "ACCOUNT_HAS_NO_LINES" "account has no lines in the valuation snapshot")
    else Some (conflict "ACCOUNT_NOT_IN_SNAPSHOT" "account is not part of the valuation snapshot")
  else first_error (expected_error m) (shuffle (elements (expectedLines m))).

Definition throw_if (e : option goerr) : dbm tables unit :=
  match e with Some e => throw e | None => ret tt end.

(** The tolerance in force: the latest version or the default. *)
Definition effective_tolerance (accountID : string) (externalNAV : Q) : dbm tables (Z * Q) :=
  let* r := attempt (query (select_tolerance accountID)) in
  let* found :=
    match r with
    | Ok found => ret found
    | Err e => if errors_is e ENoRows then ret (0, formatDecimal (defaultTolerance externalNAV))
               else throw (EWrap "load tolerance version" e)
    end in
  let* tolerance := wrap "parse tolerance" (of_res (parseDecimal (snd found))) in
  ret (fst found, tolerance).

(** The figures of a checkpoint. *)
Definition make_checkpoint (valuationID : string) (request : Request) (externalNAV nav : Q)
    (tolerance : Z * Q) (checks : string * list LineCheck) : Checkpoint :=
  let absolute := Qabs (externalNAV - nav) in
  let relative :=
    if Qeq_bool externalNAV 0 then None
    else Some (formatDecimal (absolute / Qabs externalNAV)%Q) in
  mkCheckpoint "" valuationID (ReqAccountID request) (ReqSourceLabel request) (ReqCurrency request)
    (ReqCutoff request) (formatDecimal externalNAV) (formatDecimal nav) (formatDecimal absolute)
    relative (formatDecimal (snd tolerance)) (fst tolerance)
    (if Qle_bool absolute (snd tolerance) then StateReconciled else StateUnreconciled)
    None (fst checks) (snd checks) zero_time.

Definition with_identity (created : string * time) (cp : Checkpoint) : Checkpoint :=
  mkCheckpoint (fst created) (ValuationID cp) (AccountID cp) (SourceLabel cp) (Currency cp)
    (Cutoff cp) (ExternalNAV cp) (ValuationNAV cp) (AbsoluteDifference cp) (RelativeDifference cp)
    (EffectiveTolerance cp) (TolVersionUsed cp) (CpState cp) (ReasonCode cp) (LineCheckState cp)
    (LineChecks cp) (snd created).

Definition store_line_check (checkpointID : string) (ic : string * LineCheck) : dbm tables unit :=
  wrap "insert line check" (stmt (insert_line_check (fst ic) checkpointID (snd ic))).

(** [gen 0] is the identifier of the checkpoint, [gen (S i)] of its checks. *)
Definition persist (gen : nat -> string) (now : time) (cp : Checkpoint) : dbm tables Checkpoint :=
  let* created := wrap "insert reconciliation checkpoint"
    (stmt (insert_checkpoint (gen 0%nat) now cp)) in
  iter (store_line_check (fst created))
    (zip_with pair (gen <$> seq 1 (length (LineChecks cp))) (LineChecks cp)) ;;;
  wrap "commit reconciliation checkpoint" commit ;;;
  ret (with_identity created cp).

Definition Create (gen : nat -> string) (now : time) (valuationID : string) (request : Request)
    : dbm tables Checkpoint :=
  if negb Pool || negb (validUUID valuationID) || negb (validRequest request)
  then throw ErrInvalidRequest
  else
    let request := normalize request in
    match parseDecimal (ReqExternalNAV request) with
    | Err _ => throw ErrInvalidRequest
    | Ok externalNAV =>
        let externalNAV := scaleDecimal externalNAV in
        throw_if (input_error ∅ (ReqLineChecks request)) ;;;
        wrap "begin reconciliation transaction" begin ;;;
        let* portfolio := row_or "lock reconciliation account"
          (query (select_account (ReqAccountID request))) in
        let* info := row_or "load valuation" (query (select_valuation valuationID)) in
        throw_if (valuation_error info request) ;;;
        let* rows := wrap "load valuation lines"
          (query (select_lines valuationID (vi_snapshot info) (ReqCurrency request))) in
        let m := scan_rows (ReqAccountID request) rows in
        throw_if (lines_error portfolio info m) ;;;
        let nav := nav_of m in
        let* tolerance := effective_tolerance (ReqAccountID request) externalNAV in
        let* checks := run_checks request (vi_snapshot info) m externalNAV in
        persist gen now (make_checkpoint valuationID request externalNAV nav tolerance checks)
    end.

(** ** Get *)

Definition to_checkpoint (id : string) (r : CheckpointRow) (checks : list LineCheck) : Checkpoint :=
  mkCheckpoint id (cp_valuation r) (cp_account r) (cp_source_label r) (cp_currency r) (cp_cutoff r)
    (numeric_out (cp_external_nav r)) (numeric_out (cp_valuation_nav r)) (numeric_out (cp_absolute r))
    (numeric_out <$> cp_relative r) (numeric_out (cp_tolerance r)) (cp_tolerance_version r)
    (cp_state r) (cp_reason r) (cp_line_state r) checks (cp_created_at r).

Definition to_check (kv : string * LineCheckRow) : LineCheck :=
  mkLineCheck (lc_snapshot_line (snd kv)) (numeric_out (lc_external (snd kv)))
    (numeric_out (lc_valuation (snd kv))) (numeric_out (lc_difference (snd kv)))
    (numeric_out (lc_absolute (snd kv))).

Definition select_checkpoint (id : string) (s : tables) : res (string * CheckpointRow) :=
  match uuid_text id with
  | None => Err EDb
  | Some c => match checkpoints s !! c with Some r => Ok (c, r) | None => Err ENoRows end
  end.

Definition select_checks (id : string) (s : tables) : res (list LineCheck) :=
  match uuid_text id with
  | None => Err EDb
  | Some c =>
      Ok (to_check <$> select (fun _ r => bool_decide (lc_checkpoint r = c))
                         (before (asc_text (fun kv => lc_snapshot_line (snd kv)))) (line_checks s))
  end.

Definition Get (id : string) : dbm tables Checkpoint :=
  if negb Pool || negb (validUUID id) then throw ErrInvalidRequest
  else
    let* row := row_or "get reconciliation checkpoint" (pool_query (select_checkpoint id)) in
    let* checks := wrap "get reconciliation line checks" (pool_query (select_checks id)) in
    ret (to_checkpoint (fst row) (snd row) checks).
End service.

End Reconciliation.
