(* ===== verification/ReconciliationProofs.v ===== *)
(** Properties of reconciliation: exact figures and verdict, tolerance versions,
    complete line checks, reading back what was stored, atomicity. *)

From S2P Require Import Prelude GoString Digits GoTime Decimal Order Tables Db Reconciliation.
From Stdlib Require Import Ascii QArith Qabs.
#[local] Open Scope Z_scope.
Import Reconciliation.

(** ** Amounts as integers of 10^-18 units *)

Definition units (z : Z) : Q := z # Z.to_pos scale18.

Lemma units_eq a b : (units a == units b)%Q <-> a = b.
Proof. unfold units, Qeq. cbn [Qnum Qden]. split; [nia|by intros ->]. Qed.

Lemma units_plus a b : (units a + units b == units (a + b))%Q.
Proof. unfold units, Qeq, Qplus. cbn [Qnum Qden]. rewrite Pos2Z.inj_mul. ring. Qed.

Lemma units_opp a : (- units a == units (- a))%Q.
Proof. done. Qed.

Lemma units_minus a b : (units a - units b == units (a - b))%Q.
Proof. unfold Qminus. rewrite units_opp, units_plus. done. Qed.

Lemma units_abs a : (Qabs (units a) == units (Z.abs a))%Q.
Proof. done. Qed.

Lemma units_le a b : Qle_bool (units a) (units b) = (a <=? b).
Proof.
  unfold Qle_bool, units. cbn [Qnum Qden]. destruct (Z.leb_spec a b); [apply Z.leb_le|apply Z.leb_gt]; nia.
Qed.

#[export] Instance Qle_bool_proper : Proper (Qeq ==> Qeq ==> eq) Qle_bool.
Proof.
  intros a b Hab c d Hcd. apply eq_true_iff_eq. rewrite !Qle_bool_iff. by rewrite Hab, Hcd.
Qed.

#[export] Instance Qeq_bool_proper : Proper (Qeq ==> Qeq ==> eq) Qeq_bool.
Proof.
  intros a b Hab c d Hcd. apply eq_true_iff_eq. rewrite !Qeq_bool_iff. by rewrite Hab, Hcd.
Qed.

Lemma round18_units z : round18 (units z) = z.
Proof. apply round18_exact. Qed.

Lemma format_units q z : (q == units z)%Q -> formatDecimal q = fixed18 z.
Proof. intros Hq. unfold formatDecimal. by rewrite Hq, round18_units. Qed.

Lemma validDecimal_fixed z : validDecimal (fixed18 z) = true.
Proof. unfold validDecimal. rewrite fixed18_trim. apply fixed18_pattern. Qed.

Lemma parseDecimal_fixed z : parseDecimal (fixed18 z) = Ok (units z).
Proof. unfold parseDecimal. by rewrite validDecimal_fixed, parse_fixed18. Qed.

Lemma scaleDecimal_eq q : scaleDecimal q = units (round18 q).
Proof. unfold scaleDecimal, formatDecimal. by rewrite parseDecimal_fixed. Qed.

Lemma numeric_in_fixed text z z' : numeric_in text = Some z -> text = fixed18 z' -> z = z'.
Proof.
  intros H ->. unfold numeric_in in H. rewrite parse_fixed18 in H. rewrite round18_exact in H.
  destruct (numeric_fits z'); congruence.
Qed.

Definition total (l : list Z) : Z := foldr Z.add 0 l.

Lemma sumQ_units l (zs : list Z) : Forall2 (fun q z => (q == units z)%Q) l zs -> (sumQ l == units (total zs))%Q.
Proof.
  intros H. unfold sumQ. assert (Hg : forall a, (fold_left Qplus l a == a + units (total zs))%Q).
  { induction H as [|q z l zs Hq H IH]; intros a; cbn [fold_left].
    - assert (H0 : (units 0 == 0)%Q) by done. change (total []) with 0. rewrite H0. ring.
    - change (total (z :: zs)) with (z + total zs). rewrite IH, Hq, <- units_plus. ring. }
  rewrite Hg. ring.
Qed.

Lemma total_app a b : total (a ++ b) = total a + total b.
Proof. unfold total. induction a as [|x a IH]; cbn; [done|]. rewrite IH. lia. Qed.

#[export] Instance total_proper : Proper (Permutation ==> eq) total.
Proof. intros l l' H. unfold total. induction H; cbn; lia. Qed.

(** ** The maps of the scanning loop *)

(** A row that counts towards the valuation. *)
Definition usable (r : lineRow) (q : Q) : Prop :=
  is_Some (lr_valuation r) /\ lr_state r = Some "valid" /\
  exists text, lr_amount r = Some text /\ parseDecimal text = Ok q.

Record maps_ok (account : string) (rows : list lineRow) (m : lineMaps) : Prop := {
  mo_expected l : l ∈ expectedLines m <-> exists r, r ∈ rows /\ lr_line r = l /\ lr_account r = account;
  mo_account l v : accountLines m !! l = Some v ->
    exists r, r ∈ rows /\ lr_line r = l /\ lr_account r = account /\ usable r (val_amount v) /\
      val_id v = l /\ val_account v = account;
  mo_all l v : allLines m !! l = Some v -> val_account v = account -> accountLines m !! l = Some v;
}.

Lemma scan_row_ok account rows m r :
  (forall l v, allLines m !! l = Some v -> exists r', r' ∈ rows /\ lr_line r' = l /\ lr_account r' = val_account v) ->
  maps_ok account rows m ->
  maps_ok account (rows ++ [r]) (scan_row account m r) /\
  forall l v, allLines (scan_row account m r) !! l = Some v ->
    exists r', r' ∈ rows ++ [r] /\ lr_line r' = l /\ lr_account r' = val_account v.
Proof.
  intros Hall [He Ha Hal].
  assert (Hexp : forall l, l ∈ (if bool_decide (lr_account r = account) then {[lr_line r]} ∪ expectedLines m
      else expectedLines m) <-> exists r', r' ∈ rows ++ [r] /\ lr_line r' = l /\ lr_account r' = account).
  { intros l. assert (Hr : (exists r', r' ∈ rows ++ [r] /\ lr_line r' = l /\ lr_account r' = account) <->
      l ∈ expectedLines m \/ (lr_line r = l /\ lr_account r = account)).
    { rewrite He. split.
      - intros (r' & [Hin|Hin%list_elem_of_singleton]%elem_of_app & Hl & Hacc); [left; eauto|subst r'; by right].
      - intros [(r' & Hin & Hl & Hacc)|[Hl Hacc]]; [exists r'|exists r]; rewrite elem_of_app; [auto|].
        rewrite list_elem_of_singleton. auto. }
    rewrite Hr. case_bool_decide; set_solver. }
  assert (Hold : forall l v, accountLines m !! l = Some v -> exists r', r' ∈ rows ++ [r] /\ lr_line r' = l /\
      lr_account r' = account /\ usable r' (val_amount v) /\ val_id v = l /\ val_account v = account).
  { intros l v Hv. destruct (Ha l v Hv) as (r' & Hin & H). exists r'. rewrite elem_of_app. auto. }
  assert (Hallold : forall l v, allLines m !! l = Some v ->
      exists r', r' ∈ rows ++ [r] /\ lr_line r' = l /\ lr_account r' = val_account v).
  { intros l v Hv. destruct (Hall l v Hv) as (r' & Hin & H). exists r'. rewrite elem_of_app. auto. }
  unfold scan_row. destruct (lr_valuation r) as [vid|] eqn:Ev; [|by split].
  destruct (lr_amount r) as [text|] eqn:Et; [|by split].
  destruct (lr_state r) as [state|] eqn:Es; [|by split].
  destruct (bool_decide (state = "valid")) eqn:Estate; cbn [negb]; [|by split].
  apply bool_decide_eq_true in Estate. subst state.
  destruct (parseDecimal text) as [q|] eqn:Eq; [|by split].
  assert (Huse : usable r q) by (split; [by eexists|split; [done|by exists text]]).
  assert (Hrin : r ∈ rows ++ [r]) by (rewrite elem_of_app, list_elem_of_singleton; auto).
  split; [split; [exact Hexp| |]|]; cbn [expectedLines accountLines allLines].
  - intros l v. case_bool_decide as Hmine; [|apply Hold].
    destruct (decide (lr_line r = l)) as [<-|Hne]; [|rewrite lookup_insert_ne by done; apply Hold].
    rewrite lookup_insert_eq. intros [= <-]. exists r. cbn. auto 8.
  - intros l v. destruct (decide (lr_line r = l)) as [<-|Hne].
    + rewrite lookup_insert_eq. intros [= <-]. cbn. intros Hacc. rewrite bool_decide_true by done.
      by rewrite lookup_insert_eq.
    + rewrite lookup_insert_ne by done. intros Hv Hacc. case_bool_decide; [rewrite lookup_insert_ne by done|];
        by apply Hal.
  - intros l v. destruct (decide (lr_line r = l)) as [<-|Hne].
    + rewrite lookup_insert_eq. intros [= <-]. by exists r.
    + rewrite lookup_insert_ne by done. apply Hallold.
Qed.

Lemma scan_rows_ok account rows : maps_ok account rows (scan_rows account rows).
Proof.
  unfold scan_rows. assert (Hg : forall done m,
    maps_ok account done m ->
    (forall l v, allLines m !! l = Some v -> exists r', r' ∈ done /\ lr_line r' = l /\ lr_account r' = val_account v) ->
    maps_ok account (done ++ rows) (fold_left (scan_row account) rows m)).
  { induction rows as [|r rows IH]; intros done m Hm Hall; cbn [fold_left]; [by rewrite app_nil_r|].
    destruct (scan_row_ok account done m r Hall Hm) as [Hm' Hall'].
    specialize (IH (done ++ [r]) _ Hm' Hall'). by rewrite <- app_assoc in IH. }
  apply (Hg [] empty_maps); [split|]; cbn.
  - intros l. split; [set_solver|]. intros (r & Hr & _). by apply not_elem_of_nil in Hr.
  - intros l v. by rewrite lookup_empty.
  - intros l v. by rewrite lookup_empty.
  - intros l v. by rewrite lookup_empty.
Qed.

(** ** What the account's lines are worth *)

Definition line_amount (currency : string) (vl : ValuationLineRow) : option Z :=
  if bool_decide (currency = CurrencyTRY) then vl_try_amount vl else vl_usd_amount vl.

(** The amounts, in one currency, of the account's lines of a snapshot. *)
Record amounts_of (s : tables) (run snapshot account currency : string) (am : gmap string Z) : Prop := {
  ao_dom l : is_Some (am !! l) <->
    exists sl, snapshot_lines s !! l = Some sl /\ sl_snapshot sl = snapshot /\ sl_account sl = account;
  ao_value l z : am !! l = Some z -> exists vid vl, valuation_lines s !! vid = Some vl /\
    vl_run vl = run /\ vl_snapshot_line vl = l /\ vl_state vl = "valid" /\ line_amount currency vl = Some z;
}.

Definition amounts (m : lineMaps) : gmap string Z := (fun v => round18 (val_amount v)) <$> accountLines m.

Lemma join_rows_elem run currency s sl r :
  r ∈ join_rows run currency s sl ->
  lr_line r = fst sl /\ lr_account r = sl_account (snd sl) /\
  (is_Some (lr_valuation r) -> exists vid vl, valuation_lines s !! vid = Some vl /\ vl_run vl = run /\
     vl_snapshot_line vl = fst sl /\ lr_amount r = (numeric_out <$> line_amount currency vl) /\
     lr_state r = Some (vl_state vl)).
Proof.
  unfold join_rows. destruct (select _ _ (valuation_lines s)) as [|vl0 vls] eqn:E.
  - intros ->%list_elem_of_singleton. split; [done|]. split; [done|]. by intros [? ?].
  - rewrite <- E. intros ([vid vl] & -> & Hin)%list_elem_of_fmap. split; [done|]. split; [done|].
    intros _. apply select_elem in Hin as [Hl Hp]. apply andb_prop in Hp as [H1 H2]. bool_simp.
    exists vid, vl. split_and!; done.
Qed.

Lemma join_rows_nonempty run currency s sl : exists r, r ∈ join_rows run currency s sl.
Proof.
  unfold join_rows. destruct (select _ _ (valuation_lines s)) as [|vl0 vls]; eexists; left.
Qed.

Lemma lines_of_elem snapshot s l sl :
  (l, sl) ∈ lines_of snapshot s <-> snapshot_lines s !! l = Some sl /\ sl_snapshot sl = snapshot.
Proof. unfold lines_of. by rewrite select_elem, bool_decide_eq_true. Qed.

Section lines.
Context (s : tables) (run snapshot account currency : string).
Abbreviation rows := (lines_of snapshot s ≫= join_rows run currency s).

Lemma rows_elem r : r ∈ rows <-> exists sl, sl ∈ lines_of snapshot s /\ r ∈ join_rows run currency s sl.
Proof. rewrite list_elem_of_bind. naive_solver. Qed.

Lemma expected_lines l :
  l ∈ expectedLines (scan_rows account rows) <->
  exists sl, snapshot_lines s !! l = Some sl /\ sl_snapshot sl = snapshot /\ sl_account sl = account.
Proof.
  rewrite (mo_expected _ _ _ (scan_rows_ok account rows)). split.
  - intros (r & Hr & <- & <-). apply rows_elem in Hr as ([l sl] & Hin & Hr).
    apply join_rows_elem in Hr as (-> & -> & _). apply lines_of_elem in Hin as [??]. by exists sl.
  - intros (sl & Hl & Hs & <-). destruct (join_rows_nonempty run currency s (l, sl)) as [r Hr].
    exists r. apply join_rows_elem in Hr as Hr'. destruct Hr' as (-> & -> & _). split; [|done].
    apply rows_elem. exists (l, sl). split; [|done]. by apply lines_of_elem.
Qed.

Lemma account_line_value l v :
  accountLines (scan_rows account rows) !! l = Some v ->
  val_id v = l /\ val_account v = account /\ exists z, val_amount v = units z /\ exists vid vl,
    valuation_lines s !! vid = Some vl /\ vl_run vl = run /\ vl_snapshot_line vl = l /\
    vl_state vl = "valid" /\ line_amount currency vl = Some z.
Proof.
  intros Hv. destruct (mo_account _ _ _ (scan_rows_ok account rows) _ _ Hv)
    as (r & Hin & Hl & Ha & (Hval & Hst & text & Ht & Hq) & Hid & Hacc).
  split; [done|]. split; [done|]. apply rows_elem in Hin as (sl & _ & Hr).
  apply join_rows_elem in Hr as (Hl' & _ & Hj). destruct (Hj Hval) as (vid & vl & H1 & H2 & H3 & H4 & H5).
  rewrite Ht in H4. symmetry in H4. apply fmap_Some in H4 as (z & Hz & ->). unfold numeric_out in Hq.
  rewrite parseDecimal_fixed in Hq. exists z. split; [congruence|]. exists vid, vl.
  split_and!; try done; congruence.
Qed.

Lemma first_error_None {A} (f : A -> option goerr) l : first_error f l = None <-> forall x, x ∈ l -> f x = None.
Proof.
  induction l as [|x l IH]; cbn; [split; [|done]; intros _ x Hx; by apply not_elem_of_nil in Hx|].
  destruct (f x) eqn:E; [split; [done|]; intros H; rewrite <- E; apply H; left|]. rewrite IH. split.
  - intros H y [->|Hy]%elem_of_cons; auto.
  - intros H y Hy. apply H. by right.
Qed.

Lemma amounts_spec shuffle portfolio info :
  (forall l : list string, shuffle l ≡ₚ l) ->
  lines_error shuffle portfolio info (scan_rows account rows) = None ->
  expectedLines (scan_rows account rows) <> ∅ /\
  amounts_of s run snapshot account currency (amounts (scan_rows account rows)).
Proof.
  intros Hsh. unfold lines_error. case_bool_decide as Hne; [case_bool_decide; done|].
  rewrite first_error_None. intros H. split; [done|].
  assert (Hdom : forall l, is_Some (accountLines (scan_rows account rows) !! l) <->
                           l ∈ expectedLines (scan_rows account rows)).
  { intros l. split.
    - intros [v Hv]. destruct (mo_account _ _ _ (scan_rows_ok account rows) _ _ Hv) as (r & Hin & Hl & Ha & _).
      apply (mo_expected _ _ _ (scan_rows_ok account rows)). by exists r.
    - intros Hl. specialize (H l). rewrite Hsh, elem_of_elements in H. specialize (H Hl).
      unfold expected_error in H. destruct (1 <? _); [done|]. destruct (_ =? 0); [done|].
      case_bool_decide; [done|]. case_bool_decide as Hn; [done|].
      destruct (accountLines (scan_rows account rows) !! l); [by eexists|done]. }
  unfold amounts. split.
  - intros l. rewrite lookup_fmap, fmap_is_Some, Hdom. apply expected_lines.
  - intros l z. rewrite lookup_fmap. intros (v & Hv & ->)%fmap_Some.
    destruct (account_line_value l v Hv) as (_ & _ & z & Hz & vid & vl & H1 & H2 & H3 & H4 & H5).
    exists vid, vl. rewrite Hz, round18_units. done.
Qed.

Lemma nav_spec :
  (nav_of (scan_rows account rows) == units (total (snd <$> map_to_list (amounts (scan_rows account rows)))))%Q.
Proof.
  unfold nav_of, amounts. set (m := scan_rows account rows). apply sumQ_units.
  rewrite map_to_list_fmap, <- list_fmap_compose.
  assert (H : Forall (fun kv => (val_amount (snd kv) == units (round18 (val_amount (snd kv))))%Q)
                (map_to_list (accountLines m))).
  { apply Forall_forall. intros [l v] Hin. apply elem_of_map_to_list in Hin. cbn [snd].
    destruct (account_line_value l v Hin) as (_ & _ & z & -> & _). by rewrite round18_units. }
  induction H as [|kv l Hkv H IH]; cbn; constructor; auto.
Qed.
End lines.

(** ** Line checks *)

(** A check against a line worth [z], with an external amount of [e]. *)
Definition exact_check (am : gmap string Z) (c : LineCheck) (e : Z) : Prop :=
  exists z, am !! SnapshotLineID c = Some z /\
    c = mkLineCheck (SnapshotLineID c) (fixed18 e) (fixed18 z) (fixed18 (e - z)) (fixed18 (Z.abs (e - z))).

Definition check_of (am : gmap string Z) (i : LineCheckInput) (ce : LineCheck * Z) : Prop :=
  SnapshotLineID (fst ce) = InSnapshotLineID i /\ exact_check am (fst ce) (snd ce) /\
  exists q, parse_rat (InExternalAmount i) = Some q /\ snd ce = round18 q.

Lemma parseDecimal_inv v q : parseDecimal v = Ok q -> validDecimal v = true /\ parse_rat v = Some q.
Proof.
  unfold parseDecimal. destruct (validDecimal v); cbn [negb]; [|done].
  destruct (parse_rat v); [|done]. by intros [= ->].
Qed.

Lemma make_check_exact am line e z :
  am !! val_id line = Some z -> val_amount line = units z -> exact_check am (make_check line (units e)) e.
Proof.
  intros Hz Hv. exists z. split; [done|]. unfold make_check. cbv zeta. rewrite Hv.
  cbn [SnapshotLineID].
  f_equal; apply format_units; [done..|apply units_minus|]. exact (Qeq_trans _ _ _ (Qabs_wd _ _ (units_minus e z)) (units_abs _)).
Qed.

Lemma check_lines_wp uuid_text snapshot account m inputs tot results c w fs (Q : res (Q * list LineCheck) -> db tables -> Prop) :
  (forall l v, allLines m !! l = Some v -> val_account v = account ->
     val_id v = l /\ exists z, val_amount v = units z /\ amounts m !! l = Some z) ->
  (forall e fs', Q (Err e) (Db c w fs')) ->
  (forall ces total' fs', Forall2 (check_of (amounts m)) inputs ces ->
     (total' == tot + units (total ces.*2))%Q ->
     Q (Ok (total', results ++ ces.*1)) (Db c w fs')) ->
  wp (check_lines uuid_text snapshot account m inputs tot results) Q (Db c w fs).
Proof.
  intros Hm He. revert tot results fs. induction inputs as [|i inputs IH]; intros tot results fs HQ; cbn [check_lines].
  { apply wp_ret. rewrite <- (app_nil_r results). apply (HQ []); [constructor|].
    change (total (([] : list (LineCheck * Z)).*2)) with 0. assert (H0 : (units 0 == 0)%Q) by done.
    rewrite H0. ring. }
  destruct (allLines m !! InSnapshotLineID i) as [line|] eqn:El; cycle 1.
  { apply wp_bind, wp_attempt, wp_query; intros fs1; [apply wp_throw, He|].
    destruct (select_line_account _ _ _ _) as [a|e]; [case_bool_decide|destruct (errors_is e ENoRows)];
      apply wp_throw, He. }
  destruct (bool_decide (val_account line = account)) eqn:Ea; cbn [negb]; [|apply wp_throw, He].
  apply bool_decide_eq_true in Ea. destruct (Hm _ _ El Ea) as (Hid & z & Hv & Hz).
  destruct (parseDecimal (InExternalAmount i)) as [q|] eqn:Eq; [|apply wp_throw, He].
  apply parseDecimal_inv in Eq as [_ Hq]. cbv zeta. rewrite scaleDecimal_eq.
  apply IH. intros ces total' fs' Hces Htot.
  replace (_ ++ ces.*1) with (results ++ ((make_check line (units (round18 q)), round18 q) :: ces).*1)
    by (cbn; by rewrite <- app_assoc).
  apply HQ.
  - constructor; [|done]. split; [done|]. split; [|by exists q].
    eapply make_check_exact; [by rewrite Hid|done].
  - rewrite Htot. rewrite fmap_cons. cbn [snd].
    change (total (round18 q :: ces.*2)) with (round18 q + total ces.*2). rewrite <- units_plus. ring.
Qed.

Lemma units_abs_minus a b : (Qabs (units a - units b) == units (Z.abs (a - b)))%Q.
Proof. exact (Qeq_trans _ _ _ (Qabs_wd _ _ (units_minus a b)) (units_abs _)). Qed.

(** ** The default tolerance *)

(** Rounding a quotient of units by a positive integer. *)
Lemma round18_div k d : 0 <= k -> 0 < d ->
  round18 (units k / (d # 1))%Q = (2 * k + d) / (2 * d).
Proof.
  intros Hk Hd. set (v := (units k / (d # 1))%Q).
  assert (Hv : (v == k # Z.to_pos (scale18 * d))%Q).
  { unfold v, units. destruct d as [|p|p]; [lia| |lia]. unfold Qeq, Qdiv, Qmult, Qinv. cbn [Qnum Qden].
    rewrite !Z2Pos.inj_mul by (unfold scale18; lia). cbn. lia. }
  destruct (round18_spec v) as [H1 H2]. pose proof (Denom_pos v) as HD.
  pose proof (Qeq_trans _ _ _ (Num_Denom v) Hv) as Hnd.
  assert (Hcross : Num v * (scale18 * d) = k * Denom v).
  { unfold Qeq, Qdiv, inject_Z, Qmult, Qinv in Hnd. destruct (Denom v) as [|p|p]; [lia| |lia].
    cbn [Qnum Qden] in Hnd. rewrite Z2Pos.id in Hnd by (unfold scale18; lia). lia. }
  set (r := round18 v) in *. set (D := Denom v) in *. set (NS := Num v * scale18) in *.
  assert (HNS : NS * d = k * D) by (unfold NS; nia). clearbody r D NS.
  apply Z.div_unique with (2 * k + d - 2 * (r * d)); [|ring]. left.
  assert (He : (r * D - NS) * d = D * (r * d - k)) by nia.
  assert (Habs : 2 * Z.abs (r * d - k) <= d) by nia.
  assert (Hns : 0 <= NS) by nia.
  destruct (Z.eq_dec (2 * Z.abs (r * d - k)) d) as [Htie|Hno]; [|lia].
  assert (Ht : 2 * Z.abs (r * D - NS) = D) by nia. specialize (H2 Ht).
  assert (Hr0 : 0 <= r) by nia. rewrite !Z.abs_eq in H2 by nia. assert (k < r * d) by nia. lia.
Qed.

(** One hundredth or one basis point of the external value, whichever is
    more. *)
Definition default_units (e : Z) : Z := Z.max (10 ^ 16) ((2 * Z.abs e + 10000) / 20000).

Lemma default_tolerance_units e : round18 (defaultTolerance (units e)) = default_units e.
Proof.
  unfold defaultTolerance, default_units. change (Qabs (units e)) with (units (Z.abs e)). cbv zeta.
  assert (Hmin : (1 # 100 == units (10 ^ 16))%Q) by done.
  assert (Hbp : (units (Z.abs e) / (10000 # 1) == Z.abs e # Z.to_pos (scale18 * 10000))%Q).
  { unfold units, Qeq, Qdiv, Qmult, Qinv. cbn [Qnum Qden]. rewrite !Z2Pos.inj_mul by done. cbn. lia. }
  assert (Hle : Qle_bool (units (Z.abs e) / (10000 # 1)) (1 # 100) = (Z.abs e <=? 10 ^ 20)).
  { rewrite Hbp, Hmin. unfold Qle_bool, units. cbn [Qnum Qden].
    rewrite !Z2Pos.id by done. unfold scale18. apply eq_true_iff_eq. rewrite !Z.leb_le. lia. }
  rewrite Hle. pose proof (Z.abs_nonneg e) as Ha.
  destruct (Z.leb_spec (Z.abs e) (10 ^ 20)) as [Hs|Hb]; cbn [negb].
  - rewrite Hmin, round18_units. rewrite Z.max_l; [done|].
    apply Z.lt_succ_r, Z.div_lt_upper_bound; lia.
  - rewrite round18_div by lia. rewrite Z.max_r; [f_equal; lia|].
    apply Z.div_le_lower_bound; lia.
Qed.

(** ** The tolerance in force *)

Definition in_force (s : tables) (account : string) (e version amount : Z) : Prop :=
  (exists id r, tolerances s !! id = Some r /\ tv_account r = account /\ tv_version r = version /\
     tv_amount r = amount /\
     forall id' r', tolerances s !! id' = Some r' -> tv_account r' = account -> tv_version r' <= version) \/
  ((forall id r, tolerances s !! id = Some r -> tv_account r <> account) /\
   version = 0 /\ amount = default_units e).

Lemma versions_head account s id r rest :
  versions_of account s = (id, r) :: rest ->
  tolerances s !! id = Some r /\ tv_account r = account /\
  forall id' r', tolerances s !! id' = Some r' -> tv_account r' = account -> tv_version r' <= tv_version r.
Proof.
  intros H. assert (Hin : (id, r) ∈ versions_of account s) by (rewrite H; left).
  unfold versions_of in Hin. apply select_elem in Hin as [Hl Hp]. bool_simp.
  split; [done|]. split; [done|]. intros id' r' Hl' Ha. unfold versions_of, select in H.
  apply (sorted_head _ _ _ _ (id', r')) in H.
  - unfold before, desc in H. cbn [fst snd] in H.
    destruct (Z.compare_spec (tv_version r) (tv_version r')); [lia|done|lia].
  - apply list_elem_of_In, filter_In. rewrite <- list_elem_of_In, elem_of_map_to_list. split; [done|].
    by apply bool_decide_eq_true.
Qed.

Lemma versions_none account s :
  versions_of account s = [] -> forall id r, tolerances s !! id = Some r -> tv_account r <> account.
Proof.
  intros H id r Hl Ha. assert (Hin : (id, r) ∈ versions_of account s).
  { unfold versions_of. apply select_elem. split; [done|]. by apply bool_decide_eq_true. }
  rewrite H in Hin. by apply not_elem_of_nil in Hin.
Qed.

Lemma effective_wp uuid_text account e c w fs (Q : res (Z * Q) -> db tables -> Prop) :
  (forall er fs', Q (Err er) (Db c w fs')) ->
  (forall a version amount fs', uuid_text account = Some a -> in_force w a e version amount ->
     Q (Ok (version, units amount)) (Db c w fs')) ->
  wp (effective_tolerance uuid_text account (units e)) Q (Db c w fs).
Proof.
  intros He Hok. unfold effective_tolerance. apply wp_bind, wp_attempt, wp_query; intros fs1.
  { apply wp_bind. cbn. apply wp_throw, He. }
  unfold select_tolerance. destruct (uuid_text account) as [a|] eqn:Ea; [|apply wp_bind, wp_throw, He].
  destruct (versions_of a w) as [|[id r] rest] eqn:Ev.
  - apply wp_bind, wp_ret. apply wp_bind, wp_wrap, wp_of_res. cbn [snd fst]. unfold formatDecimal.
    rewrite parseDecimal_fixed. apply wp_ret. rewrite default_tolerance_units. eapply Hok; [done|].
    right. split; [by apply versions_none|done].
  - apply wp_bind, wp_ret. apply wp_bind, wp_wrap, wp_of_res. cbn [snd fst]. unfold numeric_out.
    rewrite parseDecimal_fixed. apply wp_ret. eapply Hok; [done|]. left.
    destruct (versions_head _ _ _ _ _ Ev) as (H1 & H2 & H3). by exists id, r.
Qed.

(** ** The body of a checkpoint *)

Lemma amounts_size m : size (amounts m) = size (accountLines m).
Proof. unfold amounts. apply map_size_fmap. Qed.

(** What the line checks of a request amount to. *)
Definition checks_ok (request : Request) (am : gmap string Z) (e : Z) (state : string)
    (checks : list LineCheck) : Prop :=
  exists ces, Forall2 (check_of am) (ReqLineChecks request) ces /\ checks = ces.*1 /\
    (state = LineCheckNone <-> checks = []) /\
    (state = LineCheckPartial \/ state = LineCheckComplete <-> checks <> []) /\
    (state = LineCheckComplete <-> checks <> [] /\ length checks = size am) /\
    (state = LineCheckComplete -> total ces.*2 = e) /\
    (LineChecksComplete request = true -> state = LineCheckComplete).

Lemma run_checks_wp uuid_text request snapshot m e c w fs (Q : res (string * list LineCheck) -> db tables -> Prop) :
  (forall l v, allLines m !! l = Some v -> val_account v = ReqAccountID request ->
     val_id v = l /\ exists z, val_amount v = units z /\ amounts m !! l = Some z) ->
  (forall er fs', Q (Err er) (Db c w fs')) ->
  (forall state checks fs', checks_ok request (amounts m) e state checks ->
     Q (Ok (state, checks)) (Db c w fs')) ->
  wp (run_checks uuid_text request snapshot m (units e)) Q (Db c w fs).
Proof.
  intros Hm He Hok. unfold run_checks. destruct (ReqLineChecks request) as [|i inputs] eqn:Ei.
  { destruct (LineChecksComplete request) eqn:Ec; [apply wp_throw, He|]. apply wp_ret, Hok.
    exists []. rewrite Ei, Ec. split; [constructor|]. split_and!; try done; naive_solver. }
  apply wp_bind, check_lines_wp; [done|done|]. intros ces total' fs' Hces Htot. cbn [fst snd app].
  assert (Hlen : length (ces.*1) = length (i :: inputs)).
  { rewrite length_fmap. symmetry. by eapply Forall2_length. }
  assert (Hne : ces.*1 <> []) by (intros H; rewrite H in Hlen; done).
  assert (Htot' : (total' == units (total ces.*2))%Q).
  { rewrite Htot. ring. }
  rewrite <- Ei in Hces. rewrite <- Hlen, <- amounts_size.
  destruct (decide (length ces.*1 = size (amounts m))) as [Hfull|Hpart].
  - rewrite bool_decide_true by done. destruct (Qeq_bool total' (units e)) eqn:Eq; cbn [negb]; [|apply wp_throw, He].
    apply wp_ret, Hok. exists ces. apply Qeq_bool_iff in Eq. rewrite Htot', units_eq in Eq.
    split_and!; try done; naive_solver.
  - rewrite bool_decide_false by done.
    destruct (LineChecksComplete request) eqn:Ec; [apply wp_throw, He|].
    apply wp_ret, Hok. exists ces. rewrite Ec. split_and!; try done; naive_solver.
Qed.

(** What [persist] leaves behind. *)
Record persisted (uuid_text : string -> option string) (gen : nat -> string) (now : time) (cp0 cp : Checkpoint)
    (w s' : tables) : Prop := {
  pe_cp : cp = with_identity (gen 0%nat, now) cp0;
  pe_stored : exists row rows, let ids := gen <$> seq 1 (length (LineChecks cp0)) in
    checkpoint_row uuid_text cp0 now = Some row /\ checkpoint_trigger row w = true /\
    checkpoints w !! gen 0%nat = None /\
    Forall2 (fun c r => line_check_row uuid_text (gen 0%nat) c = Some r) (LineChecks cp0) rows /\
    NoDup ids /\ Forall (fun id => line_checks w !! id = None) ids /\
    s' = set_line_checks (set_checkpoints w (<[gen 0%nat := row]> (checkpoints w)))
           (list_to_map (zip ids rows) ∪ line_checks w);
}.

(** The loop over the checks, on the table it fills. *)
Definition checks_inserted (uuid_text : string -> option string) (checkpointID : string) (w : tables)
    (done : list (string * LineCheck)) (s : tables) : Prop :=
  exists rows, Forall2 (fun c r => line_check_row uuid_text checkpointID c = Some r) done.*2 rows /\
    NoDup done.*1 /\ Forall (fun id => line_checks w !! id = None) done.*1 /\
    s = set_line_checks w (list_to_map (zip done.*1 rows) ∪ line_checks w).

Lemma insert_line_check_inv uuid_text id cid c s u s' :
  insert_line_check uuid_text id cid c s = (Ok u, s') -> exists r, line_check_row uuid_text cid c = Some r /\
    line_checks s !! id = None /\ s' = set_line_checks s (<[id := r]> (line_checks s)).
Proof.
  unfold insert_line_check. destruct (line_check_row uuid_text cid c) as [r|]; [|done].
  destruct (_ && _) eqn:E; [|done]. intros [= _ <-]. bool_simp. by exists r.
Qed.

Lemma checks_inserted_snoc uuid_text cid w done ic s s' u :
  checks_inserted uuid_text cid w done s -> insert_line_check uuid_text (fst ic) cid (snd ic) s = (Ok u, s') ->
  checks_inserted uuid_text cid w (done ++ [ic]) s'.
Proof.
  intros (rows & Hrows & Hnd & Hfresh & ->) (r & Hr & Hnone & ->)%insert_line_check_inv.
  cbn [line_checks set_line_checks] in *. apply lookup_union_None in Hnone as [Hn1 Hn2].
  assert (Hlen : length done.*1 = length rows).
  { rewrite length_fmap, <- (length_fmap snd). by eapply Forall2_length. }
  apply not_elem_of_list_to_map_2 in Hn1. rewrite fst_zip in Hn1 by lia.
  exists (rows ++ [r]). rewrite !fmap_app. cbn [fmap list_fmap]. split_and!.
  - apply Forall2_app; [done|]. by constructor.
  - apply NoDup_app. split; [done|]. split; [|apply NoDup_singleton].
    intros x Hx ->%list_elem_of_singleton. done.
  - apply Forall_app. split; [done|]. by constructor.
  - rewrite zip_with_app by done. cbn [zip_with]. f_equal.
    rewrite list_to_map_snoc by by rewrite fst_zip by lia. by rewrite insert_union_l.
Qed.

Lemma insert_checkpoint_inv uuid_text id now cp s a s' :
  insert_checkpoint uuid_text id now cp s = (Ok a, s') -> a = (id, now) /\ exists row,
    checkpoint_row uuid_text cp now = Some row /\ checkpoint_trigger row s = true /\
    checkpoints s !! id = None /\ s' = set_checkpoints s (<[id := row]> (checkpoints s)).
Proof.
  unfold insert_checkpoint. destruct (checkpoint_row uuid_text cp now) as [row|]; [|done].
  destruct (_ && _) eqn:E; [|done]. intros [= <- <-]. bool_simp. split; [done|]. by exists row.
Qed.

Lemma zip_gen_snd {B} (gen : nat -> string) n (l : list B) :
  n = length l -> (zip_with pair (gen <$> seq 1 n) l).*2 = l /\
                  (zip_with pair (gen <$> seq 1 n) l).*1 = gen <$> seq 1 n.
Proof. intros ->. split; [apply snd_zip|apply fst_zip]; by rewrite length_fmap, length_seq. Qed.

Lemma persist_checkpoint_wp uuid_text gen now cp c w fs (Q : res Checkpoint -> db tables -> Prop) :
  (forall e w' fs', Q (Err e) (Db c w' fs')) ->
  (forall cp' s' fs', persisted uuid_text gen now cp cp' w s' -> Q (Ok cp') (Db s' s' fs')) ->
  wp (persist uuid_text gen now cp) Q (Db c w fs).
Proof.
  intros He Hok. unfold persist. apply wp_bind, wp_wrap, wp_stmt; [auto| |auto].
  intros fs1 a w1 Hins. apply insert_checkpoint_inv in Hins as (-> & row & Hrow & Htr & Hnone & Hw1).
  apply wp_bind. cbn [fst].
  destruct (zip_gen_snd gen _ (LineChecks cp) eq_refl) as [Hz2 Hz1].
  apply (wp_iter _ (checks_inserted uuid_text (gen 0%nat) w1) c _ _ []); [|auto| |].
  - exists []. split; [constructor|]. split; [constructor|]. split; [constructor|].
    cbn. rewrite map_empty_union. by destruct w1.
  - intros done1 ic w2 fs2 HI. unfold store_line_check. apply wp_wrap, wp_stmt; [eauto| |eauto].
    intros fs3 u w3 Hins. exists w3, fs3. split; [done|]. by eapply checks_inserted_snoc.
  - intros w2 fs2 (rows & Hrows & Hnd & Hfresh & Hw2). cbn [app] in *. rewrite Hz2 in Hrows.
    rewrite Hz1 in Hnd, Hfresh, Hw2. apply wp_bind, wp_wrap, wp_commit; [auto|]. intros fs3.
    apply wp_ret, Hok. split; [done|]. exists row, rows. rewrite Hw1 in Hw2, Hfresh. by split_and!.
Qed.

(** ** A successful call *)

(** No snapshot line is given twice. *)
Definition input_distinct (request : Request) : Prop := NoDup (InSnapshotLineID <$> ReqLineChecks request).

Lemma input_error_None scan_uuid seen inputs :
  input_error scan_uuid seen inputs = None ->
  NoDup (InSnapshotLineID <$> inputs) /\ Forall (fun i => InSnapshotLineID i ∉ seen) inputs.
Proof.
  revert seen. induction inputs as [|i inputs IH]; intros seen; cbn [input_error].
  { intros _. split; constructor. }
  destruct (_ || _); [done|]. case_bool_decide as Hin; [done|]. intros [Hnd Hall]%IH. split.
  - rewrite fmap_cons. apply NoDup_cons. split; [|done]. intros (j & Hj & Hjin)%list_elem_of_fmap.
    rewrite Forall_forall in Hall. specialize (Hall j Hjin). set_solver.
  - constructor; [done|]. eapply Forall_impl; [exact Hall|]. intros j Hj. set_solver.
Qed.

Record created (uuid_text : string -> option string) (gen : nat -> string) (now : time)
    (valuationID : string) (request : Request) (s s' : tables) (cp : Checkpoint) : Prop := {
  cr_work : exists info e version amount am state checks a,
    uuid_text valuationID = Some (vi_id info) /\
    select_valuation uuid_text valuationID s = Ok info /\ valuation_error info request = None /\
    (exists q, parse_rat (ReqExternalNAV request) = Some q /\ e = round18 q) /\
    amounts_of s (vi_id info) (vi_snapshot info) (ReqAccountID request) (ReqCurrency request) am /\
    (exists l, is_Some (am !! l)) /\
    uuid_text (ReqAccountID request) = Some a /\ in_force s a e version amount /\
    checks_ok request am e state checks /\ input_distinct request /\
    exists nav, (nav == units (total (snd <$> map_to_list am)))%Q /\
    persisted uuid_text gen now
      (make_checkpoint valuationID request (units e) nav (version, units amount) (state, checks)) cp s s';
}.

Lemma run_checks_values s run snapshot account currency l v :
  allLines (scan_rows account (lines_of snapshot s ≫= join_rows run currency s)) !! l = Some v ->
  val_account v = account ->
  val_id v = l /\ exists z, val_amount v = units z /\
    amounts (scan_rows account (lines_of snapshot s ≫= join_rows run currency s)) !! l = Some z.
Proof.
  intros Hv Ha. apply (mo_all _ _ _ (scan_rows_ok account _) _ _) in Hv; [|done].
  destruct (account_line_value _ _ _ _ _ _ _ Hv) as (Hid & _ & z & Hz & _). split; [done|].
  exists z. split; [done|]. unfold amounts. by rewrite lookup_fmap, Hv; cbn; rewrite Hz, round18_units.
Qed.

Lemma validRequest_nav scan_uuid r : validRequest scan_uuid r = true -> validDecimal (ReqExternalNAV r) = true.
Proof. unfold validRequest. intros H. by bool_simp. Qed.

Lemma select_valuation_ok uuid_text id s info :
  select_valuation uuid_text id s = Ok info -> uuid_text id = Some (vi_id info).
Proof.
  unfold select_valuation. destruct (uuid_text id) as [v|]; [|done].
  destruct (valuation_runs s !! v) as [vr|]; [|done]. cbn. destruct (snapshots s !! vr_snapshot vr) as [ps|]; [|done].
  cbn. destruct (portfolios s !! ps_portfolio ps); [|done]. by intros [= <-].
Qed.

Lemma checkpoint_created pool scan_uuid uuid_text shuffle gen now valuationID request fs s cp s' :
  (forall l : list string, shuffle l ≡ₚ l) ->
  run (Create pool scan_uuid uuid_text shuffle gen now valuationID request) fs s = (Ok cp, s') ->
  created uuid_text gen now valuationID (normalize request) s s' cp.
Proof.
  intros Hsh Hrun. run_ok_wp Hrun. unfold Create. set (r := normalize request).
  destruct (negb pool || _ || _); [by wp_step|]. cbv zeta. fold r.
  destruct (parseDecimal (ReqExternalNAV r)) as [q|] eqn:Eq; [|by wp_step].
  apply parseDecimal_inv in Eq as [_ Hq]. rewrite scaleDecimal_eq. set (e := round18 q).
  wp_step. unfold throw_if at 1. destruct (input_error scan_uuid ∅ _) eqn:Ein; [by wp_step|].
  apply input_error_None in Ein as [Hnd _]. do 4 wp_step; [done|].
  unfold row_or. repeat wp_step; [done|]. destruct (select_account _ _ _) as [portfolio|er] eqn:Eacc;
    [|by destruct (errors_is er ENoRows); wp_step].
  repeat wp_step; [done|]. destruct (select_valuation _ _ _) as [info|er] eqn:Einfo;
    [|by destruct (errors_is er ENoRows); wp_step].
  pose proof (select_valuation_ok _ _ _ _ Einfo) as Hid.
  repeat wp_step. unfold throw_if at 1. destruct (valuation_error info r) eqn:Everr; [by wp_step|].
  repeat wp_step; [done|]. unfold select_lines. rewrite Hid.
  wp_step. set (m := scan_rows _ _).
  unfold throw_if. destruct (lines_error _ _ _ m) eqn:Elines; [by wp_step|]. wp_step.
  destruct (amounts_spec _ _ _ _ (ReqCurrency r) _ _ _ Hsh Elines) as [Hne Ham].
  wp_step. apply effective_wp; [done|]. intros a version amount fsa Ha Hforce.
  wp_step. apply run_checks_wp; [apply run_checks_values|done|]. intros state checks fsb Hchecks.
  apply persist_checkpoint_wp; [done|]. intros cp' s2 fsc Hp x [= <-]. cbn [committed].
  split. exists info, e, version, amount, (amounts m), state, checks, a. split_and!; try done.
  - by exists q.
  - apply set_choose_L in Hne as [l Hl]. exists l. apply (ao_dom _ _ _ _ _ _ Ham). by apply expected_lines in Hl.
  - eexists. split; [apply nav_spec|done].
Qed.

(** ** The figures *)

Lemma make_checkpoint_figures valuationID r e nav v version amount state checks :
  (nav == units v)%Q ->
  let cp := make_checkpoint valuationID r (units e) nav (version, units amount) (state, checks) in
  let d := Z.abs (e - v) in
  ExternalNAV cp = fixed18 e /\ ValuationNAV cp = fixed18 v /\ AbsoluteDifference cp = fixed18 d /\
  RelativeDifference cp = (if e =? 0 then None else Some (fixed18 (round18 (d # Z.to_pos (Z.abs e))))) /\
  EffectiveTolerance cp = fixed18 amount /\
  (CpState cp = StateReconciled <-> d <= amount) /\ (CpState cp = StateUnreconciled <-> amount < d).
Proof.
  intros Hnav cp d. assert (Habs : (Qabs (units e - nav) == units d)%Q).
  { etransitivity; [apply Qabs_wd; by rewrite Hnav|]. apply units_abs_minus. }
  subst cp. unfold make_checkpoint. cbn [ExternalNAV ValuationNAV AbsoluteDifference RelativeDifference
    EffectiveTolerance CpState fst snd].
  split; [by apply format_units|]. split; [by apply format_units|]. split; [by apply format_units|].
  split; [|split; [by apply format_units|]].
  - assert (Hz : Qeq_bool (units e) 0 = (e =? 0)).
    { apply eq_true_iff_eq. rewrite Qeq_bool_iff, Z.eqb_eq. unfold units, Qeq. cbn [Qnum Qden]. lia. }
    rewrite Hz. destruct (Z.eqb_spec e 0) as [|Hne]; [done|]. f_equal. unfold formatDecimal. f_equal.
    rewrite Habs. change (Qabs (units e)) with (units (Z.abs e)).
    assert (Hd : (units d / units (Z.abs e) == d # Z.to_pos (Z.abs e))%Q); [|by rewrite Hd].
    unfold units, Qeq, Qdiv, Qmult, Qinv. cbn [Qnum Qden]. destruct (Z.abs e) as [|p|p] eqn:Ep; [lia| |lia].
    cbn [Qnum Qden Z.to_pos]. rewrite !Pos2Z.inj_mul. lia.
  - rewrite Habs, units_le. destruct (Z.leb_spec d amount); split; split; (done || lia).
Qed.

Lemma created_cp uuid_text gen now valuationID r s s' cp :
  created uuid_text gen now valuationID r s s' cp ->
  exists info e version amount am state checks a nav,
    uuid_text valuationID = Some (vi_id info) /\ select_valuation uuid_text valuationID s = Ok info /\
    valuation_error info r = None /\
    amounts_of s (vi_id info) (vi_snapshot info) (ReqAccountID r) (ReqCurrency r) am /\
    checks_ok r am e state checks /\ uuid_text (ReqAccountID r) = Some a /\
    (nav == units (total (snd <$> map_to_list am)))%Q /\
    persisted uuid_text gen now
      (make_checkpoint valuationID r (units e) nav (version, units amount) (state, checks)) cp s s'.
Proof.
  intros [(info & e & version & amount & am & state & checks & a & ?&?&?&?&?&?&?&?&?&?& nav &?&?)].
  exists info, e, version, amount, am, state, checks, a, nav. by split_and!.
Qed.

Lemma select_valuation_inv uuid_text id s info :
  select_valuation uuid_text id s = Ok info -> exists v vr ps reporting,
    uuid_text id = Some v /\ valuation_runs s !! v = Some vr /\ snapshots s !! vr_snapshot vr = Some ps /\
    portfolios s !! ps_portfolio ps = Some reporting /\
    info = mkValuationInfo v (vr_snapshot vr) (ps_portfolio ps) (vr_state vr) reporting (vr_cutoff vr).
Proof.
  unfold select_valuation. destruct (uuid_text id) as [v|]; [|done].
  destruct (valuation_runs s !! v) as [vr|] eqn:Ev; [|done]. cbn.
  destruct (snapshots s !! vr_snapshot vr) as [ps|] eqn:Es; [|done]. cbn.
  destruct (portfolios s !! ps_portfolio ps) as [rep|] eqn:Er; [|done]. intros [= <-].
  by exists v, vr, ps, rep.
Qed.

Lemma valuation_error_None info r :
  valuation_error info r = None ->
  vi_state info = "valid" /\ vi_reporting info = ReqCurrency r /\ vi_cutoff info = ReqCutoff r.
Proof.
  unfold valuation_error. destruct (bool_decide (vi_state info = _)) eqn:E1; [|done]. cbn [negb].
  destruct (bool_decide (vi_reporting info = _)) eqn:E2; [|done]. cbn [negb].
  destruct (vi_cutoff info =? ReqCutoff r) eqn:E3; [|done]. intros _. by bool_simp.
Qed.

Lemma checks_lines am inputs ces :
  Forall2 (check_of am) inputs ces ->
  SnapshotLineID <$> ces.*1 = InSnapshotLineID <$> inputs /\ Forall2 (exact_check am) ces.*1 ces.*2.
Proof.
  induction 1 as [|i ce inputs ces (Hl & Hx & _) _ [IH1 IH2]]; [by split|].
  rewrite !fmap_cons, IH1, Hl. split; [done|]. by constructor.
Qed.

(** Distinct keys of a map are all of them when they are as many. *)
Lemma covers_all {A} (am : gmap string A) ids :
  NoDup ids -> (forall l, l ∈ ids -> is_Some (am !! l)) ->
  length ids = size am <-> (forall l, is_Some (am !! l) <-> l ∈ ids).
Proof.
  intros Hnd Hin. rewrite <- (size_dom (D := gset string)), <- (size_list_to_set (C := gset string)) by done.
  assert (Hsub : (list_to_set ids : gset string) ⊆ dom am).
  { intros l Hl%elem_of_list_to_set. by apply elem_of_dom, Hin. }
  split.
  - intros Hsize l. split; [|apply Hin]. intros Hl%elem_of_dom.
    assert (Heq : list_to_set ids ≡ dom am) by (apply set_subseteq_size_equiv; [done|lia]).
    rewrite <- Heq in Hl. by apply elem_of_list_to_set in Hl.
  - intros H. apply set_size_proper. intros l. rewrite elem_of_list_to_set, elem_of_dom. by rewrite H.
Qed.

Lemma quiet_check_lines uuid_text snapshot account m inputs tot results :
  quiet (check_lines uuid_text snapshot account m inputs tot results).
Proof. revert tot results. induction inputs; intros tot results; cbn [check_lines]; solve_atomic; auto. Qed.

(** ** Tolerance versions *)

Lemma next_version_spec uuid_text accountID s version :
  next_version uuid_text accountID s = Ok version -> exists a, uuid_text accountID = Some a /\
    version <= 2147483647 /\
    (forall id r, tolerances s !! id = Some r -> tv_account r = a -> tv_version r < version) /\
    (version = 1 \/ exists id r, tolerances s !! id = Some r /\ tv_account r = a /\ version = tv_version r + 1).
Proof.
  unfold next_version. destruct (uuid_text accountID) as [a|]; [|done]. cbv zeta.
  destruct (versions_of a s) as [|[id r] rest] eqn:Ev; case_match eqn:Hle; try done;
    apply Z.leb_le in Hle; intros [= <-]; exists a; split_and!; try done.
  - intros id r Hl Ha. by destruct (versions_none _ _ Ev _ _ Hl).
  - by left.
  - intros id' r' Hl Ha. destruct (versions_head _ _ _ _ _ Ev) as (_ & _ & H3). specialize (H3 _ _ Hl Ha). lia.
  - right. destruct (versions_head _ _ _ _ _ Ev) as (H1 & H2 & _). by exists id, r.
Qed.

Lemma insert_tolerance_inv uuid_text id accountID version amount now s r s' :
  insert_tolerance uuid_text id accountID version amount now s = (Ok r, s') -> exists a z,
    r = (id, now) /\ uuid_text accountID = Some a /\ numeric_in amount = Some z /\ 0 <= z /\
    tolerances s !! id = None /\
    s' = set_tolerances s (<[id := mkToleranceRow a version z now]> (tolerances s)).
Proof.
  unfold insert_tolerance. destruct (uuid_text accountID) as [a|]; [|done].
  destruct (numeric_in amount) as [z|]; [|done]. destruct (_ && _) eqn:E; [|done].
  intros [= <- <-]. exists a, z. bool_simp. by split_and!; try lia.
Qed.

(** ** Reading back *)

Lemma numeric_back text z z' : numeric_in text = Some z -> text = fixed18 z' -> numeric_out z = text.
Proof. intros Hz Ht. rewrite (numeric_in_fixed _ _ _ Hz Ht). by rewrite Ht. Qed.

(** A check read from its row. *)
Lemma line_check_back am uuid_text id c e r k :
  exact_check am c e -> line_check_row uuid_text id c = Some r ->
  uuid_text (SnapshotLineID c) = Some (SnapshotLineID c) ->
  uuid_text id = Some (lc_checkpoint r) /\ to_check (k, r) = c.
Proof.
  intros (z & _ & Hc) Hrow Hl. unfold line_check_row in Hrow. rewrite Hl in Hrow.
  destruct (uuid_text id) as [i|]; [|done]. cbn [mbind option_bind] in Hrow.
  destruct (numeric_in (ExternalAmount c)) as [z1|] eqn:E1; [|done].
  destruct (numeric_in (ValuationAmount c)) as [z2|] eqn:E2; [|done].
  destruct (numeric_in (Difference c)) as [z3|] eqn:E3; [|done].
  destruct (numeric_in (LineAbsoluteDifference c)) as [z4|] eqn:E4; [|done].
  cbn [mbind option_bind] in Hrow. injection Hrow as <-. split; [done|]. unfold to_check. cbn.
  rewrite (numeric_back _ _ e E1), (numeric_back _ _ z E2), (numeric_back _ _ (e - z) E3),
    (numeric_back _ _ (Z.abs (e - z)) E4) by by rewrite Hc.
  by destruct c.
Qed.

Lemma line_checks_back am uuid_text id checks es rows ids :
  Forall2 (exact_check am) checks es -> Forall2 (fun c r => line_check_row uuid_text id c = Some r) checks rows ->
  Forall (fun c => uuid_text (SnapshotLineID c) = Some (SnapshotLineID c)) checks ->
  length ids = length rows ->
  to_check <$> zip ids rows = checks /\ Forall (fun r => uuid_text id = Some (lc_checkpoint r)) rows.
Proof.
  intros Hes Hrows. revert es ids Hes. induction Hrows as [|c r checks rows Hr _ IH]; intros es ids Hes Hl Hlen.
  { destruct ids; [|done]. by split; [|constructor]. }
  destruct ids as [|k ids]; [done|]. inversion Hes as [|? e ? es' He Hes']; subst. apply Forall_cons in Hl as [Hl Hls].
  destruct (line_check_back _ _ _ _ _ _ k He Hr Hl) as [H1 H2].
  destruct (IH es' ids Hes' Hls) as [H3 H4]; [by injection Hlen|].
  cbn [zip_with]. rewrite fmap_cons, H2, H3. split; [done|]. by constructor.
Qed.

(** The rows of a fresh checkpoint, selected from the whole table. *)
Lemma select_fresh_checks before c ids rows (old : gmap string LineCheckRow) :
  NoDup ids -> length ids = length rows -> Forall (fun r => lc_checkpoint r = c) rows ->
  Forall (fun id => old !! id = None) ids ->
  (forall id r, old !! id = Some r -> lc_checkpoint r <> c) ->
  select (fun _ r => bool_decide (lc_checkpoint r = c)) before (list_to_map (zip ids rows) ∪ old) ≡ₚ zip ids rows.
Proof.
  intros Hnd Hlen Hrows Hfresh Hold.
  assert (Hz : (zip ids rows).*1 = ids) by (apply fst_zip; lia).
  apply NoDup_Permutation.
  - eapply NoDup_fmap_1, NoDup_select.
  - apply (NoDup_fmap_1 fst). by rewrite Hz.
  - intros [k r]. rewrite select_elem, bool_decide_eq_true, lookup_union_Some_raw.
    rewrite <- (elem_of_list_to_map (M := gmap string)) by by rewrite Hz. split.
    + intros [[H|[_ H]] Hc]; [done|]. by destruct (Hold _ _ H).
    + intros H. split; [by left|]. rewrite Forall_forall in Hrows. apply Hrows. by eapply elem_of_zip_r.
Qed.

Definition exact_text (text : string) : Prop := exists z, text = fixed18 z.

Lemma exact_back text z : exact_text text -> numeric_in text = Some z -> numeric_out z = text.
Proof. intros [z' ->] Hz. by eapply numeric_back. Qed.

Lemma exact_back_option text z :
  (forall t, text = Some t -> exact_text t) -> nullable numeric_in text = Some z -> numeric_out <$> z = text.
Proof.
  intros Ht. destruct text as [t|]; cbn; [|by intros [= <-]].
  destruct (numeric_in t) as [x|] eqn:E; [|done]. intros [= <-]. cbn. f_equal. by apply exact_back; auto.
Qed.

(** A checkpoint read from its row. *)
Lemma checkpoint_back uuid_text cp now row id checks :
  checkpoint_row uuid_text cp now = Some row ->
  Forall exact_text [ExternalNAV cp; ValuationNAV cp; AbsoluteDifference cp; EffectiveTolerance cp] ->
  (forall t, RelativeDifference cp = Some t -> exact_text t) ->
  uuid_text (ValuationID cp) = Some (cp_valuation row) /\ uuid_text (AccountID cp) = Some (cp_account row) /\
  cp_cutoff row = pg_time (Cutoff cp) /\
  to_checkpoint id row checks =
    mkCheckpoint id (cp_valuation row) (cp_account row) (SourceLabel cp) (Currency cp) (pg_time (Cutoff cp))
      (ExternalNAV cp) (ValuationNAV cp) (AbsoluteDifference cp) (RelativeDifference cp) (EffectiveTolerance cp)
      (TolVersionUsed cp) (CpState cp) (ReasonCode cp) (LineCheckState cp) checks now.
Proof.
  unfold checkpoint_row. intros Hrow Hex Hrel. rewrite !Forall_cons in Hex. destruct Hex as (X1 & X2 & X3 & X4 & _).
  destruct (uuid_text (ValuationID cp)) as [v|]; [|done]. destruct (uuid_text (AccountID cp)) as [a|]; [|done].
  cbn [mbind option_bind] in Hrow.
  destruct (numeric_in (ExternalNAV cp)) as [z1|] eqn:E1; [|done].
  destruct (numeric_in (ValuationNAV cp)) as [z2|] eqn:E2; [|done].
  destruct (numeric_in (AbsoluteDifference cp)) as [z3|] eqn:E3; [|done].
  destruct (nullable numeric_in (RelativeDifference cp)) as [zr|] eqn:Er; [|done].
  destruct (numeric_in (EffectiveTolerance cp)) as [z4|] eqn:E4; [|done].
  cbn [mbind option_bind] in Hrow. injection Hrow as <-. split_and!; try done. unfold to_checkpoint. cbn.
  by rewrite (exact_back _ _ X1 E1), (exact_back _ _ X2 E2), (exact_back _ _ X3 E3), (exact_back _ _ X4 E4),
    (exact_back_option _ _ Hrel Er).
Qed.

Lemma checkpoint_trigger_cutoff row s vr :
  checkpoint_trigger row s = true -> valuation_runs s !! cp_valuation row = Some vr -> cp_cutoff row = vr_cutoff vr.
Proof.
  unfold checkpoint_trigger. intros H Hvr. rewrite Hvr in H. cbn in H.
  destruct (snapshots s !! vr_snapshot vr); [|done]. cbn in H.
  destruct (accounts s !! cp_account row); [|done]. cbn in H. bool_simp. lia.
Qed.

(** The same checkpoint, under the canonical name of its valuation and with its
    checks in another order. *)
Definition as_stored (v : string) (checks : list LineCheck) (cp : Checkpoint) : Checkpoint :=
  mkCheckpoint (ID cp) v (AccountID cp) (SourceLabel cp) (Currency cp) (Cutoff cp) (ExternalNAV cp)
    (ValuationNAV cp) (AbsoluteDifference cp) (RelativeDifference cp) (EffectiveTolerance cp) (TolVersionUsed cp)
    (CpState cp) (ReasonCode cp) (LineCheckState cp) checks (CreatedAt cp).

(** Identifiers in the tables are canonical. *)
Definition canonical_lines (uuid_text : string -> option string) (s : tables) : Prop :=
  forall l sl, snapshot_lines s !! l = Some sl ->
    uuid_text l = Some l /\ uuid_text (sl_account sl) = Some (sl_account sl).

(** Every line check belongs to a checkpoint, a foreign key. *)
Definition checks_owned (s : tables) : Prop :=
  forall id r, line_checks s !! id = Some r -> is_Some (checkpoints s !! lc_checkpoint r).

Lemma get_persisted scan_uuid uuid_text gen now cp0 cp w s' am es v vr :
  uuid_text (gen 0%nat) = Some (gen 0%nat) -> is_Some (scan_uuid (trim_space (gen 0%nat))) ->
  persisted uuid_text gen now cp0 cp w s' -> checks_owned w ->
  Forall exact_text [ExternalNAV cp0; ValuationNAV cp0; AbsoluteDifference cp0; EffectiveTolerance cp0] ->
  (forall t, RelativeDifference cp0 = Some t -> exact_text t) ->
  Forall2 (exact_check am) (LineChecks cp0) es ->
  Forall (fun c => uuid_text (SnapshotLineID c) = Some (SnapshotLineID c)) (LineChecks cp0) ->
  uuid_text (ValuationID cp0) = Some v -> uuid_text (AccountID cp0) = Some (AccountID cp0) ->
  valuation_runs w !! v = Some vr -> vr_cutoff vr = Cutoff cp0 ->
  exists checks, checks ≡ₚ LineChecks cp /\
    run (Get true scan_uuid uuid_text (ID cp)) [] s' = (Ok (as_stored v checks cp), s').
Proof.
  intros Hg Hscan [-> (row & rows & Hrow & Htr & Hnone & Hrows & Hnd & Hfresh & ->)] Hown Hex Hrel Hes Hcan
    Hv Ha Hvr Hcut. set (ids := gen <$> seq 1 (length (LineChecks cp0))) in *.
  assert (Hlen : length ids = length rows).
  { unfold ids. rewrite length_fmap, length_seq. by eapply Forall2_length. }
  destruct (line_checks_back _ _ _ _ _ _ ids Hes Hrows Hcan Hlen) as [Hback Hlc].
  exists (to_check <$> select (fun _ r => bool_decide (lc_checkpoint r = gen 0%nat))
            (before (asc_text (fun kv => lc_snapshot_line (snd kv))))
            (list_to_map (zip ids rows) ∪ line_checks w)). split.
  { rewrite select_fresh_checks; try done; [by rewrite Hback| |].
    - eapply Forall_impl; [exact Hlc|]. intros r Hr. cbn in Hr. congruence.
    - intros id r Hr Hc. apply Hown in Hr as [? Hr]. rewrite Hc in Hr. congruence. }
  destruct (checkpoint_back _ _ _ _ (gen 0%nat) (to_check <$> select (fun _ r => bool_decide (lc_checkpoint r = gen 0%nat))
            (before (asc_text (fun kv => lc_snapshot_line (snd kv))))
            (list_to_map (zip ids rows) ∪ line_checks w)) Hrow Hex Hrel) as (Hv' & Ha' & Hc' & Hto).
  rewrite Hv in Hv'. injection Hv' as Hv'. rewrite Ha in Ha'. injection Ha' as Ha'. rewrite Hv' in Hvr.
  rewrite <- Hc', (checkpoint_trigger_cutoff _ _ _ Htr Hvr), Hcut, <- Hv', <- Ha' in Hto.
  unfold run, Get, validUUID. cbn [ID with_identity fst]. rewrite bool_decide_true by done. cbn [negb orb].
  unfold row_or, select_checkpoint, select_checks, pool_query, pool_stmt, guarded, next_fault, bind, attempt, wrap.
  rewrite Hg. cbn [faults committed working checkpoints set_line_checks set_checkpoints].
  rewrite lookup_insert_eq. cbn. unfold ret. f_equal. f_equal. exact Hto.
Qed.

(** ** The properties *)

Section properties.
Context (pool : bool) (scan_uuid uuid_text : string -> option string) (shuffle : list string -> list string).
Context (Hshuffle : forall l : list string, shuffle l ≡ₚ l).

Abbreviation create := (Create pool scan_uuid uuid_text shuffle).

(** C23: a checkpoint compares the stated external value with the exact sum of the
    account's lines of a valid valuation, in the portfolio's currency and at its
    cutoff: each of the account's snapshot lines has exactly one amount, the
    figures are the exact decimals of the sum, of the difference and of the
    tolerance in force, and the verdict is reconciled exactly when the absolute
    difference is at most that tolerance. *)
Theorem checkpoint_exact gen now valuationID request fs s cp s' :
  run (create gen now valuationID request) fs s = (Ok cp, s') ->
  exists v vr ps account q am version amount,
    let currency := to_upper (trim_space (ReqCurrency request)) in
    let e := round18 q in
    let nav := total (snd <$> map_to_list am) in
    let d := Z.abs (e - nav) in
    uuid_text valuationID = Some v /\ valuation_runs s !! v = Some vr /\ vr_state vr = "valid" /\
    vr_cutoff vr = ReqCutoff request /\ snapshots s !! vr_snapshot vr = Some ps /\
    portfolios s !! ps_portfolio ps = Some currency /\
    parse_rat (trim_space (ReqExternalNAV request)) = Some q /\
    amounts_of s v (vr_snapshot vr) (trim_space (ReqAccountID request)) currency am /\ am <> ∅ /\
    uuid_text (trim_space (ReqAccountID request)) = Some account /\ in_force s account e version amount /\
    ExternalNAV cp = fixed18 e /\ ValuationNAV cp = fixed18 nav /\ AbsoluteDifference cp = fixed18 d /\
    RelativeDifference cp = (if e =? 0 then None else Some (fixed18 (round18 (d # Z.to_pos (Z.abs e))))) /\
    EffectiveTolerance cp = fixed18 amount /\ TolVersionUsed cp = version /\
    (CpState cp = StateReconciled <-> d <= amount) /\ (CpState cp = StateUnreconciled <-> amount < d).
Proof.
  intros Hrun. apply checkpoint_created in Hrun; [|done].
  destruct Hrun as [(info & e & version & amount & am & state & checks & a & Hid & Hinfo & Hverr
    & (q & Hq & ->) & Ham & (l & Hl) & Ha & Hforce & _ & _ & nav & Hnav & Hp)].
  apply select_valuation_inv in Hinfo as (v & vr & ps & rep & Hv & Hvr & Hps & Hrep & ->).
  apply valuation_error_None in Hverr as (H1 & H2 & H3). cbn in H1, H2, H3, Ham. subst rep.
  destruct Hp as [-> _]. exists v, vr, ps, a, q, am, version, amount. cbv zeta. split_and!; try done.
  { intros ->. rewrite lookup_empty in Hl. by destruct Hl. }
  all: apply (make_checkpoint_figures valuationID (normalize request) (round18 q) _ _ version amount state checks) in Hnav;
    apply Hnav.
Qed.

(** The line checks of a checkpoint: each is against a line of the account,
    which no other check repeats, and states its exact amounts and difference.
    The state is none exactly when there are none, and complete exactly when
    they cover every line of the account; complete checks sum to the external
    value. *)
Theorem line_checks_exact gen now valuationID request fs s cp s' :
  run (create gen now valuationID request) fs s = (Ok cp, s') ->
  exists v vr am es e,
    uuid_text valuationID = Some v /\ valuation_runs s !! v = Some vr /\
    amounts_of s v (vr_snapshot vr) (trim_space (ReqAccountID request))
      (to_upper (trim_space (ReqCurrency request))) am /\
    SnapshotLineID <$> LineChecks cp = InSnapshotLineID <$> ReqLineChecks request /\
    NoDup (SnapshotLineID <$> LineChecks cp) /\
    Forall2 (exact_check am) (LineChecks cp) es /\ ExternalNAV cp = fixed18 e /\
    (LineCheckState cp = LineCheckNone <-> LineChecks cp = []) /\
    (LineCheckState cp = LineCheckComplete <->
       LineChecks cp <> [] /\ forall l, is_Some (am !! l) <-> l ∈ SnapshotLineID <$> LineChecks cp) /\
    (LineCheckState cp = LineCheckComplete -> total es = e) /\
    (LineChecksComplete request = true -> LineCheckState cp = LineCheckComplete).
Proof.
  intros Hrun. apply checkpoint_created in Hrun; [|done].
  destruct Hrun as [(info & e & version & amount & am & state & checks & a & Hid & Hinfo & _
    & _ & Ham & _ & _ & _ & (ces & Hces & -> & Hnone & _ & Hfull & Htotal & Hasked) & Hnd & nav & _ & Hp)].
  apply select_valuation_inv in Hinfo as (v & vr & ps & rep & Hv & Hvr & _ & _ & ->).
  destruct Hp as [-> _]. apply checks_lines in Hces as [Hlines Hexact].
  unfold input_distinct in Hnd. rewrite <- Hlines in Hnd.
  assert (Hdom : forall l, l ∈ SnapshotLineID <$> ces.*1 -> is_Some (am !! l)).
  { intros l (c & -> & Hc)%list_elem_of_fmap. apply list_elem_of_lookup in Hc as [k Hk].
    destruct (Forall2_lookup_l _ _ _ _ _ Hexact Hk) as (x & _ & z & Hz & _). by exists z. }
  exists v, vr, am, ces.*2, e. cbn [LineChecks ExternalNAV LineCheckState with_identity make_checkpoint fst snd].
  rewrite <- (covers_all am) by done. rewrite length_fmap. split_and!; try done. by apply format_units.
Qed.

(** A new tolerance takes the account's next version number and is in force
    at once, whatever external value it is compared with; nothing else changes,
    and its amount is the stated one to eighteen digits, half away from zero. *)
Theorem tolerance_appended id now accountID amount fs s tol s' :
  run (CreateTolerance pool scan_uuid uuid_text id now accountID amount) fs s = (Ok tol, s') ->
  exists account q, uuid_text accountID = Some account /\ parse_rat amount = Some q /\
    let z := round18 q in
    0 <= z /\ ToleranceAmount tol = fixed18 z /\ TolID tol = id /\
    (forall id' r, tolerances s !! id' = Some r -> tv_account r = account -> tv_version r < TolVersion tol) /\
    (TolVersion tol = 1 \/ exists id' r, tolerances s !! id' = Some r /\ tv_account r = account /\
       TolVersion tol = tv_version r + 1) /\
    TolVersion tol <= 2147483647 /\
    s' = set_tolerances s (<[id := mkToleranceRow account (TolVersion tol) z now]> (tolerances s)) /\
    forall e, in_force s' account e (TolVersion tol) z.
Proof.
  intros Hrun. run_ok_wp Hrun. unfold CreateTolerance. destruct (negb pool || _ || _); [by wp_step|].
  destruct (parseDecimal amount) as [q|] eqn:Eq; [|by wp_step]. apply parseDecimal_inv in Eq as [_ Hq].
  destruct (Qnum q <? 0); [by wp_step|]. cbv zeta. rewrite scaleDecimal_eq. unfold row_or. repeat wp_step; try done.
  destruct (select_account _ _ _) as [p|er]; [|by destruct (errors_is er ENoRows); wp_step].
  repeat wp_step; try done.
  destruct (next_version _ _ _) as [version|er] eqn:Ev; [|done].
  apply next_version_spec in Ev as (a & Ha & Hmax & Habove & Hnext).
  repeat wp_step; try done. apply insert_tolerance_inv in E as (a' & z & -> & Ha' & Hz & Hpos & Hfresh & ->).
  rewrite Ha in Ha'. injection Ha' as <-.
  assert (z = round18 q) as -> by (eapply numeric_in_fixed; [exact Hz|]; by apply format_units).
  repeat wp_step; try done. intros x [= <-]. cbn [committed TolVersion TolID ToleranceAmount fst snd].
  exists a, q. split_and!; try done. { by apply format_units. }
  intros e. left. cbn [tolerances set_tolerances]. eexists id, _. split; [apply lookup_insert_eq|].
  split_and!; try done. intros id' r'. destruct (decide (id = id')) as [<-|Hne].
  - rewrite lookup_insert_eq. by intros [= <-].
  - rewrite lookup_insert_ne by done. intros Hl Hacc. specialize (Habove _ _ Hl Hacc). lia.
Qed.

(** Creating a checkpoint or a tolerance version either succeeds or leaves
    every table as it was, whichever statement of its transaction fails. *)
Lemma reconciliation_atomic gen now valuationID request accountID amount fs s :
  (is_ok (fst (run (create gen now valuationID request) fs s)) = false ->
     snd (run (create gen now valuationID request) fs s) = s) /\
  let tolerance := CreateTolerance pool scan_uuid uuid_text (gen 0%nat) now accountID amount in
  (is_ok (fst (run tolerance fs s)) = false -> snd (run tolerance fs s) = s).
Proof.
  split; [apply atomic_run|apply atomic_run].
  - unfold Create, row_or, effective_tolerance, run_checks, persist, throw_if, store_line_check.
    solve_atomic; apply quiet_check_lines.
  - unfold CreateTolerance, row_or. solve_atomic.
Qed.

(** Reading a checkpoint back right after its creation gives what the
    creation returned: every figure to its last digit, the cutoff, the verdict
    and all its line checks, in an order of their own. *)
Theorem checkpoint_read_back gen now valuationID request fs s cp s' :
  (forall n, uuid_text (gen n) = Some (gen n)) -> is_Some (scan_uuid (trim_space (gen 0%nat))) ->
  canonical_lines uuid_text s -> checks_owned s ->
  run (create gen now valuationID request) fs s = (Ok cp, s') ->
  exists v checks, uuid_text valuationID = Some v /\ checks ≡ₚ LineChecks cp /\
    run (Get pool scan_uuid uuid_text (ID cp)) [] s' = (Ok (as_stored v checks cp), s').
Proof.
  intros Hg Hscan Hcan Hown Hrun.
  assert (Hpool : pool = true) by (destruct pool; [done|]; by unfold run, Create in Hrun). rewrite Hpool.
  apply checkpoint_created in Hrun; [|done].
  destruct Hrun as [(info & e & version & amount & am & state & checks & a & Hid & Hinfo & Hverr
    & _ & Ham & (l & Hl) & Ha & _ & (ces & Hces & -> & _) & _ & nav & Hnav & Hp)].
  apply select_valuation_inv in Hinfo as (v & vr & ps & rep & Hv & Hvr & _ & _ & ->).
  apply valuation_error_None in Hverr as (_ & _ & Hcut). cbn in Hcut.
  apply checks_lines in Hces as [_ Hexact].
  destruct (make_checkpoint_figures valuationID (normalize request) e _ _ version amount state ces.*1 Hnav)
    as (F1 & F2 & F3 & F4 & F5 & _).
  destruct (get_persisted _ _ _ _ _ _ _ _ am ces.*2 v vr (Hg 0%nat) Hscan Hp Hown) as (got & Hperm & Hget); try done.
  - by repeat constructor; eexists.
  - rewrite F4. intros t. destruct (e =? 0); [done|]. intros [= <-]. by eexists.
  - apply Forall_forall. intros c Hc. apply list_elem_of_lookup in Hc as [k Hk].
    destruct (Forall2_lookup_l _ _ _ _ _ Hexact Hk) as (x & _ & z & Hz & _).
    destruct (proj1 (ao_dom _ _ _ _ _ _ Ham _) (mk_is_Some _ _ Hz)) as (sl & Hsl & _). by eapply Hcan.
  - apply (ao_dom _ _ _ _ _ _ Ham) in Hl as (sl & Hsl & _ & Hacc). cbn [AccountID make_checkpoint].
    rewrite <- Hacc. by eapply Hcan.
  - by exists v, got.
Qed.
End properties.

(** ** A concrete reconciliation *)

Definition demo_line (native : Z) (line : string) : ValuationLineRow :=
  mkValuationLine "run" line "TRY" (Some native) (Some native) None "valid" [] "market" None None [] [] [] [].

Definition demo_tables : tables :=
  mkTables ∅ {["portfolio" := "TRY"]} {["account" := "portfolio"]}
    {["snapshot" := mkSnapshot "portfolio" 5000]}
    {["l1" := mkSnapshotLine "snapshot" "account" "i1" 1; "l2" := mkSnapshotLine "snapshot" "account" "i2" 1]}
    ∅ ∅ {["run" := mkValuationRun "snapshot" 5000 "system" 5000 60 60 "request" "valid" "hash" 6000]}
    {["v1" := demo_line (70 * 10 ^ 18) "l1"; "v2" := demo_line (25 * 10 ^ 17) "l2"]} ∅ ∅ ∅.

(** Two checks, off by five thousandths on the second line. *)
Definition demo_request : Request :=
  mkRequest " account " "statement" "try" 5000 "72.505"
    [mkLineCheckInput "l2" "2.505"; mkLineCheckInput "l1" "70"] true.

Definition demo_ids (n : nat) : string := nth n ["checkpoint"; "c1"; "c2"] "other".

Abbreviation demo_create :=
  (Create true Some Some (fun l => l) demo_ids 7000 "run" demo_request).
Abbreviation demo_run := (run demo_create [] demo_tables).

Definition checkpoint_of {S} (o : res Checkpoint * S) : Checkpoint :=
  match fst o with Ok cp => cp | Err _ => mkCheckpoint "" "" "" "" "" 0 "" "" "" None "" 0 "" None "" [] 0 end.

Lemma demo_created : demo_run = (Ok (checkpoint_of demo_run), snd demo_run).
Proof.
  assert (H : is_ok (fst demo_run) = true) by (vm_compute; reflexivity).
  destruct demo_run as [[cp|e] s]; [done|discriminate H].
Qed.

Lemma checkpoint_exact_witness :
  exists v vr am nav, valuation_runs demo_tables !! v = Some vr /\
    amounts_of demo_tables v (vr_snapshot vr) "account" "TRY" am /\ nav = total (snd <$> map_to_list am) /\
    ValuationNAV (checkpoint_of demo_run) = fixed18 nav.
Proof.
  destruct (checkpoint_exact true Some Some (fun l => l) (fun l => Permutation_refl l) _ _ _ _ _ _ _ _ demo_created)
    as (v & vr & ps & account & q & am & version & amount & H). cbv zeta in H.
  destruct H as (_ & Hvr & _ & _ & _ & _ & _ & Ham & _ & _ & _ & _ & Hnav & _).
  exists v, vr, am, (total (snd <$> map_to_list am)). by split_and!.
Defined.

Lemma line_checks_exact_witness :
  LineCheckState (checkpoint_of demo_run) = LineCheckComplete /\
  NoDup (SnapshotLineID <$> LineChecks (checkpoint_of demo_run)).
Proof.
  destruct (line_checks_exact true Some Some (fun l => l) (fun l => Permutation_refl l) _ _ _ _ _ _ _ _ demo_created)
    as (v & vr & am & es & e & _ & _ & _ & _ & Hnd & _ & _ & _ & _ & _ & Hasked).
  split; [by apply Hasked|done].
Defined.

Abbreviation demo_tolerance :=
  (run (CreateTolerance true Some Some "tolerance" 8000 "account" "0.0050000000000000004") [] demo_tables).

Definition tolerance_of {S} (o : res ToleranceVersion * S) : ToleranceVersion :=
  match fst o with Ok t => t | Err _ => mkToleranceVersion "" "" 0 "" 0 end.

Lemma demo_tolerance_created : demo_tolerance = (Ok (tolerance_of demo_tolerance), snd demo_tolerance).
Proof.
  assert (H : is_ok (fst demo_tolerance) = true) by (vm_compute; reflexivity).
  destruct demo_tolerance as [[t|e] s]; [done|discriminate H].
Qed.

Lemma tolerance_appended_witness :
  exists account z, forall e, in_force (snd demo_tolerance) account e (TolVersion (tolerance_of demo_tolerance)) z.
Proof.
  destruct (tolerance_appended true Some Some _ _ _ _ _ _ _ _ demo_tolerance_created)
    as (account & q & _ & _ & H). cbv zeta in H. destruct H as (_ & _ & _ & _ & _ & _ & _ & H).
  by exists account, (round18 q).
Defined.

Lemma checkpoint_read_back_witness :
  exists v checks, checks ≡ₚ LineChecks (checkpoint_of demo_run) /\
    run (Get true Some Some (ID (checkpoint_of demo_run))) [] (snd demo_run) =
      (Ok (as_stored v checks (checkpoint_of demo_run)), snd demo_run).
Proof.
  assert (Hcan : canonical_lines Some demo_tables) by (intros l sl _; split; reflexivity).
  assert (Hown : checks_owned demo_tables) by (intros id r; cbn; by rewrite lookup_empty).
  generalize demo_created. generalize (checkpoint_of demo_run) (snd demo_run). intros cp s' Hrun.
  destruct (checkpoint_read_back true Some Some (fun l => l) (fun l => Permutation_refl l) demo_ids _ _ _
    [] demo_tables _ s' (fun n => eq_refl) (mk_is_Some _ _ eq_refl) Hcan Hown Hrun) as (v & checks & _ & Hp & Hget).
  exists v, checks. exact (conj Hp Hget).
Defined.
