(* ===== verification/Zone.v ===== *)
(** Time-zone locations, [time.Date], [Time.AddDate] and durations as text:
    the parts of package [time] that depend on a location or on duration
    syntax.  A location is what the zone database says about an instant, given
    in seconds since the epoch: the offset east of UTC in force and the bounds
    of the period over which it is. *)

From S2P Require Import Prelude GoString Digits GoTime.
From Stdlib Require Import Ascii SpecFloat.

Record Location : Type := mkLocation { zone : Z -> Z * Z * Z }.

Definition offset_at (loc : Location) (secs : Z) : Z := (zone loc secs).1.1.

Definition UTC : Location := mkLocation (fun _ => (0, - 2 ^ 62, 2 ^ 62)).

(** ** Reading a clock *)

(** Nanoseconds since the epoch on the location's wall clock. *)
Definition wall (loc : Location) (t : time) : Z := t + offset_at loc (t / Second) * Second.

Definition local_day (loc : Location) (t : time) : Z := wall loc t / day_ns.
Definition local_clock (loc : Location) (t : time) : Z := wall loc t mod day_ns.

(** [In(loc).Format("2006-01-02")]. *)
Definition date_key (loc : Location) (t : time) : string :=
  format_date (civil_from_days (local_day loc t)).

(** ** time.Date and AddDate *)

(** [time.Date] for a day number and a time of day: the offset in force when
    the wall clock is read as UTC, corrected once when the instant it gives falls
    outside the period of that offset. *)
Definition Date (day clock : Z) (loc : Location) : time :=
  let unix := day * day_seconds + clock / Second in
  let '(offset, start, stop) := zone loc unix in
  let unix :=
    if offset =? 0 then unix
    else
      let utc := unix - offset in
      let offset := if (utc <? start) || (stop <=? utc) then offset_at loc utc else offset in
      unix - offset in
  unix * Second + clock mod Second.

(** [AddDate(0, 0, n)]: the same wall-clock time [n] days later. *)
Definition AddDays (loc : Location) (n : Z) (t : time) : time :=
  Date (local_day loc t + n) (local_clock loc t) loc.

(** [time.Date] of the midnight starting the local day of [t]. *)
Definition midnight (loc : Location) (t : time) : time := Date (local_day loc t) 0 loc.

Definition Weekday (loc : Location) (t : time) : Z := weekday_of_days (local_day loc t).
Definition Month (loc : Location) (t : time) : Z :=
  let '(_, m, _) := civil_from_days (local_day loc t) in m.
Definition Day (loc : Location) (t : time) : Z :=
  let '(_, _, d) := civil_from_days (local_day loc t) in d.

(** [time.Parse("2006-01-02", value)] succeeds. *)
Definition valid_date (value : string) : bool :=
  match chars value with
  | [y1; y2; y3; y4; s1; m1; m2; s2; d1; d2] =>
      let y := dval [y1; y2; y3; y4] in
      let m := dval [m1; m2] in
      let d := dval [d1; d2] in
      all_digits [y1; y2; y3; y4; m1; m2; d1; d2]
      && Ascii.eqb s1 "-" && Ascii.eqb s2 "-"
      && (1 <=? m) && (m <=? 12) && (1 <=? d) && (d <=? days_in m y)
  | _ => false
  end.

(** ** time.ParseDuration *)

Definition is_digit_or_dot (c : ascii) : bool := is_digit c || Ascii.eqb c ".".

(** Digits up to the first other character; [None] beyond 2^63. *)
Fixpoint leadingInt (x : Z) (s : list ascii) : option (Z * list ascii) :=
  match s with
  | c :: r =>
      if is_digit c then
        if two63 / 10 <? x then None
        else let x := x * 10 + digit_val c in if two63 <? x then None else leadingInt x r
      else Some (x, s)
  | [] => Some (x, [])
  end.

Definition float (z : Z) : spec_float := binary_normalize 53 1024 z 0 false.

(** Digits of a fraction: those that fit and the power of ten they count for. *)
Fixpoint leadingFraction (x : Z) (scale : spec_float) (overflow : bool) (s : list ascii)
    : Z * spec_float * list ascii :=
  match s with
  | c :: r =>
      if is_digit c then
        if overflow then leadingFraction x scale true r
        else if (two63 - 1) / 10 <? x then leadingFraction x scale true r
        else
          let y := x * 10 + digit_val c in
          if two63 <? y then leadingFraction x scale true r
          else leadingFraction y (SFmul 53 1024 scale (float 10)) false r
      else (x, scale, s)
  | [] => (x, scale, [])
  end.

(** Conversion of a non-negative float to an integer, toward zero. *)
Definition truncate (f : spec_float) : Z :=
  match f with
  | S754_finite false m e => if 0 <=? e then Z.pos m * 2 ^ e else Z.pos m / 2 ^ (- e)
  | _ => 0
  end.

Definition unit_of (u : string) : option Z :=
  if bool_decide (u = "ns") then Some 1
  else if bool_decide (u = "us") || bool_decide (u = of_chars [chr 194; chr 181; "s"%char])
          || bool_decide (u = of_chars [chr 206; chr 188; "s"%char]) then Some 1000
  else if bool_decide (u = "ms") then Some 1000000
  else if bool_decide (u = "s") then Some Second
  else if bool_decide (u = "m") then Some Minute
  else if bool_decide (u = "h") then Some Hour
  else None.

Fixpoint span {A} (p : A -> bool) (l : list A) : list A * list A :=
  match l with
  | x :: r => if p x then let '(a, b) := span p r in (x :: a, b) else ([], l)
  | [] => ([], [])
  end.

(** One number with its unit: its value in nanoseconds and the rest. *)
Definition parse_component (s : list ascii) : option (Z * list ascii) :=
  match s with
  | [] => None
  | c :: _ =>
      if negb (is_digit_or_dot c) then None
      else
        match leadingInt 0 s with
        | None => None
        | Some (v, s1) =>
            let pre := negb (length s1 =? length s)%nat in
            let '(f, scale, s2, post) :=
              match s1 with
              | d :: r =>
                  if Ascii.eqb d "." then
                    let '(f, scale, s2) := leadingFraction 0 (float 1) false r in
                    (f, scale, s2, negb (length s2 =? length r)%nat)
                  else (0, float 1, s1, false)
              | [] => (0, float 1, s1, false)
              end in
            if negb pre && negb post then None
            else
              let '(u, s3) := span (fun c => negb (is_digit_or_dot c)) s2 in
              if bool_decide (u = []) then None
              else
                match unit_of (of_chars u) with
                | None => None
                | Some unit =>
                    if two63 / unit <? v then None
                    else
                      let v := v * unit in
                      let v := if 0 <? f
                               then v + truncate (SFmul 53 1024 (float f)
                                                    (SFdiv 53 1024 (float unit) scale))
                               else v in
                      if two63 <? v then None else Some (v, s3)
                end
        end
  end.

(** Components are summed until the text is used up; each takes at least one
    character, so the length bounds the rounds. *)
Fixpoint parse_components (fuel : nat) (d : Z) (s : list ascii) : option Z :=
  match s, fuel with
  | [], _ => Some d
  | _, O => None
  | _, S fuel' =>
      match parse_component s with
      | None => None
      | Some (v, rest) => if two63 <? d + v then None else parse_components fuel' (d + v) rest
      end
  end.

Definition ParseDuration (value : string) : option duration :=
  let s := chars value in
  let '(neg, s) := match s with
                   | c :: r => if Ascii.eqb c "-" then (true, r)
                               else if Ascii.eqb c "+" then (false, r) else (false, s)
                   | [] => (false, s)
                   end in
  if bool_decide (s = ["0"%char]) then Some 0
  else if bool_decide (s = []) then None
  else
    match parse_components (length s) 0 s with
    | None => None
    | Some d => if neg then Some (- d) else if two63 - 1 <? d then None else Some d
    end.

Example ParseDuration_ex : ParseDuration "1h30m" = Some (90 * Minute).
Proof. vm_compute. reflexivity. Qed.
Example ParseDuration_frac : ParseDuration "-1.5s" = Some (- 1500000000).
Proof. vm_compute. reflexivity. Qed.

(** ** Duration.String *)

(** The last [prec] decimal digits of [v] as a fraction without trailing zeros,
    and the rest of [v]. *)
Definition fmt_frac (v : Z) (prec : nat) : list ascii * Z :=
  let p := 10 ^ Z.of_nat prec in
  let frac := trim_right_zeros (pad_left prec (digits (v mod p))) in
  (if bool_decide (frac = []) then [] else "."%char :: frac, v / p).

Definition duration_string (d : duration) : string :=
  let u := Z.abs d in
  let sign := if d <? 0 then ["-"%char] else [] in
  if u =? 0 then "0s"
  else if u <? Second then
    let '(prec, suffix) := if u <? 1000 then (0%nat, chars "ns")
                           else if u <? 1000000 then (3%nat, [chr 194; chr 181; "s"%char])
                           else (6%nat, chars "ms") in
    let '(frac, v) := fmt_frac u prec in
    of_chars (sign ++ digits v ++ frac ++ suffix)
  else
    let '(frac, v) := fmt_frac u 9 in
    let secs := digits (v mod 60) ++ frac ++ ["s"%char] in
    let m := v / 60 in
    if m =? 0 then of_chars (sign ++ secs)
    else
      let mins := digits (m mod 60) ++ "m"%char :: secs in
      let h := m / 60 in
      of_chars (sign ++ (if h =? 0 then mins else digits h ++ "h"%char :: mins)).

Example duration_string_ex : duration_string (72 * Hour) = "72h0m0s".
Proof. vm_compute. reflexivity. Qed.
Example duration_string_ms : duration_string 1500000 = "1.5ms".
Proof. vm_compute. reflexivity. Qed.
