(* ===== verification/Quality.v ===== *)
(** Series quality: the pure evaluator (internal/quality/evaluate.go), the
    service that feeds it one system-as-of snapshot
    (internal/application/quality/service.go) and the query behind it
    (internal/platform/database/quality.sql.go).

    The zone database is a parameter: [load_location] is [time.LoadLocation] on
    a non-empty name.  The loop over the days of a window may not terminate in
    a location whose clock jumps by a whole day, so it takes fuel and
    answers [None] when that runs out. *)

From S2P Require Import Prelude GoString Digits GoTime Json JsonTree Zone Db Order Tables.
From Stdlib Require Import Ascii SpecFloat.

Module Quality.

Inductive Classification : Set := Fresh | Stale | Missing | Partial | Suspect | Revised.

(** [State] is a string type; the wire may carry other values. *)
Inductive State : Set := Valid | Degraded | Blocked | OtherState (s : string).

#[export] Instance Classification_eq_dec : EqDecision Classification.
Proof. solve_decision. Defined.
#[export] Instance State_eq_dec : EqDecision State.
Proof. solve_decision. Defined.

Record Policy : Type := mkPolicy {
  Version : string;
  Expected : string;
  MaxAge : string;
  AvailabilityLag : string;
  HolidayDates : list string;
}.

Record Sample : Type := mkSample {
  ObservationTime : time;
  QualityFlags : option json;
  SampleRevised : bool;
}.

Record QReason : Type := mkQReason {
  QCode : string;
  QMessage : string;
  AffectedDates : list string;
}.

Record Result : Type := mkResult {
  ResClassification : Classification;
  ResState : State;
  PolicyVersion : string;
  EvaluatedAt : time;
  Reasons : list QReason;
}.

(** ** The policy *)

Definition ErrInvalidPolicy : goerr := ENew "invalid freshness policy".

(** [fmt.Errorf("%w: ...", ErrInvalidPolicy, ...)] and its text. *)
Definition policy_error (detail : string) : goerr := EWrap detail ErrInvalidPolicy.
Definition policy_message (e : goerr) : string :=
  match e with
  | EWrap detail _ => "invalid freshness policy: " +:+ detail
  | _ => "invalid freshness policy"
  end.

(** [%q]; every rune beyond ASCII is taken to be printable. *)
Definition quote (s : string) : string :=
  let esc c :=
    let b := code c in
    if (b =? 34) || (b =? 92) then [chr 92; c]
    else if b =? 7 then chars "\a" else if b =? 8 then chars "\b"
    else if b =? 12 then chars "\f" else if b =? 10 then chars "\n"
    else if b =? 13 then chars "\r" else if b =? 9 then chars "\t"
    else if b =? 11 then chars "\v"
    else if (b <? 32) || (b =? 127)
    then chars "\x" ++ [Sha256.hex_digit (b / 16); Sha256.hex_digit (b mod 16)]
    else [c] in
  of_chars (chr 34 :: flat_map esc (chars s) ++ [chr 34]).

Definition parseDuration (value : string) : option duration :=
  if has_prefix value "P" && has_suffix value "D" then
    match ParseDuration (trim_suffix (trim_prefix value "P") "D" +:+ "h") with
    | Some d => Some (wrap64 (d * 24))
    | None => None
    end
  else ParseDuration value.

Definition defaultExpected (frequency : string) : string :=
  let f := to_lower (trim_space frequency) in
  if bool_decide (f ∈ ["daily"; "day"]) then "calendar_daily"
  else if bool_decide (f = "business_daily") then "business_daily"
  else if bool_decide (f ∈ ["weekly"; "week"]) then "weekly"
  else if bool_decide (f ∈ ["monthly"; "month"]) then "monthly"
  else if bool_decide (f ∈ ["quarterly"; "quarter"]) then "quarterly"
  else if bool_decide (f = "irregular") then "irregular"
  else "".

Definition validExpected (value : string) : bool :=
  bool_decide (value ∈ ["calendar_daily"; "business_daily"; "weekly"; "monthly"; "quarterly";
                        "irregular"]).

(** [json.Unmarshal] into a [Policy]: names match their field whatever their
    case, [null] changes nothing, a value of the wrong type is recorded (the first
    one is the error) and decoding goes on. *)
Definition mismatch (j : json) (field type : string) : string :=
  "json: cannot unmarshal " +:+ kind_name j +:+ " into Go struct field Policy." +:+ field
  +:+ " of type " +:+ type.

Definition decode_strings (j : json) : list string * option string :=
  match j with
  | JArray l =>
      fold_left (fun '(acc, err) x =>
        match decode_string "" x with
        | Some s => (acc ++ [s], err)
        | None => (acc ++ [""], match err with
                                | None => Some (mismatch x "holiday_dates" "string")
                                | _ => err end)
        end) l ([], None)
  | JNull => ([], None)
  | _ => ([], Some (mismatch j "holiday_dates" "[]string"))
  end.

Definition decode_field (st : Policy * option string) (kv : string * json)
    : Policy * option string :=
  let '(p, err) := st in
  let '(name, j) := kv in
  let text (current field : string) (set : string -> Policy) :=
    match decode_string current j with
    | Some s => (set s, err)
    | None => (p, match err with None => Some (mismatch j field "string") | _ => err end)
    end in
  if equal_fold name "version" then
    text (Version p) "version" (fun s => mkPolicy s (Expected p) (MaxAge p) (AvailabilityLag p) (HolidayDates p))
  else if equal_fold name "expected" then
    text (Expected p) "expected" (fun s => mkPolicy (Version p) s (MaxAge p) (AvailabilityLag p) (HolidayDates p))
  else if equal_fold name "max_age" then
    text (MaxAge p) "max_age" (fun s => mkPolicy (Version p) (Expected p) s (AvailabilityLag p) (HolidayDates p))
  else if equal_fold name "availability_lag" then
    text (AvailabilityLag p) "availability_lag"
      (fun s => mkPolicy (Version p) (Expected p) (MaxAge p) s (HolidayDates p))
  else if equal_fold name "holiday_dates" then
    let '(l, e) := decode_strings j in
    (match j with
     | JArray _ | JNull => mkPolicy (Version p) (Expected p) (MaxAge p) (AvailabilityLag p) l
     | _ => p
     end, match err with None => e | _ => err end)
  else (p, err).

Definition empty_policy : Policy := mkPolicy "" "" "" "" [].

Definition unmarshal_policy (j : json) : Policy * option string :=
  match j with
  | JNull => (empty_policy, None)
  | JObject fields => fold_left decode_field fields (empty_policy, None)
  | _ => (empty_policy,
          Some ("json: cannot unmarshal " +:+ kind_name j +:+ " into Go value of type quality.Policy"))
  end.

Section quality.
Context (load_location : string -> option Location).

(** The parsed policy: its fields, the maximum age, the availability lag, the
    holidays and the location. *)
Record parsed : Type := mkParsed {
  pol : Policy;
  max_age : duration;
  lag : duration;
  holidays : gset string;
  location : Location;
}.

Definition parsePolicy (frequency sourceTimezone : string) (raw : option json) : res parsed :=
  match (if negb (bool_decide (trim_space sourceTimezone = ""))
         then load_location sourceTimezone else Some UTC) with
  | None => Err (policy_error ("invalid source timezone " +:+ quote sourceTimezone))
  | Some loc =>
  match raw with
  | None => Err (policy_error "missing or malformed JSON")
  | Some j =>
  match unmarshal_policy j with
  | (_, Some e) => Err (policy_error e)
  | (p, None) =>
      let version := trim_space (Version p) in
      let expected := if bool_decide (Expected p = "") then defaultExpected frequency
                      else Expected p in
      if bool_decide (version = "") then Err (policy_error "version is required")
      else if negb (validExpected expected)
      then Err (policy_error ("unsupported expected schedule " +:+ quote expected))
      else
        match parseDuration (MaxAge p) with
        | None => Err (policy_error "max_age must be a positive duration")
        | Some maxAge =>
            if maxAge <=? 0 then Err (policy_error "max_age must be a positive duration")
            else
              match (if negb (bool_decide (AvailabilityLag p = ""))
                     then parseDuration (AvailabilityLag p) else Some 0) with
              | None => Err (policy_error "availability_lag must be a non-negative duration")
              | Some lag =>
                  if lag <? 0
                  then Err (policy_error "availability_lag must be a non-negative duration")
                  else
                    match List.find (fun d => negb (valid_date d)) (HolidayDates p) with
                    | Some d => Err (policy_error ("holiday_dates entry " +:+ quote d
                                                   +:+ " must be YYYY-MM-DD"))
                    | None =>
                        Ok (mkParsed (mkPolicy version expected (MaxAge p) (AvailabilityLag p)
                                        (HolidayDates p))
                              maxAge lag (list_to_set (HolidayDates p)) loc)
                    end
              end
        end
  end end end.

Definition ValidatePolicy (frequency sourceTimezone : string) (raw : option json) : option goerr :=
  match parsePolicy frequency sourceTimezone raw with Ok _ => None | Err e => Some e end.

(** ** Expected dates *)

Definition isExpectedDate (expected : string) (loc : Location) (day : time)
    (holidays : gset string) : bool :=
  if bool_decide (date_key loc day ∈ holidays) then false
  else if bool_decide (expected = "calendar_daily") then true
  else if bool_decide (expected = "business_daily")
  then negb (Weekday loc day =? 6) && negb (Weekday loc day =? 0)
  else if bool_decide (expected = "weekly") then Weekday loc day =? 5
  else if bool_decide (expected = "monthly") then Day loc day =? 1
  else if bool_decide (expected = "quarterly")
  then (Day loc day =? 1) && ((Month loc day =? 1) || (Month loc day =? 4)
                              || (Month loc day =? 7) || (Month loc day =? 10))
  else false.

(** The days visited from [day] to [end_], one calendar day at a time. *)
Fixpoint days_to (fuel : nat) (loc : Location) (day end_ : time) : option (list time) :=
  if After day end_ then Some []
  else match fuel with
       | O => None
       | S fuel' =>
           match days_to fuel' loc (AddDays loc 1 day) end_ with
           | Some l => Some (day :: l)
           | None => None
           end
       end.

Definition expected_start (loc : Location) (from : time) : time :=
  let start := midnight loc from in
  if After from start then AddDays loc 1 start else start.

Definition expected_end (loc : Location) (to : time) : time :=
  let end_ := midnight loc to in
  if to =? end_ then AddDays loc (-1) end_ else end_.

Definition expectedMissing (fuel : nat) (expected : string) (from to cutoff : time)
    (lag : duration) (holidays : gset string) (samples : gmap string Sample) (loc : Location)
    : option (list string) :=
  if bool_decide (expected = "irregular") then Some []
  else
    match days_to fuel loc (expected_start loc from) (expected_end loc to) with
    | None => None
    | Some days =>
        Some (insertion_sort string_ltb
          (date_key loc <$>
           List.filter (fun day => isExpectedDate expected loc day holidays
                                   && negb (After (day + lag) cutoff)
                                   && bool_decide (samples !! date_key loc day = None)) days))
    end.

(** ** Flags *)

Definition flag_true (fields : list (string * json)) (name : string) : bool :=
  match map_field fields name with Some (JBool true) => true | _ => false end.

Definition flagsContainSuspect (raw : option json) : bool :=
  match raw with
  | None => true
  | Some JNull => false
  | Some (JObject fields) =>
      flag_true fields "suspect" || flag_true fields "invalid"
      || match map_field fields "quality" with
         | Some (JString q) => bool_decide (q = "suspect")
         | _ => false
         end
  | Some _ => true
  end.

Definition flagsContainMissing (raw : option json) : bool :=
  match raw with
  | Some (JObject fields) => flag_true fields "missing" || flag_true fields "missing_expected_period"
  | _ => false
  end.

(** Sort, then drop adjacent repetitions. *)
Fixpoint dedup_sorted (l : list string) : list string :=
  match l with
  | x :: (y :: _) as r => if bool_decide (x = y) then dedup_sorted r else x :: dedup_sorted r
  | _ => l
  end.
Definition uniqueDates (dates : list string) : list string :=
  dedup_sorted (insertion_sort string_ltb dates).

(** ** Evaluate *)

(** What the loop over the samples accumulates. *)
Record scan : Type := mkScan {
  byDate : gmap string Sample;
  latest : time;
  suspectDates : list string;
  revisionDates : list string;
  missingDates : list string;
}.

Definition scan_sample (loc : Location) (st : scan) (sample : Sample) : scan :=
  let at_ := ObservationTime sample in
  let key := date_key loc at_ in
  let revision := if SampleRevised sample then revisionDates st ++ [key] else revisionDates st in
  let suspect := if flagsContainSuspect (QualityFlags sample)
                 then suspectDates st ++ [key] else suspectDates st in
  if flagsContainMissing (QualityFlags sample)
  then mkScan (byDate st) (latest st) suspect revision (missingDates st ++ [key])
  else
    mkScan
      (match byDate st !! key with
       | Some prior => if After at_ (ObservationTime prior)
                       then <[key := sample]> (byDate st) else byDate st
       | None => <[key := sample]> (byDate st)
       end)
      (if After at_ (latest st) then at_ else latest st) suspect revision (missingDates st).

Definition scan_samples (loc : Location) (samples : list Sample) : scan :=
  fold_left (scan_sample loc) samples (mkScan ∅ zero_time [] [] []).

Definition nonempty {A} (l : list A) : bool := match l with [] => false | _ => true end.

Definition classify (sc : scan) (maxAge : duration) (cutoff : time) (missing : list string)
    : Classification :=
  if nonempty (suspectDates sc) then Suspect
  else if bool_decide (byDate sc = ∅) then Missing
  else if maxAge <? Sub cutoff (latest sc) then Stale
  else if nonempty missing || nonempty (missingDates sc) then Partial
  else if nonempty (revisionDates sc) then Revised
  else Fresh.

Definition state_of (c : Classification) (required : bool) : State :=
  match c with
  | Missing | Stale | Partial | Suspect => if required then Blocked else Degraded
  | _ => Valid
  end.

Definition reason_if (b : bool) (r : QReason) : list QReason := if b then [r] else [].

Definition reasons_of (loc : Location) (sc : scan) (maxAge : duration) (from to cutoff : time)
    (missing : list string) : list QReason :=
  reason_if (nonempty (suspectDates sc))
    (mkQReason "SOURCE_QUALITY_SUSPECT"
       "one or more persisted revisions carry a suspect quality flag"
       (uniqueDates (suspectDates sc)))
  ++ reason_if (nonempty (missingDates sc))
       (mkQReason "SOURCE_MARKED_MISSING"
          "the source explicitly marked an expected value as missing"
          (uniqueDates (missingDates sc)))
  ++ reason_if (negb (IsZero (latest sc)) && (maxAge <? Sub cutoff (latest sc)))
       (mkQReason "LATEST_OBSERVATION_STALE"
          ("latest observation is older than policy max_age " +:+ duration_string maxAge)
          [date_key loc (latest sc)])
  ++ reason_if (nonempty (revisionDates sc))
       (mkQReason "OBSERVATION_REVISED"
          "one or more observation dates have differing immutable revisions"
          (uniqueDates (revisionDates sc)))
  ++ reason_if (nonempty missing)
       (if bool_decide (byDate sc = ∅)
        then mkQReason "EXPECTED_DATA_MISSING"
               "no eligible observation exists for the requested window" missing
        else mkQReason "EXPECTED_PERIOD_GAP"
               "one or more expected periods have no eligible observation" missing)
  ++ reason_if (bool_decide (byDate sc = ∅) && negb (nonempty missing)
                && negb (nonempty (missingDates sc)))
       (mkQReason "NO_ELIGIBLE_OBSERVATIONS"
          "no observation is eligible in the requested system-as-of window"
          [date_key loc from; date_key loc (to - Nanosecond)]).

Definition Evaluate (fuel : nat) (frequency sourceTimezone : string) (rawPolicy : option json)
    (from to cutoff : time) (samples : list Sample) (required : bool) : option Result :=
  match parsePolicy frequency sourceTimezone rawPolicy with
  | Err e => Some (mkResult Suspect Blocked "" cutoff
                     [mkQReason "QUALITY_POLICY_INVALID" (policy_message e) []])
  | Ok p =>
      let loc := location p in
      let sc := scan_samples loc samples in
      match expectedMissing fuel (Expected (pol p)) from to cutoff (lag p) (holidays p)
              (byDate sc) loc with
      | None => None
      | Some missing =>
          let c := classify sc (max_age p) cutoff missing in
          Some (mkResult c (state_of c required) (Version (pol p)) cutoff
                  (reasons_of loc sc (max_age p) from to cutoff missing))
      end
  end.

(** ** Aggregate *)

Fixpoint aggregate_from (aggregate : State) (states : list State) : State :=
  match states with
  | [] => aggregate
  | Blocked :: _ => Blocked
  | Degraded :: rest => aggregate_from Degraded rest
  | Valid :: rest => aggregate_from aggregate rest
  | OtherState _ :: _ => Blocked
  end.
Definition Aggregate (states : list State) : State := aggregate_from Valid states.

(** ** The service *)

Definition ErrInvalidRequest : goerr := ENew "invalid quality evaluation request".
Definition ErrNotFound : goerr := ENew "quality series not found".
Definition maxInputs : Z := 100.
Definition maxWindow : duration := 370 * 24 * Hour.
Definition maxObservations : Z := 10000.

Record Input : Type := mkInput { InputSeriesID : string; Required : bool }.
Record QRequest : Type := mkQRequest {
  From : time;
  To : time;
  AsOf : time;
  Inputs : list Input;
}.
Record Item : Type := mkItem { ItemSeriesID : string; ItemRequired : bool; ItemResult : Result }.
Record Response : Type := mkResponse {
  RespState : State;
  RespEvaluatedAt : time;
  Items : list Item;
}.

(** Rows of [series] and [observation_revisions]. *)
Record SeriesRow : Type := mkSeriesRow {
  se_frequency : string;
  se_timezone : option string;
  se_policy : json;
  se_created_at : time;
}.
Record ObservationRow : Type := mkObservationRow {
  ob_series : string;
  ob_time : time;
  ob_value : option Z;
  ob_value_text : option string;
  ob_system_known : time;
  ob_flags : json;
}.
Record qstore : Type := mkQStore {
  series : gmap string SeriesRow;
  observations : gmap string ObservationRow;
}.

(** ListQualityObservations: the latest revision of each observation time known
    at the cutoff, with whether a revision known then differs from it. *)
Definition in_snapshot (id : string) (from to cutoff : time) (r : ObservationRow) : bool :=
  bool_decide (ob_series r = id) && (pg_time from <=? ob_time r) && (ob_time r <? pg_time to)
  && (ob_time r <=? pg_time cutoff) && (ob_system_known r <=? pg_time cutoff).

Definition desc_text {A} (key : A -> string) : comparator A :=
  fun x y => string_cmp (key y) (key x).

Definition latest_order : comparator (string * ObservationRow) :=
  asc (fun kv => ob_time (snd kv)) >> desc (fun kv => ob_system_known (snd kv)) >> desc_text fst.

(** DISTINCT ON: the first of each run of rows with one observation time. *)
Fixpoint distinct_times (rows : list (string * ObservationRow)) (last : option time)
    : list (string * ObservationRow) :=
  match rows with
  | [] => []
  | kv :: rest =>
      if bool_decide (last = Some (ob_time (snd kv))) then distinct_times rest last
      else kv :: distinct_times rest (Some (ob_time (snd kv)))
  end.

Definition is_revised (id : string) (cutoff : time) (s : qstore) (r : ObservationRow) : bool :=
  existsb (fun kv => let prior := snd kv in
    bool_decide (ob_series prior = id) && (ob_time prior =? ob_time r)
    && (ob_system_known prior <=? pg_time cutoff)
    && (negb (bool_decide (ob_value prior = ob_value r))
        || negb (bool_decide (ob_value_text prior = ob_value_text r))))
    (map_to_list (observations s)).

Definition ListQualityObservations (id : string) (from to cutoff : time) (s : qstore)
    : list Sample :=
  take (Z.to_nat 10001)
    ((fun kv => mkSample (ob_time (snd kv)) (Some (ob_flags (snd kv)))
                  (is_revised id cutoff s (snd kv))) <$>
     distinct_times (select (fun _ r => in_snapshot id from to cutoff r) (before latest_order)
                       (observations s)) None).

Section service.
Context (Queries : bool) (scan_uuid : string -> option string) (fuel : nat).

(** One input of the request; [None] is a loop that does not end. *)
Fixpoint evaluate_inputs (request : QRequest) (inputs : list Input) (seen : gset string)
    (total : Z) (items : list Item) : dbm qstore (option (list Item)) :=
  match inputs with
  | [] => ret (Some items)
  | input :: rest =>
      match scan_uuid (InputSeriesID input) with
      | None => throw ErrInvalidRequest
      | Some id =>
          if bool_decide (id ∈ seen) then throw ErrInvalidRequest
          else
            let* r := attempt (pool_query (fun s =>
              match series s !! id with Some row => Ok row | None => Err ENoRows end)) in
            match r with
            | Err e => if errors_is e ENoRows then throw ErrNotFound
                       else throw (EWrap "get quality series" e)
            | Ok row =>
                if After (se_created_at row) (AsOf request) then throw ErrNotFound
                else
                  let* samples := wrap "list quality observations" (pool_query (fun s =>
                    Ok (ListQualityObservations id (From request) (To request) (AsOf request) s))) in
                  let total := total + Z.of_nat (length samples) in
                  if maxObservations <? total then throw ErrInvalidRequest
                  else
                    match Evaluate fuel (se_frequency row) (default "" (se_timezone row))
                            (Some (se_policy row)) (From request) (To request) (AsOf request)
                            samples (Required input) with
                    | None => ret None
                    | Some result =>
                        evaluate_inputs request rest ({[id]} ∪ seen) total
                          (items ++ [mkItem id (Required input) result])
                    end
            end
      end
  end.

Definition EvaluateRequest (request : QRequest) : dbm qstore (option Response) :=
  if negb Queries then throw (ENew "quality database is required")
  else if negb (Before (From request) (To request)) || After (To request) (AsOf request)
          || IsZero (AsOf request) || (maxWindow <? Sub (To request) (From request))
  then throw ErrInvalidRequest
  else if (Z.of_nat (length (Inputs request)) =? 0)
          || (maxInputs <? Z.of_nat (length (Inputs request)))
  then throw ErrInvalidRequest
  else
    let* items := evaluate_inputs request (Inputs request) ∅ 0 [] in
    ret (match items with
         | Some items => Some (mkResponse (Aggregate ((fun i => ResState (ItemResult i)) <$> items))
                                 (AsOf request) items)
         | None => None
         end).
End service.
End quality.
End Quality.
