(* ===== verification/QualityProofs.v ===== *)
(** Properties of the quality evaluator: termination of its day loop and the one
    kind of location in which it fails, the meaning of a missing date and of a
    valid result, the aggregation of states, and independence of the answer from
    anything learnt after the cutoff. *)

From S2P Require Import Prelude GoString Digits GoTime Json JsonTree Zone Db Order Tables Quality.
From Stdlib Require Import Ascii SpecFloat.
From stdpp Require Import sorting.
#[local] Open Scope Z_scope.
Import Quality.

(** ** The day loop *)

(** A location whose offsets lie within a span of 23 hours: every zone that has
    not crossed the date line. *)
Definition narrow (loc : Location) : Prop :=
  exists lo hi, lo <= 0 <= hi /\ hi - lo <= 23 * 3600 /\ forall secs, lo <= offset_at loc secs <= hi.

Lemma Second_pos : 0 < Second. Proof. done. Qed.
Lemma day_ns_eq : day_ns = 86400 * Second. Proof. done. Qed.

(** [time.Date] subtracts one of the offsets of the location, or none. *)
Lemma Date_offset loc lo hi day clock :
  lo <= 0 <= hi -> (forall secs, lo <= offset_at loc secs <= hi) ->
  exists off, lo <= off <= hi /\
    Date day clock loc = (day * day_seconds + clock / Second - off) * Second + clock mod Second.
Proof.
  intros H0 Hoff. unfold Date.
  destruct (zone loc (day * day_seconds + clock / Second)) as [[off start] stop] eqn:Ez.
  pose proof (Hoff (day * day_seconds + clock / Second)) as Ho.
  unfold offset_at in Ho at 1 2. rewrite Ez in Ho. cbn in Ho.
  destruct (off =? 0).
  - exists 0. split; [lia|]. f_equal. f_equal. lia.
  - destruct (_ || _); eexists; (split; [|reflexivity]); [apply Hoff|lia].
Qed.

Lemma wall_split loc t :
  local_day loc t * day_ns + local_clock loc t = wall loc t.
Proof.
  unfold local_day, local_clock. pose proof (Z.div_mod (wall loc t) day_ns ltac:(done)). lia.
Qed.

(** A step of the loop moves the clock on by at least an hour. *)
Lemma AddDays_advances loc lo hi n t :
  lo <= 0 <= hi -> (forall secs, lo <= offset_at loc secs <= hi) ->
  n * 86400 - (hi - lo) <= (AddDays loc n t - t) / Second <= n * 86400 + (hi - lo) /\
  (AddDays loc n t - t) mod Second = 0.
Proof.
  intros H0 Hoff. unfold AddDays.
  destruct (Date_offset loc lo hi (local_day loc t + n) (local_clock loc t) H0 Hoff) as (off & Ho & ->).
  pose proof (wall_split loc t) as Hw. unfold wall in Hw.
  pose proof (Hoff (t / Second)) as Ht. set (o := offset_at loc (t / Second)) in *.
  set (d := local_day loc t) in *. set (c := local_clock loc t) in *. clearbody d c o.
  pose proof (Z.div_mod c Second ltac:(done)) as Hc. rewrite day_ns_eq in Hw. unfold day_seconds.
  replace (((d + n) * 86400 + c / Second - off) * Second + c mod Second - t)
    with ((n * 86400 + o - off) * Second) by lia.
  rewrite Z.div_mul, Z.mod_mul by done. lia.
Qed.

Lemma AddDays_hour loc t : narrow loc -> t + Hour <= AddDays loc 1 t.
Proof.
  intros (lo & hi & H0 & Hspan & Hoff).
  destruct (AddDays_advances loc lo hi 1 t H0 Hoff) as [Hd Hm].
  pose proof (Z.div_mod (AddDays loc 1 t - t) Second ltac:(done)) as Hdm. rewrite Hm in Hdm.
  unfold Hour, Minute, Second in *. lia.
Qed.

Lemma days_to_fuel loc end_ fuel : forall day,
  narrow loc -> (end_ - day) / Hour + 1 <= Z.of_nat fuel ->
  is_Some (days_to fuel loc day end_).
Proof.
  induction fuel as [|fuel IH]; intros day Hn Hf; cbn [days_to]; unfold After.
  - destruct (Z.ltb_spec end_ day); [eauto|].
    pose proof (Z.div_pos (end_ - day) Hour ltac:(lia) ltac:(done)). lia.
  - destruct (Z.ltb_spec end_ day); [eauto|].
    pose proof (AddDays_hour loc day Hn) as Hadv.
    destruct (IH (AddDays loc 1 day) Hn) as [l ->]; [|eauto].
    assert (Hle : (end_ - AddDays loc 1 day) / Hour <= (end_ - day + (-1) * Hour) / Hour).
    { apply Z.div_le_mono; [done|lia]. }
    rewrite Z.div_add in Hle by done. lia.
Qed.

Lemma midnight_near loc t : narrow loc -> t - 47 * Hour <= midnight loc t <= t + 23 * Hour.
Proof.
  intros (lo & hi & H0 & Hspan & Hoff). unfold midnight.
  destruct (Date_offset loc lo hi (local_day loc t) 0 H0 Hoff) as (off & Ho & ->).
  pose proof (wall_split loc t) as Hw. unfold wall in Hw. pose proof (Hoff (t / Second)) as Ht.
  assert (Hc : 0 <= local_clock loc t < day_ns) by (apply Z.mod_pos_bound; done).
  change (0 / Second) with 0. change (0 mod Second) with 0.
  unfold day_ns, day_seconds, Hour, Minute, Second in *. lia.
Qed.

Lemma AddDays_near loc n t :
  narrow loc -> t + (n * 24 - 23) * Hour <= AddDays loc n t <= t + (n * 24 + 23) * Hour.
Proof.
  intros (lo & hi & H0 & Hspan & Hoff).
  destruct (AddDays_advances loc lo hi n t H0 Hoff) as [Hd Hm].
  pose proof (Z.div_mod (AddDays loc n t - t) Second ltac:(done)) as Hdm. rewrite Hm in Hdm.
  unfold Hour, Minute, Second in *. lia.
Qed.



(** ** A clock that jumps a day *)

(** Samoa crossed the date line at the end of 29 December 2011: ten hours behind
    Greenwich until 2011-12-30T10:00Z, fourteen ahead from then on. *)
Definition date_line : Z := 1325239200.
Definition apia : Location :=
  mkLocation (fun secs => if secs <? date_line then (-36000, - 2 ^ 62, date_line)
                          else (50400, date_line, 2 ^ 62)).

Definition eve : time := (date_line - 86400) * Second.

Lemma apia_stuck : AddDays apia 1 eve = eve.
Proof. vm_compute. reflexivity. Qed.

Lemma days_to_stuck loc day end_ fuel :
  AddDays loc 1 day = day -> day <= end_ -> days_to fuel loc day end_ = None.
Proof.
  intros Hs He. induction fuel as [|fuel IH]; cbn [days_to]; unfold After;
    rewrite (proj2 (Z.ltb_ge _ _) He); [done|]. by rewrite Hs, IH.
Qed.

Definition daily_policy : json :=
  JObject [("version", JString "1"); ("expected", JString "calendar_daily");
           ("max_age", JString "72h")].

Definition daily_parsed (loc : Location) : parsed :=
  mkParsed (mkPolicy "1" "calendar_daily" "72h" "" []) (72 * Hour) 0 ∅ loc.

Lemma daily_policy_parsed loc :
  parsePolicy (fun _ => Some loc) "daily" "Pacific/Apia" (Some daily_policy) = Ok (daily_parsed loc).
Proof. vm_compute. reflexivity. Qed.

(** In a location that skips a calendar day the evaluator does not return:
    the midnight of the skipped day is resolved to the midnight before it, so
    adding a day to that one gives it again, and no number of rounds reaches
    the end of a window containing it. *)
Theorem evaluate_stuck_at_date_line fuel samples required :
  Evaluate (fun _ => Some apia) fuel "daily" "Pacific/Apia" (Some daily_policy)
    eve (eve + 5 * 24 * Hour) (eve + 5 * 24 * Hour) samples required = None.
Proof.
  unfold Evaluate.
  rewrite daily_policy_parsed. unfold expectedMissing.
  cbn [Expected pol location daily_parsed lag holidays]. rewrite bool_decide_false by done.
  assert (Hs : expected_start apia eve = eve) by (vm_compute; reflexivity).
  rewrite Hs, days_to_stuck; [done|apply apia_stuck|]. vm_compute. congruence.
Qed.

(** ** Missing dates in UTC *)

Lemma utc_wall t : wall UTC t = t.
Proof. unfold wall, offset_at. cbn. lia. Qed.

Lemma utc_Date day clock : Date day clock UTC = day * day_ns + clock.
Proof.
  unfold Date. cbn [zone UTC]. rewrite Z.eqb_refl. pose proof (Z.div_mod clock Second ltac:(done)).
  unfold day_ns, day_seconds, Second in *. lia.
Qed.

Lemma utc_local_day d : local_day UTC (d * day_ns) = d.
Proof. unfold local_day. rewrite utc_wall. by apply Z.div_mul. Qed.

Lemma utc_midnight t : midnight UTC t = t / day_ns * day_ns.
Proof. unfold midnight, local_day. rewrite utc_Date, utc_wall. lia. Qed.

Lemma utc_AddDays n d : AddDays UTC n (d * day_ns) = (d + n) * day_ns.
Proof.
  unfold AddDays. rewrite utc_Date, utc_local_day. unfold local_clock.
  rewrite utc_wall, Z.mod_mul by done. lia.
Qed.

Lemma utc_start from : expected_start UTC from = (- ((- from) / day_ns)) * day_ns.
Proof.
  unfold expected_start. rewrite utc_midnight. unfold After.
  pose proof (Z.div_mod from day_ns ltac:(done)) as H1.
  pose proof (Z.mod_pos_bound from day_ns ltac:(done)) as H2.
  pose proof (Z.div_mod (- from) day_ns ltac:(done)) as H3.
  pose proof (Z.mod_pos_bound (- from) day_ns ltac:(done)) as H4.
  destruct (Z.ltb_spec (from / day_ns * day_ns) from).
  - rewrite utc_AddDays. f_equal. unfold day_ns, Second in *. nia.
  - f_equal. unfold day_ns, Second in *. nia.
Qed.

Lemma utc_end to : expected_end UTC to = ((to - 1) / day_ns) * day_ns.
Proof.
  unfold expected_end. rewrite utc_midnight.
  pose proof (Z.div_mod to day_ns ltac:(done)) as H1.
  pose proof (Z.mod_pos_bound to day_ns ltac:(done)) as H2.
  pose proof (Z.div_mod (to - 1) day_ns ltac:(done)) as H3.
  pose proof (Z.mod_pos_bound (to - 1) day_ns ltac:(done)) as H4.
  destruct (Z.eqb_spec to (to / day_ns * day_ns)).
  - rewrite utc_AddDays. f_equal. unfold day_ns, Second in *. nia.
  - f_equal. unfold day_ns, Second in *. nia.
Qed.

Lemma utc_days fuel : forall a b l,
  days_to fuel UTC (a * day_ns) (b * day_ns) = Some l ->
  forall t, t ∈ l <-> exists d, a <= d <= b /\ t = d * day_ns.
Proof.
  assert (Hp : 0 < day_ns) by done.
  induction fuel as [|fuel IH]; intros a b l; cbn [days_to]; unfold After.
  - destruct (Z.ltb_spec (b * day_ns) (a * day_ns)); [|done]. intros [= <-] t.
    rewrite elem_of_nil. split; [done|]. intros (d & Hd & _). nia.
  - destruct (Z.ltb_spec (b * day_ns) (a * day_ns)).
    + intros [= <-] t. rewrite elem_of_nil. split; [done|]. intros (d & Hd & _). nia.
    + rewrite utc_AddDays. destruct (days_to fuel UTC ((a + 1) * day_ns) (b * day_ns)) as [l'|] eqn:E; [|done].
      intros [= <-] t. rewrite elem_of_cons, (IH _ _ _ E). split.
      * intros [->|(d & Hd & ->)]; [exists a|exists d]; split; try done; nia.
      * intros (d & Hd & ->). destruct (decide (d = a)) as [->|]; [by left|].
        right. exists d. split; [lia|done].
Qed.

(** In UTC the missing dates reported are exactly the dates of the half-open
    window that the schedule expects, that are not holidays, whose lag has
    elapsed by the cutoff, and that no sample bears; and they are listed in
    order. *)
Theorem missing_dates_exact fuel expected from to cutoff lag holidays samples l :
  expected <> "irregular"%string ->
  expectedMissing fuel expected from to cutoff lag holidays samples UTC = Some l ->
  StronglySorted (below string_ltb) l /\
  forall key, key ∈ l <-> exists d,
    from <= d * day_ns < to /\ key = format_date (civil_from_days d) /\
    isExpectedDate expected UTC (d * day_ns) holidays = true /\
    d * day_ns + lag <= cutoff /\ samples !! key = None.
Proof.
  intros Hne. unfold expectedMissing. rewrite bool_decide_false by done.
  rewrite utc_start, utc_end.
  destruct (days_to fuel UTC _ _) as [days|] eqn:E; [|done]. intros [= <-].
  split; [apply insertion_sort_sorted; [apply string_ltb_le_trans|apply string_ltb_asym]|].
  intros key. rewrite insertion_sort_elem, list_elem_of_fmap.
  pose proof (utc_days _ _ _ _ E) as Hdays.
  assert (Hrange : forall d, - (- from / day_ns) <= d <= (to - 1) / day_ns <-> from <= d * day_ns < to).
  { intros d. pose proof (Z.div_mod (- from) day_ns ltac:(done)) as H1.
    pose proof (Z.mod_pos_bound (- from) day_ns ltac:(done)) as H2.
    pose proof (Z.div_mod (to - 1) day_ns ltac:(done)) as H3.
    pose proof (Z.mod_pos_bound (to - 1) day_ns ltac:(done)) as H4.
    unfold day_ns, Second in *. nia. }
  assert (Hkey : forall d, date_key UTC (d * day_ns) = format_date (civil_from_days d)).
  { intros d. unfold date_key. by rewrite utc_local_day. }
  split.
  - intros (t & -> & Hin). rewrite list_elem_of_In, filter_In, <- list_elem_of_In in Hin.
    destruct Hin as [Hin Hc]. apply Hdays in Hin as (d & Hd & ->). unfold After in Hc. bool_simp.
    exists d. rewrite Hkey in *. split_and!; try done; try lia; by apply Hrange.
  - intros (d & Hd & -> & He & Hlag & Hs). exists (d * day_ns). rewrite Hkey. split; [done|].
    rewrite list_elem_of_In, filter_In, <- list_elem_of_In, Hdays.
    split; [exists d; split; [by apply Hrange|done]|].
    unfold After. rewrite He, Hkey, (bool_decide_true (samples !! _ = None)) by done.
    rewrite (proj2 (Z.ltb_ge _ _) Hlag). done.
Qed.

Lemma missing_dates_exact_witness :
  StronglySorted (below string_ltb) ["1970-01-02"; "1970-01-05"]%string /\
  forall key, key ∈ ["1970-01-02"; "1970-01-05"]%string <-> exists d,
    0 <= d * day_ns < 6 * day_ns /\ key = format_date (civil_from_days d) /\
    isExpectedDate "business_daily" UTC (d * day_ns) {["1970-01-01"%string]} = true /\
    d * day_ns + 0 <= 5 * day_ns - 1 /\ (∅ : gmap string Sample) !! key = None.
Proof.
  apply (missing_dates_exact 10 "business_daily" 0 (6 * day_ns) (5 * day_ns - 1) 0
    {["1970-01-01"%string]} ∅ ["1970-01-02"; "1970-01-05"]%string); [done|].
  vm_compute. reflexivity.
Defined.

(** ** Durations *)

Lemma policy_days_wrap :
  parseDuration "P3D" = Some (72 * Hour) /\
  parseDuration "P2000000D" = Some (wrap64 (2000000 * 24 * Hour)) /\
  0 < wrap64 (2000000 * 24 * Hour) < 2000000 * 24 * Hour.
Proof. vm_compute. done. Qed.

(** ** Scanning the samples *)

(** What the scan says of the samples. *)
Record scanned (loc : Location) (samples : list Sample) (st : scan) : Prop := {
  sc_suspect : nonempty (suspectDates st) = existsb (fun s => flagsContainSuspect (QualityFlags s)) samples;
  sc_missing : nonempty (missingDates st) = existsb (fun s => flagsContainMissing (QualityFlags s)) samples;
  sc_revised : nonempty (revisionDates st) = existsb SampleRevised samples;
  sc_dates key : is_Some (byDate st !! key) <->
    exists s, s ∈ samples /\ flagsContainMissing (QualityFlags s) = false /\
              date_key loc (ObservationTime s) = key;
  sc_latest t : t <= latest st <->
    t <= zero_time \/
    exists s, s ∈ samples /\ flagsContainMissing (QualityFlags s) = false /\ t <= ObservationTime s;
}.

Lemma nonempty_app {A} (l k : list A) : nonempty (l ++ k) = nonempty l || nonempty k.
Proof. by destruct l. Qed.

Lemma scan_samples_spec loc samples : scanned loc samples (scan_samples loc samples).
Proof.
  induction samples as [|s samples IH] using rev_ind.
  - split; try done.
    + intros key. cbn. rewrite lookup_empty. split; [by intros []|].
      intros (s & Hs & _). by apply elem_of_nil in Hs.
    + intros t. cbn. split; [by left|]. intros [H|(s & Hs & _)]; [done|]. by apply elem_of_nil in Hs.
  - unfold scan_samples in *. rewrite fold_left_app. cbn [fold_left].
    set (st := fold_left _ samples _) in *. destruct IH as [H1 H2 H3 H4 H5].
    assert (Hex : forall P : Sample -> Prop,
      (exists x, x ∈ samples ++ [s] /\ P x) <-> (exists x, x ∈ samples /\ P x) \/ P s).
    { intros P. split.
      - intros (x & Hx & HP). apply elem_of_app in Hx as [Hx|Hx]; [left; eauto|].
        apply list_elem_of_singleton in Hx as ->. by right.
      - intros [(x & Hx & HP)|HP]; [exists x|exists s]; rewrite elem_of_app, list_elem_of_singleton; auto. }
    unfold scan_sample. split; rewrite ?existsb_app; cbn [existsb]; rewrite ?orb_false_r.
    + rewrite <- H1. destruct (flagsContainMissing _), (flagsContainSuspect _); cbn;
        rewrite ?nonempty_app, ?orb_true_r, ?orb_false_r; done.
    + rewrite <- H2. destruct (flagsContainMissing _); cbn;
        rewrite ?nonempty_app, ?orb_true_r, ?orb_false_r; done.
    + rewrite <- H3. destruct (flagsContainMissing _), (SampleRevised s); cbn;
        rewrite ?nonempty_app, ?orb_true_r, ?orb_false_r; done.
    + intros key. rewrite Hex, <- H4. destruct (flagsContainMissing (QualityFlags s)) eqn:Em; cbn [byDate].
      * split; [by left|]. intros [H|[? _]]; done.
      * destruct (byDate st !! date_key loc (ObservationTime s)) as [prior|] eqn:Ep; [case_match|].
        -- rewrite lookup_insert_is_Some. split.
           ++ intros [<-|[_ H']]; [by right|by left].
           ++ intros [H'|[_ <-]]; [|by left]. destruct (decide (date_key loc (ObservationTime s) = key)); auto.
        -- split; [by left|]. intros [H'|[_ <-]]; [done|]. by rewrite Ep.
        -- rewrite lookup_insert_is_Some. split.
           ++ intros [<-|[_ H']]; [by right|by left].
           ++ intros [H'|[_ <-]]; [|by left]. destruct (decide (date_key loc (ObservationTime s) = key)); auto.
    + intros t. rewrite Hex. destruct (flagsContainMissing (QualityFlags s)) eqn:Em; cbn [latest].
      * rewrite H5. intuition done.
      * unfold After. destruct (Z.ltb_spec (latest st) (ObservationTime s)) as [Hlt|Hge].
        -- split; [by right; right|]. intros [H|[H|[_ H]]]; [| |done];
             (apply Z.le_trans with (latest st); [|lia]); apply H5; auto.
        -- rewrite H5. split; [intuition|]. intros [H|[H|[_ H]]]; [by left|by right|].
           assert (Hl : t <= latest st) by lia. by apply H5.
Qed.

(** ** The verdict *)

Lemma Sub_mono t u v d : u <= v -> Sub t u <= d -> Sub t v <= d.
Proof.
  unfold Sub. intros. unfold min_int64, max_int64, two63 in *. repeat case_match; bool_simp; lia.
Qed.

Lemma existsb_false {A} (p : A -> bool) l : existsb p l = false <-> forall x, x ∈ l -> p x = false.
Proof.
  rewrite <- not_true_iff_false, existsb_exists. split.
  - intros H x Hx. destruct (p x) eqn:E; [|done]. exfalso. apply H. exists x.
    by rewrite <- list_elem_of_In.
  - intros H (x & Hx & Hp). rewrite <- list_elem_of_In in Hx. rewrite H in Hp; done.
Qed.

(** No date is reported missing exactly when every due day has a sample. *)
Lemma expectedMissing_none fuel expected from to cutoff lag holidays samples loc missing :
  expectedMissing fuel expected from to cutoff lag holidays samples loc = Some missing ->
  nonempty missing = false <->
  (expected <> "irregular"%string ->
   forall days, days_to fuel loc (expected_start loc from) (expected_end loc to) = Some days ->
   forall day, day ∈ days -> isExpectedDate expected loc day holidays = true ->
     day + lag <= cutoff -> is_Some (samples !! date_key loc day)).
Proof.
  unfold expectedMissing. case_bool_decide as Hirr; [by intros [= <-]|].
  destruct (days_to fuel loc _ _) as [days|]; [|done]. intros [= <-].
  set (due := List.filter _ days).
  assert (Hdue : forall day, day ∈ due <-> day ∈ days /\ isExpectedDate expected loc day holidays = true /\
            day + lag <= cutoff /\ samples !! date_key loc day = None).
  { intros day. unfold due. rewrite list_elem_of_In, filter_In, <- list_elem_of_In.
    unfold After. rewrite !andb_true_iff, negb_true_iff, Z.ltb_ge, bool_decide_eq_true. tauto. }
  assert (Hnil : nonempty (insertion_sort string_ltb (date_key loc <$> due)) = false <-> due = []).
  { destruct due as [|d due']; [done|]. split; [|done]. intros Hn.
    destruct (insertion_sort _ _) as [|x l] eqn:Es; [|done].
    pose proof (insertion_sort_perm string_ltb (date_key loc <$> d :: due')) as Hp.
    rewrite Es in Hp. by apply Permutation_nil_cons in Hp. }
  rewrite Hnil. split.
  - intros Hd _ days' [= <-] day Hday Hexp Hlag.
    destruct (samples !! date_key loc day) eqn:Eb; [eauto|]. exfalso.
    assert (Hin : day ∈ due) by (apply Hdue; by split_and!). rewrite Hd in Hin. by apply elem_of_nil in Hin.
  - intros Hall. destruct due as [|d due'] eqn:Ed; [done|]. exfalso.
    destruct (proj1 (Hdue d) ltac:(constructor)) as (Hin & Hexp & Hlag & Hno).
    destruct (Hall Hirr days eq_refl d Hin Hexp Hlag) as [x Hx]. congruence.
Qed.

Lemma classify_valid sc maxAge cutoff missing required :
  state_of (classify sc maxAge cutoff missing) required = Valid <->
  nonempty (suspectDates sc) = false /\ byDate sc <> ∅ /\ Sub cutoff (latest sc) <= maxAge /\
  nonempty missing = false /\ nonempty (missingDates sc) = false.
Proof.
  unfold classify. destruct (nonempty (suspectDates sc)); [destruct required; cbn; intuition discriminate|].
  case_bool_decide; [destruct required; cbn; intuition discriminate|].
  destruct (Z.ltb_spec maxAge (Sub cutoff (latest sc))).
  { split; [by destruct required|]. intros (_ & _ & ? & _). lia. }
  destruct (nonempty missing); [destruct required; cbn; intuition discriminate|].
  destruct (nonempty (missingDates sc)); [destruct required; cbn; intuition discriminate|]. cbn [orb].
  destruct (nonempty (revisionDates sc)); cbn; split; try done; intros _; by split_and!.
Qed.

(** The newest sample decides the age test. *)
Lemma age_of_latest loc samples sc cutoff maxAge :
  scanned loc samples sc -> (forall s, s ∈ samples -> zero_time < ObservationTime s) ->
  (forall s, s ∈ samples -> flagsContainMissing (QualityFlags s) = false) ->
  byDate sc <> ∅ /\ Sub cutoff (latest sc) <= maxAge <->
  exists s, s ∈ samples /\ Sub cutoff (ObservationTime s) <= maxAge.
Proof.
  intros [_ _ _ H4 H5] Hzero Hmiss. split.
  - intros [Hb Hage]. apply map_choose in Hb as (k & x & Hx).
    destruct (proj1 (H4 k) (ex_intro _ x Hx)) as (s & Hs & _ & _).
    destruct (proj1 (H5 (latest sc)) ltac:(lia)) as [Hz|(s' & Hs' & _ & Ht)].
    + exists s. split; [done|]. eapply Sub_mono; [|exact Hage]. pose proof (Hzero s Hs). lia.
    + exists s'. split; [done|]. by eapply Sub_mono.
  - intros (s & Hs & Hage). split.
    + intros He. assert (Hk : is_Some (byDate sc !! date_key loc (ObservationTime s))).
      { apply H4. exists s. auto. }
      rewrite He, lookup_empty in Hk. by destruct Hk.
    + eapply Sub_mono; [|exact Hage]. apply H5. right. exists s. split_and!; auto; lia.
Qed.

(** C34: what a valid verdict certifies.  For samples after the year one, a series
    is valid exactly when its policy parses, no sample is marked suspect,
    malformed or missing, the newest sample is within the maximum age at the
    cutoff, and every visited day that the schedule expects and whose lag has
    elapsed has a sample of its date; whether the series is required makes no
    difference. *)
Theorem valid_verdict load_location fuel frequency tz raw from to cutoff samples required r :
  (forall s, s ∈ samples -> zero_time < ObservationTime s) ->
  Evaluate load_location fuel frequency tz raw from to cutoff samples required = Some r ->
  ResState r = Valid <->
  exists p, parsePolicy load_location frequency tz raw = Ok p /\
    (forall s, s ∈ samples -> flagsContainSuspect (QualityFlags s) = false /\
                              flagsContainMissing (QualityFlags s) = false) /\
    (exists s, s ∈ samples /\ Sub cutoff (ObservationTime s) <= max_age p) /\
    (Expected (pol p) <> "irregular"%string ->
     forall days, days_to fuel (location p) (expected_start (location p) from)
                    (expected_end (location p) to) = Some days ->
     forall day, day ∈ days ->
       isExpectedDate (Expected (pol p)) (location p) day (holidays p) = true ->
       day + lag p <= cutoff ->
       exists s, s ∈ samples /\ date_key (location p) (ObservationTime s) = date_key (location p) day).
Proof.
  intros Hzero. unfold Evaluate.
  destruct (parsePolicy load_location frequency tz raw) as [p|e];
    [|intros [= <-]; split; [done|by intros (p & ? & _)]].
  pose proof (scan_samples_spec (location p) samples) as Hsc.
  set (sc := scan_samples (location p) samples) in *.
  destruct (expectedMissing _ _ _ _ _ _ _ _ _) as [missing|] eqn:Em; [|done]. intros [= <-].
  apply expectedMissing_none in Em. cbn [ResState]. rewrite classify_valid, Em.
  rewrite (sc_suspect _ _ _ Hsc), (sc_missing _ _ _ Hsc), !existsb_false.
  pose proof (age_of_latest _ _ _ cutoff (max_age p) Hsc Hzero) as Hage.
  assert (Hdate : forall day, (forall s, s ∈ samples -> flagsContainMissing (QualityFlags s) = false) ->
    is_Some (byDate sc !! date_key (location p) day) <->
    exists s, s ∈ samples /\ date_key (location p) (ObservationTime s) = date_key (location p) day).
  { intros day Hm. rewrite (sc_dates _ _ _ Hsc). split.
    - intros (s & Hs & _ & Hk). eauto.
    - intros (s & Hs & Hk). exists s. auto. }
  split.
  - intros (Hs & Hb & Ha & Hd & Hm). exists p. split; [done|]. split; [auto|].
    split; [by apply Hage|]. intros Hirr days Hdays day Hday Hexp Hlag.
    apply Hdate; [done|]. by apply (Hd Hirr days).
  - intros (p' & [= <-] & Hf & Ha & Hd).
    assert (Hm : forall s, s ∈ samples -> flagsContainMissing (QualityFlags s) = false)
      by (intros s Hs; by apply Hf).
    apply Hage in Ha as [Hb Ha]; [|done]. split_and!; try done.
    + intros s Hs. by apply Hf.
    + intros Hirr days Hdays day Hday Hexp Hlag. apply Hdate; [done|]. by apply (Hd Hirr days).
Qed.

Definition demo_samples : list Sample :=
  [mkSample (2 * day_ns + Hour) (Some (JObject [])) false;
   mkSample (3 * day_ns + Hour) (Some (JObject [])) true].

Lemma valid_verdict_witness :
  Valid = Valid <->
  exists p, parsePolicy (fun _ => Some UTC) "daily" "" (Some daily_policy) = Ok p /\
    (forall s, s ∈ demo_samples -> flagsContainSuspect (QualityFlags s) = false /\
                                   flagsContainMissing (QualityFlags s) = false) /\
    (exists s, s ∈ demo_samples /\ Sub (4 * day_ns) (ObservationTime s) <= max_age p) /\
    (Expected (pol p) <> "irregular"%string ->
     forall days, days_to 10 (location p) (expected_start (location p) (2 * day_ns))
                    (expected_end (location p) (4 * day_ns)) = Some days ->
     forall day, day ∈ days ->
       isExpectedDate (Expected (pol p)) (location p) day (holidays p) = true ->
       day + lag p <= 4 * day_ns ->
       exists s, s ∈ demo_samples /\
         date_key (location p) (ObservationTime s) = date_key (location p) day).
Proof.
  apply (valid_verdict (fun _ => Some UTC) 10 "daily" "" (Some daily_policy) (2 * day_ns) (4 * day_ns)
           (4 * day_ns) demo_samples true
           (mkResult Revised Valid "1" (4 * day_ns)
              [mkQReason "OBSERVATION_REVISED"
                 "one or more observation dates have differing immutable revisions" ["1970-01-04"%string]])).
  - intros s [->|[->|Hs]%elem_of_cons]%elem_of_cons; [done|done|by apply elem_of_nil in Hs].
  - vm_compute. reflexivity.
Defined.

(** ** Aggregation *)

Definition aggregates_blocked (s : State) : bool :=
  match s with Blocked | OtherState _ => true | _ => false end.

Lemma aggregate_from_spec states : forall a, a = Valid \/ a = Degraded ->
  aggregate_from a states =
    if existsb aggregates_blocked states then Blocked
    else if bool_decide (a = Degraded) || existsb (fun s => bool_decide (s = Degraded)) states
    then Degraded else Valid.
Proof.
  induction states as [|s states IH]; intros a Ha; cbn [aggregate_from existsb].
  - destruct Ha as [-> | ->]; done.
  - destruct s; cbn [aggregates_blocked orb]; try done; rewrite IH by auto.
    + by destruct Ha as [-> | ->].
    + by destruct Ha as [-> | ->].
Qed.

(** Aggregation takes the most restrictive state: blocked when any input is
    blocked or unknown, else degraded when any is degraded, else valid; so it
    does not depend on the order of the inputs, and adding one never makes the
    whole less restricted. *)
Lemma aggregate_most_restrictive states :
  Aggregate states =
    (if existsb aggregates_blocked states then Blocked
     else if existsb (fun s => bool_decide (s = Degraded)) states then Degraded else Valid) /\
  (forall states', states ≡ₚ states' -> Aggregate states' = Aggregate states) /\
  (forall s, Aggregate (s :: states) = Valid -> s = Valid /\ Aggregate states = Valid).
Proof.
  assert (Hspec : forall l, Aggregate l = if existsb aggregates_blocked l then Blocked
     else if existsb (fun s => bool_decide (s = Degraded)) l then Degraded else Valid).
  { intros l. unfold Aggregate. rewrite aggregate_from_spec by auto. done. }
  assert (Hperm : forall (p : State -> bool) l l', l ≡ₚ l' -> existsb p l = existsb p l').
  { intros p l l'. induction 1; cbn; try congruence. by rewrite !orb_assoc, (orb_comm (p y)). }
  split; [apply Hspec|]. split.
  - intros states' Hp. rewrite !Hspec. by rewrite !(Hperm _ _ _ Hp).
  - intros s. rewrite !Hspec. cbn [existsb].
    destruct s; cbn; try done; repeat (case_match; try done).
Qed.

(** ** Reproducibility *)

Section reproducible.
Context (load_location : string -> option Location) (scan_uuid : string -> option string)
  (fuel : nat) (request : QRequest).

(** Two stores that agree on what was known at the evaluation time. *)
Definition same_knowledge (s1 s2 : qstore) : Prop :=
  series s1 = series s2 /\
  forall id r, ob_system_known r <= pg_time (AsOf request) ->
    observations s1 !! id = Some r <-> observations s2 !! id = Some r.

Lemma latest_order_preordered : Preordered latest_order.
Proof.
  unfold latest_order. apply then_by_preordered; [apply _|].
  split; unfold desc_text; intros x y; [apply (cmp_opp (c := asc_text fst) y x)|].
  intros z H1 H2. exact (cmp_le_trans (c := asc_text (@fst string ObservationRow)) z y x H2 H1).
Qed.

Lemma latest_order_eq x y : latest_order x y = Eq -> fst x = fst y.
Proof.
  unfold latest_order, then_by, asc, desc, desc_text.
  destruct (_ ?= _); try done. destruct (_ ?= _); try done.
  intros H. symmetry. by apply string_cmp_eq.
Qed.

Lemma select_known (p : string -> ObservationRow -> bool) s1 s2 :
  same_knowledge s1 s2 ->
  (forall id r, p id r = true -> ob_system_known r <= pg_time (AsOf request)) ->
  select p (before latest_order) (observations s1) = select p (before latest_order) (observations s2).
Proof.
  intros [_ Hs] Hp. unfold select. pose proof latest_order_preordered as Hpre.
  apply (sort_unique latest_order).
  - apply NoDup_Permutation.
    + apply NoDup_ListNoDup, List.NoDup_filter, NoDup_ListNoDup, NoDup_map_to_list.
    + apply NoDup_ListNoDup, List.NoDup_filter, NoDup_ListNoDup, NoDup_map_to_list.
    + intros [id r]. rewrite !list_elem_of_In, !filter_In, <- !list_elem_of_In, !elem_of_map_to_list.
      split; intros [H1 H2]; (split; [|done]); apply Hs; by eauto.
  - intros [id1 r1] [id2 r2] H1 H2 He. apply latest_order_eq in He. cbn in He. subst id2.
    rewrite list_elem_of_In, filter_In, <- list_elem_of_In, elem_of_map_to_list in H1, H2.
    destruct H1 as [H1 _], H2 as [H2 _]. cbn in *. congruence.
Qed.

Lemma is_revised_known id s1 s2 r :
  same_knowledge s1 s2 -> is_revised id (AsOf request) s1 r = is_revised id (AsOf request) s2 r.
Proof.
  intros [_ Hs]. unfold is_revised. apply eq_true_iff_eq. rewrite !existsb_exists.
  assert (H : forall s s' : qstore,
    (forall id r, ob_system_known r <= pg_time (AsOf request) ->
       observations s !! id = Some r -> observations s' !! id = Some r) ->
    (exists x, In x (map_to_list (observations s)) /\
       bool_decide (ob_series (snd x) = id) && (ob_time (snd x) =? ob_time r)
       && (ob_system_known (snd x) <=? pg_time (AsOf request))
       && (negb (bool_decide (ob_value (snd x) = ob_value r))
           || negb (bool_decide (ob_value_text (snd x) = ob_value_text r))) = true) ->
    exists x, In x (map_to_list (observations s')) /\
       bool_decide (ob_series (snd x) = id) && (ob_time (snd x) =? ob_time r)
       && (ob_system_known (snd x) <=? pg_time (AsOf request))
       && (negb (bool_decide (ob_value (snd x) = ob_value r))
           || negb (bool_decide (ob_value_text (snd x) = ob_value_text r))) = true).
  { intros s s' Hk ([k x] & Hin & Hx). exists (k, x). split; [|done]. cbn [snd] in Hx.
    rewrite <- list_elem_of_In, elem_of_map_to_list in *. apply Hk; [|done].
    apply andb_prop in Hx as [Hx _]. apply andb_prop in Hx as [_ Hx]. by apply Z.leb_le. }
  split; apply H; intros k x Hx; by apply Hs.
Qed.

Lemma observations_known id s1 s2 :
  same_knowledge s1 s2 ->
  ListQualityObservations id (From request) (To request) (AsOf request) s1 =
  ListQualityObservations id (From request) (To request) (AsOf request) s2.
Proof.
  intros Hs. unfold ListQualityObservations. f_equal.
  rewrite (select_known _ s1 s2 Hs).
  - apply list_fmap_ext. intros i kv _. by rewrite (is_revised_known id s1 s2).
  - unfold in_snapshot. intros k r Hr. bool_simp. lia.
Qed.

Lemma evaluate_inputs_agrees s1 s2 inputs : forall seen total items,
  same_knowledge s1 s2 ->
  agrees s1 s2 (evaluate_inputs load_location scan_uuid fuel request inputs seen total items).
Proof.
  induction inputs as [|input inputs IH]; intros seen total items Hs; cbn [evaluate_inputs];
    [apply agrees_ret|].
  destruct (scan_uuid (InputSeriesID input)) as [id|]; [|apply agrees_throw].
  case_bool_decide; [apply agrees_throw|].
  apply agrees_bind.
  { apply agrees_attempt, agrees_pool_query. by rewrite (proj1 Hs). }
  intros [row|e]; [|case_match; apply agrees_throw].
  destruct (After (se_created_at row) (AsOf request)); [apply agrees_throw|].
  apply agrees_bind.
  { apply agrees_wrap, agrees_pool_query. by rewrite (observations_known id s1 s2). }
  intros samples. case_match; [apply agrees_throw|].
  case_match; [by apply IH|apply agrees_ret].
Qed.

(** Evaluations are reproducible.  The answer to a request depends only on
    the series and on the revisions already known at its evaluation time: two
    stores that agree on those give the same response or the same error, so
    revisions learnt later never change a past evaluation. *)
Theorem evaluation_reproducible Queries fs s1 s2 :
  same_knowledge s1 s2 ->
  fst (run (EvaluateRequest load_location Queries scan_uuid fuel request) fs s1) =
  fst (run (EvaluateRequest load_location Queries scan_uuid fuel request) fs s2).
Proof.
  intros Hs. apply agrees_run. unfold EvaluateRequest.
  case_match; [apply agrees_throw|]. case_match; [apply agrees_throw|].
  case_match; [apply agrees_throw|]. apply agrees_bind; [by apply evaluate_inputs_agrees|].
  intros items. apply agrees_ret.
Qed.
End reproducible.

Definition demo_series : gmap string SeriesRow :=
  {[ "s" := mkSeriesRow "daily" None daily_policy 0 ]}.
Definition demo_rows : gmap string ObservationRow :=
  {[ "o1" := mkObservationRow "s" (2 * day_ns) (Some 5) None (2 * day_ns) (JObject []) ]}.
Definition late_row : ObservationRow :=
  mkObservationRow "s" (2 * day_ns) (Some 6) None (9 * day_ns) (JObject []).
Definition demo_qrequest : QRequest :=
  mkQRequest (2 * day_ns) (3 * day_ns) (4 * day_ns) [mkInput "s" true].

Lemma evaluation_reproducible_witness :
  fst (run (EvaluateRequest (fun _ => None) true Some 100 demo_qrequest) [] (mkQStore demo_series demo_rows)) =
  fst (run (EvaluateRequest (fun _ => None) true Some 100 demo_qrequest) []
         (mkQStore demo_series (<["o2" := late_row]> demo_rows))).
Proof.
  apply (evaluation_reproducible (fun _ => None) Some 100 demo_qrequest true []).
  split; [done|]. intros id r Hr. cbn [observations]. rewrite lookup_insert_Some. split.
  - intros Hl. right. split; [|done]. intros <-. unfold demo_rows in Hl.
    by rewrite lookup_singleton_ne in Hl.
  - intros [[_ <-]|[_ H]]; [|done]. exfalso. apply Hr. vm_compute. reflexivity.
Defined.
