(* ===== verification/ImportParser.v ===== *)
(** The strict CSV import boundary (internal/imports/parser.go) with the parts of
    [encoding/csv] and of RFC 3339 parsing it uses.

    A file is its bytes; [Parse] answers a result, or the panic a timestamp of two to
    five bytes causes. *)

From S2P Require Import Prelude GoString Digits GoTime TimeText Sha256.
From Stdlib Require Import Ascii.

Module Imports.

Definition SchemaVersion : string := "1.0".
Definition MaxBytes : Z := 10485760.
Definition MaxRows : Z := 25000.
Definition MaxDiagnostics : Z := 100.
Definition KindPositions : string := "positions".
Definition KindManualPrices : string := "manual-prices".

Definition positionHeaders : list string :=
  ["account_id"; "instrument_id"; "quantity"; "total_cost_basis"; "modified_duration_years";
   "convexity_years_squared"].
Definition priceHeaders : list string :=
  ["instrument_id"; "quote_currency"; "observation_time"; "price"; "source_known_at"].

Record Diagnostic : Set := mkDiagnostic {
  DiagRow : Z;
  DiagColumn : string;
  DiagCode : string;
  DiagMessage : string;
}.

Record PositionRow : Set := mkPositionRow {
  PosAccountID : string;
  PosInstrumentID : string;
  Quantity : string;
  TotalCostBasis : string;
  ModifiedDurationYears : string;
  ConvexityYearsSquared : string;
}.

Record PriceRow : Set := mkPriceRow {
  PrcInstrumentID : string;
  QuoteCurrency : string;
  ObservationTime : time;
  Price : string;
  SourceKnownAt : string;
  SourceKnownAtTime : option time;
}.

Record Result : Set := mkResult {
  Kind : string;
  ContentSHA256 : string;
  RowCount : Z;
  IsValid : bool;
  Diagnostics : list Diagnostic;
  DiagnosticsTruncated : bool;
  Positions : list PositionRow;
  Prices : list PriceRow;
}.

(** ** CSV records *)

Definition dquote : ascii := chr 34.
Definition newline_char : ascii := chr 10.

(** Lines with their newline, [\r\n] normalized; a final [\r] is dropped. *)
Fixpoint split_lines (s : list ascii) (line : list ascii) : list (list ascii) :=
  match s with
  | [] => match line with
          | [] => []
          | c :: l => [reverse (if Ascii.eqb c (chr 13) then l else line)]
          end
  | c :: r =>
      if Ascii.eqb c newline_char
      then reverse (c :: match line with
                         | d :: l => if Ascii.eqb d (chr 13) then l else line
                         | [] => line
                         end) :: split_lines r []
      else split_lines r (c :: line)
  end.

Inductive lexMode : Set := MStart | MPlain | MQuoted | MQuote.

Inductive lexOutcome : Set :=
  | LDone (fields : list string)
  | LBad
  | LMore (fields : list string) (buffer : list ascii).

(** One line of a record.  [buffer] is the current field, reversed; a quoted field
    may run over the end of the line. *)
Fixpoint lex (mode : lexMode) (line : list ascii) (fields : list string) (buffer : list ascii)
    : lexOutcome :=
  let field := of_chars (reverse buffer) in
  match line with
  | [] =>
      match mode with
      | MQuoted => LMore fields buffer
      | _ => LDone (fields ++ [field])
      end
  | c :: r =>
      match mode with
      | MStart | MPlain =>
          if Ascii.eqb c dquote then
            match mode with MStart => lex MQuoted r fields [] | _ => LBad end
          else if Ascii.eqb c "," then lex MStart r (fields ++ [field]) []
          else if Ascii.eqb c newline_char then LDone (fields ++ [field])
          else lex MPlain r fields (c :: buffer)
      | MQuoted => if Ascii.eqb c dquote then lex MQuote r fields buffer
                   else lex MQuoted r fields (c :: buffer)
      | MQuote =>
          if Ascii.eqb c dquote then lex MQuoted r fields (c :: buffer)
          else if Ascii.eqb c "," then lex MStart r (fields ++ [field]) []
          else if Ascii.eqb c newline_char then LDone (fields ++ [field])
          else LBad
      end
  end.

Definition blank_line (line : list ascii) : bool :=
  bool_decide (line = []) || bool_decide (line = [newline_char]).

(** The records [Reader.Read] returns one after the other until the end of the
    input; [None] is a parse error, after which reading resumes at the next
    line. *)
Fixpoint records (lines : list (list ascii)) (pending : option (list string * list ascii))
    : list (option (list string)) :=
  match lines with
  | [] => match pending with None => [] | Some _ => [None] end
  | line :: rest =>
      let outcome :=
        match pending with
        | None => if blank_line line then None else Some (lex MStart line [] [])
        | Some (fields, buffer) => Some (lex MQuoted line fields buffer)
        end in
      match outcome with
      | None => records rest None
      | Some (LDone fields) => Some fields :: records rest None
      | Some LBad => None :: records rest None
      | Some (LMore fields buffer) => records rest (Some (fields, buffer))
      end
  end.

(** ** Timestamps *)

(** [value[len(value)-6:]] panics on a value of fewer than six bytes. *)
Definition parseRFC3339 (value : string) : res time :=
  let rejected := Err (ENew "explicit offset required") in
  let parsed := match time_parse value with
                | Some t => Ok t
                | None => Err (ENew "parsing time")
                end in
  if slen value <? 2 then rejected
  else if has_suffix value "Z" then parsed
  else if slen value <? 6 then Err (EPanic "slice bounds out of range")
  else if contains_any (of_chars (drop (String.length value - 6) (chars value))) "+-"
  then parsed else rejected.

Example parseRFC3339_ex : parseRFC3339 "1970-01-02T03:00:00.5+03:00" = Ok (day_ns + 500000000).
Proof. vm_compute. reflexivity. Qed.
Example parseRFC3339_panic : parseRFC3339 "2026" = Err (EPanic "slice bounds out of range").
Proof. vm_compute. reflexivity. Qed.

(** ** Cells *)

Definition hasForbiddenControl (body : list ascii) : bool :=
  existsb (fun b => ((code b <? 32) && negb (code b =? 13) && negb (code b =? 10))
                    || (code b =? 127)) body.

Definition sameHeaders (got expected : list string) : bool := bool_decide (got = expected).

Definition rejectText (value : string) : bool :=
  match chars value with
  | [] => false
  | c :: _ => Ascii.eqb c "=" || Ascii.eqb c "+" || Ascii.eqb c "@"
              || existsb (fun b => (code b <? 32) || (code b =? 127)) (chars value)
  end.

(** Five groups of 8, 4, 4, 4 and 12 hexadecimal digits. *)
Definition validUUID (value : string) : bool :=
  match split_char "-" (chars value) with
  | [a; b; c; d; e] =>
      bool_decide (length <$> [a; b; c; d; e] = [8; 4; 4; 4; 12]%nat)
      && forallb (forallb is_hex) [a; b; c; d; e]
  | _ => false
  end.

(** The decimal pattern: an optional sign, an integer without leading zeros, and
    an optional fraction of at least one digit. *)
Definition decimalPattern (value : string) : bool :=
  let body := match chars value with
              | c :: r => if Ascii.eqb c "+" || Ascii.eqb c "-" then r else c :: r
              | [] => []
              end in
  let '(i, f) := cut_char "." body in
  match i with
  | [] => false
  | c :: r => if Ascii.eqb c "0" then bool_decide (r = []) else is_digit c && all_digits r
  end
  && match f with
     | None => true
     | Some f => negb (bool_decide (f = [])) && all_digits f
     end.

(** At least one upper-case ASCII letter or digit, and nothing else. *)
Definition unitPattern (value : string) : bool :=
  negb (bool_decide (value = "")) && forallb (fun c => is_upper c || is_digit c) (chars value).

Definition validDecimal (value : string) (optional : bool) : bool :=
  if bool_decide (value = "") then optional
  else if negb (decimalPattern value) then false
  else
    let raw := trim_prefix (trim_prefix value "+") "-" in
    let '(i, f) := cut_char "." (chars raw) in
    let frac := default [] f in
    let integer := trim_left_char "0" i in
    let integer := if bool_decide (integer = []) then ["0"%char] else integer in
    (length integer <=? 20)%nat && (length frac <=? 18)%nat.

Definition isNonPositive (value : string) : bool :=
  if has_prefix value "-" then true
  else
    let value := trim_prefix (trim_prefix value "+") "-" in
    let value := of_chars (trim_left_char "0" (chars value)) in
    bool_decide (value = "")
    || (has_prefix value "."
        && bool_decide (trim_both_char "0" (chars (trim_prefix value ".")) = [])).

(** ** The parser *)

(** What the closures over the result accumulate. *)
Record pstate : Set := mkPState {
  diags : list Diagnostic;
  truncated : bool;
  positions : list PositionRow;
  prices : list PriceRow;
  seen : gset string;
}.

Definition add (row : Z) (col code msg : string) (st : pstate) : pstate :=
  if Z.of_nat (length (diags st)) <? MaxDiagnostics
  then mkPState (diags st ++ [mkDiagnostic row col code msg]) (truncated st) (positions st)
         (prices st) (seen st)
  else mkPState (diags st) true (positions st) (prices st) (seen st).

Definition add_if (b : bool) (row : Z) (col code msg : string) (st : pstate) : pstate :=
  if b then add row col code msg st else st.

Definition addCell (row : Z) (col value : string) (required : bool) (st : pstate) : pstate * bool :=
  if required && bool_decide (value = "")
  then (add row col "required" "cell is required" st, false)
  else if rejectText value
  then (add row col "unsafe_text" "cell contains an unsafe formula or control prefix" st, false)
  else (st, true).

Definition see (row : Z) (key msg : string) (st : pstate) : pstate :=
  if bool_decide (key ∈ seen st) then add row "" "duplicate_row" msg st
  else mkPState (diags st) (truncated st) (positions st) (prices st) ({[key]} ∪ seen st).

Definition decimal_cell (row : Z) (col value : string) (optional : bool) (st : pstate) : pstate :=
  add_if (negb (validDecimal value optional)) row col "invalid_decimal"
    "cell must be an exact decimal with at most 20 integer and 18 fractional digits" st.

Definition uuid_cell (row : Z) (col value : string) (st : pstate) : pstate :=
  add_if (negb (validUUID value)) row col "invalid_uuid" "cell must be a UUID" st.

Definition parsePosition (r0 r1 r2 r3 r4 r5 : string) (row : Z) (st : pstate) : pstate :=
  let '(st, _) := addCell row "account_id" r0 true st in
  let '(st, _) := addCell row "instrument_id" r1 true st in
  let st := uuid_cell row "account_id" r0 st in
  let st := uuid_cell row "instrument_id" r1 st in
  let st := decimal_cell row "quantity" r2 false st in
  let st := decimal_cell row "total_cost_basis" r3 true st in
  let st := decimal_cell row "modified_duration_years" r4 true st in
  let st := decimal_cell row "convexity_years_squared" r5 true st in
  let st := see row (r0 +:+ nul +:+ r1) "position key is duplicated" st in
  if Z.of_nat (length (diags st)) <? MaxDiagnostics
  then mkPState (diags st) (truncated st) (positions st ++ [mkPositionRow r0 r1 r2 r3 r4 r5])
         (prices st) (seen st)
  else st.

(** The zero time stands for an observation that did not parse. *)
Definition timestamp (value : string) : res (option time) :=
  match parseRFC3339 value with
  | Ok t => Ok (Some t)
  | Err (EPanic m) => Err (EPanic m)
  | Err _ => Ok None
  end.

(** The optional fifth cell of a price record. *)
Definition known_cell (row : Z) (r4 : string) (st : pstate) : res (option time * pstate) :=
  if bool_decide (r4 = "") then Ok (None, st)
  else
    let '(st, ok) := addCell row "source_known_at" r4 false st in
    if ok then
      let! t := timestamp r4 in
      Ok (t, add_if (bool_decide (t = None)) row "source_known_at" "invalid_timestamp"
               "timestamp must be RFC 3339 with an explicit offset" st)
    else Ok (None, st).

Definition parsePrice (r0 r1 r2 r3 r4 : string) (row : Z) (st : pstate) : res pstate :=
  let r1 := to_upper r1 in
  let '(st, _) := addCell row "instrument_id" r0 true st in
  let '(st, _) := addCell row "quote_currency" r1 true st in
  let '(st, _) := addCell row "observation_time" r2 true st in
  let '(st, _) := addCell row "price" r3 true st in
  let st := uuid_cell row "instrument_id" r0 st in
  let st := add_if (negb (unitPattern r1)) row "quote_currency" "invalid_unit"
              "unit code must be uppercase ASCII letters or digits" st in
  let st := add_if (negb (validDecimal r3 false) || isNonPositive r3) row "price" "invalid_price"
              "price must be a positive exact decimal" st in
  let! obs := timestamp r2 in
  let st := add_if (bool_decide (obs = None)) row "observation_time" "invalid_timestamp"
              "timestamp must be RFC 3339 with an explicit offset" st in
  let! known_st := known_cell row r4 st in
  let st := see row (join nul [r0; r1; r2; r4]) "price revision key is duplicated" (snd known_st) in
  Ok (if Z.of_nat (length (diags st)) <? MaxDiagnostics
      then mkPState (diags st) (truncated st) (positions st)
             (prices st ++ [mkPriceRow r0 r1 (default zero_time obs) r3 r4 (fst known_st)])
             (seen st)
      else st).

(** One data record, with the number of its row. *)
Definition parse_record (kind : string) (record : option (list string)) (row : Z) (st : pstate)
    : res pstate :=
  match record with
  | None => Ok (add row "" "invalid_csv" "CSV record is not a valid RFC 4180 record" st)
  | Some cells =>
      let wrong := Ok (add row "" "wrong_cell_count" "CSV record has the wrong number of cells" st) in
      if bool_decide (kind = KindPositions) then
        match cells with
        | [r0; r1; r2; r3; r4; r5] => Ok (parsePosition r0 r1 r2 r3 r4 r5 row st)
        | _ => wrong
        end
      else
        match cells with
        | [r0; r1; r2; r3; r4] => parsePrice r0 r1 r2 r3 r4 row st
        | _ => wrong
        end
  end.

Fixpoint parse_rows (kind : string) (rs : list (option (list string))) (rows : Z) (st : pstate)
    : res (Z * pstate) :=
  match rs with
  | [] => Ok (rows, st)
  | r :: rest =>
      let rows := rows + 1 in
      if MaxRows <? rows
      then Ok (rows, add (rows + 1) "" "too_many_rows" "CSV exceeds 25,000 data rows" st)
      else
        let! st := parse_record kind r (rows + 1) st in
        parse_rows kind rest rows st
  end.

Definition digest (body : string) : string := sha256_hex body.

Definition empty_state : pstate := mkPState [] false [] [] ∅.

Definition finish (kind sha : string) (rows : Z) (valid : bool) (st : pstate) : Result :=
  mkResult kind sha rows valid (diags st) (truncated st) (positions st) (prices st).

Definition byte_order_mark : string := of_chars [chr 239; chr 187; chr 191].

Definition Parse (body : string) (kind : string) : res Result :=
  let sha := digest body in
  let stop row code msg := Ok (finish kind sha 0 false (add row "" code msg empty_state)) in
  if negb (bool_decide (kind = KindPositions)) && negb (bool_decide (kind = KindManualPrices))
  then stop 0 "unknown_import_kind" "import kind is unsupported"
  else if MaxBytes <? slen body then stop 0 "file_too_large" "CSV file exceeds 10 MiB"
  else if negb (utf8_valid body) then stop 0 "invalid_utf8" "CSV must be valid UTF-8"
  else if hasForbiddenControl (chars body)
  then stop 0 "control_byte" "CSV contains a forbidden control byte"
  else
    let body := trim_prefix body byte_order_mark in
    let expected := if bool_decide (kind = KindManualPrices) then priceHeaders
                    else positionHeaders in
    match records (split_lines (chars body) []) None with
    | [] => stop 1 "missing_header" "CSV header is required"
    | None :: _ => stop 1 "invalid_csv" "CSV header is not a valid RFC 4180 record"
    | Some headers :: rest =>
        if negb (sameHeaders headers expected)
        then stop 1 "invalid_header" "CSV headers must match the ordered template exactly"
        else
          let! out := parse_rows kind rest 0 empty_state in
          let '(rows, st) := out in
          Ok (finish kind sha rows
                (bool_decide (diags st = []) && negb (truncated st) && (0 <? rows)) st)
    end.

End Imports.
