(* ===== verification/ImportService.v ===== *)
(** The two-step CSV import (internal/imports/service.go): a preview hands out a
    single-use token bound to the file, a commit spends it.

    The store is the tables the service reads and writes together with the
    archive's world, which no transaction rolls back.  The UUID scanner and the
    numeric scanner of the driver, the UUID cast of the database, the archive
    store, the identifiers the database draws, the clock and the random bytes are
    parameters. *)

From S2P Require Import Prelude GoString Digits GoTime Sha256 Decimal Tables Db World Archive.
From S2P Require Import JsonTree TimeText ImportParser.
From Stdlib Require Import Ascii QArith.
#[local] Open Scope Z_scope.

Module ImportService.
Import Imports.

Definition ErrInvalidRequest : goerr := ENew "invalid import request".
Definition ErrConflict : goerr := ENew "import request conflicts with existing state".
Definition ErrUnavailable : goerr := ENew "import archive is unavailable".

Record PreviewRequest : Set := mkPreviewRequest {
  PvKind : string;
  PvTargetID : string;
  PvSchemaVersion : string;
  PvCapturedAt : string;
  PvBody : string;
}.

Record PreviewResponse : Set := mkPreviewResponse {
  Token : string;
  ImportKind : string;
  TargetID : string;
  RespSchemaVersion : string;
  RespContentSHA256 : string;
  RespRowCount : Z;
  Valid : bool;
  RespDiagnostics : list Diagnostic;
  RespTruncated : bool;
  ExpiresAt : time;
}.

Record CommitRequest : Set := mkCommitRequest {
  CmKind : string;
  CmTargetID : string;
  CmSchemaVersion : string;
  CmCapturedAt : string;
  CmToken : string;
  IdempotencyKey : string;
  CmBody : string;
}.

(** The values of a response map; a number read back from JSON is a float,
    exact on these small integers. *)
Inductive any : Set :=
  | AnyString (s : string)
  | AnyInt (z : Z)
  | AnyFloat (z : Z).

Definition unmarshal_any (v : any) : any :=
  match v with AnyInt z => AnyFloat z | _ => v end.

Definition response := gmap string any.

(** ** Tables *)

Record SnapshotLine : Set := mkSnapshotLine {
  ln_portfolio : string;
  ln_snapshot : string;
  ln_account : string;
  ln_instrument : string;
  ln_quantity : Z;
  ln_cost : option Z;
  ln_duration : option Z;
  ln_convexity : option Z;
}.

Record PriceRevision : Set := mkPriceRevision {
  rv_instrument : string;
  rv_quote : string;
  rv_observation : time;
  rv_price : Z;
  rv_source_known : option time;
  rv_basis : string;
  rv_raw : string;
}.

Record RawObject : Set := mkRawObject {
  raw_id : string;
  raw_key : string;
  raw_media : string;
  raw_length : Z;
  raw_retrieved : time;
}.

Record TokenRow : Set := mkTokenRow {
  tk_kind : string;
  tk_target : string;
  tk_captured : option time;
  tk_schema : string;
  tk_hash : string;
  tk_rows : Z;
  tk_diagnostics : list Diagnostic;
  tk_truncated : bool;
  tk_expires : time;
  tk_consumed : option time;
}.

Record ResultRow : Set := mkResultRow {
  rs_id : string;
  rs_target : string;
  rs_captured : option time;
  rs_schema : string;
  rs_hash : string;
  rs_rows : Z;
  rs_raw : string;
  rs_response : response;
}.

(** Raw objects are keyed by content digest, results by kind and key. *)
Record import_tables : Type := mkImportTables {
  portfolios : gset string;
  accounts : gmap string string;            (* portfolio *)
  instruments : gmap string string;         (* type *)
  snapshots : gmap string (string * time);  (* portfolio, captured_at *)
  lines : gmap string SnapshotLine;
  revisions : gmap string PriceRevision;
  raw_objects : gmap string RawObject;
  tokens : gmap string TokenRow;
  results : gmap (string * string) ResultRow;
}.

Definition set_snapshots (s : import_tables) m :=
  mkImportTables (portfolios s) (accounts s) (instruments s) m (lines s) (revisions s)
    (raw_objects s) (tokens s) (results s).
Definition set_lines (s : import_tables) m :=
  mkImportTables (portfolios s) (accounts s) (instruments s) (snapshots s) m (revisions s)
    (raw_objects s) (tokens s) (results s).
Definition set_revisions (s : import_tables) m :=
  mkImportTables (portfolios s) (accounts s) (instruments s) (snapshots s) (lines s) m
    (raw_objects s) (tokens s) (results s).
Definition set_raw_objects (s : import_tables) m :=
  mkImportTables (portfolios s) (accounts s) (instruments s) (snapshots s) (lines s)
    (revisions s) m (tokens s) (results s).
Definition set_tokens (s : import_tables) m :=
  mkImportTables (portfolios s) (accounts s) (instruments s) (snapshots s) (lines s)
    (revisions s) (raw_objects s) m (results s).
Definition set_results (s : import_tables) m :=
  mkImportTables (portfolios s) (accounts s) (instruments s) (snapshots s) (lines s)
    (revisions s) (raw_objects s) (tokens s) m.

Definition known_kinds : list string := [KindPositions; KindManualPrices].

(** INSERT INTO import_preview_tokens: primary key and CHECK constraints. *)
Definition insert_token (digest : string) (r : TokenRow) (s : import_tables)
    : res unit * import_tables :=
  if bool_decide (tokens s !! digest = None) && bool_decide (tk_kind r ∈ known_kinds)
     && bool_decide (tk_schema r = SchemaVersion)
     && (slen (tk_hash r) =? 64) && forallb is_lower_hex (chars (tk_hash r))
     && (0 <=? tk_rows r) && (tk_rows r <=? 25000)
  then (Ok tt, set_tokens s (<[digest := r]> (tokens s)))
  else (Err EDb, s).

(** INSERT ... ON CONFLICT (content_sha256) DO NOTHING RETURNING id. *)
Definition insert_raw (id : string) (sha : string) (r : RawObject) (s : import_tables)
    : res string * import_tables :=
  if bool_decide (is_Some (raw_objects s !! sha)) then (Err ENoRows, s)
  else if (slen sha =? 64) && forallb is_lower_hex (chars sha) && (0 <=? raw_length r)
          && negb (bool_decide (trim_space (raw_key r) = ""))
          && negb (existsb (fun kv => bool_decide (raw_key (snd kv) = raw_key r)
                                      || bool_decide (raw_id (snd kv) = id))
                     (map_to_list (raw_objects s)))
  then (Ok id, set_raw_objects s (<[sha := r]> (raw_objects s)))
  else (Err EDb, s).

Definition select_raw (sha : string) (s : import_tables) : res string :=
  match raw_objects s !! sha with Some r => Ok (raw_id r) | None => Err ENoRows end.

Definition insert_snapshot (id target : string) (captured : time) (s : import_tables)
    : res string * import_tables :=
  if bool_decide (target ∈ portfolios s) && bool_decide (snapshots s !! id = None)
  then (Ok id, set_snapshots s (<[id := (target, captured)]> (snapshots s)))
  else (Err EDb, s).

(** The trigger on lines: only fixed-rate bonds have, and must have, a positive
    duration. *)
Definition line_trigger (r : SnapshotLine) (s : import_tables) : bool :=
  match instruments s !! ln_instrument r with
  | None => false
  | Some kind =>
      if bool_decide (kind = "fixed_rate_bond")
      then match ln_duration r with Some d => 0 <? d | None => false end
      else bool_decide (ln_duration r = None) && bool_decide (ln_convexity r = None)
  end.

Definition insert_snapshot_line (id : string) (r : SnapshotLine) (s : import_tables)
    : res unit * import_tables :=
  if line_trigger r s
     && bool_decide (fst <$> snapshots s !! ln_snapshot r = Some (ln_portfolio r))
     && bool_decide (accounts s !! ln_account r = Some (ln_portfolio r))
     && match ln_convexity r with Some c => 0 <=? c | None => true end
     && bool_decide (lines s !! id = None)
     && negb (existsb (fun kv => bool_decide (ln_snapshot (snd kv) = ln_snapshot r)
                                 && bool_decide (ln_account (snd kv) = ln_account r)
                                 && bool_decide (ln_instrument (snd kv) = ln_instrument r))
                (map_to_list (lines s)))
  then (Ok tt, set_lines s (<[id := r]> (lines s)))
  else (Err EDb, s).

Definition insert_revision (id : string) (r : PriceRevision) (s : import_tables)
    : res unit * import_tables :=
  if bool_decide (is_Some (instruments s !! rv_instrument r))
     && existsb (fun kv => bool_decide (raw_id (snd kv) = rv_raw r)) (map_to_list (raw_objects s))
     && unitPattern (rv_quote r)
     && match rv_source_known r with
        | None => bool_decide (rv_basis r = "first_observed_by_system")
        | Some _ => bool_decide (rv_basis r ∈ ["source_published_at"; "source_effective_at"])
        end
     && bool_decide (revisions s !! id = None)
     && negb (existsb (fun kv => let o := snd kv in
                bool_decide (rv_instrument o = rv_instrument r)
                && bool_decide (rv_quote o = rv_quote r)
                && bool_decide (rv_observation o = rv_observation r)
                && bool_decide (rv_price o = rv_price r)
                && bool_decide (rv_source_known o = rv_source_known r)
                && bool_decide (rv_raw o = rv_raw r)) (map_to_list (revisions s)))
  then (Ok tt, set_revisions s (<[id := r]> (revisions s)))
  else (Err EDb, s).

(** One statement inserting rows in order, all or none. *)
Fixpoint insert_all {R} (insert : string -> R -> import_tables -> res unit * import_tables)
    (rows : list (string * R)) (s : import_tables) : res unit * import_tables :=
  match rows with
  | [] => (Ok tt, s)
  | (id, r) :: rest =>
      match insert id r s with
      | (Ok _, s') => insert_all insert rest s'
      | (Err e, _) => (Err e, s)
      end
  end.

(** INSERT ... ON CONFLICT (import_kind, idempotency_key) DO NOTHING. *)
Definition insert_result (key : string * string) (r : ResultRow) (s : import_tables)
    : res string * import_tables :=
  if bool_decide (is_Some (results s !! key)) then (Err ENoRows, s)
  else if bool_decide (fst key ∈ known_kinds) && bool_decide (rs_schema r = SchemaVersion)
          && (0 <=? rs_rows r) && (rs_rows r <=? 25000)
          && existsb (fun kv => bool_decide (raw_id (snd kv) = rs_raw r))
               (map_to_list (raw_objects s))
          && negb (existsb (fun kv => bool_decide (rs_id (snd kv) = rs_id r))
                     (map_to_list (results s)))
  then (Ok (rs_id r), set_results s (<[key := r]> (results s)))
  else (Err EDb, s).

Definition select_result (key : string * string) (s : import_tables) : res ResultRow :=
  match results s !! key with Some r => Ok r | None => Err ENoRows end.

Definition select_token (digest : string) (s : import_tables) : res TokenRow :=
  match tokens s !! digest with Some r => Ok r | None => Err ENoRows end.

(** UPDATE ... SET consumed_at; no row is no error. *)
Definition consume_token (digest : string) (now : time) (s : import_tables) : import_tables :=
  set_tokens s
    (alter (fun r => mkTokenRow (tk_kind r) (tk_target r) (tk_captured r) (tk_schema r) (tk_hash r)
                       (tk_rows r) (tk_diagnostics r) (tk_truncated r) (tk_expires r) (Some now))
       digest (tokens s)).

(** ** The service *)

Section service.
Context {W U : Type} (Pool : bool) (api : Archive.urlAPI U)
  (put : option (Archive.Object -> W -> res unit * W))
  (scan_uuid uuid_text : string -> option string) (scan_numeric : string -> option Q).

Abbreviation store := (import_tables * W)%type.

(** A request time, or the panic of its parser. *)
Definition request_time (value : string) : res time :=
  match parseRFC3339 value with
  | Ok t => Ok t
  | Err (EPanic m) => Err (EPanic m)
  | Err _ => Err ErrInvalidRequest
  end.

Definition capturedAtForKind (kind : string) (captured : time) : option time :=
  if bool_decide (kind = KindPositions) then Some captured else None.

Definition sameCapturedAt (left right : option time) : bool := bool_decide (left = right).

Definition parseUUID (value : string) : res string :=
  match scan_uuid (trim_space value) with Some id => Ok id | None => Err ErrInvalidRequest end.

(** [None] is the invalid numeric of an absent optional cell. *)
Definition parseNumeric (value : string) (optional : bool) : res (option Q) :=
  if bool_decide (value = "") && optional then Ok None
  else match scan_numeric value with Some q => Ok (Some q) | None => Err ErrInvalidRequest end.

Definition nullableNumeric (value : option Q) : option (option Z) :=
  match value with None => Some None | Some q => Some <$> numeric_column q end.

(** Sixteen random bytes with the version and variant bits of RFC 4122. *)
Definition newUUID (random : res (list Z)) : res string :=
  let! b := random in
  let b := list_alter (fun x => Z.lor (Z.land x 15) 64) 6%nat b in
  let b := list_alter (fun x => Z.lor (Z.land x 63) 128) 8%nat b in
  let hex i j := hex_encode (take (j - i) (drop i b)) in
  Ok (join "-" [hex 0%nat 4%nat; hex 4%nat 6%nat; hex 6%nat 8%nat; hex 8%nat 10%nat;
                hex 10%nat 16%nat]).

(** *** Preview *)

Definition select_portfolio (target : string) (s : import_tables) : res string :=
  match uuid_text target with
  | Some id => if bool_decide (id ∈ portfolios s) then Ok id else Err ENoRows
  | None => Err EDb
  end.

Definition preview_response (req : PreviewRequest) (target : string) (parsed : Result)
    (token : string) (expires : time) : PreviewResponse :=
  mkPreviewResponse token (PvKind req) target (PvSchemaVersion req)
    (Imports.ContentSHA256 parsed) (RowCount parsed) (IsValid parsed) (Diagnostics parsed)
    (DiagnosticsTruncated parsed) expires.

Definition token_row (req : PreviewRequest) (target : string) (captured : option time)
    (parsed : Result) (expires : time) : option TokenRow :=
  id ← uuid_text target;
  Some (mkTokenRow (PvKind req) id (pg_time <$> captured) (PvSchemaVersion req)
          (Imports.ContentSHA256 parsed) (RowCount parsed) (Diagnostics parsed)
          (DiagnosticsTruncated parsed) (pg_time expires) None).

Definition Preview (random : res (list Z)) (now : time) (req : PreviewRequest)
    : dbm store PreviewResponse :=
  let target := to_lower (trim_space (PvTargetID req)) in
  if negb (bool_decide (PvSchemaVersion req = SchemaVersion)) || negb (Imports.validUUID target)
     || (negb (bool_decide (PvKind req = KindPositions))
         && negb (bool_decide (PvKind req = KindManualPrices)))
  then throw ErrInvalidRequest
  else if negb Pool then throw ErrUnavailable
  else
    let* captured := if bool_decide (PvKind req = KindPositions)
                     then let* t := of_res (request_time (PvCapturedAt req)) in ret (Some t)
                     else ret None in
    let* parsed := of_res (Parse (PvBody req) (PvKind req)) in
    if negb (IsValid parsed) then ret (preview_response req target parsed "" zero_time)
    else
      let* found := if bool_decide (PvKind req = KindPositions)
                    then attempt (pool_stmt (reads (select_portfolio target)))
                    else ret (Ok "") in
      match found with
      | Err _ => throw ErrInvalidRequest
      | Ok _ =>
          let* bytes := wrap "create preview token" (of_res random) in
          let token := hex_encode bytes in
          let tokenDigest := sha256_hex token in
          let expires := now + 30 * Minute in
          wrap "persist preview token"
            (pool_stmt (on_tables (fun s =>
               match token_row req target captured parsed expires with
               | Some r => insert_token tokenDigest r s
               | None => (Err EDb, s)
               end))) ;;;
          ret (preview_response req target parsed token expires)
      end.

(** *** Commit *)

(** The number of rows that do not join. *)
Definition invalid_positions (target : string) (rows : list (string * string))
    (s : import_tables) : res Z :=
  match uuid_text target with
  | None => Err EDb
  | Some p =>
      Ok (Z.of_nat (length (List.filter (fun ai =>
            negb (bool_decide (p ∈ portfolios s)
                  && bool_decide (accounts s !! fst ai = Some p)
                  && bool_decide (is_Some (instruments s !! snd ai)))) rows)))
  end.

Definition invalid_instruments (rows : list string) (s : import_tables) : res Z :=
  Ok (Z.of_nat (length (List.filter (fun i => negb (bool_decide (is_Some (instruments s !! i))))
                          rows))).

Fixpoint map_res {A B} (f : A -> res B) (l : list A) : res (list B) :=
  match l with
  | [] => Ok []
  | x :: l' => let! y := f x in let! ys := map_res f l' in Ok (y :: ys)
  end.

Definition position_ids (row : PositionRow) : res (string * string) :=
  let! a := parseUUID (PosAccountID row) in
  let! i := parseUUID (PosInstrumentID row) in
  Ok (a, i).

Definition price_id (row : PriceRow) : res string := parseUUID (PrcInstrumentID row).

Definition none_invalid (count : res Z) : bool :=
  match count with Ok n => n =? 0 | Err _ => false end.

Definition validateDomainRows (kind target : string) (parsed : Result) : dbm store unit :=
  let* count :=
    if bool_decide (kind = KindPositions) then
      let* ids := of_res (map_res position_ids (Positions parsed)) in
      attempt (stmt (reads (invalid_positions target ids)))
    else
      let* ids := of_res (map_res price_id (Prices parsed)) in
      attempt (stmt (reads (invalid_instruments ids))) in
  if none_invalid count then ret tt else throw ErrInvalidRequest.

Definition copy_row (portfolioID snapshotUUID : string) (row : PositionRow)
    : res (option SnapshotLine) :=
  match parseUUID (PosAccountID row), parseUUID (PosInstrumentID row),
        parseNumeric (Quantity row) false, parseNumeric (TotalCostBasis row) true,
        parseNumeric (ModifiedDurationYears row) true,
        parseNumeric (ConvexityYearsSquared row) true with
  | Ok account, Ok instrument, Ok quantity, Ok cost, Ok duration, Ok convexity =>
      Ok (z ← (quantity ≫= numeric_column);
          c ← nullableNumeric cost; d ← nullableNumeric duration;
          x ← nullableNumeric convexity;
          Some (mkSnapshotLine portfolioID snapshotUUID account instrument z c d x))
  | _, _, _, _, _, _ => Err ErrInvalidRequest
  end.

(** COPY: a value its column cannot hold fails the whole statement. *)
Definition copy_from {R} (insert : string -> R -> import_tables -> res unit * import_tables)
    (ids : list string) (rows : list (option R)) (s : import_tables) : res unit * import_tables :=
  match mapM id rows with
  | Some rows => insert_all insert (zip_with pair ids rows) s
  | None => (Err EDb, s)
  end.

(** Any error of the call is reported as an invalid request. *)
Definition or_invalid {A} (m : dbm store A) : dbm store A :=
  let* r := attempt m in match r with Ok a => ret a | Err _ => throw ErrInvalidRequest end.

Definition commitPositions (gen : nat -> string) (target : string) (capturedAt : time)
    (parsed : Result) (hash : string) : dbm store response :=
  let* snapshotID := or_invalid (stmt (on_tables (fun s =>
    match uuid_text target with
    | Some p => insert_snapshot (gen 0%nat) p (pg_time capturedAt) s
    | None => (Err EDb, s)
    end))) in
  let* portfolioID := of_res (parseUUID target) in
  let* snapshotUUID := of_res (parseUUID snapshotID) in
  let* rows := of_res (map_res (copy_row portfolioID snapshotUUID) (Positions parsed)) in
  or_invalid (stmt (on_tables
    (copy_from insert_snapshot_line (gen <$> seq 2 (length rows)) rows))) ;;;
  ret (<["snapshot_id" := AnyString snapshotID]> {["raw_object_sha256" := AnyString hash]}).

Definition price_row (rawObjectID : string) (row : PriceRow) : res (option PriceRevision) :=
  let! instrument := parseUUID (PrcInstrumentID row) in
  let! price := parseNumeric (Price row) false in
  Ok (z ← (price ≫= numeric_column);
      Some (mkPriceRevision instrument (QuoteCurrency row) (pg_time (ObservationTime row)) z
              (pg_time <$> SourceKnownAtTime row)
              (match SourceKnownAtTime row with
               | Some _ => "source_effective_at"
               | None => "first_observed_by_system"
               end) rawObjectID)).

Definition commitPrices (gen : nat -> string) (parsed : Result) (rawID hash : string)
    : dbm store response :=
  let* rawObjectID := of_res (parseUUID rawID) in
  let* rows := of_res (map_res (price_row rawObjectID) (Prices parsed)) in
  or_invalid (stmt (on_tables
    (copy_from insert_revision (gen <$> seq 2 (length rows)) rows))) ;;;
  ret (<["revision_count" := AnyInt (Z.of_nat (length rows))]>
         {["raw_object_sha256" := AnyString hash]}).

(** The stored result answers the request it was stored for. *)
Definition result_matches (r : ResultRow) (target schema hash : string) (captured : option time)
    (rows : Z) : bool :=
  bool_decide (rs_target r = target) && bool_decide (rs_schema r = schema)
  && bool_decide (rs_hash r = hash) && sameCapturedAt (rs_captured r) captured
  && (rs_rows r =? rows).

Definition replay (r : ResultRow) : response := unmarshal_any <$> rs_response r.

Definition result_response (req : CommitRequest) (target resultID : string) (parsed : Result)
    (result : response) : response :=
  <["import_result_id" := AnyString resultID]>
  (<["row_count" := AnyInt (RowCount parsed)]>
  (<["content_sha256" := AnyString (Imports.ContentSHA256 parsed)]>
  (<["schema_version" := AnyString (CmSchemaVersion req)]>
  (<["target_id" := AnyString target]>
  (<["import_kind" := AnyString (CmKind req)]> result))))).

(** The token's checks.  A failed lookup other than no rows leaves the zero
    expiry behind and is caught by the expiry test unless the clock is before
    year 1. *)
Definition token_ok (looked : res TokenRow) (now : time) : res TokenRow :=
  match looked with
  | Ok r =>
      if bool_decide (is_Some (tk_consumed r)) || negb (After (tk_expires r) now)
      then Err ErrConflict else Ok r
  | Err e =>
      if errors_is e ENoRows || negb (After zero_time now) then Err ErrConflict
      else Err (EWrap "lookup preview token" e)
  end.

Definition token_matches (r : TokenRow) (kind target schema hash : string)
    (captured : option time) : bool :=
  bool_decide (tk_kind r = kind) && bool_decide (tk_target r = target)
  && bool_decide (tk_schema r = schema) && bool_decide (tk_hash r = hash)
  && sameCapturedAt (tk_captured r) captured.

(** Archiving and registering the file. *)
Definition register_raw (gen : nat -> string) (now : time) (req : CommitRequest)
    (p : Archive.Object -> W -> res unit * W) : dbm store string :=
  let* ref := wrap "archive CSV"
    (on_archive (Archive.ArchivePayload api (Some p) (CmBody req) "text/csv; charset=utf-8"
                   [("import-kind", CmKind req)])) in
  let sha := Archive.RefContentSHA256 ref in
  let* inserted := attempt (stmt (on_tables
    (insert_raw (gen 1%nat) sha
       (mkRawObject (gen 1%nat) (Archive.RefKey ref) (Archive.RefMediaType ref)
          (Archive.RefByteLength ref) (pg_time now))))) in
  wrap "register import raw object"
    (match inserted with
     | Ok id => ret id
     | Err e => if errors_is e ENoRows then stmt (reads (select_raw sha)) else throw e
     end).

(** The new result, its row and the spent token; a lost race over the key
    replays the winner. *)
Definition finish_commit (random : res (list Z)) (now : time) (req : CommitRequest)
    (target tokenDigest : string) (captured : option time) (parsed : Result)
    (rawID : string) (result : response) : dbm store response :=
  let* resultID := of_res (newUUID random) in
  let result := result_response req target resultID parsed result in
  let* inserted := attempt (stmt (on_tables (fun s =>
    match uuid_text resultID, uuid_text target, uuid_text rawID with
    | Some rid, Some t, Some raw =>
        insert_result (CmKind req, IdempotencyKey req)
          (mkResultRow rid t (pg_time <$> captured) (CmSchemaVersion req)
             (Imports.ContentSHA256 parsed) (RowCount parsed) raw result) s
    | _, _, _ => (Err EDb, s)
    end))) in
  match inserted with
  | Err e =>
      if errors_is e ENoRows then
        let* found := attempt (stmt (reads (select_result (CmKind req, IdempotencyKey req)))) in
        match found with
        | Err _ => throw ErrConflict
        | Ok r =>
            if negb (result_matches r (to_lower (CmTargetID req)) (CmSchemaVersion req)
                       (Imports.ContentSHA256 parsed) captured (RowCount parsed))
            then throw ErrConflict else ret (replay r)
        end
      else throw (EWrap "persist import result" e)
  | Ok _ =>
      wrap "consume preview token"
        (stmt (on_tables (fun s => (Ok tt, consume_token tokenDigest (pg_time now) s)))) ;;;
      wrap "commit import transaction" commit ;;;
      ret result
  end.

(** [now n] is the [n]-th reading of the clock. *)
Definition Commit (gen : nat -> string) (random : res (list Z)) (now : nat -> time)
    (req : CommitRequest) : dbm store response :=
  let target := to_lower (trim_space (CmTargetID req)) in
  if negb (bool_decide (CmSchemaVersion req = SchemaVersion)) || negb (Imports.validUUID target)
     || bool_decide (CmToken req = "") || bool_decide (IdempotencyKey req = "")
     || (255 <? slen (IdempotencyKey req))
  then throw ErrInvalidRequest
  else if negb Pool then throw ErrUnavailable
  else
    let* capturedAt := if bool_decide (CmKind req = KindPositions)
                       then of_res (request_time (CmCapturedAt req)) else ret (now 0%nat) in
    let* parsed := of_res (Parse (CmBody req) (CmKind req)) in
    if negb (IsValid parsed) then throw ErrInvalidRequest
    else
      let tokenDigest := sha256_hex (CmToken req) in
      let contentHash := Imports.ContentSHA256 parsed in
      let captured := capturedAtForKind (CmKind req) capturedAt in
      wrap "begin import transaction" begin ;;;
      let* existing := attempt (stmt (reads (select_result (CmKind req, IdempotencyKey req)))) in
      match existing with
      | Ok r =>
          if negb (result_matches r target (CmSchemaVersion req) contentHash captured
                     (RowCount parsed))
          then throw ErrConflict else ret (replay r)
      | Err e =>
          if negb (errors_is e ENoRows) then throw (EWrap "lookup import result" e)
          else
            let* looked := attempt (stmt (reads (select_token tokenDigest))) in
            let* token := of_res (token_ok looked (now 1%nat)) in
            if negb (token_matches token (CmKind req) target (CmSchemaVersion req) contentHash
                       captured)
            then throw ErrConflict
            else
              validateDomainRows (CmKind req) target parsed ;;;
              match put with
              | None => throw ErrUnavailable
              | Some p =>
                  let* rawID := register_raw gen (now 2%nat) req p in
                  let* result :=
                    if bool_decide (CmKind req = KindPositions)
                    then commitPositions gen target capturedAt parsed contentHash
                    else commitPrices gen parsed rawID contentHash in
                  finish_commit random (now 3%nat) req target tokenDigest captured parsed rawID
                    result
              end
      end.
End service.

End ImportService.
