(* ===== verification/ImportProofs.v ===== *)
(** Properties of the CSV boundary: an accepted decimal is stored digit for
    digit, the sign test is exact, a valid result certifies every row, output is
    bounded, and the one input shape on which the parser does not answer. *)

From S2P Require Import Prelude GoString Digits GoTime Sha256 Decimal Tables TimeText ImportParser.
From Stdlib Require Import Ascii QArith.
#[local] Open Scope Z_scope.
Import Imports.

(** ** Decimal texts *)

(** The shape of an accepted decimal: sign, integer digits, fraction digits. *)
Record decimal_shape (v : string) (neg : bool) (sign i f : list ascii) : Prop := {
  sh_chars : exists dot, chars v = sign ++ i ++ dot /\ (dot = [] /\ f = [] \/ dot = "."%char :: f /\ f <> []);
  sh_sign : sign = (if neg then ["-"%char] else []) \/ (neg = false /\ sign = ["+"%char]);
  sh_int : all_digits i = true;
  sh_frac : all_digits f = true;
  sh_nonzero : i = ["0"%char] \/ (exists c r, i = c :: r /\ c <> "0"%char);
}.

Lemma cut_char_spec c s :
  match cut_char c s with
  | (a, None) => s = a
  | (a, Some b) => s = a ++ c :: b
  end.
Proof.
  induction s as [|x s IH]; cbn; [done|].
  destruct (Ascii.eqb_spec x c) as [->|]; [done|].
  destruct (cut_char c s) as [a [b|]]; cbn; by rewrite IH.
Qed.

Lemma decimalPattern_shape v :
  decimalPattern v = true -> exists neg sign i f, decimal_shape v neg sign i f.
Proof.
  unfold decimalPattern. set (body := match chars v with
              | c :: r => if Ascii.eqb c "+" || Ascii.eqb c "-" then r else c :: r
              | [] => []
              end).
  pose proof (cut_char_spec "." body) as Hcut. destruct (cut_char "." body) as [i f].
  intros H. apply andb_prop in H as [Hi Hf].
  assert (Hint : all_digits i = true /\ (i = ["0"%char] \/ exists c r, i = c :: r /\ c <> "0"%char)).
  { destruct i as [|c r]; [done|]. destruct (Ascii.eqb_spec c "0") as [->|Hc].
    - bool_simp. subst r. auto.
    - cbn [all_digits forallb]. apply andb_prop in Hi as [-> Hr]. split; [exact Hr|eauto]. }
  destruct Hint as [Hid Hin].
  assert (Hfd : exists dot, body = i ++ dot /\
            (dot = [] /\ default [] f = [] \/ dot = "."%char :: default [] f /\ default [] f <> []) /\
            all_digits (default [] f) = true).
  { destruct f as [f|].
    - exists ("."%char :: f). apply andb_prop in Hf as [Hne Hf]. bool_simp. auto 6.
    - exists []. rewrite app_nil_r. auto. }
  destruct Hfd as (dot & Hbody & Hdot & Hfd).
  assert (Hsign : exists (neg : bool) sign, chars v = sign ++ body /\
            (sign = (if neg then ["-"%char] else []) \/ (neg = false /\ sign = ["+"%char]))).
  { unfold body. destruct (chars v) as [|c r]; [by exists false, []; auto|].
    destruct (Ascii.eqb_spec c "+") as [->|]; [exists false, ["+"%char]; auto|].
    destruct (Ascii.eqb_spec c "-") as [->|]; [exists true, ["-"%char]; auto|].
    exists false, []. auto. }
  destruct Hsign as (neg & sign & Hv & Hs). exists neg, sign, i, (default [] f).
  split; try done. exists dot. rewrite Hv, Hbody. done.
Qed.

Definition shape_units (neg : bool) (i f : list ascii) : Z :=
  (if neg then Z.opp else id) (dval (i ++ f) * 10 ^ (18 - Z.of_nat (length f))).

Section shape.
Context (v : string) (neg : bool) (sign i f : list ascii) (Hsh : decimal_shape v neg sign i f).

Lemma shape_int_head : exists c r, i = c :: r /\ is_digit c = true.
Proof.
  destruct Hsh as [_ _ Hi _ [->|(c & r & -> & _)]]; [by exists "0"%char, []|].
  exists c, r. cbn in Hi. apply andb_prop in Hi as [Hc _]. done.
Qed.

Lemma all_digits_last s c : all_digits (s ++ [c]) = true -> is_digit c = true.
Proof. rewrite all_digits_app. intros [_ H]%andb_prop. cbn in H. by rewrite andb_true_r in H. Qed.

Lemma last_digit s : all_digits s = true -> s <> [] -> exists s' c, s = s' ++ [c] /\ is_digit c = true.
Proof.
  intros Hd Hne. destruct (exists_last Hne) as (s' & c & ->). exists s', c.
  split; [done|]. by eapply all_digits_last.
Qed.

Lemma shape_trim : trim_space v = v.
Proof.
  destruct shape_int_head as (c & r & Hi & Hc). destruct Hsh as [(dot & Hv & Hdot) Hs Hid Hfd _].
  assert (Hlast : exists s' d, chars v = s' ++ [d] /\ is_digit d = true).
  { destruct Hdot as [[-> _]|[-> Hf]].
    - destruct (last_digit i) as (i' & d & Hi' & Hd); [done|by rewrite Hi|].
      exists (sign ++ i'), d. split; [|done]. by rewrite Hv, app_nil_r, Hi', app_assoc.
    - destruct (last_digit f) as (f' & d & Hf' & Hd); [done|done|].
      exists (sign ++ i ++ "."%char :: f'), d. split; [|done].
      rewrite Hv, Hf'. by rewrite <- !app_assoc. }
  destruct Hlast as (s' & d & Hl & Hd).
  destruct (chars v) as [|a s] eqn:Ev; [by destruct s'|].
  eapply (trim_space_solid v a s s' d); [done|by rewrite Ev| |by apply digit_solid].
  rewrite Hi in Hv.
  destruct Hs as [->|[_ ->]]; [destruct neg|]; injection Hv as -> _; try done.
  by apply digit_solid.
Qed.

Lemma shape_cut : cut_char "." (i ++ match f with [] => [] | _ => "."%char :: f end) =
  (i, match f with [] => None | _ => Some f end).
Proof.
  destruct Hsh as [_ _ Hid _ _]. destruct f as [|c r].
  - rewrite app_nil_r. apply cut_char_none. by apply all_digits_not.
  - apply cut_char_app. by apply all_digits_not.
Qed.

Lemma shape_chars : chars v = sign ++ i ++ match f with [] => [] | _ => "."%char :: f end.
Proof.
  destruct Hsh as [(dot & -> & Hdot) _ _ _ _]. do 2 f_equal.
  destruct Hdot as [[-> ->]|[-> Hf]]; [done|]. by destruct f.
Qed.

(** The exact value of the text. *)
Lemma shape_value :
  parse_rat v = Some (Qmake ((if neg then Z.opp else id) (dval (i ++ f)))
                       (Z.to_pos (10 ^ Z.of_nat (length f)))).
Proof.
  unfold parse_rat. rewrite shape_trim, shape_chars. unfold set_string.
  destruct shape_int_head as (c & r & Hi & Hc). pose proof shape_cut as Hcut.
  destruct Hsh as [_ Hs Hid Hfd _].
  set (rest := i ++ match f with [] => [] | _ => "."%char :: f end) in *.
  assert (Hbody : match sign ++ rest with
    | c :: r => if Ascii.eqb c "-" then (true, r) else if Ascii.eqb c "+" then (false, r)
                else (false, sign ++ rest)
    | [] => (false, sign ++ rest) end = (neg, rest)).
  { destruct Hs as [->|[-> ->]]; [destruct neg; [done|]|done]. cbn [app].
    unfold rest at 1. rewrite Hi. cbn [app].
    assert (Hd : Ascii.eqb c "-" = false /\ Ascii.eqb c "+" = false).
    { split; apply Ascii.eqb_neq; intros ->; done. }
    by destruct Hd as [-> ->]. }
  rewrite Hbody, Hcut.
  assert (Hf : default [] match f with [] => None | _ => Some f end = f) by by destruct f.
  rewrite Hf, Hid, Hfd, bool_decide_false; [done|]. by rewrite Hi.
Qed.

Lemma shape_raw :
  chars (trim_prefix (trim_prefix v "+") "-") = i ++ match f with [] => [] | _ => "."%char :: f end.
Proof.
  destruct shape_int_head as (c & r & Hi & Hc). destruct Hsh as [_ Hs Hid Hfd _].
  pose proof shape_chars as Hv. set (rest := i ++ _) in *.
  assert (Hd : Ascii.eqb "-" c = false /\ Ascii.eqb "+" c = false).
  { split; apply Ascii.eqb_neq; intros <-; done. }
  assert (Hrest : exists t, rest = c :: t) by (unfold rest; rewrite Hi; cbn; eauto).
  destruct Hrest as [t Hrest]. unfold trim_prefix.
  destruct Hs as [->|[_ ->]]; [destruct neg|]; rewrite Hv; cbn [app];
    change (chars "+") with ["+"%char]; change (chars "-") with ["-"%char]; cbn [strip_prefix].
  - change (Ascii.eqb "+" "-") with false. cbv iota. rewrite Hv. cbn [app strip_prefix].
    rewrite Ascii.eqb_refl, chars_of_chars. done.
  - rewrite Hrest. destruct Hd as [Hd1 Hd2]. rewrite Hd2, Hv. cbn [app]. rewrite Hrest, Hd1.
    by rewrite Hv.
  - rewrite Ascii.eqb_refl, chars_of_chars, Hrest. destruct Hd as [Hd1 _]. rewrite Hd1.
    by rewrite chars_of_chars.
Qed.
End shape.

Lemma shape_valid v neg sign i f :
  decimal_shape v neg sign i f -> validDecimal v false = true ->
  (length i <= 20)%nat /\ (length f <= 18)%nat.
Proof.
  intros Hsh. unfold validDecimal. case_bool_decide as Hv; [done|].
  destruct (decimalPattern v); [|done]. cbn [negb].
  rewrite (shape_raw v neg sign i f Hsh), (shape_cut v neg sign i f Hsh).
  assert (Hf : default [] match f with [] => None | _ => Some f end = f) by by destruct f.
  rewrite Hf. rewrite andb_true_iff, !Nat.leb_le. intros [Hi Hl]. split; [|done].
  destruct (sh_nonzero _ _ _ _ _ Hsh) as [->|(c & r & -> & Hc)]; [cbn; lia|].
  cbn [trim_left_char] in Hi. apply Ascii.eqb_neq in Hc. rewrite Hc in Hi.
  by rewrite bool_decide_false in Hi.
Qed.

Lemma shape_units_fit neg i f :
  all_digits i = true -> all_digits f = true ->
  (length i <= 20)%nat -> (length f <= 18)%nat -> numeric_fits (shape_units neg i f) = true.
Proof.
  intros Hi Hf Hli Hlf. unfold numeric_fits, shape_units. apply Z.ltb_lt.
  assert (Hd : all_digits (i ++ f) = true) by by rewrite all_digits_app, Hi, Hf.
  pose proof (dval_range _ Hd) as Hr. rewrite length_app in Hr.
  set (p := 10 ^ (18 - Z.of_nat (length f))).
  assert (Hp : 0 < p) by (apply Z.pow_pos_nonneg; lia).
  assert (Hle : 10 ^ Z.of_nat (length i + length f) * p <= 10 ^ 38).
  { unfold p. rewrite <- Z.pow_add_r by lia. apply Z.pow_le_mono_r; lia. }
  assert (Z.abs ((if neg then Z.opp else id) (dval (i ++ f) * p)) = dval (i ++ f) * p).
  { destruct neg; unfold id; rewrite ?Z.abs_opp; apply Z.abs_eq; nia. }
  nia.
Qed.

Lemma shape_round neg i f : (length f <= 18)%nat ->
  ((if neg : bool then Z.opp else id) (dval (i ++ f)) # Z.to_pos (10 ^ Z.of_nat (length f)) ==
   shape_units neg i f # Z.to_pos scale18)%Q.
Proof.
  intros Hl. unfold Qeq, shape_units. cbn [Qnum Qden].
  rewrite !Z2Pos.id by (try apply Z.pow_pos_nonneg; unfold scale18; lia).
  unfold scale18. replace 18 with ((18 - Z.of_nat (length f)) + Z.of_nat (length f)) at 1 by lia.
  rewrite Z.pow_add_r by lia. destruct neg; unfold id; ring.
Qed.

(** The digits left after the leading zeros. *)
Lemma trim_left_zero s : all_digits s = true -> trim_left_char "0" s = [] <-> dval s = 0.
Proof.
  induction s as [|c s IH]; [done|]. cbn [all_digits forallb trim_left_char].
  intros [Hc Hs]%andb_prop. pose proof (digit_val_range c Hc) as Hr.
  pose proof (dval_range s Hs) as Hr2. rewrite dval_cons.
  assert (Hp : 0 < 10 ^ Z.of_nat (length s)) by (apply Z.pow_pos_nonneg; lia).
  destruct (Ascii.eqb_spec c "0") as [->|Hne].
  - rewrite IH by done. change (digit_val "0") with 0. lia.
  - split; [done|]. intros H. exfalso. apply Hne.
    assert (Hz : digit_val c = 0) by nia. unfold digit_val in Hz.
    rewrite <- (chr_code c). by replace (code c) with 48 by lia.
Qed.

Lemma trim_left_nil c s : trim_left_char c s = [] <-> Forall (eq c) s.
Proof.
  induction s as [|a s IH]; cbn; [done|]. destruct (Ascii.eqb_spec a c) as [->|Hne].
  - rewrite IH, Forall_cons. naive_solver.
  - split; [done|]. intros H. apply Forall_cons in H as [<- _]. done.
Qed.

Lemma trim_left_head c s a r : trim_left_char c s = a :: r -> a <> c.
Proof.
  induction s as [|b s IH]; cbn; [done|].
  destruct (Ascii.eqb_spec b c) as [->|Hne]; [done|]. by intros [= -> ->].
Qed.

Lemma trim_both_nil c s : trim_both_char c s = [] <-> trim_left_char c s = [].
Proof.
  unfold trim_both_char. split; [|by intros ->].
  destruct (trim_left_char c s) as [|a r] eqn:E; [done|]. intros H. exfalso.
  apply (f_equal reverse) in H. rewrite reverse_involutive in H. change (reverse []) with (@nil ascii) in H.
  rewrite trim_left_nil, Forall_forall in H. apply (trim_left_head c s a r E).
  symmetry. apply H. rewrite elem_of_reverse. left.
Qed.

Lemma has_prefix_char v p c : chars p = [c] ->
  has_prefix v p = match chars v with a :: _ => Ascii.eqb c a | [] => false end.
Proof.
  intros Hp. unfold has_prefix. rewrite Hp. destruct (chars v) as [|a s]; [done|]. cbn.
  by destruct (Ascii.eqb c a).
Qed.

Lemma shape_positive v sign i f :
  decimal_shape v false sign i f -> isNonPositive v = bool_decide (dval (i ++ f) = 0).
Proof.
  intros Hsh. unfold isNonPositive.
  pose proof (shape_raw v false sign i f Hsh) as Hraw.
  destruct (shape_int_head v false sign i f Hsh) as (c & r & Hi & Hc).
  assert (Hp : has_prefix v "-" = false).
  { rewrite (has_prefix_char v "-" "-"), (shape_chars v false sign i f Hsh), Hi by done.
    destruct (sh_sign _ _ _ _ _ Hsh) as [->|[_ ->]]; [|done]. cbn [app].
    apply Ascii.eqb_neq. by intros <-. }
  rewrite Hp, Hraw. clear Hp Hraw.
  destruct Hsh as [_ _ Hid Hfd Hnz]. destruct Hnz as [->|(c' & r' & -> & Hne)].
  - clear Hi Hc. cbn [app trim_left_char]. change (Ascii.eqb "0" "0") with true. cbv iota.
    assert (Hz : dval ("0"%char :: f) = dval f) by (rewrite dval_cons; change (digit_val "0") with 0; lia).
    rewrite Hz.
    destruct f as [|a f]; [done|]. cbn [trim_left_char].
    change (Ascii.eqb "." "0") with false. cbv iota.
    assert (Hdot : of_chars ("."%char :: a :: f) <> "") by (intros H; apply (f_equal chars) in H;
      by rewrite chars_of_chars in H).
    rewrite bool_decide_false by done. cbn [orb].
    assert (Hh : has_prefix (of_chars ("."%char :: a :: f)) "." = true).
    { by rewrite (has_prefix_char _ "." "."), chars_of_chars. }
    rewrite Hh. cbn [andb].
    assert (Ht : chars (trim_prefix (of_chars ("."%char :: a :: f)) ".") = a :: f).
    { unfold trim_prefix. rewrite chars_of_chars. change (chars ".") with ["."%char].
      cbn [strip_prefix]. by rewrite Ascii.eqb_refl, chars_of_chars. }
    rewrite Ht. apply bool_decide_ext. by rewrite trim_both_nil, trim_left_zero.
  - cbn [app trim_left_char]. apply Ascii.eqb_neq in Hne as Hb. rewrite Hb.
    injection Hi as <- <-. rewrite (bool_decide_false (of_chars _ = "")).
    2: { intros H. apply (f_equal chars) in H. by rewrite chars_of_chars in H. }
    assert (Hh : has_prefix (of_chars (c' :: r' ++ match f with [] => [] | _ => "."%char :: f end)) "."
                 = false).
    { rewrite (has_prefix_char _ "." "."), chars_of_chars by done. apply Ascii.eqb_neq. by intros <-. }
    rewrite Hh. cbn [orb andb]. symmetry. apply bool_decide_eq_false_2. intros H.
    assert (Ht : all_digits ((c' :: r') ++ f) = true) by by rewrite all_digits_app, Hid, Hfd.
    apply (trim_left_zero _ Ht) in H. cbn [app trim_left_char] in H. by rewrite Hb in H.
Qed.

(** An accepted decimal and the integer of 10^-18 units it stands for. *)
Lemma decimal_shape_exact v :
  validDecimal v false = true ->
  exists z q, parse_rat v = Some q /\ (q == z # Z.to_pos scale18)%Q /\ round18 q = z /\
    numeric_fits z = true /\ (isNonPositive v = true <-> z <= 0).
Proof.
  intros Hvd. assert (Hpat : decimalPattern v = true).
  { unfold validDecimal in Hvd. case_bool_decide; [done|]. by destruct (decimalPattern v). }
  destruct (decimalPattern_shape v Hpat) as (neg & sign & i & f & Hsh).
  destruct (shape_valid _ _ _ _ _ Hsh Hvd) as [Hli Hlf].
  pose proof (shape_value v neg sign i f Hsh) as Hq. pose proof (shape_round neg i f Hlf) as Heq.
  pose proof (round18_proper _ _ Heq) as Hz. rewrite round18_exact in Hz.
  exists (shape_units neg i f). eexists. split; [exact Hq|]. split; [exact Heq|]. split; [exact Hz|].
  split; [apply shape_units_fit; [apply (sh_int _ _ _ _ _ Hsh)|apply (sh_frac _ _ _ _ _ Hsh)|done..]|].
  assert (Hd : all_digits (i ++ f) = true)
    by by rewrite all_digits_app, (sh_int _ _ _ _ _ Hsh), (sh_frac _ _ _ _ _ Hsh).
  pose proof (dval_range _ Hd) as Hr. unfold shape_units.
  assert (Hp : 0 < 10 ^ (18 - Z.of_nat (length f))) by (apply Z.pow_pos_nonneg; lia).
  destruct neg.
  - assert (Hneg : isNonPositive v = true).
    { unfold isNonPositive.
      rewrite (has_prefix_char v "-" "-"), (shape_chars _ _ _ _ _ Hsh) by done.
      by destruct (sh_sign _ _ _ _ _ Hsh) as [->|[? _]]. }
    rewrite Hneg. split; [nia|done].
  - rewrite (shape_positive v sign i f Hsh), bool_decide_eq_true. unfold id. nia.
Qed.

(** The pattern without a leading plus is the narrower one. *)
Lemma pattern_without_plus v : decimal_pattern false v = true ->
  decimalPattern v = true /\ trim_prefix v "+" = v.
Proof.
  unfold decimal_pattern, decimalPattern, trim_prefix. destruct (chars v) as [|c r] eqn:Ec; [done|].
  change (chars "+") with ["+"%char]. cbn [strip_prefix orb]. rewrite andb_false_l, orb_false_r.
  destruct (Ascii.eqb_spec c "+") as [->|Hc].
  { unfold decimal_body. cbn. by destruct (cut_char "." r). }
  assert (Hplus : Ascii.eqb "+" c = false) by (by apply Ascii.eqb_neq; intros <-). rewrite Hplus.
  intros H. split; [|done]. unfold decimal_body in H. destruct (Ascii.eqb c "-"); exact H.
Qed.

Lemma pattern_trim v : decimal_pattern false v = true -> trim_space v = v.
Proof. intros [Hp _]%pattern_without_plus. destruct (decimalPattern_shape _ Hp) as (neg & sign & i & f & Hsh). by eapply shape_trim. Qed.

(** A decimal cell the parser accepts is stored exactly: the database reads the
    text without rounding and within NUMERIC(38,18), as the integer [z] of
    10^-18 units with [z / 10^18] the value of the text, and the
    textual sign test of the price column ([isNonPositive]) agrees with the sign
    of that number. *)
Theorem decimal_exact v :
  validDecimal v false = true ->
  exists z q, parse_rat v = Some q /\ (q == z # Z.to_pos scale18)%Q /\
    numeric_in v = Some z /\ (isNonPositive v = true <-> z <= 0).
Proof.
  intros (z & q & Hq & Heq & Hz & Hfit & Hsign)%decimal_shape_exact. exists z, q.
  split_and!; try done. unfold numeric_in. by rewrite Hq, Hz, Hfit.
Qed.

Lemma decimal_exact_witness :
  validDecimal "+12.050" false = true /\
  exists z q, parse_rat "+12.050" = Some q /\ (q == z # Z.to_pos scale18)%Q /\
    numeric_in "+12.050" = Some z /\ (isNonPositive "+12.050" = true <-> z <= 0).
Proof. split; [vm_compute; reflexivity|]. apply decimal_exact. vm_compute. reflexivity. Defined.

(** ** The certificate of a valid result *)

Definition cell_ok (value : string) : Prop := value <> "" /\ rejectText value = false.

(** What a data record must be, and the rows it becomes. *)
Inductive certified (kind : string) : list (list string) -> list PositionRow -> list PriceRow -> Prop :=
  | certified_nil : certified kind [] [] []
  | certified_position r0 r1 r2 r3 r4 r5 rest ps qs :
      kind = KindPositions -> cell_ok r0 -> cell_ok r1 ->
      validUUID r0 = true -> validUUID r1 = true ->
      validDecimal r2 false = true -> validDecimal r3 true = true ->
      validDecimal r4 true = true -> validDecimal r5 true = true ->
      certified kind rest ps qs ->
      certified kind ([r0; r1; r2; r3; r4; r5] :: rest) (mkPositionRow r0 r1 r2 r3 r4 r5 :: ps) qs
  | certified_price r0 r1 r2 r3 r4 obs known rest ps qs :
      kind = KindManualPrices ->
      cell_ok r0 -> cell_ok (to_upper r1) -> cell_ok r2 -> cell_ok r3 ->
      validUUID r0 = true -> unitPattern (to_upper r1) = true ->
      validDecimal r3 false = true -> isNonPositive r3 = false ->
      parseRFC3339 r2 = Ok obs ->
      (r4 = "" /\ known = None \/
       cell_ok r4 /\ exists t, parseRFC3339 r4 = Ok t /\ known = Some t) ->
      certified kind rest ps qs ->
      certified kind ([r0; r1; r2; r3; r4] :: rest) ps
        (mkPriceRow r0 (to_upper r1) obs r3 r4 known :: qs).

Definition record_key (kind : string) (cells : list string) : string :=
  match cells with
  | [r0; r1; r2; r3; r4; r5] => r0 +:+ nul +:+ r1
  | [r0; r1; r2; r3; r4] => join nul [r0; to_upper r1; r2; r4]
  | _ => ""
  end.

(** A diagnostic, once added, stays. *)
Definition clean (st : pstate) : bool := bool_decide (diags st = []) && negb (truncated st).

Lemma clean_eq st : clean st = true -> st = mkPState [] false (positions st) (prices st) (seen st).
Proof. destruct st as [ds [] ps qs sn]; unfold clean; cbn; intros H; bool_simp; by subst. Qed.

Create HintDb dirty discriminated.

Lemma add_dirty row col code msg st : clean (add row col code msg st) = false.
Proof.
  unfold add, clean. case_match; cbn; [|by rewrite andb_false_r].
  rewrite bool_decide_eq_false_2; [done|]. by destruct (diags st).
Qed.
#[export] Hint Resolve add_dirty : dirty.

Lemma add_if_dirty b row col code msg st : clean st = false -> clean (add_if b row col code msg st) = false.
Proof. destruct b; cbn; auto with dirty. Qed.
#[export] Hint Resolve add_if_dirty : dirty.

Lemma add_if_true row col code msg st : clean (add_if true row col code msg st) = false.
Proof. apply add_dirty. Qed.
#[export] Hint Resolve add_if_true : dirty.

Lemma decimal_cell_dirty row col v o st : clean st = false -> clean (decimal_cell row col v o st) = false.
Proof. apply add_if_dirty. Qed.
Lemma uuid_cell_dirty row col v st : clean st = false -> clean (uuid_cell row col v st) = false.
Proof. apply add_if_dirty. Qed.
Lemma see_dirty row key msg st : clean st = false -> clean (see row key msg st) = false.
Proof. unfold see. case_bool_decide; [auto with dirty|done]. Qed.
Lemma addCell_dirty row col v r st : clean st = false -> clean (fst (addCell row col v r st)) = false.
Proof. unfold addCell. repeat case_match; cbn; auto with dirty. Qed.
#[export] Hint Resolve decimal_cell_dirty uuid_cell_dirty see_dirty addCell_dirty : dirty.

Lemma addCell_inv row col v st st' ok :
  addCell row col v true st = (st', ok) -> clean st' = true -> clean st = true /\ st' = st /\ cell_ok v.
Proof.
  unfold addCell, cell_ok. case_bool_decide; cbn.
  - intros [= <- _] Hc. by rewrite add_dirty in Hc.
  - destruct (rejectText v); intros [= <- _] H'; [by rewrite add_dirty in H'|done].
Qed.

Lemma addCell_ok row col v r st : cell_ok v -> addCell row col v r st = (st, true).
Proof. intros [Hne Hr]. unfold addCell. by rewrite (bool_decide_false (v = "")), andb_false_r, Hr. Qed.

Lemma add_if_inv b row col code msg st :
  clean (add_if b row col code msg st) = true -> clean st = true /\ b = false.
Proof. destruct b; cbn; [by rewrite add_dirty|done]. Qed.

Lemma see_inv row key msg st :
  clean (see row key msg st) = true -> clean st = true /\ (key ∉ seen st) /\
    see row key msg st = mkPState (diags st) (truncated st) (positions st) (prices st) ({[key]} ∪ seen st).
Proof. unfold see. case_bool_decide; [by rewrite add_dirty|done]. Qed.

Lemma room st : clean st = true -> (Z.of_nat (length (diags st)) <? MaxDiagnostics) = true.
Proof. intros H. by rewrite (clean_eq st H). Qed.

(** One clean record: a row is appended and its key recorded. *)
Definition extended (st st' : pstate) (key : string) (ps : list PositionRow) (qs : list PriceRow) : Prop :=
  (key ∉ seen st) /\
  st' = mkPState [] false (positions st ++ ps) (prices st ++ qs) ({[key]} ∪ seen st).

Lemma clean_push st ps qs : clean (mkPState (diags st) (truncated st) ps qs (seen st)) = clean st.
Proof. done. Qed.

(** Reads the checks of a record off a clean outcome, last check first. *)
Ltac clean_step :=
  match goal with
  | H : clean (add_if _ _ _ _ _ _) = true |- _ => apply add_if_inv in H as [H ?]
  | H : clean (see _ _ _ _) = true |- _ =>
      let Hk := fresh "Hkey" in let He := fresh "Hsee" in
      apply see_inv in H as (H & Hk & He)
  | E : addCell _ _ _ true _ = (?s, _), H : clean ?s = true |- _ =>
      apply addCell_inv in E as (? & -> & ?); [|exact H]
  | H : negb _ = false |- _ => apply negb_false_iff in H
  | H : _ || _ = false |- _ => apply orb_false_iff in H as [? ?]
  end.

Lemma parsePosition_clean r0 r1 r2 r3 r4 r5 row st :
  clean (parsePosition r0 r1 r2 r3 r4 r5 row st) = true ->
  clean st = true /\ certified KindPositions [[r0; r1; r2; r3; r4; r5]] [mkPositionRow r0 r1 r2 r3 r4 r5] [] /\
  extended st (parsePosition r0 r1 r2 r3 r4 r5 row st) (r0 +:+ nul +:+ r1)
    [mkPositionRow r0 r1 r2 r3 r4 r5] [].
Proof.
  unfold parsePosition. destruct (addCell row "account_id" r0 true st) as [st1 ok1] eqn:E1.
  destruct (addCell row "instrument_id" r1 true st1) as [st2 ok2] eqn:E2.
  unfold decimal_cell, uuid_cell. cbv zeta. set (st3 := see row _ _ _).
  intros Hc. assert (Hs : clean st3 = true) by by destruct (_ <? _) in Hc.
  rewrite (room _ Hs). subst st3. clear Hc. repeat clean_step.
  rewrite Hsee. clear Hsee. repeat match goal with H : _ = true |- _ => rewrite H in * end.
  cbn [negb add_if diags truncated positions prices seen] in *.
  pose proof (clean_eq st) as Hst.
  split; [done|]. split; [by apply certified_position; [..|constructor]|]. split; [done|].
  rewrite (clean_eq st) by done. cbn. by rewrite app_nil_r.
Qed.

Lemma timestamp_some v t : timestamp v = Ok (Some t) <-> parseRFC3339 v = Ok t.
Proof. unfold timestamp. destruct (parseRFC3339 v) as [t'|[]]; split; congruence. Qed.

Lemma known_cell_inv row r4 st known st' :
  known_cell row r4 st = Ok (known, st') -> clean st' = true ->
  clean st = true /\ st' = st /\
  (r4 = "" /\ known = None \/ cell_ok r4 /\ exists t, parseRFC3339 r4 = Ok t /\ known = Some t).
Proof.
  unfold known_cell. destruct (decide (r4 = "")) as [He|Hne].
  { rewrite bool_decide_true by done. intros [= <- <-]. auto. }
  rewrite bool_decide_false by done. unfold addCell. rewrite (bool_decide_false (r4 = "")) by done.
  cbn [andb]. destruct (rejectText r4) eqn:Hr.
  - intros [= <- <-] Hc. by rewrite add_dirty in Hc.
  - destruct (timestamp r4) as [[t|]|] eqn:Ht; cbn [res_bind]; [| |done].
    + rewrite bool_decide_false by done. intros [= <- <-] Hc. split_and!; [done..|].
      right. split; [done|]. exists t. by rewrite <- timestamp_some.
    + rewrite bool_decide_true by done. intros [= <- <-] Hc. by rewrite add_if_true in Hc.
Qed.

Lemma parsePrice_clean r0 r1 r2 r3 r4 row st st' :
  parsePrice r0 r1 r2 r3 r4 row st = Ok st' -> clean st' = true ->
  clean st = true /\ exists q, certified KindManualPrices [[r0; r1; r2; r3; r4]] [] [q] /\
  extended st st' (join nul [r0; to_upper r1; r2; r4]) [] [q].
Proof.
  unfold parsePrice. cbv zeta.
  destruct (addCell row "instrument_id" r0 true st) as [st1 ok1] eqn:E1.
  destruct (addCell row "quote_currency" (to_upper r1) true st1) as [st2 ok2] eqn:E2.
  destruct (addCell row "observation_time" r2 true st2) as [st3 ok3] eqn:E3.
  destruct (addCell row "price" r3 true st3) as [st4 ok4] eqn:E4.
  unfold uuid_cell. destruct (timestamp r2) as [obs|] eqn:Ht; cbn [res_bind]; [|done].
  set (st5 := add_if (bool_decide (obs = None)) _ _ _ _ _).
  destruct (known_cell row r4 st5) as [[known st6]|] eqn:Hk; cbn [res_bind fst snd]; [|done].
  set (st7 := see row _ _ _). intros [= Hres] Hc.
  assert (Hs : clean st7 = true) by by rewrite <- Hres in Hc; destruct (_ <? _) in Hc.
  rewrite (room _ Hs) in Hres. subst st7. clear Hc. clean_step.
  rewrite Hsee in Hres. clear Hsee. apply (known_cell_inv _ _ _ _ _ Hk) in Hs as (Hs & -> & Hkn).
  subst st5. clear Hk. repeat clean_step. apply bool_decide_eq_false in H. destruct obs as [obs|]; [|done].
  apply timestamp_some in Ht.
  repeat match goal with H : _ = true |- _ => rewrite H in * | H : isNonPositive _ = false |- _ => rewrite H in * end.
  rewrite bool_decide_false in * by done.
  cbn [negb orb add_if diags truncated positions prices seen default] in *.
  split; [done|]. eexists. split; [by apply certified_price; [..|constructor]|]. split; [done|].
  rewrite <- Hres. rewrite (clean_eq st) by done. cbn. by rewrite app_nil_r.
Qed.

Lemma certified_app kind c1 p1 q1 c2 p2 q2 :
  certified kind c1 p1 q1 -> certified kind c2 p2 q2 -> certified kind (c1 ++ c2) (p1 ++ p2) (q1 ++ q2).
Proof. intros H1 H2. induction H1; cbn; [done|constructor; auto..]. Qed.

Definition known_kind (kind : string) : Prop := kind = KindPositions \/ kind = KindManualPrices.

Lemma parse_record_clean kind record row st st' :
  known_kind kind -> parse_record kind record row st = Ok st' -> clean st' = true ->
  clean st = true /\ exists cells ps qs, record = Some cells /\ certified kind [cells] ps qs /\
    extended st st' (record_key kind cells) ps qs.
Proof.
  intros Hkind. destruct record as [cells|]; cbn; [|intros [= <-] H; by rewrite add_dirty in H].
  assert (Hwrong : Ok (add row "" "wrong_cell_count" "CSV record has the wrong number of cells" st) =
    Ok st' -> clean st' = true -> False) by (intros [= <-] H; by rewrite add_dirty in H).
  destruct Hkind as [-> | ->].
  - rewrite bool_decide_true by done.
    destruct cells as [|r0 [|r1 [|r2 [|r3 [|r4 [|r5 []]]]]]]; try (intros ??; exfalso; by apply Hwrong).
    intros [= <-] Hc. apply parsePosition_clean in Hc as (Hc & Hcert & Hext).
    split; [done|]. by do 3 eexists.
  - rewrite bool_decide_false by done.
    destruct cells as [|r0 [|r1 [|r2 [|r3 [|r4 []]]]]]; try (intros ??; exfalso; by apply Hwrong).
    intros Hp Hc. apply (parsePrice_clean _ _ _ _ _ _ _ _ Hp) in Hc as (Hc & q & Hcert & Hext).
    split; [done|]. by do 3 eexists.
Qed.

Lemma parse_rows_clean kind rs rows st n st' :
  known_kind kind -> 0 <= rows <= MaxRows -> parse_rows kind rs rows st = Ok (n, st') -> clean st' = true ->
  clean st = true /\ exists cells ps qs, rs = Some <$> cells /\ n = rows + Z.of_nat (length cells) /\
    n <= MaxRows /\ certified kind cells ps qs /\ NoDup (record_key kind <$> cells) /\
    (forall k, k ∈ record_key kind <$> cells -> k ∉ seen st) /\
    positions st' = positions st ++ ps /\ prices st' = prices st ++ qs.
Proof.
  intros Hkind. induction rs as [|r rs IH] in rows, st |- *; intros Hrows; cbn [parse_rows].
  { intros [= <- <-] Hc. split; [done|]. exists [], [], []. cbn.
    rewrite !app_nil_r. split_and!; try done; try lia; [constructor|constructor|].
    intros k Hk. by apply not_elem_of_nil in Hk. }
  destruct (Z.ltb_spec MaxRows (rows + 1)) as [Hmany|Hfew].
  { intros [= <- <-] H. by rewrite add_dirty in H. }
  destruct (parse_record kind r (rows + 1 + 1) st) as [st1|] eqn:Er; cbn [res_bind]; [|done].
  intros Hp Hc. destruct (IH (rows + 1) st1 ltac:(lia) Hp Hc)
    as (Hc1 & cs & ps & qs & -> & -> & Hn & Hcert & Hnd & Hseen & Hps & Hqs).
  destruct (parse_record_clean _ _ _ _ _ Hkind Er Hc1)
    as (Hc0 & c & p & q & -> & Hcert1 & Hfresh & ->). cbn [seen positions prices] in *.
  split; [done|]. exists (c :: cs), (p ++ ps), (q ++ qs). rewrite Hps, Hqs, <- !app_assoc.
  split_and!; try done.
  - cbn [length]. lia.
  - by apply (certified_app kind [c]).
  - cbn. constructor; [|done]. intros Hin. apply (Hseen _ Hin). set_solver.
  - cbn. intros k [->|Hk]%elem_of_cons; [done|]. specialize (Hseen k Hk). set_solver.
Qed.

(** A well-formed record is accepted. *)
Lemma parse_record_ok kind cells rest ps qs row st :
  certified kind (cells :: rest) ps qs -> clean st = true -> record_key kind cells ∉ seen st ->
  exists st', parse_record kind (Some cells) row st = Ok st' /\ clean st' = true /\
    seen st' = {[record_key kind cells]} ∪ seen st.
Proof.
  intros H Hc. inversion H as [|r0 r1 r2 r3 r4 r5 ? ? ? -> H0 H1 Hu0 Hu1 Hd2 Hd3 Hd4 Hd5 _|
    r0 r1 r2 r3 r4 obs known ? ? ? -> H0 H1 H2 H3 Hu Hun Hd Hpos Hobs Hkn _]; subst; intros Hfresh.
  - eexists. split; [reflexivity|]. unfold parsePosition, uuid_cell, decimal_cell, see.
    rewrite (addCell_ok _ _ _ _ _ H0), (addCell_ok _ _ _ _ _ H1), Hu0, Hu1, Hd2, Hd3, Hd4, Hd5.
    cbn [negb add_if]. cbn [record_key] in Hfresh. rewrite bool_decide_false by done.
    rewrite (clean_eq st) by done. cbn. done.
  - cbn [parse_record]. rewrite bool_decide_false by done. unfold parsePrice, uuid_cell.
    rewrite (addCell_ok _ _ _ _ _ H0), (addCell_ok _ _ _ _ _ H1), (addCell_ok _ _ _ _ _ H2),
      (addCell_ok _ _ _ _ _ H3), Hu, Hun, Hd, Hpos.
    apply timestamp_some in Hobs. rewrite Hobs. cbn [res_bind negb orb add_if].
    rewrite bool_decide_false by done. cbn [add_if].
    assert (Hkc : known_cell row r4 st = Ok (known, st)).
    { unfold known_cell. destruct Hkn as [[-> ->]|[Hr4 (t & Ht & ->)]]; [done|].
      rewrite bool_decide_false by apply Hr4. rewrite (addCell_ok _ _ _ _ _ Hr4).
      apply timestamp_some in Ht. rewrite Ht. cbn [res_bind]. by rewrite bool_decide_false. }
    rewrite Hkc. cbn [res_bind fst snd]. unfold see. cbn [record_key] in Hfresh.
    rewrite bool_decide_false by done. eexists. split; [reflexivity|].
    rewrite (clean_eq st) by done. cbn. done.
Qed.

Lemma certified_inv kind c cells ps qs :
  certified kind (c :: cells) ps qs -> exists ps' qs', certified kind cells ps' qs'.
Proof. inversion 1; subst; by do 2 eexists. Qed.

Lemma parse_rows_ok kind cells ps qs rows st :
  certified kind cells ps qs -> clean st = true -> 0 <= rows ->
  rows + Z.of_nat (length cells) <= MaxRows -> NoDup (record_key kind <$> cells) ->
  (forall k, k ∈ record_key kind <$> cells -> k ∉ seen st) ->
  exists st', parse_rows kind (Some <$> cells) rows st = Ok (rows + Z.of_nat (length cells), st') /\
    clean st' = true.
Proof.
  induction cells as [|c cells IH] in ps, qs, rows, st |- *; intros Hcert Hc Hr Hmax Hnd Hfresh.
  { exists st. cbn. by rewrite Z.add_0_r. }
  cbn [length fmap list_fmap parse_rows] in *. apply NoDup_cons in Hnd as [Hk Hnd].
  destruct (Z.ltb_spec MaxRows (rows + 1)); [lia|].
  destruct (parse_record_ok kind c cells ps qs (rows + 1 + 1) st Hcert Hc) as (st1 & Hp & Hc1 & Hs1).
  { apply Hfresh. left. }
  rewrite Hp. cbn [res_bind]. apply certified_inv in Hcert as (ps' & qs' & Hcert).
  destruct (IH ps' qs' (rows + 1) st1 Hcert Hc1 ltac:(lia) ltac:(lia) Hnd) as (st' & Hp' & Hc').
  { intros k Hin. rewrite Hs1. assert (k ∉ seen st) by (apply Hfresh; by right). set_solver. }
  exists st'. split; [|done]. rewrite Hp'. do 2 f_equal. lia.
Qed.

(** A file the importer takes, and what it reads there. *)
Definition headers_of (kind : string) : list string :=
  if bool_decide (kind = KindManualPrices) then priceHeaders else positionHeaders.

Definition file_records (body : string) : list (option (list string)) :=
  records (split_lines (chars (trim_prefix body byte_order_mark)) []) None.

Record well_formed (body kind : string) (cells : list (list string)) (ps : list PositionRow)
    (qs : list PriceRow) : Prop := {
  wf_kind : known_kind kind;
  wf_size : slen body <= MaxBytes;
  wf_utf8 : utf8_valid body = true;
  wf_control : hasForbiddenControl (chars body) = false;
  wf_records : file_records body = Some (headers_of kind) :: (Some <$> cells);
  wf_rows : 1 <= Z.of_nat (length cells) <= MaxRows;
  wf_unique : NoDup (record_key kind <$> cells);
  wf_certified : certified kind cells ps qs;
}.

Lemma known_kind_guard kind :
  negb (bool_decide (kind = KindPositions)) && negb (bool_decide (kind = KindManualPrices)) = false <->
  known_kind kind.
Proof. unfold known_kind. rewrite andb_false_iff, !negb_false_iff, !bool_decide_eq_true. done. Qed.

Lemma certified_functional kind cells ps qs ps' qs' :
  certified kind cells ps qs -> certified kind cells ps' qs' -> ps = ps' /\ qs = qs'.
Proof.
  intros H. induction H in ps', qs' |- *; inversion 1; subst; [done| |].
  - edestruct IHcertified as [-> ->]; [eassumption|done].
  - edestruct IHcertified as [-> ->]; [eassumption|].
    split; [done|]. do 2 f_equal; [congruence|].
    naive_solver congruence.
Qed.

Definition certificate (body kind : string) (cells : list (list string)) (ps : list PositionRow)
    (qs : list PriceRow) : Result :=
  mkResult kind (digest body) (Z.of_nat (length cells)) true [] false ps qs.

Lemma parse_well_formed body kind cells ps qs :
  well_formed body kind cells ps qs -> Parse body kind = Ok (certificate body kind cells ps qs).
Proof.
  intros [Hk Hsz Hu Hctl Hrec Hn Hnd Hcert]. unfold Parse.
  fold (file_records body) (headers_of kind). cbv zeta. apply known_kind_guard in Hk as Hk'.
  rewrite Hk', Hu, Hctl, Hrec. destruct (Z.ltb_spec MaxBytes (slen body)); [lia|]. cbn [negb].
  unfold sameHeaders. rewrite bool_decide_true by done. cbn [negb].
  destruct (parse_rows_ok kind cells ps qs 0 empty_state Hcert)
    as (st & Hp & Hc); [done|done|lia|done|cbn; set_solver|].
  rewrite Hp. cbn [res_bind].
  destruct (parse_rows_clean _ _ _ _ _ _ Hk ltac:(done) Hp Hc)
    as (_ & cells' & ps' & qs' & Hcells & _ & _ & Hcert' & _ & _ & Hps & Hqs).
  apply (inj (fmap Some)) in Hcells as <-.
  destruct (certified_functional _ _ _ _ _ _ Hcert Hcert') as [<- <-].
  unfold finish, certificate. rewrite (clean_eq st Hc), Hps, Hqs. cbn [diags truncated positions prices].
  rewrite bool_decide_true by done. cbn [negb andb].
  by destruct (Z.ltb_spec 0 (0 + Z.of_nat (length cells))); [|lia].
Qed.

Lemma parse_valid_inv body kind r :
  Parse body kind = Ok r -> IsValid r = true ->
  exists cells, well_formed body kind cells (Positions r) (Prices r).
Proof.
  unfold Parse. fold (file_records body) (headers_of kind). cbv zeta.
  destruct (_ && _) eqn:Hk; [by intros [= <-]|]. apply known_kind_guard in Hk.
  destruct (Z.ltb_spec MaxBytes (slen body)); [by intros [= <-]|].
  destruct (utf8_valid body) eqn:Hu; cbn [negb]; [|by intros [= <-]].
  destruct (hasForbiddenControl (chars body)) eqn:Hctl; [by intros [= <-]|].
  destruct (file_records body) as [|[hs|] rest] eqn:Hrec; [by intros [= <-]| |by intros [= <-]].
  unfold sameHeaders. case_bool_decide as Hh; cbn [negb]; [|by intros [= <-]]. subst hs.
  destruct (parse_rows kind rest 0 empty_state) as [[n st]|] eqn:Hp; cbn [res_bind]; [|done].
  intros [= <-]. cbn [IsValid finish]. intros [Hc Hn]%andb_prop. apply Z.ltb_lt in Hn.
  destruct (parse_rows_clean _ _ _ _ _ _ Hk ltac:(done) Hp Hc)
    as (_ & cells & ps & qs & -> & -> & Hmax & Hcert & Hnd & _ & Hps & Hqs).
  exists cells. cbn [Positions Prices finish]. rewrite Hps, Hqs. split; try done. lia.
Qed.


Definition sample_csv : string :=
  join (of_chars [newline_char])
    [join "," priceHeaders;
     "3b241101-e2bb-4255-8caf-4136c566a962,eur,2026-01-02T00:00:00Z,12.50,";
     "3b241101-e2bb-4255-8caf-4136c566a962,EUR,2026-01-03T00:00:00Z,13,2026-01-03T01:00:00+01:00"].

Definition sample_result : Result :=
  match Parse sample_csv KindManualPrices with
  | Ok r => r
  | Err _ => finish "" "" 0 false empty_state
  end.


(** ** Every file has an answer, of bounded size *)

Definition bounded (st : pstate) : Prop :=
  (length (diags st) <= 100)%nat /\ (truncated st = true -> diags st <> []).

Lemma add_bounded row col code msg st : bounded st -> bounded (add row col code msg st).
Proof.
  intros [Hl Ht]. unfold add, bounded. destruct (Z.ltb_spec (Z.of_nat (length (diags st))) MaxDiagnostics)
    as [Hlt|Hge]; cbn; unfold MaxDiagnostics in *.
  - rewrite length_app. cbn. split; [lia|]. intros _. by destruct (diags st).
  - split; [done|]. intros _ H. rewrite H in Hge. cbn in Hge. lia.
Qed.

Create HintDb bounded discriminated.
#[export] Hint Resolve add_bounded : bounded.

Lemma add_if_bounded b row col code msg st : bounded st -> bounded (add_if b row col code msg st).
Proof. destruct b; cbn; auto with bounded. Qed.
#[export] Hint Resolve add_if_bounded : bounded.

Lemma see_bounded row key msg st : bounded st -> bounded (see row key msg st).
Proof. unfold see. case_bool_decide; auto with bounded. Qed.

Lemma addCell_bounded row col v r st st' ok :
  addCell row col v r st = (st', ok) -> bounded st -> bounded st'.
Proof. unfold addCell. repeat case_match; intros [= <- _]; auto with bounded. Qed.
#[export] Hint Resolve see_bounded : bounded.

(** A cell [parseRFC3339] can read the offset of. *)
Definition timestamp_safe (v : string) : Prop :=
  slen v < 2 \/ 6 <= slen v \/ has_suffix v "Z" = true.

Lemma timestamp_total v : timestamp_safe v -> exists t, timestamp v = Ok t.
Proof.
  unfold timestamp, parseRFC3339, timestamp_safe. intros Hs.
  destruct (Z.ltb_spec (slen v) 2); [by eexists|].
  destruct (has_suffix v "Z"); [by destruct (time_parse v); eexists|].
  destruct (Z.ltb_spec (slen v) 6); [by destruct Hs as [?|[?|?]]; [lia|lia|]|].
  destruct (contains_any _ _); [by destruct (time_parse v); eexists|by eexists].
Qed.

Lemma parsePosition_bounded r0 r1 r2 r3 r4 r5 row st :
  bounded st -> bounded (parsePosition r0 r1 r2 r3 r4 r5 row st).
Proof.
  intros Hb. unfold parsePosition.
  destruct (addCell row "account_id" r0 true st) as [st1 ok1] eqn:E1.
  destruct (addCell row "instrument_id" r1 true st1) as [st2 ok2] eqn:E2.
  apply (addCell_bounded _ _ _ _ _ _ _ E1), (addCell_bounded _ _ _ _ _ _ _ E2) in Hb.
  unfold decimal_cell, uuid_cell. cbv zeta. set (st3 := see _ _ _ _).
  assert (Hs : bounded st3) by (unfold st3; auto 8 with bounded). by destruct (_ <? _).
Qed.

Lemma known_cell_total row r4 st :
  timestamp_safe r4 -> bounded st ->
  exists known st', known_cell row r4 st = Ok (known, st') /\ bounded st'.
Proof.
  intros Hs Hb. unfold known_cell. case_bool_decide; [by do 2 eexists|].
  destruct (addCell row "source_known_at" r4 false st) as [st1 ok] eqn:E.
  apply (addCell_bounded _ _ _ _ _ _ _ E) in Hb. destruct ok; [|by do 2 eexists].
  destruct (timestamp_total r4 Hs) as [t ->]. cbn [res_bind]. do 2 eexists. split; [done|].
  auto with bounded.
Qed.

Lemma parsePrice_total r0 r1 r2 r3 r4 row st :
  timestamp_safe r2 -> timestamp_safe r4 -> bounded st ->
  exists st', parsePrice r0 r1 r2 r3 r4 row st = Ok st' /\ bounded st'.
Proof.
  intros Hs2 Hs4 Hb. unfold parsePrice. cbv zeta.
  destruct (addCell row "instrument_id" r0 true st) as [st1 ok1] eqn:E1.
  destruct (addCell row "quote_currency" (to_upper r1) true st1) as [st2 ok2] eqn:E2.
  destruct (addCell row "observation_time" r2 true st2) as [st3 ok3] eqn:E3.
  destruct (addCell row "price" r3 true st3) as [st4 ok4] eqn:E4.
  apply (addCell_bounded _ _ _ _ _ _ _ E1), (addCell_bounded _ _ _ _ _ _ _ E2),
    (addCell_bounded _ _ _ _ _ _ _ E3), (addCell_bounded _ _ _ _ _ _ _ E4) in Hb.
  destruct (timestamp_total r2 Hs2) as [obs ->]. cbn [res_bind]. unfold uuid_cell.
  set (st5 := add_if (bool_decide (obs = None)) _ _ _ _ _).
  assert (Hb5 : bounded st5) by (unfold st5; auto 8 with bounded).
  destruct (known_cell_total row r4 st5 Hs4 Hb5) as (known & st6 & -> & Hb6).
  cbn [res_bind fst snd]. eexists. split; [reflexivity|]. set (st7 := see _ _ _ _).
  assert (Hs : bounded st7) by (unfold st7; auto with bounded). by destruct (_ <? _).
Qed.

Definition record_safe (kind : string) (record : option (list string)) : Prop :=
  kind = KindManualPrices -> forall cells, record = Some cells -> Forall timestamp_safe cells.

Lemma parse_record_total kind record row st :
  known_kind kind -> record_safe kind record -> bounded st ->
  exists st', parse_record kind record row st = Ok st' /\ bounded st'.
Proof.
  intros Hk Hsafe Hb. destruct record as [cells|]; [|eexists; split; [done|auto with bounded]].
  assert (Hwrong : exists st', Ok (add row "" "wrong_cell_count" "CSV record has the wrong number of cells" st)
    = Ok st' /\ bounded st') by (eexists; split; [done|auto with bounded]).
  cbn [parse_record]. destruct Hk as [-> | ->].
  - rewrite bool_decide_true by done.
    destruct cells as [|r0 [|r1 [|r2 [|r3 [|r4 [|r5 []]]]]]]; try exact Hwrong.
    eexists. split; [reflexivity|]. by apply parsePosition_bounded.
  - rewrite bool_decide_false by done.
    destruct cells as [|r0 [|r1 [|r2 [|r3 [|r4 []]]]]]; try exact Hwrong.
    specialize (Hsafe eq_refl _ eq_refl). rewrite !Forall_cons in Hsafe.
    apply parsePrice_total; tauto.
Qed.

Lemma parse_rows_total kind rs rows st :
  known_kind kind -> Forall (record_safe kind) rs -> bounded st -> 0 <= rows ->
  exists n st', parse_rows kind rs rows st = Ok (n, st') /\ bounded st' /\ 0 <= n.
Proof.
  intros Hk. induction rs as [|r rs IH] in rows, st |- *; intros Hsafe Hb Hr; cbn [parse_rows].
  { exists rows, st. done. }
  destruct (MaxRows <? rows + 1); [do 2 eexists; split; [done|split; [auto with bounded|lia]]|].
  apply Forall_cons in Hsafe as [Hs Hsafe].
  destruct (parse_record_total kind r (rows + 1 + 1) st Hk Hs Hb) as (st1 & -> & Hb1).
  cbn [res_bind]. apply IH; [done..|lia].
Qed.


