(* ===== verification/PortfolioProofs.v ===== *)
(** The portfolio service: what [CreateSnapshot] stores and answers, what every
    history of calls keeps, and that a snapshot stays as it was read. *)

From S2P Require Import Prelude GoString Digits GoTime Order Decimal Tables Db Json JsonTree JsonText Portfolio PortfolioRows ImportParser ImportProofs.
From Stdlib Require Import Ascii QArith.
#[local] Open Scope Z_scope.
Import Portfolio.

(** ** Decimals *)

Lemma trim_space_number (neg : bool) (i f : list ascii) s :
  s = of_chars ((if neg then ["-"%char] else []) ++ i ++ f) ->
  (exists c r, i = c :: r /\ is_digit c = true) -> (f = [] /\ all_digits i = true \/ exists r c, f = r ++ [c] /\ is_digit c = true) ->
  trim_space s = s.
Proof.
  intros -> (c & r & -> & Hc) Hl.
  assert (Hlast : exists r' c', (c :: r) ++ f = r' ++ [c'] /\ is_digit c' = true).
  { destruct Hl as [[-> Hd]|(r' & c' & -> & Hc')].
    - rewrite app_nil_r. destruct (exists_last (l := c :: r)) as (r' & c' & Hr); [done|]. exists r', c'.
      split; [done|]. rewrite Hr, all_digits_app in Hd. cbn in Hd. bool_simp. done.
    - exists ((c :: r) ++ r'), c'. by rewrite app_assoc. }
  destruct Hlast as (r' & c' & Hr & Hc'). destruct neg.
  - eapply (trim_space_solid _ "-"%char _ ("-"%char :: r') c'); rewrite ?chars_of_chars; [done| |done|by apply digit_solid].
    cbn [app]. f_equal. exact Hr.
  - eapply (trim_space_solid _ c (r ++ f) r' c'); rewrite ?chars_of_chars; [done|exact Hr|by apply digit_solid..].
Qed.

Lemma set_string_int (neg : bool) i :
  all_digits i = true -> i <> [] ->
  set_string ((if neg then ["-"%char] else []) ++ i) = Some (Qmake ((if neg then Z.opp else id) (dval i)) 1).
Proof.
  intros Hi Hne.
  assert (Hcut : cut_char "." i = (i, None)) by by apply cut_char_none, all_digits_not.
  assert (Hnn : bool_decide (i ++ [] = []) = false).
  { apply bool_decide_eq_false_2. by rewrite app_nil_r. }
  unfold set_string. destruct neg; cbn [app].
  - cbn [Ascii.eqb Bool.eqb]. rewrite Hcut. cbn [default from_option]. by rewrite Hi, Hnn, app_nil_r.
  - destruct i as [|i0 i']; [done|].
    assert (Hs : Ascii.eqb i0 "-" = false /\ Ascii.eqb i0 "+" = false).
    { cbn in Hi. apply andb_prop in Hi as [Hi _]. split; apply Ascii.eqb_neq; intros ->; done. }
    destruct Hs as [-> ->]. rewrite Hcut. cbn [default from_option]. by rewrite Hi, Hnn, app_nil_r.
Qed.

(** The digits written with [scale] of them after the point. *)
Lemma padded_digits scale z : 0 <= z -> (0 < scale)%nat ->
  let ds := if (length (digits z) <=? scale)%nat
            then replicate (scale - length (digits z) + 1) "0"%char ++ digits z else digits z in
  all_digits ds = true /\ dval ds = z /\ (scale < length ds)%nat.
Proof.
  intros Hz Hs. cbv zeta. pose proof (all_digits_digits z Hz) as Hd. pose proof (dval_digits z Hz) as Hv.
  destruct (Nat.leb_spec (length (digits z)) scale) as [Hl|Hl]; [|done].
  rewrite all_digits_app, all_digits_replicate, Hd, dval_app, dval_replicate_zero, Hv, length_app, length_replicate.
  split; [done|]. split; [lia|]. lia.
Qed.

(** What [numericString] writes has the value of the numeric. *)
Lemma numericString_value n :
  exists q, parse_rat (numericString (Some n)) = Some q /\ (q == numeric_value n)%Q.
Proof.
  unfold numericString, parse_rat, numeric_value. destruct n as [z e]. cbn [Int Exp].
  set (neg := z <? 0). pose proof (all_digits_digits (Z.abs z) ltac:(lia)) as Hd.
  pose proof (digits_nonempty (Z.abs z) ltac:(lia)) as Hne. pose proof (dval_digits (Z.abs z) ltac:(lia)) as Hv.
  assert (Hsign : forall k, (if neg then Z.opp else id) (Z.abs z * k) = z * k).
  { intros k. unfold neg. destruct (Z.ltb_spec z 0); unfold id; nia. }
  destruct (Z.leb_spec 0 e) as [He|He].
  - set (i := digits (Z.abs z) ++ replicate (Z.to_nat e) "0"%char).
    assert (Hi : all_digits i = true) by (unfold i; by rewrite all_digits_app, Hd, all_digits_replicate).
    assert (Hi0 : exists c r, i = c :: r /\ is_digit c = true).
    { unfold i in *. destruct (digits (Z.abs z)) as [|c r]; [done|]. exists c, (r ++ replicate (Z.to_nat e) "0"%char).
      split; [done|]. cbn in Hd. by bool_simp. }
    rewrite (trim_space_number neg i []); [|by rewrite app_nil_r|done|by left].
    rewrite chars_of_chars, set_string_int; [|done|by destruct Hi0 as (c & r & -> & _)].
    eexists. split; [reflexivity|]. unfold i. rewrite dval_app, dval_replicate_zero, length_replicate, Hv.
    rewrite Z2Nat.id, Z.add_0_r, Hsign by done. unfold Qeq. cbn. lia.
  - set (scale := Z.to_nat (- e)).
    destruct (padded_digits scale (Z.abs z) ltac:(lia) ltac:(lia)) as (Hpd & Hpv & Hpl).
    set (ds := if (length (digits (Z.abs z)) <=? scale)%nat then _ else _) in *.
    set (i := take (length ds - scale) ds). set (f := drop (length ds - scale) ds).
    assert (Hi : all_digits i = true) by by apply all_digits_take.
    assert (Hf : all_digits f = true) by by apply all_digits_drop.
    assert (Hfl : length f = scale) by (unfold f; rewrite length_drop; lia).
    assert (Hi0 : exists c r, i = c :: r /\ is_digit c = true).
    { assert (Hl : (0 < length i)%nat) by (unfold i; rewrite length_take; lia).
      destruct i as [|c r]; [cbn in Hl; lia|]. exists c, r. split; [done|]. cbn in Hi. by bool_simp. }
    rewrite (trim_space_number neg i ("."%char :: f)); [|done|done|].
    2: { right. destruct (exists_last (l := f)) as (r' & c' & Hr); [intros E; rewrite E in Hfl; cbn in Hfl; lia|].
         exists ("."%char :: r'), c'. rewrite Hr. split; [done|]. rewrite Hr, all_digits_app in Hf. cbn in Hf. by bool_simp. }
    rewrite chars_of_chars, set_string_digits; [|done|done|by destruct Hi0 as (c & r & -> & _)].
    eexists. split; [reflexivity|]. unfold i, f. rewrite take_drop, Hpv.
    rewrite <- (Z.mul_1_r (Z.abs z)), Hsign, Z.mul_1_r. fold f. rewrite Hfl. unfold scale. rewrite Z2Nat.id by lia. reflexivity.
Qed.

(** Two texts of the same number. *)
Definition same_decimal (text text' : string) : Prop :=
  exists q q', parse_rat text = Some q /\ parse_rat text' = Some q' /\ (q == q')%Q.

Definition stored_as (text : string) (z : Z) : Prop :=
  exists q, parse_rat text = Some q /\ (q == z # Z.to_pos scale18)%Q.

Section numbers.
Context (scan_numeric : string -> option Numeric) (read_numeric : Z -> Numeric).
Context (scan_exact : forall v n, decimal_pattern false v = true -> scan_numeric v = Some n ->
  exists q, parse_rat v = Some q /\ (numeric_value n == q)%Q).
Context (read_exact : forall z, (numeric_value (read_numeric z) == z # Z.to_pos scale18)%Q).

Lemma parseDecimal_exact text opt n :
  parseDecimal scan_numeric text opt = Ok (Some n) ->
  exists z, stored_as text z /\ numeric_column (numeric_value n) = Some z.
Proof.
  unfold parseDecimal. case_bool_decide as Hblank; [by destruct opt|].
  destruct (decimal_pattern false (trim_space text)) eqn:Hp; [|done]. cbn [negb].
  destruct (pattern_without_plus _ Hp) as [Hpat Hplus].
  destruct (cut_char "." (chars (trim_prefix (trim_space text) "-"))) as [i f] eqn:Ecut.
  destruct (Nat.ltb_spec 18 (length (default [] f))) as [|Hf]; [done|].
  destruct (Nat.ltb_spec 20 (length (trim_left_char "0" i))) as [|Hi]; [done|]. cbn [orb].
  destruct (Nat.ltb_spec 38 (length (trim_left_char "0" i) + length (default [] f))) as [|Hif]; [done|].
  destruct (scan_numeric (trim_space text)) as [n'|] eqn:Es; [|done]. intros [= <-].
  assert (Hvalid : Imports.validDecimal (trim_space text) false = true).
  { unfold Imports.validDecimal. rewrite bool_decide_false by done. rewrite Hpat, Hplus, Ecut. cbn [negb].
    apply andb_true_iff. split; apply Nat.leb_le; [|exact Hf].
    case_bool_decide; [cbn; lia|exact Hi]. }
  destruct (decimal_shape_exact _ Hvalid) as (z & q & Hq & Heq & Hz & Hfit & _).
  destruct (scan_exact _ _ Hp Es) as (q' & Hq' & Hn). rewrite Hq in Hq'. injection Hq' as <-.
  assert (Htrim : trim_space (trim_space text) = trim_space text).
  { destruct (decimalPattern_shape _ Hpat) as (neg & sign & i' & f' & Hsh). by eapply shape_trim. }
  exists z. split.
  - exists q. split; [|exact Heq]. unfold parse_rat in Hq |- *. by rewrite Htrim in Hq.
  - unfold numeric_column. rewrite (round18_proper _ _ Hn), Hz, Hfit. done.
Qed.

Lemma decimal_read_back text z : stored_as text z -> same_decimal text (numericString (Some (read_numeric z))).
Proof.
  intros (q & Hq & He). destruct (numericString_value (read_numeric z)) as (q' & Hq' & He').
  exists q, q'. split_and!; [done..|]. by rewrite He, He', read_exact.
Qed.
End numbers.

(** ** The effect of [CreateSnapshot] *)

(** The rows of new lines under the identifiers drawn for them. *)
Fixpoint number_lines (gen : nat -> string) (n : nat) (rows : list LineRow) : list (string * LineRow) :=
  match rows with
  | [] => []
  | r :: rest => (gen (S n), r) :: number_lines gen (S n) rest
  end.

Definition add_rows (rows : list (string * LineRow)) (t : portfolio_tables) : portfolio_tables :=
  set_lines t (list_to_map rows ∪ snapshot_lines t).

Definition fresh_rows (rows : list (string * LineRow)) (t : portfolio_tables) : Prop :=
  NoDup (fst <$> rows) /\ Forall (fun kv => snapshot_lines t !! fst kv = None) rows.

Lemma add_row id r rows t :
  snapshot_lines t !! id = None -> fresh_rows rows (set_lines t (<[id := r]> (snapshot_lines t))) ->
  fresh_rows ((id, r) :: rows) t /\
  add_rows rows (set_lines t (<[id := r]> (snapshot_lines t))) = add_rows ((id, r) :: rows) t.
Proof.
  intros Hid [Hnd Hf]. unfold fresh_rows, add_rows. cbn [snapshot_lines set_lines] in *.
  assert (Hne : id ∉ fst <$> rows).
  { intros Hin. apply list_elem_of_fmap in Hin as ([k l] & -> & Hin). rewrite Forall_forall in Hf.
    specialize (Hf _ Hin). cbn in Hf. by rewrite lookup_insert_eq in Hf. }
  split.
  - split; [by constructor|]. constructor; [done|]. rewrite Forall_forall in *. intros kv Hin. specialize (Hf _ Hin).
    rewrite lookup_insert_ne in Hf; [done|]. intros ->. apply Hne, list_elem_of_fmap. eauto.
  - unfold set_lines. cbn [instruments identifiers portfolios accounts snapshots snapshot_lines]. f_equal.
    rewrite list_to_map_cons.
    rewrite <- insert_union_r by by apply not_elem_of_list_to_map_1. by rewrite insert_union_l.
Qed.

Section snapshots.
Context (Queries Beginner : bool) (scan_uuid : string -> option string)
  (scan_numeric : string -> option Numeric) (read_numeric : Z -> Numeric)
  (collate : string -> string -> comparison).

Abbreviation create := (CreateSnapshot Queries Beginner scan_uuid scan_numeric read_numeric collate).

(** What a prepared line comes from. *)
Definition prepared_from (input : SnapshotLineInput) (line : preparedLine) : Prop :=
  parseUUID scan_uuid (AccountID input) = Some (accountID line) /\
  parseUUID scan_uuid (InstrumentID input) = Some (instrumentID line) /\
  exists type, line_numbers scan_numeric input type = Ok (quantity line, costBasis line, duration line, convexity line).

Lemma prepareLine_wp pid a i input (Q : res preparedLine -> db portfolio_tables -> Prop) c w fs :
  (forall e w' fs', Q (Err e) (Db c w' fs')) ->
  (forall line w' fs', accountID line = a -> instrumentID line = i ->
     (exists type, line_numbers scan_numeric input type = Ok (quantity line, costBasis line, duration line, convexity line)) ->
     Q (Ok line) (Db c w' fs')) ->
  wp (prepareLine scan_numeric pid a i input) Q (Db c w fs).
Proof.
  intros He HQ. unfold prepareLine, GetAccountRow, GetPortfolioInstrument, pool_query.
  assert (Hnums : forall (r : string * InstrumentRow) w' fs',
    wp (let* numbers := of_res (line_numbers scan_numeric input (in_type (snd r))) in
        let '(((q, cb), du), cv) := numbers in ret (mkPreparedLine a i q cb du cv)) Q (Db c w' fs')).
  { intros r w' fs'. wp_step. wp_step. destruct (line_numbers _ _ _) as [[[[q cb] du] cv]|e] eqn:En; [|apply He].
    apply wp_ret, HQ; [done..|]. by exists (in_type (snd r)). }
  wp_step. wp_step.
  match goal with |- wp _ (fun r d => wp (@?k r) Q d) _ =>
    assert (Hrest : forall owner w' fs', wp (k owner) Q (Db c w' fs')) end.
  { intros owner w' fs'. cbv zeta beta. match goal with |- wp (if ?b then _ else _) _ _ => destruct b end; [by apply wp_throw|]. wp_step. wp_step. wp_step.
    destruct owner as [acc|e]; [|apply He]. wp_step. wp_step. wp_step; [apply He| |apply He].
    injection E as E1 <-. apply Hnums. }
  wp_step; [exact (Hrest (Err EDb) _ _)|injection E as E1 <-; exact (Hrest (Ok _) _ _)|exact (Hrest (Err _) _ _)].
Qed.

Lemma prepareLines_wp pid lines : forall seen (Q : res (list preparedLine) -> db portfolio_tables -> Prop) c w fs,
  (forall e w' fs', Q (Err e) (Db c w' fs')) ->
  (forall ls w' fs', Forall2 prepared_from lines ls -> Q (Ok ls) (Db c w' fs')) ->
  wp (prepareLines scan_uuid scan_numeric pid seen lines) Q (Db c w fs).
Proof.
  induction lines as [|input rest IH]; intros seen Q c w fs He HQ; cbn [prepareLines]; [by apply wp_ret, HQ|].
  wp_step. unfold or_invalid. destruct (parseUUID scan_uuid (AccountID input)) as [a|] eqn:Ea; [|by apply wp_throw].
  wp_step. wp_step. destruct (parseUUID scan_uuid (InstrumentID input)) as [i|] eqn:Ei; [|by apply wp_throw].
  wp_step. case_bool_decide; [by apply wp_throw|]. wp_step. apply prepareLine_wp; [done|].
  intros line w' fs' Hla Hli Hn. wp_step. apply IH; [done|]. intros ls w'' fs'' Hls. apply wp_ret, HQ.
  constructor; [|done]. unfold prepared_from. rewrite Hla, Hli. done.
Qed.

Lemma insert_line_effect id r t a t' :
  insert_line id r t = (Ok a, t') ->
  snapshot_lines t !! id = None /\ t' = set_lines t (<[id := r]> (snapshot_lines t)).
Proof.
  unfold insert_line. destruct (validate_portfolio_snapshot_line r t); [done|].
  destruct (match ln_convexity r with Some _ => _ | None => _ end); [done|].
  destruct (bool_decide (is_Some _) || _) eqn:Hu; [done|]. destruct (bool_decide (sn_portfolio <$> _ = _) && _); [|done].
  intros [= <- <-]. apply orb_false_elim in Hu as [Hid _]. by apply bool_decide_eq_false_1, eq_None_not_Some in Hid.
Qed.

Lemma insert_lines_wp gen pid sid lines : forall n (Q : res unit -> db portfolio_tables -> Prop) c w fs,
  (forall e w' fs', Q (Err e) (Db c w' fs')) ->
  (forall rows fs', Forall2 (fun line r => line_row pid sid line = Some r) lines rows ->
     fresh_rows (number_lines gen n rows) w -> Q (Ok tt) (Db c (add_rows (number_lines gen n rows) w) fs')) ->
  wp (insert_lines gen pid sid n lines) Q (Db c w fs).
Proof.
  induction lines as [|line rest IH]; intros n Q c w fs He HQ; cbn [insert_lines].
  { apply wp_ret. replace w with (add_rows (number_lines gen n []) w) at 1; [apply HQ; [constructor|]|].
    - split; [constructor|constructor].
    - unfold add_rows, set_lines. cbn [number_lines list_to_map foldr]. rewrite (left_id_L ∅ (∪)). by destruct w. }
  wp_step. wp_step. wp_step; try apply He. destruct a. unfold InsertPortfolioSnapshotLine in E.
  destruct (line_row pid sid line) as [r|] eqn:Er; [|done]. apply insert_line_effect in E as [Hid ->].
  apply IH; [done|]. intros rows fs' Hrows Hfresh. destruct (add_row _ _ _ _ Hid Hfresh) as [Hf' Heq]. rewrite Heq.
  apply (HQ (r :: rows)); [by constructor|exact Hf'].
Qed.

(** The snapshot a request supersedes, if it names one. *)
Definition supersedes_ok (t : portfolio_tables) (pid id : string) (s : option string) : Prop :=
  match s with
  | None => id = ""
  | Some old => parseUUID scan_uuid id = Some old /\ sn_portfolio <$> snapshots t !! old = Some pid
  end.

Lemma superseded_wp pid id (Q : res (option string) -> db portfolio_tables -> Prop) c w fs :
  (forall e w' fs', Q (Err e) (Db c w' fs')) ->
  (forall s w' fs', supersedes_ok c pid id s -> Q (Ok s) (Db c w' fs')) ->
  wp (superseded scan_uuid pid id) Q (Db c w fs).
Proof.
  intros He HQ. unfold superseded, or_invalid, GetPortfolioSnapshot, pool_query.
  case_bool_decide; [by apply wp_ret, HQ|]. wp_step.
  destruct (parseUUID scan_uuid id) as [old|] eqn:Eold; [|by apply wp_throw]. wp_step. wp_step. wp_step.
  wp_step; [apply wp_throw, He| |].
  - injection E as E <-. unfold row_of in E. destruct (snapshots c !! old) as [row|] eqn:Er; [|done]. injection E as <-.
    cbn [snd]. case_bool_decide as Hp; [|by apply wp_throw]. apply wp_ret, HQ. split; [done|]. rewrite Er. cbn. by rewrite Hp.
  - apply wp_throw, He.
Qed.

(** The tables after a snapshot has been created. *)
Record created (gen : nat -> string) (now : time) (pid : string) (request : CreateSnapshotRequest)
    (supersedes : option string) (rows : list LineRow) (t t' : portfolio_tables) : Prop := {
  cr_supersedes : supersedes_ok t pid (SupersedesSnapshotID request) supersedes;
  cr_fresh : snapshots t !! gen 0%nat = None;
  cr_lines : fresh_rows (number_lines gen 0 rows) t;
  cr_rows : exists prepared, Forall2 prepared_from (Lines request) prepared /\
    Forall2 (fun line r => line_row pid (gen 0%nat) line = Some r) prepared rows;
  cr_tables : t' = add_rows (number_lines gen 0 rows) (set_snapshots t
    (<[gen 0%nat := mkPortfolioSnapshot pid (pg_time (CapturedAt request)) supersedes now]> (snapshots t)));
}.

(** A call either changes nothing and reports an error or creates the whole
    snapshot, and then its answer, if it gives one, is the snapshot as it
    stands. *)
Lemma create_effect gen now portfolioID request fs t r t' :
  run (create gen now portfolioID request) fs t = (r, t') ->
  (t' = t /\ is_ok r = false) \/
  Lines request <> [] /\
  exists pid supersedes rows, parseUUID scan_uuid portfolioID = Some pid /\
    created gen now pid request supersedes rows t t' /\
    forall snap, r = Ok snap ->
      snap = mkSnapshot (gen 0%nat) pid (pg_time (CapturedAt request)) (default "" supersedes) now
               (line_answer read_numeric <$> snapshot_rows collate (gen 0%nat) t').
Proof.
  intros Hrun. run_wp Hrun. unfold CreateSnapshot.
  destruct (negb Queries || negb Beginner); [apply wp_throw; by left|]. wp_step. unfold or_invalid at 1.
  destruct (IsZero (CapturedAt request) || bool_decide (Lines request = [])) eqn:Eg; [apply wp_throw; by left|].
  destruct (parseUUID scan_uuid portfolioID) as [pid|] eqn:Epid; [|apply wp_throw; by left].
  wp_step. wp_step. unfold found, GetPortfolioRow, pool_query. wp_step. wp_step; try (by left).
  injection E as _ <-. wp_step. apply superseded_wp; [by left|]. intros s w1 fs1 Hs. wp_step.
  apply prepareLines_wp; [by left|]. intros prepared w2 fs2 Hprep. wp_step. wp_step. wp_step; [by left|].
  wp_step. wp_step. wp_step; [by left| |by left].
  unfold CreatePortfolioSnapshot in E. case_bool_decide as Hself; [done|]. case_bool_decide as Hfresh; [done|].
  destruct (_ && _); [|done]. injection E as <- <-. apply eq_None_not_Some in Hfresh. wp_step. cbn [fst].
  apply insert_lines_wp; [by left|]. intros rows fs9 Hrows Hnew. wp_step. wp_step. wp_step; [by left|].
  assert (Hcreated : created gen now pid request s rows t (add_rows (number_lines gen 0 rows) (set_snapshots t
    (<[gen 0%nat := mkPortfolioSnapshot pid (pg_time (CapturedAt request)) s now]> (snapshots t))))).
  { split; try done. by exists prepared. }
  bool_simp. unfold snapshot, ListPortfolioSnapshotLines, pool_query. wp_step. wp_step.
  wp_step; [right; split; [done|]; exists pid, s, rows; by split_and!| |done].
  injection E as <- <-. wp_step. right. split; [done|]. exists pid, s, rows. split_and!; [done..|].
  intros snap [= <-]. reflexivity.
Qed.
End snapshots.

(** ** The lines of a snapshot *)

Definition lines_of (t : portfolio_tables) (sid : string) : list (string * LineRow) :=
  List.filter (fun kv => bool_decide (ln_snapshot (snd kv) = sid)) (map_to_list (snapshot_lines t)).

Lemma lines_of_snapshot t sid k l : (k, l) ∈ lines_of t sid <-> snapshot_lines t !! k = Some l /\ ln_snapshot l = sid.
Proof.
  unfold lines_of. rewrite list_elem_of_In, filter_In, <- list_elem_of_In, elem_of_map_to_list. cbn [snd].
  by rewrite bool_decide_eq_true.
Qed.

Lemma NoDup_lines_of t sid : NoDup (lines_of t sid).
Proof. unfold lines_of. apply NoDup_ListNoDup, List.NoDup_filter, NoDup_ListNoDup, NoDup_map_to_list. Qed.

(** The lines of a snapshot are the same in two states. *)
Definition same_lines (t t' : portfolio_tables) (sid : string) : Prop :=
  forall k l, ln_snapshot l = sid -> snapshot_lines t' !! k = Some l <-> snapshot_lines t !! k = Some l.

Lemma same_lines_perm t t' sid : same_lines t t' sid -> lines_of t' sid ≡ₚ lines_of t sid.
Proof.
  intros H. apply NoDup_Permutation; [apply NoDup_lines_of..|]. intros [k l]. rewrite !lines_of_snapshot.
  split; intros [H1 H2]; (split; [|done]); by apply (H k l H2).
Qed.

Lemma number_lines_elem gen rows : forall n k l, (k, l) ∈ number_lines gen n rows -> l ∈ rows.
Proof.
  induction rows as [|r rest IH]; intros n k l; cbn [number_lines]; [by intros ?%not_elem_of_nil|].
  rewrite !elem_of_cons. intros [[= -> ->]|H]; [by left|right]. by eapply IH.
Qed.

Lemma line_row_snapshot pid sid line r : line_row pid sid line = Some r ->
  ln_portfolio r = pid /\ ln_snapshot r = sid /\ ln_account r = accountID line /\ ln_instrument r = instrumentID line /\
  (quantity line ≫= fun n => numeric_column (numeric_value n)) = Some (ln_quantity r) /\
  nullable_column (costBasis line) = Some (ln_cost r) /\ nullable_column (duration line) = Some (ln_duration r) /\
  nullable_column (convexity line) = Some (ln_convexity r).
Proof.
  unfold line_row. intros H. apply bind_Some in H as (q & Hq & H). apply bind_Some in H as (c & Hc & H).
  apply bind_Some in H as (d & Hd & H). apply bind_Some in H as (x & Hx & [= <-]). done.
Qed.

Section created.
Context (scan_uuid : string -> option string) (scan_numeric : string -> option Numeric).
Context (gen : nat -> string) (now : time) (pid : string) (request : CreateSnapshotRequest)
  (supersedes : option string) (rows : list LineRow) (t t' : portfolio_tables).
Context (Hc : created scan_uuid scan_numeric gen now pid request supersedes rows t t').

Lemma created_rows : Forall (fun r => ln_snapshot r = gen 0%nat) rows /\ length rows = length (Lines request).
Proof.
  destruct (cr_rows _ _ _ _ _ _ _ _ _ _ Hc) as (prepared & Hp & Hr). split.
  - clear Hp. apply Forall_forall. intros r [n Hn]%list_elem_of_lookup. destruct (Forall2_lookup_r _ _ _ _ _ Hr Hn) as (line & _ & Hl).
    by apply line_row_snapshot in Hl as (_ & ? & _).
  - by rewrite <- (Forall2_length _ _ _ Hr), <- (Forall2_length _ _ _ Hp).
Qed.

Lemma created_lines k l :
  snapshot_lines t' !! k = Some l <-> (k, l) ∈ number_lines gen 0 rows \/ snapshot_lines t !! k = Some l.
Proof.
  destruct (cr_lines _ _ _ _ _ _ _ _ _ _ Hc) as [Hnd Hf]. rewrite (cr_tables _ _ _ _ _ _ _ _ _ _ Hc).
  unfold add_rows. cbn [snapshot_lines set_lines set_snapshots]. rewrite lookup_union_Some_raw.
  rewrite <- elem_of_list_to_map by done. split; [by intros [?|[_ ?]]; [left|right]|].
  intros [H|H]; [by left|]. right. split; [|done]. apply not_elem_of_list_to_map_1. intros Hin.
  apply list_elem_of_fmap in Hin as ([k' l'] & -> & Hin). rewrite Forall_forall in Hf. specialize (Hf _ Hin). cbn in *. congruence.
Qed.

Lemma created_same sid s : snapshots t !! sid = Some s -> snapshots t' !! sid = Some s /\ same_lines t t' sid.
Proof.
  intros Hs. pose proof (cr_fresh _ _ _ _ _ _ _ _ _ _ Hc) as Hfresh. split.
  - rewrite (cr_tables _ _ _ _ _ _ _ _ _ _ Hc). cbn. rewrite lookup_insert_ne; [done|]. by eapply fresh_ne.
  - intros k l Hl. rewrite created_lines. split; [|by right]. intros [Hin|?]; [|done].
    apply number_lines_elem in Hin. destruct created_rows as [Hr _]. rewrite Forall_forall in Hr. specialize (Hr _ Hin).
    exfalso. rewrite <- Hl, Hr, Hfresh in Hs. discriminate Hs.
Qed.

Lemma created_of : RowInv t -> lines_of t' (gen 0%nat) ≡ₚ number_lines gen 0 rows.
Proof.
  intros I. destruct (cr_lines _ _ _ _ _ _ _ _ _ _ Hc) as [Hnd Hf].
  apply NoDup_Permutation; [apply NoDup_lines_of|by eapply NoDup_fmap_1|]. intros [k l]. rewrite lines_of_snapshot, created_lines.
  split.
  - intros [[H|H] Hl]; [done|]. exfalso. destruct (ri_line _ I _ _ H) as [Hs _]. rewrite Hl in Hs.
    rewrite (cr_fresh _ _ _ _ _ _ _ _ _ _ Hc) in Hs. discriminate Hs.
  - intros Hin. split; [by left|]. apply number_lines_elem in Hin. destruct created_rows as [Hr _].
    rewrite Forall_forall in Hr. by apply Hr.
Qed.
End created.

(** ** Steps and snapshots *)

Definition same_snapshots (t t' : portfolio_tables) : Prop :=
  snapshots t' = snapshots t /\ snapshot_lines t' = snapshot_lines t.

#[export] Instance same_snapshots_refl : Reflexive same_snapshots.
Proof. by intros t. Qed.
#[export] Instance same_snapshots_trans : Transitive same_snapshots.
Proof. intros t1 t2 t3 [A B] [C D]. split; congruence. Qed.

(** Follow a statement to the tables it leaves. *)
Ltac statement H :=
  repeat match type of H with
  | (Ok _, _) = (Ok _, _) => injection H; clear H; intros; subst
  | (Err _, _) = (Ok _, _) => discriminate H
  | match ?x with _ => _ end = _ => destruct x eqn:?
  end.

Section quiet_statements.
Context (text_ok : string -> bool) (jsonb_in : string -> option json) (account_used : string -> bool).

Lemma trigger_same id r t t' : ensure_binance_external_identifier id r t = Ok t' -> same_snapshots t t'.
Proof. intros [->|(_ & _ & ->)]%trigger_effect; done. Qed.

Lemma same_insert_instrument id now symbol type native external status :
  respects same_snapshots (CreatePortfolioInstrument text_ok jsonb_in id now symbol type native external status).
Proof.
  intros t a t' H. unfold CreatePortfolioInstrument in H. cbv zeta in H. statement H.
  match goal with E : ensure_binance_external_identifier _ _ _ = Ok _ |- _ => exact (trigger_same _ _ _ _ E) end.
Qed.

Lemma same_update_status id status : respects same_snapshots (UpdatePortfolioInstrumentStatus text_ok id status).
Proof.
  intros t a t' H. unfold UpdatePortfolioInstrumentStatus in H. cbv zeta in H. statement H.
  match goal with E : ensure_binance_external_identifier _ _ _ = Ok _ |- _ => exact (trigger_same _ _ _ _ E) end.
Qed.

Lemma same_insert_identifier id ns x : respects same_snapshots (InsertInstrumentExternalIdentifier text_ok id ns x).
Proof. intros t a t' H. unfold InsertInstrumentExternalIdentifier in H. by statement H. Qed.

Lemma same_insert_portfolio id now name currency m : respects same_snapshots (insert_portfolio text_ok jsonb_in id now name currency m).
Proof. intros t a t' H. unfold insert_portfolio in H. cbv zeta in H. by statement H. Qed.

Lemma same_update_portfolio id now name currency m : respects same_snapshots (update_portfolio text_ok jsonb_in id now name currency m).
Proof. intros t a t' H. unfold update_portfolio in H. cbv zeta in H. by statement H. Qed.

Lemma same_delete_portfolio id : respects same_snapshots (delete_portfolio id).
Proof. intros t a t' H. unfold delete_portfolio in H. by statement H. Qed.

Lemma same_insert_account id now p name m : respects same_snapshots (insert_account text_ok jsonb_in id now p name m).
Proof. intros t a t' H. unfold insert_account in H. cbv zeta in H. by statement H. Qed.

Lemma same_update_account id now name m : respects same_snapshots (update_account text_ok jsonb_in id now name m).
Proof. intros t a t' H. unfold update_account in H. cbv zeta in H. by statement H. Qed.

Lemma same_delete_account id : respects same_snapshots (delete_account account_used id).
Proof. intros t a t' H. unfold delete_account in H. by statement H. Qed.
End quiet_statements.

#[export] Hint Resolve same_insert_instrument same_update_status same_insert_identifier same_insert_portfolio
  same_update_portfolio same_delete_portfolio same_insert_account same_update_account same_delete_account : go.

#[export] Hint Resolve respects_insert_portfolio respects_update_portfolio respects_delete_portfolio
  respects_insert_account respects_update_account respects_delete_account respects_insert_instrument
  respects_insert_identifier respects_update_status respects_insert_snapshot respects_insert_line : go.

Lemma respects_line id pid snapshot line : respects evolves (InsertPortfolioSnapshotLine id pid snapshot line).
Proof.
  intros t a t' H. unfold InsertPortfolioSnapshotLine in H. destruct (line_row _ _ _); [|done].
  by eapply respects_insert_line.
Qed.

(** ** The service *)

Section service.
Context (Queries Beginner : bool) (scan_uuid : string -> option string)
  (scan_numeric : string -> option Numeric) (read_numeric : Z -> Numeric)
  (jsonb_in : string -> option json) (jsonb_out : json -> string) (text_ok : string -> bool)
  (collate : string -> string -> comparison) (account_used : string -> bool)
  (format_float : SpecFloat.spec_float -> string) (float_ok : string -> bool)
  (shuffle : list (string * string) -> list (string * string)).

Abbreviation step := (service_step Queries Beginner scan_uuid scan_numeric read_numeric jsonb_in jsonb_out text_ok
  collate account_used format_float float_ok shuffle).

#[local] Hint Resolve respects_line : go.

#[local] Hint Extern 0 (Transitive _) => exact _ : go.

(** Queries change nothing, so they are within any relation. *)
Lemma within_or_invalid R `{!Transitive R} {A} (o : option A) : within R (or_invalid o).
Proof. unfold or_invalid. repeat within_step. Qed.
#[local] Hint Resolve within_or_invalid : go.

Lemma within_snapshot R `{!Transitive R} row : within R (snapshot read_numeric collate row).
Proof. unfold snapshot, ListPortfolioSnapshotLines. repeat within_step. Qed.

Lemma within_instrument R `{!Transitive R} row : within R (instrument jsonb_out collate shuffle row).
Proof. unfold instrument, ListInstrumentExternalIdentifiers. repeat within_step. Qed.

Lemma within_prepareLines R `{!Transitive R} pid lines : forall seen,
  within R (prepareLines scan_uuid scan_numeric pid seen lines).
Proof.
  induction lines as [|input rest IH]; intros seen; cbn [prepareLines]; [apply within_ret|].
  unfold prepareLine, GetAccountRow, GetPortfolioInstrument. repeat within_step.
Qed.

Lemma within_insert_lines gen pid id lines : forall n, within evolves (insert_lines gen pid id n lines).
Proof. induction lines as [|l rest IH]; intros n; cbn [insert_lines]; repeat within_step; apply IH. Qed.

#[local] Hint Resolve within_snapshot within_instrument within_prepareLines within_insert_lines : go.

(** What every call unfolds to, apart from its statements. *)
Ltac walk_service :=
  unfold CreateInstrument, UpdateInstrumentStatus, CreatePortfolio, UpdatePortfolio, DeletePortfolio, CreateAccount,
    UpdateAccount, DeleteAccount, CreateSnapshot, updated, deleted, found, superseded, GetPortfolioRow,
    GetPortfolioSnapshot;
  repeat within_step.

Lemma within_create gen now portfolioID request :
  within evolves (CreateSnapshot Queries Beginner scan_uuid scan_numeric read_numeric collate gen now portfolioID request).
Proof. walk_service. Qed.

Lemma step_evolves t t' : step t t' -> evolves t t'.
Proof.
  intros H. destruct H as [fs id now request t r t' H|fs id status t r t' H|fs id now request t r t' H
    |fs now id request t r t' H|fs id t r t' H|fs id now portfolio request t r t' H|fs now id request t r t' H
    |fs id t r t' H|fs gen now portfolio request t r t' H]; revert H; apply within_run; try exact _; walk_service.
  bool_simp. by apply respects_insert_instrument.
Qed.

Lemma steps_evolve t t' : rtc step t t' -> evolves t t'.
Proof. induction 1 as [|t1 t2 t3 H _ IH]; [reflexivity|]. etransitivity; [exact (step_evolves _ _ H)|exact IH]. Qed.

(** A call leaves the snapshots as they are or creates one. *)
Lemma call_cases t t' : step t t' ->
  same_snapshots t t' \/
  exists gen now pid request supersedes rows, Lines request <> [] /\
    created scan_uuid scan_numeric gen now pid request supersedes rows t t'.
Proof.
  intros H. destruct H as [fs id now request t r t' H|fs id status t r t' H|fs id now request t r t' H
    |fs now id request t r t' H|fs id t r t' H|fs id now portfolio request t r t' H|fs now id request t r t' H
    |fs id t r t' H|fs gen now portfolio request t r t' H].
  1-8: left; revert H; apply within_run; try exact _; walk_service.
  apply create_effect in H as [[-> _]|(Hne & pid & s & rows & _ & Hc & _)]; [by left|right; eauto 10].
Qed.

(** ** Histories *)

(** Well-formed tables in which every snapshot has a line. *)
Definition SInv (t : portfolio_tables) : Prop :=
  RowInv t /\ forall sid s, snapshots t !! sid = Some s -> lines_of t sid <> [].

Lemma step_sealed t t' sid s : step t t' -> snapshots t !! sid = Some s -> same_lines t t' sid.
Proof.
  intros [[_ Hl]|(gen & now & pid & request & sup & rows & _ & Hc)]%call_cases Hs; [by intros k l _; rewrite Hl|].
  by apply (created_same _ _ _ _ _ _ _ _ _ _ Hc _ _ Hs).
Qed.

Lemma step_sinv t t' : SInv t -> step t t' -> SInv t'.
Proof.
  intros [I HL] Hstep. destruct (step_evolves _ _ Hstep I) as [I' _]. split; [done|]. intros sid s Hs Hnil.
  assert (Hold : forall s0, snapshots t !! sid = Some s0 -> False).
  { intros s0 Hs0. apply (HL _ _ Hs0), Permutation_nil_r. rewrite <- Hnil. symmetry.
    apply same_lines_perm. by eapply step_sealed. }
  destruct (call_cases _ _ Hstep) as [[Hsn _]|(gen & now & pid & request & sup & rows & Hne & Hc)].
  { rewrite Hsn in Hs. by eapply Hold. }
  rewrite (cr_tables _ _ _ _ _ _ _ _ _ _ Hc) in Hs. cbn in Hs. apply lookup_insert_Some in Hs as [[<- _]|[_ Hs]]; [|by eapply Hold].
  pose proof (created_of _ _ _ _ _ _ _ _ _ _ Hc I) as Hp. rewrite Hnil in Hp. apply Permutation_nil_l in Hp.
  destruct (created_rows _ _ _ _ _ _ _ _ _ _ Hc) as [_ Hlen]. destruct rows; [by destruct (Lines request)|discriminate Hp].
Qed.

Lemma steps_sealed t t' sid s : RowInv t -> rtc step t t' -> snapshots t !! sid = Some s -> same_lines t t' sid.
Proof.
  intros I H. revert I. induction H as [t|t1 t2 t3 H1 H2 IH]; intros I Hs; [done|].
  destruct (step_evolves _ _ H1 I) as [I2 K]. intros k l Hl. rewrite (IH I2 (kp_snapshot _ _ K _ _ Hs) k l Hl).
  by apply (step_sealed _ _ _ _ H1 Hs).
Qed.
End service.

(** ** What a line of an answer says *)

(** An optional decimal, absent when its text is blank. *)
Definition optional_stored (text : string) (z : option Z) : Prop :=
  match z with None => trim_space text = "" | Some z => stored_as text z end.

Definition optional_shown (text shown : string) : Prop :=
  trim_space text = "" /\ shown = "" \/ same_decimal text shown.

Definition both {A B} (R : A -> B -> Prop) (a : option A) (b : option B) : Prop :=
  match a, b with None, None => True | Some a, Some b => R a b | _, _ => False end.

(** The row holds what the request's line says. *)
Record line_stored (scan_uuid : string -> option string) (input : SnapshotLineInput) (row : LineRow) : Prop := {
  st_account : parseUUID scan_uuid (AccountID input) = Some (ln_account row);
  st_instrument : parseUUID scan_uuid (InstrumentID input) = Some (ln_instrument row);
  st_quantity : stored_as (Quantity input) (ln_quantity row);
  st_cost : both stored_as (TotalCostBasis input) (ln_cost row);
  st_duration : optional_stored (ModifiedDurationYears input) (ln_duration row);
  st_convexity : optional_stored (ConvexityYearsSquared input) (ln_convexity row);
}.

(** The answer's line says what the request's line says. *)
Record line_shown (scan_uuid : string -> option string) (input : SnapshotLineInput) (line : SnapshotLine) : Prop := {
  sh_account : parseUUID scan_uuid (AccountID input) = Some (LnAccountID line);
  sh_instrument : parseUUID scan_uuid (InstrumentID input) = Some (LnInstrumentID line);
  sh_quantity : same_decimal (Quantity input) (LnQuantity line);
  sh_cost : both same_decimal (TotalCostBasis input) (LnTotalCostBasis line);
  sh_duration : optional_shown (ModifiedDurationYears input) (LnModifiedDurationYears line);
  sh_convexity : optional_shown (ConvexityYearsSquared input) (LnConvexityYearsSquared line);
}.

Section shown.
Context (scan_uuid : string -> option string) (scan_numeric : string -> option Numeric) (read_numeric : Z -> Numeric).
Context (scan_exact : forall v n, decimal_pattern false v = true -> scan_numeric v = Some n ->
  exists q, parse_rat v = Some q /\ (numeric_value n == q)%Q).
Context (read_exact : forall z, (numeric_value (read_numeric z) == z # Z.to_pos scale18)%Q).

Lemma stored_required text n z :
  parseDecimal scan_numeric text false = Ok n -> (n ≫= fun n => numeric_column (numeric_value n)) = Some z -> stored_as text z.
Proof.
  intros Hp Hz. destruct n as [n|]; [|done]. destruct (parseDecimal_exact _ scan_exact _ _ _ Hp) as (z' & Hs & Hz').
  cbn in Hz. rewrite Hz' in Hz. by injection Hz as <-.
Qed.

Lemma parseDecimal_none text opt : parseDecimal scan_numeric text opt = Ok None -> opt = true /\ trim_space text = "".
Proof.
  unfold parseDecimal. case_bool_decide as Hb; [by destruct opt|]. destruct (negb _); [done|].
  destruct (cut_char _ _) as [i f]. destruct (18 <? _)%nat; [done|]. destruct ((20 <? _)%nat || _); [done|].
  by destruct (scan_numeric _).
Qed.

Lemma stored_optional text n z :
  parseDecimal scan_numeric text true = Ok n -> nullable_column n = Some z -> optional_stored text z.
Proof.
  intros Hp Hz. destruct n as [n|]; cbn in Hz.
  - destruct (parseDecimal_exact _ scan_exact _ _ _ Hp) as (z' & Hs & Hz'). rewrite Hz' in Hz. by injection Hz as <-.
  - injection Hz as <-. by apply parseDecimal_none in Hp as [_ ?].
Qed.

Lemma row_stored pid sid input line row :
  prepared_from scan_uuid scan_numeric input line -> line_row pid sid line = Some row -> line_stored scan_uuid input row.
Proof.
  intros (Ha & Hi & type & Hn) (Hrp & Hrs & Hra & Hri & Hq & Hc & Hd & Hx)%line_row_snapshot.
  unfold line_numbers in Hn. destruct (parseDecimal scan_numeric (Quantity input) false) as [q|] eqn:Eq; [|done].
  cbn [res_bind] in Hn. destruct (match TotalCostBasis input with Some _ => _ | None => _ end) as [cb|] eqn:Ec; [|done].
  cbn [res_bind] in Hn. destruct (parseDecimal scan_numeric (ModifiedDurationYears input) true) as [du|] eqn:Ed; [|done].
  cbn [res_bind] in Hn. destruct (parseDecimal scan_numeric (ConvexityYearsSquared input) true) as [cv|] eqn:Ex; [|done].
  cbn [res_bind] in Hn. assert (Hall : (q, cb, du, cv) = (quantity line, costBasis line, duration line, convexity line)).
  { case_bool_decide; [destruct (_ || _)|destruct (_ || _)]; congruence. }
  injection Hall as -> -> -> ->. split; [congruence..| | |by eapply stored_optional|by eapply stored_optional].
  - by eapply stored_required.
  - destruct (TotalCostBasis input) as [text|]; [|injection Ec as Ec; rewrite <- Ec in Hc; cbn in Hc; by injection Hc as <-].
    destruct (costBasis line) as [n|]; cbn in Hc.
    + destruct (numeric_column (numeric_value n)) as [z|] eqn:Ez; [|done]. injection Hc as <-. exact (stored_required _ (Some n) _ Ec Ez).
    + by apply parseDecimal_none in Ec as [? _].
Qed.

Lemma stored_shown input id row a i :
  line_stored scan_uuid input row -> line_shown scan_uuid input (line_answer read_numeric ((id, row), a, i)).
Proof.
  intros [Ha Hi Hq Hc Hd Hx]. split; cbn; [done..|by apply decimal_read_back| | |].
  - destruct (TotalCostBasis input), (ln_cost row); try done. by apply decimal_read_back.
  - destruct (ln_duration row); [right; by apply decimal_read_back|by left].
  - destruct (ln_convexity row); [right; by apply decimal_read_back|by left].
Qed.
End shown.

(** ** The joined rows of a snapshot *)

Definition join_of (t : portfolio_tables) (kv : string * LineRow) (j : joined) : Prop :=
  fst (fst j) = kv /\ accounts t !! ln_account (snd kv) = Some (snd (fst j)) /\
  instruments t !! ln_instrument (snd kv) = Some (snd j).

Lemma join_total t k l : RowInv t -> snapshot_lines t !! k = Some l -> exists j, join_line t (k, l) = Some j /\ join_of t (k, l) j.
Proof.
  intros I Hl. destruct (ri_line _ I _ _ Hl) as (_ & Ha & i & Hi & _). unfold join_line, join_of. cbn [snd fst].
  destruct (accounts t !! ln_account l) as [a|]; [|discriminate Ha]. rewrite Hi. cbn. by eexists (_, _, _).
Qed.

Lemma join_lines t ls : RowInv t -> Forall (fun kv => snapshot_lines t !! fst kv = Some (snd kv)) ls ->
  Forall2 (join_of t) ls (omap (join_line t) ls).
Proof.
  intros I. induction 1 as [|[k l] rest Hl Hrest IH]; [constructor|].
  cbn [fst snd] in Hl. destruct (join_total _ _ _ I Hl) as (j & Hj & Hjo). change (omap ?f (?x :: ?r)) with
    (match f x with Some y => y :: omap f r | None => omap f r end). rewrite Hj. by constructor.
Qed.

Lemma snapshot_rows_lines collate t sid ls : RowInv t -> lines_of t sid ≡ₚ ls ->
  exists js, snapshot_rows collate sid t ≡ₚ js /\ Forall2 (join_of t) ls js.
Proof.
  intros I Hls. exists (omap (join_line t) ls). split.
  - unfold snapshot_rows. rewrite insertion_sort_perm. by rewrite <- Hls.
  - apply join_lines; [done|]. apply Forall_forall. intros [k l] Hin. rewrite <- Hls in Hin. by apply lines_of_snapshot in Hin as [? _].
Qed.

(** ** Reading a snapshot *)

(** Two answers for one line; the account's name and the instrument's status
    are those of the moment. *)
Definition same_line (l l' : SnapshotLine) : Prop :=
  LnID l = LnID l' /\ LnAccountID l = LnAccountID l' /\ LnInstrumentID l = LnInstrumentID l' /\
  LnQuantity l = LnQuantity l' /\ LnTotalCostBasis l = LnTotalCostBasis l' /\
  LnModifiedDurationYears l = LnModifiedDurationYears l' /\ LnConvexityYearsSquared l = LnConvexityYearsSquared l' /\
  LnCanonicalSymbol l = LnCanonicalSymbol l' /\ LnInstrumentType l = LnInstrumentType l' /\ LnNativeUnit l = LnNativeUnit l'.

(** Two answers for one snapshot, up to the order of the lines. *)
Definition same_snapshot (s s' : Snapshot) : Prop :=
  SnID s = SnID s' /\ SnPortfolioID s = SnPortfolioID s' /\ SnCapturedAt s = SnCapturedAt s' /\
  SnSupersedesSnapshotID s = SnSupersedesSnapshotID s' /\ SnCreatedAt s = SnCreatedAt s' /\
  exists lines, SnLines s' ≡ₚ lines /\ Forall2 same_line (SnLines s) lines.

Section reading.
Context (Queries : bool) (scan_uuid : string -> option string) (read_numeric : Z -> Numeric)
  (collate : string -> string -> comparison).

Abbreviation get := (GetSnapshot Queries scan_uuid read_numeric collate).

Definition snapshot_at (t : portfolio_tables) (sid : string) (row : PortfolioSnapshot) : Snapshot :=
  mkSnapshot sid (sn_portfolio row) (sn_captured row) (default "" (sn_supersedes row)) (sn_created row)
    (line_answer read_numeric <$> snapshot_rows collate sid t).

Lemma get_inv id fs t snap t1 : run (get id) fs t = (Ok snap, t1) ->
  Queries = true /\ exists sid row, parseUUID scan_uuid id = Some sid /\ snapshots t !! sid = Some row /\ snap = snapshot_at t sid row.
Proof.
  intros Hrun. run_ok_wp Hrun. unfold GetSnapshot. destruct Queries; cbn [negb]; [|by apply wp_throw].
  wp_step. unfold or_invalid. destruct (parseUUID scan_uuid id) as [sid|] eqn:Ep; [|by apply wp_throw]. wp_step. wp_step.
  unfold found, GetPortfolioSnapshot, pool_query. wp_step. wp_step; [done| |done]. injection E as E <-.
  unfold row_of in E. destruct (snapshots t !! sid) as [row|] eqn:Er; [|done]. injection E as <-.
  unfold snapshot, ListPortfolioSnapshotLines, pool_query. wp_step. wp_step. wp_step; [done| |done]. injection E as <- <-.
  wp_step. intros. split; [done|]. exists sid, row. simplify_eq. done.
Qed.

Lemma get_run id t sid row : Queries = true -> parseUUID scan_uuid id = Some sid -> snapshots t !! sid = Some row ->
  run (get id) [] t = (Ok (snapshot_at t sid row), t).
Proof.
  intros HQ Hp Hr. unfold GetSnapshot, run. rewrite HQ, Hp. cbn [negb or_invalid].
  unfold bind, ret, found, map_err, GetPortfolioSnapshot, pool_query, pool_stmt, guarded, next_fault. cbn [faults committed].
  unfold row_of. by rewrite Hr.
Qed.

Lemma same_joined t t' ls js js' : kept t t' ->
  Forall2 (join_of t) ls js -> Forall2 (join_of t') ls js' ->
  Forall2 same_line (line_answer read_numeric <$> js) (line_answer read_numeric <$> js').
Proof.
  intros K H. revert js'. induction H as [|[k l] j ls js Hj Hjs IH]; intros js' H';
    inversion H' as [|? j' ? ? Hj' Hrest]; subst; [constructor|].
  constructor; [|by apply IH]. destruct j as [[kv a] i], j' as [[kv' a'] i'], Hj as (Hk & _ & Hi), Hj' as (Hk' & _ & Hi').
  cbn in *. subst kv kv'.
  destruct (kp_instrument _ _ K _ _ Hi) as (r & Hr & Hs & Ht & Hn & _). rewrite Hr in Hi'. injection Hi' as ->.
  unfold same_line. cbn. split_and!; done.
Qed.

Lemma same_rows t t' sid row : RowInv t -> RowInv t' -> kept t t' -> same_lines t t' sid ->
  same_snapshot (snapshot_at t sid row) (snapshot_at t' sid row).
Proof.
  intros I I' K Hl. unfold same_snapshot. cbn. split_and!; [done..|].
  destruct (snapshot_rows_lines collate t sid _ I (reflexivity _)) as (js & Hp & Hj).
  destruct (snapshot_rows_lines collate t' sid _ I' (same_lines_perm _ _ _ Hl)) as (js' & Hp' & Hj').
  pose proof (same_joined _ _ _ _ _ K Hj Hj') as Hsame. apply (fmap_Permutation (line_answer read_numeric)) in Hp, Hp'.
  destruct (Permutation_Forall2 (Permutation_sym Hp) Hsame) as (ls & Hls & Hall).
  exists ls. split; [|exact Hall]. by rewrite Hp', Hls.
Qed.
End reading.

Section theorems.
Context (Queries Beginner : bool) (scan_uuid : string -> option string)
  (scan_numeric : string -> option Numeric) (read_numeric : Z -> Numeric)
  (jsonb_in : string -> option json) (jsonb_out : json -> string) (text_ok : string -> bool)
  (collate : string -> string -> comparison) (account_used : string -> bool)
  (format_float : SpecFloat.spec_float -> string) (float_ok : string -> bool)
  (shuffle : list (string * string) -> list (string * string)).

Abbreviation step := (service_step Queries Beginner scan_uuid scan_numeric read_numeric jsonb_in jsonb_out text_ok
  collate account_used format_float float_ok shuffle).
Abbreviation create := (CreateSnapshot Queries Beginner scan_uuid scan_numeric read_numeric collate).
Abbreviation get := (GetSnapshot Queries scan_uuid read_numeric collate).

(** C30: Whatever fails, every history of calls keeps the tables well formed
    (currencies, names, statuses and units within their domains, accounts,
    lines and identifiers referring to rows of the same portfolio, one line per
    account and instrument, bond attributes exactly on bonds, no cycle of
    superseding snapshots) with no snapshot without lines, and loses nothing of
    an instrument's identity and identifiers, of a snapshot or of a line. *)
Theorem portfolio_invariant t t' : SInv t -> rtc step t t' -> SInv t' /\ kept t t'.
Proof.
  intros HS Hrtc. split; [|exact (proj2 (steps_evolve _ _ _ _ _ _ _ _ _ _ _ _ _ _ _ Hrtc (proj1 HS)))].
  induction Hrtc as [|t1 t2 t3 H1 H2 IH]; [done|]. apply IH. by eapply step_sinv.
Qed.

(** C29: A snapshot that was read reads the same after any history of calls,
    failed ones included: the same identity and times, the same lines with the
    same numbers, up to their order and to the names and statuses of accounts
    and instruments, which are not part of it. *)
Theorem snapshot_sealed id fs t t1 snap t' :
  RowInv t -> run (get id) fs t = (Ok snap, t1) -> rtc step t t' ->
  exists snap', run (get id) [] t' = (Ok snap', t') /\ same_snapshot snap snap'.
Proof.
  intros I Hget Hrtc. destruct (get_inv _ _ _ _ _ _ _ _ _ Hget) as (HQ & sid & row & Hp & Hr & ->).
  destruct (steps_evolve _ _ _ _ _ _ _ _ _ _ _ _ _ _ _ Hrtc I) as [I' K].
  exists (snapshot_at read_numeric collate t' sid row). split.
  - apply get_run; [done..|]. by apply (kp_snapshot _ _ K).
  - apply same_rows; [done..|]. by eapply steps_sealed.
Qed.

Section exact.
Context (scan_exact : forall v n, decimal_pattern false v = true -> scan_numeric v = Some n ->
  exists q, parse_rat v = Some q /\ (numeric_value n == q)%Q).
Context (read_exact : forall z, (numeric_value (read_numeric z) == z # Z.to_pos scale18)%Q).

Lemma shown_rows t gen inputs rows : forall n js, Forall2 (line_stored scan_uuid) inputs rows ->
  Forall2 (join_of t) (number_lines gen n rows) js ->
  Forall2 (line_shown scan_uuid) inputs (line_answer read_numeric <$> js).
Proof.
  intros n js H. revert n js. induction H as [|input row inputs rows Hs Hrows IH]; intros n js Hj;
    inversion Hj as [|? j ? ? Hjo Hrest]; subst; [constructor|].
  destruct j as [[kv a] i]. destruct Hjo as [Hkv _]. cbn in Hkv. subst kv. constructor; [by apply stored_shown|by eapply IH].
Qed.

(** C28: [CreateSnapshot] reports an error and leaves the tables as they were,
    or stores one snapshot of the portfolio and a row for each line of the
    request with exactly the request's numbers, next to what was there; an
    answer then lists the request's lines, each with its numbers.  Whatever
    fails, and even if what fails is reading the answer. *)
Theorem create_snapshot_exact gen now portfolioID request fs t r t' :
  RowInv t -> run (create gen now portfolioID request) fs t = (r, t') ->
  (t' = t /\ is_ok r = false) \/
  exists pid supersedes rows,
    parseUUID scan_uuid portfolioID = Some pid /\
    supersedes_ok scan_uuid t pid (SupersedesSnapshotID request) supersedes /\
    Forall2 (line_stored scan_uuid) (Lines request) rows /\
    fresh_rows (number_lines gen 0 rows) t /\ snapshots t !! gen 0%nat = None /\
    t' = add_rows (number_lines gen 0 rows) (set_snapshots t
      (<[gen 0%nat := mkPortfolioSnapshot pid (pg_time (CapturedAt request)) supersedes now]> (snapshots t))) /\
    forall snap, r = Ok snap ->
      SnID snap = gen 0%nat /\ SnPortfolioID snap = pid /\ SnCapturedAt snap = pg_time (CapturedAt request) /\
      SnSupersedesSnapshotID snap = default "" supersedes /\ SnCreatedAt snap = now /\
      exists lines, SnLines snap ≡ₚ lines /\ Forall2 (line_shown scan_uuid) (Lines request) lines.
Proof.
  intros I Hrun. pose proof (within_run _ _ _ _ _ _ (within_create _ _ _ _ _ _ gen now portfolioID request) Hrun I) as [I' _].
  apply create_effect in Hrun as [H|(_ & pid & s & rows & Hpid & Hc & Hsnap)]; [by left|right].
  destruct (cr_rows _ _ _ _ _ _ _ _ _ _ Hc) as (prepared & Hprep & Hrows).
  assert (Hst : Forall2 (line_stored scan_uuid) (Lines request) rows).
  { clear -Hprep Hrows scan_exact. revert rows Hrows. induction Hprep as [|input line ? ? Hp ? IH]; intros rows Hrows;
      inversion Hrows; subst; constructor; [by eapply row_stored|by apply IH]. }
  exists pid, s, rows. split_and!; [done|apply Hc|done|apply Hc|apply Hc|apply Hc|]. intros snap Hr.
  rewrite (Hsnap _ Hr). cbn. split_and!; [done..|].
  destruct (snapshot_rows_lines collate t' (gen 0%nat) _ I' (created_of _ _ _ _ _ _ _ _ _ _ Hc I)) as (js & Hp & Hj).
  exists (line_answer read_numeric <$> js). split; [by rewrite Hp|by eapply shown_rows].
Qed.
End exact.
End theorems.

(** ** A history *)

Module demo.
Definition scan_uuid (s : string) : option string := if bool_decide (s = "") then None else Some s.
Definition scan_numeric (v : string) : option Numeric :=
  q ← parse_rat v;
  if Qeq_bool (round18 q # Z.to_pos scale18) q then Some (mkNumeric (round18 q) (-18)) else None.
Definition read_numeric (z : Z) : Numeric := mkNumeric z (-18).
Definition json_text (j : json) : string := match j with JNull => "null" | _ => "{}" end.
Definition yes {A} (_ : A) : bool := true.
Definition no {A} (_ : A) : bool := false.

Definition captured : time := 1700000000000000000.
Definition bond : CreateInstrumentRequest :=
  mkCreateInstrumentRequest " TR10Y " "fixed_rate_bond" "try" [mkExternalIdentifier "isin" "TRT0"] "".
Definition coin : CreateInstrumentRequest := mkCreateInstrumentRequest "BTC" "spot_crypto" "btc" [] "active".
Definition book : CreatePortfolioRequest := mkCreatePortfolioRequest "Main" "TRY" None.
Definition desk : CreateAccountRequest := mkCreateAccountRequest "Desk" None.
Definition desk' : CreateAccountRequest := mkCreateAccountRequest "Desk 2" None.
Definition holdings : CreateSnapshotRequest :=
  mkCreateSnapshotRequest captured ""
    [mkSnapshotLineInput "a1" "i2" " 1.50" (Some "-3") "" "";
     mkSnapshotLineInput "a1" "i1" "100" None "7.25" "0"].
Definition line_ids (n : nat) : string := match n with O => "s1" | 1%nat => "l1" | _ => "l2" end.

Definition t0 : portfolio_tables := mkPortfolioTables ∅ ∅ ∅ ∅ ∅ ∅.
Definition create_instrument id request :=
  CreateInstrument true true parse_json json_text yes string_cmp (fun _ => "0") (fun l => l) id captured request.
Definition create_snapshot := CreateSnapshot true true scan_uuid scan_numeric read_numeric string_cmp line_ids captured "p1" holdings.
Definition t1 := snd (run (create_instrument "i1" bond) [] t0).
Definition t2 := snd (run (create_instrument "i2" coin) [] t1).
Definition t3 := snd (run (CreatePortfolio true parse_json json_text yes (fun _ => "0") yes "p1" captured book) [] t2).
Definition t4 := snd (run (CreateAccount true scan_uuid parse_json json_text yes (fun _ => "0") yes "a1" captured "p1" desk) [] t3).
Definition t5 := snd (run create_snapshot [] t4).
Definition t6 := snd (run (UpdateAccount true scan_uuid parse_json json_text yes (fun _ => "0") yes captured "a1" desk') [] t5).
Definition t7 := snd (run (DeletePortfolio true scan_uuid "p1") [] t6).
Abbreviation step := (service_step true true scan_uuid scan_numeric read_numeric parse_json json_text yes
  string_cmp no (fun _ => "0") yes (fun l => l)).
Abbreviation get := (GetSnapshot true scan_uuid read_numeric string_cmp).

Lemma scan_exact v n : decimal_pattern false v = true -> scan_numeric v = Some n ->
  exists q, parse_rat v = Some q /\ (numeric_value n == q)%Q.
Proof.
  intros _ H. unfold scan_numeric in H. destruct (parse_rat v) as [q|]; [|done]. cbn in H.
  destruct (Qeq_bool _ _) eqn:He; [|done]. injection H as <-. exists q. split; [done|].
  exact (Qeq_bool_eq _ _ He).
Qed.

Lemma read_exact z : (numeric_value (read_numeric z) == z # Z.to_pos scale18)%Q.
Proof. reflexivity. Qed.

(** One call of the history. *)
Ltac call k := match k with
  | 0%nat => exact (sp_instrument _ _ _ _ _ _ _ _ _ _ _ _ _ _ _ _ _ _ _ _ (surjective_pairing _))
  | 1%nat => exact (sp_portfolio _ _ _ _ _ _ _ _ _ _ _ _ _ _ _ _ _ _ _ _ (surjective_pairing _))
  | 2%nat => exact (sp_account _ _ _ _ _ _ _ _ _ _ _ _ _ _ _ _ _ _ _ _ _ (surjective_pairing _))
  end.

Lemma first_steps : rtc step t0 t4.
Proof.
  apply (rtc_l _ _ t1); [call 0%nat|]. apply (rtc_l _ _ t2); [call 0%nat|]. apply (rtc_l _ _ t3); [call 1%nat|].
  apply rtc_once. call 2%nat.
Qed.

Lemma snapshot_step : step t4 t5.
Proof. exact (sp_snapshot _ _ _ _ _ _ _ _ _ _ _ _ _ _ _ _ _ _ _ _ _ (surjective_pairing _)). Qed.

Lemma last_steps : rtc step t5 t7.
Proof.
  apply (rtc_l _ _ t6). { exact (sp_update_account _ _ _ _ _ _ _ _ _ _ _ _ _ _ _ _ _ _ _ _ (surjective_pairing _)). }
  apply rtc_once. exact (sp_delete _ _ _ _ _ _ _ _ _ _ _ _ _ _ _ _ _ _ (surjective_pairing _)).
Qed.

Lemma start : SInv t0.
Proof.
  split; [|intros sid s H; cbn in H; by rewrite lookup_empty in H].
  split; cbn; intros; rewrite ?lookup_empty in *; try done. by exists (fun _ => 0%nat).
Qed.

Lemma t4_rows : RowInv t4.
Proof. exact (proj1 (steps_evolve _ _ _ _ _ _ _ _ _ _ _ _ _ _ _ first_steps (proj1 start))). Qed.

Lemma t5_rows : RowInv t5.
Proof. exact (proj1 (step_evolves _ _ _ _ _ _ _ _ _ _ _ _ _ _ _ snapshot_step t4_rows)). Qed.
End demo.
Import demo.

(** An account is renamed and deleting the portfolio is refused between two
    reads of the snapshot. *)
Lemma read_before : is_ok (fst (run (get "s1") [] t5)) = true /\ fst (run (get "s1") [] t5) <> fst (run (get "s1") [] t7).
Proof. vm_compute. split; [done|]. intros H. discriminate H. Qed.

Lemma created_ok : is_ok (fst (run create_snapshot [] t4)) = true.
Proof. by vm_compute. Qed.

Lemma ok_value {A S} (p : res A * S) : is_ok (fst p) = true -> exists a, p = (Ok a, snd p).
Proof. destruct p as [[a|] s]; [|done]. by exists a. Qed.

Lemma portfolio_invariant_witness : SInv t4 /\ rtc step t0 t4 /\ kept t0 t4.
Proof.
  split; [|split].
  - exact (proj1 (portfolio_invariant _ _ _ _ _ _ _ _ _ _ _ _ _ _ _ start first_steps)).
  - exact first_steps.
  - exact (proj2 (portfolio_invariant _ _ _ _ _ _ _ _ _ _ _ _ _ _ _ start first_steps)).
Defined.

Lemma snapshot_sealed_witness :
  exists snap snap', run (get "s1") [] t5 = (Ok snap, snd (run (get "s1") [] t5)) /\
    run (get "s1") [] t7 = (Ok snap', t7) /\ same_snapshot snap snap' /\ snap <> snap'.
Proof.
  destruct (ok_value _ (proj1 read_before)) as [snap Hsnap].
  destruct (snapshot_sealed _ _ _ _ _ _ _ _ _ _ _ _ _ "s1" [] t5 _ snap t7 t5_rows Hsnap last_steps) as (snap' & Hget & Hsame).
  exists snap, snap'. split; [exact Hsnap|]. split; [exact Hget|]. split; [exact Hsame|].
  intros Heq. apply (proj2 read_before). rewrite Hget, Hsnap. cbn [fst]. by rewrite Heq.
Defined.

Lemma create_snapshot_exact_witness :
  exists snap lines, run create_snapshot [] t4 = (Ok snap, t5) /\ SnLines snap ≡ₚ lines /\
    Forall2 (line_shown scan_uuid) (Lines holdings) lines.
Proof.
  destruct (ok_value _ created_ok) as [snap Hsnap].
  destruct (create_snapshot_exact _ _ _ _ _ _ scan_exact read_exact _ _ _ _ _ _ _ _ t4_rows Hsnap)
    as [[_ Hbad]|(pid & s & rows & _ & _ & _ & _ & _ & _ & Hans)]; [discriminate Hbad|].
  destruct (Hans snap eq_refl) as (_ & _ & _ & _ & _ & lines & Hperm & Hall). exists snap, lines.
  split; [exact Hsnap|]. split; [exact Hperm|exact Hall].
Defined.
