(* ===== verification/ImportServiceProofs.v ===== *)
(** Properties of the two-step import: a commit stores exactly the file it was
    given, spends its token once, is repeatable under its key, and leaves the
    tables alone when it fails, whatever fails. *)

From S2P Require Import Prelude GoString Digits GoTime Sha256 Decimal Tables Db World Archive.
From S2P Require Import JsonTree TimeText ImportParser ImportService ArchiveProofs ImportProofs.
From Stdlib Require Import Ascii QArith.
#[local] Open Scope Z_scope.
Import Imports ImportService.

Lemma triple_or_invalid {W A} (holds : W -> string -> string -> Prop) c t w (m : dbm (import_tables * W) A) P :
  triple holds c t w m P -> triple holds c t w (or_invalid m) P.
Proof.
  intros Hm fs. unfold or_invalid. apply wp_bind, wp_attempt. specialize (Hm fs). unfold wp in *.
  destruct (m _) as [r d']. cbn in *. destruct Hm as (t' & w' & fs' & -> & Hw & Hr).
  destruct r as [a|e]; by exists t', w', fs'.
Qed.

(** ** Statements *)

Section inserting.
Context {R : Type} (T : import_tables -> gmap string R) (setT : import_tables -> gmap string R -> import_tables)
  (insert1 : string -> R -> import_tables -> res unit * import_tables)
  (HTset : forall s m, T (setT s m) = m)
  (Hsetset : forall s m m', setT (setT s m) m' = setT s m') (Hsetsame : forall s, setT s (T s) = s)
  (Hinsert : forall id r s u s', insert1 id r s = (Ok u, s') ->
     T s !! id = None /\ s' = setT s (<[id := r]> (T s))).

(** A multi-row insert adds its rows under fresh, distinct keys. *)
Lemma insert_all_spec rows s u s' :
  insert_all insert1 rows s = (Ok u, s') ->
  s' = setT s (list_to_map rows ∪ T s) /\ NoDup rows.*1 /\
  Forall (fun id => T s !! id = None) rows.*1.
Proof.
  induction rows as [|[id r] rows IH] in s |- *; cbn.
  { intros [= _ <-]. rewrite map_empty_union, Hsetsame. split_and!; constructor. }
  destruct (insert1 id r s) as [[u1|e] s1] eqn:E; [|done]. intros H.
  apply Hinsert in E as [Hnone ->]. apply IH in H as (-> & Hnd & Hfresh).
  rewrite HTset in *. rewrite Hsetset.
  assert (Hnotin : id ∉ rows.*1).
  { intros Hin. rewrite Forall_forall in Hfresh. specialize (Hfresh id Hin).
    by rewrite lookup_insert_eq in Hfresh. }
  assert (Hmap : (list_to_map rows : gmap string R) !! id = None) by by apply not_elem_of_list_to_map_1.
  split_and!.
  - f_equal. by rewrite <- insert_union_r, insert_union_l by done.
  - by constructor.
  - constructor; [done|]. eapply Forall_impl; [exact Hfresh|]. cbn. intros k Hk.
    by apply lookup_insert_None in Hk as [? _].
Qed.

Lemma copy_from_spec ids rows s u s' :
  copy_from insert1 ids rows s = (Ok u, s') ->
  exists ls, Forall2 (fun o l => o = Some l) rows ls /\
    s' = setT s (list_to_map (zip ids ls) ∪ T s) /\ NoDup (zip ids ls).*1 /\
    Forall (fun id => T s !! id = None) (zip ids ls).*1.
Proof.
  unfold copy_from. destruct (mapM id rows) as [ls|] eqn:E; [|done]. intros H.
  apply mapM_Some in E. apply insert_all_spec in H as (-> & Hnd & Hfresh). by exists ls.
Qed.
End inserting.

Lemma insert_line_spec id r s u s' :
  insert_snapshot_line id r s = (Ok u, s') ->
  lines s !! id = None /\ s' = set_lines s (<[id := r]> (lines s)).
Proof.
  unfold insert_snapshot_line. destruct (_ && _) eqn:E; [|done]. intros [= _ <-]. by bool_simp.
Qed.

Lemma insert_revision_spec id r s u s' :
  insert_revision id r s = (Ok u, s') ->
  revisions s !! id = None /\ s' = set_revisions s (<[id := r]> (revisions s)).
Proof.
  unfold insert_revision. destruct (_ && _) eqn:E; [|done]. intros [= _ <-]. by bool_simp.
Qed.

Lemma insert_raw_spec id sha r s a s' :
  insert_raw id sha r s = (Ok a, s') ->
  a = id /\ raw_objects s !! sha = None /\ s' = set_raw_objects s (<[sha := r]> (raw_objects s)).
Proof.
  unfold insert_raw. case_bool_decide as Hs; [done|]. destruct (_ && _); [|done]. intros [= <- <-].
  split; [done|]. split; [|done]. by apply eq_None_not_Some.
Qed.

Lemma insert_snapshot_spec id target captured s a s' :
  insert_snapshot id target captured s = (Ok a, s') ->
  a = id /\ target ∈ portfolios s /\ snapshots s !! id = None /\
  s' = set_snapshots s (<[id := (target, captured)]> (snapshots s)).
Proof. unfold insert_snapshot. destruct (_ && _) eqn:E; [|done]. intros [= <- <-]. by bool_simp. Qed.

Lemma insert_result_spec key r s a s' :
  insert_result key r s = (Ok a, s') ->
  results s !! key = None /\ s' = set_results s (<[key := r]> (results s)).
Proof.
  unfold insert_result. case_bool_decide as Hs; [done|]. destruct (_ && _); [|done]. intros [= <- <-].
  split; [|done]. by apply eq_None_not_Some.
Qed.

Lemma insert_result_err key r s e s' :
  insert_result key r s = (Err e, s') -> is_Some (results s !! key) \/ e = EDb.
Proof.
  unfold insert_result. case_bool_decide; [by left|]. destruct (_ && _); [done|]. intros [= <- _]. by right.
Qed.

Lemma map_res_Forall2 {A B} (f : A -> res B) l ys :
  map_res f l = Ok ys -> Forall2 (fun x y => f x = Ok y) l ys.
Proof.
  induction l as [|x l IH] in ys |- *; cbn; [intros [= <-]; constructor|].
  destruct (f x) as [y|] eqn:E; cbn; [|done]. destruct (map_res f l) as [zs|]; cbn; [|done].
  intros [= <-]. constructor; auto.
Qed.

(** ** Exact values *)

Definition stored_decimal (text : string) (z : Z) : Prop :=
  exists q, parse_rat text = Some q /\ (q == z # Z.to_pos scale18)%Q.

Definition stored_optional (text : string) (z : option Z) : Prop :=
  text = "" /\ z = None \/ exists z', z = Some z' /\ stored_decimal text z'.

Section numeric.
Context (scan_numeric : string -> option Q)
  (Hscan : forall v, decimalPattern v = true -> scan_numeric v = parse_rat v).

Lemma validDecimal_pattern v : validDecimal v false = true -> decimalPattern v = true.
Proof. unfold validDecimal. case_bool_decide; [done|]. by destruct (decimalPattern v). Qed.

Lemma numeric_column_exact v q z :
  validDecimal v false = true -> scan_numeric v = Some q -> numeric_column q = Some z ->
  stored_decimal v z.
Proof.
  intros Hv Hq Hz. rewrite Hscan in Hq by by apply validDecimal_pattern.
  destruct (decimal_shape_exact v Hv) as (z' & q' & Hq' & He & Hr & _ & _). rewrite Hq in Hq'. injection Hq' as <-.
  exists q. split; [done|]. unfold numeric_column in Hz. rewrite Hr in Hz. destruct (numeric_fits z'); [|done].
  by injection Hz as <-.
Qed.

Lemma parseNumeric_exact v o z :
  validDecimal v false = true -> parseNumeric scan_numeric v false = Ok o ->
  (o ≫= numeric_column) = Some z -> stored_decimal v z.
Proof.
  intros Hv. unfold parseNumeric. rewrite andb_false_r. destruct (scan_numeric v) as [q|] eqn:Hq; [|done].
  intros [= <-]. cbn. by apply numeric_column_exact.
Qed.

Lemma parseNumeric_optional v o z :
  validDecimal v true = true -> parseNumeric scan_numeric v true = Ok o ->
  nullableNumeric o = Some z -> stored_optional v z.
Proof.
  intros Hv. unfold parseNumeric, stored_optional. destruct (decide (v = "")) as [->|Hne].
  { rewrite bool_decide_true by done. intros [= <-] [= <-]. by left. }
  rewrite bool_decide_false by done. destruct (scan_numeric v) as [q|] eqn:Hq; [|done].
  intros [= <-]. cbn. intros Hz. apply fmap_Some in Hz as (z' & Hz & ->). right. exists z'.
  split; [done|]. apply (numeric_column_exact v q); [|done|done].
  unfold validDecimal in *. rewrite bool_decide_false in * by done. done.
Qed.
End numeric.

(** ** The phases of a commit *)

Section commit.
Context {W U : Type} (api : Archive.urlAPI U) (put : option (Archive.Object -> W -> res unit * W))
  (scan_uuid uuid_text : string -> option string) (scan_numeric : string -> option Q)
  (holds : W -> string -> string -> Prop)
  (Hput : forall p, put = Some p -> Archive.ContentStore p holds)
  (gen : nat -> string) (Hgen : forall n, scan_uuid (trim_space (gen n)) = Some (gen n)).

#[local] Tactic Notation "tbind" uconstr(P) := refine (triple_bind _ _ _ _ _ _ P _ _ _).
#[local] Ltac tbind_pure := refine (triple_bind_pure _ _ _ _ _ _ _ _).

Lemma validate_triple c t w kind target parsed :
  triple holds c t w (validateDomainRows scan_uuid uuid_text kind target parsed) (fun _ t' w' => t' = t /\ w' = w).
Proof.
  unfold validateDomainRows.
  tbind (fun (_ : res Z) t' w' => t' = t /\ w' = w).
  - case_bool_decide.
    all: tbind (fun (_ : _) t' w' => t' = t /\ w' = w); [apply triple_of_res; auto|].
    all: intros ids t1 w1 [-> ->]; apply triple_attempt_stmt; [auto|intros ?? [= _ <-]; auto|auto].
  - intros count t1 w1 [-> ->]. destruct (none_invalid count); [apply triple_ret; auto|apply triple_throw].
Qed.

(** The file is in the archive before its row is in the tables. *)
Definition registered (req : CommitRequest) (t : import_tables) (rawID : string) (t' : import_tables)
    (w' : W) : Prop :=
  t' = set_raw_objects t (raw_objects t') /\
  (exists ro, raw_objects t' !! digest (CmBody req) = Some ro /\ raw_id ro = rawID) /\
  (forall k ro, raw_objects t !! k = Some ro -> raw_objects t' !! k = Some ro) /\
  holds w' (Archive.ObjectKey (digest (CmBody req))) (CmBody req).

Lemma set_raw_objects_same t : set_raw_objects t (raw_objects t) = t.
Proof. by destruct t. Qed.

Lemma register_triple c t w now req p :
  put = Some p -> triple holds c t w (register_raw api gen now req p) (registered req t).
Proof.
  intros Hp. pose proof (Hput p Hp) as Hstore. unfold register_raw.
  tbind (fun ref t' w' => t' = t /\ Archive.RefContentSHA256 ref = digest (CmBody req) /\
    holds w' (Archive.ObjectKey (digest (CmBody req))) (CmBody req)).
  { apply triple_wrap, triple_archive; unfold Archive.ArchivePayload.
    - intros r w'. destruct (p _ w) as [[u|e] w1] eqn:E; intros [= _ <-] key body Hh;
        by eapply Archive.put_keeps.
    - intros ref w'. destruct (p _ w) as [[[]|e] w1] eqn:E; [|done]. intros [= <- <-].
      apply Archive.put_holds in E. split; [done|]. by split. }
  intros ref t1 w1 (-> & -> & Hh).
  tbind (fun r t' w' => w' = w1 /\ match r with
    | Ok id => registered req t id t' w'
    | Err e => t' = t
    end).
  { apply triple_attempt_stmt; [done| |done]. intros a t' E. split; [done|].
    apply insert_raw_spec in E as (-> & Hnone & ->). split; [done|].
    cbn [registered raw_objects set_raw_objects]. split; [|split; [|done]].
    - rewrite lookup_insert_eq. by eexists.
    - intros k ro Hk. rewrite lookup_insert_ne; [done|]. intros <-. congruence. }
  intros r t2 w2 [-> Hr]. apply triple_wrap. destruct r as [id|e]; [apply triple_ret; auto|]. subst t2.
  destruct (errors_is e ENoRows); [|apply triple_throw]. apply triple_stmt.
  unfold select_raw. intros id t' [= Hid <-].
  destruct (raw_objects t !! _) as [ro|] eqn:Ero; [|done]. injection Hid as <-.
  split; [by rewrite set_raw_objects_same|]. split; [by eexists|]. done.
Qed.

(** *** Positions *)

Definition line_of (portfolio snapshot : string) (row : PositionRow) (l : SnapshotLine) : Prop :=
  copy_row scan_uuid scan_numeric portfolio snapshot row = Ok (Some l).

(** The snapshot and its lines, under keys the tables did not have. *)
Definition positions_stored (target : string) (captured : time) (rows : list PositionRow)
    (t t' : import_tables) : Prop :=
  exists pid sid ls, let ids := gen <$> seq 2 (length rows) in
    uuid_text target = Some pid /\ scan_uuid (trim_space target) = Some sid /\ pid ∈ portfolios t /\
    snapshots t !! gen 0%nat = None /\
    Forall2 (line_of sid (gen 0%nat)) rows ls /\
    Forall (fun id => lines t !! id = None) ids /\ NoDup ids /\
    t' = set_lines (set_snapshots t (<[gen 0%nat := (pid, pg_time captured)]> (snapshots t)))
           (list_to_map (zip ids ls) ∪ lines t).

Lemma Forall2_compose {A B C} (P : A -> B -> Prop) (Q : B -> C -> Prop) (R : A -> C -> Prop) l1 l2 l3 :
  (forall a b c, P a b -> Q b c -> R a c) -> Forall2 P l1 l2 -> Forall2 Q l2 l3 -> Forall2 R l1 l3.
Proof.
  intros HPQ H. induction H in l3 |- *; inversion 1; subst; [constructor|].
  constructor; [by eapply HPQ|auto].
Qed.

Lemma fst_zip_gen {B} n (ls : list B) : length ls = n -> (zip (gen <$> seq 2 n) ls).*1 = gen <$> seq 2 n.
Proof. intros <-. rewrite fst_zip; [done|]. by rewrite length_fmap, length_seq. Qed.

Lemma positions_triple c t w target captured parsed hash :
  triple holds c t w
    (commitPositions scan_uuid uuid_text scan_numeric gen target captured parsed hash)
    (fun _ t' w' => w' = w /\ positions_stored target captured (Positions parsed) t t').
Proof.
  unfold commitPositions.
  tbind (fun id t' w' => w' = w /\ id = gen 0%nat /\ exists pid,
    uuid_text target = Some pid /\ pid ∈ portfolios t /\ snapshots t !! gen 0%nat = None /\
    t' = set_snapshots t (<[gen 0%nat := (pid, pg_time captured)]> (snapshots t))).
  { apply triple_or_invalid, triple_stmt. intros a t'. destruct (uuid_text target) as [pid|]; [|done].
    intros E. apply insert_snapshot_spec in E as (-> & Hin & Hnone & ->). eauto 8. }
  intros snap t1 w1 (-> & -> & pid & Hpid & Hin & Hnone & Ht1).
  tbind_pure. intros sid Hsid. tbind_pure. unfold parseUUID at 1. rewrite Hgen. intros snap [= <-].
  tbind_pure. intros rows Hrows. apply map_res_Forall2 in Hrows. subst t1.
  tbind (fun (_ : unit) t' w' => w' = w /\ positions_stored target captured (Positions parsed) t t').
  - apply triple_or_invalid, triple_stmt. intros u t' E. split; [done|].
    apply (copy_from_spec lines set_lines) in E as (ls & Hls & -> & Hnd & Hfresh); try done;
      [|by intros []|apply insert_line_spec].
    assert (Hlen : length ls = length rows) by (symmetry; by eapply Forall2_length).
    pose proof (Forall2_length _ _ _ Hrows) as Hlen2.
    rewrite (fst_zip_gen _ ls) in Hnd, Hfresh by done. rewrite <- Hlen2 in Hnd, Hfresh.
    exists pid, sid, ls. unfold parseUUID in Hsid. destruct (scan_uuid (trim_space target)); [|done].
    injection Hsid as ->. rewrite Hlen2 in *. split_and!; try done.
    eapply Forall2_compose; [|exact Hrows|exact Hls]. intros a o l Ha ->. exact Ha.
  - intros u t1 w1 [-> Hst]. apply triple_ret; auto.
Qed.

(** *** Prices *)

Definition revision_of (rawID : string) (row : PriceRow) (r : PriceRevision) : Prop :=
  price_row scan_uuid scan_numeric rawID row = Ok (Some r).

Definition prices_stored (rawID : string) (rows : list PriceRow) (t t' : import_tables) : Prop :=
  exists raw rs, let ids := gen <$> seq 2 (length rows) in
    scan_uuid (trim_space rawID) = Some raw /\ Forall2 (revision_of raw) rows rs /\
    Forall (fun id => revisions t !! id = None) ids /\ NoDup ids /\
    t' = set_revisions t (list_to_map (zip ids rs) ∪ revisions t).

Lemma prices_triple c t w parsed rawID hash :
  triple holds c t w (commitPrices scan_uuid scan_numeric gen parsed rawID hash)
    (fun _ t' w' => w' = w /\ prices_stored rawID (Prices parsed) t t').
Proof.
  unfold commitPrices.
  tbind_pure. intros raw Hraw. tbind_pure. intros rows Hrows. apply map_res_Forall2 in Hrows.
  tbind (fun (_ : unit) t' w' => w' = w /\ prices_stored rawID (Prices parsed) t t').
  - apply triple_or_invalid, triple_stmt. intros u t' E. split; [done|].
    apply (copy_from_spec revisions set_revisions) in E as (rs & Hrs & -> & Hnd & Hfresh); try done;
      [|by intros []|apply insert_revision_spec].
    assert (Hlen : length rs = length rows) by (symmetry; by eapply Forall2_length).
    pose proof (Forall2_length _ _ _ Hrows) as Hlen2.
    rewrite (fst_zip_gen _ rs) in Hnd, Hfresh by done.
    exists raw, rs. unfold parseUUID in Hraw. destruct (scan_uuid (trim_space rawID)); [|done].
    injection Hraw as ->. rewrite Hlen2 in *. split_and!; try done.
    eapply Forall2_compose; [|exact Hrows|exact Hrs]. intros a o l Ha ->. exact Ha.
  - intros u t1 w1 [-> Hst]. apply triple_ret; auto.
Qed.

(** *** The outcome *)

Definition target_of (req : CommitRequest) : string := to_lower (trim_space (CmTargetID req)).
Definition result_key (req : CommitRequest) : string * string := (CmKind req, IdempotencyKey req).
Definition token_digest (req : CommitRequest) : string := sha256_hex (CmToken req).

(** Nothing is written: the stored result is answered again. *)
Definition replayed (req : CommitRequest) (t t' : import_tables) (resp : response) : Prop :=
  t' = t /\ exists row parsed cap, results t !! result_key req = Some row /\
    Parse (CmBody req) (CmKind req) = Ok parsed /\ IsValid parsed = true /\
    (CmKind req = KindPositions -> parseRFC3339 (CmCapturedAt req) = Ok cap) /\
    result_matches row (target_of req) (CmSchemaVersion req) (Imports.ContentSHA256 parsed)
      (capturedAtForKind (CmKind req) cap) (RowCount parsed) = true /\ resp = replay row.

Definition rows_stored (req : CommitRequest) (cap : time) (rawID : string) (parsed : Result)
    (t t' : import_tables) : Prop :=
  if bool_decide (CmKind req = KindPositions)
  then positions_stored (target_of req) cap (Positions parsed) t t'
  else prices_stored rawID (Prices parsed) t t'.

Record stored_result (req : CommitRequest) (cap : time) (parsed : Result) (resp : response)
    (row : ResultRow) : Prop := {
  sr_target : uuid_text (target_of req) = Some (rs_target row);
  sr_captured : rs_captured row = (pg_time <$> capturedAtForKind (CmKind req) cap);
  sr_schema : rs_schema row = CmSchemaVersion req;
  sr_hash : rs_hash row = Imports.ContentSHA256 parsed;
  sr_rows : rs_rows row = RowCount parsed;
  sr_response : rs_response row = resp;
}.

(** The file is archived, its rows stored, the result kept, the token spent. *)
Definition applied (now : nat -> time) (req : CommitRequest) (t t' : import_tables) (w' : W)
    (resp : response) : Prop :=
  exists parsed cap tok rawID t1 t2 row,
    Parse (CmBody req) (CmKind req) = Ok parsed /\ IsValid parsed = true /\
    (CmKind req = KindPositions -> parseRFC3339 (CmCapturedAt req) = Ok cap) /\
    results t !! result_key req = None /\
    tokens t !! token_digest req = Some tok /\ tk_consumed tok = None /\ now 1%nat < tk_expires tok /\
    token_matches tok (CmKind req) (target_of req) (CmSchemaVersion req)
      (Imports.ContentSHA256 parsed) (capturedAtForKind (CmKind req) cap) = true /\
    registered req t rawID t1 w' /\ rows_stored req cap rawID parsed t1 t2 /\
    stored_result req cap parsed resp row /\
    t' = consume_token (token_digest req) (pg_time (now 3%nat))
           (set_results t2 (<[result_key req := row]> (results t2))).

Lemma rows_stored_results req cap rawID parsed t t' :
  rows_stored req cap rawID parsed t t' -> results t' = results t /\ tokens t' = tokens t.
Proof.
  unfold rows_stored. case_bool_decide.
  - by intros (pid & sid & ls & _ & _ & _ & _ & _ & _ & _ & ->).
  - by intros (raw & rs & _ & _ & _ & _ & ->).
Qed.

Lemma registered_results req t rawID t' w' :
  registered req t rawID t' w' -> results t' = results t /\ tokens t' = tokens t.
Proof. by intros (-> & _). Qed.

Lemma newUUID_cases random Q d (k : string -> dbm (import_tables * W) response) :
  (forall e, Q (Err e) d) -> (forall id, wp (k id) Q d) -> wp (bind (of_res (newUUID random)) k) Q d.
Proof.
  intros He Hk. apply wp_bind, wp_of_res. destruct (newUUID random) as [id|e]; auto.
Qed.

Lemma finish_wp random now req cap parsed rawID result c t w fs
    (Q : res response -> db (import_tables * W) -> Prop) :
  results t !! result_key req = None ->
  (forall e t' w' fs', keeps holds w w' -> Q (Err e) (Db (c, w') (t', w') fs')) ->
  (forall resp row t' fs', stored_result req cap parsed resp row ->
     t' = consume_token (token_digest req) (pg_time now)
            (set_results t (<[result_key req := row]> (results t))) ->
     Q (Ok resp) (Db (t', w) (t', w) fs')) ->
  wp (finish_commit uuid_text random now req (target_of req) (token_digest req)
        (capturedAtForKind (CmKind req) cap) parsed rawID result) Q (Db (c, w) (t, w) fs).
Proof.
  intros Hnone He Hok. unfold finish_commit. assert (Hrefl : keeps holds w w) by by intros key body.
  apply newUUID_cases; [auto|]. intros rid.
  set (resp := result_response req (target_of req) rid parsed result). clearbody resp.
  apply wp_bind, (triple_wp holds _ _ _ _ (fun r t' w' => w' = w /\ match r with
    | Ok _ => exists row, stored_result req cap parsed resp row /\
                t' = set_results t (<[result_key req := row]> (results t))
    | Err e => e = EDb
    end)).
  - apply triple_attempt_stmt; [done| |]; intros a t'.
    + destruct (uuid_text rid) as [r1|]; [|done].
      destruct (uuid_text (target_of req)) as [tg|] eqn:Etg; [|done].
      destruct (uuid_text rawID) as [raw|]; [|done]. intros E.
      apply insert_result_spec in E as [_ ->]. split; [done|]. eexists. split; [|reflexivity]. by split.
    + intros E. split; [done|]. revert E.
      destruct (uuid_text rid) as [r1|], (uuid_text (target_of req)) as [tg|], (uuid_text rawID) as [raw|];
        try (intros [= <- _]; done).
      intros E. apply insert_result_err in E as [[? E]|E]; [|done].
      unfold result_key in Hnone. congruence.
  - auto.
  - intros r t' w' fs' _ [-> Hr]. destruct r as [a|e]; cycle 1.
    { subst e. by apply wp_throw, He. }
    destruct Hr as (row & Hrow & ->). apply wp_bind, wp_wrap, wp_stmt; [auto| |done].
    intros fs1 u [t1 w1] [= _ <- <-]. apply wp_bind, wp_wrap, wp_commit; [auto|].
    intros fs2. apply wp_ret. by eapply Hok.
Qed.

Lemma token_ok_inv looked now tok :
  token_ok looked now = Ok tok -> looked = Ok tok /\ tk_consumed tok = None /\ now < tk_expires tok.
Proof.
  unfold token_ok. destruct looked as [r|e]; [|by case_match].
  destruct (_ || _) eqn:E; [done|]. intros [= ->]. bool_simp. split; [done|].
  split; [|by unfold After in *; bool_simp]. by apply eq_None_not_Some.
Qed.

Lemma rows_triple c t w req cap parsed rawID :
  triple holds c t w
    (if bool_decide (CmKind req = KindPositions)
     then commitPositions scan_uuid uuid_text scan_numeric gen (target_of req) cap parsed
            (Imports.ContentSHA256 parsed)
     else commitPrices scan_uuid scan_numeric gen parsed rawID (Imports.ContentSHA256 parsed))
    (fun _ t' w' => w' = w /\ rows_stored req cap rawID parsed t t').
Proof. unfold rows_stored. case_bool_decide; [apply positions_triple|apply prices_triple]. Qed.

Definition outcome (now : nat -> time) (req : CommitRequest) (t : import_tables) (w : W)
    (r : res response) (s : import_tables * W) : Prop :=
  keeps holds w (snd s) /\
  match r with
  | Err _ => fst s = t
  | Ok resp => replayed req t (fst s) resp \/ applied now req t (fst s) (snd s) resp
  end.

(** What follows the lookups. *)
Lemma apply_wp random now req cap parsed tok p t w fs :
  put = Some p -> Parse (CmBody req) (CmKind req) = Ok parsed -> IsValid parsed = true ->
  (CmKind req = KindPositions -> parseRFC3339 (CmCapturedAt req) = Ok cap) ->
  results t !! result_key req = None -> tokens t !! token_digest req = Some tok ->
  tk_consumed tok = None -> now 1%nat < tk_expires tok ->
  token_matches tok (CmKind req) (target_of req) (CmSchemaVersion req)
    (Imports.ContentSHA256 parsed) (capturedAtForKind (CmKind req) cap) = true ->
  wp (let* rawID := register_raw api gen (now 2%nat) req p in
      let* result :=
        if bool_decide (CmKind req = KindPositions)
        then commitPositions scan_uuid uuid_text scan_numeric gen (target_of req) cap parsed
               (Imports.ContentSHA256 parsed)
        else commitPrices scan_uuid scan_numeric gen parsed rawID (Imports.ContentSHA256 parsed) in
      finish_commit uuid_text random (now 3%nat) req (target_of req) (token_digest req)
        (capturedAtForKind (CmKind req) cap) parsed rawID result)
    (fun r d => outcome now req t w r (committed d)) (Db (t, w) (t, w) fs).
Proof.
  intros Hp Hparse Hval Hcap Hres Htok Hcons Hexp Hmatch.
  apply wp_bind, (triple_wp holds _ _ _ _ (registered req t)); [by apply register_triple|done|].
  intros rawID t1 w1 fs1 Hw1 Hreg. destruct (registered_results _ _ _ _ _ Hreg) as [Hr1 Ht1].
  eapply wp_bind, (triple_wp holds); [apply rows_triple| |].
  { intros e t' w' fs' Hw. split; [|done]. intros key body H. auto. }
  intros result t2 w2 fs2 _ [-> Hrows]. destruct (rows_stored_results _ _ _ _ _ _ Hrows) as [Hr2 Ht2].
  apply finish_wp.
  - by rewrite Hr2, Hr1.
  - intros e t' w' fs' Hw. split; [|done]. intros key body H. auto.
  - intros resp row t' fs' Hrow ->. split; [done|]. right.
    exists parsed, cap, tok, rawID, t1, t2, row. done.
Qed.

Lemma commit_outcome (Pool : bool) random now req fs t w r s :
  run (Commit Pool api put scan_uuid uuid_text scan_numeric gen random now req) fs (t, w) = (r, s) ->
  outcome now req t w r s.
Proof.
  assert (Hrefl : keeps holds w w) by by intros key body.
  assert (Hfail : forall e, outcome now req t w (Err e) (t, w)) by by split.
  intros Hrun. run_wp Hrun. unfold Commit. fold (target_of req) (result_key req) (token_digest req).
  destruct (_ || _); [apply wp_throw, Hfail|]. destruct (negb Pool); [apply wp_throw, Hfail|].
  apply wp_bind.
  assert (Hcap : wp (if bool_decide (CmKind req = KindPositions)
     then of_res (request_time (CmCapturedAt req)) else ret (now 0%nat))
    (fun r d => d = Db (t, w) (t, w) fs /\ forall cap, r = Ok cap ->
       CmKind req = KindPositions -> parseRFC3339 (CmCapturedAt req) = Ok cap) (Db (t, w) (t, w) fs)).
  { case_bool_decide; [apply wp_of_res|by apply wp_ret]. split; [done|]. intros cap Hc _. revert Hc.
    unfold request_time. destruct (parseRFC3339 _) as [?|[]]; congruence. }
  unfold wp at 1 in Hcap. unfold wp at 1. destruct (_ (Db _ _ _)) as [[cap|e] d]; cbn [fst snd] in Hcap |- *;
    destruct Hcap as [-> Hcap]; [|apply Hfail]. specialize (Hcap cap eq_refl).
  apply wp_bind, wp_of_res. destruct (Parse (CmBody req) (CmKind req)) as [parsed|] eqn:Hparse; [|apply Hfail].
  destruct (IsValid parsed) eqn:Hval; cbn [negb]; [|apply wp_throw, Hfail].
  apply wp_bind, wp_wrap, wp_begin; intros fs1; [apply Hfail|].
  apply wp_bind, wp_attempt, wp_stmt; [intros fs2| |]; [apply Hfail| |].
  { intros fs2 row [t1 w1] E. unfold reads, on_tables, select_result in E. cbn in E.
    destruct (results t !! result_key req) as [row'|] eqn:Erow; [|done]. injection E as -> <- <-.
    destruct (result_matches _ _ _ _ _ _) eqn:Hm; cbn [negb]; [|apply wp_throw, Hfail].
    apply wp_ret. split; [done|]. left. split; [done|]. by exists row, parsed, cap. }
  intros fs2 e [t1 w1] E. unfold reads, on_tables, select_result in E. cbn in E.
  destruct (results t !! result_key req) as [row'|] eqn:Erow; [done|]. injection E as <- <- <-.
  cbn [errors_is]. rewrite decide_True by done. cbn [negb].
  apply wp_bind, wp_attempt, wp_stmt; [intros fs3|intros fs3 tok [t1 w1] E|intros fs3 e [t1 w1] E];
    apply wp_bind, wp_of_res.
  - destruct (token_ok (Err EDb) (now 1%nat)) as [tok|] eqn:Htok; [|apply Hfail].
    by apply token_ok_inv in Htok as [? _].
  - destruct (token_ok (Ok tok) (now 1%nat)) as [tok'|] eqn:Htok; [|apply Hfail].
    apply token_ok_inv in Htok as ([= <-] & Hcons & Hexp).
    unfold reads, on_tables, select_token in E. cbn [fst snd] in E.
    destruct (tokens t !! token_digest req) as [tok'|] eqn:Htok; [|done]. injection E as <- <- <-.
    destruct (token_matches _ _ _ _ _ _) eqn:Hmatch; cbn [negb]; [|apply wp_throw, Hfail].
    apply wp_bind, (triple_wp holds _ _ _ _ _ _ _ (validate_triple _ _ _ _ _ _)).
    + intros e t' w' fs' Hw. by split.
    + intros u t' w' fs' Hw [-> ->]. assert (Hp : put = None \/ exists p, put = Some p) by (destruct put; eauto).
      destruct Hp as [Hp|[p Hp]]; rewrite Hp; [apply wp_throw, Hfail|]. by eapply apply_wp.
  - destruct (token_ok (Err e) (now 1%nat)) as [tok|] eqn:Htok; [|apply Hfail].
    by apply token_ok_inv in Htok as [? _].
Qed.
End commit.

(** ** What is stored *)

Section exact.
Context (scan_uuid : string -> option string) (scan_numeric : string -> option Q)
  (Hscan : forall v, decimalPattern v = true -> scan_numeric v = parse_rat v).

Record exact_line (snapshot : string) (row : PositionRow) (l : SnapshotLine) : Prop := {
  el_snapshot : ln_snapshot l = snapshot;
  el_account : scan_uuid (trim_space (PosAccountID row)) = Some (ln_account l);
  el_instrument : scan_uuid (trim_space (PosInstrumentID row)) = Some (ln_instrument l);
  el_quantity : stored_decimal (Quantity row) (ln_quantity l);
  el_cost : stored_optional (TotalCostBasis row) (ln_cost l);
  el_duration : stored_optional (ModifiedDurationYears row) (ln_duration l);
  el_convexity : stored_optional (ConvexityYearsSquared row) (ln_convexity l);
}.

Record exact_revision (row : PriceRow) (r : PriceRevision) : Prop := {
  er_instrument : scan_uuid (trim_space (PrcInstrumentID row)) = Some (rv_instrument r);
  er_quote : rv_quote r = QuoteCurrency row;
  er_observation : rv_observation r = pg_time (ObservationTime row);
  er_price : stored_decimal (Price row) (rv_price r);
  er_positive : 0 < rv_price r;
  er_known : rv_source_known r = (pg_time <$> SourceKnownAtTime row);
}.

Definition valid_position (row : PositionRow) : Prop :=
  validDecimal (Quantity row) false = true /\ validDecimal (TotalCostBasis row) true = true /\
  validDecimal (ModifiedDurationYears row) true = true /\
  validDecimal (ConvexityYearsSquared row) true = true.

Lemma certified_valid kind cells ps qs :
  certified kind cells ps qs ->
  Forall valid_position ps /\
  Forall (fun q => validDecimal (Price q) false = true /\ isNonPositive (Price q) = false) qs.
Proof. induction 1 as [|? ? ? ? ? ? ? ? ? ? ? ? ? ? ? ? ? ? ? [IH1 IH2]|? ? ? ? ? ? ? ? ? ? ? ? ? ? ? ? ? ? ? ? ? ? [IH1 IH2]]; by repeat constructor. Qed.

Lemma parseUUID_inv v id : parseUUID scan_uuid v = Ok id -> scan_uuid (trim_space v) = Some id.
Proof. unfold parseUUID. by destruct (scan_uuid _); intros [= <-]. Qed.

Lemma line_of_exact portfolio snapshot row l :
  valid_position row -> line_of scan_uuid scan_numeric portfolio snapshot row l ->
  exact_line snapshot row l.
Proof.
  intros (Hq & Hc & Hd & Hx). unfold line_of, copy_row.
  destruct (parseUUID scan_uuid (PosAccountID row)) as [a|] eqn:Ea; [|done].
  destruct (parseUUID scan_uuid (PosInstrumentID row)) as [i|] eqn:Ei; [|done].
  destruct (parseNumeric scan_numeric (Quantity row) false) as [q|] eqn:Eq; [|done].
  destruct (parseNumeric scan_numeric (TotalCostBasis row) true) as [c|] eqn:Ec; [|done].
  destruct (parseNumeric scan_numeric (ModifiedDurationYears row) true) as [d|] eqn:Ed; [|done].
  destruct (parseNumeric scan_numeric (ConvexityYearsSquared row) true) as [x|] eqn:Ex; [|done].
  intros [= H]. apply bind_Some in H as (zq & Hzq & H). apply bind_Some in H as (zc & Hzc & H).
  apply bind_Some in H as (zd & Hzd & H). apply bind_Some in H as (zx & Hzx & [= <-]).
  split; cbn; [done|by apply parseUUID_inv|by apply parseUUID_inv|..].
  - by eapply parseNumeric_exact.
  - by eapply parseNumeric_optional.
  - by eapply parseNumeric_optional.
  - by eapply parseNumeric_optional.
Qed.

Lemma stored_positive v z :
  validDecimal v false = true -> isNonPositive v = false -> stored_decimal v z -> 0 < z.
Proof.
  intros Hv Hn (q & Hq & He). destruct (decimal_shape_exact v Hv) as (z' & q' & Hq' & He' & _ & _ & Hs).
  rewrite Hq in Hq'. injection Hq' as <-. rewrite He in He'. unfold Qeq in He'. cbn [Qnum Qden] in He'.
  assert (z = z') as -> by nia. destruct (Z.le_gt_cases z' 0) as [Hle|Hgt]; [|lia].
  apply Hs in Hle. congruence.
Qed.

Lemma revision_of_exact rawID row r :
  validDecimal (Price row) false = true -> isNonPositive (Price row) = false ->
  revision_of scan_uuid scan_numeric rawID row r -> exact_revision row r.
Proof.
  intros Hv Hn. unfold revision_of, price_row.
  destruct (parseUUID scan_uuid (PrcInstrumentID row)) as [i|] eqn:Ei; cbn [res_bind]; [|done].
  destruct (parseNumeric scan_numeric (Price row) false) as [q|] eqn:Eq; cbn [res_bind]; [|done].
  intros [= H]. apply bind_Some in H as (z & Hz & [= <-]).
  assert (Hst : stored_decimal (Price row) z) by by eapply parseNumeric_exact.
  split; cbn; [by apply parseUUID_inv|done|done|done|by eapply stored_positive|done].
Qed.

Lemma Forall2_impl_l {A B} (P : A -> Prop) (R R' : A -> B -> Prop) l k :
  Forall P l -> Forall2 R l k -> (forall a b, P a -> R a b -> R' a b) -> Forall2 R' l k.
Proof.
  intros HP H HR. induction H; [constructor|]. apply Forall_cons in HP as [??]. constructor; auto.
Qed.
End exact.

(** ** The service over a history *)

Section history.
Context {W U : Type} (Pool : bool) (api : Archive.urlAPI U)
  (put : option (Archive.Object -> W -> res unit * W))
  (scan_uuid uuid_text : string -> option string) (scan_numeric : string -> option Q)
  (holds : W -> string -> string -> Prop).

Abbreviation commit_run gen random now req :=
  (Commit Pool api put scan_uuid uuid_text scan_numeric gen random now req).
Abbreviation preview_run random now req := (Preview (W := W) Pool uuid_text random now req).

(** Identifiers the database draws are canonical. *)
Definition canonical (gen : nat -> string) : Prop :=
  forall n, scan_uuid (trim_space (gen n)) = Some (gen n).

(** One call of the service, or a change by another part of the system, which
    leaves the import tables alone. *)
Inductive step : import_tables * W -> import_tables * W -> Prop :=
  | step_preview random now req fs r s s' :
      run (preview_run random now req) fs s = (r, s') -> step s s'
  | step_commit gen random now req fs r s s' :
      canonical gen -> run (commit_run gen random now req) fs s = (r, s') -> step s s'
  | step_other t w t' w' :
      tokens t' = tokens t -> results t' = results t -> step (t, w) (t', w').

(** A preview writes at most one new token row, unspent and in whole
    microseconds. *)
Lemma preview_outcome random now req fs t w r s :
  run (preview_run random now req) fs (t, w) = (r, s) ->
  fst s = t \/ exists d row, tokens t !! d = None /\ tk_consumed row = None /\
    tk_captured row = (pg_time <$> tk_captured row) /\
    fst s = set_tokens t (<[d := row]> (tokens t)).
Proof.
  intros Hrun. run_wp Hrun. unfold Preview.
  set (target := to_lower _). clearbody target.
  destruct (_ || _); [apply wp_throw; by left|]. destruct (negb Pool); [apply wp_throw; by left|].
  apply wp_bind. set (captured := if bool_decide _ then _ else _).
  assert (Hcap : exists o, captured (Db (t, w) (t, w) fs) = (o, Db (t, w) (t, w) fs)).
  { unfold captured, bind, of_res, ret. case_bool_decide; [|by eexists].
    by destruct (request_time _); eexists. }
  destruct Hcap as [o Hcap]. unfold wp at 1. rewrite Hcap. cbn [fst snd]. clear captured Hcap.
  destruct o as [captured|e]; [|by left].
  apply wp_bind, wp_of_res. destruct (Parse _ _) as [parsed|]; [|by left].
  destruct (negb (IsValid parsed)); [apply wp_ret; by left|]. apply wp_bind.
  set (found := if bool_decide _ then _ else _).
  assert (Hf : exists o fs', found (Db (t, w) (t, w) fs) = (o, Db (t, w) (t, w) fs')).
  { unfold found. case_bool_decide; [|by do 2 eexists].
    unfold attempt, pool_stmt, guarded, next_fault. destruct fs as [|[] fs]; cbn [faults];
      [|by do 2 eexists|]; unfold reads, on_tables; cbn [committed fst snd];
      destruct (select_portfolio _ _ _); by do 2 eexists. }
  destruct Hf as (o & fs' & Hf). unfold wp at 1. rewrite Hf. cbn [fst snd]. clear found Hf.
  destruct o as [[id|e]|e]; [|apply wp_throw; by left|by left].
  apply wp_bind, wp_wrap, wp_of_res. destruct random as [bytes|e]; [|by left]. cbv zeta.
  apply wp_bind, wp_wrap, wp_pool_stmt; [by left|intros fs1 a [t1 w1] E|intros fs1 e [t1 w1] E; by left].
  apply wp_ret. cbn [committed fst]. unfold on_tables in E. cbn [fst snd] in E.
  destruct (token_row _ _ _ _ _ _) as [row|] eqn:Erow; [|done].
  unfold insert_token in E. destruct (_ && _) eqn:Eb; [|done]. injection E as _ <- <-. bool_simp.
  right. eexists _, row. split; [eassumption|]. unfold token_row in Erow.
  apply bind_Some in Erow as (tid & _ & [= <-]). cbn. split; [done|]. split; [|done].
  destruct captured; cbn; [by rewrite pg_time_idemp|done].
Qed.

Lemma lookup_consume d d' now t :
  tokens (consume_token d now t) !! d' =
    if bool_decide (d = d') then
      (fun r => mkTokenRow (tk_kind r) (tk_target r) (tk_captured r) (tk_schema r) (tk_hash r)
                  (tk_rows r) (tk_diagnostics r) (tk_truncated r) (tk_expires r) (Some now))
      <$> tokens t !! d' else tokens t !! d'.
Proof.
  cbn. case_bool_decide as H; [subst; by rewrite lookup_alter_eq|by rewrite lookup_alter_ne].
Qed.

Definition spent (d : string) (t : import_tables) : Prop :=
  exists tok, tokens t !! d = Some tok /\ is_Some (tk_consumed tok).

Section laws.
Context (Hput : forall p, put = Some p -> Archive.ContentStore p holds).

Abbreviation applied_by gen := (applied scan_uuid uuid_text scan_numeric holds gen).

(** The effect of a fresh commit on the service's own tables. *)
Lemma applied_effect gen now req t t' w' resp :
  applied_by gen now req t t' w' resp ->
  exists tok row parsed cap,
    tokens t !! token_digest req = Some tok /\ tk_consumed tok = None /\
    tokens t' = tokens (consume_token (token_digest req) (pg_time (now 3%nat)) t) /\
    results t !! result_key req = None /\ results t' = <[result_key req := row]> (results t) /\
    Parse (CmBody req) (CmKind req) = Ok parsed /\
    (CmKind req = KindPositions -> parseRFC3339 (CmCapturedAt req) = Ok cap) /\
    stored_result uuid_text req cap parsed resp row.
Proof.
  intros (parsed & cap & tok & rawID & t1 & t2 & row & Hparse & _ & Hcap & Hres & Htok & Hcons & _ & _ &
    Hreg & Hrows & Hrow & ->).
  destruct (registered_results _ _ _ _ _ _ Hreg) as [Hr1 Ht1].
  destruct (rows_stored_results _ _ _ _ _ _ _ _ _ _ Hrows) as [Hr2 Ht2].
  exists tok, row, parsed, cap. cbn. rewrite Hr2, Hr1, Ht2, Ht1. done.
Qed.

Lemma applied_spends gen now req t t' w' resp :
  applied_by gen now req t t' w' resp -> ~ spent (token_digest req) t /\ spent (token_digest req) t'.
Proof.
  intros (tok & row & parsed & cap & Htok & Hcons & Ht & _)%applied_effect. split.
  - intros (tok' & Htok' & [? Hc]). congruence.
  - unfold spent. rewrite Ht, lookup_consume, bool_decide_true, Htok by done. cbn. eauto.
Qed.

Lemma step_spent d s s' : step s s' -> spent d (fst s) -> spent d (fst s').
Proof.
  intros Hstep (tok & Htok & Hc). destruct Hstep as [random now req fs r [t w] s' Hrun|
    gen random now req fs r [t w] [t' w'] Hgen Hrun|t w t' w' Ht _]; cbn [fst] in *.
  - apply preview_outcome in Hrun as [->|(k & row & Hnone & _ & _ & ->)]; [by exists tok|].
    exists tok. cbn. rewrite lookup_insert_ne; [done|]. intros ->. congruence.
  - apply (commit_outcome _ _ _ _ _ holds Hput gen Hgen) in Hrun as [_ Ho]. cbn [fst snd] in Ho.
    destruct r as [resp|]; [|by subst; exists tok].
    destruct Ho as [[-> _]|Happ]; [by exists tok|].
    apply applied_effect in Happ as (tok' & row & parsed & cap & _ & _ & Hts & _).
    unfold spent. rewrite Hts, lookup_consume. case_bool_decide; rewrite Htok; [|by exists tok].
    cbn. eauto.
  - exists tok. by rewrite Ht.
Qed.

Lemma steps_spent d s s' : rtc step s s' -> spent d (fst s) -> spent d (fst s').
Proof. induction 1 as [|x y z Hxy _ IH]; [done|]. intros H. by eapply IH, step_spent. Qed.

Lemma step_result key row s s' :
  step s s' -> results (fst s) !! key = Some row -> results (fst s') !! key = Some row.
Proof.
  intros Hstep Hrow. destruct Hstep as [random now req fs r [t w] s' Hrun|
    gen random now req fs r [t w] [t' w'] Hgen Hrun|t w t' w' _ Hr]; cbn [fst] in *.
  - by apply preview_outcome in Hrun as [->|(k & row' & _ & _ & _ & ->)].
  - apply (commit_outcome _ _ _ _ _ holds Hput gen Hgen) in Hrun as [_ Ho]. cbn [fst snd] in Ho.
    destruct r as [resp|]; [|by subst].
    destruct Ho as [[-> _]|Happ]; [done|].
    apply applied_effect in Happ as (tok' & row' & parsed & cap & _ & _ & _ & Hnone & -> & _).
    rewrite lookup_insert_ne; [done|]. intros <-. congruence.
  - by rewrite Hr.
Qed.

Lemma steps_result key row s s' :
  rtc step s s' -> results (fst s) !! key = Some row -> results (fst s') !! key = Some row.
Proof. induction 1 as [|x y z Hxy _ IH]; [done|]. intros H. by eapply IH, step_result. Qed.

(** C24: a preview token is spent at most once: after a commit that changed the
    tables, in every later state of the service, a commit with the same token
    changes nothing. *)
Theorem token_single_use gen1 random1 now1 req1 fs1 r1 s0 s1 gen2 random2 now2 req2 fs2 r2 s2 s3 :
  canonical gen1 -> canonical gen2 ->
  run (commit_run gen1 random1 now1 req1) fs1 s0 = (r1, s1) -> fst s1 <> fst s0 ->
  rtc step s1 s2 ->
  CmToken req2 = CmToken req1 ->
  run (commit_run gen2 random2 now2 req2) fs2 s2 = (r2, s3) ->
  fst s3 = fst s2.
Proof.
  intros Hg1 Hg2 Hrun1 Hne Hsteps Htok Hrun2. destruct s0 as [t0 w0], s2 as [t2 w2].
  apply (commit_outcome _ _ _ _ _ holds Hput gen1 Hg1) in Hrun1 as [_ Ho1].
  apply (commit_outcome _ _ _ _ _ holds Hput gen2 Hg2) in Hrun2 as [_ Ho2].
  destruct r1 as [resp1|]; [|done]. destruct Ho1 as [[Ht _]|Happ1]; [done|].
  apply applied_spends in Happ1 as [_ Hspent]. apply (steps_spent _ _ _ Hsteps) in Hspent.
  destruct r2 as [resp2|]; [|done]. destruct Ho2 as [[Ht2 _]|Happ2]; [done|].
  apply applied_spends in Happ2 as [Hn _]. unfold token_digest in Hn. rewrite Htok in Hn.
  by destruct Hn.
Qed.

(** A commit is all or nothing: one that reports an error leaves every table as
    it was, one that changed a table has first put the file in the archive, under
    its digest, and registered it there; the archive never loses an object. *)
Theorem commit_all_or_nothing gen random now req fs r t w t' w' :
  canonical gen ->
  run (commit_run gen random now req) fs (t, w) = (r, (t', w')) ->
  (forall key body, holds w key body -> holds w' key body) /\
  (is_ok r = false -> t' = t) /\
  (t' <> t -> is_ok r = true /\
     holds w' (Archive.ObjectKey (digest (CmBody req))) (CmBody req) /\
     is_Some (raw_objects t' !! digest (CmBody req)) /\
     results t !! result_key req = None /\ is_Some (results t' !! result_key req)).
Proof.
  intros Hg Hrun. apply (commit_outcome _ _ _ _ _ holds Hput gen Hg) in Hrun as [Hk Ho].
  cbn [fst snd] in Ho. split; [exact Hk|].
  destruct r as [resp|e]; [|by split]. split; [done|]. intros Hne. split; [done|].
  destruct Ho as [[? _]|Happ]; [done|].
  apply applied_effect in Happ as He.
  destruct He as (tok & row & parsed & cap & _ & _ & _ & Hnone & Hr & _).
  destruct Happ as (parsed' & cap' & tok' & rawID & t1 & t2 & row' & _ & _ & _ & _ & _ & _ & _ & _ &
    (Ht1 & (ro & Hro & _) & _ & Hh) & Hrows & _ & Ht').
  split; [exact Hh|]. split; [|split; [done|rewrite Hr, lookup_insert_eq; eauto]].
  rewrite Ht'. cbn. unfold rows_stored in Hrows. case_bool_decide.
  - destruct Hrows as (? & ? & ? & _ & _ & _ & _ & _ & _ & _ & ->). cbn. eauto.
  - destruct Hrows as (? & ? & _ & _ & _ & _ & ->). cbn. eauto.
Qed.

(** C25: what a commit stores is the file, cell for cell: the records of the CSV, in
    order, become the rows of one new snapshot (positions) or new price
    revisions, under keys the tables did not have; every decimal column is
    exactly the number the cell spells, every price is positive, times are the
    cells' to the microsecond, and no row of the other kind, and none stored
    before, changes. *)
Theorem commit_stores_file gen random now req fs resp t w t' w' :
  canonical gen ->
  (forall v, decimalPattern v = true -> scan_numeric v = parse_rat v) ->
  run (commit_run gen random now req) fs (t, w) = (Ok resp, (t', w')) -> t' <> t ->
  exists cells ps qs, well_formed (CmBody req) (CmKind req) cells ps qs /\
    (CmKind req = KindPositions -> exists pid cap ls,
       let ids := gen <$> seq 2 (length ps) in
       uuid_text (target_of req) = Some pid /\ parseRFC3339 (CmCapturedAt req) = Ok cap /\
       snapshots t !! gen 0%nat = None /\
       snapshots t' = <[gen 0%nat := (pid, pg_time cap)]> (snapshots t) /\
       Forall2 (exact_line scan_uuid (gen 0%nat)) ps ls /\
       NoDup ids /\ Forall (fun id => lines t !! id = None) ids /\
       lines t' = list_to_map (zip ids ls) ∪ lines t /\ revisions t' = revisions t) /\
    (CmKind req = KindManualPrices -> exists rs,
       let ids := gen <$> seq 2 (length qs) in
       Forall2 (exact_revision scan_uuid) qs rs /\
       NoDup ids /\ Forall (fun id => revisions t !! id = None) ids /\
       revisions t' = list_to_map (zip ids rs) ∪ revisions t /\
       snapshots t' = snapshots t /\ lines t' = lines t).
Proof.
  intros Hg Hscan Hrun Hne. apply (commit_outcome _ _ _ _ _ holds Hput gen Hg) in Hrun as [_ Ho].
  cbn [fst snd] in Ho. destruct Ho as [[? _]|Happ]; [done|].
  destruct Happ as (parsed & cap & tok & rawID & t1 & t2 & row & Hparse & Hval & Hcap & _ & _ & _ & _ & _ &
    (Ht1 & _) & Hrows & _ & ->).
  destruct (parse_valid_inv _ _ _ Hparse Hval) as (cells & Hwf). exists cells, (Positions parsed), (Prices parsed).
  split; [exact Hwf|]. destruct (certified_valid _ _ _ _ (wf_certified _ _ _ _ _ Hwf)) as [Hps Hqs].
  unfold rows_stored in Hrows. split; intros Hk; rewrite Hk in Hrows.
  - rewrite bool_decide_true in Hrows by done.
    destruct Hrows as (pid & sid & ls & Hpid & _ & _ & Hsnap & Hls & Hfresh & Hnd & ->).
    rewrite Ht1 in *. cbn in *. exists pid, cap, ls. split_and!; try done; [by apply Hcap|].
    eapply Forall2_impl_l; [exact Hps|exact Hls|]. intros a b. by apply line_of_exact.
  - rewrite bool_decide_false in Hrows by done.
    destruct Hrows as (raw & rs & _ & Hrs & Hfresh & Hnd & ->).
    rewrite Ht1 in *. cbn in *. exists rs. split_and!; try done.
    eapply Forall2_impl_l; [exact Hqs|exact Hrs|]. intros a b [??]. by apply revision_of_exact.
Qed.

(** *** Replays *)

Lemma commit_guards gen random now req fs s resp s' :
  run (commit_run gen random now req) fs s = (Ok resp, s') ->
  CmSchemaVersion req = SchemaVersion /\ Imports.validUUID (target_of req) = true /\ CmToken req <> "" /\
  IdempotencyKey req <> "" /\ slen (IdempotencyKey req) <= 255 /\ Pool = true.
Proof.
  unfold run, Commit. fold (target_of req). destruct (_ || _) eqn:E; [done|].
  destruct Pool; cbn [negb]; [|done]. intros _. bool_simp. split_and!; try done; lia.
Qed.

Lemma unmarshal_idem (m : response) : unmarshal_any <$> (unmarshal_any <$> m) = unmarshal_any <$> m.
Proof. rewrite <- map_fmap_compose. apply map_fmap_ext. by intros _ [] _. Qed.

(** A row a request was answered from, or that it made, matches it. *)
Definition row_matches (req : CommitRequest) (parsed : Result) (cap : time) (row : ResultRow) : Prop :=
  result_matches row (target_of req) (CmSchemaVersion req) (Imports.ContentSHA256 parsed)
    (capturedAtForKind (CmKind req) cap) (RowCount parsed) = true.

Definition request_cap (req : CommitRequest) (now : time) (cap : time) : Prop :=
  if bool_decide (CmKind req = KindPositions) then parseRFC3339 (CmCapturedAt req) = Ok cap
  else cap = now.

Lemma replay_run gen random now req parsed cap row t w :
  CmSchemaVersion req = SchemaVersion -> Imports.validUUID (target_of req) = true -> CmToken req <> "" ->
  IdempotencyKey req <> "" -> slen (IdempotencyKey req) <= 255 -> Pool = true ->
  Parse (CmBody req) (CmKind req) = Ok parsed -> IsValid parsed = true ->
  request_cap req (now 0%nat) cap ->
  results t !! result_key req = Some row -> row_matches req parsed cap row ->
  run (commit_run gen random now req) [] (t, w) = (Ok (replay row), (t, w)).
Proof.
  intros Hschema Huuid Htok Hkey Hlen Hpool Hparse Hval Hcap Hrow Hmatch.
  unfold run, Commit. fold (target_of req) (result_key req).
  rewrite Huuid, (bool_decide_true (_ = SchemaVersion)), !bool_decide_false by done.
  destruct (Z.ltb_spec 255 (slen (IdempotencyKey req))); [lia|]. cbn [negb orb].
  rewrite Hpool. cbn [negb]. unfold bind at 1. unfold request_cap in Hcap.
  assert (Hc : (if bool_decide (CmKind req = KindPositions) then of_res (request_time (CmCapturedAt req))
                else ret (now 0%nat)) (Db (t, w) (t, w) []) = (Ok cap, Db (t, w) (t, w) [])).
  { case_bool_decide; [|by subst cap]. unfold of_res, request_time. by rewrite Hcap. }
  rewrite Hc. unfold bind at 1, of_res at 1. rewrite Hparse, Hval. cbn [negb].
  unfold bind, wrap, attempt, begin, stmt, guarded, next_fault. cbn [faults committed working].
  unfold reads, on_tables, select_result. cbn [fst snd]. rewrite Hrow.
  unfold row_matches in Hmatch. rewrite Hmatch. done.
Qed.

Definition with_token (token : string) (req : CommitRequest) : CommitRequest :=
  mkCommitRequest (CmKind req) (CmTargetID req) (CmSchemaVersion req) (CmCapturedAt req) token
    (IdempotencyKey req) (CmBody req).

(** A commit is repeatable under its key: once it has succeeded, the same
    request (whatever its token by now) succeeds in every later state of the
    service, with the same response as read back from JSON, and changes nothing,
    provided the capture time of a positions file is in whole microseconds. *)
Theorem commit_repeatable gen random now req fs resp s s1 s2 gen' random' now' token' :
  canonical gen ->
  (forall v, Imports.validUUID (to_lower v) = true -> uuid_text (to_lower v) = Some (to_lower v)) ->
  (forall cap, parseRFC3339 (CmCapturedAt req) = Ok cap -> pg_time cap = cap) ->
  run (commit_run gen random now req) fs s = (Ok resp, s1) ->
  rtc step s1 s2 ->
  token' <> "" ->
  run (commit_run gen' random' now' (with_token token' req)) [] s2 = (Ok (unmarshal_any <$> resp), s2).
Proof.
  intros Hg Hcanon Hwhole Hrun Hsteps Htok'. destruct s as [t w], s1 as [t1 w1], s2 as [t2 w2].
  destruct (commit_guards _ _ _ _ _ _ _ _ Hrun) as (Hschema & Huuid & _ & Hkey & Hlen & Hpool).
  apply (commit_outcome _ _ _ _ _ holds Hput gen Hg) in Hrun as [_ Ho]. cbn [fst snd] in Ho.
  assert (Hrow : exists parsed cap row, Parse (CmBody req) (CmKind req) = Ok parsed /\
    IsValid parsed = true /\ (CmKind req = KindPositions -> parseRFC3339 (CmCapturedAt req) = Ok cap) /\
    results t1 !! result_key req = Some row /\ row_matches req parsed cap row /\
    replay row = unmarshal_any <$> resp).
  { destruct Ho as [(-> & row & parsed & cap & Hrow & Hparse & Hval & Hcap & Hm & ->)|Happ].
    { exists parsed, cap, row. split_and!; try done. unfold replay. by rewrite unmarshal_idem. }
    pose proof Happ as (parsed' & cap' & _ & _ & _ & _ & _ & Hparse' & Hval & _).
    apply applied_effect in Happ as (tok & row & parsed & cap & _ & _ & _ & _ & Hres & Hparse & Hcap & Hrow).
    rewrite Hparse in Hparse'. injection Hparse' as <-. exists parsed, cap, row.
    split_and!; try done; [by rewrite Hres, lookup_insert_eq| |].
    - destruct Hrow as [Htg Hcp Hsc Hha Hro _]. unfold target_of in Htg at 1. rewrite Hcanon in Htg by done. fold (target_of req) in Htg.
      injection Htg as Htg. unfold row_matches, result_matches, sameCapturedAt.
      rewrite Hcp, Hsc, Hha, Hro, <- Htg, Z.eqb_refl, !bool_decide_true; try done.
      unfold capturedAtForKind. case_bool_decide as Hk; [|done]. cbn. by rewrite (Hwhole cap (Hcap Hk)).
    - unfold replay. by rewrite (sr_response _ _ _ _ _ _ Hrow). }
  destruct Hrow as (parsed & cap & row & Hparse & Hval & Hcap & Hrow & Hm & <-).
  apply (steps_result _ _ _ _ Hsteps) in Hrow. cbn [fst] in Hrow.
  set (cap' := if bool_decide (CmKind req = KindPositions) then cap else now' 0%nat).
  apply (replay_run gen' random' now' (with_token token' req) parsed cap' row t2 w2); try done.
  - unfold request_cap, cap'. cbn. case_bool_decide; [by apply Hcap|done].
  - unfold row_matches, cap', capturedAtForKind in *. cbn. by case_bool_decide.
Qed.

(** *** Capture times finer than a microsecond *)

Definition whole (t : import_tables) : Prop :=
  (forall d row, tokens t !! d = Some row -> tk_captured row = (pg_time <$> tk_captured row)) /\
  (forall k row, results t !! k = Some row -> rs_captured row = (pg_time <$> rs_captured row)).

Lemma pg_time_fmap_idem o : (pg_time <$> (pg_time <$> o) : option time) = pg_time <$> o.
Proof. destruct o; cbn; by rewrite ?pg_time_idemp. Qed.

Lemma step_whole s s' : step s s' -> whole (fst s) -> whole (fst s').
Proof.
  intros Hstep [Htok Hres]. destruct Hstep as [random now req fs r [t w] s' Hrun|
    gen random now req fs r [t w] [t' w'] Hgen Hrun|t w t' w' Ht Hr]; cbn [fst] in *.
  - apply preview_outcome in Hrun as [->|(k & row & _ & _ & Hc & ->)]; [done|]. split; [|done].
    cbn. intros d row'. destruct (decide (k = d)) as [->|]; [rewrite lookup_insert_eq; by intros [= <-]|].
    rewrite lookup_insert_ne by done. apply Htok.
  - apply (commit_outcome _ _ _ _ _ holds Hput gen Hgen) in Hrun as [_ Ho]. cbn [fst snd] in Ho.
    destruct r as [resp|]; [|by subst]. destruct Ho as [[-> _]|Happ]; [done|].
    apply applied_effect in Happ as (tok & row & parsed & cap & Htk & _ & Hts & _ & Hrs & _ & _ & Hrow).
    split; [intros d r|intros k r].
    + rewrite Hts, lookup_consume. case_bool_decide; [|apply Htok].
      intros (tok' & Hk & ->)%fmap_Some. cbn. by eapply Htok.
    + rewrite Hrs. destruct (decide (result_key req = k)) as [<-|]; [|rewrite lookup_insert_ne by done; apply Hres].
      rewrite lookup_insert_eq. intros [= <-]. rewrite (sr_captured _ _ _ _ _ _ Hrow). by rewrite pg_time_fmap_idem.
  - split; [by rewrite Ht|by rewrite Hr].
Qed.

Lemma steps_whole s s' : rtc step s s' -> whole (fst s) -> whole (fst s').
Proof. induction 1 as [|x y z Hxy _ IH]; [done|]. intros H. by eapply IH, step_whole. Qed.

(** The database keeps capture times to the microsecond and a commit compares
    them exactly, so a positions file captured at a finer time can be previewed
    but never committed: in every history, whatever token and key it gives, the
    commit is refused and nothing changes. *)
Theorem fine_capture_refused gen random now req cap fs s0 s r s' :
  tokens (fst s0) = ∅ -> results (fst s0) = ∅ -> rtc step s0 s ->
  canonical gen -> CmKind req = KindPositions ->
  parseRFC3339 (CmCapturedAt req) = Ok cap -> pg_time cap <> cap ->
  run (commit_run gen random now req) fs s = (r, s') ->
  is_ok r = false /\ fst s' = fst s.
Proof.
  intros Ht0 Hr0 Hsteps Hg Hkind Hcap Hfine Hrun.
  assert (Hw : whole (fst s)) by (eapply steps_whole; [exact Hsteps|]; split; [by rewrite Ht0|by rewrite Hr0]).
  destruct s as [t w]. cbn [fst] in Hw. destruct Hw as [Htok Hres].
  apply (commit_outcome _ _ _ _ _ holds Hput gen Hg) in Hrun as [_ Ho]. cbn [fst snd] in Ho.
  destruct r as [resp|]; [exfalso|done].
  assert (Hno : forall o, o = (pg_time <$> o) -> capturedAtForKind (CmKind req) cap <> o).
  { intros o Ho' <-. unfold capturedAtForKind in Ho'. rewrite bool_decide_true in Ho' by done.
    injection Ho' as Ho'. by apply Hfine. }
  destruct Ho as [(_ & row & parsed & cap' & Hrow & _ & _ & Hcap' & Hm & _)|
    (parsed & cap' & tok & rawID & t1 & t2 & row & _ & _ & Hcap' & _ & Htk & _ & _ & Hm & _)].
  - specialize (Hcap' Hkind). rewrite Hcap in Hcap'. injection Hcap' as <-.
    unfold result_matches, sameCapturedAt in Hm. bool_simp. eapply Hno; [by eapply Hres|done].
  - specialize (Hcap' Hkind). rewrite Hcap in Hcap'. injection Hcap' as <-.
    unfold token_matches, sameCapturedAt in Hm. bool_simp. eapply Hno; [by eapply Htok|done].
Qed.
End laws.
End history.

(** ** A concrete history *)

(** An archive in memory. *)
Definition memory_put (o : Archive.Object) (w : gmap string string)
    : res unit * gmap string string :=
  match Archive.validateObject o with
  | Some e => (Err e, w)
  | None =>
      match w !! Archive.Key o with
      | None => (Ok tt, <[Archive.Key o := Archive.Body o]> w)
      | Some body => if bool_decide (body = Archive.Body o) then (Ok tt, w)
                     else (Err Archive.ErrContentMismatch, w)
      end
  end.

Definition memory_holds (w : gmap string string) (key body : string) : Prop := w !! key = Some body.

Lemma memory_store p : Some memory_put = Some p -> Archive.ContentStore p memory_holds.
Proof.
  intros [= <-]. unfold memory_put, memory_holds. split.
  - intros o w w'. destruct (Archive.validateObject o); [done|].
    destruct (w !! Archive.Key o) as [b|] eqn:E.
    + case_bool_decide; [|done]. intros [= <-]. by subst.
    + intros [= <-]. by rewrite lookup_insert_eq.
  - intros o w w'. unfold Archive.validateObject. destruct (_ || _) eqn:E1; [done|].
    destruct (negb (bool_decide (Archive.SHA256Hex _ = _))) eqn:E2; [done|]. intros _. by bool_simp.
  - intros o w r w' key body. destruct (Archive.validateObject o); [by intros [= _ <-]|].
    destruct (w !! Archive.Key o) as [b|] eqn:E.
    + by case_bool_decide; intros [= _ <-].
    + intros [= _ <-] Hk. rewrite lookup_insert_ne; [done|]. intros <-. congruence.
Qed.

Definition demo_url : Archive.urlAPI unit :=
  Archive.mkUrlAPI unit (fun _ => Some tt) (fun u => u) (fun _ => []) (fun _ u => u) (fun _ => "").

Definition demo_ids (n : nat) : string := of_chars (replicate (S n) "v"%char).

Lemma demo_canonical : canonical Some demo_ids.
Proof.
  intros n. f_equal. unfold demo_ids. eapply (trim_space_solid _ "v"%char _ (replicate n "v"%char) "v"%char).
  - rewrite chars_of_chars. reflexivity.
  - rewrite chars_of_chars. apply replicate_cons_app.
  - done.
  - done.
Qed.

Definition demo_portfolio : string := "3b241101-e2bb-4255-8caf-4136c566a962".
Definition demo_account : string := "3b241101-e2bb-4255-8caf-4136c566a963".
Definition demo_instrument : string := "3b241101-e2bb-4255-8caf-4136c566a964".

Definition demo_csv : string :=
  join (of_chars [newline_char])
    [join "," positionHeaders; demo_account +:+ "," +:+ demo_instrument +:+ ",2.5,100,,"].

Definition demo_tables : import_tables :=
  mkImportTables {[demo_portfolio]} {[demo_account := demo_portfolio]}
    {[demo_instrument := "manual_spot"]} ∅ ∅ ∅ ∅ ∅ ∅.

Definition demo_captured : string := "2026-01-02T03:04:05Z".
Definition demo_preview (captured : string) : PreviewRequest :=
  mkPreviewRequest KindPositions demo_portfolio "1.0" captured demo_csv.
Definition demo_token : string := hex_encode (replicate 32 7).
Definition demo_commit (captured : string) : CommitRequest :=
  mkCommitRequest KindPositions demo_portfolio "1.0" captured demo_token "key" demo_csv.

Abbreviation demo_run_preview captured :=
  (Preview (W := gmap string string) true Some (Ok (replicate 32 7)) 1000000 (demo_preview captured)).
Abbreviation demo_run_commit captured :=
  (Commit true demo_url (Some memory_put) Some Some parse_rat demo_ids (Ok (replicate 16 9))
     (fun n => 2000000 + Z.of_nat n) (demo_commit captured)).

Definition response_of {S} (o : res response * S) : response :=
  match fst o with Ok r => r | Err _ => ∅ end.

Lemma outcome_ok {S} (o : res response * S) : is_ok (fst o) = true -> o = (Ok (response_of o), snd o).
Proof. destruct o as [[r|e] s]; [done|intros H; discriminate H]. Qed.

Definition demo_previewed : import_tables * gmap string string :=
  snd (run (demo_run_preview demo_captured) [] (demo_tables, ∅)).
Abbreviation demo_outcome := (run (demo_run_commit demo_captured) [] demo_previewed).
Abbreviation demo_committed := (snd demo_outcome).
Abbreviation demo_response := (response_of demo_outcome).

Lemma demo_facts :
  (is_ok (fst demo_outcome), ln_quantity <$> lines (fst demo_committed) !! demo_ids 2,
   ln_quantity <$> lines (fst demo_previewed) !! demo_ids 2) = (true, Some (2500 * 10 ^ 15), None).
Proof. vm_compute. reflexivity. Qed.

Lemma triple_inv {A B C} (a x : A) (b y : B) (c z : C) :
  (a, b, c) = (x, y, z) -> a = x /\ b = y /\ c = z.
Proof. by intros [= -> -> ->]. Qed.

Lemma demo_commit_ok :
  run (demo_run_commit demo_captured) [] demo_previewed = (Ok demo_response, demo_committed).
Proof. apply outcome_ok. exact (proj1 (triple_inv _ _ _ _ _ _ demo_facts)). Qed.

Lemma lines_differ (t t' : import_tables) id q :
  ln_quantity <$> lines t !! id = Some q -> ln_quantity <$> lines t' !! id = None -> t <> t'.
Proof. intros H1 H2 <-. congruence. Qed.

Lemma demo_commit_changes : fst demo_committed <> fst demo_previewed.
Proof.
  destruct (triple_inv _ _ _ _ _ _ demo_facts) as (_ & H1 & H2). exact (lines_differ _ _ _ _ H1 H2).
Qed.

Lemma commit_stores_file_witness :
  exists cells ps qs, well_formed demo_csv KindPositions cells ps qs /\
    exists pid cap ls, Some demo_portfolio = Some pid /\ parseRFC3339 demo_captured = Ok cap /\
      snapshots (fst demo_committed) =
        <[demo_ids 0 := (pid, pg_time cap)]> (snapshots (fst demo_previewed)) /\
      Forall2 (exact_line Some (demo_ids 0)) ps ls.
Proof.
  pose proof demo_commit_ok as Hrun. pose proof demo_commit_changes as Hne.
  destruct demo_previewed as [t w], (snd (run _ _ _)) as [t' w']. cbn [fst] in *.
  destruct (commit_stores_file true demo_url (Some memory_put) Some Some parse_rat memory_holds memory_store
    demo_ids _ _ _ _ _ t w t' w' demo_canonical (fun _ _ => eq_refl) Hrun Hne)
    as (cells & ps & qs & Hwf & Hpos & _).
  destruct (Hpos eq_refl) as (pid & cap & ls & Hp & Hc & _ & Hs & Hls & _).
  exists cells, ps, qs. split; [exact Hwf|]. exists pid, cap, ls. by split_and!.
Defined.

(** The same file and token under another key. *)
Definition demo_again : CommitRequest :=
  mkCommitRequest KindPositions demo_portfolio "1.0" demo_captured demo_token "other" demo_csv.
Abbreviation demo_run_again :=
  (Commit true demo_url (Some memory_put) Some Some parse_rat demo_ids (Ok (replicate 16 8))
     (fun n => 3000000 + Z.of_nat n) demo_again).

Lemma token_single_use_witness :
  fst (snd (run demo_run_again [] demo_committed)) = fst demo_committed.
Proof.
  eapply (token_single_use true demo_url (Some memory_put) Some Some parse_rat memory_holds memory_store
    demo_ids _ _ (demo_commit demo_captured) _ _ demo_previewed demo_committed demo_ids _ _ demo_again _ _
    demo_committed _ demo_canonical demo_canonical demo_commit_ok demo_commit_changes).
  - apply rtc_refl.
  - reflexivity.
  - apply surjective_pairing.
Defined.

Lemma commit_all_or_nothing_witness :
  memory_holds (snd demo_committed) (Archive.ObjectKey (digest demo_csv)) demo_csv /\
  is_Some (raw_objects (fst demo_committed) !! digest demo_csv).
Proof.
  pose proof demo_commit_ok as Hrun. pose proof demo_commit_changes as Hne.
  destruct demo_previewed as [t w], (snd (run _ _ _)) as [t' w']. cbn [fst snd] in *.
  destruct (commit_all_or_nothing true demo_url (Some memory_put) Some Some parse_rat memory_holds
    memory_store demo_ids _ _ _ _ _ t w t' w' demo_canonical Hrun) as (_ & _ & H).
  destruct (H Hne) as (_ & Hh & Hr & _). exact (conj Hh Hr).
Defined.

Lemma demo_whole cap : parseRFC3339 demo_captured = Ok cap -> pg_time cap = cap.
Proof.
  assert (H : parseRFC3339 demo_captured = Ok 1767323045000000000) by (vm_compute; reflexivity).
  rewrite H. intros Hc. assert (1767323045000000000 = cap) as <- by congruence. vm_compute. reflexivity.
Qed.

Lemma commit_repeatable_witness :
  run (Commit true demo_url (Some memory_put) Some Some parse_rat demo_ids (Ok [])
         (fun _ => 9000000) (with_token "spent" (demo_commit demo_captured))) [] demo_committed
  = (Ok (unmarshal_any <$> demo_response), demo_committed).
Proof.
  apply (commit_repeatable true demo_url (Some memory_put) Some Some parse_rat memory_holds memory_store
    demo_ids _ _ (demo_commit demo_captured) _ _ demo_previewed demo_committed demo_committed
    _ _ _ "spent" demo_canonical (fun _ _ => eq_refl) demo_whole demo_commit_ok).
  - apply rtc_refl.
  - discriminate.
Defined.

(** A capture time with a nanosecond: previewed, and then refused. *)
Definition demo_fine : string := "2026-01-02T03:04:05.000000001Z".
Abbreviation fine_previewed := (run (demo_run_preview demo_fine) [] (demo_tables, ∅)).

Lemma fine_capture_refused_witness :
  is_ok (fst fine_previewed) = true /\
  is_ok (fst (run (demo_run_commit demo_fine) [] (snd fine_previewed))) = false.
Proof.
  split; [vm_compute; reflexivity|].
  pose (cap := match parseRFC3339 demo_fine with Ok t => t | Err _ => 0 end).
  assert (Hcap : parseRFC3339 demo_fine = Ok cap) by (vm_compute; reflexivity).
  assert (Hfine : pg_time cap <> cap) by (vm_compute; discriminate).
  refine (proj1 (fine_capture_refused true demo_url (Some memory_put) Some Some parse_rat memory_holds
    memory_store demo_ids _ _ (demo_commit demo_fine) cap _ (demo_tables, ∅) (snd fine_previewed) _ _
    eq_refl eq_refl _ demo_canonical eq_refl Hcap Hfine (surjective_pairing _))).
  apply rtc_once. by eapply step_preview, surjective_pairing.
Defined.
