(* ===== verification/JournalTheorems.v ===== *)
(** The properties of the decision journal over its histories. *)

From S2P Require Import Prelude GoString Digits GoTime Sha256 Decimal Order Tables Db World Archive ArchiveProofs.
From S2P Require Import Json JsonTree JsonText JsonQuote JsonCompact JsonDecode TimeText JournalModel.
From S2P Require Import Evidence EvidenceProofs EvidenceSeal JournalService JournalEffects JournalSafety ImportParser ImportProofs.
From Stdlib Require Import Ascii QArith.
#[local] Open Scope Z_scope.
Import Archive(ArchiveReader).
Import Journal Evidence JournalService.

(** ** Amounts *)

Lemma trim_left_char_length c s : (length (trim_left_char c s) <= length s)%nat.
Proof. induction s as [|a s IH]; cbn; [done|]. destruct (Ascii.eqb a c); cbn; lia. Qed.

(** The journal's decimals are among those the import parser takes. *)
Lemma persisted_valid v : validPersistedDecimal v = true -> Imports.validDecimal v false = true.
Proof.
  unfold validPersistedDecimal, Imports.validDecimal. intros [Hp H]%andb_prop. destruct (pattern_without_plus _ Hp) as [Hpat Hplus].
  rewrite bool_decide_false by (by intros ->). rewrite Hpat, Hplus. cbn [negb].
  destruct (cut_char "." (chars (trim_prefix v "-"))) as [i f]. apply andb_prop in H as [Hi Hf]. apply andb_true_intro. split.
  - pose proof (trim_left_char_length "0" i). apply Nat.leb_le in Hi. apply Nat.leb_le. case_bool_decide; [cbn|]; lia.
  - by destruct f.
Qed.

(** A budget the journal takes is stored to the last digit. *)
Lemma amount_exact v amount : validPersistedDecimal v = true -> parseDecimal v = Some amount ->
  exists z, parse_rat v = Some amount /\ (amount == z # Z.to_pos scale18)%Q /\ numeric_in (formatDecimal (scaleDecimal amount)) = Some z.
Proof.
  intros Hv Ha. pose proof (decimal_shape_exact _ (persisted_valid _ Hv)) as (z & q & Hq & Heq & Hz & Hfit & _).
  unfold validPersistedDecimal in Hv. apply andb_prop in Hv as [Hp _]. unfold parseDecimal in Ha. rewrite Hp in Ha.
  unfold parse_rat in Hq. rewrite (pattern_trim _ Hp), Ha in Hq. injection Hq as <-. exists z. split; [|split; [done|]].
  - unfold parse_rat. by rewrite (pattern_trim _ Hp).
  - assert (Hs : scaleDecimal amount = z # Z.to_pos scale18).
    { unfold scaleDecimal, parseDecimal, formatDecimal. rewrite fixed18_pattern. pose proof (parse_fixed18 (round18 amount)) as Hf.
      unfold parse_rat in Hf. rewrite fixed18_trim in Hf. by rewrite Hf, Hz. }
    rewrite Hs. unfold formatDecimal. rewrite round18_exact. unfold numeric_in. by rewrite parse_fixed18, round18_exact, Hfit.
Qed.

(** ** Decisions as they are answered *)

(** Only a finalization changes what a decision answers. *)
Definition settled (d d' : Decision) : Prop :=
  d' = d \/ (Status d = StatusDraft /\ exists at_, d' = mkDecision (ID d) (AccountID d) (Thesis d) (Alternatives d)
    (EvidenceReferences d) (InvalidationConditions d) (DecisionHorizon d) (Budget d) (IntendedAction d) (Tags d) StatusFinalized
    (Author d) (SourceMetadata d) (CreatedAt d) (Some at_)).

Section journal.
Context {W : Type} (get : option (string -> W -> res (res string) * W)).
Context (scan_uuid uuid_text : string -> option string) (jsonb_in : string -> option json) (jsonb_out : json -> string).
Context (collate : string -> string -> comparison) (text_ok : string -> bool) (format_float : SpecFloat.spec_float -> string).
Context (holds : W -> string -> string -> Prop) (Hget : forall g, get = Some g -> ArchiveReader g holds).
Context {HU : UuidDriver scan_uuid uuid_text}.

Abbreviation store := (tables * W)%type.
Abbreviation steps := (steps get scan_uuid uuid_text jsonb_in jsonb_out collate text_ok format_float holds).
Abbreviation step := (step get scan_uuid uuid_text jsonb_in jsonb_out collate text_ok format_float holds).
Abbreviation journal_ok := (journal_ok jsonb_out text_ok holds).

Lemma hydrate_settles id r r' d : settles r r' -> hydrateDecision jsonb_out id r = Some d ->
  exists d', hydrateDecision jsonb_out id r' = Some d' /\ settled d d'.
Proof.
  intros [->|[Hd [at_ ->]]] H; [exists d; split; [done|by left]|]. unfold hydrateDecision in *.
  cbn [finalized dc_account dc_thesis dc_alternatives dc_evidence dc_invalidation dc_start dc_end dc_amount dc_currency dc_measure
    dc_horizon dc_action dc_tags dc_status dc_author dc_metadata dc_snapshot dc_sequence dc_created dc_finalized].
  apply bind_Some in H as (a & -> & H). apply bind_Some in H as (b & -> & H). apply bind_Some in H as (c & -> & H).
  apply bind_Some in H as (m & -> & H). injection H as <-. eexists. split; [done|]. right. split; [exact Hd|]. by exists at_.
Qed.

Lemma get_answers rawID id r d t (w : W) : scan_uuid (trim_space rawID) = Some id -> decisions t !! id = Some r ->
  hydrateDecision jsonb_out id r = Some d -> run (Get true scan_uuid jsonb_out rawID) [] (t, w) = (Ok d, (t, w)).
Proof.
  intros Hid Hr Hd. unfold run, Get, parseUUID. rewrite Hid. unfold getDecision, bind, map_err, pool_stmt, guarded, next_fault, reads, on_tables, select_decision.
  cbn [faults committed fst snd]. rewrite Hr. cbn [fst snd]. unfold decoded. by rewrite Hd.
Qed.

Lemma timeline_answers rawID id r d t (w : W) : scan_uuid (trim_space rawID) = Some id -> decisions t !! id = Some r ->
  hydrateDecision jsonb_out id r = Some d ->
  run (Timeline true scan_uuid jsonb_out rawID) [] (t, w) = (Ok (mkTimeline d (select_events jsonb_out id t)), (t, w)).
Proof.
  intros Hid Hr Hd. unfold run, Timeline, parseUUID. rewrite Hid. cbn [negb].
  unfold getDecision, wrap, bind, map_err, begin, commit, stmt, guarded, next_fault, reads, on_tables, select_decision.
  cbn [faults committed working fst snd]. rewrite Hr. cbn [fst snd]. unfold decoded. by rewrite Hd.
Qed.

Lemma history s0 s s' : empty_journal s0 -> steps s0 s -> steps s s' ->
  journal_ok s /\ journal_ok s' /\ evolves (fst s) (fst s') /\ World.keeps holds (snd s) (snd s').
Proof.
  intros H0 H1 H2. destruct (steps_history get scan_uuid uuid_text jsonb_in jsonb_out collate text_ok format_float holds Hget s0 s) as (Hok & _ & _);
    [by apply empty_ok|done|].
  destruct (steps_history get scan_uuid uuid_text jsonb_in jsonb_out collate text_ok format_float holds Hget s s') as (Hok' & Hev & Hk); [done..|].
  by split_and!.
Qed.

(** ** Properties *)

(** C7: every history of journal calls, from an empty journal, with any failures
    and whatever the rest of the system does to the tables the journal reads,
    keeps the journal well formed: decision rows satisfy their checks and are
    drafts without evidence or finalized with the time and the one evidence row
    whose manifest names the decision's references in order and only raw objects
    the archive holds; reviews and amendments belong to decisions; and no two
    rows share a place in the timeline. *)
Theorem journal_invariant s0 s : empty_journal s0 -> steps s0 s -> journal_ok s.
Proof. intros H0 H. apply (history s0 s s H0 H). constructor. Qed.


(** C6: finalizing is all or nothing and seals the evidence.  In any history and
    whatever fails, a [Finalize] that reports an error leaves the tables as they
    were; one that answers found a draft without evidence and committed, together,
    the row finalized and an evidence row whose bytes are the encoding of a
    manifest sound for the decision: each reference resolved to the artifact it
    names, one snapshot of the account, one valuation of it and one completed
    stress run of both, every raw object behind the valuation's quotes and the
    run's metric inputs collected once and verified against the archive, and the
    hash the SHA-256 of those bytes. *)
Theorem finalize_seals s0 t w now rawID fs r t' w' : empty_journal s0 -> steps s0 (t, w) ->
  run (Finalize true get scan_uuid uuid_text jsonb_out collate now rawID) fs (t, w) = (r, (t', w')) ->
  match r with
  | Err _ => t' = t
  | Ok d => exists id row account m data, scan_uuid (trim_space rawID) = Some id /\
      decisions t !! id = Some row /\ dc_status row = StatusDraft /\ evidence t !! id = None /\
      canonicalUUID (dc_account row) = Some account /\
      manifest_sound uuid_text jsonb_out collate holds t w' id account (EvidenceReferences d) m /\ marshal_manifest m = Some data /\
      hydrateDecision jsonb_out id (finalized (pg_time (now 1%nat)) row) = Some d /\
      t' = set_decisions (set_evidence t (<[id := mkEvidenceRow data (sha256_hex data) (pg_time (now 0%nat))]> (evidence t)))
             (<[id := finalized (pg_time (now 1%nat)) row]> (decisions t))
  end.
Proof.
  intros H0 H E. destruct (history s0 (t, w) (t, w)) as (Hok & _); [done..|].
  apply (tx_run holds) with (1 := finalize_tx get scan_uuid uuid_text jsonb_out collate holds Hget now rawID t w (proj1 (ok_sources _ _ _ _ Hok)))
    in E as [_ E].
  destruct r as [d|e]; [|exact E]. destruct E as (id & row & account & m & data & Hid & Hr & Hst & Hd & Hev & Hacc & Hm & Hmar & ->).
  exists id, row, account, m, data. by split_and!.
Qed.

Lemma finalized_refused now rawID id r fs t w res_ t' w' : runs_identified t -> scan_uuid (trim_space rawID) = Some id ->
  decisions t !! id = Some r -> dc_status r = StatusFinalized ->
  run (Finalize true get scan_uuid uuid_text jsonb_out collate now rawID) fs (t, w) = (res_, (t', w')) -> is_ok res_ = false.
Proof.
  intros Hids Hid Hr Hst E.
  apply (tx_run holds) with (1 := finalize_tx get scan_uuid uuid_text jsonb_out collate holds Hget now rawID t w Hids) in E as [_ E].
  destruct res_ as [d|e]; [|done]. destruct E as (id' & r' & _ & _ & _ & Hid' & Hr' & Hst' & _).
  assert (id' = id) as -> by congruence. assert (r' = r) as -> by congruence. rewrite Hst in Hst'. done.
Qed.

(** C5: sealed evidence is given back.  Once a decision has been finalized, then
    after any further history every answer to a request for its evidence is the
    bytes that were sealed with their SHA-256, whatever fails; such an answer is
    given whenever nothing fails and the archive answers with what it holds; and
    no later call finalizes the decision again. *)
Theorem evidence_reconstructed s0 s now rawID fs d s1 s' : empty_journal s0 -> steps s0 s ->
  run (Finalize true get scan_uuid uuid_text jsonb_out collate now rawID) fs s = (Ok d, s1) -> steps s1 s' ->
  exists m data, marshal_manifest m = Some data /\ DecisionID m = ID d /\
    forall rawID', scan_uuid (trim_space rawID') = Some (ID d) ->
      (forall fs' sealed s2, run (EvidenceOf true get scan_uuid rawID') fs' s' = (Ok sealed, s2) -> sealed = mkSealed data (sha256_hex data)) /\
      (forall g, get = Some g -> available holds g ->
         exists w', run (EvidenceOf true get scan_uuid rawID') [] s' = (Ok (mkSealed data (sha256_hex data)), (fst s', w'))) /\
      (forall now' fs' r s2, run (Finalize true get scan_uuid uuid_text jsonb_out collate now' rawID') fs' s' = (r, s2) -> is_ok r = false).
Proof.
  intros H0 H E H'. assert (H1 : steps s0 s1).
  { eapply rtc_r; [exact H|]. pose proof (step_finalize get scan_uuid uuid_text jsonb_in jsonb_out collate text_ok format_float holds now rawID fs s) as Hst.
    by rewrite E in Hst. }
  destruct (history s0 s1 s') as (Hok1 & Hok' & Hevo & _); [done..|].
  destruct s as [t w], s1 as [t1 w1], s' as [t' w']. destruct (history s0 (t, w) (t, w)) as (Hok & _); [done..|].
  apply (tx_run holds) with (1 := finalize_tx get scan_uuid uuid_text jsonb_out collate holds Hget now rawID t w (proj1 (ok_sources _ _ _ _ Hok)))
    in E as (Hk & id & row & account & m & data & Hid & Hr & Hst & Hd & _ & _ & Hm & Hmar & Ht).
  apply hydrate_fields in Hd as (Hd & _). exists m, data. split; [done|]. split; [rewrite Hd; apply (sound_ids _ _ _ _ _ _ _ _ _ _ Hm)|].
  rewrite Hd. intros rawID' Hid'. cbn [fst snd] in *.
  assert (Hrow : decisions t1 !! id = Some (finalized (pg_time (now 1%nat)) row)) by (subst t1; cbn; apply lookup_insert_eq).
  assert (Hev : evidence t1 !! id = Some (mkEvidenceRow data (sha256_hex data) (pg_time (now 0%nat)))) by (subst t1; cbn; apply lookup_insert_eq).
  apply (lookup_weaken _ (evidence t')) in Hev; [|apply (ev_evidence _ _ Hevo)].
  destruct (ev_decisions _ _ Hevo _ _ Hrow) as (r' & Hr' & Hse). apply settles_status in Hse; [subst r'|done].
  destruct (ok_decisions _ _ _ _ Hok' id _ Hr') as [_ [[Hbad _]|(_ & _ & e & He & Hseal)]]; [done|]. cbn [fst snd] in He.
  rewrite Hev in He. injection He as <-.
  split_and!.
  - intros fs' sealed [t2 w2] E2.
    apply (tx_run holds) with (1 := evidence_tx get scan_uuid uuid_text holds Hget rawID' t' w') in E2 as (_ & -> & id2 & e2 & Hid2 & He2 & ->).
    assert (id2 = id) as -> by congruence. rewrite Hev in He2. by injection He2 as <-.
  - intros g Hg Hav. destruct Hseal as (m2 & refs & Hm2 & _ & Hdec & _ & _ & Hu & Hst2). cbn [ev_bytes ev_sha snd] in *.
    pose proof (scan_canonical (scan_uuid := scan_uuid) (uuid_text := uuid_text) _ _ Hid') as Hc.
    destruct (reconstruct_sealed get holds Hget t' w' g id m2 data _ Hg Hav Hc Hdec Hm2 Hu Hst2 Hev) as (w2 & _ & E2).
    exists w2. unfold EvidenceOf, parseUUID. rewrite Hid'. cbn [negb]. unfold run, map_err in *.
    destruct (Reconstruct _ _ _ _) as [r2 d2]. injection E2 as -> E2. by rewrite E2.
  - intros now' fs' r [t2 w2] E2. eapply finalized_refused; [exact (proj1 (ok_sources _ _ _ _ Hok'))|exact Hid'|exact Hr'|done|exact E2].
Qed.

(** A recorded decision is kept as it was made.  An answer to [Create] is a
    draft with the trimmed texts of the request, the account in the database's
    form, the horizon to the microsecond and a budget whose decimal has exactly
    the value requested, which is not negative; and after any further history
    [Get] answers that decision, at most finalized since. *)
Theorem create_kept s0 s id now request fs d s1 s' : empty_journal s0 -> steps s0 s ->
  run (Create true scan_uuid uuid_text jsonb_in jsonb_out text_ok format_float id now request) fs s = (Ok d, s1) -> steps s1 s' ->
  let rq := normalizeCreate request in
  ID d = id /\ uuid_text (CrAccountID rq) = Some (AccountID d) /\ Thesis d = CrThesis rq /\ IntendedAction d = CrIntendedAction rq /\
  Tags d = CrTags rq /\ Author d = CrAuthor rq /\ Status d = StatusDraft /\ FinalizedAt d = None /\ CreatedAt d = pg_time now /\
  DecisionHorizon d = mkHorizon (pg_time (At (CrStart rq))) (pg_time (At (CrEnd rq))) /\
  Currency (Budget d) = Currency (CrRiskBudget rq) /\ Measure (Budget d) = Measure (CrRiskBudget rq) /\
  BudgetHorizon (Budget d) = BudgetHorizon (CrRiskBudget rq) /\
  (exists asked kept, parse_rat (Amount (CrRiskBudget rq)) = Some asked /\ parse_rat (Amount (Budget d)) = Some kept /\
     (kept == asked)%Q /\ (0 <= asked)%Q) /\
  forall rawID, scan_uuid (trim_space rawID) = Some id ->
    exists d', run (Get true scan_uuid jsonb_out rawID) [] s' = (Ok d', s') /\ settled d d'.
Proof.
  intros H0 H E H' rq. assert (H1 : steps s0 s1).
  { eapply rtc_r; [exact H|]. pose proof (step_create get scan_uuid uuid_text jsonb_in jsonb_out collate text_ok format_float holds id now request fs s) as Hst.
    by rewrite E in Hst. }
  destruct s as [t w], s1 as [t1 w1], s' as [t' w'].
  apply create_decision_effect in E as [-> [[_ ?]|(r & Hr & Ht & Hd)]]; [done|]. specialize (proj1 (Hd d) eq_refl) as Hy. clear Hd.
  destruct (history s0 (t1, w) (t', w')) as (Hok & Hok' & Hevo & _); [done..|]. cbn [fst snd] in *.
  assert (Hrow : decisions t1 !! id = Some r) by (subst t1; cbn; apply lookup_insert_eq).
  destruct Hr as (Hv & _ & _ & (amount & a & b & c & m & n & Ha & Hpos & _ & Hdr) & _). fold rq in Hv, Ha, Hdr.
  assert (Hval : validPersistedDecimal (Amount (CrRiskBudget rq)) = true).
  { unfold validCreate in Hv. apply andb_prop in Hv as [Hv _]. apply andb_prop in Hv as [Hv _].
    apply negb_true_iff in Hv. apply orb_false_iff in Hv as [Hv _]. apply orb_false_iff in Hv as [_ Hv]. by apply negb_false_iff in Hv. }
  destruct (amount_exact _ _ Hval Ha) as (z & Hz1 & Hz2 & Hz3). unfold decision_row in Hdr.
  apply bind_Some in Hdr as (account & Hacc & Hdr). do 5 (apply bind_Some in Hdr as (? & _ & Hdr)).
  apply bind_Some in Hdr as (z' & Hz' & Hdr). assert (z' = z) as -> by congruence. injection Hdr as <-.
  destruct (ev_decisions _ _ Hevo _ _ Hrow) as (r' & Hr' & Hs). destruct (hydrate_settles _ _ _ _ Hs Hy) as (d' & Hd' & Hse).
  unfold hydrateDecision in Hy. do 4 (apply bind_Some in Hy as (? & _ & Hy)). injection Hy as <-.
  split_and!; try done.
  - exists amount, (z # Z.to_pos scale18). split; [exact Hz1|]. split; [apply parse_fixed18|]. split; [by rewrite Hz2|].
    unfold Qle. cbn. lia.
  - intros rawID Hid. exists d'. split; [by eapply get_answers|exact Hse].
Qed.
End journal.

(** ** A concrete history

    A decision on one snapshot, its valuation and a stress run whose metrics rest
    on one price, over the bucket of [ArchiveProofs]. *)

#[export] Instance canonical_driver : UuidDriver canonicalUUID canonicalUUID.
Proof. split; [|done]. intros v id H. by apply canonical_spec in H as (H & _). Qed.

(** A printer of documents. *)
Fixpoint print_json (j : json) : string :=
  match j with
  | JNull => "null"
  | JBool b => if b then "true" else "false"
  | JNumber text => text
  | JString s => marshal_text s
  | JArray l => array_text (print_json <$> l)
  | JObject fields => object_text ((fun kv => (fst kv, print_json (snd kv))) <$> fields)
  end.

Module demo.

Definition uuid (n : string) : string := "00000000-0000-0000-0000-0000000000" +:+ n.

Definition raw_sha : string := Eval vm_compute in sha256_hex "quotes".
Definition raw_key : string := Eval vm_compute in Archive.ObjectKey (sha256_hex "quotes").
Definition bucket : gmap string Archive.S3Object := {[ raw_key := Archive.mkS3Object "quotes" "text/csv" ∅ ]}.

Definition price_entry : json := JObject [("id", JString (uuid "0a")); ("observation_time", JString "1970-01-01T00:00:00Z");
  ("price", JString "10.000000000000000000"); ("price_quote_currency", JString "USD"); ("source_known_at", JNull);
  ("system_known_at", JString "1970-01-01T00:00:00Z"); ("knowledge_time_basis", JString "source");
  ("usd_price", JString "10"); ("fx_path", JArray [])].

Definition inputs : json := JObject [
  ("price_history", JObject [(uuid "09", JObject [("1970-01-01", JString "10")])]);
  ("price_revision_history", JObject [(uuid "09", JArray [price_entry])])].

Definition demo_sources : source_tables :=
  mkSources {[ uuid "01" := uuid "02" ]} {[ uuid "03" := mkSnapshot (uuid "02") (JObject [("id", JString (uuid "03"))]) ]} ∅
    {[ uuid "04" := mkValuation (uuid "03") "valid" (JObject [("id", JString (uuid "04"))]) ]}
    {[ uuid "05" := mkValuationLine (uuid "04") (Some (uuid "0a")) [] [] (JObject []) ]}
    {[ uuid "06" := mkScenarioRun (uuid "07") 1 (uuid "01") (uuid "03") (Some (uuid "04")) (uuid "08") "valid" (Some (JObject []))
         (Some "hash") (Some 0) (JObject [("input_provenance", JObject [("metric_inputs", inputs)])]) ]}
    {[ (uuid "07", 1) := JObject [] ]}
    {[ uuid "08" := mkJob "succeeded" (Some (JObject [("engine_version", JString "1")])) (Some "hash") (JObject []) ]}
    ∅ ∅ {[ uuid "0b" := mkRaw raw_key raw_sha ]} ∅
    {[ uuid "0a" := mkPrice (uuid "09") 0 (10 * 10 ^ 18) "USD" None 0 "source" (uuid "0b") (JObject []) ]}
    ∅ {[ uuid "09" := ("equity", "USD") ]}.

Definition empty_tables : tables := mkTables demo_sources ∅ ∅ ∅ ∅ 1.

Definition request : CreateRequest :=
  mkCreateRequest (uuid "01") " hold " ["sell"]
    [mkEvidenceRef "portfolio_snapshot" (uuid "03") ""; mkEvidenceRef "valuation_run" (uuid "04") "";
     mkEvidenceRef "risk_run" (uuid "06") "stress"]
    [mkInvalidation "drawdown" "" ""] (mkStamp 0 0) (mkStamp 1000000000 0) (mkRiskBudget "2.50" "usd" "var" "1d") "buy" ["a"] "ann" None.

Abbreviation W := (gmap string Archive.S3Object).
Definition get : option (string -> W -> res (res string) * W) := Some Archive.Get.
Definition floats (_ : SpecFloat.spec_float) : string := "0".
Definition held : W -> string -> string -> Prop := readable id.

Abbreviation create := (Create (W := W) true canonicalUUID canonicalUUID parse_json print_json (fun _ => true) floats (uuid "10") 0 request).
Abbreviation finalize := (Finalize true get canonicalUUID canonicalUUID print_json string_cmp (fun _ => 5000) (uuid "10")).
Abbreviation review := (AddReview (W := W) true canonicalUUID canonicalUUID parse_json print_json (fun _ => true) floats (uuid "11") 9000
  (uuid "10") (mkReviewRequest "right" "gain" "bob" None)).
Abbreviation timeline := (Timeline (W := W) true canonicalUUID print_json (uuid "10")).

Definition start : tables * W := (empty_tables, bucket).
Definition decided : tables * W := Eval vm_compute in snd (run create [] start).
Definition final : tables * W := Eval vm_compute in snd (run finalize [] decided).
Definition reviewed : tables * W := Eval vm_compute in snd (run review [] final).

Abbreviation steps := (steps get canonicalUUID canonicalUUID parse_json print_json string_cmp (fun _ => true) floats held).

Lemma reader g : get = Some g -> Archive.ArchiveReader g held.
Proof. intros [= <-]. exact (s3_archive_reader id). Qed.

Lemma served : available held Archive.Get.
Proof.
  intros w key body [Hk (o & Ho & Hb)]. unfold Archive.Get. rewrite Hk. cbn. unfold id in Ho. rewrite Ho. exists w. by rewrite <- Hb.
Qed.

Lemma start_empty : empty_journal start.
Proof.
  split; [|by split_and!]. split.
  - intros i r H. cbn [start fst sources empty_tables demo_sources scenario_runs] in H. by apply lookup_singleton_Some in H as [<- <-].
  - intros i r H. cbn [start fst sources empty_tables demo_sources raw_objects] in H. apply lookup_singleton_Some in H as [<- <-].
    vm_compute. by split_and!.
Qed.

Lemma create_run : exists d, run create [] start = (Ok d, decided).
Proof. run_vm decided. Qed.
Lemma finalize_run : exists d, run finalize [] decided = (Ok d, final).
Proof. run_vm final. Qed.
Lemma review_run : exists v, run review [] final = (Ok v, reviewed).
Proof. run_vm reviewed. Qed.
Lemma timeline_run : exists tl, run timeline [] decided = (Ok tl, decided).
Proof. run_vm decided. Qed.

Lemma to_decided : steps start decided.
Proof.
  destruct create_run as [d E]. apply rtc_once.
  pose proof (step_create get canonicalUUID canonicalUUID parse_json print_json string_cmp (fun _ => true) floats held (uuid "10") 0 request [] start) as H.
  rewrite E in H. exact H.
Qed.
Lemma to_final : steps decided final.
Proof.
  destruct finalize_run as [d E]. apply rtc_once.
  pose proof (step_finalize get canonicalUUID canonicalUUID parse_json print_json string_cmp (fun _ => true) floats held (fun _ => 5000) (uuid "10") [] decided) as H.
  rewrite E in H. exact H.
Qed.
Lemma to_reviewed : steps final reviewed.
Proof.
  destruct review_run as [v E]. apply rtc_once.
  pose proof (step_review get canonicalUUID canonicalUUID parse_json print_json string_cmp (fun _ => true) floats held (uuid "11") 9000 (uuid "10")
    (mkReviewRequest "right" "gain" "bob" None) [] final) as H.
  rewrite E in H. exact H.
Qed.

End demo.
Import demo.

Lemma journal_invariant_witness : steps start reviewed /\ journal_ok print_json (fun _ => true) held reviewed.
Proof.
  assert (H : steps start reviewed) by (etransitivity; [apply to_decided|etransitivity; [apply to_final|apply to_reviewed]]).
  split; [exact H|].
  exact (journal_invariant get canonicalUUID canonicalUUID parse_json print_json string_cmp (fun _ => true) floats held reader
           start reviewed start_empty H).
Defined.


Lemma finalize_seals_witness : exists d, run finalize [] decided = (Ok d, final) /\ exists account m data,
  manifest_sound canonicalUUID print_json string_cmp held (fst decided) (snd final) (uuid "10") account (EvidenceReferences d) m /\
  marshal_manifest m = Some data /\ evidence (fst final) !! uuid "10" = Some (mkEvidenceRow data (sha256_hex data) 5000).
Proof.
  destruct finalize_run as [d E]. exists d. split; [exact E|].
  destruct (finalize_seals get canonicalUUID canonicalUUID parse_json print_json string_cmp (fun _ => true) floats held reader
    start (fst decided) (snd decided) (fun _ => 5000) (uuid "10") [] (Ok d) (fst final) (snd final) start_empty to_decided E)
    as (id & row & account & m & data & Hid & _ & _ & _ & _ & Hm & Hmar & _ & Ht).
  assert (Hu : canonicalUUID (trim_space (uuid "10")) = Some (uuid "10")) by (vm_compute; reflexivity).
  rewrite Hu in Hid. injection Hid as Hid. rewrite <- Hid in Hm, Ht. exists account, m, data. split; [exact Hm|]. split; [exact Hmar|].
  rewrite Ht. apply lookup_insert_eq.
Defined.

Lemma evidence_reconstructed_witness : exists d m data, run finalize [] decided = (Ok d, final) /\ marshal_manifest m = Some data /\
  (exists w', run (EvidenceOf true get canonicalUUID (uuid "10")) [] reviewed = (Ok (mkSealed data (sha256_hex data)), (fst reviewed, w'))) /\
  is_ok (fst (run finalize [] reviewed)) = false.
Proof.
  destruct finalize_run as [d E]. exists d.
  destruct (evidence_reconstructed get canonicalUUID canonicalUUID parse_json print_json string_cmp (fun _ => true) floats held reader
    start decided (fun _ => 5000) (uuid "10") [] d final reviewed start_empty to_decided E to_reviewed) as (m & data & Hm & _ & H).
  exists m, data. split; [exact E|]. split; [exact Hm|].
  destruct (H (uuid "10")) as (_ & H1 & H2).
  { destruct finalize_run as [d' E']. rewrite E in E'. injection E' as E'.
    assert (Hid : forall d2, fst (run finalize [] decided) = Ok d2 -> canonicalUUID (trim_space (uuid "10")) = Some (ID d2)).
    { intros d2. vm_compute. intros [= <-]. reflexivity. }
    apply Hid. by rewrite E. }
  split; [exact (H1 Archive.Get eq_refl served)|].
  destruct (run finalize [] reviewed) as [r s2] eqn:E2. exact (H2 (fun _ => 5000) [] r s2 E2).
Defined.

Lemma create_kept_witness : exists d d', run create [] start = (Ok d, decided) /\
  run (Get true canonicalUUID print_json (uuid "10")) [] reviewed = (Ok d', reviewed) /\ settled d d' /\ Thesis d = "hold" /\
  exists kept, parse_rat (Amount (Budget d)) = Some kept /\ (kept == 5 # 2)%Q.
Proof.
  destruct create_run as [d E]. exists d.
  destruct (create_kept get canonicalUUID canonicalUUID parse_json print_json string_cmp (fun _ => true) floats held reader
    start start (uuid "10") 0 request [] d decided reviewed start_empty (rtc_refl _ _) E) as (_ & _ & Ht & _ & _ & _ & _ & _ & _ & _ & _ & _ & _ & Ha & H).
  { etransitivity; [apply to_final|apply to_reviewed]. }
  destruct (H (uuid "10")) as (d' & Hg & Hs); [vm_compute; reflexivity|]. exists d'. split; [exact E|]. split; [exact Hg|]. split; [exact Hs|].
  split; [rewrite Ht; vm_compute; reflexivity|]. destruct Ha as (asked & kept & H1 & H2 & H3 & _). exists kept. split; [exact H2|].
  rewrite H3. assert (Hasked : parse_rat (Amount (CrRiskBudget (normalizeCreate request))) = Some (250 # 100)%Q) by (vm_compute; reflexivity).
  rewrite Hasked in H1. injection H1 as <-. reflexivity.
Defined.
