(* ===== verification/ScenarioModel.v ===== *)
(** The data of the scenario service (internal/application/scenarios/service.go):
    requests and answers, the revisions of metric histories, and the tables it
    writes (db/migrations/00009 and 00012).

    The store holds the tables of the valuation service, the columns of theirs
    only this service reads, the scenario tables and the job queue.  A row of
    [scenario_runs] has its lifecycle columns in the queue's store and the
    others here, and [risk_jobs.input_hash] is kept beside the queue's rows. *)

From S2P Require Import Prelude GoString Digits GoTime Json JsonTree Tables Jobs.
From Stdlib Require Import Ascii.

Module Scenario.

(** ** Requests and answers; a map that is nil is [None] *)

Record VersionInput : Type := mkVersionInput {
  AccountID : string;
  SnapshotID : string;
  ValuationID : string;
  ScenarioID : string;
  Name : string;
  TemplateKey : string;
  IdempotencyKey : string;
  Units : option (list (string * goval));
  Shocks : option (list (string * goval));
  Mappings : option (list (string * goval));
  Assumptions : option (list (string * goval));
}.

Record Run : Set := mkRun {
  RunID : string;
  RunScenarioID : string;
  ScenarioVer : Z;
  RunJobID : string;
  ContentSHA256 : string;
}.

(** ** Revisions of a metric history *)

Record metricFXRevision : Set := mkFXRevision {
  FXID : string;
  Pair : string;
  Direction : string;
  FXObservationTime : time;
  Rate : string;
  FXSourceKnownAt : option time;
  FXSystemKnownAt : time;
  FXBasis : string;
}.

Record metricPriceRevision : Set := mkPriceRevision {
  PriceID : string;
  ObservationTime : time;
  Price : string;
  QuoteCurrency : string;
  USDPrice : string;
  FXPath : list metricFXRevision;
  SourceKnownAt : option time;
  SystemKnownAt : time;
  KnowledgeTimeBasis : string;
}.

Record sealedValuation : Type := mkSealed {
  Positions : list goval;
  Provenance : list (string * goval);
  MetricInputs : list (string * goval);
}.

(** ** Tables *)

Record ScenarioRow : Set := mkScenarioRow {
  sc_account : string;
  sc_name : string;
  sc_template : string;
  sc_version : Z;
  sc_created : time;
}.

Record VersionRow : Type := mkVersionRow {
  sv_template : string;
  sv_units : json;
  sv_shocks : json;
  sv_mappings : json;
  sv_assumptions : json;
  sv_hash : string;
  sv_created : time;
}.

(** The identity of a run, which no statement changes; [None] for the runs that
    predate the binding to a valuation. *)
Record RunRow : Type := mkRunRow {
  sr_scenario : string;
  sr_version : Z;
  sr_account : string;
  sr_snapshot : string;
  sr_valuation : option string;
  sr_job : string;
  sr_provenance : json;
  sr_request_hash : string;
  sr_created : time;
}.

Record store : Type := mkStore {
  base : tables;
  line_terms : gmap string (option Z * option Z);  (* duration and convexity of a snapshot line *)
  price_basis : gmap string string;                (* knowledge_time_basis *)
  fx_basis : gmap string string;
  scenarios : gmap string ScenarioRow;
  versions : gmap (string * Z) VersionRow;
  run_rows : gmap string RunRow;
  queue : Jobs.store;
  input_hashes : gmap string string;               (* by job *)
}.

Definition set_scenarios (s : store) m :=
  mkStore (base s) (line_terms s) (price_basis s) (fx_basis s) m (versions s) (run_rows s) (queue s) (input_hashes s).
Definition set_versions (s : store) m :=
  mkStore (base s) (line_terms s) (price_basis s) (fx_basis s) (scenarios s) m (run_rows s) (queue s) (input_hashes s).
Definition set_runs (s : store) m q :=
  mkStore (base s) (line_terms s) (price_basis s) (fx_basis s) (scenarios s) (versions s) m q (input_hashes s).
Definition set_queue (s : store) q h :=
  mkStore (base s) (line_terms s) (price_basis s) (fx_basis s) (scenarios s) (versions s) (run_rows s) q h.

End Scenario.
