(* ===== verification/ScenarioInputs.v ===== *)
(** What the scenario service computes (internal/application/scenarios/service.go):
    the checks on a request, the daily price histories behind a sealed
    valuation, their conversion to US dollars and the net asset values they
    give. *)

From S2P Require Import Prelude GoString Digits GoTime TimeText Decimal Order Paging Json ScenarioModel.
From Stdlib Require Import Ascii QArith.
#[local] Open Scope Z_scope.

Module ScenarioInputs.
Import Scenario.

(** ** Requests *)

Definition ErrInvalidRequest : goerr := ENew "invalid scenario request".
Definition ErrNameConflict : goerr := ENew "scenario name already exists for account".

(** The error carries the identifier of the existing scenario and unwraps to
    [ErrNameConflict]. *)
Definition NameConflictError (scenarioID : string) : goerr := EWrap scenarioID ErrNameConflict.

Definition maxMetricInstruments : Z := 256.

Definition validateDecimalShock (value : string) : option Q :=
  match chars value with
  | [] => None
  | c :: r =>
      let unsigned := if Ascii.eqb c "-" then r else c :: r in
      if bool_decide (unsigned = []) then None
      else
        let parts := split_char "." unsigned in
        let whole := default [] (parts !! 0%nat) in
        let fraction := default [] (parts !! 1%nat) in
        if (2 <? length parts)%nat || bool_decide (whole = []) || (20 <? length whole)%nat
           || ((length parts =? 2)%nat && (bool_decide (fraction = []) || (18 <? length fraction)%nat))
        then None
        else if (1 <? length whole)%nat && bool_decide (head whole = Some "0"%char) then None
        else if negb (forallb all_digits parts) then None
        else set_string (chars value)
  end.

Definition map_field (field : string) : bool :=
  bool_decide (field ∈ ["fx_pair_changes"; "asset_class_returns"; "yield_shifts_bps"; "volatility_multipliers"]).

Definition correlation_field (field : string) : bool :=
  bool_decide (field ∈ ["correlation_target"; "correlation_blend"]).

Definition scalar_field (field : string) : bool :=
  correlation_field field || bool_decide (field ∈ ["crypto_return"; "rate_bps"]).

Definition map_shock_ok (field : string) (parsed : Q) : bool :=
  if bool_decide (field = "fx_pair_changes") then negb (Qle_bool parsed (-1))
  else if bool_decide (field = "asset_class_returns") then Qle_bool (-1) parsed
  else if bool_decide (field = "volatility_multipliers") then Qle_bool 0 parsed
  else true.

Definition scalar_shock_ok (field : string) (parsed : Q) : bool :=
  if bool_decide (field = "correlation_target") then Qle_bool (-1) parsed && Qle_bool parsed 1
  else if bool_decide (field = "correlation_blend") then Qle_bool 0 parsed && Qle_bool parsed 1
  else true.

(** A decimal text that passes a test. *)
Definition decimal_ok (ok : Q -> bool) (value : goval) : bool :=
  match value with
  | VStr text => match validateDecimalShock text with Some parsed => ok parsed | None => false end
  | _ => false
  end.

Definition shock_ok (field : string) (value : goval) : bool :=
  if negb (map_field field) && negb (scalar_field field) then false
  else
    match value with
    | VNil => correlation_field field
    | VMap nested =>
        if negb (map_field field) then false
        else forallb (fun kv => decimal_ok (map_shock_ok field) (snd kv)) nested
             && forallb (fun kv => negb (bool_decide (trim_space (fst kv) = ""))) nested
    | _ => if map_field field then false else decimal_ok (scalar_shock_ok field) value
    end.

Definition validateShocks (values : list (string * goval)) : bool :=
  forallb (fun kv => shock_ok (fst kv) (snd kv)) values.

Definition valid (input : VersionInput) : bool :=
  if bool_decide (AccountID input = "") || bool_decide (SnapshotID input = "") || bool_decide (ValuationID input = "")
     || bool_decide (trim_space (Name input) = "") || bool_decide (IdempotencyKey input = "")
  then false
  else if negb (bool_decide (TemplateKey input ∈ ["try_depreciation"; "rates_up"; "risk_off"])) then false
  else bool_decide (is_Some (Units input)) && validateShocks (default [] (Shocks input))
       && bool_decide (is_Some (Mappings input)) && bool_decide (is_Some (Assumptions input)).

Section identifiers.
(** The UUID scanner of the driver: the canonical text. *)
Context (scan_uuid : string -> option string).

Definition canonicalUUID (value : string) : option string := scan_uuid (trim_space value).

Definition canonicalizeInputIDs (input : VersionInput) : option VersionInput :=
  account ← canonicalUUID (AccountID input);
  snapshot ← canonicalUUID (SnapshotID input);
  valuation ← canonicalUUID (ValuationID input);
  scenario ← (if bool_decide (ScenarioID input = "") then Some "" else canonicalUUID (ScenarioID input));
  Some (mkVersionInput account snapshot valuation scenario (Name input) (TemplateKey input) (IdempotencyKey input)
          (Units input) (Shocks input) (Mappings input) (Assumptions input)).
End identifiers.

(** A map as the encoder sees it. *)
Definition any_map (m : option (list (string * goval))) : goval := match m with Some m => VMap m | None => VNil end.

Definition preShockMetricsUnavailable : list (string * goval) :=
  [("data_quality", VStr "blocked"); ("reason", VStr "PRE_SHOCK_METRICS_INPUT_HISTORY_UNAVAILABLE");
   ("metric_engine", VStr "AR-302");
   ("missing_inputs", VArr [VStr "point_in_time_price_history"; VStr "point_in_time_nav_history"; VStr "signed_exposures"])].

Definition assetClass (instrumentType : string) : string :=
  if bool_decide (instrumentType = "crypto_spot") then "crypto"
  else if bool_decide (instrumentType = "equity_spot") then "equity"
  else if bool_decide (instrumentType = "fixed_rate_bond") then "fixed_rate_bond"
  else if bool_decide (instrumentType ∈ ["cash"; "currency"]) then "cash"
  else "".

(** ** Conversion paths

    A [pgtype.UUID] is its text, [None] when it is not valid. *)

Definition uuid_string (id : option string) : string := default "" id.

Definition validateFXPath (ids : list (option string)) (directions : list string) (pairs : gmap string string) : bool :=
  (length ids =? length directions)%nat
  && forallb (fun '(id, direction) =>
       bool_decide (is_Some id)
       && (bool_decide (direction = "forward") || bool_decide (direction = "reverse"))
       && match pairs !! uuid_string id with Some name => negb (bool_decide (trim_space name = "")) | None => false end)
     (zip ids directions).

Definition path_entry (pairs : gmap string string) (id : option string) (direction : string) : goval :=
  VMap [("quote_revision_id", VStr (uuid_string id)); ("pair", VStr (default "" (pairs !! uuid_string id)));
        ("direction", VStr direction)].

Definition fxPathMaps (ids : list (option string)) (directions : list string) (pairs : gmap string string) : res (list goval) :=
  if negb (validateFXPath ids directions pairs) then Err ErrInvalidRequest
  else Ok (zip_with (fun id direction =>
             path_entry pairs id (if bool_decide (direction = "forward") then "direct" else "inverse")) ids directions).

Definition fxEvidence (ids : list (option string)) (directions : list string) (pairs : gmap string string) : res (list goval) :=
  if negb (validateFXPath ids directions pairs) then Err ErrInvalidRequest
  else Ok (zip_with (path_entry pairs) ids directions).

(** ** Selecting a conversion quote *)

Definition known_before (x y : metricFXRevision) : bool :=
  if negb (FXSystemKnownAt x =? FXSystemKnownAt y) then After (FXSystemKnownAt x) (FXSystemKnownAt y)
  else string_ltb (FXID x) (FXID y).

(** The comparison of the candidates.  Two candidates of which only one has a
    source time are compared by their system times alone, so the comparison
    need not be an order: see [fx_before_cycle]. *)
Definition fx_before (x y : metricFXRevision) : bool :=
  if negb (FXObservationTime x =? FXObservationTime y) then After (FXObservationTime x) (FXObservationTime y)
  else match FXSourceKnownAt x, FXSourceKnownAt y with
       | Some a, Some b => if negb (a =? b) then After a b else known_before x y
       | _, _ => known_before x y
       end.

Definition fx_candidate (direction : string) (observationTime : time) (maxAgeSeconds : Z) (r : metricFXRevision) : bool :=
  bool_decide (Direction r = direction) && negb (After (FXObservationTime r) observationTime)
  && (Sub observationTime (FXObservationTime r) <=? wrap64 (maxAgeSeconds * Second)).

Definition selectOrientation (history : list metricFXRevision) (observationTime : time) (maxAgeSeconds : Z) (direction : string)
    : option metricFXRevision :=
  head (insertion_sort fx_before (List.filter (fx_candidate direction observationTime maxAgeSeconds) history)).

Definition selectMetricFXRevision (history : list metricFXRevision) (observationTime : time) (maxAgeSeconds : Z)
    : option metricFXRevision :=
  match selectOrientation history observationTime maxAgeSeconds "direct" with
  | Some selected => Some selected
  | None => selectOrientation history observationTime maxAgeSeconds "inverse"
  end.

Definition convertMetricPriceToUSD (price rate direction : string) : res string :=
  match positive_rat price with
  | None => Err ErrInvalidRequest
  | Some p =>
      match positive_rat rate with
      | None => Err ErrInvalidRequest
      | Some r =>
          if bool_decide (direction = "direct") then Ok (FloatString18 (p * r))
          else if bool_decide (direction = "inverse") then Ok (FloatString18 (p / r))
          else Err ErrInvalidRequest
      end
  end.

(** ** Histories *)

Definition price_before (x y : metricPriceRevision) : bool :=
  if ObservationTime x =? ObservationTime y then string_ltb (PriceID x) (PriceID y)
  else Before (ObservationTime x) (ObservationTime y).

(** The first revision of each observation time, in order. *)
Definition selectMetricPriceRevisions (revisions : list metricPriceRevision) : list metricPriceRevision :=
  distinct_on (fun x y => ObservationTime x =? ObservationTime y) (insertion_sort price_before revisions).

Definition daily_price (r : metricPriceRevision) : string :=
  if bool_decide (USDPrice r = "") then Price r else USDPrice r.

Definition aggregateMetricPriceHistory (revisions : list metricPriceRevision) : gmap string string :=
  fold_left (fun history r => <[utc_date (ObservationTime r) := daily_price r]> history)
    (selectMetricPriceRevisions revisions) ∅.

Definition any_time (t : option time) : goval := match t with Some t => VStr (format_rfc3339nano t) | None => VNil end.

Definition fx_revision_map (r : metricFXRevision) : list (string * goval) :=
  [("id", VStr (FXID r)); ("pair", VStr (Pair r)); ("direction", VStr (Direction r));
   ("observation_time", VStr (format_rfc3339nano (FXObservationTime r))); ("rate", VStr (Rate r));
   ("source_known_at", any_time (FXSourceKnownAt r)); ("system_known_at", VStr (format_rfc3339nano (FXSystemKnownAt r)));
   ("knowledge_time_basis", VStr (FXBasis r))].

Definition metricFXRevisionMaps (revisions : list metricFXRevision) : list goval := VMap ∘ fx_revision_map <$> revisions.

Definition price_revision_map (r : metricPriceRevision) : list (string * goval) :=
  [("id", VStr (PriceID r)); ("observation_time", VStr (format_rfc3339nano (ObservationTime r))); ("price", VStr (Price r));
   ("price_quote_currency", VStr (QuoteCurrency r)); ("usd_price", VStr (USDPrice r));
   ("source_known_at", any_time (SourceKnownAt r)); ("system_known_at", VStr (format_rfc3339nano (SystemKnownAt r)));
   ("knowledge_time_basis", VStr (KnowledgeTimeBasis r)); ("fx_path", VArr (metricFXRevisionMaps (FXPath r)))].

Definition metricPriceRevisionMaps (revisions : list metricPriceRevision) : list goval :=
  VMap ∘ price_revision_map <$> selectMetricPriceRevisions revisions.

(** A unit of cash, priced on the days of its conversion quotes. *)
Definition cash_revision (currency usdPrice : string) (selected : metricFXRevision) : metricPriceRevision :=
  mkPriceRevision (FXID selected) (FXObservationTime selected) "1" currency usdPrice [selected] (FXSourceKnownAt selected)
    (FXSystemKnownAt selected) (FXBasis selected).

Fixpoint cash_days (currency : string) (fxHistory : list metricFXRevision) (maxAgeSeconds : Z) (seen : gset string)
    (rest : list metricFXRevision) : res (list metricPriceRevision) :=
  match rest with
  | [] => Ok []
  | revision :: rest =>
      let day := utc_date (FXObservationTime revision) in
      if bool_decide (day ∈ seen) then cash_days currency fxHistory maxAgeSeconds seen rest
      else
        match selectMetricFXRevision fxHistory (FXObservationTime revision) maxAgeSeconds with
        | None => cash_days currency fxHistory maxAgeSeconds seen rest
        | Some selected =>
            let! usdPrice := convertMetricPriceToUSD "1" (Rate selected) (Direction selected) in
            let! history := cash_days currency fxHistory maxAgeSeconds ({[day]} ∪ seen) rest in
            Ok (cash_revision currency usdPrice selected :: history)
        end
  end.

Definition buildCashMetricHistory (currency : string) (fxHistory : list metricFXRevision) (maxAgeSeconds : Z)
    : res (list metricPriceRevision) := cash_days currency fxHistory maxAgeSeconds ∅ fxHistory.

(** *** Constant cash *)

(** The loop over the days back from day number [today]; [fuel] bounds it, and
    seven days for six dates are enough ([cash_dates_enough]). *)
Fixpoint dates_back (fuel : nat) (today offset : Z) (observations : nat) (dates : gset string) : option (gset string) :=
  if (observations <=? size dates)%nat then Some dates
  else match fuel with
       | O => None
       | S fuel' =>
           let day := today - offset in
           if 6 <=? weekday_of_days day then dates_back fuel' today (offset + 1) observations dates
           else dates_back fuel' today (offset + 1) observations ({[format_date (civil_from_days day)]} ∪ dates)
       end.

Definition parse_cutoff (cutoff : string) : option time :=
  match time_parse cutoff with Some t => Some t | None => time_parse_spaced cutoff end.

Definition constantCashDates (cutoff : string) (observations : Z) : option (gset string) :=
  if observations <? 1 then Some ∅
  else match parse_cutoff cutoff with
       | None => Some ∅
       | Some parsed => dates_back (2 * Z.to_nat observations) (parsed / day_ns) 0 (Z.to_nat observations) ∅
       end.

Definition constant_cash_id (instrumentID day : string) : string := "cash-constant:" +:+ instrumentID +:+ ":" +:+ day.

Definition constant_revision (instrumentID day : string) : res metricPriceRevision :=
  match parse_day day with
  | Some n => Ok (mkPriceRevision (constant_cash_id instrumentID day) (n * day_ns) "1" "USD" "1" [] None zero_time
                    "constant_cash")
  | None => Err (EWrap "parse constant cash day" (ENew "parsing time"))
  end.

Fixpoint constant_history (instrumentID : string) (days : list string) : res (list metricPriceRevision) :=
  match days with
  | [] => Ok []
  | day :: days =>
      let! r := constant_revision instrumentID day in
      let! rest := constant_history instrumentID days in
      Ok (r :: rest)
  end.

(** [sort.Strings] on the keys. *)
Definition sortedKeys (values : gset string) : list string := insertion_sort string_ltb (elements values).

(** ** Net asset values *)

(** The days every history has. *)
Definition common_days (histories : list (string * gmap string string)) : gset string :=
  match histories with
  | [] => ∅
  | (_, h) :: rest => fold_left (fun days kv => filter (fun day => is_Some (snd kv !! day)) days) rest (dom h)
  end.

Definition nav_term (quantities : gmap string string) (day : string) (total : option Q) (kv : string * gmap string string)
    : option Q :=
  total ← total;
  quantity ← set_string (chars (default "" (quantities !! fst kv)));
  price ← positive_rat (default "" (snd kv !! day));
  Some (total + quantity * price)%Q.

Definition nav_day (histories : list (string * gmap string string)) (quantities : gmap string string) (day : string)
    : option (string * string) :=
  total ← fold_left (nav_term quantities day) histories (Some 0%Q);
  Some (day, FloatString18 total).

(** [None] for the errors, which the caller only tells from success. *)
Definition buildMetricNAV (priceHistory : gmap string (gmap string string)) (quantities : gmap string string)
    : option (gmap string string) :=
  let histories := map_to_list priceHistory in
  if existsb (fun kv => bool_decide (quantities !! fst kv = None) || bool_decide (snd kv = ∅)) histories then None
  else
    let days := common_days histories in
    if bool_decide (days = ∅) then None
    else list_to_map <$> mapM (nav_day histories quantities) (elements days).

End ScenarioInputs.
