(* ===== verification/Scenarios.v ===== *)
(** The scenario service's transaction (internal/application/scenarios/service.go):
    sealing the inputs of a valuation with the price histories behind it, and
    recording a new version of a scenario with the run and the job that
    revalues it.

    The UUID scanner, the casts of the database between text and TIMESTAMPTZ or
    JSONB, the texts it accepts, the identifiers it draws, its clock and the
    decimal text of a non-integral float are parameters.  The session's time
    zone is one of a constant offset, where 730 days are 730 times 24 hours. *)

From S2P Require Import Prelude GoString Digits GoTime TimeText Sha256 Decimal Order Paging Db Json JsonTree.
From S2P Require Import Tables Jobs ScenarioModel ScenarioInputs.
From Stdlib Require Import Ascii QArith SpecFloat.
#[local] Open Scope Z_scope.

Module Scenarios.
Import Scenario ScenarioInputs.

(** ** Rows of the sealed valuation *)

Record header : Set := mkHeader {
  hd_snapshot : string;
  hd_state : string;
  hd_cutoff : string;
  hd_mode : string;
  hd_known_at : string;
  hd_price_age : Z;
  hd_fx_age : Z;
  hd_hash : string;
}.

(** The variables a failed scan leaves. *)
Definition no_header : header := mkHeader "" "" "" "" "" 0 0 "".

Record sealedValuationLine : Set := mkSealedLine {
  lineID : string;
  instrumentID : string;
  instrumentType : string;
  nativeCurrency : string;
  quantity : string;
  duration : option string;
  convexity : option string;
  tryAmount : option string;
  usdAmount : option string;
  lineState : string;
  lineReasons : list Reason;
  priceMethod : string;
  priceID : option string;
  quoteUnit : option string;
  tryIDs : list (option string);
  tryDirections : list string;
  usdIDs : list (option string);
  usdDirections : list string;
}.

(** [json.Unmarshal] of the reasons into a list of strings: a reason is stored as
    an object, which is not one. *)
Definition decode_reasons (reasons : list Reason) : res (list string) :=
  match reasons with
  | [] => Ok []
  | _ => Err (EWrap "decode sealed valuation reasons" (ENew "json: cannot unmarshal object into Go value of type string"))
  end.

(** ** What the lines contribute *)

Record metrics : Type := mkMetrics {
  metricPrices : gmap string (gmap string string);
  metricPriceProvenance : gmap string (list goval);
  metricCashProvenance : gmap string (list goval);
  metricFXHistories : gmap string (list metricFXRevision);
  metricQuantities : gmap string string;
  metricDates : gset string;
  constantCash : gset string;
  metricInputsAvailable : bool;
}.

Record bundle : Type := mkBundle {
  positions : list goval;
  provenanceLines : list goval;
  metricExposures : gmap string string;
  metricCalendar : string;
  bn_metrics : metrics;
}.

Definition no_metrics (allowed : bool) : metrics := mkMetrics ∅ ∅ ∅ ∅ ∅ ∅ ∅ allowed.

Definition keep_quantity (id q : string) (m : metrics) : metrics :=
  mkMetrics (metricPrices m) (metricPriceProvenance m) (metricCashProvenance m) (metricFXHistories m)
    (<[id := q]> (metricQuantities m)) (metricDates m) (constantCash m) (metricInputsAvailable m).

Definition keep_fx (currency : string) (history : list metricFXRevision) (m : metrics) : metrics :=
  mkMetrics (metricPrices m) (metricPriceProvenance m) (metricCashProvenance m) (<[currency := history]> (metricFXHistories m))
    (metricQuantities m) (metricDates m) (constantCash m) (metricInputsAvailable m).

Definition keep_constant (id : string) (m : metrics) : metrics :=
  mkMetrics (metricPrices m) (metricPriceProvenance m) (metricCashProvenance m) (metricFXHistories m)
    (metricQuantities m) (metricDates m) ({[id]} ∪ constantCash m) (metricInputsAvailable m).

Definition unavailable (m : metrics) : metrics :=
  mkMetrics (metricPrices m) (metricPriceProvenance m) (metricCashProvenance m) (metricFXHistories m)
    (metricQuantities m) (metricDates m) (constantCash m) false.

(** Record a history, [cash] telling which provenance it goes to. *)
Definition keep_history (cash : bool) (id : string) (history : list metricPriceRevision) (m : metrics) : metrics :=
  let daily := aggregateMetricPriceHistory history in
  let maps := metricPriceRevisionMaps history in
  mkMetrics (<[id := daily]> (metricPrices m))
    (if cash then metricPriceProvenance m else <[id := maps]> (metricPriceProvenance m))
    (if cash then <[id := maps]> (metricCashProvenance m) else metricCashProvenance m)
    (metricFXHistories m) (metricQuantities m) (dom daily ∪ metricDates m) (constantCash m) (metricInputsAvailable m).

Definition set_dates (days : gset string) (m : metrics) : metrics :=
  mkMetrics (metricPrices m) (metricPriceProvenance m) (metricCashProvenance m) (metricFXHistories m)
    (metricQuantities m) days (constantCash m) (metricInputsAvailable m).

(** ** Values of the documents *)

Definition any_text (t : option string) : goval := match t with Some t => VStr t | None => VNil end.

Definition optional_entry (name : string) (t : option string) : list (string * goval) :=
  match t with Some t => [(name, VStr t)] | None => [] end.

Definition map_value {A} (value : A -> goval) (m : gmap string A) : goval :=
  VMap ((fun kv => (fst kv, value (snd kv))) <$> map_to_list m).

Definition position (line : sealedValuationLine) (tryAmount usdAmount : string) (tryPath usdPath : list goval) : goval :=
  VMap ([("snapshot_line_id", VStr (lineID line)); ("instrument_id", VStr (instrumentID line));
         ("instrument_type", VStr (instrumentType line)); ("asset_class", VStr (assetClass (instrumentType line)));
         ("native_currency", VStr (nativeCurrency line)); ("value_try", VStr tryAmount); ("value_usd", VStr usdAmount);
         ("fx_path_to_try", VArr tryPath); ("fx_path_to_usd", VArr usdPath)]
        ++ optional_entry "modified_duration_years" (duration line)
        ++ optional_entry "convexity_years_squared" (convexity line)).

Definition provenance_line (line : sealedValuationLine) (tryEvidence usdEvidence : list goval) (reasons : list string) : goval :=
  VMap [("snapshot_line_id", VStr (lineID line)); ("price_method", VStr (priceMethod line));
        ("price_revision_id", any_text (priceID line)); ("price_quote_unit", any_text (quoteUnit line));
        ("try_fx_path", VArr tryEvidence); ("usd_fx_path", VArr usdEvidence); ("reason_codes", VArr (VStr <$> reasons))].

Definition is_cash (type : string) : bool := bool_decide (type = "cash") || bool_decide (type = "currency").

Section service.
Context (Pool : bool) (scan_uuid : string -> option string).
Context (timestamptz_out : time -> string) (timestamptz_in : string -> option time).
Context (jsonb_in : string -> option json) (text_ok : string -> bool) (format_float : spec_float -> string).

Definition marshal (v : goval) : option string := Marshal format_float v.

(** ** Queries *)

Definition select_header (accountID valuationID : string) (s : store) : res header :=
  match valuation_runs (base s) !! valuationID with
  | Some vr =>
      match snapshots (base s) !! vr_snapshot vr, accounts (base s) !! accountID with
      | Some ps, Some portfolio =>
          if bool_decide (ps_portfolio ps = portfolio)
          then Ok (mkHeader (vr_snapshot vr) (vr_state vr) (timestamptz_out (vr_cutoff vr)) (vr_knowledge_mode vr)
                     (timestamptz_out (vr_known_at vr)) (vr_price_max_age vr) (vr_fx_max_age vr) (vr_result_hash vr))
          else Err ENoRows
      | _, _ => Err ENoRows
      end
  | None => Err ENoRows
  end.

Definition of_account (snapshotID accountID : string) (sl : SnapshotLineRow) : bool :=
  bool_decide (sl_snapshot sl = snapshotID) && bool_decide (sl_account sl = accountID).

Definition count_lines (snapshotID accountID : string) (s : store) : Z :=
  Z.of_nat (length (List.filter (fun kv => of_account snapshotID accountID (snd kv)) (map_to_list (snapshot_lines (base s))))).

(** A line with the snapshot line and the instrument it joins. *)
Definition to_sealed_line (s : store) (vl : ValuationLineRow) : option sealedValuationLine :=
  sl ← snapshot_lines (base s) !! vl_snapshot_line vl;
  i ← instruments (base s) !! sl_instrument sl;
  let terms := default (None, None) (line_terms s !! vl_snapshot_line vl) in
  Some (mkSealedLine (vl_snapshot_line vl) (sl_instrument sl) (ins_type i) (ins_native i) (numeric_out (sl_quantity sl))
          (numeric_out <$> fst terms) (numeric_out <$> snd terms) (numeric_out <$> vl_try_amount vl)
          (numeric_out <$> vl_usd_amount vl) (vl_state vl) (vl_reasons vl) (vl_price_method vl) (vl_price_revision vl)
          (vl_price_quote_unit vl) (Some <$> vl_try_ids vl) (vl_try_directions vl) (Some <$> vl_usd_ids vl)
          (vl_usd_directions vl)).

Definition select_sealed_lines (valuationID snapshotID accountID : string) (s : store) : list sealedValuationLine :=
  omap (to_sealed_line s ∘ snd)
    (select (fun _ vl => bool_decide (vl_run vl = valuationID)
                         && match snapshot_lines (base s) !! vl_snapshot_line vl with
                            | Some sl => of_account snapshotID accountID sl
                            | None => false
                            end)
       (before (asc_text (fun kv => vl_snapshot_line (snd kv)))) (valuation_lines (base s))).

Definition select_pairs (ids : list string) (s : store) : gmap string string :=
  list_to_map (omap (fun id => f ← fx_quotes (base s) !! id; Some (id, fx_base f +:+ "/" +:+ fx_quote f)) ids).

Definition loadFXPairs (ids : list (option string)) : dbm store (gmap string string) :=
  if bool_decide (ids = []) then ret ∅
  else
    match mapM id ids with
    | None => throw ErrInvalidRequest
    | Some valid =>
        let* pairs := query (fun s => Ok (select_pairs valid s)) in
        if negb (size pairs =? length ids)%nat then throw ErrInvalidRequest else ret pairs
    end.

(** The WHERE clauses on the clocks. *)
Definition known_by (mode : string) (known : time) (source : option time) (system : time) : bool :=
  if bool_decide (mode = "source_as_of") then match source with Some t => t <=? known | None => false end
  else system <=? known.

Definition in_window (cutoff observation : time) : bool :=
  (observation <=? cutoff) && (cutoff - 730 * day_ns <=? observation).

Definition newest_known {R} (mode : string) (source : R -> option time) (system : R -> time) : comparator (string * R) :=
  if bool_decide (mode = "source_as_of")
  then desc_null (fun kv => source (snd kv)) >> desc (fun kv => system (snd kv)) >> asc_text fst
  else desc (fun kv => system (snd kv)) >> asc_text fst.

Definition revision_order {R} (mode : string) (observation : R -> time) (source : R -> option time) (system : R -> time)
    : comparator (string * R) :=
  asc (fun kv => observation (snd kv)) >> newest_known mode source system.

Definition to_price_revision (quoteUnit : string) (s : store) (kv : string * PriceRow) : metricPriceRevision :=
  let '(id, r) := kv in
  mkPriceRevision id (pr_observation r) (numeric_out (pr_price r)) (trim_space quoteUnit) "" [] (pr_source_known r)
    (pr_system_known r) (default "" (price_basis s !! id)).

Definition select_price_history (instrumentID quoteUnit mode : string) (cutoff known : time) (s : store)
    : list metricPriceRevision :=
  let by_observation := asc (fun kv : string * PriceRow => pr_observation (snd kv)) in
  to_price_revision quoteUnit s <$>
    insertion_sort (before by_observation)
      (distinct_on (ties by_observation)
         (select (fun _ r => bool_decide (pr_instrument r = instrumentID) && bool_decide (pr_quote r = quoteUnit)
                    && in_window cutoff (pr_observation r) && known_by mode known (pr_source_known r) (pr_system_known r))
            (before (revision_order mode pr_observation pr_source_known pr_system_known)) (prices (base s)))).

(** The casts of the two instants sent as text. *)
Definition with_clocks {A} (cutoff known : string) (f : time -> time -> store -> A) (s : store) : res A :=
  match timestamptz_in cutoff, timestamptz_in known with
  | Some cutoff, Some known => Ok (f cutoff known s)
  | _, _ => Err EDb
  end.

Definition loadMetricPriceHistory (instrumentID quoteUnit cutoff knowledgeMode knownAt : string)
    : dbm store (list metricPriceRevision) :=
  query (with_clocks cutoff knownAt (select_price_history instrumentID quoteUnit knowledgeMode)).

Definition to_fx_revision (currency : string) (s : store) (kv : string * FXRow) : metricFXRevision :=
  let '(id, r) := kv in
  mkFXRevision id (trim_space (fx_base r) +:+ "/" +:+ trim_space (fx_quote r))
    (if bool_decide (trim_space (fx_base r) = currency) && bool_decide (trim_space (fx_quote r) = "USD")
     then "direct" else "inverse")
    (fx_observation r) (numeric_out (fx_rate r)) (fx_source_known r) (fx_system_known r) (default "" (fx_basis s !! id)).

Definition select_fx_history (currency mode : string) (cutoff known : time) (s : store) : list metricFXRevision :=
  to_fx_revision currency s <$>
    select (fun _ r => (bool_decide (fx_base r = currency) && bool_decide (fx_quote r = "USD")
                        || bool_decide (fx_base r = "USD") && bool_decide (fx_quote r = currency))
               && in_window cutoff (fx_observation r) && known_by mode known (fx_source_known r) (fx_system_known r))
      (before (revision_order mode fx_observation fx_source_known fx_system_known)) (fx_quotes (base s)).

Definition loadMetricFXHistory (currency cutoff knowledgeMode knownAt : string) : dbm store (list metricFXRevision) :=
  query (with_clocks cutoff knownAt (select_fx_history currency knowledgeMode)).

(** ** The histories behind a line *)

(** The conversion quotes of a currency, loaded once. *)
Definition cached_fx (ctx currency : string) (h : header) (m : metrics) : dbm store (list metricFXRevision * metrics) :=
  match metricFXHistories m !! currency with
  | Some history => ret (history, m)
  | None =>
      let* history := wrap ctx (loadMetricFXHistory currency (hd_cutoff h) (hd_mode h) (hd_known_at h)) in
      ret (history, keep_fx currency history m)
  end.

Definition cash_metrics (h : header) (line : sealedValuationLine) (m : metrics) : dbm store metrics :=
  let m := keep_quantity (instrumentID line) (quantity line) m in
  let currency := trim_space (nativeCurrency line) in
  if bool_decide (currency = "USD") then ret (keep_constant (instrumentID line) m)
  else
    let* fx := cached_fx "load cash FX history" currency h m in
    let* cashHistory := wrap "build cash metric history" (of_res (buildCashMetricHistory currency (fst fx) (hd_fx_age h))) in
    if bool_decide (cashHistory = []) then ret (unavailable (snd fx))
    else ret (keep_history true (instrumentID line) cashHistory (snd fx)).

Definition in_dollars (usdPrice : string) (path : list metricFXRevision) (r : metricPriceRevision) : metricPriceRevision :=
  mkPriceRevision (PriceID r) (ObservationTime r) (Price r) (QuoteCurrency r) usdPrice path (SourceKnownAt r)
    (SystemKnownAt r) (KnowledgeTimeBasis r).

(** The dollar price of each revision; one without a conversion quote stays
    without and makes the inputs unavailable. *)
Fixpoint convert_history (h : header) (currency : string) (history : list metricPriceRevision) (m : metrics)
    : dbm store (list metricPriceRevision * metrics) :=
  match history with
  | [] => ret ([], m)
  | r :: rest =>
      let* step :=
        (if bool_decide (currency = "USD") then ret (in_dollars (Price r) (FXPath r) r, m)
         else
           let* fx := cached_fx "load pre-shock FX history" currency h m in
           match selectMetricFXRevision (fst fx) (ObservationTime r) (hd_fx_age h) with
           | None => ret (r, unavailable (snd fx))
           | Some selected =>
               let* usdPrice := wrap "convert pre-shock FX history"
                                  (of_res (convertMetricPriceToUSD (Price r) (Rate selected) (Direction selected))) in
               ret (in_dollars usdPrice [selected] r, snd fx)
           end) in
      let* others := convert_history h currency rest (snd step) in
      ret (fst step :: fst others, snd others)
  end.

Definition priced_metrics (h : header) (line : sealedValuationLine) (m : metrics) : dbm store metrics :=
  match quoteUnit line with
  | Some unit =>
      if negb (bool_decide (priceMethod line = "revision")) then ret (unavailable m)
      else
        let* history := wrap "load pre-shock price history"
          (loadMetricPriceHistory (instrumentID line) unit (hd_cutoff h) (hd_mode h) (hd_known_at h)) in
        if bool_decide (history = []) then ret (unavailable m)
        else
          let* converted := convert_history h (trim_space unit) history m in
          ret (keep_quantity (instrumentID line) (quantity line)
                 (keep_history false (instrumentID line) (fst converted) (snd converted)))
  | None => ret (unavailable m)
  end.

(** ** Sealing *)

Definition seal_line (allowed : bool) (h : header) (b : bundle) (line : sealedValuationLine) : dbm store bundle :=
  let* reasons := of_res (decode_reasons (lineReasons line)) in
  match tryAmount line, usdAmount line with
  | Some try_, Some usd =>
      if negb (bool_decide (lineState line = "valid")) then throw ErrInvalidRequest
      else
        let* tryPairs := wrap "load TRY FX provenance" (loadFXPairs (tryIDs line)) in
        let* usdPairs := wrap "load USD FX provenance" (loadFXPairs (usdIDs line)) in
        let* tryPath := wrap "validate TRY FX provenance" (of_res (fxPathMaps (tryIDs line) (tryDirections line) tryPairs)) in
        let* usdPath := wrap "validate USD FX provenance" (of_res (fxPathMaps (usdIDs line) (usdDirections line) usdPairs)) in
        let* tryEvidence := wrap "validate TRY FX evidence" (of_res (fxEvidence (tryIDs line) (tryDirections line) tryPairs)) in
        let* usdEvidence := wrap "validate USD FX evidence" (of_res (fxEvidence (usdIDs line) (usdDirections line) usdPairs)) in
        let* m :=
          (if negb allowed then ret (bn_metrics b)
           else if is_cash (instrumentType line) then cash_metrics h line (bn_metrics b)
           else priced_metrics h line (bn_metrics b)) in
        ret (mkBundle (positions b ++ [position line try_ usd tryPath usdPath])
               (provenanceLines b ++ [provenance_line line tryEvidence usdEvidence reasons])
               (<[instrumentID line := usd]> (metricExposures b))
               (if bool_decide (instrumentType line = "crypto_spot") then metricCalendar b else "business_daily") m)
  | _, _ => throw ErrInvalidRequest
  end.

(** The constant histories of dollar cash, over the days of the other histories. *)
Definition constant_metrics (h : header) (m : metrics) : dbm store metrics :=
  if bool_decide (constantCash m = ∅) then ret m
  else
    match (if bool_decide (metricDates m = ∅) then constantCashDates (hd_cutoff h) 64 else Some (metricDates m)) with
    | None => throw (EPanic "constantCashDates does not return")
    | Some days =>
        fold_m (fun m id =>
          let* history := of_res (constant_history id (elements days)) in
          ret (set_dates days (keep_history true id history m))) (set_dates days m) (elements (constantCash m))
    end.

Definition nav_entry (m : metrics) : list (string * goval) :=
  if metricInputsAvailable m then
    match buildMetricNAV (metricPrices m) (metricQuantities m) with
    | Some nav => if bool_decide (nav = ∅) then [] else [("nav_history", map_value VStr nav)]
    | None => []
    end
  else [].

Definition metric_inputs (allowed : bool) (count : nat) (b : bundle) : list (string * goval) :=
  let m := bn_metrics b in
  if negb allowed then
    [("data_quality", VStr "blocked"); ("reason", VStr "METRIC_INSTRUMENT_WORKLOAD_LIMIT");
     ("instrument_count", VInt (Z.of_nat count)); ("max_instruments", VInt maxMetricInstruments)]
  else if bool_decide (metricPrices m = ∅) then []
  else
    [("price_history", map_value (map_value VStr) (metricPrices m));
     ("price_revision_history", map_value VArr (metricPriceProvenance m));
     ("cash_revision_history", map_value VArr (metricCashProvenance m));
     ("signed_exposures", map_value VStr (metricExposures b)); ("calendar", VStr (metricCalendar b));
     ("constant_instruments", VArr (VStr <$> sortedKeys (constantCash m)))]
    ++ nav_entry m.

Definition loadSealedValuation (accountID snapshotID valuationID : string) : dbm store sealedValuation :=
  let* r := attempt (query (select_header accountID valuationID)) in
  let h := match r with Ok h => h | Err _ => no_header end in
  if match r with Err e => errors_is e ENoRows | Ok _ => false end
     || negb (bool_decide (hd_snapshot h = snapshotID)) || negb (bool_decide (hd_state h = "valid"))
     || bool_decide (hd_hash h = "")
  then throw ErrInvalidRequest
  else
    match r with
    | Err e => throw (EWrap "load sealed valuation" e)
    | Ok _ =>
        let* expectedLines := wrap "count sealed snapshot lines" (query (fun s => Ok (count_lines snapshotID accountID s))) in
        if expectedLines =? 0 then throw ErrInvalidRequest
        else
          let* lines := wrap "load sealed valuation lines"
                          (query (fun s => Ok (select_sealed_lines valuationID snapshotID accountID s))) in
          let allowed := Z.of_nat (length lines) <=? maxMetricInstruments in
          let* b := fold_m (seal_line allowed h) (mkBundle [] [] ∅ "crypto_daily" (no_metrics allowed)) lines in
          if bool_decide (positions b = []) || negb (Z.of_nat (length (positions b)) =? expectedLines)
          then throw ErrInvalidRequest
          else
            let* m := if allowed then constant_metrics h (bn_metrics b) else ret (bn_metrics b) in
            let b := mkBundle (positions b) (provenanceLines b) (metricExposures b) (metricCalendar b) m in
            ret (mkSealed (positions b)
                   [("valuation_run_id", VStr valuationID); ("snapshot_id", VStr snapshotID); ("state", VStr (hd_state h));
                    ("cutoff", VStr (hd_cutoff h)); ("knowledge_mode", VStr (hd_mode h)); ("known_at", VStr (hd_known_at h));
                    ("price_max_age_seconds", VInt (hd_price_age h)); ("fx_max_age_seconds", VInt (hd_fx_age h));
                    ("valuation_result_hash", VStr (hd_hash h)); ("lines", VArr (provenanceLines b))]
                   (metric_inputs allowed (length lines) b))
    end.

End service.
End Scenarios.
