(* ===== verification/ScenarioService.v ===== *)
(** [CreateVersionAndRun] (internal/application/scenarios/service.go): the
    idempotency check, the sealed inputs, the version, the job and the run, in
    one transaction. *)

From S2P Require Import Prelude GoString Digits GoTime Sha256 Db Json JsonTree Tables Jobs ScenarioModel ScenarioInputs Scenarios.
From Stdlib Require Import Ascii SpecFloat.
#[local] Open Scope Z_scope.

Module ScenarioService.
Import Scenario ScenarioInputs Scenarios.

Definition kind : string := "scenario.revalue".

(** The identifiers the database draws for the scenario, the job and the run. *)
Record fresh : Set := mkFresh { newScenario : string; newJob : string; newRun : string }.

Definition hash_shape (h : string) : bool := (slen h =? 64) && forallb is_lower_hex (chars h).

(** What the check of the idempotency key reads. *)
Record existing : Set := mkExisting {
  ex_run : Run;
  ex_account : string;
  ex_snapshot : string;
  ex_request : string;
}.

Section service.
Context (Pool : bool) (scan_uuid : string -> option string).
Context (timestamptz_out : time -> string) (timestamptz_in : string -> option time).
Context (jsonb_in : string -> option json) (text_ok : string -> bool) (format_float : spec_float -> string).

Abbreviation marshal := (Marshal format_float).

(** ** Documents *)

Definition content_value (i : VersionInput) : list (string * goval) :=
  [("template_key", VStr (TemplateKey i)); ("units", any_map (Units i)); ("shocks", any_map (Shocks i));
   ("mappings", any_map (Mappings i)); ("assumptions", any_map (Assumptions i))].

Definition request_value (i : VersionInput) : list (string * goval) :=
  [("account_id", VStr (AccountID i)); ("snapshot_id", VStr (SnapshotID i)); ("scenario_id", VStr (ScenarioID i));
   ("valuation_id", VStr (ValuationID i))] ++ content_value i.

(** [mustJSON]: nothing when the value cannot be encoded. *)
Definition mustJSON (v : goval) : option string := marshal v.

Definition canonicalSealedInputHash (i : VersionInput) (scenarioID : string) (version : Z) (contentHash : string)
    (provenance : list (string * goval)) (sealed : sealedValuation) : string :=
  sha256_hex (default "" (mustJSON (VMap
    [("account_id", VStr (AccountID i)); ("snapshot_id", VStr (SnapshotID i)); ("valuation_id", VStr (ValuationID i));
     ("scenario_id", VStr scenarioID); ("scenario_version", VInt version); ("scenario_content_hash", VStr contentHash);
     ("sealed_input", VMap provenance); ("positions", VArr (Positions sealed));
     ("metric_inputs", VMap (MetricInputs sealed))]))).

(** The provenance with what the transaction adds to it. *)
Definition bound_provenance (i : VersionInput) (scenarioID : string) (version : Z) (sealed : sealedValuation)
    : list (string * goval) :=
  Provenance sealed ++
  [("account_id", VStr (AccountID i)); ("scenario_id", VStr scenarioID); ("scenario_version", VInt version);
   ("contract_version", VStr "1.0"); ("metric_inputs", VMap (MetricInputs sealed))].

Definition payload_value (i : VersionInput) (scenarioID : string) (version : Z) (provenance : list (string * goval))
    (sealed : sealedValuation) : goval :=
  VMap
    [("scenario_id", VStr scenarioID);
     ("scenario_version", VMap
        [("scenario_id", VStr scenarioID); ("version", VInt version); ("template_key", VStr (TemplateKey i));
         ("units", any_map (Units i)); ("shocks", any_map (Shocks i)); ("mappings", any_map (Mappings i));
         ("assumptions", any_map (Assumptions i))]);
     ("snapshot_id", VStr (SnapshotID i)); ("valuation_id", VStr (ValuationID i)); ("sealed_input", VMap provenance);
     ("positions", VArr (Positions sealed)); ("metric_inputs", VMap (MetricInputs sealed));
     ("pre_metrics", VMap preShockMetricsUnavailable)].

(** ** Statements *)

(** A text parameter the encoding of the database accepts. *)
Definition lock_key (key : string) (s : store) : res unit := if text_ok key then Ok tt else Err EDb.

Definition to_existing (s : store) (kv : string * RunRow) : option existing :=
  let r := snd kv in
  v ← versions s !! (sr_scenario r, sr_version r);
  Some (mkExisting (mkRun (fst kv) (sr_scenario r) (sr_version r) (sr_job r) (sv_hash v)) (sr_account r) (sr_snapshot r)
          (sr_request_hash r)).

Definition has_key (key : string) (s : store) (r : RunRow) : bool :=
  match Jobs.jobs (queue s) !! sr_job r with Some j => Jobs.same_key kind key j | None => false end.

Definition select_existing (key : string) (s : store) : res existing :=
  match omap (to_existing s) (List.filter (fun kv => has_key key s (snd kv)) (map_to_list (run_rows s))) with
  | e :: _ => Ok e
  | [] => Err ENoRows
  end.

Definition same_name (account name : string) (r : ScenarioRow) : bool :=
  bool_decide (sc_account r = account) && bool_decide (sc_name r = name).

Definition name_key : string := "scenarios_account_name_key".

(** INSERT INTO scenarios: the checks, then the unique indexes, then the foreign
    key. *)
Definition insert_scenario (id : string) (now : time) (account name template : string) (s : store) : res string * store :=
  if negb (text_ok name) || btrim_blank name
     || negb (bool_decide (template ∈ ["try_depreciation"; "rates_up"; "risk_off"]))
     || bool_decide (is_Some (scenarios s !! id))
  then (Err EDb, s)
  else if existsb (fun kv => same_name account name (snd kv)) (map_to_list (scenarios s))
  then (Err (ECode "23505" name_key), s)
  else if negb (bool_decide (is_Some (accounts (base s) !! account))) then (Err (ECode "23503" "scenarios"), s)
  else (Ok id, set_scenarios s (<[id := mkScenarioRow account name template 0 now]> (scenarios s))).

Definition select_named (account name : string) (s : store) : res string :=
  match List.filter (fun kv => same_name account name (snd kv)) (map_to_list (scenarios s)) with
  | (id, _) :: _ => Ok id
  | [] => Err ENoRows
  end.

Definition select_account (id : string) (s : store) : res string :=
  match scenarios s !! id with Some r => Ok (sc_account r) | None => Err ENoRows end.

Definition update_template (id template : string) (s : store) : res unit * store :=
  match scenarios s !! id with
  | None => (Ok tt, s)
  | Some r =>
      if bool_decide (template ∈ ["try_depreciation"; "rates_up"; "risk_off"])
      then (Ok tt, set_scenarios s (<[id := mkScenarioRow (sc_account r) (sc_name r) template (sc_version r) (sc_created r)]>
                     (scenarios s)))
      else (Err EDb, s)
  end.

Definition owns_snapshot (account snapshot : string) (s : store) : bool :=
  match accounts (base s) !! account, snapshots (base s) !! snapshot with
  | Some portfolio, Some ps => bool_decide (ps_portfolio ps = portfolio)
  | _, _ => false
  end.

(** The counter is a four-byte integer. *)
Definition advance_version (id : string) (s : store) : res Z * store :=
  match scenarios s !! id with
  | None => (Err ENoRows, s)
  | Some r =>
      let version := sc_version r + 1 in
      if 2147483647 <? version then (Err EDb, s)
      else (Ok version, set_scenarios s
              (<[id := mkScenarioRow (sc_account r) (sc_name r) (sc_template r) version (sc_created r)]> (scenarios s)))
  end.

Definition version_row (now : time) (i : VersionInput) (hash : string) : option VersionRow :=
  units ← mustJSON (any_map (Units i)) ≫= jsonb_in;
  shocks ← mustJSON (any_map (Shocks i)) ≫= jsonb_in;
  mappings ← mustJSON (any_map (Mappings i)) ≫= jsonb_in;
  assumptions ← mustJSON (any_map (Assumptions i)) ≫= jsonb_in;
  Some (mkVersionRow (TemplateKey i) units shocks mappings assumptions hash now).

Definition insert_version (id : string) (version : Z) (now : time) (i : VersionInput) (hash : string) (s : store)
    : res unit * store :=
  match version_row now i hash with
  | Some r =>
      if bool_decide (is_Some (scenarios s !! id)) && (0 <? version) && hash_shape hash
         && bool_decide (TemplateKey i ∈ ["try_depreciation"; "rates_up"; "risk_off"])
         && bool_decide (versions s !! (id, version) = None)
      then (Ok tt, set_versions s (<[(id, version) := r]> (versions s)))
      else (Err EDb, s)
  | None => (Err EDb, s)
  end.

(** The row the INSERT gives, with the defaults of the table. *)
Definition job_row (id : string) (now : time) (key snapshot payload : string) : Jobs.Job :=
  Jobs.mkJob id kind "1.0" key [snapshot] payload Jobs.StateQueued 0 3 now None None None None None None None None now.

Definition insert_job (id : string) (now : time) (key snapshot hash payload : string) (s : store) : res string * store :=
  let j := job_row id now key snapshot payload in
  if negb (text_ok key) || negb (bool_decide (is_Some (jsonb_in payload))) || negb (hash_shape hash)
     || negb (Jobs.job_check j) || bool_decide (is_Some (Jobs.jobs (queue s) !! id))
  then (Err EDb, s)
  else match Jobs.find_job (Jobs.same_key kind key) (queue s) with
       | Some _ => (Err (ECode "23505" "risk_jobs_idempotency_key"), s)
       | None => (Ok id, set_queue s (Jobs.set_jobs (queue s) (<[id := j]> (Jobs.jobs (queue s)))) (<[id := hash]> (input_hashes s)))
       end.

Definition run_row (now : time) (i : VersionInput) (scenarioID : string) (version : Z) (job : string)
    (provenance : list (string * goval)) (requestHash : string) : option RunRow :=
  document ← mustJSON (VMap provenance) ≫= jsonb_in;
  Some (mkRunRow scenarioID version (AccountID i) (SnapshotID i) (Some (ValuationID i)) job document requestHash now).

(** The foreign keys, the uniqueness of the job and the two triggers. *)
Definition run_refs (r : RunRow) (s : store) : bool :=
  bool_decide (is_Some (versions s !! (sr_scenario r, sr_version r)))
  && match scenarios s !! sr_scenario r with Some sc => bool_decide (sc_account sc = sr_account r) | None => false end
  && bool_decide (is_Some (Jobs.jobs (queue s) !! sr_job r))
  && negb (existsb (fun kv => bool_decide (sr_job (snd kv) = sr_job r)) (map_to_list (run_rows s)))
  && owns_snapshot (sr_account r) (sr_snapshot r) s
  && match sr_valuation r with
     | None => true
     | Some v => match valuation_runs (base s) !! v with
                 | Some vr => bool_decide (vr_snapshot vr = sr_snapshot r)
                 | None => false
                 end
     end.

Definition insert_run (id : string) (now : time) (i : VersionInput) (scenarioID : string) (version : Z) (job : string)
    (provenance : list (string * goval)) (requestHash : string) (s : store) : res string * store :=
  match run_row now i scenarioID version job provenance requestHash with
  | Some r =>
      if run_refs r s && hash_shape requestHash && bool_decide (run_rows s !! id = None)
      then (Ok id, set_runs s (<[id := r]> (run_rows s))
              (Jobs.set_runs (queue s) (<[id := Jobs.mkScenarioRun job "queued" None]> (Jobs.runs (queue s)))))
      else (Err EDb, s)
  | None => (Err EDb, s)
  end.

(** ** The call *)

Definition is_name_conflict (e : goerr) : bool :=
  match e with ECode code constraint => bool_decide (code = "23505") && bool_decide (constraint = name_key) | _ => false end.

(** The scenario the version is for, created or updated. *)
Definition enter_scenario (ids : fresh) (now : time) (i : VersionInput) : dbm store string :=
  if bool_decide (ScenarioID i = "") then
    let* r := attempt (stmt (insert_scenario (newScenario ids) now (AccountID i) (Name i) (TemplateKey i))) in
    match r with
    | Ok id => ret id
    | Err e =>
        if is_name_conflict e then
          let* existingID := wrap "look up conflicting scenario" (pool_query (select_named (AccountID i) (Name i))) in
          throw (NameConflictError existingID)
        else throw (EWrap "create scenario" e)
    end
  else
    let* r := attempt (query (select_account (ScenarioID i))) in
    let accountID := match r with Ok a => a | Err _ => "" end in
    if match r with Err e => errors_is e ENoRows | Ok _ => false end || negb (bool_decide (accountID = AccountID i))
    then throw ErrInvalidRequest
    else
      match r with
      | Err e => throw (EWrap "load scenario" e)
      | Ok _ =>
          wrap "update scenario template" (stmt (update_template (ScenarioID i) (TemplateKey i))) ;;;
          ret (ScenarioID i)
      end.

(** The same request under the same key. *)
Definition replays (i : VersionInput) (hash requestHash : string) (e : existing) : bool :=
  bool_decide (ex_account e = AccountID i) && bool_decide (ex_snapshot e = SnapshotID i)
  && bool_decide (ContentSHA256 (ex_run e) = hash) && bool_decide (ex_request e = requestHash)
  && (bool_decide (ScenarioID i = "") || bool_decide (RunScenarioID (ex_run e) = ScenarioID i)).

(** From the sealed inputs on. *)
Definition record_version (ids : fresh) (now : nat -> time) (i : VersionInput) (hash requestHash : string)
    (sealed : sealedValuation) : dbm store Run :=
  let* scenarioID := enter_scenario ids (now 0%nat) i in
  let* snapshotAllowed := wrap "validate account snapshot ownership"
                            (query (fun s => Ok (owns_snapshot (AccountID i) (SnapshotID i) s))) in
  if negb snapshotAllowed then throw ErrInvalidRequest
  else
    let* version := wrap "advance scenario version" (stmt (advance_version scenarioID)) in
    wrap "persist immutable scenario version" (stmt (insert_version scenarioID version (now 1%nat) i hash)) ;;;
    let provenance := bound_provenance i scenarioID version sealed in
    let sealedInputHash := canonicalSealedInputHash i scenarioID version hash provenance sealed in
    let provenance := provenance ++ [("input_hash", VStr sealedInputHash)] in
    match marshal (payload_value i scenarioID version provenance sealed) with
    | None => throw (EWrap "encode scenario job payload" (ENew "json: unsupported value"))
    | Some payload =>
        let* jobID := wrap "enqueue scenario revaluation"
          (stmt (insert_job (newJob ids) (now 2%nat) (IdempotencyKey i) (SnapshotID i) sealedInputHash payload)) in
        let* runID := wrap "create scenario run"
          (stmt (insert_run (newRun ids) (now 3%nat) i scenarioID version jobID provenance requestHash)) in
        wrap "commit scenario version and run" commit ;;;
        ret (mkRun runID scenarioID version jobID hash)
    end.

Definition create_canonical (ids : fresh) (now : nat -> time) (i : VersionInput) (hash requestHash : string) : dbm store Run :=
  wrap "begin scenario transaction" begin ;;;
  wrap "lock scenario idempotency key" (query (lock_key (IdempotencyKey i))) ;;;
  let* r := attempt (query (select_existing (IdempotencyKey i))) in
  match r with
  | Ok e => if replays i hash requestHash e then ret (ex_run e) else throw ErrInvalidRequest
  | Err e =>
      if negb (errors_is e ENoRows) then throw (EWrap "check scenario idempotency key" e)
      else
        let* sealed := loadSealedValuation timestamptz_out timestamptz_in (AccountID i) (SnapshotID i) (ValuationID i) in
        record_version ids now i hash requestHash sealed
  end.

Definition CreateVersionAndRun (ids : fresh) (now : nat -> time) (input : VersionInput) : dbm store Run :=
  if negb Pool || negb (valid input) then throw ErrInvalidRequest
  else
    match canonicalizeInputIDs scan_uuid input with
    | None => throw ErrInvalidRequest
    | Some i =>
        match marshal (VMap (content_value i)), marshal (VMap (request_value i)) with
        | Some content, Some request => create_canonical ids now i (sha256_hex content) (sha256_hex request)
        | None, _ => throw (EWrap "encode scenario version" (ENew "json: unsupported value"))
        | Some _, None => throw (EWrap "encode scenario request fingerprint" (ENew "json: unsupported value"))
        end
    end.
End service.
End ScenarioService.
