(* ===== verification/Risk.v ===== *)
(** The risk service (internal/application/risk/service.go): submitting a stress
    run through the scenario service, reading a run and its positions, and
    cancelling it.

    The store extends the scenario service's with the results of runs and their
    positions.  The UUID scanner of the driver and the cast of the database, the
    casts of JSONB, the texts the database accepts and the order in which a map
    is visited are parameters; texts compare as their bytes, which is the order
    of canonical UUIDs.  No document has two members whose names differ in case
    only. *)

From S2P Require Import Prelude GoString Digits GoTime Base64 Decimal Order Db Json JsonTree JsonDecode Tables Jobs.
From S2P Require Import ScenarioModel ScenarioInputs Scenarios ScenarioService.
From Stdlib Require Import Ascii SpecFloat.
#[local] Open Scope Z_scope.

Module Risk.
#[local] Existing Instance Jobs.State_eq_dec.

Definition ErrInvalidRequest : goerr := ENew "invalid risk request".
Definition ErrNotFound : goerr := ENew "risk run not found".
Definition ErrConflict : goerr := ENew "risk request conflicts with existing state".

(** The error carries the existing scenario and unwraps to [ErrConflict]. *)
Definition ConflictError (scenarioID : string) : goerr := EWrap scenarioID ErrConflict.

Record SubmitRequest : Type := mkSubmitRequest {
  AccountID : string;
  SnapshotID : string;
  ValuationID : string;
  ScenarioID : string;
  Name : string;
  TemplateKey : string;
  IdempotencyKey : string;
  Units : option (list (string * goval));
  Shocks : option (list (string * goval));
  Mappings : option (list (string * goval));
  Assumptions : option (list (string * goval));
}.

(** [Result] is a raw message, held parsed; an empty one is [None]. *)
Record Run : Type := mkRun {
  ID : string;
  RunScenarioID : string;
  ScenarioVersion : Z;
  RunAccountID : string;
  RunSnapshotID : string;
  RunValuationID : string;
  JobID : string;
  Status : string;
  DataQuality : string;
  SchemaVersion : string;
  EngineVersion : string;
  ScenarioTemplate : string;
  ScenarioContentSHA : string;
  RequestHash : string;
  ResultHash : string;
  InputSnapshotIDs : list string;
  ReasonCodes : list string;
  Result : option json;
  CreatedAt : time;
  CompletedAt : option time;
  ErrorCode : string;
  ErrorMessage : string;
}.

(** *** Tables *)

Record PositionRow : Set := mkPositionRow {
  ps_instrument : string;
  ps_state : string;
  ps_reasons : list string;
  ps_pre_try : option Z;
  ps_post_try : option Z;
  ps_pnl_try : option Z;
  ps_pre_usd : option Z;
  ps_post_usd : option Z;
  ps_pnl_usd : option Z;
  ps_price_return : option Z;
  ps_yield_return : option Z;
  ps_fx_try : option Z;
  ps_fx_usd : option Z;
}.

Record ResultRow : Type := mkResultRow { rs_result : option json; rs_hash : option string }.

Record store : Type := mkStore {
  core : Scenario.store;
  results : gmap string ResultRow;                   (* result columns of scenario_runs *)
  positions : gmap (string * string) PositionRow;    (* by run and snapshot line *)
}.

Definition set_core (c : Scenario.store) (s : store) : store := mkStore c (results s) (positions s).
Definition jobs_of (s : store) : Jobs.store := Scenario.queue (core s).
Definition set_jobs (s : store) (q : Jobs.store) : store :=
  set_core (Scenario.set_queue (core s) q (Scenario.input_hashes (core s))) s.

(** ** Status, quality and reasons *)

Definition mapStatus (job run : string) : string :=
  if bool_decide (job = "queued") then "queued"
  else if bool_decide (job = "running") then "running"
  else if bool_decide (job = "retryable_failed") then "retryable"
  else if bool_decide (job = "failed") then "permanent"
  else if bool_decide (job = "cancelled") then "cancelled"
  else if bool_decide (job = "succeeded") then "completed"
  else if bool_decide (run = "failed") then "permanent"
  else "queued".

(** The envelope of a result, decoded; [None] when that fails. *)
Definition data_quality (raw : json) : option string :=
  decode_struct [("data_quality", fun j q => decode_string q j)] "" raw.

Fixpoint first_quality (raws : list json) : option string :=
  match raws with
  | [] => None
  | raw :: rest =>
      match data_quality raw with
      | Some quality => if bool_decide (quality = "") then first_quality rest else Some quality
      | None => first_quality rest
      end
  end.

Definition mapQuality (run : string) (scenario job : json) : string :=
  if bool_decide (run = "degraded") then "degraded"
  else if bool_decide (run = "blocked") then "blocked"
  else match first_quality [scenario; job] with
       | Some quality => quality
       | None => if bool_decide (run = "valid") then "healthy" else "degraded"
       end.

Definition resultString (raw : json) (key : string) : string :=
  match decode_any_map raw with
  | Some value => match value !! key with Some (JString text) => text | _ => "" end
  | None => ""
  end.

Definition position_reasons : json -> option (list string) :=
  decode_struct [("reason_codes", fun j _ => decode_list decode_text j)] [].

Definition output_reasons (acc : list (list string)) : json -> option (list (list string)) :=
  decode_struct [("positions", fun j _ => decode_list position_reasons j)] acc.

Definition envelope_reasons : json -> option (list (list string)) :=
  decode_struct [("output", fun j acc => output_reasons acc j)] [].

(** The codes collected, without the empty one. *)
Definition seen_codes (raw : option json) (errorCode : string) : gset string :=
  let codes := match raw ≫= envelope_reasons with Some positions => concat positions | None => [] end in
  list_to_set (List.filter (fun code => negb (bool_decide (code = ""))) (errorCode :: codes)).

(** ** Cursors *)

Definition encodeCursor (value : string) : string := EncodeToString value.
Definition decodeCursor (value : string) : option string :=
  if bool_decide (value = "") then Some ""
  else match DecodeString value with
       | Some decoded => if bool_decide (decoded = "") then None else Some decoded
       | None => None
       end.

Section service.
Context (Pool : bool) (scan_uuid uuid_in : string -> option string).
Context (timestamptz_out : time -> string) (timestamptz_in : string -> option time).
Context (jsonb_in : string -> option json) (text_ok : string -> bool) (format_float : spec_float -> string).
Context (shuffle : list string -> list string).

Definition reasonCodes (raw : option json) (errorCode : string) : list string := shuffle (elements (seen_codes raw errorCode)).

Definition validUUID (value : string) : bool := bool_decide (is_Some (scan_uuid (trim_space value))).

(** ** Reading a run *)

Record selected : Type := mkSelected {
  sel_id : string;
  sel_run : Scenario.RunRow;
  sel_version : Scenario.VersionRow;
  sel_job : Jobs.Job;
  sel_state : string;
  sel_completed : option time;
  sel_result : json;
  sel_hash : string;
  sel_job_result : json;
}.

Definition nonnull (j : json) : option json := match j with JNull => None | _ => Some j end.

Definition select_run (id : string) (s : store) : res selected :=
  match uuid_in id with
  | None => Err EDb
  | Some id =>
      let row :=
        r ← Scenario.run_rows (core s) !! id;
        v ← Scenario.versions (core s) !! (Scenario.sr_scenario r, Scenario.sr_version r);
        j ← Jobs.jobs (jobs_of s) !! Scenario.sr_job r;
        l ← Jobs.runs (jobs_of s) !! id;
        let result := results s !! id in
        Some (mkSelected id r v j (Jobs.RunState l) (Jobs.RunCompletedAt l)
                (default JNull (result ≫= rs_result)) (default "" (result ≫= rs_hash))
                (default JNull (Jobs.Result j ≫= jsonb_in))) in
      match row with Some row => Ok row | None => Err ENoRows end
  end.

Definition or_else (a b : string) : string := if bool_decide (a = "") then b else a.

Definition to_run (row : selected) : Run :=
  let r := sel_run row in
  let j := sel_job row in
  let result := match nonnull (sel_result row) with Some x => Some x | None => nonnull (sel_job_result row) end in
  let errorCode := default "" (Jobs.ErrorCode j) in
  mkRun (sel_id row) (Scenario.sr_scenario r) (Scenario.sr_version r) (Scenario.sr_account r) (Scenario.sr_snapshot r)
    (default "" (Scenario.sr_valuation r)) (Scenario.sr_job r)
    (mapStatus (Jobs.state_name (Jobs.JobState j)) (sel_state row))
    (mapQuality (sel_state row) (sel_result row) (sel_job_result row))
    (Jobs.JobSchemaVersion j)
    (or_else (or_else (resultString (sel_result row) "engine_version") (resultString (sel_job_result row) "engine_version"))
       "unknown")
    (Scenario.sv_template (sel_version row)) (Scenario.sv_hash (sel_version row)) (Scenario.sr_request_hash r)
    (or_else (sel_hash row) (default "" (Jobs.ResultHash j)))
    (Jobs.InputSnapshotIDs j) (reasonCodes result errorCode) result (Scenario.sr_created r) (sel_completed row)
    errorCode (default "" (Jobs.ErrorMessage j)).

Definition Get (id : string) : dbm store Run :=
  if negb Pool || bool_decide (trim_space id = "") then throw ErrInvalidRequest
  else
    let* row := map_err (fun e => if errors_is e ENoRows then ErrNotFound else EWrap "get risk run" e)
                  (pool_query (select_run id)) in
    ret (to_run row).

(** ** Submitting *)

Definition version_input (request : SubmitRequest) : Scenario.VersionInput :=
  Scenario.mkVersionInput (AccountID request) (SnapshotID request) (ValuationID request) (ScenarioID request) (Name request)
    (TemplateKey request) (IdempotencyKey request) (Units request) (Shocks request) (Mappings request) (Assumptions request).

(** [errors.As] for a name conflict. *)
Fixpoint as_name_conflict (e : goerr) : option string :=
  match e with
  | EWrap ctx e' => if bool_decide (e' = ScenarioInputs.ErrNameConflict) then Some ctx else as_name_conflict e'
  | _ => None
  end.

Definition submit_error (e : goerr) : goerr :=
  if errors_is e ScenarioInputs.ErrInvalidRequest then ErrInvalidRequest
  else match as_name_conflict e with
       | Some scenarioID => ConflictError scenarioID
       | None => EWrap "submit risk run" e
       end.

Definition Submit (ids : ScenarioService.fresh) (now : nat -> time) (request : SubmitRequest) : dbm store Run :=
  if negb Pool || bool_decide (trim_space (IdempotencyKey request) = "") || negb (validUUID (AccountID request))
     || negb (validUUID (SnapshotID request)) || negb (validUUID (ValuationID request))
     || negb (bool_decide (ScenarioID request = "")) && negb (validUUID (ScenarioID request))
  then throw ErrInvalidRequest
  else
    let* created := map_err submit_error
      (embed core set_core
         (ScenarioService.CreateVersionAndRun Pool scan_uuid timestamptz_out timestamptz_in jsonb_in text_ok format_float
            ids now (version_input request))) in
    Get (Scenario.RunID created).

(** ** Positions *)

Record PositionItem : Set := mkPositionItem {
  snapshot_line_id : string;
  instrument_id : string;
  state : string;
  reason_codes : list string;
  pre_value_try : option string;
  post_value_try : option string;
  pnl_try : option string;
  pre_value_usd : option string;
  post_value_usd : option string;
  pnl_usd : option string;
  price_return : option string;
  yield_return : option string;
  fx_multiplier_try : option string;
  fx_multiplier_usd : option string;
}.

Record Page : Set := mkPage {
  Items : list PositionItem;
  Limit : Z;
  NextCursor : string;
  HasMore : bool;
}.

Definition run_exists (id : string) (s : store) : res bool :=
  match uuid_in id with
  | None => Err EDb
  | Some id => Ok (bool_decide (is_Some (Scenario.run_rows (core s) !! id)))
  end.

Abbreviation position := ((string * string) * PositionRow)%type.

Definition line_of (kv : position) : string := snd (fst kv).

Definition of_run (id last : string) (kv : position) : bool :=
  bool_decide (fst (fst kv) = id) && (bool_decide (last = "") || string_ltb last (line_of kv)).

Definition select_positions (id last : string) (limit : Z) (s : store) : res (list position) :=
  match uuid_in id with
  | None => Err EDb
  | Some id =>
      if negb (text_ok last) then Err EDb
      else Ok (take (Z.to_nat limit)
                 (insertion_sort (before (asc_text line_of)) (List.filter (of_run id last) (map_to_list (positions s)))))
  end.

Definition to_item (kv : position) : PositionItem :=
  let r := snd kv in
  mkPositionItem (line_of kv) (ps_instrument r) (ps_state r) (ps_reasons r) (numeric_out <$> ps_pre_try r)
    (numeric_out <$> ps_post_try r) (numeric_out <$> ps_pnl_try r) (numeric_out <$> ps_pre_usd r)
    (numeric_out <$> ps_post_usd r) (numeric_out <$> ps_pnl_usd r) (numeric_out <$> ps_price_return r)
    (numeric_out <$> ps_yield_return r) (numeric_out <$> ps_fx_try r) (numeric_out <$> ps_fx_usd r).

Definition page_of (items : list PositionItem) (limit : Z) : Page :=
  if limit <? Z.of_nat (length items) then
    let shown := take (Z.to_nat limit) items in
    mkPage shown limit (match last shown with Some item => encodeCursor (snapshot_line_id item) | None => "" end) true
  else mkPage items limit "" false.

Definition Positions (id cursor : string) (limit : Z) : dbm store Page :=
  if negb Pool || bool_decide (trim_space id = "") || (limit <? 0) || (200 <? limit) then throw ErrInvalidRequest
  else
    let* exists_ := wrap "check risk run" (pool_query (run_exists id)) in
    if negb exists_ then throw ErrNotFound
    else
      let limit := if limit =? 0 then 50 else limit in
      match decodeCursor cursor with
      | None => throw ErrInvalidRequest
      | Some last =>
          let* rows := wrap "list risk positions" (pool_query (select_positions id last (limit + 1))) in
          ret (page_of (to_item <$> rows) limit)
      end.

(** ** Cancelling *)

Definition select_job_id (id : string) (s : store) : res string :=
  match uuid_in id with
  | None => Err EDb
  | Some id => match Scenario.run_rows (core s) !! id with Some r => Ok (Scenario.sr_job r) | None => Err ENoRows end
  end.

Definition select_job_state (jobID : string) (s : store) : res Jobs.State :=
  match Jobs.jobs (jobs_of s) !! jobID with Some j => Ok (Jobs.JobState j) | None => Err ENoRows end.

(** A statement on the queue's tables. *)
Definition on_queue {A} (f : Jobs.store -> res A * Jobs.store) (s : store) : res A * store :=
  let '(r, q) := f (jobs_of s) in (r, set_jobs s q).

Definition cancel_job (reason jobID : string) (now : time) (s : store) : res Z * store :=
  if text_ok reason
  then on_queue (Jobs.update_job jobID (fun j => Jobs.active_state (Jobs.JobState j)) (Jobs.cancel_job reason now)) s
  else (Err EDb, s).

Definition open_run (l : Jobs.ScenarioRun) : bool :=
  bool_decide (Jobs.RunState l = "queued") || bool_decide (Jobs.RunState l = "running").

Definition close_run (id : string) (now : time) (s : store) : res unit * store :=
  match uuid_in id with
  | None => (Err EDb, s)
  | Some id =>
      match Jobs.runs (jobs_of s) !! id with
      | Some l =>
          if open_run l
          then (Ok tt, set_jobs s (Jobs.set_runs (jobs_of s)
                         (<[id := Jobs.mkScenarioRun (Jobs.RunJobID l) "failed" (Some now)]> (Jobs.runs (jobs_of s)))))
          else (Ok tt, s)
      | None => (Ok tt, s)
      end
  end.

Definition cancel_run (id reason : string) (now : nat -> time) : dbm store unit :=
  wrap "begin cancel risk run" begin ;;;
  let* jobID := map_err (fun e => if errors_is e ENoRows then ErrNotFound else EWrap "find risk run job" e)
                  (query (select_job_id id)) in
  let reason := if bool_decide (trim_space reason = "") then "cancelled by client" else reason in
  let* currentJobState := wrap "lock risk run job" (query (select_job_state jobID)) in
  let* affected := wrap "cancel risk run" (stmt (cancel_job reason jobID (now 0%nat))) in
  (if (affected =? 1) || bool_decide (currentJobState = Jobs.StateCancelled)
   then wrap "close cancelled scenario run" (stmt (close_run id (now 1%nat)))
   else ret tt) ;;;
  wrap "commit cancel risk run" commit.

Definition Cancel (id reason : string) (now : nat -> time) : dbm store Run :=
  if negb Pool || bool_decide (trim_space id = "") then throw ErrInvalidRequest
  else cancel_run id reason now ;;; Get id.
End service.
End Risk.
