(* ===== verification/RiskEffects.v ===== *)
(** What cancelling a run does to the tables, and that it keeps what the job rows
    satisfy. *)

From S2P Require Import Prelude GoString GoTime Db Json JsonTree Jobs JobsSafety JobsRows.
From S2P Require Import ScenarioModel ScenarioInputs Scenarios ScenarioService Risk.
#[local] Open Scope Z_scope.
Import Risk.

(** The run's lifecycle row, closed if it was open. *)
Definition closed_runs (id : string) (now : time) (runs : gmap string Jobs.ScenarioRun) : gmap string Jobs.ScenarioRun :=
  match runs !! id with
  | Some l => if open_run l then <[id := Jobs.mkScenarioRun (Jobs.RunJobID l) "failed" (Some now)]> runs else runs
  | None => runs
  end.

Definition cancel_reason (reason : string) : string := if bool_decide (trim_space reason = "") then "cancelled by client" else reason.

(** What a committed cancellation does to the queue's tables. *)
Definition cancelled (id reason : string) (now : nat -> time) (j : Jobs.Job) (q q' : Jobs.store) : Prop :=
  (Jobs.active_state (Jobs.JobState j) = true /\
   q' = Jobs.mkStore (<[Jobs.ID j := Jobs.cancel_job (cancel_reason reason) (now 0%nat) j]> (Jobs.jobs q)) (Jobs.attempts q)
          (closed_runs id (now 1%nat) (Jobs.runs q))) \/
  (Jobs.JobState j = Jobs.StateCancelled /\
   q' = Jobs.mkStore (Jobs.jobs q) (Jobs.attempts q) (closed_runs id (now 1%nat) (Jobs.runs q))) \/
  (Jobs.terminal (Jobs.JobState j) = true /\ Jobs.JobState j <> Jobs.StateCancelled /\ q' = q).

Section cancel.
Context (uuid_in : string -> option string) (text_ok : string -> bool).

Lemma set_jobs_same s : set_jobs s (jobs_of s) = s.
Proof. by destruct s as [[] ? ?]. Qed.

Lemma close_run_cases id uid now s a s' : uuid_in id = Some uid -> close_run uuid_in id now s = (Ok a, s') ->
  s' = set_jobs s (Jobs.mkStore (Jobs.jobs (jobs_of s)) (Jobs.attempts (jobs_of s)) (closed_runs uid now (Jobs.runs (jobs_of s)))).
Proof.
  intros Hu. unfold close_run, closed_runs. rewrite Hu.
  assert (Hs : set_jobs s (Jobs.mkStore (Jobs.jobs (jobs_of s)) (Jobs.attempts (jobs_of s)) (Jobs.runs (jobs_of s))) = s).
  { destruct s as [[? ? ? ? ? ? ? [] ?] ? ?]. done. }
  destruct (Jobs.runs (jobs_of s) !! uid) as [l|]; [destruct (open_run l)|]; intros [= _ <-]; done.
Qed.

Lemma cancel_run_effect id reason now fs s r s' : run (cancel_run uuid_in text_ok id reason now) fs s = (r, s') ->
  (s' = s /\ exists e, r = Err e) \/
  (r = Ok tt /\ exists uid run j q', uuid_in id = Some uid /\ Scenario.run_rows (core s) !! uid = Some run /\
     Jobs.jobs (jobs_of s) !! Scenario.sr_job run = Some j /\ cancelled uid reason now j (jobs_of s) q' /\ s' = set_jobs s q').
Proof.
  intros Hrun. run_wp Hrun. unfold cancel_run. repeat wp_step; cbn [committed]; try (left; by eauto).
  destruct (select_job_id uuid_in id s) as [jobID|e] eqn:Hid; [|cbn; left; split; [done|by eexists]].
  unfold select_job_id in Hid. destruct (uuid_in id) as [uid|] eqn:Hu; [|done].
  destruct (Scenario.run_rows (core s) !! uid) as [run|] eqn:Hr; [|done]. injection Hid as <-.
  repeat wp_step; cbn [committed]; try (left; by eauto).
  destruct (select_job_state (Scenario.sr_job run) s) as [st|e] eqn:Hst; [|cbn; left; split; [done|by eexists]].
  unfold select_job_state in Hst. destruct (Jobs.jobs (jobs_of s) !! Scenario.sr_job run) as [j|] eqn:Hj; [|done].
  injection Hst as <-. fold (cancel_reason reason). repeat wp_step; cbn [committed]; try (left; by eauto).
  unfold cancel_job in E. destruct (text_ok (cancel_reason reason)); [|done]. unfold on_queue in E.
  destruct (Jobs.update_job _ _ _ _) as [r0 q0] eqn:Eu. injection E as -> <-.
  unfold Jobs.update_job in Eu. rewrite Hj in Eu. destruct (Jobs.active_state (Jobs.JobState j)) eqn:Ha.
  - destruct (Jobs.put_job _ _) as [[u|e] q1] eqn:Ep; [|done]. injection Eu as <- <-.
    apply put_job_cases in Ep as [[[=] _]|(_ & _ & ->)]. change (1 =? 1) with true. cbn [orb].
    repeat wp_step; cbn [committed]; try (left; by eauto). right. split; [done|]. apply (close_run_cases _ _ _ _ _ _ Hu) in E as ->.
    exists uid, run, j. eexists. split_and!; [done..|left; done|done].
  - injection Eu as <- <-. change (0 =? 1) with false. cbn [orb]. rewrite set_jobs_same.
    destruct (bool_decide (Jobs.JobState j = Jobs.StateCancelled)) eqn:Hcn.
    + apply bool_decide_eq_true in Hcn. repeat wp_step; cbn [committed]; try (left; by eauto). right. split; [done|].
      apply (close_run_cases _ _ _ _ _ _ Hu) in E as ->. exists uid, run, j. eexists. split_and!; [done..|right; left; done|done].
    + apply bool_decide_eq_false in Hcn. repeat wp_step; cbn [committed]; try (left; by eauto). right. split; [done|].
      exists uid, run, j, (jobs_of s). split_and!; [done..| |by rewrite set_jobs_same]. right. right.
      split_and!; [|done|done]. by destruct (Jobs.JobState j).
Qed.
End cancel.

Lemma closed_runs_keep id now q : runs_keep q (Jobs.mkStore ∅ ∅ (closed_runs id now (Jobs.runs q))).
Proof.
  intros i l Hl. cbn. unfold closed_runs. destruct (Jobs.runs q !! id) as [l0|] eqn:E; [|by exists l].
  destruct (open_run l0); [|by exists l]. destruct (decide (i = id)) as [->|Hne].
  - rewrite lookup_insert_eq. eexists. split; [done|]. cbn. congruence.
  - rewrite lookup_insert_ne by done. by exists l.
Qed.

Lemma cancelled_advances id reason now jid j q q' : rows_ok q -> Jobs.jobs q !! jid = Some j -> cancelled id reason now j q q' ->
  advances q q'.
Proof.
  intros HR Hj [[Ha ->]|[[Hc ->]|(_ & _ & ->)]].
  - assert (Ht : Jobs.terminal (Jobs.JobState j) = false) by by destruct (Jobs.JobState j).
    rewrite (ro_id _ HR _ _ Hj). apply (advance_replace _ _ j); [done|done| |done|done|apply closed_runs_keep].
    split; cbn; try done; try lia. by rewrite Ht.
  - split; [split; cbn; apply HR| |apply closed_runs_keep|done]. intros i k Hk. exists k. split; [done|apply evolves_refl].
  - by apply advances_refl.
Qed.
