(* ===== verification/ScenarioProofs.v ===== *)
(** What the scenario service computes, proved: shocks fit the database and their
    ranges, the choice of conversion quotes, the days of constant cash and the
    net asset values. *)

From S2P Require Import Prelude GoString Digits GoTime TimeText Decimal Order Paging Json Tables JournalService.
From S2P Require Import ScenarioModel ScenarioInputs ImportParser ImportProofs JournalTheorems.
From Stdlib Require Import Ascii QArith.
#[local] Open Scope Z_scope.
Import Scenario ScenarioInputs.

(** ** Shocks *)

Lemma split_cut c s i f : cut_char c s = (i, f) ->
  split_char c s = i :: match f with Some f => split_char c f | None => [] end.
Proof.
  revert i f. induction s as [|x s IH]; intros i f; cbn; [by intros [= <- <-]|].
  destruct (Ascii.eqb x c); [by intros [= <- <-]|].
  destruct (cut_char c s) as [p r]. intros [= <- <-]. by rewrite (IH p r eq_refl).
Qed.

Lemma split_char_not_nil c s : split_char c s <> [].
Proof. destruct (cut_char c s) as [i f] eqn:E. by rewrite (split_cut _ _ _ _ E). Qed.

Lemma int_part_cases i : int_part_ok i =
  negb (bool_decide (i = [])) && negb ((1 <? length i)%nat && bool_decide (head i = Some "0"%char)) && all_digits i.
Proof.
  destruct i as [|c r]; [done|]. cbn [int_part_ok head]. rewrite (bool_decide_eq_false_2 (c :: r = [])) by done. cbn [negb andb].
  destruct (Ascii.eqb_spec c "0") as [->|Hc].
  - rewrite (bool_decide_eq_true_2 (Some _ = Some _)) by done. destruct r as [|a r]; [done|].
    rewrite (bool_decide_eq_false_2 (a :: r = [])) by done. done.
  - rewrite (bool_decide_eq_false_2 (Some c = _)) by (by intros [= ->]). by rewrite andb_false_r.
Qed.

Lemma cut_char_all c s : is_digit c = false -> all_digits s = true -> cut_char c s = (s, None).
Proof. intros Hc Hs. apply cut_char_none. by apply all_digits_not. Qed.

(** The scenario service and the journal take the same decimals. *)
Lemma validateDecimalShock_persisted value :
  validateDecimalShock value = if JournalService.validPersistedDecimal value then JournalService.parseDecimal value else None.
Proof.
  unfold validateDecimalShock, JournalService.validPersistedDecimal, JournalService.parseDecimal, decimal_pattern.
  destruct (chars value) as [|c r] eqn:Hv; [done|].
  assert (Hu : chars (trim_prefix value "-") = if Ascii.eqb c "-" then r else c :: r).
  { unfold trim_prefix. rewrite Hv. change (chars "-") with ["-"%char]. cbn [strip_prefix].
    rewrite Ascii.eqb_sym. destruct (Ascii.eqb c "-"); [apply chars_of_chars|exact Hv]. }
  rewrite Hu. cbn [orb andb]. rewrite orb_false_r.
  set (u := if Ascii.eqb c "-" then r else c :: r).
  assert (Hb : (if Ascii.eqb c "-" then decimal_body r else decimal_body (c :: r)) = decimal_body u) by (by unfold u; case_match).
  rewrite Hb. clearbody u. clear Hb Hu. unfold decimal_body. destruct (cut_char "." u) as [i f] eqn:Hcut.
  rewrite (split_cut _ _ _ _ Hcut), int_part_cases.
  destruct (bool_decide (u = [])) eqn:Hun.
  { apply bool_decide_eq_true in Hun as ->. by injection Hcut as <- <-. }
  destruct f as [f|]; cbn [lookup list_lookup default from_option id length head forallb app andb].
  - destruct (cut_char "." f) as [f1 f2] eqn:Hf. rewrite (split_cut _ _ _ _ Hf).
    destruct f2 as [f2|].
    + pose proof (split_char_not_nil "." f2) as Hn. destruct (split_char "." f2) as [|g gs]; [done|]. cbn [length].
      assert (Hno : all_digits f = false).
      { apply not_true_iff_false. intros Ha. by rewrite cut_char_all in Hf. }
      rewrite Hno. cbn [Nat.ltb Nat.leb orb]. by rewrite !andb_false_r.
    + pose proof (cut_char_spec "." f) as Hs. rewrite Hf in Hs. cbn in Hs. subst f1. cbn [lookup list_lookup default from_option id length forallb].
      change (2 <? 2)%nat with false. change (2 =? 2)%nat with true. cbn [andb orb].
      rewrite (Nat.ltb_antisym (length i)), (Nat.ltb_antisym (length f)).
      by destruct (bool_decide (i = [])), (length i <=? 20)%nat, (bool_decide (f = [])), (length f <=? 18)%nat,
        (bool_decide (head i = Some "0"%char)), (1 <? length i)%nat, (all_digits i), (all_digits f).
  - change (2 <? 1)%nat with false. change (1 =? 2)%nat with false. cbn [andb orb]. rewrite (Nat.ltb_antisym (length i)).
    by destruct (bool_decide (i = [])), (length i <=? 20)%nat,
        (bool_decide (head i = Some "0"%char)), (1 <? length i)%nat, (all_digits i).
Qed.

(** A decimal text and the value NUMERIC(38,18) holds of it, to the last digit. *)
Definition numeral (text : string) (q : Q) : Prop :=
  exists z, parse_rat text = Some q /\ (q == z # Z.to_pos scale18)%Q /\ numeric_in text = Some z.

Lemma shock_numeral text q : validateDecimalShock text = Some q -> numeral text q.
Proof.
  rewrite validateDecimalShock_persisted. destruct (JournalService.validPersistedDecimal text) eqn:Hv; [|done]. intros Hq.
  destruct (decimal_shape_exact _ (persisted_valid _ Hv)) as (z & q' & Hq' & Heq & Hz & Hfit & _).
  unfold JournalService.validPersistedDecimal in Hv. apply andb_prop in Hv as [Hp _]. unfold JournalService.parseDecimal in Hq. rewrite Hp in Hq.
  assert (q' = q) as ->. { unfold parse_rat in Hq'. rewrite (pattern_trim _ Hp), Hq in Hq'. by injection Hq'. }
  exists z. split; [done|]. split; [done|]. unfold numeric_in. by rewrite Hq', Hz, Hfit.
Qed.

(** What a shock that passed the check can be. *)
Definition map_range (field : string) (q : Q) : Prop :=
  (field = "fx_pair_changes" -> (-1 < q)%Q) /\ (field = "asset_class_returns" -> (-1 <= q)%Q) /\
  (field = "volatility_multipliers" -> (0 <= q)%Q).

Definition scalar_range (field : string) (q : Q) : Prop :=
  (field = "correlation_target" -> (-1 <= q <= 1)%Q) /\ (field = "correlation_blend" -> (0 <= q <= 1)%Q).

Inductive sound_shock (field : string) : goval -> Prop :=
  | shock_unset : correlation_field field = true -> sound_shock field VNil
  | shock_scalar text q : scalar_field field = true -> numeral text q -> scalar_range field q -> sound_shock field (VStr text)
  | shock_map nested : map_field field = true ->
      (forall key value, (key, value) ∈ nested -> trim_space key <> "" /\
         exists text q, value = VStr text /\ numeral text q /\ map_range field q) ->
      sound_shock field (VMap nested).

Lemma decimal_ok_numeral ok value : decimal_ok ok value = true ->
  exists text q, value = VStr text /\ numeral text q /\ ok q = true.
Proof.
  destruct value; try done. cbn. destruct (validateDecimalShock s) as [q|] eqn:Hq; [|done]. intros Hok.
  exists s, q. split_and!; [done|by apply shock_numeral|done].
Qed.

Lemma map_shock_range field q : map_shock_ok field q = true -> map_range field q.
Proof.
  unfold map_shock_ok. intros H. split_and!; intros ->; cbn in H.
  - apply Qnot_le_lt. intros Hle. apply Qle_bool_iff in Hle. by rewrite Hle in H.
  - by apply Qle_bool_iff.
  - by apply Qle_bool_iff.
Qed.

Lemma scalar_shock_range field q : scalar_shock_ok field q = true -> scalar_range field q.
Proof. unfold scalar_shock_ok. intros H. split; intros ->; cbn in H; apply andb_prop in H as [H1 H2]; split; by apply Qle_bool_iff. Qed.

Lemma shock_ok_sound field value : shock_ok field value = true -> sound_shock field value.
Proof.
  unfold shock_ok. destruct (map_field field) eqn:Hm; cbn [negb andb].
  - destruct value; try done; [|].
    + intros H. exfalso. revert H Hm. unfold correlation_field, map_field. rewrite !bool_decide_eq_true. set_solver.
    + intros [Hv Hk]%andb_prop. apply shock_map; [done|]. intros key value Hin.
      rewrite forallb_forall in Hv, Hk. apply list_elem_of_In in Hin. specialize (Hv _ Hin). specialize (Hk _ Hin). cbn in Hv, Hk.
      split; [by apply negb_true_iff, bool_decide_eq_false in Hk|].
      destruct (decimal_ok_numeral _ _ Hv) as (text & q & -> & Hn & Hok). exists text, q. split_and!; [done..|]. by apply map_shock_range.
  - destruct (scalar_field field) eqn:Hs; cbn [negb]; [|done]. destruct value; try done; [by apply shock_unset|].
    intros H. destruct (decimal_ok_numeral _ _ H) as (text & q & [= ->] & Hn & Hok). eapply shock_scalar; [done..|]. by apply scalar_shock_range.
Qed.

(** C22: Every shock of a request that passes the check is a named one whose
    numbers NUMERIC(38,18) holds to the last digit and lie in the range of the
    field: a currency cannot lose everything, a return is at least minus one, a
    volatility multiplier is not negative, a correlation is within its bounds. *)
Theorem accepted_shocks_exact values : validateShocks values = true ->
  forall field value, (field, value) ∈ values -> sound_shock field value.
Proof.
  unfold validateShocks. rewrite forallb_forall. intros H field value Hin. apply shock_ok_sound.
  apply list_elem_of_In in Hin. exact (H _ Hin).
Qed.

Definition demo_shocks : list (string * goval) :=
  [("asset_class_returns", VMap [("crypto", VStr "-0.40")]); ("correlation_target", VStr "0.75"); ("correlation_blend", VNil)].

Lemma accepted_shocks_exact_witness :
  validateShocks demo_shocks = true /\ sound_shock "asset_class_returns" (VMap [("crypto", VStr "-0.40")]).
Proof.
  split; [reflexivity|]. apply (accepted_shocks_exact demo_shocks); [reflexivity|]. constructor.
Defined.

(** ** Conversion quotes *)

Lemma fx_before_observation x y : fx_before x y = true -> FXObservationTime y <= FXObservationTime x.
Proof.
  unfold fx_before, After. destruct (Z.eqb_spec (FXObservationTime x) (FXObservationTime y)); cbn [negb]; [lia|].
  rewrite Z.ltb_lt. lia.
Qed.

Lemma fx_not_before_observation x y : fx_before x y = false -> FXObservationTime x <= FXObservationTime y.
Proof.
  unfold fx_before, After. destruct (Z.eqb_spec (FXObservationTime x) (FXObservationTime y)); cbn [negb]; [lia|].
  rewrite Z.ltb_ge. lia.
Qed.

(** The first of the candidates, in whatever order they stand, is one observed last. *)
Lemma first_candidate_latest l r : head (insertion_sort fx_before l) = Some r ->
  r ∈ l /\ forall r', r' ∈ l -> FXObservationTime r' <= FXObservationTime r.
Proof.
  intros Hh. pose proof (insertion_sort_elem fx_before l) as He.
  assert (Hs : StronglySorted (fun x y => FXObservationTime y <= FXObservationTime x) (insertion_sort fx_before l)).
  { apply insertion_sort_refined; [intros x y z; lia|exact fx_before_observation|exact fx_not_before_observation]. }
  destruct (insertion_sort fx_before l) as [|x rest]; [done|]. injection Hh as ->. split; [apply He; constructor|].
  intros r' Hr'. apply He, elem_of_cons in Hr' as [->|Hr']; [lia|]. inversion Hs as [|? ? _ HF]; subst.
  rewrite Forall_forall in HF. by apply HF.
Qed.

(** A quote of an orientation, observed by a time and no older than allowed. *)
Definition usable_quote (direction : string) (observationTime : time) (maxAgeSeconds : Z) (r : metricFXRevision) : Prop :=
  Direction r = direction /\ FXObservationTime r <= observationTime /\
  observationTime - FXObservationTime r <= maxAgeSeconds * Second.

(** The ages the valuation service admits do not overflow a [time.Duration]. *)
Definition age_fits (maxAgeSeconds : Z) : Prop := 0 <= maxAgeSeconds <= 9000000000.

Lemma fx_candidate_usable direction t age r : age_fits age ->
  fx_candidate direction t age r = true <-> usable_quote direction t age r.
Proof.
  intros Ha. unfold fx_candidate, usable_quote, After. rewrite !andb_true_iff, bool_decide_eq_true, negb_true_iff, Z.ltb_ge, Z.leb_le.
  assert (Hw : wrap64 (age * Second) = age * Second).
  { apply wrap64_id. unfold age_fits, min_int64, max_int64, two63, Second in *. lia. }
  rewrite Hw. unfold Sub. cbv zeta. unfold age_fits, min_int64, max_int64, two63, Second in *.
  repeat match goal with |- context [?a <? ?b] => destruct (Z.ltb_spec a b) end; intuition lia.
Qed.

(** The quote chosen in an orientation: one observed last, if there is any. *)
Definition latest_usable (history : list metricFXRevision) (direction : string) (t : time) (age : Z)
    (r : metricFXRevision) : Prop :=
  r ∈ history /\ usable_quote direction t age r /\
  forall r', r' ∈ history -> usable_quote direction t age r' -> FXObservationTime r' <= FXObservationTime r.

Definition none_usable (history : list metricFXRevision) (direction : string) (t : time) (age : Z) : Prop :=
  forall r, r ∈ history -> ~ usable_quote direction t age r.

Lemma selectOrientation_spec history direction t age : age_fits age ->
  match selectOrientation history t age direction with
  | Some r => latest_usable history direction t age r
  | None => none_usable history direction t age
  end.
Proof.
  intros Ha. unfold selectOrientation. set (c := List.filter _ _).
  assert (Hc : forall r, r ∈ c <-> r ∈ history /\ usable_quote direction t age r).
  { intros r. unfold c. by rewrite filter_elem, fx_candidate_usable. }
  destruct (head (insertion_sort fx_before c)) as [r|] eqn:Hh.
  - apply first_candidate_latest in Hh as [Hr Hmax]. apply Hc in Hr as [Hr Hu]. split_and!; [done..|].
    intros r' Hr' Hu'. apply Hmax. by apply Hc.
  - intros r Hr Hu. assert (Hin : r ∈ insertion_sort fx_before c) by by apply insertion_sort_elem, Hc.
    by destruct (insertion_sort fx_before c); [apply not_elem_of_nil in Hin|].
Qed.

(** Among quotes that all have a source time, or none of which has, the
    comparison is an order. *)
Definition fx_comparator : comparator metricFXRevision :=
  desc FXObservationTime >> desc_null FXSourceKnownAt >> desc FXSystemKnownAt >> asc_text FXID.

Definition same_clocks (x y : metricFXRevision) : Prop := is_Some (FXSourceKnownAt x) <-> is_Some (FXSourceKnownAt y).

Lemma known_before_comparator x y : known_before x y = before (desc FXSystemKnownAt >> asc_text FXID) x y.
Proof.
  unfold known_before, before, then_by, desc, asc_text, After, string_cmp.
  destruct (Z.eqb_spec (FXSystemKnownAt x) (FXSystemKnownAt y)) as [->|Hne]; cbn [negb].
  - rewrite Z.compare_refl. destruct (string_ltb (FXID x) (FXID y)); [done|]. by destruct (string_ltb (FXID y) (FXID x)).
  - destruct (Z.compare_spec (FXSystemKnownAt y) (FXSystemKnownAt x)) as [|Hc|Hc]; [lia|by apply Z.ltb_lt|apply Z.ltb_ge; lia].
Qed.

Lemma fx_before_comparator x y : same_clocks x y -> fx_before x y = before fx_comparator x y.
Proof.
  intros Hs. unfold fx_before, fx_comparator. rewrite known_before_comparator. unfold before, then_by, desc, desc_null, After.
  destruct (Z.eqb_spec (FXObservationTime x) (FXObservationTime y)) as [->|Hne]; cbn [negb].
  - rewrite Z.compare_refl. destruct (FXSourceKnownAt x) as [a|] eqn:Hx, (FXSourceKnownAt y) as [b|] eqn:Hy; try done.
    + destruct (Z.eqb_spec a b) as [->|Hab]; cbn [negb]; [by rewrite Z.compare_refl|].
      destruct (Z.compare_spec b a) as [|Hc|Hc]; [lia|by apply Z.ltb_lt|apply Z.ltb_ge; lia].
    + exfalso. red in Hs. rewrite Hx, Hy in Hs. destruct (proj1 Hs (mk_is_Some _ _ eq_refl)); done.
    + exfalso. red in Hs. rewrite Hx, Hy in Hs. destruct (proj2 Hs (mk_is_Some _ _ eq_refl)); done.
  - destruct (Z.compare_spec (FXObservationTime y) (FXObservationTime x)) as [|Hc|Hc]; [lia|by apply Z.ltb_lt|apply Z.ltb_ge; lia].
Qed.

Lemma Forall2_equal {A} (P : A -> Prop) l l' : Forall2 (fun x y => x = y /\ P x) l l' -> l = l'.
Proof. induction 1 as [|x y l l' [-> _] _ IH]; [done|by rewrite IH]. Qed.

Lemma Forall2_diagonal {A} (P : A -> Prop) l : Forall P l -> Forall2 (fun x y => x = y /\ P x) l l.
Proof. by induction 1; constructor. Qed.

Lemma sort_comparator l : (forall x y, x ∈ l -> y ∈ l -> same_clocks x y) ->
  insertion_sort fx_before l = insertion_sort (before fx_comparator) l.
Proof.
  intros Hs. apply (Forall2_equal (fun x => x ∈ l)). apply insertion_sort_Forall2.
  - intros x y x' y' [<- Hx] [<- Hy]. apply fx_before_comparator. by apply Hs.
  - apply Forall2_diagonal. by apply Forall_forall.
Qed.

Lemma selectOrientation_first history direction t age r : age_fits age ->
  (forall x y, x ∈ history -> y ∈ history -> same_clocks x y) -> selectOrientation history t age direction = Some r ->
  forall r', r' ∈ history -> usable_quote direction t age r' -> before fx_comparator r' r = false.
Proof.
  intros Ha Hs Hr r' Hr' Hu. unfold selectOrientation in Hr. set (c := List.filter _ _) in Hr.
  assert (Hc : r' ∈ c) by by apply filter_elem; split; [|by apply fx_candidate_usable].
  rewrite sort_comparator in Hr.
  - destruct (insertion_sort (before fx_comparator) c) as [|x rest] eqn:E; [done|]. injection Hr as ->.
    exact (sorted_head fx_comparator _ _ _ _ E Hc).
  - intros x y [Hx _]%filter_elem [Hy _]%filter_elem. by apply Hs.
Qed.

(** The conversion quote of an observation is a direct one if any was observed
    by then and is not too old, else an inverse one; in its orientation none was
    observed later, and among quotes with the same clocks none comes first by
    observation, source time, system time and identifier.  It is none only when
    no quote of either orientation is usable. *)
Theorem fx_selection history t age : age_fits age ->
  match selectMetricFXRevision history t age with
  | Some r =>
      (latest_usable history "direct" t age r \/ none_usable history "direct" t age /\ latest_usable history "inverse" t age r) /\
      ((forall x y, x ∈ history -> y ∈ history -> same_clocks x y) ->
       forall r', r' ∈ history -> usable_quote (Direction r) t age r' -> before fx_comparator r' r = false)
  | None => none_usable history "direct" t age /\ none_usable history "inverse" t age
  end.
Proof.
  intros Ha. unfold selectMetricFXRevision.
  pose proof (selectOrientation_spec history "direct" t age Ha) as Hd.
  pose proof (selectOrientation_spec history "inverse" t age Ha) as Hi.
  destruct (selectOrientation history t age "direct") as [r|] eqn:E1.
  - split; [by left|]. intros Hs. destruct Hd as (_ & [-> _] & _). by eapply selectOrientation_first.
  - destruct (selectOrientation history t age "inverse") as [r|] eqn:E2; [|done].
    split; [by right|]. intros Hs. destruct Hi as (_ & [-> _] & _). by eapply selectOrientation_first.
Qed.

(** Three quotes of one observation, one of them without a source time: each
    comes before the next, and the choice follows the order they are listed in. *)
Definition quote_with (id : string) (source : option time) (system : time) : metricFXRevision :=
  mkFXRevision id "TRY/USD" "direct" 0 "0.03" source system "source_published_at".

Definition cyclic_quotes : list metricFXRevision :=
  [quote_with "x" (Some 10) 1; quote_with "z" (Some 5) 3; quote_with "y" None 2].

Lemma fx_before_cycle :
  match cyclic_quotes with
  | [x; z; y] => fx_before x z = true /\ fx_before z y = true /\ fx_before y x = true
  | _ => False
  end /\
  FXID <$> selectMetricFXRevision cyclic_quotes 0 60 <> FXID <$> selectMetricFXRevision (reverse cyclic_quotes) 0 60.
Proof. vm_compute. split; [auto|discriminate]. Qed.

Definition demo_quotes : list metricFXRevision :=
  [mkFXRevision "fx-later" "TRY/USD" "direct" 100 "0.031" None 50 "first_observed_by_system";
   mkFXRevision "fx-earlier" "TRY/USD" "direct" 100 "0.03" None 50 "first_observed_by_system";
   mkFXRevision "fx-reverse" "USD/TRY" "inverse" 200 "32" None 50 "first_observed_by_system"].

Lemma fx_selection_witness :
  latest_usable demo_quotes "direct" 300 7200 (mkFXRevision "fx-earlier" "TRY/USD" "direct" 100 "0.03" None 50 "first_observed_by_system").
Proof.
  pose proof (fx_selection demo_quotes 300 7200 ltac:(unfold age_fits; lia)) as H.
  assert (E : selectMetricFXRevision demo_quotes 300 7200 =
    Some (mkFXRevision "fx-earlier" "TRY/USD" "direct" 100 "0.03" None 50 "first_observed_by_system")) by (vm_compute; reflexivity).
  rewrite E in H. destruct H as [[H|[H _]] _]; [exact H|].
  exfalso. apply (H (mkFXRevision "fx-earlier" "TRY/USD" "direct" 100 "0.03" None 50 "first_observed_by_system")).
  - apply elem_of_cons. right. constructor.
  - vm_compute. split_and!; [reflexivity|discriminate..].
Defined.

(** ** The days of constant cash *)

Definition day_back (today k : Z) : string := format_date (civil_from_days (today - k)).

Definition saturday (day : Z) : bool := 6 <=? weekday_of_days day.

Definition back_days (today : Z) (n : nat) : list string :=
  day_back today <$> List.filter (fun k => negb (saturday (today - k))) (Z.of_nat <$> seq 0 n).

Lemma back_days_S today n : back_days today (S n) =
  back_days today n ++ if saturday (today - Z.of_nat n) then [] else [day_back today (Z.of_nat n)].
Proof.
  unfold back_days. rewrite seq_S, fmap_app, List.filter_app, fmap_app. cbn [fmap list_fmap List.filter Nat.add].
  by destruct (saturday _).
Qed.

Lemma back_days_elem today n day : day ∈ back_days today n <->
  exists k, 0 <= k < Z.of_nat n /\ saturday (today - k) = false /\ day = day_back today k.
Proof.
  unfold back_days. rewrite list_elem_of_fmap. split.
  - intros (k & -> & Hk). apply filter_elem in Hk as [Hk Hs]. apply list_elem_of_fmap in Hk as (j & -> & Hj).
    rewrite elem_of_seq in Hj. exists (Z.of_nat j). split; [lia|]. by apply negb_true_iff in Hs.
  - intros (k & Hk & Hs & ->). exists k. split; [done|]. apply filter_elem. split; [|by rewrite Hs].
    apply list_elem_of_fmap. exists (Z.to_nat k). split; [lia|]. rewrite elem_of_seq. lia.
Qed.

Section window.
Context (today : Z) (limit : nat) (Hfirst : four_digit_day today) (Hlast : four_digit_day (today - Z.of_nat limit)).

Lemma NoDup_back_days n : (n <= limit)%nat -> NoDup (back_days today n).
Proof.
  induction n as [|n IH]; intros Hn; [constructor|]. rewrite back_days_S. apply NoDup_app. split_and!; [apply IH; lia| |].
  - intros day Hday Hin. destruct (saturday _); [by apply elem_of_nil in Hin|]. apply list_elem_of_singleton in Hin as ->.
    apply back_days_elem in Hday as (k & Hk & _ & He). unfold day_back in He.
    pose proof (parse_day_format (today - k)) as H1. pose proof (parse_day_format (today - Z.of_nat n)) as H2.
    unfold four_digit_day in *. rewrite He in H2. rewrite H1 in H2 by lia. specialize (H2 ltac:(lia)). injection H2. lia.
  - destruct (saturday _); [constructor|apply NoDup_singleton].
Qed.

(** How far back the loop has come for the dates it has. *)
Definition paced (n : nat) : Prop :=
  (n <= 2 * length (back_days today n))%nat \/
  ((n <= 2 * length (back_days today n) + 1)%nat /\ saturday (today - Z.of_nat n + 1) = true).

Lemma paced_step n : paced n -> paced (S n).
Proof.
  unfold paced. rewrite back_days_S, length_app. destruct (saturday (today - Z.of_nat n)) eqn:Hs; cbn [length]; intros H.
  - right. split; [|by replace (today - Z.of_nat (S n) + 1) with (today - Z.of_nat n) by lia].
    destruct H as [H|[_ Hs']]; [lia|]. exfalso. revert Hs Hs'. unfold saturday, weekday_of_days. rewrite !Z.leb_le.
    Z.div_mod_to_equations. lia.
  - left. lia.
Qed.

Lemma dates_back_spec observations fuel : forall n,
  (2 * observations <= fuel + n)%nat -> (n + fuel <= limit)%nat -> paced n -> (length (back_days today n) <= observations)%nat ->
  exists m, dates_back fuel today (Z.of_nat n) observations (list_to_set (back_days today n)) = Some (list_to_set (back_days today m)) /\
    length (back_days today m) = observations /\ (m <= n + fuel)%nat.
Proof.
  induction fuel as [|fuel IH]; intros n Hf Hl Hp Hle; cbn [dates_back].
  all: rewrite size_list_to_set by (apply NoDup_back_days; lia).
  all: destruct (Nat.leb_spec observations (length (back_days today n))) as [Hge|Hlt];
    [exists n; split; [done|]; split; [lia|lia]|].
  - destruct Hp as [Hp|[Hp _]]; lia.
  - fold (saturday (today - Z.of_nat n)). pose proof (back_days_S today n) as HS.
    replace (Z.of_nat n + 1) with (Z.of_nat (S n)) by lia. destruct (saturday (today - Z.of_nat n)) eqn:Hs.
    + rewrite app_nil_r in HS. rewrite <- HS. destruct (IH (S n)) as (m & Hm & Hlen & Hb); [lia|lia|by apply paced_step|rewrite HS; lia|].
      exists m. split; [done|]. split; [done|lia].
    + assert (He : ({[format_date (civil_from_days (today - Z.of_nat n))]} ∪ list_to_set (back_days today n) : gset string) =
                   list_to_set (back_days today (S n))).
      { rewrite HS, list_to_set_app_L. cbn [list_to_set foldr]. by rewrite (right_id_L ∅ (∪)), (comm_L (∪)). }
      rewrite He. destruct (IH (S n)) as (m & Hm & Hlen & Hb); [lia|lia|by apply paced_step|rewrite HS, length_app; cbn; lia|].
      exists m. split; [done|]. split; [done|lia].
Qed.
End window.

(** The constant history of dollar cash always comes to an end, with exactly the
    number of days asked for: the days back from the cutoff, without a gap but
    for the Saturdays. *)
Theorem constant_days_back cutoff t n : 1 <= n -> parse_cutoff cutoff = Some t ->
  four_digit_day (t / day_ns) -> four_digit_day (t / day_ns - 2 * n) ->
  exists dates m, constantCashDates cutoff n = Some dates /\ Z.of_nat (size dates) = n /\ n <= m <= 2 * n /\
    forall day, day ∈ dates <->
      exists k, 0 <= k < m /\ weekday_of_days (t / day_ns - k) <> 6 /\ day = format_date (civil_from_days (t / day_ns - k)).
Proof.
  intros Hn Ht H1 H2. unfold constantCashDates. destruct (Z.ltb_spec n 1); [lia|]. rewrite Ht.
  assert (H3 : four_digit_day (t / day_ns - Z.of_nat (2 * Z.to_nat n))) by by replace (Z.of_nat (2 * Z.to_nat n)) with (2 * n) by lia.
  pose proof (dates_back_spec (t / day_ns) (2 * Z.to_nat n) H1 H3 (Z.to_nat n) (2 * Z.to_nat n) 0 ltac:(lia) ltac:(lia)
    ltac:(left; cbn; lia) ltac:(cbn; lia)) as (m & Hm & Hlen & Hb).
  cbn [back_days] in Hm. change (list_to_set (back_days (t / day_ns) 0) : gset string) with (∅ : gset string) in Hm.
  change (Z.of_nat 0) with 0 in Hm. rewrite Hm. exists (list_to_set (back_days (t / day_ns) m)), (Z.of_nat m). split; [done|].
  assert (Hnd : NoDup (back_days (t / day_ns) m)).
  { apply (NoDup_back_days (t / day_ns) (2 * Z.to_nat n)); [done|done|lia]. }
  rewrite size_list_to_set by done. split; [lia|]. split.
  - assert (Hle : (length (back_days (t / day_ns) m) <= m)%nat); [|lia]. unfold back_days. rewrite length_fmap.
    pose proof (List.filter_length_le (fun k => negb (saturday (t / day_ns - k))) (Z.of_nat <$> seq 0 m)) as Hf.
    by rewrite length_fmap, length_seq in Hf.
  - intros day. rewrite elem_of_list_to_set, back_days_elem. unfold saturday, day_back.
    split; intros (k & Hk & Hs & ->); exists k; (split; [done|]; split; [|done]); [rewrite Z.leb_gt in Hs; lia|].
    rewrite Z.leb_gt. pose proof (Z.mod_pos_bound (t / day_ns - k + 4) 7 ltac:(lia)). unfold weekday_of_days in *. lia.
Qed.

(** The text PostgreSQL gives for the fifth of January 2026, a Monday: the
    fourth, a Sunday, is among the days, the third is not. *)
Lemma constant_days_back_witness :
  exists dates, constantCashDates "2026-01-05 00:00:00+00" 64 = Some dates /\ Z.of_nat (size dates) = 64 /\
    "2026-01-04" ∈ dates /\ "2026-01-03" ∉ dates.
Proof.
  destruct (constant_days_back "2026-01-05 00:00:00+00" (days_from_civil 2026 1 5 * day_ns) 64) as (dates & m & Hd & Hs & Hm & Hin);
    [lia|vm_compute; reflexivity|vm_compute; split; discriminate|vm_compute; split; discriminate|].
  exists dates. split; [exact Hd|]. split; [exact Hs|].
  assert (E : constantCashDates "2026-01-05 00:00:00+00" 64 = Some dates /\
    (bool_decide ("2026-01-04" ∈ default ∅ (constantCashDates "2026-01-05 00:00:00+00" 64)) &&
     negb (bool_decide ("2026-01-03" ∈ default ∅ (constantCashDates "2026-01-05 00:00:00+00" 64)))) = true).
  { split; [exact Hd|vm_compute; reflexivity]. }
  destruct E as [E1 E2]. rewrite E1 in E2. cbn [default from_option id] in E2. apply andb_prop in E2 as [E2 E3]. split.
  - by apply bool_decide_eq_true in E2.
  - apply negb_true_iff in E3. by apply bool_decide_eq_false in E3.
Defined.

(** ** Net asset values *)

#[export] Instance FloatString18_proper : Proper (Qeq ==> eq) FloatString18.
Proof. intros v w H. unfold FloatString18. by rewrite (Num_proper _ _ H), (round18_proper _ _ H), (formatDecimal_proper _ _ H). Qed.

(** A day every instrument has a price on. *)
Definition common (prices : gmap string (gmap string string)) (day : string) : Prop :=
  prices <> ∅ /\ forall id history, prices !! id = Some history -> is_Some (history !! day).

(** The value of a holding on a day. *)
Definition term_of (quantities : gmap string string) (day : string) (kv : string * gmap string string) (term : Q) : Prop :=
  exists q p, set_string (chars (default "" (quantities !! fst kv))) = Some q /\
    positive_rat (default "" (snd kv !! day)) = Some p /\ term = (q * p)%Q.

(** The text of the sum of the holdings, in whatever order they are visited. *)
Definition nav_value (prices : gmap string (gmap string string)) (quantities : gmap string string) (day text : string) : Prop :=
  forall entries, entries ≡ₚ map_to_list prices -> exists terms, Forall2 (term_of quantities day) entries terms /\
    text = FloatString18 (fold_left Qplus terms 0%Q).

Lemma sum_from l : forall a, (fold_left Qplus l a == a + fold_left Qplus l 0)%Q.
Proof.
  induction l as [|x l IH]; intros a; cbn [fold_left]; [ring|]. rewrite (IH (a + x)%Q), (IH (0 + x)%Q). ring.
Qed.

Lemma sum_permutation l1 l2 : l1 ≡ₚ l2 -> (fold_left Qplus l1 0 == fold_left Qplus l2 0)%Q.
Proof.
  induction 1 as [|x l1 l2 H IH|x y l|l1 l2 l3 H1 IH1 H2 IH2]; [reflexivity| | |by rewrite IH1]; cbn [fold_left].
  - by rewrite (sum_from l1), (sum_from l2), IH.
  - rewrite (sum_from l (0 + y + x)%Q), (sum_from l (0 + x + y)%Q). ring.
Qed.

Lemma nav_value_intro prices quantities day terms :
  Forall2 (term_of quantities day) (map_to_list prices) terms ->
  nav_value prices quantities day (FloatString18 (fold_left Qplus terms 0%Q)).
Proof.
  intros Ht entries Hp. symmetry in Hp. destruct (Permutation_Forall2 Hp Ht) as (terms' & Hp' & Ht').
  exists terms'. split; [done|]. by rewrite (sum_permutation _ _ Hp').
Qed.

Lemma common_days_elem histories day : day ∈ common_days histories <->
  histories <> [] /\ forall kv, kv ∈ histories -> is_Some (snd kv !! day).
Proof.
  destruct histories as [|[id h] rest]; [by split; [set_solver|intros []]|]. cbn [common_days].
  assert (Hg : forall l (days : gset string), day ∈ fold_left (fun days kv => filter (fun day => is_Some (snd kv !! day)) days) l days <->
    day ∈ days /\ forall kv : string * gmap string string, kv ∈ l -> is_Some (snd kv !! day)).
  { induction l as [|kv l IH]; intros days; cbn [fold_left].
    - split; [|by intros []]. intros H. split; [done|]. intros kv Hkv. by apply not_elem_of_nil in Hkv.
    - rewrite IH, elem_of_filter. split.
      + intros [[H1 H2] H3]. split; [done|]. intros kv' [->|Hk]%elem_of_cons; auto.
      + intros [H1 H2]. split; [split; [|done]|]; [|intros kv' Hk]; apply H2; set_solver. }
  rewrite Hg, elem_of_dom. split.
  - intros [H1 H2]. split; [done|]. intros kv [->|Hk]%elem_of_cons; auto.
  - intros [_ H]. split; [apply (H (id, h)); set_solver|]. intros kv Hk. apply H. set_solver.
Qed.

Lemma common_map prices day : day ∈ common_days (map_to_list prices) <-> common prices day.
Proof.
  rewrite common_days_elem. unfold common. rewrite map_to_list_empty_iff. split; intros [Hne H]; (split; [done|]).
  - intros id h Hh. apply (H (id, h)). by apply elem_of_map_to_list.
  - intros [id h] Hh%elem_of_map_to_list. by eapply H.
Qed.

Lemma fold_nav quantities day l : forall acc total,
  fold_left (nav_term quantities day) l (Some acc) = Some total <->
  exists terms, Forall2 (term_of quantities day) l terms /\ total = fold_left Qplus terms acc.
Proof.
  induction l as [|kv l IH]; intros acc total; cbn [fold_left].
  - split; [intros [= <-]; by exists []|]. intros (terms & Ht & ->). by inversion Ht.
  - unfold nav_term at 2. cbn [mbind option_bind].
    destruct (set_string (chars (default "" (quantities !! fst kv)))) as [q|] eqn:Hq;
      [destruct (positive_rat (default "" (snd kv !! day))) as [p|] eqn:Hp|]; cbn [mbind option_bind].
    + rewrite IH. split.
      * intros (terms & Ht & ->). exists ((q * p)%Q :: terms). split; [|done]. constructor; [by exists q, p|done].
      * intros (terms & Ht & ->). inversion Ht as [|? t ? terms' (q' & p' & Hq' & Hp' & ->) Ht']; subst.
        rewrite Hq in Hq'. rewrite Hp in Hp'. injection Hq' as <-. injection Hp' as <-. by exists terms'.
    + assert (Hn : fold_left (nav_term quantities day) l None = None) by (clear; by induction l).
      rewrite Hn. split; [done|]. intros (terms & Ht & _). inversion Ht as [|? ? ? ? (q' & p' & _ & Hp' & _) _]; subst. congruence.
    + assert (Hn : fold_left (nav_term quantities day) l None = None) by (clear; by induction l).
      rewrite Hn. split; [done|]. intros (terms & Ht & _). inversion Ht as [|? ? ? ? (q' & p' & Hq' & _) _]; subst. congruence.
Qed.

Lemma nav_day_value prices quantities day kv :
  nav_day (map_to_list prices) quantities day = Some kv <-> fst kv = day /\ nav_value prices quantities day (snd kv).
Proof.
  unfold nav_day. destruct (fold_left _ _ _) as [total|] eqn:Hf; cbn [mbind option_bind].
  - apply fold_nav in Hf as (terms & Ht & ->). pose proof (nav_value_intro _ _ _ _ Ht) as Hv. split; [by intros [= <-]|].
    destruct kv as [d text]. cbn. intros [-> H]. destruct (H _ (reflexivity _)) as (t1 & H1 & ->).
    destruct (Hv _ (reflexivity _)) as (t2 & H2 & E2). do 2 f_equal. rewrite E2. f_equal.
    assert (t1 = t2) as ->; [|done]. clear -H1 H2. revert t2 H2. induction H1 as [|kv t l ts Hd _ IH]; intros t2 H2; inversion H2 as [|? ? ? ? Hd' Hr]; subst; [done|].
    destruct Hd as (q & p & Hq & Hp & ->), Hd' as (q' & p' & Hq' & Hp' & ->). rewrite Hq in Hq'. rewrite Hp in Hp'.
    injection Hq' as ->. injection Hp' as ->. f_equal. by apply IH.
  - split; [done|]. intros [_ H]. destruct (H _ (reflexivity _)) as (terms & Ht & _).
    assert (Hs : fold_left (nav_term quantities day) (map_to_list prices) (Some 0%Q) = Some (fold_left Qplus terms 0%Q))
      by (apply fold_nav; by exists terms). congruence.
Qed.

Lemma Forall2_keys (f : string -> option (string * string)) days l : (forall day kv, f day = Some kv -> fst kv = day) ->
  Forall2 (fun day kv => f day = Some kv) days l -> l.*1 = days.
Proof. intros Hf. induction 1 as [|d kv ds l Hd _ IH]; [done|]. cbn. by rewrite (Hf _ _ Hd), IH. Qed.

Lemma days_map (f : string -> option (string * string)) (days : gset string) nav :
  (forall day kv, f day = Some kv -> fst kv = day) ->
  (list_to_map <$> mapM f (elements days) : option (gmap string string)) = Some nav <->
  forall day, (day ∈ days -> exists text, nav !! day = Some text /\ f day = Some (day, text)) /\ (day ∉ days -> nav !! day = None).
Proof.
  intros Hf. split.
  - destruct (mapM f (elements days)) as [l|] eqn:Hm; [|done]. intros [= <-]. apply mapM_Some in Hm. intros day.
    pose proof (Forall2_keys _ _ _ Hf Hm) as Hkeys.
    assert (Hnd : NoDup l.*1) by (rewrite Hkeys; apply NoDup_elements). split.
    + intros Hd. apply elem_of_elements, list_elem_of_lookup in Hd as [i Hi]. destruct (Forall2_lookup_l _ _ _ _ _ Hm Hi) as ([d text] & Hl & Ht).
      pose proof (Hf _ _ Ht) as Hd. cbn in Hd. subst d. exists text. split; [|done]. apply elem_of_list_to_map; [done|].
      by eapply list_elem_of_lookup_2.
    + intros Hd. apply not_elem_of_list_to_map. by rewrite Hkeys, elem_of_elements.
  - intros H. assert (Hm : exists l, mapM f (elements days) = Some l).
    { apply mapM_is_Some_2, Forall_forall. intros d Hd%elem_of_elements. destruct (proj1 (H d) Hd) as (text & _ & He). by exists (d, text). }
    destruct Hm as [l Hm]. rewrite Hm. cbn. f_equal. apply map_eq. intros day. apply mapM_Some in Hm.
    pose proof (Forall2_keys _ _ _ Hf Hm) as Hkeys.
    destruct (decide (day ∈ days)) as [Hd|Hd].
    + destruct (proj1 (H day) Hd) as (text & -> & Ht). apply elem_of_list_to_map; [rewrite Hkeys; apply NoDup_elements|].
      apply elem_of_elements, list_elem_of_lookup in Hd as [i Hi]. destruct (Forall2_lookup_l _ _ _ _ _ Hm Hi) as (kv & Hl & Ht').
      rewrite Ht in Ht'. injection Ht' as <-. by eapply list_elem_of_lookup_2.
    + rewrite (proj2 (H day) Hd). apply not_elem_of_list_to_map. by rewrite Hkeys, elem_of_elements.
Qed.

(** The net asset value history has exactly the days every instrument has a
    price on, each with the exact sum of quantity times price over all
    instruments to eighteen decimals, in whatever order the maps are visited; and
    there is none exactly when an instrument has no quantity, no day is common,
    or on a common day a quantity is no number or a price is not positive. *)
Theorem nav_exact prices quantities nav :
  buildMetricNAV prices quantities = Some nav <->
  (forall id, is_Some (prices !! id) -> is_Some (quantities !! id)) /\ (exists day, common prices day) /\
  (forall day, common prices day -> exists text, nav !! day = Some text /\ nav_value prices quantities day text) /\
  (forall day, ~ common prices day -> nav !! day = None).
Proof.
  unfold buildMetricNAV. destruct (existsb _ _) eqn:Hex.
  - split; [done|]. intros (Hq & (day & _ & Hday) & _). apply existsb_exists in Hex as ([id h] & Hin & Hbad). cbn in Hbad.
    apply list_elem_of_In, elem_of_map_to_list in Hin. destruct (Hq id (mk_is_Some _ _ Hin)) as [q Eq]. rewrite Eq in Hbad.
    rewrite bool_decide_false in Hbad by done. cbn in Hbad. apply bool_decide_eq_true in Hbad as ->.
    destruct (Hday _ _ Hin) as [? He]. by rewrite lookup_empty in He.
  - assert (Hq : forall id, is_Some (prices !! id) -> is_Some (quantities !! id)).
    { intros id [h Hh]. destruct (quantities !! id) eqn:Eq; [done|]. exfalso. apply not_true_iff_false in Hex. apply Hex, existsb_exists.
      exists (id, h). split; [by apply list_elem_of_In, elem_of_map_to_list|]. cbn. by rewrite bool_decide_true. }
    clear Hex. case_bool_decide as Hd.
    + split; [done|]. intros (_ & (day & Hc) & _). apply common_map in Hc. rewrite Hd in Hc. set_solver.
    + rewrite days_map by (intros day kv Hkv; by apply nav_day_value in Hkv as [? _]). split.
      * intros H. split; [done|]. split; [apply set_choose_L in Hd as [day Hd]; exists day; by apply common_map|].
        split; intros day Hc; rewrite <- common_map in Hc; [|by apply H].
        destruct (proj1 (H day) Hc) as (text & Ht & [_ Hv]%nav_day_value). by exists text.
      * intros (_ & _ & H1 & H2) day. split; intros Hc; rewrite common_map in Hc; [|by apply H2].
        destruct (H1 _ Hc) as (text & Ht & Hv). exists text. split; [done|]. by apply nav_day_value.
Qed.

Definition demo_prices : gmap string (gmap string string) :=
  {[ "i1" := {[ "2026-01-02" := "100"; "2026-01-05" := "101.5" ]};
     "i2" := {[ "2026-01-05" := "0.031250000000000000"; "2026-01-06" := "0.03" ]} ]}.

Example nav_ex : buildMetricNAV demo_prices {[ "i1" := "2"; "i2" := "-32" ]} = Some {[ "2026-01-05" := "202.000000000000000000" ]}.
Proof. vm_compute. reflexivity. Qed.
