(* ===== verification/ScenarioSeal.v ===== *)
(** The sealed inputs of a scenario run, proved: what the histories hold was known
    when the valuation says, was observed by its cutoff, and is converted with a
    quote observed no later. *)

From S2P Require Import Prelude GoString Digits GoTime TimeText Decimal Order Paging Db Json JsonTree Tables Jobs.
From S2P Require Import ScenarioModel ScenarioInputs Scenarios ScenarioProofs.
From Stdlib Require Import Ascii QArith SpecFloat.
#[local] Open Scope Z_scope.
Import Scenario ScenarioInputs Scenarios.

(** ** Reading inside a transaction

    [sees s m P]: over the working store [s], [m] leaves both stores alone, and a
    result satisfies [P]. *)
Section sees.
Context {S : Type} (s : S).

Definition sees {A} (m : dbm S A) (P : A -> Prop) : Prop :=
  forall c fs, exists r fs', m (Db c s fs) = (r, Db c s fs') /\ match r with Ok a => P a | Err _ => True end.

Lemma sees_mono {A} (m : dbm S A) (P Q : A -> Prop) : sees m P -> (forall a, P a -> Q a) -> sees m Q.
Proof. intros Hm HPQ c fs. destruct (Hm c fs) as (r & fs' & He & Hr). exists r, fs'. split; [done|]. destruct r; auto. Qed.

Lemma sees_ret {A} (a : A) (P : A -> Prop) : P a -> sees (ret a) P.
Proof. intros HP c fs. by eexists _, _. Qed.

Lemma sees_throw {A} e (P : A -> Prop) : sees (throw e) P.
Proof. intros c fs. by eexists _, _. Qed.

Lemma sees_of_res {A} (r : res A) (P : A -> Prop) : (forall a, r = Ok a -> P a) -> sees (of_res r) P.
Proof. intros HP c fs. exists r, fs. split; [done|]. destruct r; auto. Qed.

Lemma sees_bind {A B} (m : dbm S A) (k : A -> dbm S B) P Q :
  sees m P -> (forall a, P a -> sees (k a) Q) -> sees (bind m k) Q.
Proof.
  intros Hm Hk c fs. destruct (Hm c fs) as (r & fs' & He & Hr). unfold bind. rewrite He.
  destruct r as [a|e]; [|by eexists _, _]. exact (Hk a Hr c fs').
Qed.

Lemma sees_wrap {A} ctx (m : dbm S A) P : sees m P -> sees (wrap ctx m) P.
Proof.
  intros Hm c fs. destruct (Hm c fs) as (r & fs' & He & Hr). unfold wrap. rewrite He. destruct r; by eexists _, _.
Qed.

Lemma sees_query {A} (f : S -> res A) (P : A -> Prop) : (forall a, f s = Ok a -> P a) -> sees (query f) P.
Proof.
  intros HP c fs. unfold query, stmt, guarded, next_fault. destruct fs as [|[] fs]; cbn; [|by eexists _, _|];
    destruct (f s) as [a|e] eqn:E; (eexists _, _; split; [reflexivity|]; cbn; auto).
Qed.

Lemma sees_attempt {A} (m : dbm S A) (P : A -> Prop) :
  sees m P -> sees (attempt m) (fun r => match r with Ok a => P a | Err _ => True end).
Proof. intros Hm c fs. destruct (Hm c fs) as (r & fs' & He & Hr). unfold attempt. rewrite He. by eexists _, _. Qed.

Lemma sees_fold {A B} (f : B -> A -> dbm S B) (I : B -> Prop) l : (forall b x, I b -> sees (f b x) I) ->
  forall b, I b -> sees (fold_m f b l) I.
Proof.
  intros Hf. induction l as [|x l IH]; intros b Hb; cbn [fold_m]; [by apply sees_ret|].
  eapply sees_bind; [by apply Hf|]. exact IH.
Qed.
End sees.

(** ** Where a revision comes from *)

#[export] Instance newest_known_preordered {R} mode (source : R -> option time) system : Preordered (newest_known mode source system).
Proof. unfold newest_known. destruct (bool_decide _); exact _. Qed.

Section seal.
Context (timestamptz_out : time -> string) (timestamptz_in : string -> option time).
Context (s : store) (vr : ValuationRunRow).

Abbreviation mode := (vr_knowledge_mode vr).
Abbreviation cutoff := (vr_cutoff vr).
Abbreviation known := (vr_known_at vr).

(** A stored price of the instrument in the unit, eligible at the valuation's
    clocks; of the eligible prices of its observation none was known later. *)
Definition price_from (instrument unit : string) (r : metricPriceRevision) : Prop :=
  exists row, prices (base s) !! PriceID r = Some row /\ pr_instrument row = instrument /\ pr_quote row = unit /\
    r = to_price_revision unit s (PriceID r, row) /\ in_window cutoff (pr_observation row) = true /\
    known_by mode known (pr_source_known row) (pr_system_known row) = true /\
    forall id row', prices (base s) !! id = Some row' -> pr_instrument row' = instrument -> pr_quote row' = unit ->
      pr_observation row' = pr_observation row -> known_by mode known (pr_source_known row') (pr_system_known row') = true ->
      before (newest_known mode pr_source_known pr_system_known) (id, row') (PriceID r, row) = false.

(** A stored quote between the currency and the dollar, eligible likewise. *)
Definition quote_from (currency : string) (f : metricFXRevision) : Prop :=
  exists row, fx_quotes (base s) !! FXID f = Some row /\
    (fx_base row = currency /\ fx_quote row = "USD" \/ fx_base row = "USD" /\ fx_quote row = currency) /\
    f = to_fx_revision currency s (FXID f, row) /\ in_window cutoff (fx_observation row) = true /\
    known_by mode known (fx_source_known row) (fx_system_known row) = true.

(** The quote an observation is converted with: the one the choice falls on, so
    observed no later than it. *)
Definition converts (currency : string) (t : time) (f : metricFXRevision) : Prop :=
  quote_from currency f /\
  selectMetricFXRevision (select_fx_history currency mode cutoff known s) t (vr_fx_max_age vr) = Some f.

(** An entry of the price histories: a stored price with its price in dollars,
    or without one when no quote converts it. *)
Definition price_entry (instrument : string) (r : metricPriceRevision) : Prop :=
  exists unit r0, price_from instrument unit r0 /\
    (trim_space unit = "USD" /\ r = in_dollars (Price r0) [] r0 \/
     trim_space unit <> "USD" /\
       (r = r0 \/ exists f usdPrice, converts (trim_space unit) (ObservationTime r0) f /\
          convertMetricPriceToUSD (Price r0) (Rate f) (Direction f) = Ok usdPrice /\ r = in_dollars usdPrice [f] r0)).

(** An entry of the cash histories: a unit of the currency converted with a stored
    quote, or the constant of the dollar. *)
Definition cash_entry (instrument : string) (r : metricPriceRevision) : Prop :=
  (exists day n, parse_day day = Some n /\ r = mkPriceRevision (constant_cash_id instrument day) (n * day_ns) "1" "USD" "1" []
                   None zero_time "constant_cash") \/
  (exists currency t f usdPrice, converts currency t f /\ convertMetricPriceToUSD "1" (Rate f) (Direction f) = Ok usdPrice /\
     r = cash_revision currency usdPrice f).

Lemma price_history_from instrument unit r :
  r ∈ select_price_history instrument unit mode cutoff known s -> price_from instrument unit r.
Proof.
  unfold select_price_history. cbv zeta. intros ([id row] & -> & Hin)%list_elem_of_fmap. rewrite insertion_sort_elem in Hin.
  unfold select, revision_order in Hin. rewrite distinct_sorted_spec in Hin.
  - destruct Hin as [Hin Hleast]. rewrite filter_elem, elem_of_map_to_list in Hin. cbn [fst snd] in Hin. destruct Hin as [Hrow Hp].
    rewrite !andb_true_iff, !bool_decide_eq_true in Hp. destruct Hp as [[[Hi Hu] Hw] Hk].
    exists row. split_and!; [done..|]. intros id' row' Hrow' Hi' Hu' Ho Hk'. cbn [PriceID to_price_revision].
    apply (Hleast (id', row')); [|unfold asc; cbn [snd]; rewrite Ho; apply Z.compare_refl].
    rewrite filter_elem, elem_of_map_to_list. cbn [fst snd]. split; [done|]. rewrite !andb_true_iff, !bool_decide_eq_true.
    by rewrite Ho.
  - exact _.
  - exact _.
  - intros [i1 r1] [i2 r2] H1 H2 _ Hr. rewrite filter_elem, elem_of_map_to_list in H1, H2. cbn [fst snd] in H1, H2.
    destruct H1 as [H1 _], H2 as [H2 _].
    assert (Hid : asc_text fst (i1, r1) (i2, r2) = Eq).
    { unfold newest_known, then_by in Hr. destruct (bool_decide _); repeat case_match; congruence. }
    unfold asc_text in Hid. apply string_cmp_eq in Hid. cbn in Hid. subst i2. rewrite H1 in H2. by injection H2 as ->.
Qed.

Lemma fx_history_from currency f : f ∈ select_fx_history currency mode cutoff known s -> quote_from currency f.
Proof.
  unfold select_fx_history. intros ([id row] & -> & Hin)%list_elem_of_fmap. apply select_elem in Hin as [Hrow Hp].
  rewrite !andb_true_iff, orb_true_iff, !andb_true_iff, !bool_decide_eq_true in Hp. destruct Hp as [[Hq Hw] Hk].
  exists row. cbn [FXID to_fx_revision]. split_and!; [done|done|done|done|done].
Qed.

Lemma selectMetricFXRevision_elem history t age f : selectMetricFXRevision history t age = Some f -> f ∈ history.
Proof.
  assert (Ho : forall direction, selectOrientation history t age direction = Some f -> f ∈ history).
  { intros direction Hf. unfold selectOrientation in Hf.
    destruct (insertion_sort _ _) as [|x rest] eqn:E; [done|]. injection Hf as ->.
    assert (Hin : f ∈ f :: rest) by constructor. rewrite <- E, insertion_sort_elem, filter_elem in Hin. apply Hin. }
  unfold selectMetricFXRevision. destruct (selectOrientation history t age "direct") as [g|] eqn:E.
  - intros [= ->]. by eapply Ho.
  - apply Ho.
Qed.

Lemma selected_converts currency t f :
  selectMetricFXRevision (select_fx_history currency mode cutoff known s) t (vr_fx_max_age vr) = Some f -> converts currency t f.
Proof. intros H. split; [|done]. by apply fx_history_from, (selectMetricFXRevision_elem _ _ _ _ H). Qed.

(** ** What the lines contribute *)

(** The header of the run, its clocks read back by the database. *)
Definition header_of (h : header) : Prop :=
  hd_mode h = mode /\ hd_fx_age h = vr_fx_max_age vr /\
  timestamptz_in (hd_cutoff h) = Some cutoff /\ timestamptz_in (hd_known_at h) = Some known.

Definition recorded (entry : string -> metricPriceRevision -> Prop) (histories : gmap string (list goval)) : Prop :=
  forall id l, histories !! id = Some l -> exists history, l = metricPriceRevisionMaps history /\ Forall (entry id) history.

Lemma recorded_insert entry histories id history : recorded entry histories -> Forall (entry id) history ->
  recorded entry (<[id := metricPriceRevisionMaps history]> histories).
Proof.
  intros Hr Hh id' l. rewrite lookup_insert_Some. intros [[<- <-]|[_ Hl]]; [by exists history|]. by apply Hr.
Qed.

Record histories_ok (m : metrics) : Prop := {
  ho_prices : recorded price_entry (metricPriceProvenance m);
  ho_cash : recorded cash_entry (metricCashProvenance m);
  ho_fx : forall currency history, metricFXHistories m !! currency = Some history ->
    history = select_fx_history currency mode cutoff known s;
}.

Lemma keep_history_ok (cash : bool) id history m : histories_ok m ->
  Forall (if cash then cash_entry id else price_entry id) history -> histories_ok (keep_history cash id history m).
Proof. intros [Hp Hc Hf] Hh. destruct cash; constructor; cbn; auto using recorded_insert. Qed.

Lemma histories_ok_same m m' : histories_ok m -> metricPriceProvenance m' = metricPriceProvenance m ->
  metricCashProvenance m' = metricCashProvenance m -> metricFXHistories m' = metricFXHistories m -> histories_ok m'.
Proof. intros [Hp Hc Hf] E1 E2 E3. constructor; [by rewrite E1|by rewrite E2|by rewrite E3]. Qed.

Context (h : header) (Hh : header_of h).

Lemma with_clocks_read {A} (f : time -> time -> store -> A) a :
  with_clocks timestamptz_in (hd_cutoff h) (hd_known_at h) f s = Ok a -> a = f cutoff known s.
Proof. destruct Hh as (_ & _ & Hc & Hk). unfold with_clocks. rewrite Hc, Hk. by intros [= <-]. Qed.

Lemma cached_fx_sees ctx currency m : histories_ok m ->
  sees s (cached_fx timestamptz_in ctx currency h m)
    (fun r => fst r = select_fx_history currency mode cutoff known s /\ histories_ok (snd r)).
Proof.
  intros Hm. unfold cached_fx. destruct (metricFXHistories m !! currency) as [history|] eqn:E.
  - apply sees_ret. split; [|done]. by apply (ho_fx m Hm).
  - eapply (sees_bind s _ _ (fun a => a = select_fx_history currency (hd_mode h) cutoff known s)).
    { apply sees_wrap, sees_query. intros a Ha. exact (with_clocks_read _ _ Ha). }
    intros a ->. destruct Hh as (Hmode & _). rewrite Hmode. apply sees_ret. split; [done|]. destruct Hm as [Hp Hc Hf]. constructor; [done|done|].
    cbn. intros c history. rewrite lookup_insert_Some. intros [[<- <-]|[_ Hl]]; [done|]. by apply Hf.
Qed.

Lemma convert_history_sees instrument unit history : Forall (price_from instrument unit) history -> forall m, histories_ok m ->
  sees s (convert_history timestamptz_in h (trim_space unit) history m)
    (fun r => Forall (price_entry instrument) (fst r) /\ histories_ok (snd r)).
Proof.
  induction 1 as [|r rest Hr _ IH]; intros m Hm; cbn [convert_history]; [by apply sees_ret|].
  eapply (sees_bind s _ _ (fun p => price_entry instrument (fst p) /\ histories_ok (snd p))).
  - assert (Hpath : FXPath r = []) by (destruct Hr as (row & _ & _ & _ & -> & _); done).
    destruct (bool_decide (trim_space unit = "USD")) eqn:Hu.
    + apply bool_decide_eq_true in Hu. apply sees_ret. split; [|done]. exists unit, r. rewrite Hpath. auto.
    + apply bool_decide_eq_false in Hu. eapply sees_bind; [by apply cached_fx_sees|].
      intros [fx m'] [E Hm']. cbn [fst snd] in *. subst fx. destruct Hh as (_ & Hage & _). rewrite Hage.
      destruct (selectMetricFXRevision _ _ _) as [f|] eqn:Hsel.
      * eapply sees_bind; [apply sees_wrap, sees_of_res; intros a; apply id|]. intros usd Husd. apply sees_ret. split; [|done].
        exists unit, r. split; [done|]. right. split; [done|]. right. exists f, usd. split; [by apply selected_converts|]. done.
      * apply sees_ret. split; [exists unit, r; auto|]. by apply (histories_ok_same m').
  - intros [r' m'] [Hr' Hm']. eapply sees_bind; [by apply IH|]. intros [others m2] [Ho Hm2]. apply sees_ret. cbn [fst snd] in *.
    split; [by constructor|done].
Qed.

Lemma priced_metrics_sees line m : histories_ok m ->
  sees s (priced_metrics timestamptz_in h line m) histories_ok.
Proof.
  intros Hm. unfold priced_metrics. destruct (quoteUnit line) as [unit|]; [|apply sees_ret; by apply (histories_ok_same m)].
  destruct (bool_decide (priceMethod line = "revision")); cbn [negb]; [|apply sees_ret; by apply (histories_ok_same m)].
  eapply (sees_bind s _ _ (fun a => a = select_price_history (instrumentID line) unit (hd_mode h) cutoff known s)).
  { apply sees_wrap, sees_query. intros a Ha. exact (with_clocks_read _ _ Ha). }
  intros history ->. destruct Hh as (Hmode & _). rewrite Hmode.
  destruct (bool_decide _); [apply sees_ret; by apply (histories_ok_same m)|].
  eapply sees_bind.
  { apply (convert_history_sees (instrumentID line)); [|done]. apply Forall_forall. intros r. apply price_history_from. }
  intros [converted m'] [Hc Hm']. cbn [fst snd] in *. apply sees_ret.
  apply (histories_ok_same (keep_history false (instrumentID line) converted m')); [|done..]. by apply keep_history_ok.
Qed.

Lemma cash_days_entries instrument currency rest : forall seen history,
  cash_days currency (select_fx_history currency mode cutoff known s) (vr_fx_max_age vr) seen rest = Ok history ->
  Forall (cash_entry instrument) history.
Proof.
  induction rest as [|r rest IH]; intros seen history; cbn [cash_days]; [by intros [= <-]|].
  destruct (bool_decide _); [apply IH|]. destruct (selectMetricFXRevision _ _ _) as [f|] eqn:Hsel; [|apply IH].
  destruct (convertMetricPriceToUSD _ _ _) as [usd|] eqn:Husd; cbn [res_bind]; [|done].
  destruct (cash_days _ _ _ _ _) as [others|] eqn:Ho; cbn [res_bind]; [|done]. intros [= <-].
  constructor; [|by eapply IH]. right. exists currency, (FXObservationTime r), f, usd. split; [by apply selected_converts|]. done.
Qed.

Lemma cash_metrics_sees line m : histories_ok m -> sees s (cash_metrics timestamptz_in h line m) histories_ok.
Proof.
  intros Hm. unfold cash_metrics. set (m0 := keep_quantity _ _ m).
  assert (Hm0 : histories_ok m0) by by apply (histories_ok_same m).
  destruct (bool_decide _); [apply sees_ret; by apply (histories_ok_same m0)|].
  eapply sees_bind; [by apply cached_fx_sees|]. intros [fx m'] [E Hm']. cbn [fst snd] in *. subst fx.
  destruct Hh as (_ & Hage & _). rewrite Hage.
  eapply sees_bind; [apply sees_wrap, sees_of_res; intros a; apply id|]. intros history Hhist.
  destruct (bool_decide _); apply sees_ret; [by apply (histories_ok_same m')|].
  apply keep_history_ok; [done|]. exact (cash_days_entries _ _ _ _ _ Hhist).
Qed.

Lemma constant_history_entries instrument days : forall history,
  constant_history instrument days = Ok history -> Forall (cash_entry instrument) history.
Proof.
  induction days as [|day days IH]; intros history; cbn [constant_history]; [by intros [= <-]|].
  unfold constant_revision. destruct (parse_day day) as [n|] eqn:Hd; cbn [res_bind]; [|done].
  destruct (constant_history instrument days) as [rest|]; cbn [res_bind]; [|done]. intros [= <-].
  constructor; [|by apply IH]. left. by exists day, n.
Qed.

Lemma constant_metrics_sees m : histories_ok m -> sees s (constant_metrics h m) histories_ok.
Proof.
  intros Hm. unfold constant_metrics. destruct (bool_decide (constantCash m = ∅)); [by apply sees_ret|].
  destruct (if bool_decide _ then _ else _) as [days|]; [|apply sees_throw].
  apply sees_fold; [|by apply (histories_ok_same m)]. intros m' key Hm'.
  eapply sees_bind; [apply sees_of_res; intros a; apply id|]. intros history Hhist. apply sees_ret.
  apply (histories_ok_same (keep_history true key history m')); [|done..]. apply keep_history_ok; [done|].
  exact (constant_history_entries _ _ _ Hhist).
Qed.

Lemma seal_line_sees allowed b line : histories_ok (bn_metrics b) ->
  sees s (seal_line timestamptz_in allowed h b line) (fun b' => histories_ok (bn_metrics b')).
Proof.
  intros Hb. unfold seal_line.
  eapply (sees_bind s _ _ (fun _ => True)); [by apply sees_of_res|]. intros reasons _.
  destruct (tryAmount line) as [try_|]; [|apply sees_throw]. destruct (usdAmount line) as [usd|]; [|apply sees_throw].
  destruct (bool_decide _); cbn [negb]; [|apply sees_throw].
  assert (Hp : forall ids, sees s (loadFXPairs ids) (fun _ => True)).
  { intros ids. unfold loadFXPairs. destruct (bool_decide _); [by apply sees_ret|]. destruct (mapM Datatypes.id ids); [|apply sees_throw].
    eapply (sees_bind s _ _ (fun _ => True)); [by apply sees_query|]. intros pairs _.
    destruct (negb _); [apply sees_throw|by apply sees_ret]. }
  do 2 (eapply (sees_bind s _ _ (fun _ => True)); [by apply sees_wrap|]; intros ? _).
  do 4 (eapply (sees_bind s _ _ (fun _ => True)); [by apply sees_wrap, sees_of_res|]; intros ? _).
  eapply (sees_bind s _ _ histories_ok); [|intros m Hm; by apply sees_ret].
  destruct allowed; cbn [negb]; [|by apply sees_ret].
  destruct (is_cash _); [by apply cash_metrics_sees|by apply priced_metrics_sees].
Qed.
End seal.

(** ** The sealed inputs *)

(** What TIMESTAMPTZ gives as text it reads back, to the microsecond. *)
Class TimestampText (timestamptz_out : time -> string) (timestamptz_in : string -> option time) : Prop :=
  timestamp_read : forall t, pg_time t = t -> timestamptz_in (timestamptz_out t) = Some t.

Definition stored_times (s : store) : Prop := forall id vr, valuation_runs (base s) !! id = Some vr ->
  pg_time (vr_cutoff vr) = vr_cutoff vr /\ pg_time (vr_known_at vr) = vr_known_at vr.

(** The history of an instrument in a group of the metric inputs. *)
Definition history_in (group id : string) (l : list goval) (inputs : list (string * goval)) : Prop :=
  exists m, (group, VMap m) ∈ inputs /\ (id, VArr l) ∈ m.

(** A run that may be sealed: valid, hashed, of the snapshot, and of the account's
    portfolio. *)
Definition sealable (s : store) (account snapshot valuation : string) (vr : ValuationRunRow) : Prop :=
  valuation_runs (base s) !! valuation = Some vr /\ vr_snapshot vr = snapshot /\ vr_state vr = "valid" /\ vr_result_hash vr <> "" /\
  exists ps portfolio, snapshots (base s) !! snapshot = Some ps /\ accounts (base s) !! account = Some portfolio /\
    ps_portfolio ps = portfolio.

Definition sealed_from (s : store) (account snapshot valuation : string) (sealed : sealedValuation) : Prop :=
  exists vr, sealable s account snapshot valuation vr /\
    Z.of_nat (length (Positions sealed)) = count_lines snapshot account s /\ Positions sealed <> [] /\
    (forall id l, history_in "price_revision_history" id l (MetricInputs sealed) ->
       exists history, l = metricPriceRevisionMaps history /\ Forall (price_entry s vr id) history) /\
    (forall id l, history_in "cash_revision_history" id l (MetricInputs sealed) ->
       exists history, l = metricPriceRevisionMaps history /\ Forall (cash_entry s vr id) history).

Lemma map_value_elem {A} (f : A -> goval) (m : gmap string A) kv : kv ∈ ((fun kv => (fst kv, f (snd kv))) <$> map_to_list m) ->
  exists a, m !! fst kv = Some a /\ snd kv = f a.
Proof. intros ([k a] & -> & Hin)%list_elem_of_fmap. exists a. by apply elem_of_map_to_list in Hin. Qed.

Lemma nav_entry_name m kv : kv ∈ nav_entry m -> fst kv = "nav_history".
Proof.
  unfold nav_entry. destruct (metricInputsAvailable m); [|by intros ?%elem_of_nil].
  destruct (buildMetricNAV _ _); [|by intros ?%elem_of_nil]. destruct (bool_decide _); [by intros ?%elem_of_nil|].
  by intros ->%list_elem_of_singleton.
Qed.

(** The histories in the inputs are those gathered from the lines. *)
Lemma history_in_inputs allowed count b group id l : history_in group id l (metric_inputs allowed count b) ->
  (group = "price_revision_history" -> metricPriceProvenance (bn_metrics b) !! id = Some l) /\
  (group = "cash_revision_history" -> metricCashProvenance (bn_metrics b) !! id = Some l).
Proof.
  intros (m & Hin & Hl). unfold metric_inputs in Hin. destruct allowed; cbn [negb] in Hin; [|set_solver].
  destruct (bool_decide _); [set_solver|]. apply elem_of_app in Hin as [Hin|Hin]; [|apply nav_entry_name in Hin; cbn in Hin; by subst].
  repeat (apply elem_of_cons in Hin as [Hin|Hin]; [injection Hin as -> Hm; try done|]); [..|by apply elem_of_nil in Hin]; subst m;
    split; try done; intros _; apply map_value_elem in Hl as (a & Ha & [= ->]); exact Ha.
Qed.

Section load.
Context (timestamptz_out : time -> string) (timestamptz_in : string -> option time) {HT : TimestampText timestamptz_out timestamptz_in}.

Lemma load_sees s account snapshot valuation : stored_times s ->
  sees s (loadSealedValuation timestamptz_out timestamptz_in account snapshot valuation)
    (sealed_from s account snapshot valuation).
Proof.
  intros Hst. unfold loadSealedValuation.
  eapply sees_bind; [apply sees_attempt, sees_query; intros a; apply Datatypes.id|]. intros [h|e] Hh; cbn beta zeta iota.
  2:{ destruct (_ || _); apply sees_throw. }
  destruct (false || _ || _ || _) eqn:Hchk; [apply sees_throw|].
  rewrite orb_false_l, !orb_false_iff, !negb_false_iff, !bool_decide_eq_true, bool_decide_eq_false in Hchk. destruct Hchk as [[Hsnap Hstate] Hhash].
  unfold select_header in Hh. destruct (valuation_runs (base s) !! valuation) as [vr|] eqn:Hvr; [|done].
  destruct (snapshots (base s) !! vr_snapshot vr) as [ps|] eqn:Hps; [|done].
  destruct (accounts (base s) !! account) as [portfolio|] eqn:Hacc; [|done].
  destruct (bool_decide (ps_portfolio ps = portfolio)) eqn:Hpf; [|done]. apply bool_decide_eq_true in Hpf. injection Hh as <-.
  cbn [hd_snapshot hd_state hd_hash] in *.
  assert (Hrun : sealable s account snapshot valuation vr).
  { split_and!; [done..|]. exists ps, portfolio. by rewrite <- Hsnap. }
  destruct (Hst _ _ Hvr) as [Hc Hk].
  set (h := mkHeader _ _ _ _ _ _ _ _). assert (Hof : header_of timestamptz_in vr h) by (split_and!; [done|done|exact (timestamp_read _ Hc)|exact (timestamp_read _ Hk)]).
  eapply sees_bind; [apply sees_wrap, sees_query; intros a; apply Datatypes.id|]. intros expected [= <-].
  destruct (Z.eqb_spec (count_lines snapshot account s) 0) as [|Hne]; [apply sees_throw|].
  eapply (sees_bind s _ _ (fun _ => True)); [by apply sees_wrap, sees_query|]. intros lines _.
  set (allowed := Z.of_nat (length lines) <=? maxMetricInstruments). clearbody allowed.
  assert (Hm0 : histories_ok s vr (no_metrics allowed)) by (split; intros ?? H; cbn in H; by rewrite lookup_empty in H).
  eapply (sees_bind s _ _ (fun b => histories_ok s vr (bn_metrics b))).
  { apply sees_fold; [|done]. intros b line Hb. by apply seal_line_sees. }
  intros b Hb. destruct (bool_decide (positions b = []) || _) eqn:Hpos; [apply sees_throw|].
  apply orb_false_iff in Hpos as [Hpos Hlen]. apply bool_decide_eq_false in Hpos. apply negb_false_iff, Z.eqb_eq in Hlen.
  eapply (sees_bind s _ _ (histories_ok s vr)).
  { destruct allowed; [by eapply constant_metrics_sees|by apply sees_ret]. }
  intros m Hm. apply sees_ret. exists vr. cbn [Positions MetricInputs]. split_and!; [done|done|done| |].
  - intros id l Hl. apply (ho_prices s vr m Hm). by apply (history_in_inputs _ _ _ _ _ _ Hl).
  - intros id l Hl. apply (ho_cash s vr m Hm). by apply (history_in_inputs _ _ _ _ _ _ Hl).
Qed.
End load.
