(* ===== verification/ScenarioEvidence.v ===== *)
(** The conversions a scenario run seals are those the evidence service accepts
    when a decision refers to the run (internal/application/scenarios/service.go
    and internal/application/evidence/service.go). *)

From S2P Require Import Prelude GoString Digits GoTime TimeText Decimal Order Paging Json JsonTree Tables.
From S2P Require Import ScenarioModel ScenarioInputs Scenarios ScenarioProofs ScenarioSeal Evidence.
From Stdlib Require Import Ascii QArith Lqa.
#[local] Open Scope Z_scope.
Import Scenario ScenarioInputs Scenarios.

(** ** Currency codes: three capital letters *)

Definition currency_code (c : string) : Prop := length (chars c) = 3%nat /\ forallb is_upper (chars c) = true.

Lemma is_upper_solid c : is_upper c = true -> solid c = true /\ is_lower c = false /\ Ascii.eqb c "/" = false /\ code c < 128.
Proof.
  unfold is_upper, solid, is_lower. intros [H1 H2]%andb_prop. apply Z.leb_le in H1, H2. split_and!.
  - apply andb_true_iff. rewrite !Z.leb_le. lia.
  - apply andb_false_iff. rewrite !Z.leb_gt. lia.
  - apply Ascii.eqb_neq. intros ->. vm_compute in H1. by apply H1.
  - lia.
Qed.

Lemma code_shape c : currency_code c -> exists x y z, chars c = [x; y; z] /\ is_upper x = true /\ is_upper y = true /\ is_upper z = true.
Proof.
  intros [Hl Hu]. destruct (chars c) as [|x [|y [|z [|? ?]]]]; try done. cbn in Hu. rewrite !andb_true_iff in Hu. exists x, y, z. tauto.
Qed.

Lemma upper_chars_upper s : forallb is_upper s = true -> upper_chars s = s.
Proof.
  induction s as [|a s IH]; [done|]. cbn [forallb upper_chars]. intros [Ha Hs]%andb_prop. rewrite IH by done.
  destruct (is_upper_solid a Ha) as (_ & Hlow & _ & Hc). unfold upper_ascii. rewrite Hlow.
  destruct (code a) as [|p|p] eqn:E; [done| |done]. repeat (destruct p as [p|p|]; try done; try lia).
Qed.

Lemma code_upper c : currency_code c -> to_upper c = c.
Proof. intros [_ Hu]. unfold to_upper. by rewrite upper_chars_upper, of_chars_chars. Qed.

Lemma code_trim c : currency_code c -> trim_space c = c.
Proof.
  intros (x & y & z & Hc & Hx & Hy & Hz)%code_shape.
  apply (trim_space_solid c x [y; z] [x; y] z); [done|done|by apply is_upper_solid..].
Qed.

Lemma code_not_empty c : currency_code c -> c <> "".
Proof. by intros [Hl _] ->. Qed.

Lemma pair_split a b : currency_code a -> currency_code b ->
  trim_space (a +:+ "/" +:+ b) = a +:+ "/" +:+ b /\ of_chars <$> split_char "/" (chars (a +:+ "/" +:+ b)) = [a; b].
Proof.
  intros Ha Hb. destruct (code_shape _ Ha) as (x & y & z & Hca & Hx & Hy & Hz).
  destruct (code_shape _ Hb) as (x' & y' & z' & Hcb & Hx' & Hy' & Hz').
  assert (Hc : chars (a +:+ "/" +:+ b) = [x; y; z; "/"%char; x'; y'; z']).
  { rewrite !chars_app, Hca, Hcb. done. }
  split.
  - apply (trim_space_solid _ x [y; z; "/"%char; x'; y'; z'] [x; y; z; "/"%char; x'; y'] z'); [done|done|by apply is_upper_solid..].
  - rewrite Hc. cbn [split_char]. destruct (is_upper_solid _ Hx) as (_ & _ & -> & _), (is_upper_solid _ Hy) as (_ & _ & -> & _),
      (is_upper_solid _ Hz) as (_ & _ & -> & _), (is_upper_solid _ Hx') as (_ & _ & -> & _),
      (is_upper_solid _ Hy') as (_ & _ & -> & _), (is_upper_solid _ Hz') as (_ & _ & -> & _).
    cbn [Ascii.eqb Bool.eqb fmap list_fmap]. change (Ascii.eqb "/" "/") with true. cbn iota. cbn [fmap list_fmap].
    by rewrite <- Hca, <- Hcb, !of_chars_chars.
Qed.

(** ** Amounts *)

Lemma set_string_fixed18 z : set_string (chars (fixed18 z)) = Some (z # Z.to_pos scale18).
Proof. pose proof (parse_fixed18 z) as H. unfold parse_rat in H. by rewrite fixed18_trim in H. Qed.

Lemma positive_rat_pos text q : positive_rat text = Some q -> set_string (chars text) = Some q /\ (0 < q)%Q.
Proof.
  unfold positive_rat. destruct (set_string (chars text)) as [q'|]; [|done]. destruct (Z.ltb_spec 0 (Qnum q')); [|done].
  intros [= <-]. split; [done|]. unfold Qlt. cbn. lia.
Qed.

Lemma FloatString18_pos q : (0 < q)%Q -> FloatString18 q = formatDecimal q.
Proof.
  intros Hq. unfold FloatString18. assert (Hn : 0 < Num q).
  { rewrite <- (Qred_correct q) in Hq. unfold Qlt in Hq. cbn in Hq. unfold Num. lia. }
  by replace (Num q <? 0) with false by lia.
Qed.

(** A text the conversion gives. *)
Lemma convert_cases price rate direction usd : convertMetricPriceToUSD price rate direction = Ok usd ->
  exists p r, positive_rat price = Some p /\ positive_rat rate = Some r /\
    (direction = "direct" /\ usd = formatDecimal (p * r) \/ direction = "inverse" /\ usd = formatDecimal (p / r)).
Proof.
  unfold convertMetricPriceToUSD. destruct (positive_rat price) as [p|] eqn:Hp; [|done].
  destruct (positive_rat rate) as [r|] eqn:Hr; [|done]. destruct (positive_rat_pos _ _ Hp) as [_ Hp0], (positive_rat_pos _ _ Hr) as [_ Hr0].
  destruct (bool_decide (direction = "direct")) eqn:Hd.
  - apply bool_decide_eq_true in Hd. intros [= <-]. exists p, r. split_and!; [done..|]. left. split; [done|].
    apply FloatString18_pos. by apply Qmult_lt_0_compat.
  - destruct (bool_decide (direction = "inverse")) eqn:Hi; [|done]. apply bool_decide_eq_true in Hi. intros [= <-].
    exists p, r. split_and!; [done..|]. right. split; [done|]. apply FloatString18_pos. apply Qlt_shift_div_l; [done|]. lra.
Qed.

(** ** Entries read back *)

(** A document with the text members of an entry. *)
Definition reads_back (entry : Evidence.metric) (fields : list (string * goval)) : Prop :=
  forall name text, (name, VStr text) ∈ fields -> entry !! name = Some (JString text).

Lemma reads_text entry fields name text : reads_back entry fields -> (name, VStr text) ∈ fields -> trim_space text = text ->
  Evidence.metricString entry name = text.
Proof. intros Hr Hin Ht. unfold Evidence.metricString. by rewrite (Hr _ _ Hin). Qed.

Section entries.
Context (s : store) (vr : ValuationRunRow).

(** Stored units are currency codes, and a quote is between two of them. *)
Definition coded : Prop :=
  (forall id f, fx_quotes (base s) !! id = Some f -> currency_code (fx_base f) /\ currency_code (fx_quote f) /\ fx_base f <> fx_quote f) /\
  (forall id r, prices (base s) !! id = Some r -> currency_code (pr_quote r)).
Context (Hcoded : coded).

Definition quote_step (currency : string) (f : metricFXRevision) : Prop :=
  exists row_base row_quote z, currency_code row_base /\ currency_code row_quote /\ Pair f = row_base +:+ "/" +:+ row_quote /\
    Rate f = fixed18 z /\
    (Direction f = "direct" /\ row_base = currency /\ row_quote = "USD" \/
     Direction f = "inverse" /\ row_base = "USD" /\ row_quote = currency).

Lemma converts_step currency t f : currency <> "USD" -> converts s vr currency t f -> quote_step currency f.
Proof.
  intros Hne [(row & Hrow & Hq & Hf & _) _]. destruct (proj1 Hcoded _ _ Hrow) as (Hb & Hqc & _).
  exists (fx_base row), (fx_quote row), (fx_rate row). split; [done|]. split; [done|]. rewrite Hf. cbn [Pair Rate Direction to_fx_revision].
  rewrite (code_trim _ Hb), (code_trim _ Hqc). split; [done|]. split; [done|].
  destruct Hq as [[-> ->]|[-> ->]].
  - left. by rewrite !bool_decide_eq_true_2.
  - right. rewrite (bool_decide_eq_false_2 ("USD" = currency)) by congruence. done.
Qed.

(** A price converted with one stored quote passes. *)
Lemma one_step_accepted entry revision currency f price usd p :
  quote_step currency f -> currency_code currency -> currency <> "USD" ->
  Evidence.metricString entry "price" = price -> Evidence.metricString entry "usd_price" = usd ->
  Evidence.metricString entry "price_quote_currency" = currency -> reads_back revision (fx_revision_map f) ->
  convertMetricPriceToUSD price (Rate f) (Direction f) = Ok usd -> positive_rat usd = Some p ->
  Evidence.validateMetricUSDConversion entry [revision] = true.
Proof.
  intros (b & q & z & Hb & Hq & Hpair & Hrate & Hdir) Hc Hne Hprice Husd Hcur Hread Hconv Hpos.
  destruct (convert_cases _ _ _ _ Hconv) as (x & y & Hx & Hy & Hcase).
  destruct (pair_split b q Hb Hq) as [Htrim Hsplit].
  assert (Htp : Evidence.metricString revision "pair" = b +:+ "/" +:+ q).
  { apply (reads_text _ _ _ _ Hread); [rewrite <- Hpair; unfold fx_revision_map; set_solver|done]. }
  assert (Htr : Evidence.metricString revision "rate" = Rate f).
  { apply (reads_text _ _ _ _ Hread); [unfold fx_revision_map; set_solver|]. rewrite Hrate. apply fixed18_trim. }
  assert (Htd : Evidence.metricString revision "direction" = Direction f).
  { apply (reads_text _ _ _ _ Hread); [unfold fx_revision_map; set_solver|]. by destruct Hdir as [[-> _]|[-> _]]. }
  destruct (positive_rat_pos _ _ Hpos) as [Hset _].
  unfold Evidence.validateMetricUSDConversion. rewrite Hprice, Hx, Husd, Hpos, Hcur, (code_upper _ Hc).
  rewrite (bool_decide_eq_false_2 (currency = "")) by by apply code_not_empty.
  rewrite (bool_decide_eq_false_2 (currency = "USD")) by done. cbn [negb Evidence.convert_along].
  unfold Evidence.metricFXStep. rewrite Htp, Hsplit, Htr, Htd, Hy.
  rewrite (bool_decide_eq_false_2 (b = "")), (bool_decide_eq_false_2 (q = "")) by by apply code_not_empty.
  rewrite (code_trim _ Hb), (code_trim _ Hq), (code_upper _ Hb), (code_upper _ Hq). cbn [orb].
  destruct Hdir as [(Hd & -> & ->)|(Hd & -> & ->)], Hcase as [[Hd' Hu]|[Hd' Hu]]; try congruence; rewrite Hd.
  - rewrite (bool_decide_eq_true_2 ("direct" = "direct")) by done. cbn [mbind option_bind].
    rewrite (bool_decide_eq_true_2 (currency = currency)) by done. cbn [negb].
    rewrite (bool_decide_eq_true_2 ("USD" = "USD")) by done. rewrite <- Hu, Hset. apply Qeq_bool_iff. reflexivity.
  - rewrite (bool_decide_eq_false_2 ("inverse" = "direct")) by done. rewrite (bool_decide_eq_true_2 ("inverse" = "inverse")) by done.
    cbn [mbind option_bind]. rewrite (bool_decide_eq_true_2 (currency = currency)) by done. cbn [negb].
    rewrite (bool_decide_eq_true_2 ("USD" = "USD")) by done. rewrite <- Hu, Hset. apply Qeq_bool_iff. reflexivity.
Qed.

Lemma converts_currency currency t f : converts s vr currency t f -> currency_code currency /\ currency <> "USD".
Proof.
  intros [(row & Hrow & Hq & _) _]. destruct (proj1 Hcoded _ _ Hrow) as (Hb & Hqc & Hne).
  destruct Hq as [[<- Hq]|[Hq <-]]; (split; [done|]); congruence.
Qed.

(** A price already in dollars passes with no conversion. *)
Lemma dollars_accepted entry price p : Evidence.metricString entry "price" = price -> Evidence.metricString entry "usd_price" = price ->
  Evidence.metricString entry "price_quote_currency" = "USD" -> positive_rat price = Some p -> (round18 p # Z.to_pos scale18 == p)%Q ->
  Evidence.validateMetricUSDConversion entry [] = true.
Proof.
  intros Hp Hu Hc Hpos Hexact. unfold Evidence.validateMetricUSDConversion. rewrite Hp, Hu, Hc, Hpos.
  change (to_upper "USD") with "USD". rewrite (bool_decide_eq_false_2 ("USD" = "")), (bool_decide_eq_true_2 ("USD" = "USD")) by done. cbn [negb].
  pose proof (set_string_fixed18 (round18 p)) as Hs. unfold formatDecimal. rewrite Hs. by apply Qeq_bool_iff.
Qed.

End entries.
