(* ===== verification/ScenarioEffects.v ===== *)
(** What a call of the scenario service leaves behind: nothing when it reports an
    error or replays a request, else one version, one job and one run. *)

From S2P Require Import Prelude GoString Digits GoTime Sha256 Db Json JsonTree Tables Jobs JobsSafety.
From S2P Require Import ScenarioModel ScenarioInputs Scenarios ScenarioService ScenarioSeal.
From Stdlib Require Import Ascii SpecFloat.
#[local] Open Scope Z_scope.
Import Scenario ScenarioInputs Scenarios ScenarioService.

Lemma wp_sees {S A} (m : dbm S A) (P : A -> Prop) (Q : res A -> db S -> Prop) c w fs : sees w m P ->
  (forall fs' a, P a -> Q (Ok a) (Db c w fs')) -> (forall fs' e, Q (Err e) (Db c w fs')) -> wp m Q (Db c w fs).
Proof. intros Hm Hok Herr. destruct (Hm c fs) as (r & fs' & He & Hr). unfold wp. rewrite He. destruct r; cbn; auto. Qed.

Section service.
Context (scan_uuid : string -> option string) (timestamptz_out : time -> string) (timestamptz_in : string -> option time).
Context (jsonb_in : string -> option json) (text_ok : string -> bool) (format_float : spec_float -> string).
Context {HT : TimestampText timestamptz_out timestamptz_in}.

Abbreviation marshal := (Marshal format_float).
Abbreviation create := (CreateVersionAndRun true scan_uuid timestamptz_out timestamptz_in jsonb_in text_ok format_float).

(** The scenario a version is for, as it is before its counter moves: a new one
    under a name its account does not have, or the one asked for, of the
    account, with the template of the request. *)
Definition entered (ids : fresh) (now : time) (i : VersionInput) (s : store) (id : string) (row : ScenarioRow) : Prop :=
  (ScenarioID i = "" /\ id = newScenario ids /\ scenarios s !! id = None /\
   (forall id' r, scenarios s !! id' = Some r -> same_name (AccountID i) (Name i) r = false) /\
   row = mkScenarioRow (AccountID i) (Name i) (TemplateKey i) 0 now) \/
  (ScenarioID i = id /\ id <> "" /\ exists old, scenarios s !! id = Some old /\ sc_account old = AccountID i /\
   row = mkScenarioRow (sc_account old) (sc_name old) (TemplateKey i) (sc_version old) (sc_created old)).

Definition advanced (row : ScenarioRow) : ScenarioRow :=
  mkScenarioRow (sc_account row) (sc_name row) (sc_template row) (sc_version row + 1) (sc_created row).

(** The documents of a run, from its sealed inputs. *)
Record documents : Type := mkDocuments {
  doc_hash : string;                          (* of the sealed inputs *)
  doc_provenance : list (string * goval);
  doc_payload : string;
}.

Definition documented (i : VersionInput) (id : string) (version : Z) (hash : string) (sealed : sealedValuation) (d : documents) : Prop :=
  let provenance := bound_provenance i id version sealed in
  doc_hash d = canonicalSealedInputHash format_float i id version hash provenance sealed /\
  doc_provenance d = provenance ++ [("input_hash", VStr (doc_hash d))] /\
  marshal (payload_value i id version (doc_provenance d) sealed) = Some (doc_payload d).

Definition new_job (ids : fresh) (now : nat -> time) (i : VersionInput) (d : documents) : Jobs.Job :=
  job_row (newJob ids) (now 2%nat) (IdempotencyKey i) (SnapshotID i) (doc_payload d).

(** The store after the call. *)
Definition after_create (ids : fresh) (now : nat -> time) (i : VersionInput) (id : string) (row : ScenarioRow) (vrow : VersionRow)
    (rrow : RunRow) (d : documents) (s : store) : store :=
  mkStore (base s) (line_terms s) (price_basis s) (fx_basis s) (<[id := advanced row]> (scenarios s))
    (<[(id, sc_version row + 1) := vrow]> (versions s)) (<[newRun ids := rrow]> (run_rows s))
    (Jobs.mkStore (<[newJob ids := new_job ids now i d]> (Jobs.jobs (queue s))) (Jobs.attempts (queue s))
       (<[newRun ids := Jobs.mkScenarioRun (newJob ids) "queued" None]> (Jobs.runs (queue s))))
    (<[newJob ids := doc_hash d]> (input_hashes s)).

Record created (ids : fresh) (now : nat -> time) (i : VersionInput) (hash requestHash : string) (sealed : sealedValuation)
    (s : store) (run : Run) (s' : store) (id : string) (row : ScenarioRow) (vrow : VersionRow) (rrow : RunRow) (d : documents) : Prop := {
  cr_entered : entered ids (now 0%nat) i s id row;
  cr_unused : select_existing (IdempotencyKey i) s = Err ENoRows;
  cr_sealed : sealed_from s (AccountID i) (SnapshotID i) (ValuationID i) sealed;
  cr_owns : owns_snapshot (AccountID i) (SnapshotID i) s = true;
  cr_version : sc_version row + 1 <= 2147483647 /\ 0 < sc_version row + 1;
  cr_version_row : version_row jsonb_in format_float (now 1%nat) i hash = Some vrow;
  cr_version_new : versions s !! (id, sc_version row + 1) = None;
  cr_documents : documented i id (sc_version row + 1) hash sealed d;
  cr_hash : hash_shape (doc_hash d) = true;
  cr_job_check : Jobs.job_check (new_job ids now i d) = true;
  cr_job_new : Jobs.jobs (queue s) !! newJob ids = None;
  cr_key_new : Jobs.find_job (Jobs.same_key kind (IdempotencyKey i)) (queue s) = None;
  cr_run_row : run_row jsonb_in format_float (now 3%nat) i id (sc_version row + 1) (newJob ids) (doc_provenance d) requestHash = Some rrow;
  cr_run_new : run_rows s !! newRun ids = None;
  cr_job_unrun : forall k r, run_rows s !! k = Some r -> sr_job r <> newJob ids;
  cr_answer : run = mkRun (newRun ids) id (sc_version row + 1) (newJob ids) hash;
  cr_store : s' = after_create ids now i id row vrow rrow d s;
}.
Lemma existsb_none {A} (p : string * A -> bool) (m : gmap string A) : existsb p (map_to_list m) = false ->
  forall k r, m !! k = Some r -> p (k, r) = false.
Proof.
  intros H k r Hr. apply not_true_iff_false. intros Hp. apply not_true_iff_false in H. apply H, existsb_exists.
  exists (k, r). split; [|done]. by apply list_elem_of_In, elem_of_map_to_list.
Qed.

(** *** The statements, one by one *)

Lemma insert_scenario_cases id now account name template s a s' :
  insert_scenario text_ok id now account name template s = (Ok a, s') ->
  a = id /\ scenarios s !! id = None /\ (forall id' r, scenarios s !! id' = Some r -> same_name account name r = false) /\
  s' = set_scenarios s (<[id := mkScenarioRow account name template 0 now]> (scenarios s)).
Proof.
  unfold insert_scenario. case_match eqn:Hc; [done|]. case_match eqn:Hn; [done|]. case_match; [done|].
  intros [= <- <-]. apply orb_false_iff in Hc as [_ Hc]. apply bool_decide_eq_false in Hc.
  split; [done|]. split; [by apply eq_None_not_Some|]. split; [|done]. intros id' r Hr. exact (existsb_none _ _ Hn _ _ Hr).
Qed.

Lemma update_template_cases id template s old a s' : scenarios s !! id = Some old ->
  update_template id template s = (Ok a, s') ->
  s' = set_scenarios s (<[id := mkScenarioRow (sc_account old) (sc_name old) template (sc_version old) (sc_created old)]> (scenarios s)).
Proof. intros Ho. unfold update_template. rewrite Ho. destruct (bool_decide _); [|done]. by intros [= _ <-]. Qed.

Lemma advance_version_cases id s row v s' : scenarios s !! id = Some row -> advance_version id s = (Ok v, s') ->
  v = sc_version row + 1 /\ v <= 2147483647 /\ s' = set_scenarios s (<[id := advanced row]> (scenarios s)).
Proof.
  intros Hr. unfold advance_version. rewrite Hr. cbv zeta. destruct (Z.ltb_spec 2147483647 (sc_version row + 1)); [done|].
  by intros [= <- <-].
Qed.

Lemma insert_version_cases id version now i hash s a s' :
  insert_version jsonb_in format_float id version now i hash s = (Ok a, s') ->
  exists vrow, version_row jsonb_in format_float now i hash = Some vrow /\ 0 < version /\ versions s !! (id, version) = None /\
    s' = set_versions s (<[(id, version) := vrow]> (versions s)).
Proof.
  unfold insert_version. destruct (version_row _ _ _ _ _) as [vrow|]; [|done]. destruct (_ && _) eqn:Hc; [|done].
  intros [= _ <-]. rewrite !andb_true_iff, !bool_decide_eq_true, Z.ltb_lt in Hc. exists vrow. tauto.
Qed.

Lemma insert_job_cases id now key snapshot hash payload s a s' :
  insert_job jsonb_in text_ok id now key snapshot hash payload s = (Ok a, s') ->
  a = id /\ hash_shape hash = true /\ Jobs.job_check (job_row id now key snapshot payload) = true /\
  Jobs.jobs (queue s) !! id = None /\ Jobs.find_job (Jobs.same_key kind key) (queue s) = None /\
  s' = set_queue s (Jobs.set_jobs (queue s) (<[id := job_row id now key snapshot payload]> (Jobs.jobs (queue s))))
         (<[id := hash]> (input_hashes s)).
Proof.
  unfold insert_job. cbv zeta. destruct (_ || _) eqn:Hc; [done|]. destruct (Jobs.find_job _ _); [done|]. intros [= <- <-].
  rewrite !orb_false_iff, !negb_false_iff, bool_decide_eq_false in Hc. destruct Hc as [[[[_ _] Hh] Hj] Hn].
  split_and!; [done|done|done|by apply eq_None_not_Some|done|done].
Qed.

Lemma insert_run_cases id now i sid version job provenance rh s a s' :
  insert_run jsonb_in format_float id now i sid version job provenance rh s = (Ok a, s') ->
  exists rrow, a = id /\ run_row jsonb_in format_float now i sid version job provenance rh = Some rrow /\
    run_rows s !! id = None /\ (forall k r, run_rows s !! k = Some r -> sr_job r <> job) /\
    s' = set_runs s (<[id := rrow]> (run_rows s))
           (Jobs.set_runs (queue s) (<[id := Jobs.mkScenarioRun job "queued" None]> (Jobs.runs (queue s)))).
Proof.
  unfold insert_run. destruct (run_row _ _ _ _ _ _ _ _ _) as [rrow|] eqn:Hr; [|done]. destruct (_ && _) eqn:Hc; [|done].
  intros [= <- <-]. exists rrow. rewrite !andb_true_iff, bool_decide_eq_true in Hc. destruct Hc as [[Href _] Hn].
  unfold run_refs in Href. rewrite !andb_true_iff in Href. destruct Href as [[[[_ _] Hj] _] _]. apply negb_true_iff in Hj.
  split_and!; [done|done|done| |done]. intros k r Hk. pose proof (existsb_none _ _ Hj _ _ Hk) as Hb. cbn in Hb.
  apply bool_decide_eq_false in Hb. unfold run_row in Hr. destruct (_ ≫= jsonb_in); [|done]. cbn in Hr. by injection Hr as <-.
Qed.

(** *** The call *)

Lemma enter_scenario_wp ids now i (Q : res string -> db store -> Prop) s fs :
  (forall fs' e w, Q (Err e) (Db s w fs')) ->
  (forall fs' id row, entered ids now i s id row -> Q (Ok id) (Db s (set_scenarios s (<[id := row]> (scenarios s))) fs')) ->
  wp (enter_scenario text_ok ids now i) Q (Db s s fs).
Proof.
  intros Herr Hok. unfold enter_scenario. destruct (bool_decide (ScenarioID i = "")) eqn:Hid.
  - apply bool_decide_eq_true in Hid. repeat wp_step; [apply Herr| |].
    + apply insert_scenario_cases in E as (-> & Hn & Hu & ->). apply Hok. left. done.
    + destruct (is_name_conflict e); [|wp_step; apply Herr]. repeat wp_step. unfold pool_query.
      repeat wp_step; try apply Herr. injection E0 as _ <-. apply Herr.
  - apply bool_decide_eq_false in Hid. repeat wp_step; cbn [errors_is]; [destruct (_ || _); wp_step; apply Herr|].
    destruct (select_account (ScenarioID i) s) as [account|e] eqn:Ha; [|destruct (_ || _); wp_step; apply Herr].
    cbn [orb]. destruct (bool_decide (account = AccountID i)) eqn:Hacc; cbn [negb]; [|wp_step; apply Herr].
    apply bool_decide_eq_true in Hacc. unfold select_account in Ha. destruct (scenarios s !! ScenarioID i) as [old|] eqn:Hold; [|done].
    injection Ha as <-. repeat wp_step; [apply Herr| |apply Herr]. rewrite (update_template_cases _ _ _ _ _ _ Hold E).
    apply Hok. right. split; [done|]. split; [done|]. by exists old.
Qed.

(** From the sealed inputs on: an error, whatever was done being dropped, or a
    version recorded. *)
Lemma record_version_wp ids now i hash requestHash sealed (Q : res Run -> db store -> Prop) s fs :
  select_existing (IdempotencyKey i) s = Err ENoRows -> sealed_from s (AccountID i) (SnapshotID i) (ValuationID i) sealed ->
  (forall fs' e w, Q (Err e) (Db s w fs')) ->
  (forall fs' run s' id row vrow rrow d, created ids now i hash requestHash sealed s run s' id row vrow rrow d ->
     Q (Ok run) (Db s' s' fs')) ->
  wp (record_version jsonb_in text_ok format_float ids now i hash requestHash sealed) Q (Db s s fs).
Proof.
  intros Hex Hsealed Herr Hok. unfold record_version. apply wp_bind. apply enter_scenario_wp; [done|]. intros fs1 id row Hent.
  repeat wp_step; [apply Herr|]. set (s1 := set_scenarios s _).
  change (owns_snapshot (AccountID i) (SnapshotID i) s1) with (owns_snapshot (AccountID i) (SnapshotID i) s).
  destruct (owns_snapshot (AccountID i) (SnapshotID i) s) eqn:Hown; cbn [negb]; [|wp_step; apply Herr].
  repeat wp_step; try apply Herr.
  apply (advance_version_cases id s1 row) in E as (-> & Hmax & ->); [|by unfold s1; cbn; rewrite lookup_insert_eq].
  apply insert_version_cases in E0 as (vrow & Hv & Hpos & Hvn & ->).
  set (provenance := bound_provenance i id (sc_version row + 1) sealed).
  set (h := canonicalSealedInputHash format_float i id (sc_version row + 1) hash provenance sealed).
  set (provenance' := provenance ++ _).
  destruct (marshal (payload_value i id (sc_version row + 1) provenance' sealed)) as [payload|] eqn:Hp; [|wp_step; apply Herr].
  repeat wp_step; try apply Herr.
  apply insert_job_cases in E as (-> & Hh & Hj & Hjn & Hk & ->). apply insert_run_cases in E0 as (rrow & -> & Hr & Hrn & Hun & ->).
  apply (Hok _ _ _ id row vrow rrow (mkDocuments h provenance' payload)). constructor; try done.
  unfold after_create, s1. cbn. by rewrite insert_insert_eq.
Qed.

(** What a call does: it reports an error and changes nothing, answers the run a
    first call with the key created, or creates one. *)
Lemma version_effect ids now input fs s r s' : stored_times s -> run (create ids now input) fs s = (r, s') ->
  (s' = s /\ exists e, r = Err e) \/
  exists i content request, valid input = true /\ canonicalizeInputIDs scan_uuid input = Some i /\
    marshal (VMap (content_value i)) = Some content /\ marshal (VMap (request_value i)) = Some request /\
    text_ok (IdempotencyKey i) = true /\
    ((s' = s /\ exists e, select_existing (IdempotencyKey i) s = Ok e /\
        replays i (sha256_hex content) (sha256_hex request) e = true /\ r = Ok (ex_run e)) \/
     exists sealed run id row vrow rrow d, r = Ok run /\
       created ids now i (sha256_hex content) (sha256_hex request) sealed s run s' id row vrow rrow d).
Proof.
  intros Hst Hrun. run_wp Hrun. unfold CreateVersionAndRun. cbn [negb orb].
  destruct (valid input) eqn:Hv; cbn [negb]; [|wp_step; left; eauto].
  destruct (canonicalizeInputIDs scan_uuid input) as [i|] eqn:Hi; [|wp_step; left; eauto].
  destruct (marshal (VMap (content_value i))) as [content|] eqn:Hc; [|wp_step; left; eauto].
  destruct (marshal (VMap (request_value i))) as [request|] eqn:Hq; [|wp_step; left; eauto].
  unfold create_canonical. repeat wp_step; cbn [committed]; try (left; by eauto).
  unfold lock_key. destruct (text_ok (IdempotencyKey i)) eqn:Htext; [|left; eauto]. repeat wp_step; cbn [committed].
  { change (errors_is EDb ENoRows) with false. cbn [negb]. wp_step. left. eauto. }
  destruct (select_existing (IdempotencyKey i) s) as [e|e] eqn:He.
  - destruct (replays _ _ _ _) eqn:Hr; wp_step; [|left; eauto]. right. exists i, content, request. split_and!; [done..|]. left.
    split; [done|]. by exists e.
  - destruct (errors_is e ENoRows) eqn:Hno; cbn [negb]; [|wp_step; left; eauto].
    assert (e = ENoRows) as ->. { unfold select_existing in He. destruct (omap _ _); [congruence|done]. }
    apply wp_bind. eapply wp_sees; [by apply load_sees| |].
    + intros fs' sealed Hs. apply record_version_wp; [done|done| |].
      * intros. left. eauto.
      * intros fs9 run s9 id row vrow rrow d Hcr. right. exists i, content, request. split_and!; [done..|]. right.
        exists sealed, run, id, row, vrow, rrow, d. done.
    + intros. left. eauto.
Qed.
End service.

#[global] Arguments cr_entered {jsonb_in format_float ids now i hash requestHash sealed s run s' id row vrow rrow d} _.
#[global] Arguments cr_unused {jsonb_in format_float ids now i hash requestHash sealed s run s' id row vrow rrow d} _.
#[global] Arguments cr_sealed {jsonb_in format_float ids now i hash requestHash sealed s run s' id row vrow rrow d} _.
#[global] Arguments cr_owns {jsonb_in format_float ids now i hash requestHash sealed s run s' id row vrow rrow d} _.
#[global] Arguments cr_version {jsonb_in format_float ids now i hash requestHash sealed s run s' id row vrow rrow d} _.
#[global] Arguments cr_version_row {jsonb_in format_float ids now i hash requestHash sealed s run s' id row vrow rrow d} _.
#[global] Arguments cr_version_new {jsonb_in format_float ids now i hash requestHash sealed s run s' id row vrow rrow d} _.
#[global] Arguments cr_documents {jsonb_in format_float ids now i hash requestHash sealed s run s' id row vrow rrow d} _.
#[global] Arguments cr_hash {jsonb_in format_float ids now i hash requestHash sealed s run s' id row vrow rrow d} _.
#[global] Arguments cr_job_check {jsonb_in format_float ids now i hash requestHash sealed s run s' id row vrow rrow d} _.
#[global] Arguments cr_job_new {jsonb_in format_float ids now i hash requestHash sealed s run s' id row vrow rrow d} _.
#[global] Arguments cr_key_new {jsonb_in format_float ids now i hash requestHash sealed s run s' id row vrow rrow d} _.
#[global] Arguments cr_run_row {jsonb_in format_float ids now i hash requestHash sealed s run s' id row vrow rrow d} _.
#[global] Arguments cr_run_new {jsonb_in format_float ids now i hash requestHash sealed s run s' id row vrow rrow d} _.
#[global] Arguments cr_job_unrun {jsonb_in format_float ids now i hash requestHash sealed s run s' id row vrow rrow d} _ _ _ _ _.
#[global] Arguments cr_answer {jsonb_in format_float ids now i hash requestHash sealed s run s' id row vrow rrow d} _.
#[global] Arguments cr_store {jsonb_in format_float ids now i hash requestHash sealed s run s' id row vrow rrow d} _.
