(* ===== verification/ScenarioSafety.v ===== *)
(** Histories of the scenario service interleaved with the calls of the job queue's
    workers, with cancellations by the risk service, and with whatever the
    services before them store. *)

From S2P Require Import Prelude GoString Digits GoTime Sha256 Db Json JsonTree Order Paging Tables Jobs JobsSafety JobsRows.
From S2P Require Import ScenarioModel ScenarioInputs Scenarios ScenarioService ScenarioSeal ScenarioEffects Risk RiskEffects.
From Stdlib Require Import Ascii SpecFloat.
#[local] Open Scope Z_scope.
Import Scenario ScenarioInputs Scenarios ScenarioService.

(** The store and the claims handed out to workers. *)
Record world : Type := mkWorld { w_store : store; w_claims : list Jobs.Claim }.

(** Nothing recorded is changed or lost. *)
Record kept (s s' : store) : Prop := {
  kp_versions : versions s ⊆ versions s';
  kp_runs : run_rows s ⊆ run_rows s';
  kp_hashes : input_hashes s ⊆ input_hashes s';
  kp_jobs : evolve (queue s) (queue s');
  kp_scenarios : forall id row, scenarios s !! id = Some row -> exists row', scenarios s' !! id = Some row' /\
    sc_account row' = sc_account row /\ sc_name row' = sc_name row /\ sc_created row' = sc_created row /\
    sc_version row <= sc_version row';
}.

Lemma kept_refl s : kept s s.
Proof. constructor; [done|done|done|apply evolve_refl|]. intros id row Hr. exists row. split_and!; [done..|lia]. Qed.

Lemma evolves_trans j1 j2 j3 : evolves j1 j2 -> evolves j2 j3 -> evolves j1 j3.
Proof.
  intros [] []. constructor; try congruence; [lia|]. intros Ht. rewrite ev_final0; [by apply ev_final|].
  by rewrite ev_final by done.
Qed.

Lemma kept_trans s1 s2 s3 : kept s1 s2 -> kept s2 s3 -> kept s1 s3.
Proof.
  intros [Hv Hr Hh Hj Hs] [Hv' Hr' Hh' Hj' Hs']. constructor.
  - by etransitivity.
  - by etransitivity.
  - by etransitivity.
  - intros id j Hjob. destruct (Hj _ _ Hjob) as (j' & H1 & H2). destruct (Hj' _ _ H1) as (j'' & H3 & H4).
    exists j''. split; [done|]. by eapply evolves_trans.
  - intros id row Hrow. destruct (Hs _ _ Hrow) as (row' & H1 & H2 & H3 & H4 & H5). destruct (Hs' _ _ H1) as (row'' & G1 & G2 & G3 & G4 & G5).
    exists row''. split_and!; [done|congruence..|lia].
Qed.

(** ** The run of a key *)

(** The run recorded under a key, as the check reads it. *)
Definition holds_key (s : store) (key : string) (e : existing) : Prop :=
  exists k r v j, run_rows s !! k = Some r /\ versions s !! (sr_scenario r, sr_version r) = Some v /\
    Jobs.jobs (queue s) !! sr_job r = Some j /\ Jobs.Kind j = kind /\ Jobs.IdempotencyKey j = key /\
    e = mkExisting (mkRun k (sr_scenario r) (sr_version r) (sr_job r) (sv_hash v)) (sr_account r) (sr_snapshot r) (sr_request_hash r).

Lemma holds_key_kept s s' key e : kept s s' -> holds_key s key e -> holds_key s' key e.
Proof.
  intros Hk (k & r & v & j & H1 & H2 & H3 & H4 & H5 & ->). destruct (kp_jobs _ _ Hk _ _ H3) as (j' & Hj' & [_ E1 _ E2 _ _ _ _ _ _]).
  exists k, r, v, j'. split_and!; [by eapply lookup_weaken; [|apply Hk]..|done|congruence|congruence|done].
Qed.

Lemma elem_of_keyed s key e : e ∈ omap (to_existing s) (List.filter (fun kv => has_key key s (snd kv)) (map_to_list (run_rows s))) <->
  holds_key s key e.
Proof.
  rewrite list_elem_of_omap. split.
  - intros ([k r] & Hin & He). rewrite filter_elem, elem_of_map_to_list in Hin. cbn [fst snd] in Hin. destruct Hin as [Hr Hk].
    unfold has_key, Jobs.same_key in Hk. destruct (Jobs.jobs (queue s) !! sr_job r) as [j|] eqn:Hj; [|done].
    rewrite andb_true_iff, !bool_decide_eq_true in Hk. unfold to_existing in He. cbn in He.
    destruct (versions s !! (sr_scenario r, sr_version r)) as [v|] eqn:Hv; [|done]. injection He as <-.
    exists k, r, v, j. naive_solver.
  - intros (k & r & v & j & H1 & H2 & H3 & H4 & H5 & ->). exists (k, r). rewrite filter_elem, elem_of_map_to_list. cbn [fst snd].
    unfold has_key, Jobs.same_key, to_existing. cbn [fst snd]. rewrite H2, H3. split; [|done]. split; [done|].
    by rewrite andb_true_iff, !bool_decide_eq_true.
Qed.

Section histories.
Context (scan_uuid uuid_in : string -> option string) (timestamptz_out : time -> string) (timestamptz_in : string -> option time).
Context (jsonb_in : string -> option json) (text_ok : string -> bool) (format_float : spec_float -> string).
Context {HT : TimestampText timestamptz_out timestamptz_in}.

Abbreviation create := (CreateVersionAndRun true scan_uuid timestamptz_out timestamptz_in jsonb_in text_ok format_float).
Abbreviation created := (created jsonb_in format_float).
Abbreviation documented := (documented format_float).

(** One step: a call of the service, a call of the queue, a cancellation, or
    others at work: services that store prices, quotes, snapshots and valuations,
    and workers that report on their runs. *)
Inductive step : world -> world -> Prop :=
  | step_create ids now input fs s claims r s' :
      run (create ids now input) fs s = (r, s') -> step (mkWorld s claims) (mkWorld s' claims)
  | step_queue o s claims q claims' :
      sys_step format_float (mkSys (queue s) claims) o (mkSys q claims') ->
      step (mkWorld s claims) (mkWorld (set_queue s q (input_hashes s)) claims')
  | step_cancel id reason now results positions fs s claims r t' :
      run (Risk.cancel_run uuid_in text_ok id reason now) fs (Risk.mkStore s results positions) = (r, t') ->
      step (mkWorld s claims) (mkWorld (Risk.core t') claims)
  | step_others b terms pb fb reported s claims :
      let q := Jobs.set_runs (queue s) reported in
      let s' := mkStore b terms pb fb (scenarios s) (versions s) (run_rows s) q (input_hashes s) in
      stored_times s' -> runs_keep (queue s) q -> step (mkWorld s claims) (mkWorld s' claims).

Definition steps : world -> world -> Prop := rtc step.

(** The documents behind a run: what its job carries is what was sealed, under
    the hash kept with the job. *)
Definition run_documents (s : store) (r : RunRow) : Prop :=
  exists i hash requestHash sealed d now j,
    documented i (sr_scenario r) (sr_version r) hash sealed d /\
    run_row jsonb_in format_float now i (sr_scenario r) (sr_version r) (sr_job r) (doc_provenance d) requestHash = Some r /\
    Jobs.jobs (queue s) !! sr_job r = Some j /\ Jobs.Kind j = kind /\ Jobs.IdempotencyKey j = IdempotencyKey i /\
    Jobs.InputSnapshotIDs j = [sr_snapshot r] /\ Jobs.Payload j = doc_payload d /\
    input_hashes s !! sr_job r = Some (doc_hash d).

(** A version holds the content its hash is the digest of. *)
Definition version_content (v : VersionRow) : Prop :=
  exists now i content, Marshal format_float (VMap (content_value i)) = Some content /\
    version_row jsonb_in format_float now i (sha256_hex content) = Some v.

(** The versions of a scenario are numbered from one to its counter, each with
    one run and each run with one job; an account's scenarios have distinct
    names. *)
Record scenario_ok (w : world) : Prop := {
  so_times : stored_times (w_store w);
  so_queue : rows_ok (queue (w_store w));
  so_versions : forall id row, scenarios (w_store w) !! id = Some row -> 0 <= sc_version row /\
    forall v, is_Some (versions (w_store w) !! (id, v)) <-> 1 <= v <= sc_version row;
  so_owner : forall id v, is_Some (versions (w_store w) !! (id, v)) -> is_Some (scenarios (w_store w) !! id);
  so_names : forall id1 id2 r1 r2, scenarios (w_store w) !! id1 = Some r1 -> scenarios (w_store w) !! id2 = Some r2 ->
    sc_account r1 = sc_account r2 -> sc_name r1 = sc_name r2 -> id1 = id2;
  so_content : forall k v, versions (w_store w) !! k = Some v -> version_content v;
  so_run : forall k r, run_rows (w_store w) !! k = Some r ->
    is_Some (versions (w_store w) !! (sr_scenario r, sr_version r)) /\
    (exists sc, scenarios (w_store w) !! sr_scenario r = Some sc /\ sc_account sc = sr_account r) /\
    run_documents (w_store w) r;
  so_one : forall k1 k2 r1 r2, run_rows (w_store w) !! k1 = Some r1 -> run_rows (w_store w) !! k2 = Some r2 ->
    sr_scenario r1 = sr_scenario r2 /\ sr_version r1 = sr_version r2 \/ sr_job r1 = sr_job r2 -> k1 = k2;
  so_every : forall id v, is_Some (versions (w_store w) !! (id, v)) ->
    exists k r, run_rows (w_store w) !! k = Some r /\ sr_scenario r = id /\ sr_version r = v;
  so_life : forall k r, run_rows (w_store w) !! k = Some r ->
    exists l, Jobs.runs (queue (w_store w)) !! k = Some l /\ Jobs.RunJobID l = sr_job r;
  so_hashed : forall j, is_Some (input_hashes (w_store w) !! j) -> is_Some (Jobs.jobs (queue (w_store w)) !! j);
}.

Lemma run_documents_kept s s' r : kept s s' -> run_documents s r -> run_documents s' r.
Proof.
  intros Hk (i & hash & rh & sealed & d & now & j & H1 & H2 & H3 & H4 & H5 & H6 & H7 & H8).
  destruct (kp_jobs _ _ Hk _ _ H3) as (j' & Hj' & [_ E1 _ E2 E3 E4 _ _ _ _]).
  exists i, hash, rh, sealed, d, now, j'. split_and!; [done..|congruence|congruence|congruence|congruence|].
  by eapply lookup_weaken; [|apply Hk].
Qed.

Lemma entered_others ids now i s id row : entered ids now i s id row ->
  (forall r, scenarios s !! id = Some r -> sc_account (advanced row) = sc_account r /\ sc_name (advanced row) = sc_name r /\
     sc_created (advanced row) = sc_created r /\ sc_version (advanced row) = sc_version r + 1) /\
  (scenarios s !! id = None -> sc_version row = 0) /\ sc_account row = AccountID i.
Proof.
  intros [(_ & _ & Hn & _ & ->)|(_ & _ & old & Ho & Ha & ->)]; cbn.
  - split; [|done]. intros r Hr. congruence.
  - split; [|split; [congruence|done]]. intros r Hr. rewrite Ho in Hr. by injection Hr as <-.
Qed.

Lemma run_row_fields now i id version job provenance rh r : run_row jsonb_in format_float now i id version job provenance rh = Some r ->
  sr_scenario r = id /\ sr_version r = version /\ sr_account r = AccountID i /\ sr_snapshot r = SnapshotID i /\ sr_job r = job /\
  sr_request_hash r = rh.
Proof. unfold run_row. destruct (_ ≫= jsonb_in); [|done]. by intros [= <-]. Qed.

Lemma version_row_hash now i hash v : version_row jsonb_in format_float now i hash = Some v -> sv_hash v = hash.
Proof. unfold version_row. intros H. do 4 (apply bind_Some in H as (? & _ & H)). by injection H as <-. Qed.

(** A request and what it creates in a consistent world. *)
Section creation.
Context (ids : fresh) (now : nat -> time) (i : VersionInput) (hash requestHash : string) (sealed : sealedValuation).
Context (s : store) (claims : list Jobs.Claim) (answer : Run) (s' : store).
Context (id : string) (row : ScenarioRow) (vrow : VersionRow) (rrow : RunRow) (d : documents).
Context (HO : scenario_ok (mkWorld s claims)).
Context (HC : created ids now i hash requestHash sealed s answer s' id row vrow rrow d).

Lemma create_queue_keeps : rows_ok (queue s') /\ evolve (queue s) (queue s').
Proof.
  pose proof (so_queue _ HO) as HI. cbn in HI.
  destruct (enqueue_advances (newJob ids) (new_job ids now i d) (queue s) HI) as [[H1 H2] Hev _ _]; try done; try apply HC.
  rewrite (cr_store HC). split; [|exact Hev]. by constructor.
Qed.

Lemma creation_kept : kept s s'.
Proof.
  pose proof create_queue_keeps as [_ Hev]. constructor; [..|done|]; rewrite (cr_store HC); cbn.
  - apply insert_subseteq, HC.
  - apply insert_subseteq, HC.
  - apply insert_subseteq. apply eq_None_not_Some. intros Hh. apply (so_hashed _ HO) in Hh. cbn in Hh.
    rewrite (cr_job_new HC) in Hh. by destruct Hh.
  - intros id' r Hr. destruct (decide (id' = id)) as [->|Hne].
    + rewrite lookup_insert_eq. eexists. split; [done|].
      destruct (entered_others _ _ _ _ _ _ (cr_entered HC)) as [He _].
      destruct (He _ Hr) as (E1 & E2 & E3 & E4). rewrite E1, E2, E3, E4. split_and!; [done..|lia].
    + rewrite lookup_insert_ne by done. exists r. split_and!; [done..|lia].
Qed.

Context (content : string) (Hcontent : Marshal format_float (VMap (content_value i)) = Some content).
Context (Hhash : hash = sha256_hex content).

Abbreviation version := (sc_version row + 1).

Lemma create_versions id' row' : scenarios s' !! id' = Some row' ->
  0 <= sc_version row' /\ forall v, is_Some (versions s' !! (id', v)) <-> 1 <= v <= sc_version row'.
Proof.
  rewrite (cr_store HC). cbn. destruct (entered_others _ _ _ _ _ _ (cr_entered HC)) as (He & Hn & _).
  destruct (decide (id' = id)) as [->|Hne].
  - rewrite lookup_insert_eq. intros [= <-].
    assert (Hold : 0 <= sc_version row /\ forall v, is_Some (versions s !! (id, v)) <-> 1 <= v <= sc_version row).
    { destruct (scenarios s !! id) as [r|] eqn:E.
      - destruct (He _ eq_refl) as (_ & _ & _ & Hv). cbn in Hv. replace (sc_version row) with (sc_version r) by lia.
        by apply (so_versions _ HO).
      - rewrite (Hn eq_refl). split; [done|]. intros v. split; [|lia]. intros Hv. apply (so_owner _ HO) in Hv. cbn in Hv.
        rewrite E in Hv. by destruct Hv. }
    destruct Hold as [H0 Hold]. cbn [sc_version advanced]. split; [lia|]. intros v. destruct (decide (v = version)) as [->|Hv].
    + rewrite lookup_insert_eq. split; [lia|done].
    + rewrite lookup_insert_ne by congruence. rewrite Hold. lia.
  - rewrite lookup_insert_ne by done. intros Hr. destruct (so_versions _ HO _ _ Hr) as [H0 Hv]. split; [done|]. intros v.
    rewrite lookup_insert_ne by congruence. apply Hv.
Qed.

Lemma create_names id1 id2 r1 r2 : scenarios s' !! id1 = Some r1 -> scenarios s' !! id2 = Some r2 ->
  sc_account r1 = sc_account r2 -> sc_name r1 = sc_name r2 -> id1 = id2.
Proof.
  rewrite (cr_store HC). cbn.
  assert (Hother : forall id' r, id' <> id -> scenarios s !! id' = Some r -> sc_account (advanced row) = sc_account r ->
    sc_name (advanced row) = sc_name r -> False).
  { intros id' r Hne Hr Ha Hm. destruct (cr_entered HC) as [(_ & _ & _ & Hu & ->)|(_ & _ & old & Ho & _ & ->)]; cbn in Ha, Hm.
    - specialize (Hu _ _ Hr). unfold same_name in Hu. by rewrite <- Ha, <- Hm, !bool_decide_eq_true_2 in Hu.
    - by apply Hne, eq_sym, (so_names _ HO _ _ _ _ Ho Hr). }
  destruct (decide (id1 = id)) as [->|H1], (decide (id2 = id)) as [->|H2];
    rewrite ?lookup_insert_eq, ?lookup_insert_ne by done; [done| | |by apply (so_names _ HO)].
  - intros [= <-] Hr Ha Hm. by destruct (Hother _ _ H2 Hr).
  - intros Hr [= <-] Ha Hm. by destruct (Hother _ _ H1 Hr).
Qed.

Lemma create_documents : run_documents s' rrow.
Proof.
  pose proof (cr_run_row HC) as Hr. pose proof (run_row_fields _ _ _ _ _ _ _ _ Hr) as (E1 & E2 & _ & E4 & E5 & _).
  rewrite (cr_store HC).
  exists i, hash, requestHash, sealed, d, (now 3%nat), (new_job ids now i d). rewrite E1, E2, E4, E5. cbn. rewrite !lookup_insert_eq.
  split_and!; try done. apply HC.
Qed.

Lemma create_version_new k r : run_rows s !! k = Some r -> ~ (sr_scenario r = id /\ sr_version r = version).
Proof.
  intros Hr [Hi Hv]. destruct (so_run _ HO _ _ Hr) as [Hs _]. cbn in Hs. rewrite Hi, Hv, (cr_version_new HC) in Hs. by destruct Hs.
Qed.

Lemma create_runs k r : run_rows s' !! k = Some r -> is_Some (versions s' !! (sr_scenario r, sr_version r)) /\
  (exists sc, scenarios s' !! sr_scenario r = Some sc /\ sc_account sc = sr_account r) /\ run_documents s' r.
Proof.
  pose proof creation_kept as Hk. pose proof create_documents as Hd.
  destruct (entered_others _ _ _ _ _ _ (cr_entered HC)) as (_ & _ & Ha). intros Hr.
  assert (Hcases : k = newRun ids /\ r = rrow \/ run_rows s !! k = Some r).
  { rewrite (cr_store HC) in Hr. cbn in Hr. apply lookup_insert_Some in Hr. naive_solver. }
  destruct Hcases as [[-> ->]|Hold].
  - pose proof (run_row_fields _ _ _ _ _ _ _ _ (cr_run_row HC)) as (E1 & E2 & E3 & _). rewrite E1, E2, E3.
    split_and!; [|exists (advanced row); split; [|done]|done]; rewrite (cr_store HC); cbn; by rewrite lookup_insert_eq.
  - destruct (so_run _ HO _ _ Hold) as (H1 & (sc & H2 & H3) & H4). cbn in *. split_and!.
    + destruct H1 as [v Hv]. exists v. eapply lookup_weaken; [done|apply Hk].
    + destruct (kp_scenarios _ _ Hk _ _ H2) as (sc' & E1 & E2 & _). exists sc'. split; [done|congruence].
    + by eapply run_documents_kept.
Qed.

Lemma create_one k1 k2 r1 r2 : run_rows s' !! k1 = Some r1 -> run_rows s' !! k2 = Some r2 ->
  sr_scenario r1 = sr_scenario r2 /\ sr_version r1 = sr_version r2 \/ sr_job r1 = sr_job r2 -> k1 = k2.
Proof.
  pose proof (run_row_fields _ _ _ _ _ _ _ _ (cr_run_row HC)) as (E1 & E2 & _ & _ & E5 & _).
  assert (Hother : forall k r, run_rows s !! k = Some r ->
    ~ (sr_scenario rrow = sr_scenario r /\ sr_version rrow = sr_version r \/ sr_job rrow = sr_job r)).
  { intros k r Hr [[H1 H2]|H]; [eapply (create_version_new _ _ Hr); split; congruence|].
    eapply (cr_job_unrun HC _ _ Hr). congruence. }
  rewrite (cr_store HC). cbn. rewrite !lookup_insert_Some. intros [[<- <-]|[_ H1]] [[<- <-]|[_ H2]] H; [done| | |].
  - by destruct (Hother _ _ H2).
  - destruct (Hother _ _ H1). destruct H as [[]|]; auto.
  - by eapply (so_one _ HO); [exact H1|exact H2|].
Qed.

Lemma create_every id' v : is_Some (versions s' !! (id', v)) ->
  exists k r, run_rows s' !! k = Some r /\ sr_scenario r = id' /\ sr_version r = v.
Proof.
  pose proof (run_row_fields _ _ _ _ _ _ _ _ (cr_run_row HC)) as (E1 & E2 & _). pose proof creation_kept as Hk.
  intros [vr Hv]. rewrite (cr_store HC) in Hv. cbn in Hv. apply lookup_insert_Some in Hv as [[[= <- <-] _]|[_ Hv]].
  - exists (newRun ids), rrow. split; [|done]. rewrite (cr_store HC). cbn. by rewrite lookup_insert_eq.
  - destruct (so_every _ HO id' v) as (k & r & Hr & ?); [by exists vr|]. exists k, r. split; [|done].
    eapply lookup_weaken; [exact Hr|apply Hk].
Qed.

Lemma create_ok : scenario_ok (mkWorld s' claims).
Proof.
  constructor; cbn [w_store w_claims].
  - rewrite (cr_store HC). exact (so_times _ HO).
  - apply create_queue_keeps.
  - exact create_versions.
  - intros id' v [vr Hv]. pose proof creation_kept as Hk. rewrite (cr_store HC) in Hv. cbn in Hv.
    apply lookup_insert_Some in Hv as [[[= <- <-] _]|[_ Hv]].
    + rewrite (cr_store HC). cbn. by rewrite lookup_insert_eq.
    + destruct (so_owner _ HO id' v) as [sc Hsc]; [by exists vr|]. destruct (kp_scenarios _ _ Hk _ _ Hsc) as (sc' & H & _). by exists sc'.
  - exact create_names.
  - intros k v. rewrite (cr_store HC). cbn. rewrite lookup_insert_Some. intros [[_ <-]|[_ Hv]]; [|by eapply (so_content _ HO)].
    exists (now 1%nat), i, content. split; [done|]. rewrite <- Hhash. apply HC.
  - exact create_runs.
  - exact create_one.
  - exact create_every.
  - intros k r. rewrite (cr_store HC). cbn. rewrite !lookup_insert_Some. intros [[<- <-]|[Hne Hr]].
    + eexists. rewrite lookup_insert_eq. split; [done|]. cbn. by pose proof (run_row_fields _ _ _ _ _ _ _ _ (cr_run_row HC)) as (_ & _ & _ & _ & -> & _).
    + destruct (so_life _ HO _ _ Hr) as (l & Hl & E). exists l. split; [by rewrite lookup_insert_ne|done].
  - intros j. rewrite (cr_store HC). cbn. destruct (decide (j = newJob ids)) as [->|Hne]; [by rewrite !lookup_insert_eq|].
    rewrite !lookup_insert_ne by done. apply (so_hashed _ HO).
Qed.
End creation.

(** ** Any history *)

Lemma queue_step_ok s claims q claims' : scenario_ok (mkWorld s claims) -> advances (queue s) q ->
  let s' := set_queue s q (input_hashes s) in scenario_ok (mkWorld s' claims') /\ kept s s'.
Proof.
  intros HO Ha s'. assert (Hk : kept s s').
  { constructor; cbn; [done|done|done|apply Ha|]. intros id row Hrow. exists row. split_and!; [done..|lia]. }
  split; [|done]. destruct HO as [H1 H2 H3 H4 H5 H6 H7 H8 H9 H10 H11]. constructor; cbn in *; try done.
  - apply Ha.
  - intros k r Hr. destruct (H7 k r Hr) as (E1 & E2 & E3). split_and!; [done..|by eapply run_documents_kept].
  - intros k r Hr. destruct (H10 k r Hr) as (l & Hl & E). destruct (adv_runs _ _ Ha _ _ Hl) as (l' & Hl' & E').
    exists l'. split; [done|congruence].
  - intros j Hj. destruct (H11 j Hj) as [job Hjob]. destruct (adv_evolve _ _ Ha _ _ Hjob) as (j' & E & _). by exists j'.
Qed.

Lemma step_ok w w' : scenario_ok w -> step w w' -> scenario_ok w' /\ kept (w_store w) (w_store w').
Proof.
  intros HO Hs. revert HO. destruct Hs as [ids now input fs s claims r s' Hr|o s claims q claims' Hq|id reason now res pos fs s claims r t' Hr
    |b terms pb fb reported s claims q s' Hs' Hkeep]; intros HO; cbn.
  - destruct (version_effect _ _ _ _ _ _ _ _ _ _ _ _ _ (so_times _ HO) Hr)
      as [[-> _]|(i & content & request & _ & _ & Hc & _ & _ & [[-> _]|(sealed & answer & id & row & vrow & rrow & d & _ & HC)])].
    + split; [done|apply kept_refl].
    + split; [done|apply kept_refl].
    + split; [by eapply create_ok|by eapply creation_kept].
  - apply (queue_step_ok _ _ _ _ HO). exact (queue_advances _ (mkSys (queue s) claims) _ _ (so_queue _ HO) Hq).
  - destruct (cancel_run_effect _ _ _ _ _ _ _ _ _ Hr) as [[-> _]|(_ & uid & run & j & q' & _ & _ & Hj & Hc & ->)];
      [split; [done|apply kept_refl]|].
    apply (queue_step_ok _ _ _ _ HO). by apply (cancelled_advances _ _ _ _ _ _ _ (so_queue _ HO) Hj Hc).
  - assert (Ha : advances (queue s) q).
    { split; [by split; apply (so_queue _ HO)| |done|done]. intros i k Hi. exists k. split; [done|apply evolves_refl]. }
    destruct (queue_step_ok _ _ _ claims HO Ha) as [[H1 H2 H3 H4 H5 H6 H7 H8 H9 H10 H11] [? ? ? ? ?]].
    split; constructor; cbn in *; done.
Qed.

Lemma steps_ok w w' : steps w w' -> scenario_ok w -> scenario_ok w' /\ kept (w_store w) (w_store w').
Proof.
  intros H. induction H as [w|w w1 w2 Hs _ IH]; intros HO; [split; [done|apply kept_refl]|].
  destruct (step_ok _ _ HO Hs) as [HO1 Hk1]. destruct (IH HO1) as [HO2 Hk2]. split; [done|]. by eapply kept_trans.
Qed.

(** The attempts of a finished job stay as they are. *)
Lemma step_settled w w' id j n : scenario_ok w -> step w w' -> Jobs.jobs (queue (w_store w)) !! id = Some j ->
  Jobs.terminal (Jobs.JobState j) = true ->
  Jobs.attempts (queue (w_store w')) !! (id, n) = Jobs.attempts (queue (w_store w)) !! (id, n).
Proof.
  intros HO Hs. revert HO. destruct Hs as [ids now input fs s claims r s' Hr|o s claims q claims' Hq|cid reason now res pos fs s claims r t' Hr
    |b terms pb fb reported s claims q s' Hs' Hkeep]; intros HO Hj Ht; cbn in *; [| | |done].
  - destruct (version_effect _ _ _ _ _ _ _ _ _ _ _ _ _ (so_times _ HO) Hr)
      as [[-> _]|(i & content & request & _ & _ & _ & _ & _ & [[-> _]|(sealed & answer & sid & row & vrow & rrow & d & _ & HC)])]; [done|done|].
    by rewrite (cr_store HC).
  - apply (adv_settled _ _ (queue_advances _ (mkSys (queue s) claims) _ _ (so_queue _ HO) Hq) _ _ _ Hj Ht).
  - destruct (cancel_run_effect _ _ _ _ _ _ _ _ _ Hr) as [[-> _]|(_ & uid & run & k & q' & _ & _ & Hk & Hc & ->)]; [done|].
    by apply (adv_settled _ _ (cancelled_advances _ _ _ _ _ _ _ (so_queue _ HO) Hk Hc) _ _ _ Hj).
Qed.

Lemma steps_settled w w' id j n : steps w w' -> scenario_ok w -> Jobs.jobs (queue (w_store w)) !! id = Some j ->
  Jobs.terminal (Jobs.JobState j) = true ->
  Jobs.jobs (queue (w_store w')) !! id = Some j /\
  Jobs.attempts (queue (w_store w')) !! (id, n) = Jobs.attempts (queue (w_store w)) !! (id, n).
Proof.
  intros H. induction H as [w|w w1 w2 Hs _ IH]; intros HO Hj Ht; [done|].
  destruct (step_ok _ _ HO Hs) as [HO1 Hk1]. destruct (kp_jobs _ _ Hk1 _ _ Hj) as (j1 & Hj1 & He). rewrite (ev_final _ _ He Ht) in Hj1.
  destruct (IH HO1 Hj1 Ht) as [Hj2 ->]. split; [done|]. by apply step_settled with j.
Qed.

Lemma holds_key_one s claims key e1 e2 : scenario_ok (mkWorld s claims) -> holds_key s key e1 -> holds_key s key e2 -> e1 = e2.
Proof.
  intros HO (k1 & r1 & v1 & j1 & H1 & Hv1 & Hj1 & Hk1 & Hy1 & ->) (k2 & r2 & v2 & j2 & H2 & Hv2 & Hj2 & Hk2 & Hy2 & ->).
  pose proof (so_queue _ HO) as HI.
  assert (Hj : sr_job r1 = sr_job r2) by (eapply (ro_key _ HI); [exact Hj1|exact Hj2|congruence|congruence]).
  assert (k1 = k2) as <- by (eapply (so_one _ HO); [exact H1|exact H2|by right]).
  rewrite H1 in H2. injection H2 as <-. rewrite Hv1 in Hv2. by injection Hv2 as <-.
Qed.

Lemma select_existing_spec s claims key e : scenario_ok (mkWorld s claims) -> select_existing key s = Ok e <-> holds_key s key e.
Proof.
  intros HO. unfold select_existing. pose proof (elem_of_keyed s key) as H. destruct (omap _ _) as [|e0 l].
  - split; [done|]. intros He%H. by apply elem_of_nil in He.
  - assert (H0 : holds_key s key e0) by (apply H; constructor). split.
    + by intros [= <-].
    + intros He. by rewrite (holds_key_one _ _ _ _ _ HO H0 He).
Qed.

Definition fingerprint (i : VersionInput) : option string := sha256_hex <$> Marshal format_float (VMap (request_value i)).

(** What a successful call leaves under its key. *)
Lemma create_holds ids now input fs s claims a s' : scenario_ok (mkWorld s claims) ->
  run (create ids now input) fs s = (Ok a, s') ->
  exists i content e, valid input = true /\ canonicalizeInputIDs scan_uuid input = Some i /\ text_ok (IdempotencyKey i) = true /\
    Marshal format_float (VMap (content_value i)) = Some content /\
    holds_key s' (IdempotencyKey i) e /\ ex_run e = a /\ ex_account e = AccountID i /\ ex_snapshot e = SnapshotID i /\
    ContentSHA256 a = sha256_hex content /\ fingerprint i = Some (ex_request e) /\
    (ScenarioID i = "" \/ RunScenarioID a = ScenarioID i).
Proof.
  intros HO Hr. destruct (version_effect _ _ _ _ _ _ _ _ _ _ _ _ _ (so_times _ HO) Hr)
    as [[_ (e & [=])]|(i & content & request & Hv & Hi & Hc & Hq & Ht & [(-> & e & He & Hrep & [= ->])
       |(sealed & answer & id & row & vrow & rrow & d & [= ->] & HC)])]; exists i, content; unfold fingerprint; rewrite Hq.
  - exists e. unfold replays in Hrep. rewrite !andb_true_iff, orb_true_iff, !bool_decide_eq_true in Hrep.
    destruct Hrep as [[[[E1 E2] E3] E4] E5]. split_and!; try done; [by apply (select_existing_spec s claims)|by rewrite E4].
  - pose proof (run_row_fields _ _ _ _ _ _ _ _ (cr_run_row HC)) as (E1 & E2 & E3 & E4 & E5 & E6).
    exists (mkExisting answer (AccountID i) (SnapshotID i) (sha256_hex request)).
    split_and!; [done..| |done|done|done|by rewrite (cr_answer HC)|done|].
    + exists (newRun ids), rrow, vrow, (new_job ids now i d). rewrite (cr_answer HC), (cr_store HC). cbn. rewrite E1, E2, E3, E4, E5, E6, !lookup_insert_eq.
      split_and!; try done. by rewrite (version_row_hash _ _ _ _ (cr_version_row HC)).
    + rewrite (cr_answer HC). cbn. destruct (cr_entered HC) as [(H & _)|(H & _)]; auto.
Qed.

(** A call under a key that has a run answers that run or rejects the request. *)
Lemma create_again ids now input fs s claims i content request e r s' : scenario_ok (mkWorld s claims) ->
  valid input = true -> canonicalizeInputIDs scan_uuid input = Some i -> text_ok (IdempotencyKey i) = true ->
  Marshal format_float (VMap (content_value i)) = Some content -> Marshal format_float (VMap (request_value i)) = Some request ->
  holds_key s (IdempotencyKey i) e -> run (create ids now input) fs s = (r, s') ->
  let answer := if replays i (sha256_hex content) (sha256_hex request) e then Ok (ex_run e) else Err ErrInvalidRequest in
  s' = s /\ (forall a, r = Ok a -> r = answer) /\ (fs = [] -> r = answer).
Proof.
  intros HO Hv Hi Ht Hc Hq He Hrun. apply (select_existing_spec s claims _ _ HO) in He.
  assert (Hgen : forall fs0, fs0 = fs -> run (create ids now input) fs0 s = (r, s') ->
    let answer := if replays i (sha256_hex content) (sha256_hex request) e then Ok (ex_run e) else Err ErrInvalidRequest in
    s' = s /\ (forall a, r = Ok a -> r = answer)).
  { intros fs0 _ H0. run_wp H0. unfold CreateVersionAndRun. cbn [negb orb]. rewrite Hv, Hi, Hc, Hq. cbn [negb].
    unfold create_canonical. repeat wp_step; cbn [committed]; try done. unfold lock_key. rewrite Ht.
    repeat wp_step; cbn [committed]; [done|]. rewrite He. destruct (replays _ _ _ _); by wp_step. }
  destruct (Hgen fs eq_refl Hrun) as [-> Ha]. split; [done|]. split; [done|]. intros ->.
  unfold run, CreateVersionAndRun in Hrun. rewrite Hv, Hi, Hc, Hq in Hrun. cbn [negb orb] in Hrun.
  set (hash := sha256_hex content) in *. set (requestHash := sha256_hex request) in *. clearbody hash requestHash.
  unfold create_canonical, lock_key in Hrun. rewrite Ht in Hrun.
  unfold bind, wrap, attempt, begin, query, stmt, guarded, next_fault in Hrun. cbn -[select_existing replays] in Hrun.
  rewrite He in Hrun.
  destruct (replays _ _ _ _); cbn in Hrun; by injection Hrun as <-.
Qed.
End histories.
