(* ===== verification/ScenarioTheorems.v ===== *)
(** What the scenario service promises: consistent tables over any history, one
    run per key, all or nothing, and inputs that were known. *)

From S2P Require Import Prelude GoString Digits GoTime TimeText Sha256 Decimal Order Paging Db Json JsonTree JsonText Tables Jobs JobsSafety JobsRows.
From S2P Require Import ScenarioModel ScenarioInputs Scenarios ScenarioService ScenarioProofs ScenarioSeal ScenarioEvidence ScenarioEffects ScenarioSafety Evidence.
From Stdlib Require Import Ascii QArith SpecFloat.
#[local] Open Scope Z_scope.
Import Scenario ScenarioInputs Scenarios ScenarioService.

(** A store in which no scenario was recorded. *)
Definition unrecorded (s : store) : Prop :=
  stored_times s /\ scenarios s = ∅ /\ versions s = ∅ /\ run_rows s = ∅ /\ input_hashes s = ∅ /\ queue s = empty_store.

(** Known at a time: published by then, in the source's clock, or recorded by then,
    in the system's. *)
Definition known_at (vr : ValuationRunRow) (source : option time) (system : time) : Prop :=
  if bool_decide (vr_knowledge_mode vr = "source_as_of") then exists t, source = Some t /\ t <= vr_known_at vr
  else system <= vr_known_at vr.

Lemma known_by_at vr source system : known_by (vr_knowledge_mode vr) (vr_known_at vr) source system = true -> known_at vr source system.
Proof.
  unfold known_by, known_at. destruct (bool_decide _); [|apply Z.leb_le]. destruct source as [t|]; [|done].
  intros H. exists t. split; [done|]. by apply Z.leb_le.
Qed.

(** A revision that was known to the valuation: it is the stored price of the
    instrument, observed by the cutoff and recorded by the knowledge time, and is
    converted, if at all, with a stored quote observed no later than the price,
    recorded by then too, and no older than the valuation's bound. *)
Definition known_quote (s : store) (vr : ValuationRunRow) (t : time) (f : metricFXRevision) : Prop :=
  exists row, fx_quotes (base s) !! FXID f = Some row /\ FXObservationTime f = fx_observation row /\ Rate f = numeric_out (fx_rate row) /\
    fx_observation row <= t /\ t - fx_observation row <= vr_fx_max_age vr * Second /\
    known_at vr (fx_source_known row) (fx_system_known row).

Definition known_price (s : store) (vr : ValuationRunRow) (instrument : string) (r : metricPriceRevision) : Prop :=
  exists row, prices (base s) !! PriceID r = Some row /\ pr_instrument row = instrument /\
    ObservationTime r = pr_observation row /\ Price r = numeric_out (pr_price row) /\ pr_observation row <= vr_cutoff vr /\
    known_at vr (pr_source_known row) (pr_system_known row) /\
    (length (FXPath r) <= 1)%nat /\ Forall (known_quote s vr (pr_observation row)) (FXPath r).

Lemma converts_known s vr currency t f : age_fits (vr_fx_max_age vr) -> converts s vr currency t f -> known_quote s vr t f.
Proof.
  intros Ha [(row & Hrow & _ & -> & _ & Hk) Hsel].
  assert (Hu : exists direction, usable_quote direction t (vr_fx_max_age vr) (to_fx_revision currency s (FXID f, row))).
  { unfold selectMetricFXRevision in Hsel. match type of Hsel with context [selectOrientation ?h _ _ "direct"] =>
      pose proof (selectOrientation_spec h "direct" t _ Ha) as Hd; pose proof (selectOrientation_spec h "inverse" t _ Ha) as Hi end.
    destruct (selectOrientation _ _ _ "direct") as [g|].
    - injection Hsel as ->. exists "direct". apply Hd.
    - rewrite Hsel in Hi. exists "inverse". apply Hi. }
  apply known_by_at in Hk. destruct Hu as (direction & _ & Hle & Hage). by exists row.
Qed.

Lemma entry_known s vr id r : age_fits (vr_fx_max_age vr) -> price_entry s vr id r -> known_price s vr id r.
Proof.
  intros Ha (unit & r0 & (row & Hrow & Hi & _ & Hr0 & Hw & Hk & _) & Hr).
  unfold in_window in Hw. rewrite andb_true_iff, !Z.leb_le in Hw. destruct Hw as [Hw _]. apply known_by_at in Hk.
  assert (E : ObservationTime r0 = pr_observation row /\ Price r0 = numeric_out (pr_price row) /\ FXPath r0 = []) by by rewrite Hr0.
  destruct E as (Et & Ep & Ef).
  assert (H : forall path usd, (length path <= 1)%nat -> Forall (known_quote s vr (pr_observation row)) path ->
    known_price s vr id (in_dollars usd path r0)) by (intros path usd Hl Hp; by exists row).
  destruct Hr as [[_ ->]|[_ [->|(f & usd & Hc & _ & ->)]]].
  - apply H; [cbn; lia|constructor].
  - exists row. rewrite Ef. split_and!; try done. cbn; lia.
  - apply H; [cbn; lia|]. apply Forall_singleton. rewrite <- Et. by apply (converts_known _ _ (trim_space unit)).
Qed.

Section theorems.
Context (scan_uuid uuid_in : string -> option string) (timestamptz_out : time -> string) (timestamptz_in : string -> option time).
Context (jsonb_in : string -> option json) (text_ok : string -> bool) (format_float : spec_float -> string).
Context {HT : TimestampText timestamptz_out timestamptz_in}.

Abbreviation create := (CreateVersionAndRun true scan_uuid timestamptz_out timestamptz_in jsonb_in text_ok format_float).
Abbreviation steps := (steps scan_uuid uuid_in timestamptz_out timestamptz_in jsonb_in text_ok format_float).
Abbreviation scenario_ok := (scenario_ok jsonb_in format_float).
Abbreviation run_documents := (run_documents jsonb_in format_float).
Abbreviation effect := (version_effect scan_uuid timestamptz_out timestamptz_in jsonb_in text_ok format_float).

Lemma unrecorded_ok s : unrecorded s -> scenario_ok (mkWorld s []).
Proof.
  intros (Ht & E1 & E2 & E3 & E4 & E5). constructor; cbn; rewrite ?E1, ?E2, ?E3, ?E4, ?E5; try done.
  - intros id v [x Hx]. by rewrite lookup_empty in Hx.
  - intros id v [x Hx]. by rewrite lookup_empty in Hx.
  - intros j [x Hx]. by rewrite lookup_empty in Hx.
Qed.

(** C13: over any history of the service, of the job queue, of cancellations and of the services
    that store prices and valuations, with any failures: the versions of a
    scenario are numbered one to its counter without gaps, an account's scenarios
    have distinct names, each version is of the content its hash is the digest
    of, each version has exactly one run and each run its own job, which carries
    the sealed document under its recorded hash; and nothing recorded is
    changed or lost. *)
Theorem scenario_invariant s w w' : unrecorded s -> steps (mkWorld s []) w -> steps w w' ->
  scenario_ok w /\ scenario_ok w' /\ kept (w_store w) (w_store w').
Proof.
  intros Hs H1 H2. apply unrecorded_ok in Hs. pose proof (steps_ok _ _ _ _ _ _ _ _ _ H1 Hs) as [Hw _].
  split; [done|]. by apply (steps_ok _ _ _ _ _ _ _ _ _ H2).
Qed.


(** What a recorded run consists of. *)
Definition recorded_run (i : VersionInput) (s : store) (a : Run) (s' : store) (sealed : sealedValuation) : Prop :=
  exists sc vrow rrow job d,
    scenarios s' !! RunScenarioID a = Some sc /\ sc_account sc = AccountID i /\ sc_template sc = TemplateKey i /\
    sc_version sc = ScenarioVer a /\
    ScenarioVer a = default 0 (sc_version <$> scenarios s !! RunScenarioID a) + 1 /\
    (ScenarioID i = "" -> scenarios s !! RunScenarioID a = None /\ sc_name sc = Name i) /\
    (ScenarioID i <> "" -> RunScenarioID a = ScenarioID i) /\
    versions s !! (RunScenarioID a, ScenarioVer a) = None /\
    versions s' = <[(RunScenarioID a, ScenarioVer a) := vrow]> (versions s) /\ sv_hash vrow = ContentSHA256 a /\
    run_rows s !! RunID a = None /\ run_rows s' = <[RunID a := rrow]> (run_rows s) /\
    sr_scenario rrow = RunScenarioID a /\ sr_version rrow = ScenarioVer a /\ sr_job rrow = RunJobID a /\
    Jobs.jobs (queue s) !! RunJobID a = None /\ Jobs.jobs (queue s') !! RunJobID a = Some job /\
    Jobs.JobState job = Jobs.StateQueued /\ Jobs.IdempotencyKey job = IdempotencyKey i /\ Jobs.Payload job = doc_payload d /\
    input_hashes s' !! RunJobID a = Some (doc_hash d) /\
    documented format_float i (RunScenarioID a) (ScenarioVer a) (ContentSHA256 a) sealed d.

Lemma created_recorded ids now i hash rh sealed s a s' id row vrow rrow d :
  created jsonb_in format_float ids now i hash rh sealed s a s' id row vrow rrow d -> recorded_run i s a s' sealed.
Proof.
  intros HC. pose proof (run_row_fields _ _ _ _ _ _ _ _ _ _ (cr_run_row HC)) as (E1 & E2 & E3 & E4 & E5 & E6).
  rewrite (cr_answer HC), (cr_store HC). exists (advanced row), vrow, rrow, (new_job ids now i d), d. cbn.
  rewrite !lookup_insert_eq. pose proof (version_row_hash _ _ _ _ _ _ (cr_version_row HC)) as Hh.
  pose proof (cr_version_new HC). pose proof (cr_run_new HC). pose proof (cr_job_new HC). pose proof (cr_documents HC).
  destruct (cr_entered HC) as [(Hi & _ & Hn & _ & ->)|(Hi & Hne & old & Ho & Ha & ->)]; cbn.
  - rewrite Hn. split_and!; try done.
  - rewrite Ho. cbn. split_and!; try done; congruence.
Qed.

(** C15: a call records all of a version or nothing.  An error leaves the tables as
    they were; an answer is the run already held by the key, with nothing
    changed, or a new run: of the request's scenario at the version after its
    last, or of a new scenario at version one, with the version, the run and a
    queued job carrying the document sealed from the valuation. *)
Theorem version_recorded ids now input fs s claims r s' : scenario_ok (mkWorld s claims) ->
  run (create ids now input) fs s = (r, s') ->
  match r with
  | Err _ => s' = s
  | Ok a => exists i, valid input = true /\ canonicalizeInputIDs scan_uuid input = Some i /\
      ((s' = s /\ exists e, holds_key s (IdempotencyKey i) e /\ ex_run e = a) \/
       exists sealed, sealed_from s (AccountID i) (SnapshotID i) (ValuationID i) sealed /\ recorded_run i s a s' sealed)
  end.
Proof.
  intros HO H. destruct (effect _ _ _ _ _ _ _ (so_times _ _ _ HO) H)
    as [[-> [e ->]]|(i & content & request & Hv & Hi & _ & _ & _ & [(-> & e & He & _ & ->)
       |(sealed & a & id & row & vrow & rrow & d & -> & HC)])]; [done| |]; exists i; (split; [done|]); (split; [done|]).
  - left. split; [done|]. exists e. split; [|done]. by eapply select_existing_spec.
  - right. exists sealed. split; [apply HC|]. by eapply created_recorded.
Qed.

End theorems.

(** ** A concrete history: a price in lira converted at the quote of its time *)
Module demo.

Definition uuid (n : string) : string := "id-" +:+ n.

Definition timestamptz_out (t : time) : string := format_int t.
Definition timestamptz_in (text : string) : option time :=
  Some (match chars text with "-"%char :: ds => - dval ds | ds => dval ds end).

#[export] Instance timestamp_text : TimestampText timestamptz_out timestamptz_in.
Proof.
  intros t _. unfold timestamptz_out, timestamptz_in, format_int. rewrite chars_of_chars. f_equal.
  destruct (Z.ltb_spec t 0) as [Hneg|Hpos].
  - rewrite dval_digits by lia. lia.
  - pose proof (all_digits_digits t Hpos) as Hd. pose proof (dval_digits t Hpos) as Hv.
    destruct (digits t) as [|c ds]; [done|]. cbn in Hd. apply andb_true_iff in Hd as [Hc _].
    destruct (ascii_dec c "-") as [->|Hne]; [done|]. rewrite <- Hv. by destruct c as [[] [] [] [] [] [] [] []].
Qed.

Definition noon (day : Z) : time := day * day_ns + 43200 * Second.

Definition demo_tables : tables :=
  mkTables {[ uuid "11" := mkInstrument "THYAO" "equity_spot" "TRY" "active" ]}
    {[ uuid "10" := "TRY" ]} {[ uuid "01" := uuid "10" ]} {[ uuid "02" := mkSnapshot (uuid "10") (noon 20000) ]}
    {[ uuid "12" := mkSnapshotLine (uuid "02") (uuid "01") (uuid "11") (2 * scale18) ]}
    {[ uuid "21" := mkPriceRow (uuid "11") "TRY" (noon 19999) (300 * scale18) None (noon 19999) "raw";
       uuid "22" := mkPriceRow (uuid "11") "TRY" (noon 20001) (900 * scale18) None (noon 20001) "raw" ]}
    {[ uuid "31" := mkFXRow "USD" "TRY" (noon 19999) (40 * scale18) None (noon 19999) "raw";
       uuid "32" := mkFXRow "USD" "TRY" (noon 20001) (50 * scale18) None (noon 20001) "raw" ]}
    {[ uuid "03" := mkValuationRun (uuid "02") (noon 20000) "system_as_of" (noon 20000) 172800 172800 "request" "valid" "hash" (noon 20000) ]}
    {[ uuid "13" := mkValuationLine (uuid "03") (uuid "12") "TRY" (Some (600 * scale18)) (Some (600 * scale18)) (Some (15 * scale18))
         "valid" [] "revision" (Some (uuid "21")) (Some "TRY") [] [] [uuid "31"] ["reverse"] ]}
    ∅ ∅ ∅.

Definition start : store := mkStore demo_tables ∅ ∅ ∅ ∅ ∅ ∅ empty_store ∅.

Definition input (scenario name shock key : string) : VersionInput :=
  mkVersionInput (uuid "01") (uuid "02") (uuid "03") scenario name "risk_off" key (Some [("rate_bps", VStr "bps")])
    (Some [("rate_bps", VStr shock)]) (Some []) (Some []).

Definition call (job run : string) (i : VersionInput) : dbm store Run :=
  CreateVersionAndRun true Some timestamptz_out timestamptz_in parse_json (fun _ => true) (fun _ => "0")
    (mkFresh (uuid "40") job run) (fun n => Z.of_nat n) i.

Definition first_call : dbm store Run := call (uuid "51") (uuid "61") (input "" "stress" "100" "key-1").
Definition second_call : dbm store Run := call (uuid "52") (uuid "62") (input (uuid "40") "stress" "250" "key-2").

Definition opened : store := Eval vm_compute in snd (run first_call [] start).

(** A worker claims the first job, then the second version is recorded. *)
Definition claimed : res (option Jobs.Claim) * Jobs.store := Eval vm_compute in
  run (Jobs.ClaimOp true "w1" 60 10 ∅) [] (queue opened).
Definition handed : list Jobs.Claim := Eval vm_compute in match fst claimed with Ok (Some c) => [c] | _ => [] end.
Definition working : store := Eval vm_compute in set_queue opened (snd claimed) (input_hashes opened).
Definition revised : store := Eval vm_compute in snd (run second_call [] working).

Definition first_run : Run :=
  mkRun (uuid "61") (uuid "40") 1 (uuid "51") "a13bf358fd85f5c59f63140237ce8c200f108cc2214afea28642ff675fdc7390".
Definition second_run : Run :=
  mkRun (uuid "62") (uuid "40") 2 (uuid "52") "6c48ca65657fbc4df140b9993a7966da1ca9480340961abf876b695301fd2cbf".

Lemma first_answer : run first_call [] start = (Ok first_run, opened).
Proof. vm_cast_no_check (eq_refl (Ok first_run, opened)). Qed.
Lemma claim_answer : run (Jobs.ClaimOp true "w1" 60 10 ∅) [] (queue opened) = (Ok (head handed), queue working).
Proof. vm_cast_no_check (eq_refl (Ok (head handed), queue working)). Qed.
Lemma second_answer : run second_call [] working = (Ok second_run, revised).
Proof. vm_cast_no_check (eq_refl (Ok second_run, revised)). Qed.

Abbreviation steps := (steps Some Some timestamptz_out timestamptz_in parse_json (fun _ => true) (fun _ => "0")).

Lemma start_unrecorded : unrecorded start.
Proof.
  split; [|done]. intros id vr H. cbn [base start valuation_runs demo_tables] in H. apply lookup_singleton_Some in H as [_ <-].
  by vm_compute.
Qed.

Lemma to_opened : steps (mkWorld start []) (mkWorld opened []).
Proof. apply rtc_once. by eapply step_create, first_answer. Qed.

Lemma to_working : steps (mkWorld opened []) (mkWorld working handed).
Proof.
  apply rtc_once. change working with (set_queue opened (queue working) (input_hashes opened)).
  eapply step_queue. exact (step_claim _ [] "w1" 60 10 ∅ _ [] _ _ claim_answer).
Qed.

Lemma to_revised : steps (mkWorld working handed) (mkWorld revised handed).
Proof. apply rtc_once. by eapply step_create, second_answer. Qed.

Lemma start_ok : scenario_ok parse_json (fun _ => "0") (mkWorld start []).
Proof. apply unrecorded_ok, start_unrecorded. Qed.

Lemma working_ok : scenario_ok parse_json (fun _ => "0") (mkWorld working handed).
Proof.
  refine (proj1 (steps_ok _ _ _ _ _ _ _ _ _ _ start_ok)). etransitivity; [exact to_opened|exact to_working].
Qed.
End demo.
Import demo.

Lemma to_both w1 w2 w3 : steps w1 w2 -> steps w2 w3 -> steps w1 w3.
Proof. intros H1 H2. by etransitivity. Qed.

Lemma scenario_invariant_witness : scenario_ok parse_json (fun _ => "0") (mkWorld revised handed) /\
  is_Some (versions revised !! (uuid "40", 2)) /\ size (run_rows revised) = 2%nat.
Proof.
  split; [|vm_compute; split; [eexists|]; reflexivity].
  exact (proj1 (proj2 (scenario_invariant Some Some timestamptz_out timestamptz_in parse_json (fun _ => true) (fun _ => "0") _ _ _
    start_unrecorded (to_both _ _ _ to_opened to_working) to_revised))).
Defined.

(** The same request under another name, and another request under the same key. *)
Definition first_input : VersionInput := input "" "stress" "100" "key-1".
Definition renamed_input : VersionInput := input "" "renamed" "100" "key-1".
Definition changed_input : VersionInput := input "" "stress" "300" "key-1".
Definition renamed_call : dbm store Run := call (uuid "53") (uuid "63") renamed_input.
Definition changed_call : dbm store Run := call (uuid "53") (uuid "63") changed_input.


Lemma version_recorded_witness :
  exists i sealed, canonicalizeInputIDs Some (input (uuid "40") "stress" "250" "key-2") = Some i /\
    recorded_run (fun _ => "0") i working second_run revised sealed.
Proof.
  destruct (version_recorded _ _ _ _ _ _ _ _ _ _ _ _ _ _ working_ok second_answer) as (i & _ & Hi & [[H _]|(sealed & _ & H)]).
  - exfalso. apply (f_equal (fun s => size (run_rows s))) in H. vm_compute in H. discriminate.
  - by exists i, sealed.
Defined.


(** *** A sealed entry read by the evidence service *)

Definition member (kv : string * goval) : option (string * json) :=
  match snd kv with VStr t => Some (fst kv, JString t) | _ => None end.
Definition read (fields : list (string * goval)) : Evidence.metric := list_to_map (omap member fields).

Definition demo_run_row : ValuationRunRow :=
  mkValuationRun (uuid "02") (noon 20000) "system_as_of" (noon 20000) 172800 172800 "request" "valid" "hash" (noon 20000).
Definition demo_price : metricPriceRevision :=
  to_price_revision "TRY" start (uuid "21", mkPriceRow (uuid "11") "TRY" (noon 19999) (300 * scale18) None (noon 19999) "raw").
Definition demo_quote : metricFXRevision :=
  to_fx_revision "TRY" start (uuid "31", mkFXRow "USD" "TRY" (noon 19999) (40 * scale18) None (noon 19999) "raw").
Definition demo_entry : metricPriceRevision := in_dollars "7.500000000000000000" [demo_quote] demo_price.

Lemma demo_coded : coded start.
Proof.
  split; cbn [start base demo_tables fx_quotes prices].
  - intros id row. rewrite lookup_insert_Some, lookup_singleton_Some. by intros [[_ <-]|[_ [_ <-]]].
  - intros id row. rewrite lookup_insert_Some, lookup_singleton_Some. by intros [[_ <-]|[_ [_ <-]]].
Qed.

Lemma demo_sealed : price_entry start demo_run_row (uuid "11") demo_entry.
Proof.
  exists "TRY", demo_price. split.
  - eexists. split_and!; [vm_compute; reflexivity|done|done|done|vm_compute; reflexivity|vm_compute; reflexivity|].
    intros id row. cbn [start base demo_tables prices]. rewrite lookup_insert_Some, lookup_singleton_Some.
    intros [[<- <-]|[_ [<- <-]]] _ _; [intros _ _; vm_compute; reflexivity|intros H; vm_compute in H; discriminate].
  - right. split; [done|]. right. exists demo_quote, "7.500000000000000000". split_and!; [|vm_compute; reflexivity|done].
    split; [|vm_compute; reflexivity]. eexists. split_and!; [vm_compute; reflexivity|right; done|done|vm_compute; reflexivity..].
Qed.

Lemma members_read fields : NoDup (fst <$> fields) -> reads_back (read fields) fields.
Proof.
  intros Hnd name text. induction fields as [|[n v] l IH]; [by intros ?%elem_of_nil|]. rewrite fmap_cons, NoDup_cons in Hnd.
  destruct Hnd as [Hn Hnd]. intros [[= <- <-]|Hin]%elem_of_cons; [apply lookup_insert_eq|].
  assert (Hne : n <> name) by (intros ->; apply Hn; apply list_elem_of_fmap; by exists (name, VStr text)).
  specialize (IH Hnd Hin). destruct v; try exact IH.
  etransitivity; [by apply lookup_insert_ne|exact IH].
Qed.

