(* ===== verification/RiskProofs.v ===== *)
(** The risk service, proved: a submission is answered with the run it recorded, a
    finished run keeps what is reported of it, a cancellation is exact and leaves
    the attempt it interrupts open for ever, and the pages of a run's positions
    are all of them. *)

From S2P Require Import Prelude GoString Digits GoTime Base64 Sha256 Decimal Order Paging Db Json JsonTree JsonText Tables Jobs JobsSafety JobsRows.
From S2P Require Import ScenarioModel ScenarioInputs Scenarios ScenarioService ScenarioSeal ScenarioEffects Risk RiskEffects ScenarioSafety ScenarioTheorems.
From Stdlib Require Import Ascii SpecFloat.
#[local] Open Scope Z_scope.
Import Risk.

(** ** Positions *)

(** All positions of a run, by line. *)
Definition run_positions (id : string) (s : store) : list ((string * string) * PositionRow) :=
  insertion_sort (before (asc_text line_of)) (List.filter (of_run id "") (map_to_list (positions s))).

Section pages.
Context (uuid_in : string -> option string) (text_ok : string -> bool) (s : store) (id uid : string).
Context (Hid : uuid_in id = Some uid) (Hblank : trim_space id <> "").
Context (Hrun : is_Some (Scenario.run_rows (core s) !! uid)).
Context (Hlines : forall line r, positions s !! (uid, line) = Some r -> line <> "" /\ text_ok line = true).
Context (Hempty : text_ok "" = true).

Abbreviation rows := (List.filter (of_run uid "") (map_to_list (positions s))).

Lemma positions_elem kv : kv ∈ rows <-> fst (fst kv) = uid /\ positions s !! fst kv = Some (snd kv).
Proof.
  rewrite filter_elem. destruct kv as [[i line] r]. rewrite elem_of_map_to_list. unfold of_run. cbn.
  rewrite andb_true_r, bool_decide_eq_true. naive_solver.
Qed.

Lemma rows_total : total_on (asc_text line_of) rows.
Proof.
  intros [[i1 l1] r1] [[i2 l2] r2] [H1 L1]%positions_elem [H2 L2]%positions_elem He%string_cmp_eq. cbn in *. subst. congruence.
Qed.

Lemma rows_NoDup : NoDup rows.
Proof.
  eapply (NoDup_fmap_1 fst). eapply sublist_NoDup; [exact (NoDup_fst_map_to_list (positions s))|]. apply fmap_sublist.
  induction (map_to_list (positions s)) as [|x l IH]; cbn; [constructor|]. destruct (of_run uid "" x); by constructor.
Qed.

(** What a page is asked for after a line. *)
Lemma filter_line x rest : x ∈ rows -> List.filter (of_run uid (line_of x)) rest = List.filter (before (asc_text line_of) x) (List.filter (of_run uid "") rest).
Proof.
  intros Hx. assert (Hne : line_of x <> "").
  { apply positions_elem in Hx as [Hu Hx]. destruct x as [[i line] r]. cbn in *. subst. by apply (Hlines _ _ Hx). }
  assert (Ho : forall y, of_run uid (line_of x) y = of_run uid "" y && before (asc_text line_of) x y).
  { intros y. unfold of_run, before, asc_text, string_cmp. rewrite (bool_decide_eq_false_2 (line_of x = "")) by done. cbn.
    rewrite andb_true_r. destruct (bool_decide _); [|done]. destruct (string_ltb (line_of x) _); [done|]. by destruct (string_ltb _ _). }
  induction rest as [|y l IH]; [done|]. cbn [List.filter]. rewrite Ho. destruct (of_run uid "" y); cbn [andb List.filter]; [|exact IH].
  destruct (before _ _ _); by rewrite IH.
Qed.

Definition fetch_positions (limit : Z) (cursor : string) : option (list PositionItem * option string) :=
  match fst (run (Positions true uuid_in text_ok id cursor limit) [] s) with
  | Ok page => Some (Items page, if HasMore page then Some (NextCursor page) else None)
  | Err _ => None
  end.

Lemma to_item_line kv : snapshot_line_id (to_item kv) = line_of kv.
Proof. done. Qed.

Lemma page_cut limit l : 0 < limit ->
  let page := page_of (to_item <$> take (Z.to_nat (limit + 1)) l) limit in
  (Items page, if HasMore page then Some (NextCursor page) else None) =
  (to_item <$> take (Z.to_nat limit) l,
   if (Z.to_nat limit <? length l)%nat then (encodeCursor ∘ line_of) <$> last (take (Z.to_nat limit) l) else None).
Proof.
  intros Hl. cbv zeta. unfold page_of. rewrite length_fmap, length_take.
  replace (Z.of_nat (Z.to_nat (limit + 1) `min` length l)) with (Z.min (limit + 1) (Z.of_nat (length l))) by lia.
  destruct (Nat.ltb_spec (Z.to_nat limit) (length l)) as [Hlt|Hge].
  - rewrite (proj2 (Z.ltb_lt limit (Z.min _ _))) by lia. cbn [Items HasMore NextCursor].
    rewrite <- fmap_take, take_take, Nat.min_l by lia. f_equal. rewrite fmap_last.
    assert (Hlen : length (take (Z.to_nat limit) l) = Z.to_nat limit) by (rewrite length_take; lia).
    destruct (last (take (Z.to_nat limit) l)) as [x|] eqn:E; [done|]. apply last_None in E. rewrite E in Hlen. cbn in Hlen. lia.
  - rewrite (proj2 (Z.ltb_ge limit (Z.min _ _))) by lia. cbn [Items HasMore]. rewrite !take_ge by lia. done.
Qed.

Lemma positions_answer limit cursor last : 0 < limit <= 200 -> decodeCursor cursor = Some last -> text_ok last = true ->
  fst (run (Positions true uuid_in text_ok id cursor limit) [] s) =
  Ok (page_of (to_item <$> take (Z.to_nat (limit + 1))
    (insertion_sort (before (asc_text line_of)) (List.filter (of_run uid last) (map_to_list (positions s))))) limit).
Proof.
  intros Hl Hd Ht. rewrite run_answer. unfold Positions. rewrite (bool_decide_eq_false_2 _ Hblank). cbn [negb orb].
  replace (limit <? 0) with false by lia. replace (200 <? limit) with false by lia. cbn [orb]. answers.
  unfold run_exists. rewrite Hid. rewrite bool_decide_eq_true_2 by done. cbn [negb].
  replace (limit =? 0) with false by lia. rewrite Hd. answers. unfold select_positions. by rewrite Hid, Ht.
Qed.

Lemma fetch_positions_page limit pre post : 0 < limit <= 200 -> run_positions uid s = pre ++ post ->
  fetch_positions limit (Paging.cursor_after (encodeCursor ∘ line_of) "" pre) =
  page_after to_item (encodeCursor ∘ line_of) (Z.to_nat limit) pre post.
Proof.
  intros Hl Hr. set (cursor := Paging.cursor_after _ _ _). unfold page_after. unfold fetch_positions.
  assert (Hsel : exists last, decodeCursor cursor = Some last /\ text_ok last = true /\
    insertion_sort (before (asc_text line_of)) (List.filter (of_run uid last) (map_to_list (positions s))) = post).
  { unfold cursor, Paging.cursor_after. destruct (last pre) as [x|] eqn:Ex.
    - assert (Hx : x ∈ rows).
      { rewrite <- (insertion_sort_elem (before (asc_text line_of))). change (x ∈ run_positions uid s). rewrite Hr.
        apply elem_of_app. left. by apply last_Some_elem_of in Ex. }
      pose proof Hx as [Hu Hp]%positions_elem. destruct (Hlines (line_of x) (snd x)) as [Hne Ht].
      { rewrite <- Hp, <- Hu. by destruct x as [[? ?] ?]. }
      exists (line_of x). split; [|split; [done|]].
      + cbn. unfold decodeCursor, encodeCursor. rewrite base64_round_trip, (bool_decide_eq_false_2 _ Hne).
        rewrite bool_decide_eq_false_2; [done|]. intros He. pose proof (base64_round_trip (line_of x)) as Hb. rewrite He in Hb.
        vm_compute in Hb. injection Hb as Hb. by apply Hne.
      + rewrite filter_line by done. apply last_Some in Ex as [pre' ->]. rewrite <- app_assoc in Hr. cbn in Hr.
        eapply filter_after; [exact _|apply rows_NoDup|apply rows_total|exact Hr].
    - apply last_None in Ex as ->. exists "". split_and!; [done|done|]. exact Hr. }
  destruct Hsel as (last & Hd & Ht & Hs). rewrite (positions_answer limit cursor last Hl Hd Ht), Hs. exact (f_equal Some (page_cut limit post ltac:(lia))).
Qed.

(** A client that follows the cursors of a run's positions, whatever the
    limit, gets every position of the run once, by snapshot line. *)
Theorem positions_paged limit fuel : 0 < limit <= 200 -> (size (positions s) < fuel)%nat ->
  follow (fetch_positions limit) fuel "" = Some (to_item <$> run_positions uid s) /\
  StronglySorted (fun x y => string_cmp (line_of x) (line_of y) = Lt) (run_positions uid s) /\
  forall kv, kv ∈ run_positions uid s <-> fst (fst kv) = uid /\ positions s !! fst kv = Some (snd kv).
Proof.
  intros Hl Hf. split_and!.
  - apply (follow_all _ to_item (encodeCursor ∘ line_of) "" (Z.to_nat limit)); [lia| |].
    + intros pre post Hr. by apply fetch_positions_page.
    + eapply Nat.le_lt_trans; [|exact Hf]. unfold run_positions. rewrite insertion_sort_perm, <- length_map_to_list. apply filter_length_le.
  - apply sorted_strict; [exact _| | |].
    + eapply total_on_perm; [|apply rows_total]. unfold run_positions. by rewrite insertion_sort_perm.
    + unfold run_positions. rewrite insertion_sort_perm. apply rows_NoDup.
    + unfold run_positions. apply sort_sorted, _.
  - intros kv. unfold run_positions. rewrite insertion_sort_elem. apply positions_elem.
Qed.
End pages.

(** ** Reading a run *)

Lemma status_finished st l : mapStatus (Jobs.state_name st) l ∈ ["completed"; "permanent"; "cancelled"] <-> Jobs.terminal st = true.
Proof. destruct st; vm_compute; set_solver. Qed.

Lemma wp_ran {S A} (m : dbm S A) (Q : res A -> db S -> Prop) c fs :
  (forall r s' w' fs', run m fs c = (r, s') -> Q r (Db s' w' fs')) -> wp m Q (Db c c fs).
Proof. intros H. unfold wp. unfold run in H. destruct (m _) as [r [c1 w1 fs1]]. exact (H _ _ _ _ eq_refl). Qed.

Lemma wp_embed {S T A} (get : T -> S) (put : S -> T -> T) (m : dbm S A) (Q : res A -> db T -> Prop) c fs :
  (forall r s' w' fs', run m fs (get c) = (r, s') -> Q r (Db (put s' c) (put w' c) fs')) ->
  wp (embed get put m) Q (Db c c fs).
Proof.
  intros H. unfold wp, embed. cbn. unfold run in H. destruct (m _) as [r [c1 w1 fs1]]. cbn. exact (H _ _ _ _ eq_refl).
Qed.

Section service.
Context (scan_uuid uuid_in : string -> option string) (timestamptz_out : time -> string) (timestamptz_in : string -> option time).
Context (jsonb_in : string -> option json) (text_ok : string -> bool) (format_float : spec_float -> string).
Context (shuffle : list string -> list string).
Context {HT : TimestampText timestamptz_out timestamptz_in}.

Abbreviation Get := (Get true uuid_in jsonb_in shuffle).
Abbreviation Cancel := (Cancel true uuid_in jsonb_in text_ok shuffle).
Abbreviation Submit := (Submit true scan_uuid uuid_in timestamptz_out timestamptz_in jsonb_in text_ok format_float shuffle).
Abbreviation select_run := (select_run uuid_in jsonb_in).
Abbreviation to_run := (to_run shuffle).
Abbreviation scenario_ok := (scenario_ok jsonb_in format_float).
Abbreviation steps := (steps scan_uuid uuid_in timestamptz_out timestamptz_in jsonb_in text_ok format_float).

Lemma Get_wp id (Q : res Run -> db store -> Prop) c w fs :
  (forall e fs' w', Q (Err e) (Db c w' fs')) ->
  (forall row fs' w', trim_space id <> "" -> select_run id c = Ok row -> Q (Ok (to_run row)) (Db c w' fs')) ->
  wp (Get id) Q (Db c w fs).
Proof.
  intros Herr Hok. unfold Risk.Get. cbn [negb orb]. destruct (bool_decide (trim_space id = "")) eqn:Hb; [wp_step; apply Herr|].
  apply bool_decide_eq_false in Hb. unfold pool_query. repeat wp_step; try apply Herr.
  injection E as E <-. by apply Hok.
Qed.

(** The columns of a run's row are there. *)
Lemma select_run_row s claims id uid r : scenario_ok (mkWorld (core s) claims) -> uuid_in id = Some uid ->
  Scenario.run_rows (core s) !! uid = Some r ->
  exists row, select_run id s = Ok row /\ sel_id row = uid /\ sel_run row = r /\
    Scenario.versions (core s) !! (Scenario.sr_scenario r, Scenario.sr_version r) = Some (sel_version row) /\
    Jobs.jobs (jobs_of s) !! Scenario.sr_job r = Some (sel_job row).
Proof.
  intros HO Hu Hr. destruct (so_run _ _ _ HO _ _ Hr) as ([v Hv] & _ & Hd). destruct (so_life _ _ _ HO _ _ Hr) as (l & Hl & _).
  destruct Hd as (i & hash & rh & sealed & d & now & j & _ & _ & Hj & _). cbn in *.
  unfold Risk.select_run. rewrite Hu, Hr. cbn. rewrite Hv. cbn. unfold jobs_of. rewrite Hj. cbn. rewrite Hl. cbn. by eexists.
Qed.

Lemma select_run_cases s id row : select_run id s = Ok row -> exists uid, uuid_in id = Some uid /\ sel_id row = uid /\
  Scenario.run_rows (core s) !! uid = Some (sel_run row) /\
  Scenario.versions (core s) !! (Scenario.sr_scenario (sel_run row), Scenario.sr_version (sel_run row)) = Some (sel_version row) /\
  Jobs.jobs (jobs_of s) !! Scenario.sr_job (sel_run row) = Some (sel_job row).
Proof.
  unfold Risk.select_run. destruct (uuid_in id) as [uid|]; [|done]. intros H. exists uid. split; [done|].
  destruct (Scenario.run_rows (core s) !! uid) as [r|]; cbn in H; [|done].
  destruct (Scenario.versions (core s) !! _) as [v|] eqn:Hv; cbn in H; [|done].
  destruct (Jobs.jobs (jobs_of s) !! _) as [j|] eqn:Hj; cbn in H; [|done].
  destruct (Jobs.runs (jobs_of s) !! uid) as [l|]; cbn in H; [|done]. injection H as <-. done.
Qed.

Lemma Get_run id s row : trim_space id <> "" -> select_run id s = Ok row -> run (Get id) [] s = (Ok (to_run row), s).
Proof.
  intros Hne Hsel. unfold run, Risk.Get. rewrite (bool_decide_eq_false_2 _ Hne). cbn [negb orb].
  unfold bind, map_err, pool_query, pool_stmt, guarded, next_fault, ret. cbn -[Risk.select_run Risk.to_run]. by rewrite Hsel.
Qed.

(** What identifies a run. *)
Definition identity (a : Run) :=
  (ID a, (RunScenarioID a, ScenarioVersion a), (RunAccountID a, RunSnapshotID a, RunValuationID a), JobID a,
   (SchemaVersion a, ScenarioTemplate a, ScenarioContentSHA a, RequestHash a), InputSnapshotIDs a, CreatedAt a).

(** C18: what a run is of never changes, and a run reported finished stays so: after
    any later history of submissions, queue calls, cancellations and results, the
    run is answered with the same identifiers, hashes and inputs, and, once its
    status was completed, permanent or cancelled, with that status and the same
    error.  A failing read answers nothing else. *)
Theorem run_status_final s claims w' res pos res' pos' id a fs t' : scenario_ok (mkWorld s claims) -> steps (mkWorld s claims) w' ->
  run (Get id) fs (mkStore s res pos) = (Ok a, t') ->
  exists b, run (Get id) [] (mkStore (w_store w') res' pos') = (Ok b, mkStore (w_store w') res' pos') /\
    identity b = identity a /\
    (Status a ∈ ["completed"; "permanent"; "cancelled"] -> Status b = Status a /\ ErrorCode b = ErrorCode a /\ ErrorMessage b = ErrorMessage a) /\
    forall fs' other t'', run (Get id) fs' (mkStore (w_store w') res' pos') = (Ok other, t'') -> other = b.
Proof.
  intros HO Hs Hget. destruct (steps_ok _ _ _ _ _ _ _ _ _ Hs HO) as [HO' Hk]. cbn in Hk.
  assert (Ha : trim_space id <> "" /\ exists row, select_run id (mkStore s res pos) = Ok row /\ a = to_run row).
  { run_ok_wp Hget. apply Get_wp; [done|]. intros row fs' w0 Hne Hrow x [= <-]. split; [done|]. by exists row. }
  destruct Ha as (Hne & row & Hrow & ->). apply select_run_cases in Hrow as (uid & Hu & Hid & Hr & Hv & Hj). cbn in Hr, Hv, Hj.
  pose proof (lookup_weaken _ _ _ _ Hr (kp_runs _ _ Hk)) as Hr'.
  destruct w' as [s2 claims2]. cbn [w_store] in *.
  destruct (select_run_row (mkStore s2 res' pos') claims2 id uid _ HO' Hu Hr') as (row' & Hsel & Hid' & Hrun' & Hv' & Hj'). cbn in Hv', Hj'.
  pose proof (lookup_weaken _ _ _ _ Hv (kp_versions _ _ Hk)) as Hv2. rewrite Hv' in Hv2. injection Hv2 as Hv2.
  destruct (kp_jobs _ _ Hk _ _ Hj) as (j & Hj2 & Hev). unfold jobs_of in Hj'. cbn in Hj'. rewrite Hj' in Hj2. injection Hj2 as <-.
  exists (to_run row'). split_and!.
  - by apply Get_run.
  - unfold identity. cbn. rewrite Hid, Hid', Hrun', Hv2. by rewrite (ev_schema _ _ Hev), (ev_inputs _ _ Hev).
  - intros Hst. cbn in Hst. apply status_finished in Hst. pose proof (ev_final _ _ Hev Hst) as E. cbn. rewrite E.
    split; [|done]. by destruct (Jobs.JobState (sel_job row)).
  - intros fs' other t'' Hother. enough (H : exists r0, select_run id (mkStore s2 res' pos') = Ok r0 /\ other = to_run r0).
    { destruct H as (r0 & H0 & ->). rewrite Hsel in H0. by injection H0 as <-. }
    run_ok_wp Hother. apply Get_wp; [done|]. intros row0 fs0 w0 _ Hrow0 x [= <-]. by exists row0.
Qed.

(** ** Submitting *)

Lemma created_runs ids now input fs s claims r s' k : scenario_ok (mkWorld s claims) ->
  run (ScenarioService.CreateVersionAndRun true scan_uuid timestamptz_out timestamptz_in jsonb_in text_ok format_float ids now input) fs s = (r, s') ->
  scenario_ok (mkWorld s' claims) /\ kept s s' /\
  (is_Some (Scenario.run_rows s' !! k) -> k = ScenarioService.newRun ids \/ is_Some (Scenario.run_rows s !! k)).
Proof.
  intros HO Hr. destruct (step_ok scan_uuid uuid_in timestamptz_out timestamptz_in jsonb_in text_ok format_float _ _ HO
    (step_create _ _ _ _ _ _ _ _ _ _ _ _ claims _ _ Hr)) as [HO' Hk]. split; [done|]. split; [done|].
  destruct (version_effect _ _ _ _ _ _ _ _ _ _ _ _ _ (so_times _ _ _ HO) Hr)
    as [[-> _]|(i & content & request & _ & _ & _ & _ & _ & [[-> _]|(sealed & answer & id & row & vrow & rrow & d & _ & HC)])]; [by right..|].
  rewrite (cr_store HC). cbn. intros [x Hx]. apply lookup_insert_Some in Hx as [[<- _]|[_ Hx]]; [by left|right; by exists x].
Qed.

(** The run a key holds, read back. *)
Lemma holds_key_read s claims key e id row : scenario_ok (mkWorld (core s) claims) -> holds_key (core s) key e ->
  uuid_in (Scenario.RunID (ScenarioService.ex_run e)) = Some (Scenario.RunID (ScenarioService.ex_run e)) ->
  id = Scenario.RunID (ScenarioService.ex_run e) -> select_run id s = Ok row ->
  let a := to_run row in
  ScenarioService.ex_run e = Scenario.mkRun (ID a) (RunScenarioID a) (ScenarioVersion a) (JobID a) (ScenarioContentSHA a) /\
  ScenarioService.ex_account e = RunAccountID a /\ ScenarioService.ex_snapshot e = RunSnapshotID a /\ ScenarioService.ex_request e = RequestHash a /\
  InputSnapshotIDs a = [RunSnapshotID a].
Proof.
  intros HO (k & r & v & j & Hr & Hv & Hj & _ & _ & ->) Hu -> Hsel. cbn in Hu, Hsel.
  apply select_run_cases in Hsel as (uid & Hu' & Hid & Hr' & Hv' & Hj'). rewrite Hu in Hu'. injection Hu' as <-.
  rewrite Hr in Hr'. injection Hr' as ->. rewrite Hv in Hv'. injection Hv' as ->. unfold jobs_of in Hj'. rewrite Hj in Hj'. injection Hj' as ->.
  destruct (so_run _ _ _ HO _ _ Hr) as (_ & _ & (i & hash & rh & sealed & d & now & j & _ & _ & Hj' & _ & _ & Hin & _)).
  cbn in Hj'. rewrite Hj in Hj'. injection Hj' as <-. cbn. by rewrite Hid, Hin.
Qed.

(** C19: a submission records what the scenario service records, or nothing, and is
    answered with the very run recorded under its key: its account, snapshot,
    identifiers, the hash of its content and the fingerprint of the request.
    Results and positions are left alone, and an error leaves nothing, unless it
    is that of reading the recorded run back. *)
Theorem submit_reported ids now request fs s claims results positions r t' : scenario_ok (mkWorld s claims) ->
  (forall id, is_Some (Scenario.run_rows s !! id) \/ id = ScenarioService.newRun ids -> uuid_in id = Some id) ->
  run (Submit ids now request) fs (mkStore s results positions) = (r, t') ->
  exists s', t' = mkStore s' results positions /\ scenario_ok (mkWorld s' claims) /\ kept s s' /\
  match r with
  | Ok a => exists i content fp,
      ScenarioInputs.canonicalizeInputIDs scan_uuid (version_input request) = Some i /\
      Marshal format_float (VMap (ScenarioService.content_value i)) = Some content /\ fingerprint format_float i = Some fp /\
      holds_key s' (IdempotencyKey request)
        (ScenarioService.mkExisting (Scenario.mkRun (ID a) (RunScenarioID a) (ScenarioVersion a) (JobID a) (sha256_hex content))
           (Scenario.AccountID i) (Scenario.SnapshotID i) fp) /\
      ScenarioContentSHA a = sha256_hex content /\ RequestHash a = fp /\
      RunAccountID a = Scenario.AccountID i /\ RunSnapshotID a = Scenario.SnapshotID i /\
      InputSnapshotIDs a = [Scenario.SnapshotID i]
  | Err _ => s' = s \/ exists e, holds_key s' (IdempotencyKey request) e
  end.
Proof.
  intros HO Hcanon Hrun. run_wp Hrun. unfold Risk.Submit. match goal with |- wp (if ?b then _ else _) _ _ => destruct b end.
  { wp_step. exists s. split_and!; [done|done|apply kept_refl|by left]. }
  apply wp_bind, wp_map_err, wp_embed. cbn [core]. intros r0 s' w0 fs1 Hr. destruct r0 as [created|e]; cbn [committed].
  - destruct (create_holds _ _ _ _ _ _ _ _ _ _ _ _ _ _ HO Hr) as (i & content & e & _ & Hi & _ & Hc & He & <- & Ha & Hs & Hsha & Hf & _).
    assert (Hkey : Scenario.IdempotencyKey i = IdempotencyKey request).
    { unfold ScenarioInputs.canonicalizeInputIDs in Hi. do 4 (apply bind_Some in Hi as (? & _ & Hi)). by injection Hi as <-. }
    destruct (created_runs _ _ _ _ _ _ _ _ (Scenario.RunID (ScenarioService.ex_run e)) HO Hr) as (HO' & Hk & Hnew).
    rewrite Hkey in He. apply Get_wp.
    + intros e' fs' w'. exists s'. split_and!; [done..|right; by eexists].
    + intros row fs' w' Hne Hsel. exists s'. split_and!; [done..|]. exists i, content, (ScenarioService.ex_request e).
      assert (Hu : uuid_in (Scenario.RunID (ScenarioService.ex_run e)) = Some (Scenario.RunID (ScenarioService.ex_run e))).
      { apply Hcanon. destruct He as (k & rr & ? & ? & Hrr & _ & _ & _ & _ & ->). cbn in *. destruct (Hnew ltac:(by exists rr)) as [H|H]; auto. }
      destruct (holds_key_read (Risk.set_core s' (mkStore s results positions)) claims _ _ _ _ HO' He Hu eq_refl Hsel) as (E1 & E2 & E3 & E4 & E5).
      assert (E6 : Scenario.ContentSHA256 (ScenarioService.ex_run e) = ScenarioContentSHA (to_run row)) by by rewrite E1.
      rewrite <- E2, <- E3, <- E4, <- E6 in *. rewrite Hsha in *. split_and!; try done; [|congruence..].
      rewrite <- E1, <- Ha, <- Hs. destruct e. exact He.
  - exists s'. destruct (created_runs _ _ _ _ _ _ _ _ "" HO Hr) as (HO' & Hk & _). split_and!; [done..|].
    destruct (version_effect _ _ _ _ _ _ _ _ _ _ _ _ _ (so_times _ _ _ HO) Hr)
      as [[-> _]|(i & content & req & _ & _ & _ & _ & _ & [(-> & ? & _ & _ & [=])|(? & ? & ? & ? & ? & ? & ? & [=] & _)])]. by left.
Qed.

(** ** Cancelling *)

Lemma mapStatus_job st l1 l2 : mapStatus (Jobs.state_name st) l1 = mapStatus (Jobs.state_name st) l2.
Proof. by destruct st. Qed.

(** The state of the job after a cancellation. *)
Definition ended (j : Jobs.Job) : Jobs.State := if Jobs.active_state (Jobs.JobState j) then Jobs.StateCancelled else Jobs.JobState j.

Lemma cancelled_job uid reason now id j q q' : cancelled uid reason now j q q' -> Jobs.jobs q !! id = Some j -> Jobs.ID j = id ->
  Jobs.attempts q' = Jobs.attempts q /\
  Jobs.jobs q' !! id = Some (if Jobs.active_state (Jobs.JobState j) then Jobs.cancel_job (cancel_reason reason) (now 0%nat) j else j).
Proof.
  intros Hc Hj <-. destruct Hc as [[Ha ->]|[[Ha ->]|(Ht & _ & ->)]]; cbn; (split; [done|]).
  - by rewrite Ha, lookup_insert_eq.
  - by rewrite Ha.
  - by destruct (Jobs.JobState j).
Qed.

Lemma Cancel_ran id reason now fs c r t : run (Cancel id reason now) fs c = (r, t) ->
  (t = c /\ exists e, r = Err e) \/
  (run (Risk.cancel_run uuid_in text_ok id reason now) fs c = (Ok tt, t) /\
   forall a, r = Ok a -> exists row, select_run id t = Ok row /\ a = to_run row).
Proof.
  intros Hrun. run_wp Hrun. unfold Risk.Cancel. match goal with |- wp (if ?b then _ else _) _ _ => destruct b end.
  { wp_step. left. split; [done|by eexists]. }
  apply wp_bind, wp_ran. intros r0 t1 w0 fs1 Hr.
  destruct (cancel_run_effect _ _ _ _ _ _ _ _ _ Hr) as [[-> [e ->]]|[-> _]]; [left; split; [done|by eexists]|].
  apply Get_wp; [by right|]. intros row fs' w' _ Hsel. right. split; [done|]. intros a [= <-]. by exists row.
Qed.

(** C20: a cancellation changes nothing and reports an error, or does exactly this:
    an unfinished job is cancelled with the reason, the run of a cancelled job is
    closed if it was open, and a job that ended otherwise keeps its row and its
    run.  The run answered is then the one asked for, with that outcome. *)
Theorem cancel_exact id reason now fs s claims results positions r t' : scenario_ok (mkWorld s claims) ->
  run (Cancel id reason now) fs (mkStore s results positions) = (r, t') ->
  (t' = mkStore s results positions /\ exists e, r = Err e) \/
  exists uid run j q', uuid_in id = Some uid /\ Scenario.run_rows s !! uid = Some run /\
    Jobs.jobs (Scenario.queue s) !! Scenario.sr_job run = Some j /\ cancelled uid reason now j (Scenario.queue s) q' /\
    t' = mkStore (Scenario.set_queue s q' (Scenario.input_hashes s)) results positions /\
    forall a, r = Ok a -> ID a = uid /\ Status a = mapStatus (Jobs.state_name (ended j)) "" /\
      (Jobs.active_state (Jobs.JobState j) = true -> ErrorCode a = "JOB_CANCELLED" /\ ErrorMessage a = cancel_reason reason).
Proof.
  intros HO Hrun. apply Cancel_ran in Hrun as [H|[Hr Ha]]; [by left|]. right.
  destruct (cancel_run_effect _ _ _ _ _ _ _ _ _ Hr) as [[_ [e [=]]]|(_ & uid & run & j & q' & Hu & Hrow & Hj & Hc & ->)].
  unfold jobs_of, core in Hj, Hc, Hrow. pose proof (ro_id _ (so_queue _ _ _ HO) _ _ Hj) as Hid.
  exists uid, run, j, q'. split_and!; [done..|]. intros a Hok. destruct (Ha a Hok) as (row & Hsel & ->).
  apply select_run_cases in Hsel as (uid' & Hu' & Hid' & Hr' & _ & Hj'). rewrite Hu in Hu'. injection Hu' as <-.
  cbn in Hr', Hj'. rewrite Hrow in Hr'. injection Hr' as Hr'. rewrite <- Hr' in Hj'.
  destruct (cancelled_job _ _ _ _ _ _ _ Hc Hj Hid) as [_ Hj2]. unfold jobs_of in Hj'. cbn in Hj'. rewrite Hj' in Hj2. injection Hj2 as Hj2.
  cbn. rewrite Hj2. unfold ended. split; [done|]. destruct (Jobs.active_state (Jobs.JobState j)); (split; [apply mapStatus_job|]); done.
Qed.

(** C21: cancelling a run leaves the attempts of its job as they are, and so does
    everything after: a worker's attempt under way is never finished in the
    tables, while its job stays cancelled. *)
Theorem cancelled_attempt_stuck id reason now fs s claims results positions r t' uid row j w' n : scenario_ok (mkWorld s claims) ->
  run (Cancel id reason now) fs (mkStore s results positions) = (r, t') -> t' <> mkStore s results positions ->
  uuid_in id = Some uid -> Scenario.run_rows s !! uid = Some row -> Jobs.jobs (Scenario.queue s) !! Scenario.sr_job row = Some j ->
  Jobs.JobState j = Jobs.StateRunning -> steps (mkWorld (core t') claims) w' ->
  Jobs.attempts (Scenario.queue (w_store w')) !! (Scenario.sr_job row, n) = Jobs.attempts (Scenario.queue s) !! (Scenario.sr_job row, n) /\
  exists j', Jobs.jobs (Scenario.queue (w_store w')) !! Scenario.sr_job row = Some j' /\ Jobs.JobState j' = Jobs.StateCancelled.
Proof.
  intros HO Hrun Hne Hu Hrow Hj Hst Hs. apply Cancel_ran in Hrun as [[H _]|[Hr _]]; [done|].
  destruct (step_ok _ _ _ _ _ _ _ _ _ HO (step_cancel scan_uuid uuid_in timestamptz_out timestamptz_in jsonb_in text_ok format_float
    _ _ _ _ _ _ _ claims _ _ Hr)) as [HO' _].
  destruct (cancel_run_effect _ _ _ _ _ _ _ _ _ Hr) as [[_ [e [=]]]|(_ & uid' & run' & j' & q' & Hu' & Hrow' & Hj' & Hc & ->)].
  rewrite Hu in Hu'. injection Hu' as <-. cbn in Hrow', Hj', Hc. rewrite Hrow in Hrow'. injection Hrow' as <-.
  unfold jobs_of in Hj', Hc. cbn in Hj', Hc. rewrite Hj in Hj'. injection Hj' as <-.
  destruct (cancelled_job _ _ _ _ _ _ _ Hc Hj (ro_id _ (so_queue _ _ _ HO) _ _ Hj)) as [Hatt Hj2]. rewrite Hst in Hj2. cbn [Jobs.active_state] in Hj2.
  destruct (steps_settled _ _ _ _ _ _ _ _ _ _ _ n Hs HO' Hj2 eq_refl) as [H1 H2]. split; [|by eexists].
  rewrite H2. cbn. by rewrite Hatt.
Qed.
End service.

(** ** A concrete run, cancelled while a worker has it *)
Module risk_demo.
Import ScenarioTheorems.demo.

Definition position (n : string) (pnl : Z) : (string * string) * PositionRow :=
  ((uuid "61", uuid n), mkPositionRow (uuid "11") "valued" ["FX_STALE"] None None (Some pnl) None None None None None None None).
Definition lines : gmap (string * string) PositionRow :=
  list_to_map [position "12" scale18; position "14" (2 * scale18); position "13" (3 * scale18)].
Definition held : store := mkStore working ∅ lines.

Definition reason : string := "operator".
Definition now (n : nat) : time := 100 + Z.of_nat n.
Definition get : dbm store Run := Get true Some parse_json (fun l => l) (uuid "61").
Definition cancel : dbm store Run := Cancel true Some parse_json (fun _ => true) (fun l => l) (uuid "61") reason now.
Definition cancelled_store : store := Eval vm_compute in snd (run cancel [] held).
Definition later : Scenario.store := Eval vm_compute in snd (run second_call [] (core cancelled_store)).

Definition request : SubmitRequest :=
  mkSubmitRequest (uuid "01") (uuid "02") (uuid "03") "" "stress" "risk_off" "key-1" (Some [("rate_bps", VStr "bps")])
    (Some [("rate_bps", VStr "100")]) (Some []) (Some []).
Definition submit : dbm store Run :=
  Submit true Some Some timestamptz_out timestamptz_in parse_json (fun _ => true) (fun _ => "0") (fun l => l)
    (ScenarioService.mkFresh (uuid "40") (uuid "51") (uuid "61")) (fun n => Z.of_nat n) request.

Lemma get_answer : exists a, run get [] cancelled_store = (Ok a, cancelled_store).
Proof. run_vm cancelled_store. Qed.
Lemma cancel_answer : exists a, run cancel [] held = (Ok a, cancelled_store).
Proof. run_vm cancelled_store. Qed.
Definition outcome (r : res Run) : option (string * string) := match r with Ok a => Some (Status a, ErrorCode a) | Err _ => None end.
Lemma outcome_cancelled : outcome (fst (run get [] cancelled_store)) = Some ("cancelled", "JOB_CANCELLED").
Proof. vm_cast_no_check (eq_refl (Some ("cancelled", "JOB_CANCELLED"))). Qed.
Lemma report_of a s : run get [] cancelled_store = (Ok a, s) -> Status a = "cancelled" /\ ErrorCode a = "JOB_CANCELLED".
Proof.
  intros Ha. apply (f_equal (fun x => outcome (fst x))) in Ha. rewrite outcome_cancelled in Ha. cbn [outcome fst] in Ha.
  apply (inj Some) in Ha. apply pair_equal_spec in Ha as [E1 E2]. split; symmetry; [exact E1|exact E2].
Qed.
Lemma submit_answer : exists a, run submit [] (mkStore start ∅ lines) = (Ok a, mkStore opened ∅ lines).
Proof. run_vm (mkStore opened ∅ lines). Qed.
Lemma later_answer : exists a, run second_call [] (core cancelled_store) = (Ok a, later).
Proof. run_vm later. Qed.
End risk_demo.
Import ScenarioTheorems.demo risk_demo.

Abbreviation demo_steps := (ScenarioSafety.steps Some Some timestamptz_out timestamptz_in parse_json (fun _ => true) (fun _ => "0")).
Abbreviation demo_ok := (ScenarioSafety.scenario_ok parse_json (fun _ => "0")).

Lemma cancelled_changed : cancelled_store <> held.
Proof.
  intros H. apply (f_equal (fun t => Jobs.JobState <$> Jobs.jobs (jobs_of t) !! uuid "51")) in H.
  vm_compute in H. discriminate.
Qed.

Lemma cancelled_ok : demo_ok (mkWorld (core cancelled_store) handed).
Proof.
  destruct cancel_answer as [a Ha]. destruct (Cancel_ran Some _ _ _ _ _ _ _ _ _ _ Ha) as [[H _]|[Hr _]]; [by destruct (cancelled_changed H)|].
  exact (proj1 (step_ok _ _ _ _ _ _ _ _ _ working_ok (step_cancel Some Some timestamptz_out timestamptz_in _ _ _ _ _ _ _ _ _ _ _ _ _ Hr))).
Qed.

Lemma to_later : demo_steps (mkWorld (core cancelled_store) handed) (mkWorld later handed).
Proof. apply rtc_once. destruct later_answer as [a Ha]. by eapply step_create, Ha. Qed.

Lemma positions_paged_witness :
  follow (fetch_positions Some (fun _ => true) held (uuid "61") 2) 4 "" = Some (to_item <$> run_positions (uuid "61") held) /\
  length (run_positions (uuid "61") held) = 3%nat.
Proof.
  split; [|reflexivity]. refine (proj1 (positions_paged Some (fun _ => true) held (uuid "61") (uuid "61") eq_refl _ _ _ eq_refl 2 4 _ _)).
  - vm_compute. discriminate.
  - by eexists.
  - intros line r Hr. split; [|done]. intros ->. vm_compute in Hr. discriminate.
  - lia.
  - vm_compute. lia.
Defined.

Lemma run_status_final_witness : exists b, run (Get true Some parse_json (fun l => l) (uuid "61")) [] (mkStore later ∅ lines) =
  (Ok b, mkStore later ∅ lines) /\ Status b = "cancelled" /\ ErrorCode b = "JOB_CANCELLED".
Proof.
  destruct get_answer as [a Ha].
  destruct (run_status_final Some Some timestamptz_out timestamptz_in parse_json (fun _ => true) (fun _ => "0") (fun l => l)
    _ _ _ _ _ ∅ lines _ _ _ _ cancelled_ok to_later Ha) as (b & Hb & _ & Hf & _).
  assert (Hs : Status a = "cancelled" /\ ErrorCode a = "JOB_CANCELLED").
  { apply report_of with cancelled_store, Ha. }
  destruct Hs as [E1 E2]. exists b. split; [exact Hb|]. rewrite E1, E2 in Hf.
  destruct Hf as (-> & -> & _); [right; right; left|split; reflexivity].
Defined.

Lemma submit_reported_witness : exists i content fp, Marshal (fun _ => "0") (VMap (ScenarioService.content_value i)) = Some content /\
  fingerprint (fun _ => "0") i = Some fp /\ Scenario.AccountID i = uuid "01" /\
  exists k scenario v job, holds_key opened "key-1"
    (ScenarioService.mkExisting (Scenario.mkRun k scenario v job (sha256_hex content)) (Scenario.AccountID i) (Scenario.SnapshotID i) fp).
Proof.
  destruct submit_answer as [a Ha].
  destruct (submit_reported Some Some timestamptz_out timestamptz_in parse_json (fun _ => true) (fun _ => "0") (fun l => l)
    _ _ _ _ _ [] _ _ _ _ start_ok (fun _ _ => eq_refl) Ha) as (s' & E & _ & _ & i & content & fp & Hi & Hc & Hf & Hk & _).
  apply (f_equal core) in E. cbn [core] in E. rewrite <- E in Hk.
  exists i, content, fp. split; [exact Hc|]. split; [exact Hf|]. split; [|eexists _, _, _, _; exact Hk].
  unfold ScenarioInputs.canonicalizeInputIDs in Hi. cbn in Hi. injection Hi as <-. reflexivity.
Defined.

Lemma cancel_exact_witness : exists j q', cancelled (uuid "61") reason now j (Scenario.queue working) q' /\
  Jobs.JobState j = Jobs.StateRunning /\ jobs_of cancelled_store = q'.
Proof.
  destruct cancel_answer as [a Ha].
  destruct (cancel_exact Some parse_json (fun _ => true) (fun _ => "0") (fun l => l)
    _ _ _ _ _ handed _ _ _ _ working_ok Ha) as [[H _]|(uid & r & j & q' & [= <-] & Hr & Hj & Hc & E & _)];
    [by destruct (cancelled_changed H)|].
  exists j, q'. split; [exact Hc|]. split; [|apply (f_equal jobs_of) in E; exact E].
  vm_compute in Hr. injection Hr as <-. apply (f_equal (fmap Jobs.JobState)) in Hj. apply (inj Some). etransitivity; [symmetry; exact Hj|vm_compute; reflexivity].
Defined.

Lemma cancelled_attempt_stuck_witness : exists a, Jobs.attempts (Scenario.queue later) !! (uuid "51", 1) = Some a /\
  Jobs.AttWorkerID a = "w1" /\ Jobs.AttFinishedAt a = None.
Proof.
  destruct cancel_answer as [a Ha].
  destruct (cancelled_attempt_stuck Some Some timestamptz_out timestamptz_in parse_json (fun _ => true) (fun _ => "0") (fun l => l)
    _ _ _ _ _ handed _ _ _ _ (uuid "61") _ _ _ 1 working_ok Ha cancelled_changed eq_refl eq_refl eq_refl eq_refl to_later) as [H _].
  eexists. split; [etransitivity; [exact H|vm_compute; reflexivity]|]. split; reflexivity.
Defined.
