(* ===== verification/Collector.v ===== *)
(** Collector configuration: schedules, the catalog they refer to and the
    validation of both (internal/collector/config.go and catalog.go).

    Package net/url is a parameter: [url_parse] gives the parts of a URL the
    program looks at.  Maps are visited in an order the program cannot rely on:
    [shuffle] is the one of a run.  Raw messages are texts; decoding the
    configuration file itself is left out. *)

From S2P Require Import Prelude GoString Digits GoTime Sha256 Json JsonTree JsonText Zone Quality.
From Stdlib Require Import Ascii.

Module Collector.

Abbreviation quote := Quality.quote.

(** ** Patterns *)

Definition is_word_start (c : ascii) : bool := is_lower c || is_upper c || Ascii.eqb c "_".

(** ^[A-Za-z_][A-Za-z0-9_]*$ *)
Definition envNamePattern (s : string) : bool :=
  match chars s with
  | c :: r => is_word_start c && forallb (fun c => is_word_start c || is_digit c) r
  | [] => false
  end.

(** ^[A-Z]{3}$ *)
Definition currencyPattern (s : string) : bool := (slen s =? 3) && forallb is_upper (chars s).

(** Eight, four, four, four and twelve hexadecimal digits; a version from 1 to 5
    and an RFC 4122 variant. *)
Definition uuidPattern (s : string) : bool :=
  match split_char "-" (chars s) with
  | [a; b; v :: c; w :: d; e] =>
      (length a =? 8)%nat && (length b =? 4)%nat && (length c =? 3)%nat && (length d =? 3)%nat
      && (length e =? 12)%nat && forallb is_hex (a ++ b ++ c ++ d ++ e)
      && existsb (Ascii.eqb v) (chars "12345") && existsb (Ascii.eqb w) (chars "89abAB")
  | _ => false
  end.

(** ** Data *)

Record ArchiveConfig : Type := mkArchiveConfig {
  Endpoint : string;
  Region : string;
  Bucket : string;
  AccessKeyEnv : string;
  SecretKeyEnv : string;
}.

Record FXPair : Type := mkFXPair { Base : string; FXQuote : string }.

Record ScheduleInput : Type := mkScheduleInput {
  Name : string;
  Provider : string;
  SourceID : string;
  DatasetID : string;
  SeriesID : string;
  InstrumentID : string;
  SourceCode : string;
  DatasetKey : string;
  SeriesCode : string;
  CredentialEnv : string;
  BaseURL : string;
  InRequest : string;               (* a raw message *)
  IntervalSeconds : Z;
  MaxAttempts : Z;
  LeaseSeconds : Z;
  NextRunAt : option time;
  InFXPair : option FXPair;
}.

Record Schedule : Type := mkSchedule {
  Input : ScheduleInput;
  RequestFingerprint : string;
  Configuration : string;
}.

Record CatalogSeries : Type := mkCatalogSeries {
  CsSourceCode : string;
  CsName : string;
  CsUnit : string;
  CsFrequency : string;
  CsSourceTimezone : string;
  CsFreshnessPolicy : string;       (* a raw message *)
}.

Record CatalogDataset : Type := mkCatalogDataset {
  CdExternalKey : string;
  CdName : string;
  CdSeries : list CatalogSeries;
}.

Record CatalogSource : Type := mkCatalogSource {
  CoCode : string;
  CoName : string;
  CoProvider : string;
  CoDatasets : list CatalogDataset;
}.

Record CatalogConfig : Type := mkCatalogConfig { Sources : list CatalogSource }.

Record FileConfig : Type := mkFileConfig {
  DatabaseURLEnv : string;
  CfgArchive : ArchiveConfig;
  CfgCatalog : CatalogConfig;
  Schedules : list ScheduleInput;
}.

Record CatalogIDs : Type := mkCatalogIDs {
  sources : gmap string string;
  datasets : gmap string string;
  series : gmap string string;
}.

(** The parts of a parsed URL. *)
Record URL : Type := mkURL {
  Scheme : string;
  Hostname : string;
  HasUser : bool;
  RawQuery : string;
  Fragment : string;
}.

Definition set_identity (input : ScheduleInput) (name provider : string) : ScheduleInput :=
  mkScheduleInput name provider (SourceID input) (DatasetID input) (SeriesID input) (InstrumentID input)
    (SourceCode input) (DatasetKey input) (SeriesCode input) (CredentialEnv input) (BaseURL input)
    (InRequest input) (IntervalSeconds input) (MaxAttempts input) (LeaseSeconds input)
    (NextRunAt input) (InFXPair input).

(** ** Schedules *)

(** Either IDs or catalog codes for each identity, never both, and codes only as
    a chain from source to series. *)
Definition validateCatalogReferences (input : ScheduleInput) : option goerr :=
  if existsb (fun p : string * string => negb (bool_decide (fst p = "")) && negb (bool_decide (snd p = "")))
       [(SourceID input, SourceCode input); (DatasetID input, DatasetKey input); (SeriesID input, SeriesCode input)]
  then Some (ENew "use either catalog codes or IDs for an identity, not both")
  else if (negb (bool_decide (DatasetKey input = "")) && bool_decide (SourceCode input = ""))
          || (negb (bool_decide (SeriesCode input = "")) && bool_decide (DatasetKey input = ""))
  then Some (ENew "dataset_key requires source_code and series_code requires dataset_key")
  else if negb (bool_decide (SourceCode input = ""))
          && (negb (bool_decide (DatasetID input = "")) || negb (bool_decide (SeriesID input = "")))
  then Some (ENew "a schedule with source_code must reference its dataset and series by code")
  else None.

Definition allowed_fields (provider : string) : list string :=
  if bool_decide (provider = "fred") then
    ["series_id"; "realtime_start"; "realtime_end"; "vintage_dates"; "observation_start"; "observation_end";
     "units"; "frequency"; "aggregation_method"; "output_type"; "limit"; "offset"; "max_pages"]
  else if bool_decide (provider = "tcmb") then
    ["series"; "startdate"; "enddate"; "frequency"; "aggregationtypes"; "formulas"; "decimalseparator"; "max_pages"]
  else if bool_decide (provider = "binance") then
    ["symbol"; "symbols"; "start_time"; "end_time"; "limit"; "max_pages"]
  else [].

Definition secret_field (lower : string) : bool :=
  existsb (contains lower) ["api"; "secret"; "token"; "password"; "credential"; "key"].

Definition field_error (provider key : string) : option goerr :=
  let lower := to_lower (trim_space key) in
  if secret_field lower
  then Some (ENew ("request field " +:+ quote key +:+ " cannot contain credentials; use credential_env"))
  else if negb (bool_decide (lower ∈ allowed_fields provider))
  then Some (ENew ("unsupported " +:+ provider +:+ " request field " +:+ quote key))
  else None.

Fixpoint first_error {A} (f : A -> option goerr) (l : list A) : option goerr :=
  match l with
  | [] => None
  | x :: l' => match f x with Some e => Some e | None => first_error f l' end
  end.

Definition blank (value : string) : bool := bool_decide (trim_space value = "").

(** One member of an object, left out when [omitempty] finds it empty. *)
Definition member (name text : string) : string := encode_string true name +:+ ":" +:+ text.
Definition text_member (name value : string) : list string := [member name (encode_string true value)].
Definition text_omitempty (name value : string) : list string :=
  if bool_decide (value = "") then [] else text_member name value.
Definition object (members : list string) : string := "{" +:+ join "," members +:+ "}".

(** [json.Marshal] of a [map[string]json.RawMessage]. *)
Definition marshal_raw_map (m : gmap string string) : string :=
  object ((fun kv => member (fst kv) (compact (snd kv))) <$> sort_entries (map_to_list m)).

Definition marshal_fx_pair (p : FXPair) : string :=
  object (text_member "base" (Base p) ++ text_member "quote" (FXQuote p)).

(** [json.Marshal] of the request payload. *)
Definition request_payload (input : ScheduleInput) (request : gmap string string) : string :=
  object (text_member "provider" (Provider input) ++ text_member "source_id" (SourceID input)
    ++ text_omitempty "dataset_id" (DatasetID input) ++ text_omitempty "series_id" (SeriesID input)
    ++ text_omitempty "instrument_id" (InstrumentID input)
    ++ [member "request" (marshal_raw_map request)]
    ++ text_omitempty "credential_env" (CredentialEnv input) ++ text_omitempty "base_url" (BaseURL input)
    ++ [member "interval_seconds" (format_int (IntervalSeconds input));
        member "max_attempts" (format_int (MaxAttempts input));
        member "lease_seconds" (format_int (LeaseSeconds input))]
    ++ match InFXPair input with Some p => [member "fx_pair" (marshal_fx_pair p)] | None => [] end).

Definition fx_error (provider : string) (pair : option FXPair) : option goerr :=
  match pair with
  | None => None
  | Some p =>
      if negb (bool_decide (provider = "tcmb"))
      then Some (ENew "fx_pair is supported only for tcmb schedules")
      else if negb (currencyPattern (Base p)) || negb (currencyPattern (FXQuote p))
              || bool_decide (Base p = FXQuote p)
      then Some (ENew "fx_pair base and quote must be distinct uppercase ISO 4217 codes")
      else None
  end.

Definition bounds_error (input : ScheduleInput) : option goerr :=
  if (IntervalSeconds input <=? 0) || (31 * 24 * 60 * 60 <? IntervalSeconds input)
  then Some (ENew "interval_seconds must be between 1 and 2678400")
  else if (MaxAttempts input <=? 0) || (20 <? MaxAttempts input)
  then Some (ENew "max_attempts must be between 1 and 20")
  else if (LeaseSeconds input <=? 0) || (24 * 60 * 60 <? LeaseSeconds input)
  then Some (ENew "lease_seconds must be between 1 and 86400")
  else None.

Section config.
Context (url_parse : string -> option URL) (load_location : string -> option Location).
Context (shuffle : list (string * string) -> list (string * string)).

Definition base_url_ok (value : string) : bool :=
  match url_parse value with
  | Some u => bool_decide (Scheme u = "https") && negb (bool_decide (Hostname u = ""))
              && negb (HasUser u) && bool_decide (RawQuery u = "")
  | None => false
  end.

Definition validateRequestFields (provider : string) (request : gmap string string) : option goerr :=
  first_error (fun kv => field_error provider (fst kv)) (shuffle (map_to_list request)).

Definition id_error (fv : string * string) : option goerr :=
  if negb (bool_decide (snd fv = "")) && negb (uuidPattern (snd fv))
  then Some (ENew (fst fv +:+ " must be a UUID")) else None.

(** The checks that precede the decoding of the request. *)
Definition identity_error (input : ScheduleInput) : option goerr :=
  if bool_decide (Name input = "") || contains_any (Name input) (of_chars [chr 13; chr 10])
  then Some (ENew "schedule name is required")
  else if negb (bool_decide (Provider input ∈ ["fred"; "tcmb"; "binance"]))
  then Some (ENew ("unsupported provider " +:+ quote (Provider input)))
  else match validateCatalogReferences input with
  | Some e => Some e
  | None =>
  if bool_decide (SourceCode input = "") && negb (uuidPattern (SourceID input))
  then Some (ENew "source_id must be a UUID")
  else if negb (bool_decide (Provider input = "binance")) && negb (envNamePattern (trim_space (CredentialEnv input)))
  then Some (ENew "credential_env must name an environment variable")
  else if negb (bool_decide (BaseURL input = "")) && negb (base_url_ok (BaseURL input))
  then Some (ENew "base_url must be HTTPS without credentials or query parameters")
  else match first_error id_error
               (shuffle [("dataset_id", DatasetID input); ("series_id", SeriesID input);
                         ("instrument_id", InstrumentID input)]) with
  | Some e => Some e
  | None =>
  if bool_decide (Provider input ∈ ["fred"; "tcmb"]) && bool_decide (SeriesID input = "")
     && bool_decide (SeriesCode input = "")
  then Some (ENew (Provider input +:+ " schedules require series_id"))
  else if bool_decide (Provider input = "binance") && bool_decide (InstrumentID input = "")
  then Some (ENew "binance schedules require instrument_id")
  else if bool_decide (InRequest input ∈ [""; "null"; "{}"])
  then Some (ENew "request is required")
  else None
  end end.

Definition NormalizeSchedule (input : ScheduleInput) : res Schedule :=
  let input := set_identity input (trim_space (Name input)) (to_lower (trim_space (Provider input))) in
  match identity_error input with
  | Some e => Err e
  | None =>
      match unmarshal_raw_map (InRequest input) with
      | RawError | RawNil => Err (ENew "request must be a JSON object")
      | RawMap request =>
          match validateRequestFields (Provider input) request with
          | Some e => Err e
          | None =>
              match fx_error (Provider input) (InFXPair input) with
              | Some e => Err e
              | None =>
                  match bounds_error input with
                  | Some e => Err e
                  | None =>
                      let payload := request_payload input request in
                      Ok (mkSchedule input (sha256_hex payload) payload)
                  end
              end
          end
      end
  end.

(** ** The catalog *)

Definition providerAdapterVersions : list (string * string) :=
  [("fred", "fred-alfred-v1"); ("tcmb", "tcmb-evds2-v1"); ("binance", "binance-spot-v1")].

Definition adapter_version (provider : string) : option string :=
  snd <$> List.find (fun kv => bool_decide (fst kv = provider)) providerAdapterVersions.

Definition catalogKey (parts : list string) : string := join nul parts.

(** The loops over the series of a dataset, the datasets of a source and the
    sources, each with the names it has seen. *)
Definition series_error (source : CatalogSource) (dataset : CatalogDataset) (seen : gset string)
    (s : CatalogSeries) : option goerr :=
  if blank (CsSourceCode s) || blank (CsName s) || blank (CsUnit s) || blank (CsFrequency s)
  then Some (ENew ("catalog dataset " +:+ quote (CoCode source) +:+ "/" +:+ quote (CdExternalKey dataset)
                   +:+ " series require source_code, name, unit and frequency"))
  else if bool_decide (CsSourceCode s ∈ seen)
  then Some (ENew ("catalog series " +:+ quote (CoCode source) +:+ "/" +:+ quote (CdExternalKey dataset)
                   +:+ "/" +:+ quote (CsSourceCode s) +:+ " is duplicated"))
  else match Quality.ValidatePolicy load_location (CsFrequency s) (CsSourceTimezone s)
               (parse_json (CsFreshnessPolicy s)) with
       | Some e => Some (EWrap ("catalog series " +:+ quote (CsSourceCode s)) e)
       | None => None
       end.

Fixpoint all_series_error (source : CatalogSource) (dataset : CatalogDataset) (seen : gset string)
    (l : list CatalogSeries) : option goerr :=
  match l with
  | [] => None
  | s :: rest =>
      match series_error source dataset seen s with
      | Some e => Some e
      | None => all_series_error source dataset ({[CsSourceCode s]} ∪ seen) rest
      end
  end.

Fixpoint all_datasets_error (source : CatalogSource) (seen : gset string) (l : list CatalogDataset)
    : option goerr :=
  match l with
  | [] => None
  | d :: rest =>
      if blank (CdExternalKey d) || blank (CdName d)
      then Some (ENew ("catalog source " +:+ quote (CoCode source) +:+ " datasets require external_key and name"))
      else if bool_decide (CdExternalKey d ∈ seen)
      then Some (ENew ("catalog dataset " +:+ quote (CoCode source) +:+ "/" +:+ quote (CdExternalKey d)
                       +:+ " is duplicated"))
      else match all_series_error source d ∅ (CdSeries d) with
           | Some e => Some e
           | None => all_datasets_error source ({[CdExternalKey d]} ∪ seen) rest
           end
  end.

Fixpoint all_sources_error (seen : gset string) (l : list CatalogSource) : option goerr :=
  match l with
  | [] => None
  | s :: rest =>
      if blank (CoCode s) || blank (CoName s) then Some (ENew "catalog sources require code and name")
      else if bool_decide (adapter_version (CoProvider s) = None)
      then Some (ENew ("catalog source " +:+ quote (CoCode s) +:+ " has unsupported provider "
                       +:+ quote (CoProvider s)))
      else if bool_decide (CoCode s ∈ seen)
      then Some (ENew ("catalog source " +:+ quote (CoCode s) +:+ " is duplicated"))
      else match all_datasets_error s ∅ (CoDatasets s) with
           | Some e => Some e
           | None => all_sources_error ({[CoCode s]} ∪ seen) rest
           end
  end.

(** [CatalogConfig.Validate]. *)
Definition ValidateCatalog (c : CatalogConfig) : option goerr := all_sources_error ∅ (Sources c).

Definition provider (c : CatalogConfig) (sourceCode : string) : string :=
  match List.find (fun s => bool_decide (CoCode s = sourceCode)) (Sources c) with
  | Some s => CoProvider s
  | None => ""
  end.

Definition has (c : CatalogConfig) (sourceCode datasetKey seriesCode : string) : bool :=
  existsb (fun s => bool_decide (CoCode s = sourceCode) &&
    (bool_decide (datasetKey = "") ||
     existsb (fun d => bool_decide (CdExternalKey d = datasetKey) &&
       (bool_decide (seriesCode = "") ||
        existsb (fun x => bool_decide (CsSourceCode x = seriesCode)) (CdSeries d)))
       (CoDatasets s)))
    (Sources c).

(** ** The configuration file *)

(** [ArchiveConfig.Validate]. *)
Definition ValidateArchive (c : ArchiveConfig) : option goerr :=
  let url_ok := match url_parse (trim_space (Endpoint c)) with
                | Some u => bool_decide (Scheme u ∈ ["http"; "https"]) && negb (bool_decide (Hostname u = ""))
                            && negb (HasUser u) && bool_decide (RawQuery u = "") && bool_decide (Fragment u = "")
                | None => false
                end in
  if negb url_ok then Some (ENew "endpoint must be an HTTP(S) URL without credentials or query parameters")
  else if blank (Region c) || blank (Bucket c)
  then Some (ENew "endpoint, region, and bucket are required")
  else if negb (envNamePattern (trim_space (AccessKeyEnv c))) || negb (envNamePattern (trim_space (SecretKeyEnv c)))
  then Some (ENew "access_key_env and secret_key_env must be environment variable names")
  else None.

Definition code_error (c : CatalogConfig) (i : Z) (s : ScheduleInput) : option goerr :=
  let code := SourceCode s in
  if bool_decide (code = "") then None
  else if negb (bool_decide (provider c code = to_lower (trim_space (Provider s))))
  then Some (ENew ("schedule " +:+ format_int i +:+ ": source_code " +:+ quote code
                   +:+ " is not a catalog source for provider " +:+ quote (Provider s)))
  else if negb (has c code (DatasetKey s) (SeriesCode s))
  then Some (ENew ("schedule " +:+ format_int i +:+ ": catalog has no dataset " +:+ quote (DatasetKey s)
                   +:+ " series " +:+ quote (SeriesCode s) +:+ " under source " +:+ quote code))
  else None.

Fixpoint all_schedules_error (c : CatalogConfig) (i : Z) (seen : gset string) (l : list ScheduleInput)
    : option goerr :=
  match l with
  | [] => None
  | s :: rest =>
      if bool_decide (Name s ∈ seen) then Some (ENew ("schedule " +:+ quote (Name s) +:+ " is duplicated"))
      else match NormalizeSchedule s with
           | Err e => Some (EWrap ("schedule " +:+ format_int i) e)
           | Ok _ =>
               match code_error c i s with
               | Some e => Some e
               | None => all_schedules_error c (i + 1) ({[Name s]} ∪ seen) rest
               end
           end
  end.

(** [FileConfig.Validate]. *)
Definition Validate (c : FileConfig) : option goerr :=
  if negb (envNamePattern (trim_space (DatabaseURLEnv c)))
  then Some (ENew "database_url_env must be a valid environment variable name")
  else match ValidateArchive (CfgArchive c) with
  | Some e => Some (EWrap "archive configuration" e)
  | None =>
      match ValidateCatalog (CfgCatalog c) with
      | Some e => Some e
      | None =>
          if bool_decide (Schedules c = []) then Some (ENew "at least one collector schedule is required")
          else all_schedules_error (CfgCatalog c) 0 ∅ (Schedules c)
      end
  end.
End config.

(** ** Resolution of catalog codes *)

Definition with_source (id : string) (i : ScheduleInput) : ScheduleInput :=
  mkScheduleInput (Name i) (Provider i) id (DatasetID i) (SeriesID i) (InstrumentID i) "" (DatasetKey i)
    (SeriesCode i) (CredentialEnv i) (BaseURL i) (InRequest i) (IntervalSeconds i) (MaxAttempts i)
    (LeaseSeconds i) (NextRunAt i) (InFXPair i).
Definition with_dataset (id : string) (i : ScheduleInput) : ScheduleInput :=
  mkScheduleInput (Name i) (Provider i) (SourceID i) id (SeriesID i) (InstrumentID i) (SourceCode i) ""
    (SeriesCode i) (CredentialEnv i) (BaseURL i) (InRequest i) (IntervalSeconds i) (MaxAttempts i)
    (LeaseSeconds i) (NextRunAt i) (InFXPair i).
Definition with_series (id : string) (i : ScheduleInput) : ScheduleInput :=
  mkScheduleInput (Name i) (Provider i) (SourceID i) (DatasetID i) id (InstrumentID i) (SourceCode i)
    (DatasetKey i) "" (CredentialEnv i) (BaseURL i) (InRequest i) (IntervalSeconds i) (MaxAttempts i)
    (LeaseSeconds i) (NextRunAt i) (InFXPair i).

Definition Resolve (ids : CatalogIDs) (input : ScheduleInput) : res ScheduleInput :=
  let unregistered what code :=
    ENew ("schedule " +:+ quote (Name input) +:+ " references unregistered " +:+ what +:+ " " +:+ quote code) in
  if bool_decide (SourceCode input = "") then Ok input
  else
    match sources ids !! SourceCode input with
    | None => Err (unregistered "source" (SourceCode input))
    | Some sourceID =>
        let i1 := with_source sourceID input in
        let! i2 := (if bool_decide (DatasetKey i1 = "") then Ok i1
                    else match datasets ids !! catalogKey [sourceID; DatasetKey i1] with
                         | None => Err (unregistered "dataset" (DatasetKey i1))
                         | Some datasetID => Ok (with_dataset datasetID i1)
                         end) in
        if bool_decide (SeriesCode i2 = "") then Ok i2
        else match series ids !! catalogKey [DatasetID i2; SeriesCode i2] with
             | None => Err (unregistered "series" (SeriesCode i2))
             | Some seriesID => Ok (with_series seriesID i2)
             end
    end.

End Collector.
