(* ===== verification/CollectorStore.v ===== *)
(** The durable schedules of the collector: registration of the catalog and of
    schedules, claims under a lease, completion and failure
    (internal/collector/catalog.go and store.go, constraints of
    db/migrations/00001 and 00013) and the worker that drives them
    (internal/collector/worker.go).

    PostgreSQL's types are parameters: [uuid_text] is the cast of a text to a
    UUID and its canonical name, [jsonb_in] the canonical name of a jsonb value
    and [jsonb_object] whether it is an object.  Identifiers and lease tokens
    the database draws are arguments of the calls that draw them. *)

From S2P Require Import Prelude GoString GoTime Order Tables Db Collector.
Import Collector.

Module CollectorStore.

(** ** Tables *)

Record SourceRow : Set := mkSourceRow { so_code : string; so_name : string; so_adapter : string }.
Record DatasetRow : Set := mkDatasetRow { da_source : string; da_key : string; da_name : string }.
Record SeriesRow : Set := mkSeriesRow {
  se_dataset : string;
  se_code : string;
  se_name : string;
  se_unit : string;
  se_frequency : string;
  se_timezone : option string;
  se_policy : string;
}.

Record ScheduleRow : Set := mkScheduleRow {
  sc_name : string;
  sc_provider : string;
  sc_source : string;
  sc_dataset : option string;
  sc_series : option string;
  sc_instrument : option string;
  sc_configuration : string;
  sc_fingerprint : string;
  sc_interval : Z;
  sc_lease_seconds : Z;
  sc_next_run : time;
  sc_retry : option time;
  sc_active : bool;
  sc_lease_owner : option string;
  sc_lease_token : option string;
  sc_lease_expires : option time;
  sc_checkpoint : string;
  sc_attempts : Z;
  sc_max_attempts : Z;
  sc_last_run : option string;
  sc_last_error : option string;
}.

Record collector_tables : Type := mkCollectorTables {
  data_sources : gmap string SourceRow;
  dataset_rows : gmap string DatasetRow;
  series_rows : gmap string SeriesRow;
  instrument_ids : gset string;
  ingestion_runs : gset string;
  schedules : gmap string ScheduleRow;
}.

Definition set_sources (s : collector_tables) m :=
  mkCollectorTables m (dataset_rows s) (series_rows s) (instrument_ids s) (ingestion_runs s) (schedules s).
Definition set_datasets (s : collector_tables) m :=
  mkCollectorTables (data_sources s) m (series_rows s) (instrument_ids s) (ingestion_runs s) (schedules s).
Definition set_series (s : collector_tables) m :=
  mkCollectorTables (data_sources s) (dataset_rows s) m (instrument_ids s) (ingestion_runs s) (schedules s).
Definition set_schedules (s : collector_tables) m :=
  mkCollectorTables (data_sources s) (dataset_rows s) (series_rows s) (instrument_ids s) (ingestion_runs s) m.

Definition ErrPool : goerr := ENew "collector database pool is required".
Definition ErrNoDueSchedule : goerr := ENew "no due collector schedule".
Definition ErrLeaseLost : goerr := ENew "collector schedule lease lost".
Definition ErrRequestChanged : goerr :=
  ENew "collector schedule request changed; checkpoint cannot be reused".
Definition ErrCatalogChanged : goerr := ENew "catalog entry differs from the registered row".

(** The row a unique key finds. *)
Definition find_row {R} (p : R -> bool) (m : gmap string R) : option (string * R) :=
  List.find (fun kv => p (snd kv)) (map_to_list m).

(** INSERT ... ON CONFLICT DO NOTHING on a unique key: [check] is the table's
    CHECK constraints, tested first; a row found under the key stays; [fk] is the
    foreign keys of a row that is inserted. *)
Definition insert_missing {R} (p : R -> bool) (check fk : bool) (id : string) (r : R) (m : gmap string R)
    : option (gmap string R) :=
  if negb check then None
  else match find_row p m with
       | Some _ => Some m
       | None => if fk && bool_decide (m !! id = None) then Some (<[id := r]> m) else None
       end.

Section store.
Context (Pool : bool) (uuid_text jsonb_in : string -> option string) (jsonb_object : string -> bool).

(** ** The catalog *)

Definition is_source (code : string) (r : SourceRow) : bool := bool_decide (so_code r = code).
Definition is_dataset (source key : string) (r : DatasetRow) : bool :=
  bool_decide (da_source r = source) && bool_decide (da_key r = key).
Definition is_series (dataset code : string) (r : SeriesRow) : bool :=
  bool_decide (se_dataset r = dataset) && bool_decide (se_code r = code).

(** The insert and the select of [registerRow], per table. *)
Definition insert_source (id : string) (s : CatalogSource) (t : collector_tables) : res unit * collector_tables :=
  let row := mkSourceRow (CoCode s) (CoName s) (default "" (adapter_version (CoProvider s))) in
  match insert_missing (is_source (CoCode s)) (negb (btrim_blank (CoCode s)) && negb (btrim_blank (CoName s)))
          true id row (data_sources t) with
  | Some m => (Ok tt, set_sources t m)
  | None => (Err EDb, t)
  end.

Definition select_source (s : CatalogSource) (t : collector_tables) : res (string * bool) :=
  match find_row (is_source (CoCode s)) (data_sources t) with
  | Some (id, r) => Ok (id, bool_decide (so_name r = CoName s))
  | None => Err ENoRows
  end.

Definition insert_dataset (id sourceID : string) (d : CatalogDataset) (t : collector_tables)
    : res unit * collector_tables :=
  match uuid_text sourceID with
  | None => (Err EDb, t)
  | Some src =>
      match insert_missing (is_dataset src (CdExternalKey d))
              (negb (btrim_blank (CdExternalKey d))) (bool_decide (is_Some (data_sources t !! src)))
              id (mkDatasetRow src (CdExternalKey d) (CdName d)) (dataset_rows t) with
      | Some m => (Ok tt, set_datasets t m)
      | None => (Err EDb, t)
      end
  end.

Definition select_dataset (sourceID : string) (d : CatalogDataset) (t : collector_tables) : res (string * bool) :=
  match uuid_text sourceID with
  | None => Err EDb
  | Some src =>
      match find_row (is_dataset src (CdExternalKey d)) (dataset_rows t) with
      | Some (id, r) => Ok (id, bool_decide (da_name r = CdName d))
      | None => Err ENoRows
      end
  end.

(** A blank timezone is stored as NULL. *)
Definition timezone_of (s : CatalogSeries) : option string :=
  if bool_decide (CsSourceTimezone s = "") then None else Some (CsSourceTimezone s).

Definition insert_series (id datasetID : string) (s : CatalogSeries) (t : collector_tables)
    : res unit * collector_tables :=
  match uuid_text datasetID, jsonb_in (CsFreshnessPolicy s) with
  | Some d, Some policy =>
      match insert_missing (is_series d (CsSourceCode s))
              (negb (btrim_blank (CsSourceCode s)) && negb (btrim_blank (CsFrequency s)))
              (bool_decide (is_Some (dataset_rows t !! d)))
              id (mkSeriesRow d (CsSourceCode s) (CsName s) (CsUnit s) (CsFrequency s) (timezone_of s) policy)
              (series_rows t) with
      | Some m => (Ok tt, set_series t m)
      | None => (Err EDb, t)
      end
  | _, _ => (Err EDb, t)
  end.

Definition select_series (datasetID : string) (s : CatalogSeries) (t : collector_tables) : res (string * bool) :=
  match uuid_text datasetID, jsonb_in (CsFreshnessPolicy s) with
  | Some d, Some policy =>
      match find_row (is_series d (CsSourceCode s)) (series_rows t) with
      | Some (id, r) =>
          Ok (id, bool_decide (se_name r = CsName s) && bool_decide (se_unit r = CsUnit s)
                  && bool_decide (se_frequency r = CsFrequency s)
                  && bool_decide (se_timezone r = timezone_of s) && bool_decide (se_policy r = policy))
      | None => Err ENoRows
      end
  | _, _ => Err EDb
  end.

(** [registerRow]: the idempotent insert, then the row and whether its declared
    fields match. *)
Definition registerRow (label : string)
    (insert : collector_tables -> res unit * collector_tables)
    (select : collector_tables -> res (string * bool)) : dbm collector_tables string :=
  wrap ("register catalog " +:+ label) (stmt insert) ;;;
  let* row := wrap ("load catalog " +:+ label) (query select) in
  if negb (snd row) then throw (EWrap label ErrCatalogChanged) else ret (fst row).

Definition add_source (code id : string) (ids : CatalogIDs) : CatalogIDs :=
  mkCatalogIDs (<[code := id]> (sources ids)) (datasets ids) (series ids).
Definition add_dataset (key id : string) (ids : CatalogIDs) : CatalogIDs :=
  mkCatalogIDs (sources ids) (<[key := id]> (datasets ids)) (series ids).
Definition add_series (key id : string) (ids : CatalogIDs) : CatalogIDs :=
  mkCatalogIDs (sources ids) (datasets ids) (<[key := id]> (series ids)).

(** [gen path]: the identifier drawn for the entry at this place of the
    catalog. *)
Section registration.
Context (gen : list nat -> string).

Fixpoint register_series (datasetID : string) (path : list nat) (n : nat) (ids : CatalogIDs)
    (l : list CatalogSeries) : dbm collector_tables CatalogIDs :=
  match l with
  | [] => ret ids
  | s :: rest =>
      let* id := registerRow ("series " +:+ CsSourceCode s)
        (insert_series (gen (path ++ [n])) datasetID s) (select_series datasetID s) in
      register_series datasetID path (S n) (add_series (catalogKey [datasetID; CsSourceCode s]) id ids) rest
  end.

Fixpoint register_datasets (sourceID : string) (path : list nat) (n : nat) (ids : CatalogIDs)
    (l : list CatalogDataset) : dbm collector_tables CatalogIDs :=
  match l with
  | [] => ret ids
  | d :: rest =>
      let* id := registerRow ("dataset " +:+ CdExternalKey d)
        (insert_dataset (gen (path ++ [n])) sourceID d) (select_dataset sourceID d) in
      let* ids := register_series id (path ++ [n]) 0
        (add_dataset (catalogKey [sourceID; CdExternalKey d]) id ids) (CdSeries d) in
      register_datasets sourceID path (S n) ids rest
  end.

Fixpoint register_sources (n : nat) (ids : CatalogIDs) (l : list CatalogSource)
    : dbm collector_tables CatalogIDs :=
  match l with
  | [] => ret ids
  | s :: rest =>
      let* id := registerRow ("source " +:+ CoCode s) (insert_source (gen [n]) s) (select_source s) in
      let* ids := register_datasets id [n] 0 (add_source (CoCode s) id ids) (CoDatasets s) in
      register_sources (S n) ids rest
  end.

Definition no_ids : CatalogIDs := mkCatalogIDs ∅ ∅ ∅.

Definition RegisterCatalog (catalog : CatalogConfig) : dbm collector_tables CatalogIDs :=
  if negb Pool then throw ErrPool
  else if bool_decide (length (Sources catalog) = 0%nat) then ret no_ids
  else
    wrap "begin catalog registration" begin ;;;
    let* ids := register_sources 0 no_ids (Sources catalog) in
    wrap "commit catalog registration" commit ;;;
    ret ids.
End registration.

(** ** Schedules *)

(** NULLIF(text, '')::uuid; [None] is a failed cast. *)
Definition nullable_uuid (text : string) : option (option string) :=
  if bool_decide (text = "") then Some None
  else match uuid_text text with Some u => Some (Some u) | None => None end.

(** The SELECT EXISTS over the source, its dataset, the series of that dataset
    and the instrument; a comparison with NULL is not true. *)
Definition identities_valid (sc : ScheduleInput) (t : collector_tables) : res bool :=
  match uuid_text (SourceID sc), nullable_uuid (DatasetID sc), nullable_uuid (SeriesID sc),
        nullable_uuid (InstrumentID sc) with
  | Some src, Some d, Some ser, Some i =>
      let dataset := d ≫= fun d => (fun r => (d, r)) <$> dataset_rows t !! d in
      let series := ser ≫= fun x => series_rows t !! x in
      Ok (bool_decide (is_Some (data_sources t !! src))
          && (bool_decide (DatasetID sc = "")
              || match dataset with Some (_, r) => bool_decide (da_source r = src) | None => false end)
          && (bool_decide (SeriesID sc = "")
              || match dataset, series with
                 | Some (d, _), Some x => bool_decide (se_dataset x = d)
                 | _, _ => false
                 end)
          && (bool_decide (InstrumentID sc = "")
              || match i with Some i => bool_decide (i ∈ instrument_ids t) | None => false end))
  | _, _, _, _ => Err EDb
  end.

Definition is_hex64 (s : string) : bool := (slen s =? 64) && forallb is_lower_hex (chars s).

Definition fits_int4 (z : Z) : bool := (- 2147483648 <=? z) && (z <=? 2147483647).

(** The row a schedule is inserted as; [None] when a cast or a CHECK of the table
    refuses it. *)
Definition schedule_row (sc : Schedule) (next : time) : option ScheduleRow :=
  let i := Input sc in
  src ← uuid_text (SourceID i);
  d ← nullable_uuid (DatasetID i);
  ser ← nullable_uuid (SeriesID i);
  ins ← nullable_uuid (InstrumentID i);
  conf ← jsonb_in (Configuration sc);
  if bool_decide (Provider i ∈ ["fred"; "tcmb"; "binance"]) && jsonb_object conf
     && (0 <? IntervalSeconds i) && fits_int4 (IntervalSeconds i)
     && (0 <? LeaseSeconds i) && fits_int4 (LeaseSeconds i)
     && (0 <? MaxAttempts i) && fits_int4 (MaxAttempts i)
     && is_hex64 (RequestFingerprint sc)
  then Some (mkScheduleRow (Name i) (Provider i) src d ser ins conf (RequestFingerprint sc)
               (IntervalSeconds i) (LeaseSeconds i) (pg_time next) None true None None None "{}" 0
               (MaxAttempts i) None None)
  else None.

Definition named (name : string) (r : ScheduleRow) : bool := bool_decide (sc_name r = name).

Definition refers {A} (x : option A) (p : A -> bool) : bool :=
  match x with Some a => p a | None => true end.

(** The foreign keys of a row. *)
Definition schedule_refs (r : ScheduleRow) (t : collector_tables) : bool :=
  bool_decide (is_Some (data_sources t !! sc_source r))
  && refers (sc_dataset r) (fun d => bool_decide (is_Some (dataset_rows t !! d)))
  && refers (sc_series r) (fun x => bool_decide (is_Some (series_rows t !! x)))
  && refers (sc_instrument r) (fun x => bool_decide (x ∈ instrument_ids t)).

(** INSERT ... ON CONFLICT (name) DO NOTHING RETURNING id: a name that is taken
    returns no row. *)
Definition insert_schedule (id : string) (sc : Schedule) (next : time) (t : collector_tables)
    : res string * collector_tables :=
  match schedule_row sc next with
  | None => (Err EDb, t)
  | Some r =>
      match find_row (named (Name (Input sc))) (schedules t) with
      | Some _ => (Err ENoRows, t)
      | None =>
          if schedule_refs r t && bool_decide (schedules t !! id = None)
          then (Ok id, set_schedules t (<[id := r]> (schedules t)))
          else (Err EDb, t)
      end
  end.

Definition select_schedule (name : string) (t : collector_tables) : res (string * string) :=
  match find_row (named name) (schedules t) with
  | Some (id, r) => Ok (id, sc_fingerprint r)
  | None => Err ENoRows
  end.

Definition UpsertSchedule (id : string) (now : time) (sc : Schedule) : dbm collector_tables string :=
  let i := Input sc in
  if negb Pool then throw ErrPool
  else if negb (bool_decide (SourceCode i = "")) || negb (bool_decide (DatasetKey i = ""))
          || negb (bool_decide (SeriesCode i = ""))
  then throw (ENew "collector schedule catalog codes must be resolved before registration")
  else
    let* valid := wrap "validate collector schedule identities" (pool_query (identities_valid i)) in
    if negb valid
    then throw (ENew "collector schedule identities do not belong to the configured source")
    else
      let* r := attempt (pool_stmt (insert_schedule id sc (default now (NextRunAt i)))) in
      match r with
      | Ok id => ret id
      | Err e =>
          if negb (errors_is e ENoRows) then throw (EWrap "insert collector schedule" e)
          else
            let* existing := wrap "load collector schedule" (pool_query (select_schedule (Name i))) in
            if negb (bool_decide (snd existing = RequestFingerprint sc)) then throw ErrRequestChanged
            else ret (fst existing)
      end.

(** ** Claims *)

Record Claim : Type := mkClaim {
  ClID : string;
  ClName : string;
  ClProvider : string;
  ClSourceID : string;
  ClDatasetID : option string;
  ClSeriesID : option string;
  ClInstrumentID : option string;
  ClConfiguration : string;
  ClFingerprint : string;
  ClCheckpoint : string;
  ClLeaseOwner : string;
  ClLeaseToken : string;
  ClLeaseExpiresAt : time;
  ClAttemptCount : Z;
  ClMaxAttempts : Z;
  ClIntervalSeconds : Z;
  ClLeaseSeconds : Z;
  ClDueAt : time;
  OccurrenceKey : string;
}.

Definition due (now : time) (locked : gset string) (kv : string * ScheduleRow) : bool :=
  let r := snd kv in
  negb (bool_decide (fst kv ∈ locked)) && sc_active r
  && (default (sc_next_run r) (sc_retry r) <=? now)
  && match sc_lease_expires r with None => true | Some t => t <=? now end
  && (sc_attempts r <? sc_max_attempts r).

Definition due_order (a b : string * ScheduleRow) : bool :=
  before (then_by (asc (fun kv => sc_next_run (snd kv))) (asc_text fst)) a b.

Definition lease_schedule (owner token : string) (now : time) (r : ScheduleRow) : ScheduleRow :=
  mkScheduleRow (sc_name r) (sc_provider r) (sc_source r) (sc_dataset r) (sc_series r) (sc_instrument r)
    (sc_configuration r) (sc_fingerprint r) (sc_interval r) (sc_lease_seconds r) (sc_next_run r) (sc_retry r)
    (sc_active r) (Some owner) (Some token) (Some (now + sc_lease_seconds r * Second)) (sc_checkpoint r)
    (sc_attempts r + 1) (sc_max_attempts r) (sc_last_run r) (sc_last_error r).

Definition claim_of (id owner token : string) (now : time) (r : ScheduleRow) : Claim :=
  mkClaim id (sc_name r) (sc_provider r) (sc_source r) (sc_dataset r) (sc_series r) (sc_instrument r)
    (sc_configuration r) (sc_fingerprint r) (sc_checkpoint r) owner token (now + sc_lease_seconds r * Second)
    (sc_attempts r + 1) (sc_max_attempts r) (sc_interval r) (sc_lease_seconds r) (sc_next_run r)
    (id +:+ ":" +:+ sc_fingerprint r +:+ ":" +:+ format_rfc3339nano (sc_next_run r)).

(** The UPDATE of the first due row that no other transaction has locked. *)
Definition claim_statement (owner token : string) (now : time) (locked : gset string) (t : collector_tables)
    : res Claim * collector_tables :=
  match min_of due_order (List.filter (due now locked) (map_to_list (schedules t))) with
  | None => (Err ENoRows, t)
  | Some (id, r) =>
      (Ok (claim_of id owner token now r),
       set_schedules t (<[id := lease_schedule owner token now r]> (schedules t)))
  end.

Definition ClaimDue (owner : string) (lease : duration) (token : string) (now : time) (locked : gset string)
    : dbm collector_tables Claim :=
  if negb Pool then throw ErrPool
  else if bool_decide (owner = "") || (lease <=? 0)
  then throw (ENew "collector lease owner and duration are required")
  else
    let* r := attempt (pool_stmt (claim_statement owner token now locked)) in
    match r with
    | Ok claim => ret claim
    | Err e => if errors_is e ENoRows then throw ErrNoDueSchedule else throw (EWrap "claim collector schedule" e)
    end.

(** The test both updates make: the lease is the claim's and still runs. *)
Definition holds_lease (c : Claim) (token : string) (now : time) (r : ScheduleRow) : bool :=
  bool_decide (sc_lease_owner r = Some (ClLeaseOwner c)) && bool_decide (sc_lease_token r = Some token)
  && match sc_lease_expires r with Some t => now <? t | None => false end.

(** An UPDATE of one row by its identifier, under the lease; the number of rows
    is the answer. *)
Definition update_leased (c : Claim) (now : time) (f : ScheduleRow -> option ScheduleRow) (t : collector_tables)
    : res Z * collector_tables :=
  match uuid_text (ClID c), uuid_text (ClLeaseToken c) with
  | Some id, Some token =>
      match schedules t !! id with
      | Some r =>
          if holds_lease c token now r then
            match f r with
            | Some r' => (Ok 1, set_schedules t (<[id := r']> (schedules t)))
            | None => (Err EDb, t)
            end
          else (Ok 0, t)
      | None => (Ok 0, t)
      end
  | _, _ => (Err EDb, t)
  end.

Definition complete_row (checkpoint : string) (nextRun : time) (run : option string) (r : ScheduleRow) : ScheduleRow :=
  mkScheduleRow (sc_name r) (sc_provider r) (sc_source r) (sc_dataset r) (sc_series r) (sc_instrument r)
    (sc_configuration r) (sc_fingerprint r) (sc_interval r) (sc_lease_seconds r) (pg_time nextRun) None
    (sc_active r) None None None checkpoint 0 (sc_max_attempts r) run None.

(** The UPDATE of [Complete]: its arguments are cast, the row found is checked. *)
Definition complete_statement (c : Claim) (runID checkpoint : string) (nextRun now : time) (t : collector_tables)
    : res Z * collector_tables :=
  match jsonb_in checkpoint, nullable_uuid runID with
  | Some cp, Some run =>
      update_leased c now
        (fun r => if jsonb_object cp && refers run (fun x => bool_decide (x ∈ ingestion_runs t))
                  then Some (complete_row cp nextRun run r) else None) t
  | _, _ => (Err EDb, t)
  end.

Definition rows_affected (ctx : string) (m : dbm collector_tables Z) : dbm collector_tables unit :=
  let* n := wrap ctx m in
  if negb (n =? 1) then throw ErrLeaseLost else ret tt.

Definition Complete (claim : Claim) (runID checkpoint : string) (nextRun now : time) : dbm collector_tables unit :=
  let checkpoint := if bool_decide (checkpoint = "") then "{}" else checkpoint in
  rows_affected "complete collector schedule"
    (pool_stmt (complete_statement claim runID checkpoint nextRun now)).

Definition fail_row (c : Claim) (code : string) (retryAt : time) (r : ScheduleRow) : ScheduleRow :=
  mkScheduleRow (sc_name r) (sc_provider r) (sc_source r) (sc_dataset r) (sc_series r) (sc_instrument r)
    (sc_configuration r) (sc_fingerprint r) (sc_interval r) (sc_lease_seconds r) (sc_next_run r)
    (Some (pg_time retryAt)) (if sc_max_attempts r <=? ClAttemptCount c then false else sc_active r)
    None None None (sc_checkpoint r) (sc_attempts r) (sc_max_attempts r) (sc_last_run r) (Some code).

Definition Fail (claim : Claim) (code : string) (retryAt now : time) : dbm collector_tables unit :=
  rows_affected "fail collector schedule"
    (pool_stmt (update_leased claim now (fun r => Some (fail_row claim code retryAt r)))).

(** ** The worker *)

Record RunOutcome : Type := mkRunOutcome { RunID : string; OutCheckpoint : string; IsComplete : bool }.

Definition minute_lease (lease : duration) : duration := if lease <=? 0 then 2 * Minute else lease.

(** What [RunOnce] does once its handler has answered: [wnow] is the worker's
    clock, [now] the database's.  The text of the handler's error, which the
    message of a failed [Fail] repeats, is left out. *)
Definition finish (claim : Claim) (outcome : res RunOutcome) (wnow now : time) : dbm collector_tables unit :=
  let next := wnow + ClIntervalSeconds claim * Second in
  match outcome with
  | Err e =>
      let* r := attempt (Fail claim "handler_failed" next now) in
      match r with
      | Err failErr => throw (EWrap "collector handler failed; fail schedule" failErr)
      | Ok _ => throw e
      end
  | Ok o =>
      if negb (IsComplete o) then throw (ENew "collector handler returned incomplete outcome")
      else Complete claim (RunID o) (OutCheckpoint o) next now
  end.

(** [RunOnce] when nothing else happens meanwhile: the handler works on the
    outside world and answers at the two times it gives. *)
Definition RunOnce (handler : option (Claim -> res RunOutcome * time * time)) (owner : string) (lease : duration)
    (token : string) (now : time) (locked : gset string) : dbm collector_tables unit :=
  match handler with
  | None => throw (ENew "collector handler is required")
  | Some handler =>
      let* r := attempt (ClaimDue owner (minute_lease lease) token now locked) in
      match r with
      | Err e => if errors_is e ErrNoDueSchedule then ret tt else throw e
      | Ok claim => let '(outcome, wnow, later) := handler claim in finish claim outcome wnow later
      end
  end.
End store.

End CollectorStore.
