(* ===== verification/CollectorCatalog.v ===== *)
(** Registration of the catalog: what it inserts, what it never touches, and
    that every schedule the catalog covers resolves to identities the database
    accepts. *)

From S2P Require Import Prelude GoString Order Tables Db Collector CollectorStore.
Import Collector CollectorStore.

(** ** Unique keys *)

Section find_row.
Context {R K : Type} (key : R -> K).
Implicit Types (m : gmap string R) (p : R -> bool).

Definition unique_on m : Prop :=
  forall id id' r r', m !! id = Some r -> m !! id' = Some r' -> key r = key r' -> id = id'.

Lemma find_row_Some p m id r : find_row p m = Some (id, r) -> m !! id = Some r /\ p r = true.
Proof.
  unfold find_row. intros H%List.find_some. cbn [snd] in H. destruct H as [Hin Hp].
  split; [|done]. by apply elem_of_map_to_list, list_elem_of_In.
Qed.

Lemma find_row_None p m id r : find_row p m = None -> m !! id = Some r -> p r = false.
Proof.
  unfold find_row. intros H Hr. apply (List.find_none _ _ H (id, r)).
  by apply list_elem_of_In, elem_of_map_to_list.
Qed.

(** An insert on conflict keeps the rows and their unique key, and finds the
    row. *)
Lemma insert_missing_spec p check fk id r m m' :
  (forall r', p r' = true <-> key r' = key r) -> unique_on m ->
  insert_missing p check fk id r m = Some m' ->
  m ⊆ m' /\ unique_on m' /\ (m' = m \/ m !! id = None /\ m' = <[id := r]> m).
Proof.
  intros Hp Hu. unfold insert_missing. destruct (negb check); [done|].
  destruct (find_row p m) as [[id' r']|] eqn:E; [intros [= <-]; by split_and!; [..|left]|].
  destruct (fk && _) eqn:Ef; [|done]. intros [= <-]. bool_simp. split_and!; [by apply insert_subseteq| |by right].
  assert (Hnew : forall i x, m !! i = Some x -> key x <> key r).
  { intros i x Hx Hk. apply Hp in Hk. by rewrite (find_row_None _ _ _ _ E Hx) in Hk. }
  intros a b ra rb. destruct (decide (id = a)) as [<-|Ha], (decide (id = b)) as [<-|Hb];
    rewrite ?lookup_insert_eq, ?lookup_insert_ne by done; try done.
  - intros [= <-] Hrb Hk. by destruct (Hnew _ _ Hrb).
  - intros Hra [= <-] Hk. by destruct (Hnew _ _ Hra).
  - apply Hu.
Qed.
End find_row.

(** ** Growth of the tables *)

Record grows (t t' : collector_tables) : Prop := {
  gr_sources : data_sources t ⊆ data_sources t';
  gr_datasets : dataset_rows t ⊆ dataset_rows t';
  gr_series : series_rows t ⊆ series_rows t';
  gr_instruments : instrument_ids t' = instrument_ids t;
  gr_runs : ingestion_runs t' = ingestion_runs t;
  gr_schedules : schedules t' = schedules t;
}.

#[export] Instance grows_preorder : PreOrder grows.
Proof.
  split.
  - intros t. by split.
  - intros a b c [] []. split; try congruence; by etrans.
Qed.

Definition source_key (r : SourceRow) : string := so_code r.
Definition dataset_key (r : DatasetRow) : string * string := (da_source r, da_key r).
Definition series_key (r : SeriesRow) : string * string := (se_dataset r, se_code r).

(** The UNIQUE constraints of the catalog tables. *)
Record unique_tables (t : collector_tables) : Prop := {
  un_sources : unique_on source_key (data_sources t);
  un_datasets : unique_on dataset_key (dataset_rows t);
  un_series : unique_on series_key (series_rows t);
}.

Lemma is_source_key code r : is_source code r = true <-> source_key r = code.
Proof. unfold is_source. by rewrite bool_decide_eq_true. Qed.
Lemma is_dataset_key src k r : is_dataset src k r = true <-> dataset_key r = (src, k).
Proof. unfold is_dataset, dataset_key. rewrite andb_true_iff, !bool_decide_eq_true. naive_solver. Qed.
Lemma is_series_key d c r : is_series d c r = true <-> series_key r = (d, c).
Proof. unfold is_series, series_key. rewrite andb_true_iff, !bool_decide_eq_true. naive_solver. Qed.

(** ** Registration *)

Section registration.
Context (uuid_text jsonb_in : string -> option string).
(** A cast gives the canonical name, which casts to itself and holds no NUL. *)
Context (uuid_canonical : forall x y, uuid_text x = Some y -> uuid_text y = Some y).

(** Identifiers drawn by the database are canonical. *)
Record canonical_ids (t : collector_tables) : Prop := {
  ca_sources id : is_Some (data_sources t !! id) -> uuid_text id = Some id;
  ca_datasets id : is_Some (dataset_rows t !! id) -> uuid_text id = Some id;
  ca_series id : is_Some (series_rows t !! id) -> uuid_text id = Some id;
}.

Record good (t : collector_tables) : Prop := { gd_unique : unique_tables t; gd_canonical : canonical_ids t }.

(** One [registerRow]: the tables grow and stay good, and the row is there. *)
Definition registers (insert : collector_tables -> res unit * collector_tables)
    (select : collector_tables -> res (string * bool)) (P : string -> collector_tables -> Prop) : Prop :=
  forall t u t', good t -> insert t = (Ok u, t') -> good t' /\ grows t t' /\
    forall id, select t' = Ok (id, true) -> P id t'.

Lemma registerRow_wp label insert select (P : string -> collector_tables -> Prop) c w fs
    (Q : res string -> db collector_tables -> Prop) :
  registers insert select P -> good w ->
  (forall e w' fs', Q (Err e) (Db c w' fs')) ->
  (forall id w' fs', good w' -> grows w w' -> P id w' -> Q (Ok id) (Db c w' fs')) ->
  wp (registerRow label insert select) Q (Db c w fs).
Proof.
  intros Hreg Hgood He Hok. unfold registerRow. wp_step. wp_step. wp_step; [apply He| |apply He].
  destruct (Hreg _ _ _ Hgood E) as (Hg' & Hgr & HP). wp_step. wp_step. wp_step; [apply He|].
  destruct (select w0) as [[id m]|e] eqn:Es; [|apply He]. destruct m; cbn [snd fst negb].
  - wp_step. apply Hok; auto.
  - wp_step. apply He.
Qed.

Lemma registers_source gen s :
  uuid_text gen = Some gen ->
  registers (insert_source gen s) (select_source s)
    (fun id t => exists r, data_sources t !! id = Some r /\ source_key r = CoCode s).
Proof.
  intros Hgen t u t' [[Hu1 Hu2 Hu3] [Hc1 Hc2 Hc3]] H. unfold insert_source in H. cbv zeta in H.
  destruct (insert_missing _ _ _ _ _ _) as [m|] eqn:E; [|done]. injection H as _ <-.
  apply (insert_missing_spec source_key) in E as (Hsub & Hun & Hcase); [|by intros; apply is_source_key|done].
  split; [|split].
  - split; split; cbn; try done. intros id [r Hr]. destruct Hcase as [->|[_ ->]]; [by apply Hc1|].
    destruct (decide (gen = id)) as [<-|Hne]; [done|]. rewrite lookup_insert_ne in Hr by done. by apply Hc1.
  - by split.
  - intros id. unfold select_source. cbn [data_sources set_sources].
    destruct (find_row _ m) as [[id' r]|] eqn:Ef; [|done]. intros [= <- _].
    apply find_row_Some in Ef as [Hr Hp]. apply is_source_key in Hp. by exists r.
Qed.

Lemma registers_dataset gen sourceID d :
  uuid_text gen = Some gen -> uuid_text sourceID = Some sourceID ->
  registers (insert_dataset uuid_text gen sourceID d) (select_dataset uuid_text sourceID d)
    (fun id t => exists r, dataset_rows t !! id = Some r /\ dataset_key r = (sourceID, CdExternalKey d)).
Proof.
  intros Hgen Hsrc t u t' [[Hu1 Hu2 Hu3] [Hc1 Hc2 Hc3]] H. unfold insert_dataset in H. rewrite Hsrc in H.
  destruct (insert_missing _ _ _ _ _ _) as [m|] eqn:E; [|done]. injection H as _ <-.
  apply (insert_missing_spec dataset_key) in E as (Hsub & Hun & Hcase); [|by intros; apply is_dataset_key|done].
  split; [|split].
  - split; split; cbn; try done. intros id [r Hr]. destruct Hcase as [->|[_ ->]]; [by apply Hc2|].
    destruct (decide (gen = id)) as [<-|Hne]; [done|]. rewrite lookup_insert_ne in Hr by done. by apply Hc2.
  - by split.
  - intros id. unfold select_dataset. rewrite Hsrc. cbn [dataset_rows set_datasets].
    destruct (find_row _ m) as [[id' r]|] eqn:Ef; [|done]. intros [= <- _].
    apply find_row_Some in Ef as [Hr Hp]. apply is_dataset_key in Hp. by exists r.
Qed.

Lemma registers_series gen datasetID s :
  uuid_text gen = Some gen -> uuid_text datasetID = Some datasetID ->
  registers (insert_series uuid_text jsonb_in gen datasetID s) (select_series uuid_text jsonb_in datasetID s)
    (fun id t => exists r, series_rows t !! id = Some r /\ series_key r = (datasetID, CsSourceCode s)).
Proof.
  intros Hgen Hd t u t' [[Hu1 Hu2 Hu3] [Hc1 Hc2 Hc3]] H. unfold insert_series in H. rewrite Hd in H.
  destruct (jsonb_in _) as [policy|] eqn:Ej; [|done].
  destruct (insert_missing _ _ _ _ _ _) as [m|] eqn:E; [|done]. injection H as _ <-.
  apply (insert_missing_spec series_key) in E as (Hsub & Hun & Hcase); [|by intros; apply is_series_key|done].
  split; [|split].
  - split; split; cbn; try done. intros id [r Hr]. destruct Hcase as [->|[_ ->]]; [by apply Hc3|].
    destruct (decide (gen = id)) as [<-|Hne]; [done|]. rewrite lookup_insert_ne in Hr by done. by apply Hc3.
  - by split.
  - intros id. unfold select_series. rewrite Hd, Ej. cbn [series_rows set_series].
    destruct (find_row _ m) as [[id' r]|] eqn:Ef; [|done]. intros [= <- _].
    apply find_row_Some in Ef as [Hr Hp]. apply is_series_key in Hp. by exists r.
Qed.

(** A canonical UUID holds no NUL, so the parts of a catalog key can be told
    apart. *)
Context (uuid_solid : forall x y, uuid_text x = Some y -> Forall (fun c => c <> chr 0) (chars y)).

Lemma catalogKey_inj a b k l :
  uuid_text a = Some a -> uuid_text b = Some b ->
  catalogKey [a; k] = catalogKey [b; l] -> a = b /\ k = l.
Proof.
  intros Ha%uuid_solid Hb%uuid_solid H.
  assert (Hk : forall x y, catalogKey [x; y] = x +:+ nul +:+ y) by done. rewrite !Hk in H.
  apply (f_equal chars) in H. rewrite !chars_app in H. cbn [nul] in H.
  change (chars nul) with [chr 0] in H. cbn [app] in H.
  pose proof (cut_char_app (chr 0) (chars a) (chars k) Ha) as H1.
  rewrite H, cut_char_app in H1 by done. injection H1 as H1 H2. split; by apply chars_inj.
Qed.

(** The maps name registered rows. *)
Record ids_ok (ids : CatalogIDs) (t : collector_tables) : Prop := {
  io_sources code id : sources ids !! code = Some id ->
    exists r, data_sources t !! id = Some r /\ source_key r = code;
  io_datasets src k id : uuid_text src = Some src -> datasets ids !! catalogKey [src; k] = Some id ->
    exists r, dataset_rows t !! id = Some r /\ dataset_key r = (src, k);
  io_series d code id : uuid_text d = Some d -> series ids !! catalogKey [d; code] = Some id ->
    exists r, series_rows t !! id = Some r /\ series_key r = (d, code);
}.

Lemma ids_ok_grows ids t t' : grows t t' -> ids_ok ids t -> ids_ok ids t'.
Proof.
  intros [] [H1 H2 H3]. split.
  - intros code id (r & Hr & Hk)%H1. exists r. split; [by eapply lookup_weaken|done].
  - intros src k id Hs (r & Hr & Hk)%H2; [|done]. exists r. split; [by eapply lookup_weaken|done].
  - intros d code id Hd (r & Hr & Hk)%H3; [|done]. exists r. split; [by eapply lookup_weaken|done].
Qed.

(** More names. *)
Record ids_le (a b : CatalogIDs) : Prop := {
  il_sources k : is_Some (sources a !! k) -> is_Some (sources b !! k);
  il_datasets k : is_Some (datasets a !! k) -> is_Some (datasets b !! k);
  il_series k : is_Some (series a !! k) -> is_Some (series b !! k);
}.

#[local] Instance ids_le_preorder : PreOrder ids_le.
Proof. split; [by split|]. intros a b c [] []. split; auto. Qed.

Lemma add_series_le key id ids : ids_le ids (add_series key id ids).
Proof. split; cbn; auto using is_Some_insert. Qed.
Lemma add_dataset_le key id ids : ids_le ids (add_dataset key id ids).
Proof. split; cbn; auto using is_Some_insert. Qed.
Lemma add_source_le code id ids : ids_le ids (add_source code id ids).
Proof. split; cbn; auto using is_Some_insert. Qed.

Lemma add_series_ok d code id ids t :
  uuid_text d = Some d -> ids_ok ids t -> (exists r, series_rows t !! id = Some r /\ series_key r = (d, code)) ->
  ids_ok (add_series (catalogKey [d; code]) id ids) t.
Proof.
  intros Hd [H1 H2 H3] Hr. split; cbn; [done|done|]. intros d' code' id' Hd'. rewrite lookup_insert.
  case_decide as Hk; [|by apply H3]. apply catalogKey_inj in Hk as [-> ->]; [|done..]. by intros [= <-].
Qed.

Lemma add_dataset_ok src k id ids t :
  uuid_text src = Some src -> ids_ok ids t ->
  (exists r, dataset_rows t !! id = Some r /\ dataset_key r = (src, k)) ->
  ids_ok (add_dataset (catalogKey [src; k]) id ids) t.
Proof.
  intros Hs [H1 H2 H3] Hr. split; cbn; [done| |done]. intros src' k' id' Hs'. rewrite lookup_insert.
  case_decide as Hk; [|by apply H2]. apply catalogKey_inj in Hk as [-> ->]; [|done..]. by intros [= <-].
Qed.

Lemma add_source_ok code id ids t :
  ids_ok ids t -> (exists r, data_sources t !! id = Some r /\ source_key r = code) ->
  ids_ok (add_source code id ids) t.
Proof.
  intros [H1 H2 H3] Hr. split; cbn; [|done|done]. intros code' id'. rewrite lookup_insert.
  case_decide as Hk; [|by apply H1]. subst. by intros [= <-].
Qed.

(** Every entry has its name and its row. *)
Definition covers_series (ids : CatalogIDs) (d : string) (l : list CatalogSeries) : Prop :=
  forall s, s ∈ l -> is_Some (series ids !! catalogKey [d; CsSourceCode s]).
Definition covers_datasets (ids : CatalogIDs) (t : collector_tables) (src : string) (l : list CatalogDataset) : Prop :=
  forall d, d ∈ l -> exists did r, dataset_rows t !! did = Some r /\ dataset_key r = (src, CdExternalKey d) /\
    is_Some (datasets ids !! catalogKey [src; CdExternalKey d]) /\ covers_series ids did (CdSeries d).
Definition covers_sources (ids : CatalogIDs) (t : collector_tables) (l : list CatalogSource) : Prop :=
  forall s, s ∈ l -> exists id r, data_sources t !! id = Some r /\ source_key r = CoCode s /\
    is_Some (sources ids !! CoCode s) /\ covers_datasets ids t id (CoDatasets s).

Lemma covers_series_mono ids ids' d l : ids_le ids ids' -> covers_series ids d l -> covers_series ids' d l.
Proof. intros [] H s Hs. auto. Qed.

Lemma covers_datasets_mono ids ids' t t' src l :
  ids_le ids ids' -> grows t t' -> covers_datasets ids t src l -> covers_datasets ids' t' src l.
Proof.
  intros Hle Hgr H d Hd. destruct (H d Hd) as (did & r & Hr & Hk & Hin & Hcov). exists did, r. split_and!; [|done| |].
  - eapply lookup_weaken; [done|apply Hgr].
  - by apply Hle.
  - by eapply covers_series_mono.
Qed.

Section loops.
Context (gen : list nat -> string) (gen_canonical : forall path, uuid_text (gen path) = Some (gen path)).

(** What a loop promises, from the names and tables it starts with. *)
Definition registered (ids : CatalogIDs) (w : collector_tables) (P : CatalogIDs -> collector_tables -> Prop)
    (ids' : CatalogIDs) (w' : collector_tables) : Prop :=
  good w' /\ grows w w' /\ ids_ok ids' w' /\ ids_le ids ids' /\ P ids' w'.

Lemma register_series_wp d path c l : forall n ids w fs (Q : res CatalogIDs -> db collector_tables -> Prop),
  uuid_text d = Some d -> good w -> ids_ok ids w ->
  (forall e w' fs', Q (Err e) (Db c w' fs')) ->
  (forall ids' w' fs', registered ids w (fun ids' _ => covers_series ids' d l) ids' w' -> Q (Ok ids') (Db c w' fs')) ->
  wp (register_series uuid_text jsonb_in gen d path n ids l) Q (Db c w fs).
Proof.
  induction l as [|s l IH]; intros n ids w fs Q Hd Hg Hok He HQ; cbn [register_series].
  { wp_step. apply HQ. split_and!; try done. intros s Hs. by apply not_elem_of_nil in Hs. }
  wp_step. eapply registerRow_wp; [by apply registers_series|done|done|]. intros id w1 fs1 Hg1 Hgr1 Hr.
  apply IH; [done|done| |done|].
  - apply add_series_ok; [done|by eapply ids_ok_grows|done].
  - intros ids' w' fs' (Hg' & Hgr' & Hok' & Hle & Hcov). apply HQ. split_and!; [done|by etrans|done| |].
    + etrans; [apply add_series_le|exact Hle].
    + intros x [->|Hx]%elem_of_cons; [|by apply Hcov]. apply Hle. cbn. rewrite lookup_insert_eq. by eexists.
Qed.

Lemma register_datasets_wp src path c l : forall n ids w fs (Q : res CatalogIDs -> db collector_tables -> Prop),
  uuid_text src = Some src -> good w -> ids_ok ids w ->
  (forall e w' fs', Q (Err e) (Db c w' fs')) ->
  (forall ids' w' fs', registered ids w (fun ids' w' => covers_datasets ids' w' src l) ids' w' ->
     Q (Ok ids') (Db c w' fs')) ->
  wp (register_datasets uuid_text jsonb_in gen src path n ids l) Q (Db c w fs).
Proof.
  induction l as [|d l IH]; intros n ids w fs Q Hs Hg Hok He HQ; cbn [register_datasets].
  { wp_step. apply HQ. split_and!; try done. intros s Hin. by apply not_elem_of_nil in Hin. }
  wp_step. eapply registerRow_wp; [by apply registers_dataset|done|done|]. intros id w1 fs1 Hg1 Hgr1 (r & Hr & Hk).
  assert (Hid : uuid_text id = Some id) by (apply (ca_datasets _ (gd_canonical _ Hg1)); by exists r).
  wp_step. apply register_series_wp; [done|done| |done|].
  { apply add_dataset_ok; [done|by eapply ids_ok_grows|by exists r]. }
  intros ids2 w2 fs2 (Hg2 & Hgr2 & Hok2 & Hle2 & Hcov2).
  apply IH; [done|done|done|done|]. intros ids' w' fs' (Hg' & Hgr' & Hok' & Hle & Hcov). apply HQ.
  split_and!; [done|by do 2 (etrans; [eassumption|])|done| |].
  - etrans; [apply add_dataset_le|]. by etrans.
  - intros x [->|Hx]%elem_of_cons; [|by apply Hcov]. exists id, r. split_and!; [|done| |].
    + eapply lookup_weaken; [exact Hr|]. etrans; [apply Hgr2|apply Hgr'].
    + apply Hle, Hle2. cbn. rewrite lookup_insert_eq. by eexists.
    + by eapply covers_series_mono.
Qed.

Lemma register_sources_wp c l : forall n ids w fs (Q : res CatalogIDs -> db collector_tables -> Prop),
  good w -> ids_ok ids w ->
  (forall e w' fs', Q (Err e) (Db c w' fs')) ->
  (forall ids' w' fs', registered ids w (fun ids' w' => covers_sources ids' w' l) ids' w' -> Q (Ok ids') (Db c w' fs')) ->
  wp (register_sources uuid_text jsonb_in gen n ids l) Q (Db c w fs).
Proof.
  induction l as [|s l IH]; intros n ids w fs Q Hg Hok He HQ; cbn [register_sources].
  { wp_step. apply HQ. split_and!; try done. intros s Hin. by apply not_elem_of_nil in Hin. }
  wp_step. eapply registerRow_wp; [by apply registers_source|done|done|]. intros id w1 fs1 Hg1 Hgr1 (r & Hr & Hk).
  assert (Hid : uuid_text id = Some id) by (apply (ca_sources _ (gd_canonical _ Hg1)); by exists r).
  wp_step. apply register_datasets_wp; [done|done| |done|].
  { apply add_source_ok; [by eapply ids_ok_grows|by exists r]. }
  intros ids2 w2 fs2 (Hg2 & Hgr2 & Hok2 & Hle2 & Hcov2).
  apply IH; [done|done|done|]. intros ids' w' fs' (Hg' & Hgr' & Hok' & Hle & Hcov). apply HQ.
  split_and!; [done|by do 2 (etrans; [eassumption|])|done| |].
  - etrans; [apply add_source_le|]. by etrans.
  - intros x [->|Hx]%elem_of_cons; [|by apply Hcov]. exists id, r. split_and!; [|done| |].
    + eapply lookup_weaken; [exact Hr|]. etrans; [apply Hgr2|apply Hgr'].
    + apply Hle, Hle2. cbn. rewrite lookup_insert_eq. by eexists.
    + by eapply covers_datasets_mono.
Qed.

Lemma no_ids_ok w : ids_ok no_ids w.
Proof. split; cbn; intros *; rewrite lookup_empty; done. Qed.

Lemma RegisterCatalog_effect pool catalog fs t r t' :
  good t ->
  run (RegisterCatalog pool uuid_text jsonb_in gen catalog) fs t = (r, t') ->
  match r with
  | Ok ids => good t' /\ grows t t' /\ ids_ok ids t' /\ covers_sources ids t' (Sources catalog)
  | Err _ => t' = t
  end.
Proof.
  intros Hg Hrun. run_wp Hrun. unfold RegisterCatalog. destruct (negb pool); [by wp_step|].
  case_bool_decide as Hlen.
  { wp_step. split_and!; [done|done|apply no_ids_ok|]. apply nil_length_inv in Hlen. rewrite Hlen.
    intros s Hs. by apply not_elem_of_nil in Hs. }
  wp_step. wp_step. wp_step; [done|]. wp_step. apply register_sources_wp; [done|apply no_ids_ok|done|].
  intros ids w fs' (Hg' & Hgr & Hok & _ & Hcov). wp_step. wp_step. wp_step; [done|]. by wp_step.
Qed.
End loops.
End registration.
