(* ===== verification/CollectorProofs.v ===== *)
(** Properties of the collector configuration: which schedules are accepted,
    and that every schedule of a valid configuration can be registered once its
    catalog is. *)

From S2P Require Import Prelude GoString Sha256 Json JsonTree JsonText Zone Quality Tables Db.
From S2P Require Import Collector CollectorStore.
From S2P Require Import CollectorCatalog.
Import Collector CollectorStore.

Lemma no_first_error {A} (f : A -> option goerr) l : first_error f l = None <-> forall x, x ∈ l -> f x = None.
Proof.
  induction l as [|x l IH]; cbn; [split; [|done]; intros _ x Hx; by apply not_elem_of_nil in Hx|].
  destruct (f x) eqn:E; [split; [done|]; intros H; rewrite <- E; apply H; left|]. rewrite IH. split.
  - intros H y [->|Hy]%elem_of_cons; auto.
  - intros H y Hy. apply H. by right.
Qed.

Section accepted.
Context (url_parse : string -> option URL) (shuffle : list (string * string) -> list (string * string)).
Context (Hshuffle : forall l, shuffle l ≡ₚ l).

(** The schedule a configuration entry is read as. *)
Definition normal (input : ScheduleInput) : ScheduleInput :=
  set_identity input (trim_space (Name input)) (to_lower (trim_space (Provider input))).

(** Every identity is given one way. *)
Record references_ok (i : ScheduleInput) : Prop := {
  rf_source : SourceID i = "" \/ SourceCode i = "";
  rf_dataset : DatasetID i = "" \/ DatasetKey i = "";
  rf_series : SeriesID i = "" \/ SeriesCode i = "";
  rf_dataset_code : DatasetKey i <> "" -> SourceCode i <> "";
  rf_series_code : SeriesCode i <> "" -> DatasetKey i <> "";
  rf_codes : SourceCode i <> "" -> DatasetID i = "" /\ SeriesID i = "";
}.

Record identity_ok (i : ScheduleInput) : Prop := {
  ik_name : Name i <> "" /\ contains_any (Name i) (of_chars [chr 13; chr 10]) = false;
  ik_provider : Provider i ∈ ["fred"; "tcmb"; "binance"];
  ik_references : references_ok i;
  ik_source : SourceCode i = "" -> uuidPattern (SourceID i) = true;
  ik_credential : Provider i <> "binance" -> envNamePattern (trim_space (CredentialEnv i)) = true;
  ik_url : BaseURL i <> "" -> base_url_ok url_parse (BaseURL i) = true;
  ik_ids v : v ∈ [DatasetID i; SeriesID i; InstrumentID i] -> v <> "" -> uuidPattern v = true;
  ik_series : Provider i <> "binance" -> SeriesID i <> "" \/ SeriesCode i <> "";
  ik_instrument : Provider i = "binance" -> InstrumentID i <> "";
  ik_request : InRequest i ∉ [""; "null"; "{}"];
}.

Record request_ok (i : ScheduleInput) (m : gmap string string) : Prop := {
  rk_map : unmarshal_raw_map (InRequest i) = RawMap m;
  rk_fields k : is_Some (m !! k) ->
    to_lower (trim_space k) ∈ allowed_fields (Provider i) /\ secret_field (to_lower (trim_space k)) = false;
  rk_fx p : InFXPair i = Some p -> Provider i = "tcmb" /\ currencyPattern (Base p) = true /\
    currencyPattern (FXQuote p) = true /\ Base p <> FXQuote p;
  rk_interval : 1 <= IntervalSeconds i <= 2678400;
  rk_attempts : 1 <= MaxAttempts i <= 20;
  rk_lease : 1 <= LeaseSeconds i <= 86400;
}.

Lemma references_None i : validateCatalogReferences i = None <-> references_ok i.
Proof.
  unfold validateCatalogReferences. cbn [existsb fst snd].
  destruct (decide (SourceID i = "")) as [E1|E1], (decide (SourceCode i = "")) as [E2|E2],
    (decide (DatasetID i = "")) as [E3|E3], (decide (DatasetKey i = "")) as [E4|E4],
    (decide (SeriesID i = "")) as [E5|E5], (decide (SeriesCode i = "")) as [E6|E6];
    repeat first [rewrite (bool_decide_true (_ = ""%string)) by done | rewrite (bool_decide_false (_ = ""%string)) by done];
    cbn; (split; [try done; intros _; split; naive_solver|try done; intros []; naive_solver]).
Qed.

Lemma if_None {A} (b : bool) (e : A) (x : option A) :
  (if b then Some e else x) = None <-> b = false /\ x = None.
Proof. destruct b; naive_solver. Qed.

Lemma match_None {A} (x y : option A) :
  match x with Some e => Some e | None => y end = None <-> x = None /\ y = None.
Proof. destruct x; naive_solver. Qed.

(** A guard that a text fails only when it is not empty. *)
Lemma guard_text (v : string) (b : bool) :
  negb (bool_decide (v = "")) && negb b = false <-> (v <> "" -> b = true).
Proof. destruct b; case_bool_decide; naive_solver. Qed.

Lemma ids_None i :
  first_error id_error (shuffle [("dataset_id", DatasetID i); ("series_id", SeriesID i);
    ("instrument_id", InstrumentID i)]) = None <->
  forall v, v ∈ [DatasetID i; SeriesID i; InstrumentID i] -> v <> "" -> uuidPattern v = true.
Proof.
  rewrite no_first_error. setoid_rewrite Hshuffle. split.
  - intros H v Hv. assert (Hf : forall f, (f, v) ∈ [("dataset_id", DatasetID i); ("series_id", SeriesID i);
      ("instrument_id", InstrumentID i)]%string -> v <> "" -> uuidPattern v = true).
    { intros f Hf. specialize (H _ Hf). unfold id_error in H. cbn [snd] in H. apply if_None in H as [H _].
      by apply guard_text. }
    set_solver.
  - intros H [f v] Hin. unfold id_error. cbn [snd]. apply if_None. split; [|done]. apply guard_text. apply H.
    set_solver.
Qed.

Lemma identity_None i : identity_error url_parse shuffle i = None <-> identity_ok i.
Proof.
  unfold identity_error. rewrite !if_None, !match_None, !if_None, match_None, !if_None.
  rewrite references_None, ids_None. split.
  - intros (H1 & H2 & H3 & H4 & H5 & H6 & H7 & H8 & H9 & H10 & _). bool_simp. split; try done.
    + intros Hs. rewrite (bool_decide_true _ Hs) in H4. by apply negb_false_iff in H4.
    + intros Hp. rewrite (bool_decide_false _ Hp) in H5. by apply negb_false_iff in H5.
    + by apply guard_text.
    + intros Hp. rewrite andb_false_iff, andb_false_iff, !bool_decide_eq_false in H8.
      destruct H8 as [[H8| ]| ]; [|by left|by right]. set_solver.
    + intros Hp. rewrite (bool_decide_true _ Hp) in H9. cbn in H9. by bool_simp.
  - intros [[Hn1 Hn2] Hp Hr Hs Hc Hu Hi Hse Hin Hrq]. split_and!; try done.
    + by rewrite bool_decide_false, Hn2.
    + by rewrite bool_decide_true.
    + destruct (decide (SourceCode i = "")) as [E|E]; [rewrite (bool_decide_true _ E), Hs by done|rewrite bool_decide_false by done]; done.
    + destruct (decide (Provider i = "binance")) as [E|E];
        [by rewrite (bool_decide_true _ E)|]. by rewrite Hc, andb_false_r.
    + by apply guard_text.
    + rewrite andb_false_iff, andb_false_iff, !bool_decide_eq_false.
      destruct (decide (Provider i = "binance")) as [E|E]; [left; left; rewrite E; set_solver|].
      destruct (Hse E); auto.
    + destruct (decide (Provider i = "binance")) as [E|E]; [|by rewrite (bool_decide_false _ E)].
      rewrite (bool_decide_false (InstrumentID i = "")), andb_false_r by auto. done.
    + by rewrite bool_decide_false.
Qed.

Lemma fields_None provider m :
  validateRequestFields shuffle provider m = None <->
  forall k, is_Some (m !! k) -> to_lower (trim_space k) ∈ allowed_fields provider /\
    secret_field (to_lower (trim_space k)) = false.
Proof.
  unfold validateRequestFields. rewrite no_first_error. setoid_rewrite Hshuffle. split.
  - intros H k [v Hk]. specialize (H (k, v)). rewrite elem_of_map_to_list in H. specialize (H Hk).
    unfold field_error in H. cbn [fst] in H. cbv zeta in H. rewrite !if_None in H. destruct H as (H1 & H2 & _).
    by bool_simp.
  - intros H [k v] Hk%elem_of_map_to_list. cbn [fst]. unfold field_error. rewrite !if_None.
    destruct (H k (mk_is_Some _ _ Hk)) as [H1 H2]. by rewrite H2, bool_decide_true.
Qed.

Lemma fx_None provider pair :
  fx_error provider pair = None <-> forall p, pair = Some p -> provider = "tcmb" /\ currencyPattern (Base p) = true /\
    currencyPattern (FXQuote p) = true /\ Base p <> FXQuote p.
Proof.
  unfold fx_error. destruct pair as [p|]; [|naive_solver]. rewrite !if_None. split.
  - intros (H1 & H2 & _) ? [= <-]. by bool_simp.
  - intros H. destruct (H p eq_refl) as (-> & -> & -> & Hne). by rewrite bool_decide_true, bool_decide_false.
Qed.

Lemma bounds_None i :
  bounds_error i = None <-> 1 <= IntervalSeconds i <= 2678400 /\ 1 <= MaxAttempts i <= 20 /\ 1 <= LeaseSeconds i <= 86400.
Proof.
  unfold bounds_error. rewrite !if_None, !orb_false_iff, !Z.leb_gt, !Z.ltb_ge. split.
  - intros (H1 & H2 & H3 & _). lia.
  - intros H. split_and!; try lia; done.
Qed.

(** The schedules that are accepted.  Normalizing succeeds exactly on an
    entry that is named, has a known provider, gives each identity once and as
    a UUID or as a chain of catalog codes, names its credential variable, has a
    secure base URL, an instrument or a series as the provider needs, interval,
    attempts and lease within bounds, a currency pair only for the bank's
    series, and a request object all of whose fields the provider knows and
    none of which could carry a credential; and then the stored configuration
    is the canonical payload and the fingerprint its digest. *)
Theorem schedule_accepted input sc :
  NormalizeSchedule url_parse shuffle input = Ok sc <->
  exists m, identity_ok (normal input) /\ request_ok (normal input) m /\
    sc = mkSchedule (normal input) (sha256_hex (request_payload (normal input) m)) (request_payload (normal input) m).
Proof.
  unfold NormalizeSchedule. cbv zeta. fold (normal input). set (i := normal input).
  pose proof (identity_None i) as Hid. destruct (identity_error _ _ i) as [e|].
  { split; [done|]. intros (m & Hk & _). apply Hid in Hk. done. }
  destruct (unmarshal_raw_map (InRequest i)) as [| |m] eqn:Em;
    [split; [done|]; intros (m & _ & [Hm] & _); congruence..|].
  pose proof (fields_None (Provider i) m) as Hf. destruct (validateRequestFields _ _ m) as [e|].
  { split; [done|]. intros (m' & _ & [Hm Hk _ _ _ _] & _). assert (m' = m) as -> by congruence.
    by apply Hf in Hk. }
  pose proof (fx_None (Provider i) (InFXPair i)) as Hx. destruct (fx_error _ _) as [e|].
  { split; [done|]. intros (m' & _ & [_ _ Hk _ _ _] & _). by apply Hx in Hk. }
  pose proof (bounds_None i) as Hb. destruct (bounds_error i) as [e|].
  { split; [done|]. intros (m' & _ & [_ _ _ H1 H2 H3] & _). by assert (Some e = None) by (by apply Hb). }
  assert (Hok : request_ok i m).
  { destruct Hb as [Hb _]. specialize (Hb eq_refl). split; try lia; [done|by apply Hf|by apply Hx]. }
  split.
  - intros [= <-]. exists m. split_and!; try done. by apply Hid.
  - intros (m' & _ & [Hm] & ->). assert (m' = m) as -> by congruence. done.
Qed.
End accepted.

(** ** From a valid configuration to registered schedules *)

Section configured.
Context (url_parse : string -> option URL) (load_location : string -> option Location).
Context (shuffle : list (string * string) -> list (string * string)) (Hshuffle : forall l, shuffle l ≡ₚ l).

Lemma all_schedules_None c n seen l i :
  all_schedules_error url_parse shuffle c n seen l = None -> i ∈ l ->
  (exists sc, NormalizeSchedule url_parse shuffle i = Ok sc) /\ exists k, code_error c k i = None.
Proof.
  revert n seen. induction l as [|s l IH]; intros n seen; cbn [all_schedules_error];
    [intros _ H; by apply not_elem_of_nil in H|].
  rewrite if_None. intros [_ H]. destruct (NormalizeSchedule _ _ s) as [sc|] eqn:Es; [|done].
  apply match_None in H as [Hc Hr]. intros [->|Hi]%elem_of_cons; [|by eapply IH].
  split; [by exists sc|by exists n].
Qed.

Lemma Validate_schedule config i :
  Validate url_parse load_location shuffle config = None -> i ∈ Schedules config -> SourceCode i <> "" ->
  exists m, identity_ok url_parse (normal i) /\ request_ok (normal i) m /\
    has (CfgCatalog config) (SourceCode i) (DatasetKey i) (SeriesCode i) = true.
Proof.
  unfold Validate. rewrite if_None. intros [_ H] Hi Hs.
  destruct (ValidateArchive url_parse (CfgArchive config)); [done|].
  apply match_None in H as [_ H]. apply if_None in H as [_ H].
  destruct (all_schedules_None _ _ _ _ _ H Hi) as [[sc Hsc] [k Hk]].
  apply schedule_accepted in Hsc as (m & Hid & Hrq & _); [|done]. exists m. split; [done|]. split; [done|].
  unfold code_error in Hk. rewrite (bool_decide_false _ Hs) in Hk. cbv zeta in Hk.
  rewrite !if_None in Hk. destruct Hk as (_ & Hh & _). by apply negb_false_iff in Hh.
Qed.
End configured.

Lemma has_inv c code key scode :
  has c code key scode = true -> exists s, s ∈ Sources c /\ CoCode s = code /\
    (key = "" \/ exists d, d ∈ CoDatasets s /\ CdExternalKey d = key /\
       (scode = "" \/ exists x, x ∈ CdSeries d /\ CsSourceCode x = scode)).
Proof.
  unfold has. rewrite existsb_exists. intros (s & Hs%list_elem_of_In & H). exists s.
  rewrite andb_true_iff, orb_true_iff, !bool_decide_eq_true, existsb_exists in H.
  destruct H as [Hc H]. split; [done|]. split; [done|]. destruct H as [H|(d & Hd%list_elem_of_In & H)]; [by left|].
  right. exists d. rewrite andb_true_iff, orb_true_iff, !bool_decide_eq_true, existsb_exists in H.
  destruct H as [Hk H]. split; [done|]. split; [done|]. destruct H as [H|(x & Hx%list_elem_of_In & H)]; [by left|].
  right. exists x. by rewrite bool_decide_eq_true in H.
Qed.

Section resolves.
Context (uuid_text jsonb_in : string -> option string).
Context (uuid_solid : forall x y, uuid_text x = Some y -> Forall (fun c => c <> chr 0) (chars y)).

(** The identities of the registered entries a schedule names. *)
Record resolved_to (ids : CatalogIDs) (t : collector_tables) (i i' : ScheduleInput) : Prop := {
  rt_ok : Resolve ids i = Ok i';
  rt_source : exists r, data_sources t !! SourceID i' = Some r /\ so_code r = SourceCode i;
  rt_dataset : DatasetKey i <> "" ->
    exists r, dataset_rows t !! DatasetID i' = Some r /\ da_source r = SourceID i' /\ da_key r = DatasetKey i;
  rt_series : SeriesCode i <> "" ->
    exists r, series_rows t !! SeriesID i' = Some r /\ se_dataset r = DatasetID i' /\ se_code r = SeriesCode i;
  rt_shape : i' = mkScheduleInput (Name i) (Provider i) (SourceID i')
    (if bool_decide (DatasetKey i = "") then DatasetID i else DatasetID i')
    (if bool_decide (SeriesCode i = "") then SeriesID i else SeriesID i') (InstrumentID i) "" "" ""
    (CredentialEnv i) (BaseURL i) (InRequest i) (IntervalSeconds i) (MaxAttempts i) (LeaseSeconds i)
    (NextRunAt i) (InFXPair i);
}.

Lemma covered_resolves ids t c i :
  good uuid_text t -> ids_ok uuid_text ids t -> covers_sources ids t (Sources c) ->
  SourceCode i <> "" -> (SeriesCode i <> "" -> DatasetKey i <> "") ->
  has c (SourceCode i) (DatasetKey i) (SeriesCode i) = true ->
  exists i', resolved_to ids t i i'.
Proof.
  intros [Hun Hcan] Hok Hcov Hs Hchain Hhas. apply has_inv in Hhas as (s & Hin & Hcode & Hd).
  destruct (Hcov _ Hin) as (id & r & Hr & Hk & [id0 Hid] & Hcovd). rewrite Hcode in Hk, Hid.
  destruct (io_sources _ _ _ Hok _ _ Hid) as (r0 & Hr0 & Hk0).
  assert (id0 = id) as -> by (eapply (un_sources _ Hun); [exact Hr0|exact Hr|congruence]).
  unfold source_key in *. destruct (decide (DatasetKey i = "")) as [Edk|Edk].
  { assert (Esc : SeriesCode i = "") by (destruct (decide (SeriesCode i = "")); [done|naive_solver]).
    exists (with_source id i). split.
    - unfold Resolve. rewrite bool_decide_false, Hid by done. cbv zeta. cbn [DatasetKey with_source].
      rewrite bool_decide_true by done. cbn [res_bind SeriesCode with_source]. by rewrite bool_decide_true.
    - by exists r.
    - done.
    - done.
    - rewrite !bool_decide_true by done. unfold with_source. cbn. by rewrite Edk, Esc. }
  destruct Hd as [Hd|(d & Hdin & Hdk & Hser)]; [done|].
  destruct (Hcovd _ Hdin) as (did & rd & Hrd & Hkd & [did0 Hdid] & Hcovs). rewrite Hdk in Hkd, Hdid.
  assert (Hidc : uuid_text id = Some id) by (apply (ca_sources _ _ Hcan); by exists r).
  destruct (io_datasets _ _ _ Hok _ _ _ Hidc Hdid) as (rd0 & Hrd0 & Hkd0).
  assert (did0 = did) as -> by (eapply (un_datasets _ Hun); [exact Hrd0|exact Hrd|congruence]).
  unfold dataset_key in *. assert (Hdsrc : da_source rd = id /\ da_key rd = DatasetKey i) by (split; congruence).
  destruct (decide (SeriesCode i = "")) as [Esc|Esc].
  { exists (with_dataset did (with_source id i)). split; cbn.
    - unfold Resolve. rewrite bool_decide_false, Hid by done. cbv zeta. cbn [DatasetKey with_source].
      rewrite bool_decide_false, Hdid by done. cbn [res_bind SeriesCode with_dataset with_source]. by rewrite bool_decide_true.
    - by exists r.
    - intros _. exists rd. by destruct Hdsrc.
    - done.
    - rewrite bool_decide_false, bool_decide_true by done. unfold with_dataset, with_source. cbn. by rewrite Esc. }
  destruct Hser as [Hser|(x & Hxin & Hxc)]; [done|].
  destruct (Hcovs _ Hxin) as [sid Hsid]. rewrite Hxc in Hsid.
  assert (Hdc : uuid_text did = Some did) by (apply (ca_datasets _ _ Hcan); by exists rd).
  destruct (io_series _ _ _ Hok _ _ _ Hdc Hsid) as (rs & Hrs & Hks). unfold series_key in Hks.
  exists (with_series sid (with_dataset did (with_source id i))). split; cbn.
  - unfold Resolve. rewrite bool_decide_false, Hid by done. cbv zeta. cbn [DatasetKey with_source].
    rewrite bool_decide_false, Hdid by done. cbn [res_bind SeriesCode with_dataset with_source DatasetID].
    rewrite bool_decide_false, Hsid by done. done.
  - by exists r.
  - intros _. exists rd. by destruct Hdsrc.
  - intros _. exists rs. split; [done|]. by injection Hks.
  - by rewrite !bool_decide_false.
Qed.

(** What the database drew is a random UUID. *)
Definition random_ids (t : collector_tables) : Prop :=
  forall id, is_Some (data_sources t !! id) \/ is_Some (dataset_rows t !! id) \/ is_Some (series_rows t !! id) ->
    uuidPattern id = true.

Lemma uuidPattern_empty : uuidPattern "" = false.
Proof. done. Qed.

Lemma resolved_nonempty ids t i i' :
  random_ids t -> resolved_to ids t i i' ->
  SourceID i' <> "" /\ (DatasetKey i <> "" -> DatasetID i' <> "") /\ (SeriesCode i <> "" -> SeriesID i' <> "").
Proof.
  intros Hran [_ (r & Hr & _) Hd Hs _]. split_and!.
  - intros E. rewrite E in Hr. specialize (Hran _ (or_introl (mk_is_Some _ _ Hr))). done.
  - intros Hne E. destruct (Hd Hne) as (x & Hx & _). rewrite E in Hx.
    specialize (Hran _ (or_intror (or_introl (mk_is_Some _ _ Hx)))). done.
  - intros Hne E. destruct (Hs Hne) as (x & Hx & _). rewrite E in Hx.
    specialize (Hran _ (or_intror (or_intror (mk_is_Some _ _ Hx)))). done.
Qed.

(** The resolved entry is acceptable when the entry was. *)
Lemma resolved_accepted url_parse ids t i i' m :
  random_ids t -> resolved_to ids t i i' -> SourceCode i <> "" ->
  identity_ok url_parse (normal i) -> request_ok (normal i) m ->
  identity_ok url_parse (normal i') /\ request_ok (normal i') m.
Proof.
  intros Hran Hres Hsc [Hn Hp Hr Hs Hc Hu Hi Hse Hin Hrq] [Hm Hf Hx Hb1 Hb2 Hb3].
  destruct (resolved_nonempty _ _ _ _ Hran Hres) as (Hne1 & Hne2 & Hne3).
  destruct (rf_codes _ Hr Hsc) as [Hnod Hnos]. cbn in Hnod, Hnos.
  pose proof (rt_source _ _ _ _ Hres) as (r & Hrow & _).
  pose proof (rt_dataset _ _ _ _ Hres) as Hd. pose proof (rt_series _ _ _ _ Hres) as Hser.
  pose proof (rt_shape _ _ _ _ Hres) as Hshape.
  assert (Hdid : DatasetID i' <> "" -> uuidPattern (DatasetID i') = true).
  { destruct (decide (DatasetKey i = "")) as [E|E].
    - rewrite Hshape. cbn. rewrite bool_decide_true, Hnod by done. done.
    - intros _. destruct (Hd E) as (x & Hxr & _). apply Hran. right; left. by exists x. }
  assert (Hsid : SeriesID i' <> "" -> uuidPattern (SeriesID i') = true).
  { destruct (decide (SeriesCode i = "")) as [E|E].
    - rewrite Hshape. cbn. rewrite (bool_decide_true (SeriesCode i = "")), Hnos by done. done.
    - intros _. destruct (Hser E) as (x & Hxr & _). apply Hran. right; right. by exists x. }
  assert (Hsrc : uuidPattern (SourceID i') = true) by (apply Hran; left; by exists r).
  rewrite Hshape in *. cbn in *. split; split; cbn; try done.
  - split; cbn; auto; naive_solver.
  - intros v [->|[->|[->|Hv]%elem_of_cons]%elem_of_cons]%elem_of_cons Hne; auto.
    + apply Hi; [set_solver|done].
    + by apply not_elem_of_nil in Hv.
  - intros Hb. left. case_bool_decide as E.
    + destruct (Hse Hb) as [H|H]; [done|]. by destruct H.
    + by apply Hne3.
Qed.

Lemma resolved_valid url_parse ids t i i' :
  good uuid_text t -> random_ids t -> resolved_to ids t i i' -> SourceCode i <> "" ->
  identity_ok url_parse (normal i) ->
  (InstrumentID i = "" \/ exists u, uuid_text (InstrumentID i) = Some u /\ u ∈ instrument_ids t) ->
  identities_valid uuid_text (normal i') t = Ok true.
Proof.
  intros Hg Hran Hres Hsc Hid Hins. destruct (resolved_nonempty _ _ _ _ Hran Hres) as (_ & Hne2 & Hne3).
  destruct (rf_codes _ (ik_references _ _ Hid) Hsc) as [Hnod Hnos]. cbn in Hnod, Hnos.
  pose proof (rf_series_code _ (ik_references _ _ Hid)) as Hchain. cbn in Hchain.
  destruct Hres as [_ (r & Hrow & _) Hd Hs Hshape]. destruct Hg as [_ [Hc1 Hc2 Hc3]].
  unfold identities_valid, nullable_uuid. rewrite Hshape in *. cbn in *.
  rewrite (Hc1 (SourceID i')) by by exists r.
  assert (Hi : exists x, (if bool_decide (InstrumentID i = "") then Some None
     else match uuid_text (InstrumentID i) with Some u => Some (Some u) | None => None end) = Some x /\
     bool_decide (InstrumentID i = "") || match x with Some u => bool_decide (u ∈ instrument_ids t) | None => false end = true).
  { destruct Hins as [->|(u & Hu & Hin)]; [by exists None|]. destruct (decide (InstrumentID i = "")) as [E|E].
    - rewrite bool_decide_true by done. by exists None.
    - rewrite bool_decide_false, Hu by done. exists (Some u). by rewrite bool_decide_true. }
  destruct Hi as (x & -> & ->). rewrite (bool_decide_true (is_Some (data_sources t !! SourceID i'))) by by exists r.
  destruct (decide (DatasetKey i = "")) as [Edk|Edk].
  { assert (Esc : SeriesCode i = "") by (destruct (decide (SeriesCode i = "")); [done|naive_solver]).
    rewrite !(bool_decide_true (DatasetKey i = "")), !(bool_decide_true (SeriesCode i = "")) by done.
    by rewrite Hnod, Hnos. }
  rewrite (bool_decide_false (DatasetKey i = "")) in * by done.
  destruct (Hd Edk) as (rd & Hrd & Hda & _). rewrite (Hc2 (DatasetID i')) by by exists rd.
  rewrite (bool_decide_false (DatasetID i' = "")) by auto. cbn. rewrite Hrd. cbn.
  rewrite (bool_decide_true (da_source rd = SourceID i')) by done.
  destruct (decide (SeriesCode i = "")) as [Esc|Esc].
  { rewrite (bool_decide_true (SeriesCode i = "")) in * by done. by rewrite Hnos. }
  rewrite (bool_decide_false (SeriesCode i = "")) in * by done.
  destruct (Hs Esc) as (rs & Hrs & Hse & _). rewrite (Hc3 (SeriesID i')) by by exists rs.
  rewrite (bool_decide_false (SeriesID i' = "")) by auto. cbn. rewrite Hrs. by rewrite bool_decide_true.
Qed.
End resolves.


(** ** A concrete configuration *)

Definition demo_uuid (text : string) : option string :=
  if forallb (fun c => negb (Ascii.eqb c (chr 0))) (chars text) then Some text else None.

Lemma demo_uuid_solid x y : demo_uuid x = Some y -> Forall (fun c => c <> chr 0) (chars y).
Proof.
  unfold demo_uuid. destruct (forallb _ _) eqn:E; [|done]. intros [= <-].
  rewrite forallb_forall in E. apply Forall_forall. intros c Hc%list_elem_of_In Hz.
  specialize (E _ Hc). by rewrite Hz, Ascii.eqb_refl in E.
Qed.

Definition demo_ids (path : list nat) : string :=
  match path with
  | [_] => "00000000-0000-4000-8000-000000000001"
  | [_; _] => "00000000-0000-4000-8000-000000000002"
  | _ => "00000000-0000-4000-8000-000000000003"
  end.

Lemma demo_ids_canonical path : demo_uuid (demo_ids path) = Some (demo_ids path).
Proof. unfold demo_ids. by destruct path as [|a [|b [|c l]]]. Qed.

Definition json_members (l : list (string * string)) : string :=
  "{" +:+ join "," ((fun kv => quoted (fst kv) +:+ ": " +:+ quoted (snd kv)) <$> l) +:+ "}".

Definition demo_policy : string :=
  json_members [("version", "1"); ("expected", "business_daily"); ("max_age", "48h")]%string.

Definition demo_catalog : CatalogConfig :=
  mkCatalogConfig [mkCatalogSource "FRED" "Federal Reserve" "fred"
    [mkCatalogDataset "rates" "Rates" [mkCatalogSeries "DGS10" "Ten years" "percent" "daily" "" demo_policy]]].

Definition demo_schedule : ScheduleInput :=
  mkScheduleInput " ten-year " "FRED" "" "" "" "" "FRED" "rates" "DGS10" "FRED_API_KEY" ""
    (json_members [("series_id", "DGS10")]%string) 3600 3 120 None None.

Definition demo_url (_ : string) : option URL := Some (mkURL "https" "archive" false "" "").

Definition demo_config : FileConfig :=
  mkFileConfig "DATABASE_URL" (mkArchiveConfig "https://archive" "eu" "raw" "ACCESS" "SECRET")
    demo_catalog [demo_schedule].

Definition demo_empty : collector_tables := mkCollectorTables ∅ ∅ ∅ ∅ ∅ ∅.

Abbreviation demo_registration := (run (RegisterCatalog true demo_uuid Some demo_ids demo_catalog) [] demo_empty).

Lemma demo_good : good demo_uuid demo_empty.
Proof.
  split; split; cbn.
  1-3: by intros a b r r' H; rewrite lookup_empty in H.
  all: by intros a [r H]; rewrite lookup_empty in H.
Qed.

Definition table_ids (t : collector_tables) : list string :=
  (map_to_list (data_sources t)).*1 ++ (map_to_list (dataset_rows t)).*1 ++ (map_to_list (series_rows t)).*1.

Lemma random_ids_check t : forallb uuidPattern (table_ids t) = true -> random_ids t.
Proof.
  rewrite forallb_forall. intros H id Hid. apply H, list_elem_of_In. unfold table_ids.
  rewrite !elem_of_app, !list_elem_of_fmap.
  destruct Hid as [[r Hr]|[[r Hr]|[r Hr]]]; [left|right; left|right; right]; exists (id, r);
    by rewrite elem_of_map_to_list.
Qed.

Definition ids_of {S} (o : res CatalogIDs * S) : CatalogIDs :=
  match fst o with Ok ids => ids | Err _ => no_ids end.

Lemma demo_registered : demo_registration = (Ok (ids_of demo_registration), snd demo_registration).
Proof.
  assert (H : is_ok (fst demo_registration) = true) by (vm_compute; reflexivity).
  destruct demo_registration as [[ids|e] s]; [done|discriminate H].
Qed.

Lemma demo_valid : Validate demo_url (fun _ => None) id demo_config = None.
Proof. vm_compute. reflexivity. Qed.

Lemma demo_random : random_ids (snd demo_registration).
Proof. apply random_ids_check. vm_compute. reflexivity. Qed.


Definition demo_accepted : Schedule :=
  match NormalizeSchedule demo_url id demo_schedule with Ok sc => sc | Err _ => mkSchedule demo_schedule "" "" end.

Lemma schedule_accepted_witness :
  exists m, identity_ok demo_url (normal demo_schedule) /\ request_ok (normal demo_schedule) m /\
    RequestFingerprint demo_accepted = sha256_hex (request_payload (normal demo_schedule) m).
Proof.
  assert (Hn : NormalizeSchedule demo_url id demo_schedule = Ok demo_accepted) by (vm_compute; reflexivity).
  destruct (proj1 (schedule_accepted demo_url id (fun l => Permutation_refl l) demo_schedule demo_accepted) Hn)
    as (m & H1 & H2 & H3).
  exists m. split; [exact H1|]. split; [exact H2|]. rewrite H3. reflexivity.
Defined.
