(* ===== verification/CollectorSafety.v ===== *)
(** Properties of the durable schedules: leases fence stale workers, claims take
    the first due schedule, registration is idempotent, and a schedule whose last
    attempt is lost is never claimed again. *)

From S2P Require Import Prelude GoString GoTime Order Tables Db Collector CollectorStore CollectorCatalog.
From S2P Require Import CollectorProofs.
Import Collector CollectorStore.

(** ** Effects of the calls *)

Section effects.
Context (Pool : bool) (uuid_text jsonb_in : string -> option string) (jsonb_object : string -> bool).

Lemma update_leased_effect c now f t r t' :
  update_leased uuid_text c now f t = (r, t') ->
  t' = t /\ r <> Ok 1 \/
  r = Ok 1 /\ exists id token row row', uuid_text (ClID c) = Some id /\ uuid_text (ClLeaseToken c) = Some token /\
    schedules t !! id = Some row /\ holds_lease c token now row = true /\ f row = Some row' /\
    t' = set_schedules t (<[id := row']> (schedules t)).
Proof.
  unfold update_leased. destruct (uuid_text (ClID c)) as [id|]; [|intros [= <- <-]; by left].
  destruct (uuid_text (ClLeaseToken c)) as [token|]; [|intros [= <- <-]; by left].
  destruct (schedules t !! id) as [row|] eqn:Er; [|intros [= <- <-]; by left].
  destruct (holds_lease c token now row) eqn:Eh; [|intros [= <- <-]; by left].
  destruct (f row) as [row'|] eqn:Ef; [|intros [= <- <-]; by left].
  intros [= <- <-]. right. split; [done|]. exists id, token, row, row'. by split_and!.
Qed.

(** A row released by its worker. *)
Definition released (r r' : ScheduleRow) : Prop :=
  sc_lease_owner r' = None /\ sc_lease_token r' = None /\ sc_lease_expires r' = None /\
  sc_name r' = sc_name r /\ sc_fingerprint r' = sc_fingerprint r /\ sc_configuration r' = sc_configuration r.

(** What the end of a run does to the tables: nothing, or one row released
    under the lease of the claim. *)
Definition finished (c : Claim) (now : time) (t t' : collector_tables) : Prop :=
  exists id token row row', uuid_text (ClID c) = Some id /\ uuid_text (ClLeaseToken c) = Some token /\
    schedules t !! id = Some row /\ holds_lease c token now row = true /\ released row row' /\
    t' = set_schedules t (<[id := row']> (schedules t)).

Lemma rows_affected_wp ctx c now f (g : collector_tables -> res Z * collector_tables) t fs
    (Q : res unit -> db collector_tables -> Prop) :
  (forall r t', g t = (r, t') -> r = Err EDb /\ t' = t \/ update_leased uuid_text c now f t = (r, t')) ->
  (forall row row', f row = Some row' -> released row row') ->
  (forall e fs', Q (Err e) (Db t t fs')) ->
  (forall t' fs', finished c now t t' -> Q (Ok tt) (Db t' t' fs')) ->
  wp (rows_affected ctx (pool_stmt g)) Q (Db t t fs).
Proof.
  intros Hg Hf He Hok. unfold rows_affected. wp_step. wp_step. wp_step; [apply He| |apply He].
  apply Hg in E as [[? _]|E]; [done|]. apply update_leased_effect in E as [[-> Hne]|(Ha & id & token & row & row' & H)].
  - destruct (Z.eqb_spec a 1) as [->|]; [done|]. apply wp_throw, He.
  - injection Ha as ->. apply wp_ret, Hok. destruct H as (H1 & H2 & H3 & H4 & H5 & ->).
    exists id, token, row, row'. split_and!; try done. by apply Hf.
Qed.

Lemma Complete_wp c runID checkpoint next now t fs (Q : res unit -> db collector_tables -> Prop) :
  (forall e fs', Q (Err e) (Db t t fs')) ->
  (forall t' fs', finished c now t t' -> Q (Ok tt) (Db t' t' fs')) ->
  wp (Complete uuid_text jsonb_in jsonb_object c runID checkpoint next now) Q (Db t t fs).
Proof.
  unfold Complete. set (cp0 := if bool_decide (checkpoint = "") then _ else _).
  destruct (jsonb_in cp0) as [cp|] eqn:Ecp; [destruct (nullable_uuid uuid_text runID) as [run|] eqn:Erun|].
  - apply (rows_affected_wp _ _ _ (fun r => if jsonb_object cp && refers run (fun x => bool_decide (x ∈ ingestion_runs t))
      then Some (complete_row cp next run r) else None)).
    + intros r t'. unfold complete_statement. rewrite Ecp, Erun. by right.
    + intros row row'. destruct (_ && _); [|done]. by intros [= <-].
  - apply (rows_affected_wp _ _ _ (fun _ => None)); [|done]. intros r t'. unfold complete_statement. rewrite Ecp, Erun.
    intros [= <- <-]. by left.
  - apply (rows_affected_wp _ _ _ (fun _ => None)); [|done]. intros r t'. unfold complete_statement. rewrite Ecp.
    intros [= <- <-]. by left.
Qed.

Lemma Fail_wp c code retryAt now t fs (Q : res unit -> db collector_tables -> Prop) :
  (forall e fs', Q (Err e) (Db t t fs')) ->
  (forall t' fs', finished c now t t' -> Q (Ok tt) (Db t' t' fs')) ->
  wp (Fail uuid_text c code retryAt now) Q (Db t t fs).
Proof.
  apply (rows_affected_wp _ _ _ (fun r => Some (fail_row c code retryAt r))).
  - intros r t' H. by right.
  - by intros row row' [= <-].
Qed.

Lemma finish_effect c outcome wnow now fs t r t' :
  run (finish uuid_text jsonb_in jsonb_object c outcome wnow now) fs t = (r, t') ->
  is_ok r = false /\ t' = t \/ finished c now t t'.
Proof.
  intros Hrun. run_wp Hrun. unfold finish. destruct outcome as [o|e].
  - destruct (IsComplete o); cbn [negb]; [|wp_step; by left].
    apply Complete_wp; [intros; by left|intros; by right].
  - wp_step. wp_step. apply Fail_wp; intros; wp_step; [by left|by right].
Qed.

(** ** Claims *)

Lemma claim_statement_effect owner token now locked t c t' :
  claim_statement owner token now locked t = (Ok c, t') -> exists id r,
    min_of due_order (List.filter (due now locked) (map_to_list (schedules t))) = Some (id, r) /\
    c = claim_of id owner token now r /\
    t' = set_schedules t (<[id := lease_schedule owner token now r]> (schedules t)).
Proof.
  unfold claim_statement. destruct (min_of _ _) as [[id r]|]; [|done]. intros [= <- <-]. by exists id, r.
Qed.

Lemma min_due now locked t id r :
  min_of due_order (List.filter (due now locked) (map_to_list (schedules t))) = Some (id, r) ->
  schedules t !! id = Some r /\ due now locked (id, r) = true.
Proof.
  intros H%min_of_elem. rewrite list_elem_of_In, filter_In, <- list_elem_of_In, elem_of_map_to_list in H. done.
Qed.

Lemma ClaimDue_effect owner lease token now locked fs t r t' :
  run (ClaimDue Pool owner lease token now locked) fs t = (r, t') ->
  is_ok r = false /\ t' = t \/
  exists id row, schedules t !! id = Some row /\ due now locked (id, row) = true /\
    r = Ok (claim_of id owner token now row) /\
    t' = set_schedules t (<[id := lease_schedule owner token now row]> (schedules t)).
Proof.
  intros Hrun. run_wp Hrun. unfold ClaimDue. destruct (negb Pool); [wp_step; by left|].
  destruct (_ || _); [wp_step; by left|]. wp_step. wp_step. wp_step.
  - destruct (errors_is EDb ENoRows); wp_step; by left.
  - apply claim_statement_effect in E as (id & row & Hm & -> & ->). apply min_due in Hm as [Hr Hd].
    wp_step. right. by exists id, row.
  - destruct (errors_is e ENoRows); wp_step; by left.
Qed.

Lemma insert_schedule_effect id sc next t a t' :
  insert_schedule uuid_text jsonb_in jsonb_object id sc next t = (Ok a, t') -> exists r,
    schedule_row uuid_text jsonb_in jsonb_object sc next = Some r /\ schedules t !! id = None /\
    find_row (named (Name (Input sc))) (schedules t) = None /\ a = id /\
    t' = set_schedules t (<[id := r]> (schedules t)).
Proof.
  unfold insert_schedule. destruct (schedule_row _ _ _ _ _) as [r|]; [|done].
  destruct (find_row _ _) eqn:Ef; [done|]. destruct (_ && _) eqn:E; [|done]. intros [= <- <-]. bool_simp.
  by exists r.
Qed.

Lemma schedule_row_idle sc next row :
  schedule_row uuid_text jsonb_in jsonb_object sc next = Some row ->
  sc_lease_token row = None /\ sc_attempts row = 0 /\ sc_fingerprint row = RequestFingerprint sc /\
  sc_name row = Name (Input sc).
Proof.
  unfold schedule_row. cbv zeta. destruct (uuid_text _) as [src|]; [|done]. cbn [mbind option_bind].
  destruct (nullable_uuid uuid_text (DatasetID _)) as [d|]; [|done]. cbn [mbind option_bind].
  destruct (nullable_uuid uuid_text (SeriesID _)) as [s|]; [|done]. cbn [mbind option_bind].
  destruct (nullable_uuid uuid_text (InstrumentID _)) as [x|]; [|done]. cbn [mbind option_bind].
  destruct (jsonb_in _) as [conf|]; [|done]. cbn [mbind option_bind]. destruct (_ && _); [|done]. by intros [= <-].
Qed.

(** A registration inserts an idle row under a fresh identifier, or changes
    nothing. *)
Lemma UpsertSchedule_effect id now sc fs t r t' :
  run (UpsertSchedule Pool uuid_text jsonb_in jsonb_object id now sc) fs t = (r, t') ->
  t' = t \/ exists row, schedules t !! id = None /\ sc_lease_token row = None /\
    t' = set_schedules t (<[id := row]> (schedules t)).
Proof.
  intros Hrun. run_wp Hrun. unfold UpsertSchedule. destruct (negb Pool); [wp_step; by left|].
  destruct (_ || _); [wp_step; by left|]. wp_step. wp_step. unfold pool_query at 1.
  wp_step; [by left| |intros; by left]. injection E as Hv <-. destruct (negb a); [wp_step; by left|].
  wp_step. wp_step. wp_step.
  - destruct (errors_is EDb ENoRows); cbn [negb]; [|wp_step; by left].
    wp_step. wp_step. unfold pool_query. wp_step; [by left| |intros; by left]. injection E as ? <-.
    case_match; wp_step; by left.
  - apply insert_schedule_effect in E as (row & Hrow & Hnone & _ & -> & ->). wp_step. right. exists row.
    split_and!; try done. by eapply schedule_row_idle.
  - destruct (errors_is e ENoRows); cbn [negb]; [|wp_step; by left].
    wp_step. wp_step. unfold pool_query. wp_step; [by left| |intros; by left]. injection E0 as ? <-.
    case_match; wp_step; by left.
Qed.
End effects.

(** ** Workers over one database

    Any number of workers, each between its claim and the end of its run, with
    the registrations of any configuration in between, under any database
    failures.  The clock of the database does not run backwards, and the lease
    tokens it draws are fresh. *)
Record sys : Type := mkSys {
  tab : collector_tables;
  clock : time;
  used : gset string;
  issued : list Claim;
}.

Section system.
Context (uuid_text jsonb_in : string -> option string) (jsonb_object : string -> bool).
Context (uuid_solid : forall x y, uuid_text x = Some y -> Forall (fun c => c <> chr 0) (chars y)).

Definition hand_out (r : res Claim) (l : list Claim) : list Claim :=
  match r with Ok c => c :: l | Err _ => l end.

Inductive sys_step : sys -> sys -> Prop :=
  | st_claim fs owner lease token now locked t k u l r t' :
      k <= now -> token ∉ u -> uuid_text token = Some token ->
      run (ClaimDue true owner lease token now locked) fs t = (r, t') ->
      sys_step (mkSys t k u l) (mkSys t' now ({[token]} ∪ u) (hand_out r l))
  | st_finish fs c outcome wnow now t k u l r t' :
      k <= now -> c ∈ l ->
      run (finish uuid_text jsonb_in jsonb_object c outcome wnow now) fs t = (r, t') ->
      sys_step (mkSys t k u l) (mkSys t' now u l)
  | st_upsert fs id sc now t k u l r t' :
      k <= now -> uuid_text id = Some id ->
      run (UpsertSchedule true uuid_text jsonb_in jsonb_object id now sc) fs t = (r, t') ->
      sys_step (mkSys t k u l) (mkSys t' now u l)
  | st_register fs gen catalog now t k u l r t' :
      k <= now -> (forall path, uuid_text (gen path) = Some (gen path)) ->
      run (RegisterCatalog true uuid_text jsonb_in gen catalog) fs t = (r, t') ->
      sys_step (mkSys t k u l) (mkSys t' now u l).

(** At the start the catalog holds anything and there is no schedule. *)
Inductive reachable : sys -> Prop :=
  | re_init t k : good uuid_text t -> schedules t = ∅ -> reachable (mkSys t k ∅ [])
  | re_step y y' : reachable y -> sys_step y y' -> reachable y'.

(** What holds between the rows and the claims handed out: tokens are known,
    and a token belongs to one claim. *)
Record SInv (y : sys) : Prop := {
  si_good : good uuid_text (tab y);
  si_keys id r : schedules (tab y) !! id = Some r -> uuid_text id = Some id;
  si_used id r token : schedules (tab y) !! id = Some r -> sc_lease_token r = Some token -> token ∈ used y;
  si_claim c : c ∈ issued y -> ClLeaseToken c ∈ used y /\ uuid_text (ClLeaseToken c) = Some (ClLeaseToken c) /\
    uuid_text (ClID c) = Some (ClID c);
  si_tokens : NoDup (ClLeaseToken <$> issued y);
  si_exists c : c ∈ issued y -> is_Some (schedules (tab y) !! ClID c);
}.

Lemma good_schedules t m : good uuid_text t -> good uuid_text (set_schedules t m).
Proof. intros [[] []]. by split; split. Qed.

(** The schedules after a step other than a claim: nothing, a row released
    under a claim's lease, or a new idle row. *)
Inductive schedules_change (y : sys) (now : time) : gmap string ScheduleRow -> Prop :=
  | sch_same : schedules_change y now (schedules (tab y))
  | sch_released c row row' : c ∈ issued y -> schedules (tab y) !! ClID c = Some row ->
      holds_lease c (ClLeaseToken c) now row = true -> released row row' ->
      schedules_change y now (<[ClID c := row']> (schedules (tab y)))
  | sch_new id row : schedules (tab y) !! id = None -> uuid_text id = Some id -> sc_lease_token row = None ->
      schedules_change y now (<[id := row]> (schedules (tab y))).

Lemma step_cases y y' :
  SInv y -> sys_step y y' ->
  clock y <= clock y' /\ good uuid_text (tab y') /\
  ((used y' = used y /\ issued y' = issued y /\ schedules_change y (clock y') (schedules (tab y'))) \/
   exists token, (token ∉ used y) /\ uuid_text token = Some token /\ used y' = {[token]} ∪ used y /\
    ((issued y' = issued y /\ tab y' = tab y) \/
     exists id row owner locked, schedules (tab y) !! id = Some row /\ due (clock y') locked (id, row) = true /\
       issued y' = claim_of id owner token (clock y') row :: issued y /\
       tab y' = set_schedules (tab y) (<[id := lease_schedule owner token (clock y') row]> (schedules (tab y))))).
Proof.
  intros HI Hstep. pose proof (si_good _ HI) as Hg.
  destruct Hstep as [fs owner lease token now locked t k u l r t' Hk Htok Hcan Hrun
    |fs c outcome wnow now t k u l r t' Hk Hc Hrun|fs id sc now t k u l r t' Hk Hid Hrun
    |fs gen catalog now t k u l r t' Hk Hgen Hrun]; cbn [tab clock used issued] in *.
  - apply ClaimDue_effect in Hrun as [[Hr ->]|(id & row & Hrow & Hdue & -> & ->)].
    + split; [done|]. split; [done|]. right. exists token. split_and!; try done. left. by destruct r.
    + split; [done|]. split; [by apply good_schedules|]. right. exists token. split_and!; try done. right.
      by exists id, row, owner, locked.
  - apply finish_effect in Hrun as [[_ ->]|(id & token & row & row' & Hid & Htok & Hrow & Hh & Hrel & ->)].
    + split; [done|]. split; [done|]. left. split_and!; try done. constructor.
    + destruct (si_claim _ HI c Hc) as (_ & Ht & Hi). rewrite Ht in Htok. rewrite Hi in Hid. simplify_eq.
      split; [done|]. split; [by apply good_schedules|]. left. split_and!; try done. by eapply sch_released.
  - apply UpsertSchedule_effect in Hrun as [->|(row & Hnone & Hidle & ->)].
    + split; [done|]. split; [done|]. left. split_and!; try done. constructor.
    + split; [done|]. split; [by apply good_schedules|]. left. split_and!; try done. by apply sch_new.
  - apply (RegisterCatalog_effect _ _ uuid_solid _ Hgen) in Hrun; [|done].
    split; [done|]. destruct r as [ids|e].
    + destruct Hrun as (Hg' & Hgr & _). split; [done|]. left. split_and!; try done.
      rewrite (gr_schedules _ _ Hgr). constructor.
    + subst t'. split; [done|]. left. split_and!; try done. constructor.
Qed.

Lemma change_keeps y now m :
  SInv y -> schedules_change y now m ->
  (forall id r, m !! id = Some r -> uuid_text id = Some id) /\
  (forall id r token, m !! id = Some r -> sc_lease_token r = Some token ->
     exists r0, schedules (tab y) !! id = Some r0 /\ sc_lease_token r0 = Some token) /\
  (forall id, is_Some (schedules (tab y) !! id) -> is_Some (m !! id)).
Proof.
  intros HI Hch. destruct Hch as [|c row row' Hc Hrow Hh Hrel|id row Hnone Hid Hidle].
  - split_and!; [apply HI|by eauto|done].
  - destruct (si_claim _ HI c Hc) as (_ & _ & Hcid). split_and!.
    + intros id r. rewrite lookup_insert. case_decide as E; [by intros _; rewrite <- E|apply HI].
    + intros id r token. rewrite lookup_insert. case_decide as E; [|by eauto].
      intros [= <-]. destruct Hrel as (_ & -> & _). done.
    + intros id. rewrite lookup_insert. case_decide; [by eexists|done].
  - split_and!.
    + intros id' r. rewrite lookup_insert. case_decide as E; [by intros _; rewrite <- E|apply HI].
    + intros id' r token. rewrite lookup_insert. case_decide as E; [|by eauto]. intros [= <-]. by rewrite Hidle.
    + intros id'. rewrite lookup_insert. case_decide; [by eexists|done].
Qed.

Lemma claim_keeps y id row owner token now :
  SInv y -> schedules (tab y) !! id = Some row -> (token ∉ used y) -> uuid_text token = Some token ->
  SInv (mkSys (set_schedules (tab y) (<[id := lease_schedule owner token now row]> (schedules (tab y)))) now
          ({[token]} ∪ used y) (claim_of id owner token now row :: issued y)).
Proof.
  intros HI Hrow Htok Hcan. pose proof (si_keys _ HI _ _ Hrow) as Hid.
  split; cbn [tab clock used issued schedules set_schedules].
  - apply good_schedules, HI.
  - intros id' r. rewrite lookup_insert. case_decide as E; [by intros _; rewrite <- E|apply HI].
  - intros id' r token'. rewrite lookup_insert. case_decide as E.
    + intros [= <-] [= <-]. set_solver.
    + intros Hr Ht. apply elem_of_union_r. by eapply (si_used _ HI).
  - intros c [->|Hc]%elem_of_cons; [split_and!; [set_solver|done|done]|].
    destruct (si_claim _ HI c Hc) as (H1 & H2 & H3). split_and!; [set_solver|done|done].
  - rewrite fmap_cons. apply NoDup_cons. split; [|apply HI].
    intros (c & Hc & Hin)%list_elem_of_fmap. destruct (si_claim _ HI c Hin) as (H1 & _).
    cbn in Hc. by rewrite <- Hc in H1.
  - intros c [->|Hc]%elem_of_cons; [cbn; rewrite lookup_insert_eq; by eexists|].
    rewrite lookup_insert. case_decide; [by eexists|]. by apply (si_exists _ HI).
Qed.

Lemma step_inv y y' : SInv y -> sys_step y y' -> SInv y'.
Proof.
  intros HI Hstep. destruct (step_cases _ _ HI Hstep) as (_ & Hg & [(Hu & Hl & Hch)|(token & Hfresh & Hcan & Hu & Hcase)]).
  - destruct (change_keeps _ _ _ HI Hch) as (H1 & H2 & H3). split; try done.
    + intros id r token Hr Ht. destruct (H2 _ _ _ Hr Ht) as (r0 & Hr0 & Ht0). rewrite Hu. by eapply (si_used _ HI).
    + rewrite Hl, Hu. apply HI.
    + rewrite Hl. apply HI.
    + intros c Hc. rewrite Hl in Hc. by apply H3, (si_exists _ HI).
  - destruct y' as [t' k' u' l']. cbn [tab clock used issued] in *.
    destruct Hcase as [[-> ->]|(id & row & owner & locked & Hrow & _ & -> & ->)].
    + split; cbn [tab clock used issued]; try apply HI.
      * intros id r token' Hr Ht. rewrite Hu. apply elem_of_union_r. by eapply (si_used _ HI).
      * intros c Hc. destruct (si_claim _ HI c Hc) as (H1 & H2 & H3). rewrite Hu. split_and!; [set_solver|done|done].
    + subst u'. by apply claim_keeps.
Qed.

Lemma reachable_schedules y : reachable y -> SInv y.
Proof.
  induction 1 as [t k Hg Hs|y y' _ IH Hstep]; [|by eapply step_inv].
  split; cbn [tab clock used issued]; rewrite ?Hs; try done.
  - intros c Hc. by apply not_elem_of_nil in Hc.
  - constructor.
  - intros c Hc. by apply not_elem_of_nil in Hc.
Qed.

(** A claim whose token the row no longer carries. *)
Definition dead (c : Claim) (y : sys) : Prop :=
  ClLeaseToken c ∈ used y /\ uuid_text (ClID c) = Some (ClID c) /\ uuid_text (ClLeaseToken c) = Some (ClLeaseToken c) /\
  exists r, schedules (tab y) !! ClID c = Some r /\ sc_lease_token r <> Some (ClLeaseToken c).

Lemma dead_step c y y' : SInv y -> dead c y -> sys_step y y' -> dead c y'.
Proof.
  intros HI (Hused & Hid & Htok & r & Hr & Hne) Hstep.
  destruct (step_cases _ _ HI Hstep) as (_ & _ & [(Hu & _ & Hch)|(token & Hfresh & _ & Hu & Hcase)]).
  - destruct (change_keeps _ _ _ HI Hch) as (_ & H2 & H3). unfold dead. rewrite Hu. split_and!; [done..|].
    destruct (H3 _ (mk_is_Some _ _ Hr)) as [r' Hr']. exists r'. split; [done|]. intros Ht.
    destruct (H2 _ _ _ Hr' Ht) as (r0 & Hr0 & Ht0). congruence.
  - split; [rewrite Hu; set_solver|]. split; [done|]. split; [done|].
    destruct Hcase as [[_ ->]|(id & row & owner & locked & Hrow & _ & _ & ->)]; [by exists r|].
    cbn [schedules set_schedules]. rewrite lookup_insert. case_decide; [|by exists r].
    eexists. split; [done|]. cbn. intros [= Ht]. by rewrite Ht in Hfresh.
Qed.

Lemma dead_steps c y y' : SInv y -> dead c y -> rtc sys_step y y' -> dead c y'.
Proof.
  intros HI Hd Hs. revert HI Hd. induction Hs as [y|y z y' Hyz _ IH]; [done|]. intros HI Hd.
  apply IH; [by eapply step_inv|by eapply dead_step].
Qed.

Lemma dead_finish c outcome wnow now fs y r t' :
  dead c y -> run (finish uuid_text jsonb_in jsonb_object c outcome wnow now) fs (tab y) = (r, t') ->
  is_ok r = false /\ t' = tab y.
Proof.
  intros (_ & Hid & Htok & row & Hrow & Hne) Hrun.
  apply finish_effect in Hrun as [?|(id & token & row' & row'' & Hid' & Htok' & Hrow' & Hh & _)]; [done|].
  exfalso. rewrite Hid in Hid'. rewrite Htok in Htok'. simplify_eq. unfold holds_lease in Hh. by bool_simp.
Qed.

(** C39: leases fence stale workers.  Once a schedule has been claimed again,
    the worker of an earlier claim of it, however late it comes and whatever its
    handler answers, can neither complete nor fail the schedule: its call reports
    an error and leaves the tables alone, in every later state.  And two claims
    can never both hold the lease of a schedule. *)
Theorem schedule_fenced y c c' y1 y2 outcome wnow now fs r t' :
  reachable y -> c ∈ issued y ->
  sys_step y y1 -> issued y1 = c' :: issued y -> ClID c' = ClID c -> rtc sys_step y1 y2 ->
  run (finish uuid_text jsonb_in jsonb_object c outcome wnow now) fs (tab y2) = (r, t') ->
  is_ok r = false /\ t' = tab y2 /\
  forall row a b time, schedules (tab y2) !! ClID c = Some row -> a ∈ issued y2 -> b ∈ issued y2 ->
    holds_lease a (ClLeaseToken a) time row = true -> holds_lease b (ClLeaseToken b) time row = true -> a = b.
Proof.
  intros Hreach Hc Hstep Hissued Hsame Hlater Hrun. pose proof (reachable_schedules _ Hreach) as HI.
  pose proof (step_inv _ _ HI Hstep) as HI1.
  assert (HI2 : SInv y2).
  { clear Hrun. revert HI1. clear -Hlater uuid_solid. induction Hlater as [|x z w Hxz _ IH]; [done|].
    intros HIx. apply IH. by eapply step_inv. }
  assert (Hdead : dead c y1).
  { destruct (si_claim _ HI c Hc) as (Hu & Ht & Hid).
    destruct (step_cases _ _ HI Hstep) as (_ & _ & [(_ & Hl & _)|(token & Hfresh & _ & Hused & Hcase)]).
    { rewrite Hissued in Hl. apply (f_equal length) in Hl. cbn in Hl. lia. }
    destruct Hcase as [[Hl _]|(id & row & owner & locked & Hrow & _ & Hl & Htab)].
    { rewrite Hissued in Hl. apply (f_equal length) in Hl. cbn in Hl. lia. }
    rewrite Hissued in Hl. injection Hl as ->. cbn in Hsame. subst id.
    split; [rewrite Hused; set_solver|]. split; [done|]. split; [done|].
    rewrite Htab. cbn [schedules set_schedules]. rewrite lookup_insert_eq. eexists. split; [done|].
    cbn. intros [= Heq]. by rewrite Heq in Hfresh. }
  destruct (dead_finish _ _ _ _ _ _ _ _ (dead_steps _ _ _ HI1 Hdead Hlater) Hrun) as [Hr Ht].
  split; [done|]. split; [done|]. intros row a b time _ Ha Hb Hha Hhb. unfold holds_lease in Hha, Hhb. bool_simp.
  assert (Htok : ClLeaseToken a = ClLeaseToken b) by congruence.
  apply list_elem_of_lookup in Ha as [i Hi], Hb as [j Hj].
  assert (i = j) as ->; [|congruence]. eapply (NoDup_lookup (ClLeaseToken <$> issued y2) _ _ (ClLeaseToken a)); [apply HI2| |];
    rewrite list_lookup_fmap, ?Hi, ?Hj; cbn; congruence.
Qed.

Lemma exhausted_step y y' id row e :
  SInv y -> schedules (tab y) !! id = Some row -> sc_max_attempts row <= sc_attempts row ->
  sc_lease_expires row = Some e -> e <= clock y -> sys_step y y' ->
  schedules (tab y') !! id = Some row /\ e <= clock y'.
Proof.
  intros HI Hrow Hmax He Hclock Hstep.
  destruct (step_cases _ _ HI Hstep) as (Hk & _ & [(_ & _ & Hch)|(token & _ & _ & _ & Hcase)]); (split; [|lia]).
  - destruct Hch as [|c r r' _ Hr Hh _|id' r Hnone _ _]; [done| |].
    + rewrite lookup_insert. case_decide as E; [|done]. rewrite E, Hrow in Hr. injection Hr as <-.
      unfold holds_lease in Hh. rewrite He in Hh. bool_simp. lia.
    + rewrite lookup_insert. case_decide as E; [|done]. by rewrite <- E, Hnone in Hrow.
  - destruct Hcase as [[_ ->]|(id' & r & owner & locked & Hr & Hdue & _ & ->)]; [done|].
    cbn [schedules set_schedules]. rewrite lookup_insert. case_decide as E; [|done].
    rewrite E, Hrow in Hr. injection Hr as <-. unfold due in Hdue. cbn [fst snd] in Hdue. bool_simp. lia.
Qed.

(** C40: a worker lost on the last attempt loses the schedule.  Once the lease of
    the last allowed attempt has run out, the schedule keeps its row in every
    later state, whatever workers and registrations do: it is never claimed,
    completed, failed nor, if it was active, made inactive, since only a call
    under the lease resets its attempt count or switches it off. *)
Theorem lost_attempt_stuck y y' id row e :
  reachable y -> schedules (tab y) !! id = Some row -> sc_max_attempts row <= sc_attempts row ->
  sc_lease_expires row = Some e -> e <= clock y -> rtc sys_step y y' ->
  schedules (tab y') !! id = Some row /\
  (forall now locked, due now locked (id, row) = false) /\
  forall c outcome wnow now fs r t', ClID c = id -> c ∈ issued y' -> clock y' <= now ->
    run (finish uuid_text jsonb_in jsonb_object c outcome wnow now) fs (tab y') = (r, t') ->
    is_ok r = false /\ t' = tab y'.
Proof.
  intros Hreach Hrow Hmax He Hclock Hs. pose proof (reachable_schedules _ Hreach) as HI.
  assert (H : SInv y' /\ schedules (tab y') !! id = Some row /\ e <= clock y').
  { clear Hreach. revert HI Hrow Hclock. induction Hs as [y|y z y' Hyz _ IH]; [done|]. intros HI Hrow Hclock.
    destruct (exhausted_step _ _ _ _ _ HI Hrow Hmax He Hclock Hyz). apply IH; [by eapply step_inv|done..]. }
  destruct H as (HI' & Hrow' & Hclock'). split; [done|]. split.
  - intros now locked. unfold due. cbn [fst snd]. rewrite (proj2 (Z.ltb_ge _ _) Hmax). apply andb_false_r.
  - intros c outcome wnow now fs r t' Hid Hc Hnow Hrun. destruct (si_claim _ HI' c Hc) as (_ & Htok & Hcid).
    apply finish_effect in Hrun as [?|(id' & token & row' & row'' & Hid' & Htok' & Hr' & Hh & _)]; [done|].
    exfalso. rewrite Hcid in Hid'. injection Hid' as <-. rewrite Hid, Hrow' in Hr'. injection Hr' as <-.
    unfold holds_lease in Hh. rewrite He in Hh. bool_simp. lia.
Qed.
End system.

(** ** The claim that is made *)

#[local] Instance due_preordered :
  Preordered (then_by (asc (fun kv : string * ScheduleRow => sc_next_run (snd kv))) (asc_text fst)) := _.

(** With the database up, a claim takes the schedule that comes first by
    (next run, identifier) among those that are active, due, under no running
    lease, with an attempt left and not locked by another claim; it counts the
    attempt and takes the lease of the schedule; and it answers that nothing is
    due exactly when there is no such schedule. *)
Theorem claim_due_exact owner lease token now locked t r t' :
  owner <> "" -> 0 < lease ->
  run (ClaimDue true owner lease token now locked) [] t = (r, t') ->
  (r = Err ErrNoDueSchedule /\ t' = t /\
     forall id row, schedules t !! id = Some row -> due now locked (id, row) = false) \/
  exists id row, schedules t !! id = Some row /\ due now locked (id, row) = true /\
    (forall id' row', schedules t !! id' = Some row' -> due now locked (id', row') = true ->
       due_order (id', row') (id, row) = false) /\
    r = Ok (claim_of id owner token now row) /\
    t' = set_schedules t (<[id := lease_schedule owner token now row]> (schedules t)).
Proof.
  intros Howner Hlease Hrun. unfold run, ClaimDue in Hrun. cbn [negb] in Hrun.
  rewrite (bool_decide_false (owner = "")) in Hrun by done.
  rewrite (proj2 (Z.leb_gt _ _) Hlease) in Hrun. cbn [orb] in Hrun.
  unfold bind, attempt, pool_stmt, guarded, next_fault in Hrun. cbn [faults committed working] in Hrun.
  unfold claim_statement in Hrun.
  assert (Hin : forall id row, schedules t !! id = Some row -> due now locked (id, row) = true ->
    (id, row) ∈ List.filter (due now locked) (map_to_list (schedules t))).
  { intros id row Hr Hd. apply list_elem_of_In, filter_In. split; [|done].
    by apply list_elem_of_In, elem_of_map_to_list. }
  destruct (min_of due_order _) as [[id row]|] eqn:Em.
  - cbn in Hrun. injection Hrun as <- <-. right. exists id, row.
    destruct (min_due _ _ _ _ _ Em) as [Hr Hd]. split_and!; try done. intros id' row' Hr' Hd'.
    eapply (min_of_least due_order); [| | |exact Em|by apply Hin].
    + intros x y z. apply before_le_trans, _.
    + intros x y. apply before_asym, _.
    + intros x. apply before_irrefl, _.
  - cbn in Hrun. injection Hrun as <- <-. left. split_and!; try done. apply min_of_None in Em.
    intros id row Hr. destruct (due now locked (id, row)) eqn:Hd; [|done]. specialize (Hin _ _ Hr Hd).
    rewrite Em in Hin. by apply not_elem_of_nil in Hin.
Qed.

(** ** A concrete history *)

(** The schedule of the demonstration configuration, allowed two attempts. *)
Definition demo_two_attempts : Schedule :=
  let i := match Resolve (ids_of demo_registration) demo_schedule with Ok i => i | Err _ => demo_schedule end in
  let i := mkScheduleInput (Name i) (Provider i) (SourceID i) (DatasetID i) (SeriesID i) (InstrumentID i)
    (SourceCode i) (DatasetKey i) (SeriesCode i) (CredentialEnv i) (BaseURL i) (InRequest i) (IntervalSeconds i)
    2 (LeaseSeconds i) (NextRunAt i) (InFXPair i) in
  match NormalizeSchedule demo_url id i with Ok sc => sc | Err _ => mkSchedule i "" "" end.

Definition demo_sid : string := "00000000-0000-4000-8000-000000000009".
Definition demo_tok1 : string := "00000000-0000-4000-8000-00000000000a".
Definition demo_tok2 : string := "00000000-0000-4000-8000-00000000000b".

Abbreviation d0 := (snd demo_registration).
Abbreviation demo_upsert := (run (UpsertSchedule true demo_uuid Some (fun _ => true) demo_sid 0 demo_two_attempts) [] d0).
Abbreviation d1 := (snd demo_upsert).
Abbreviation demo_claim1 := (run (ClaimDue true "a/1" 1 demo_tok1 (10 * Second) ∅) [] d1).
Abbreviation d2 := (snd demo_claim1).
Abbreviation demo_claim2 := (run (ClaimDue true "b/2" 1 demo_tok2 (200 * Second) ∅) [] d2).
Abbreviation d3 := (snd demo_claim2).

Definition claimed {S} (o : res Claim * S) : Claim :=
  match fst o with
  | Ok c => c
  | Err _ => mkClaim "" "" "" "" None None None "" "" "" "" "" 0 0 0 0 0 0 ""
  end.

Lemma claimed_ok {S} (o : res Claim * S) : is_ok (fst o) = true -> fst o = Ok (claimed o).
Proof. destruct o as [[c|e] s]; [done|intros H; discriminate H]. Qed.

Lemma demo_ok1 : is_ok (fst demo_claim1) = true.
Proof. vm_compute. reflexivity. Qed.

Lemma demo_ok2 : is_ok (fst demo_claim2) = true.
Proof. vm_compute. reflexivity. Qed.

Lemma demo_same : ClID (claimed demo_claim2) = ClID (claimed demo_claim1).
Proof. vm_compute. reflexivity. Qed.

Definition used_up (r : ScheduleRow) : bool :=
  (sc_max_attempts r <=? sc_attempts r) && bool_decide (sc_lease_expires r = Some (320 * Second)).

Abbreviation demo_step := (sys_step demo_uuid Some (fun _ => true)).
Abbreviation demo_reach := (reachable demo_uuid Some (fun _ => true)).

Lemma demo_schedules_empty : schedules d0 = ∅ /\ good demo_uuid d0.
Proof.
  pose proof demo_registered as H.
  apply (RegisterCatalog_effect _ _ demo_uuid_solid _ demo_ids_canonical) in H as (Hg & Hgr & _); [|exact demo_good].
  split; [|exact Hg]. rewrite (gr_schedules _ _ Hgr). reflexivity.
Qed.

Lemma demo_start : demo_reach (mkSys d1 0 ∅ []).
Proof.
  destruct demo_schedules_empty as [Hs Hg]. eapply re_step; [exact (re_init _ _ _ d0 0 Hg Hs)|].
  eapply (st_upsert _ _ _ [] demo_sid demo_two_attempts 0); [reflexivity|reflexivity|]. apply surjective_pairing.
Qed.

(** A claim as a step, by the state it leads to. *)
Definition after_claim (y : sys) (owner token : string) (now : time) : sys :=
  let o := run (ClaimDue true owner 1 token now ∅) [] (tab y) in
  mkSys (snd o) now ({[token]} ∪ used y) (hand_out (fst o) (issued y)).

Lemma claim_step y owner token now :
  clock y <= now -> token ∉ used y -> demo_uuid token = Some token ->
  demo_step y (after_claim y owner token now).
Proof. destruct y. intros Hk Hu Ht. unfold after_claim. cbv zeta. eapply st_claim; [exact Hk|exact Hu|exact Ht|]. apply surjective_pairing. Qed.

Definition demo_y1 : sys := after_claim (mkSys d1 0 ∅ []) "a/1" demo_tok1 (10 * Second).
Definition demo_y2 : sys := after_claim demo_y1 "b/2" demo_tok2 (200 * Second).

Lemma demo_step1 : demo_step (mkSys d1 0 ∅ []) demo_y1.
Proof. apply claim_step; [cbn [clock]; unfold Second; lia|cbn [used]; set_solver|reflexivity]. Qed.

Lemma demo_step2 : demo_step demo_y1 demo_y2.
Proof.
  apply claim_step; [|unfold demo_y1, after_claim; cbn [used]|reflexivity].
  - unfold demo_y1, after_claim. cbn [clock]. unfold Second. lia.
  - rewrite elem_of_union, elem_of_singleton. intros [H|H]; [discriminate H|by apply elem_of_empty in H].
Qed.

Lemma demo_reach1 : demo_reach demo_y1.
Proof. exact (re_step _ _ _ _ _ demo_start demo_step1). Qed.

Lemma hand_out_ok {S} (o : res Claim * S) l : is_ok (fst o) = true -> hand_out (fst o) l = claimed o :: l.
Proof. destruct o as [[c|e] t]; [done|intros H; discriminate H]. Qed.

Lemma demo_issued1 : issued demo_y1 = [claimed demo_claim1].
Proof. exact (hand_out_ok demo_claim1 [] demo_ok1). Qed.

Lemma demo_issued2 : issued demo_y2 = claimed demo_claim2 :: issued demo_y1.
Proof. exact (hand_out_ok demo_claim2 (issued demo_y1) demo_ok2). Qed.

Lemma demo_used_up :
  match schedules (tab demo_y2) !! demo_sid with Some r => used_up r | None => false end = true.
Proof. vm_compute. reflexivity. Qed.

Lemma schedule_fenced_witness :
  let late := run (finish demo_uuid Some (fun _ => true) (claimed demo_claim1) (Ok (mkRunOutcome "" "" true))
                     (210 * Second) (210 * Second)) [] (tab demo_y2) in
  is_ok (fst late) = false /\ snd late = tab demo_y2.
Proof.
  cbv zeta. set (late := run _ _ _).
  assert (Hin : claimed demo_claim1 ∈ issued demo_y1) by (rewrite demo_issued1; left).
  destruct (schedule_fenced demo_uuid Some (fun _ => true) demo_uuid_solid demo_y1 (claimed demo_claim1) (claimed demo_claim2)
    demo_y2 demo_y2 (Ok (mkRunOutcome "" "" true)) (210 * Second) (210 * Second) [] (fst late) (snd late)
    demo_reach1 Hin demo_step2 demo_issued2 demo_same (rtc_refl _ _) (surjective_pairing late)) as (H1 & H2 & _).
  exact (conj H1 H2).
Defined.

Lemma lost_attempt_stuck_witness :
  exists row, schedules (tab demo_y2) !! demo_sid = Some row /\ forall now locked, due now locked (demo_sid, row) = false.
Proof.
  pose proof demo_used_up as H. destruct (schedules (tab demo_y2) !! demo_sid) as [row|] eqn:Hrow; [|discriminate H].
  exists row. unfold used_up in H. apply andb_prop in H as [Hm He].
  assert (Hlater : demo_step demo_y2 (mkSys (tab demo_y2) (400 * Second) (used demo_y2) (issued demo_y2))).
  { eapply (st_finish _ _ _ [true] (claimed demo_claim1) (Ok (mkRunOutcome "" "" true)) 0).
    - unfold Second. lia.
    - rewrite demo_issued2, demo_issued1. right. left.
    - vm_compute. reflexivity. }
  destruct (lost_attempt_stuck demo_uuid Some (fun _ => true) demo_uuid_solid
    (mkSys (tab demo_y2) (400 * Second) (used demo_y2) (issued demo_y2)) (mkSys (tab demo_y2) (400 * Second) (used demo_y2) (issued demo_y2))
    demo_sid row (320 * Second) (re_step _ _ _ _ _ (re_step _ _ _ _ _ demo_reach1 demo_step2) Hlater) Hrow)
    as (_ & Hd & _).
  - apply Z.leb_le, Hm.
  - exact (bool_decide_eq_true_1 _ He).
  - unfold clock, Second. lia.
  - apply rtc_refl.
  - exact (conj eq_refl Hd).
Defined.

Lemma claim_due_exact_witness :
  exists id row, schedules d1 !! id = Some row /\ fst demo_claim1 = Ok (claim_of id "a/1" demo_tok1 (10 * Second) row).
Proof.
  destruct (claim_due_exact "a/1" 1 demo_tok1 (10 * Second) ∅ d1 (fst demo_claim1) (snd demo_claim1)
    ltac:(discriminate) ltac:(lia) (surjective_pairing _)) as [(Hr & _)|(id & row & Hrow & _ & _ & Hr & _)].
  - exfalso. pose proof demo_ok1 as H. rewrite Hr in H. discriminate H.
  - exists id, row. exact (conj Hrow Hr).
Defined.
